(* ===== verification/_CoqProject ===== *)
-Q . S2P
Prelude.v
GoUnicode.v
GoStrings.v
GoUrl.v
GoUrlEscape.v
GoUrlText.v
GoPath.v
GoCrypto.v
GoBase64.v
GoFloat.v
GoTime.v
GoJson.v
GoJsonStruct.v
GoRFC3339.v
Identity.v
Job.v
GoFS.v
DocStore.v
IdentityStore.v
NodeState.v
Queue.v
QueueStore.v
Worker.v
Pool.v
Heartbeat.v
Dispatcher.v
Cluster.v
Security.v
Ranges.v
Upload.v
Viper.v
GoFlag.v
ConfigData.v
Config.v
Logging.v
GoMime.v
Storage.v
Ops.v
Transfer.v
Download.v
GoSha1.v
Router.v
Callback.v
Fetch.v
AurenStorage.v
S3.v
Resolver.v
HubClient.v
Connector.v
Executor.v
Meter.v
Delivery.v
Background.v
Gateway.v
Wire.v
Handoff.v
Observability.v
DevUI.v
DevSummary.v
DevRoutes.v
Server.v
Boot.v
AgentYaml.v
LinuxPackage.v
Startup.v
Serving.v
Launch.v
Plugins.v
