(* ===== verification/Prelude.v ===== *)
(** * Auren Transfer Agent: a verification development

    The agent (src/, Go) is a node of a media network.  It registers with a Media Hub,
    claims transfer jobs, downloads a source with resume and checksums, stores it locally or
    with a remote store, and reports the outcome; it also proxies public streams (the
    gateway), runs jobs submitted over its own HTTP interface through a bounded queue and a
    worker pool, and can be part of a small cluster.

    ** Parts and files

    Standard library of Go, as far as the agent uses it: Prelude.v (64-bit integers, errors,
    results, time, the state monad), GoUnicode.v (which characters print), GoStrings.v, GoUrl.v, GoUrlEscape.v, GoUrlText.v
    (package net/url), GoPath.v (path/filepath), GoCrypto.v and GoSha1.v (SHA-256, HMAC,
    SHA-1), GoBase64.v, GoFloat.v (binary64), GoTime.v, GoRFC3339.v, GoJson.v (values behind
    [any]) and GoJsonStruct.v (structs and JSON objects), GoMime.v, GoFS.v (files, with the atomic write the stores share).

    Jobs and their execution: Job.v (worker/job.go), Queue.v (queue/memory.go; the class
    [JobQueue] is what clients rely on), QueueStore.v (queue/persistence.go, adapters.go),
    Worker.v and Pool.v (worker/worker.go, pool.go; goroutines as a step relation),
    Dispatcher.v (dispatcher/), Heartbeat.v (heartbeat/, scheduler/, runtime/version.go),
    Cluster.v (cluster/cluster.go).

    Transfers: Transfer.v (contract, slot tracker, recovery files and claiming of
    internal/transfer and mediahub/transfer_payloads.go), Executor.v (transfer/executor.go,
    the whole of [Execute] in a state monad), Background.v (the goroutines [Execute] runs
    beside its main line: control messages, lease renewal, cancellation), Meter.v (the writers
    and readers that report progress or keep a rate), Delivery.v (the
    executor with the remote drivers), Download.v, Ranges.v and Fetch.v (download/),
    Upload.v (upload/), Storage.v, AurenStorage.v and S3.v (storage/), Resolver.v
    (resolver/), Gateway.v (gateway/: tracker, admission, one request), Handoff.v (gateway/
    again, with messages, headers and the goroutines of a stream), Callback.v
    (upload/callback.go), Ops.v (ops/runtime.go).

    The node: Identity.v and IdentityStore.v (identity/), DocStore.v (what the two JSON
    stores share), NodeState.v, HubClient.v, Wire.v (the JSON of jobs, claims, sessions and
    reports) and Connector.v (mediahub/), Logging.v (logger/), Security.v
    (security/security.go), Viper.v, ConfigData.v and Config.v (config/), Router.v and
    Server.v (server/, server/chicompat, logger/request.go), Observability.v
    (observability/, server/telemetry.go), DevUI.v, DevSummary.v and DevRoutes.v
    (devui/recorder.go, trace_infer.go, summary.go, routes.go), Boot.v (options made of the settings, and what their
    validation gives the constructors), GoFlag.v (package
    flag), AgentYaml.v and LinuxPackage.v (bootstrap/linux_package.go: the commands bootstrap,
    doctor and status), Startup.v (bootstrap.go: choice of the command, start of the parts),
    Serving.v (the loops of a running node: claiming, control, heartbeats, sessions;
    connector.go, manager.go, server/runtime.go), Launch.v (the whole of [runServe]: every
    constructor, route and check in its order), Plugins.v (pkg/plugins/sdk.go).

    Launch.v connects validated settings with a running agent; Server.v composes the router,
    the authenticator, the queue and the queue file; Dispatcher.v composes queue, pool and
    retry; Executor.v composes tracker, download, local adapter, state file and callbacks;
    Connector.v composes the signed client and the state file; LinuxPackage.v composes flags,
    variables, settings, identity and connector into the bootstrap of a node, and Startup.v
    identity, queue file and connector into the start of the agent.  Delivery.v composes the
    executor with the protocols of the stores, and Serving.v the transfer manager, the slot
    tracker and the claim loop with the end of the process.  Wire.v composes claiming with the
    signed client, and Handoff.v the gateway with it.

    ** Conventions

    A handler or method is one definition with its guards in the order of the code.  An
    operation that runs under one mutex is one transition; operations of several goroutines
    are interleaved, by an inductive step relation or by lists of labels that an executable
    [act] takes one at a time: the goroutines of a job (Background.v), claims and executions on
    a node (Serving.v), submissions to the worker interface (Server.v), the copy and the
    heartbeats of a stream (Handoff.v), the requests of the gateway (Gateway.v).  Everything the outside decides is an
    argument: clock readings, random bytes, the outcome of each system call, the answers of
    HTTP servers, and the order in which Go enumerates a map.  The JSON codec is a parameter;
    what a theorem needs of it (decoding undoes encoding) is a hypothesis of that theorem,
    with a witness.  Errors are values of [error] with the message of the branch; [result] is
    a pair of value and error of which one is used.  A nil map and an empty map are the same;
    methods on nil receivers are not modelled.  Letter case is the ASCII mapping.  Metrics
    and trace callbacks, which only observe, are left out where a file's comment says so.

    ** What the theorems show

    A theorem states its conditions, and its comment repeats them; where a condition is needed
    because the code does otherwise, a theorem or example with a concrete input shows it and is
    named in the comment.

    Transfers deliver exactly the bytes they report, also over interrupted attempts, and
    account for every job ([Execute_delivers], [transfer_end_to_end],
    [download_attempts_exact], [Execute_accounts], [claimed_jobs_accounted],
    [control_is_reported], [multipart_download_exact], [Upload_exact], [multipartCopy_exact],
    [auren_upload_protocol]).  Jobs and sessions are the ones the hub wrote, and what is
    reported of a stream is what the client received ([claim_roundtrip], [handoff_resolved],
    [handoff_reports]).  Log lines keep their format ([log_lines_valid], [console_chunking]).
    What is stored survives crashes and restarts
    ([Save_crash_safe], [identity_stable], [node_keeps_credentials],
    [submitted_jobs_are_durable], [start_keeps_jobs]).  A bootstrap leaves settings that are
    valid, read back as written, and free of its secrets ([configure_valid],
    [agent_file_roundtrip], [bootstrap_outcome]).  Requests are authenticated in both directions
    ([unauthenticated_changes_nothing], [doJSON_signed], [CanonicalString_unambiguous],
    [auren_requests_authorized], [s3_requests_verify], [Validate_sound], [Sign_Validate]),
    paths stay confined ([ResolveDestination_confined]) and secrets of recorded addresses,
    headers and maps are redacted ([sanitizeURL_hides], [records_hide_secrets]; structs and
    addresses that do not parse are not).  Concurrent parts refine sequential ones
    ([memory_queue_refines_fifo], [pool_linearizable], [tracker_shows_ledger],
    [tracker_bounds_running], [scheduler_delivers]).  Loops end ([dispatch_drains],
    [redirects_bounded], [RunWithRetry_spec], [pool_terminates], [goroutines_end]).  Settings mean what the
    file and the environment say ([config_file_roundtrip], [Load_precedence],
    [valid_settings_launch]); links and addresses mean the file they name
    ([registry_takes_first], [derived_links_roundtrip]).

    ** Fuel

    Loops that are not structural take fuel and a theorem shows that the fuel given is
    enough: plans of ranges get [total / part + 2], parts of an upload [size / partSize + 2],
    retries one more than the attempts, redirects one more than the limit; parsers get the
    length of their input (each round consumes a character) and the YAML tree the number of
    sections in the store.

    ** Not modelled

    Signals, the listener and the text of the start report (the rest of bootstrap.go and
    server/runtime.go), the text of the page of the developer console and of
    the Grafana dashboard, the tuning of HTTP transports, and the cookie jar of the
    standard library that download/cookies.go wraps.  The directory dist/ holds an older copy of the same
    sources. *)
From Stdlib Require Export ZArith Lia Ascii ZifyBool.
From stdpp Require Export base tactics option list gmap strings sorting pretty.

#[global] Open Scope Z_scope.

(** ** Machine integers

    Go's [int] and [int64] are 64-bit two's complement integers on the
    platforms the agent is built for.  A value is kept as a [Z]; arithmetic
    that the code performs is followed by [wrap64]. *)
Definition int64_min : Z := - 2 ^ 63.
Definition int64_max : Z := 2 ^ 63 - 1.
Definition in_int64 (z : Z) : Prop := int64_min <= z <= int64_max.
Definition wrap64 (z : Z) : Z := (z + 2 ^ 63) `mod` 2 ^ 64 - 2 ^ 63.

#[global] Instance in_int64_dec z : Decision (in_int64 z).
Proof. unfold in_int64. apply _. Defined.

Lemma wrap64_id z : in_int64 z -> wrap64 z = z.
Proof.
  unfold in_int64, int64_min, int64_max, wrap64. intros H.
  rewrite Z.mod_small by lia. lia.
Qed.

Lemma wrap64_range z : in_int64 (wrap64 z).
Proof.
  unfold in_int64, int64_min, int64_max, wrap64.
  pose proof (Z.mod_pos_bound (z + 2 ^ 63) (2 ^ 64)). lia.
Qed.

(** ** Errors

    A Go [error] is a sentinel value ([errors.New], compared by identity), a
    formatted message ([fmt.Errorf]) or a message wrapping another error
    ([fmt.Errorf] with [%w]).  The rendered message of a wrapping error is
    stored whole, the way [fmt] builds it. *)
Inductive error : Type :=
| Sentinel (name : string)
| Errorf (msg : string)
| Wrapf (msg : string) (inner : error).

#[global] Instance error_eq_dec : EqDecision error.
Proof. solve_decision. Defined.

(** The [Error()] method. *)
Definition Error (e : error) : string :=
  match e with Sentinel m => m | Errorf m => m | Wrapf m _ => m end.

(** [errors.Is]: identity with a sentinel anywhere down the wrapping chain. *)
Fixpoint errors_Is (e target : error) : bool :=
  bool_decide (e = target) ||
  match e with Wrapf _ inner => errors_Is inner target | _ => false end.

(** The result of a Go function of type [(T, error)] whose value is unused
    when the error is not nil. *)
Inductive result (A : Type) : Type :=
| Ok (a : A)
| Err (e : error).
Arguments Ok {_} _.
Arguments Err {_} _.

#[global] Instance result_ret : MRet result := fun A => Ok.
#[global] Instance result_bind : MBind result :=
  fun A B f r => match r with Ok a => f a | Err e => Err e end.

Definition is_ok {A} (r : result A) : bool :=
  match r with Ok _ => true | Err _ => false end.

Lemma bind_Ok {A B} (f : A -> result B) (r : result A) b :
  (r ≫= f) = Ok b <-> exists a, r = Ok a /\ f a = Ok b.
Proof. destruct r; cbn; naive_solver. Qed.

Lemma is_ok_true {A} (r : result A) : is_ok r = true <-> exists a, r = Ok a.
Proof. destruct r; simpl; naive_solver. Qed.

(** ** Time

    A [time.Time] is the number of nanoseconds since Go's zero time, so
    [IsZero] is [= 0] and [UTC] is the identity on the instant.  Every clock
    reading of the code is an argument of the operation that makes it.  A
    [time.Duration] is a 64-bit number of nanoseconds, and [Sub] saturates. *)
Definition Time := Z.
Definition Duration := Z.
Definition zero_time : Time := 0.
Definition IsZero (t : Time) : bool := t =? 0.
Definition nanosecond : Duration := 1.
Definition second : Duration := 1000000000.
Definition time_Sub (t u : Time) : Duration :=
  Z.max int64_min (Z.min int64_max (t - u)).

(** A clock reading stands for [time.Now().UTC()]: it is never the zero time. *)
Definition or_now (t now : Time) : Time := if IsZero t then now else t.

Lemma time_Sub_range t u : in_int64 (time_Sub t u).
Proof. unfold in_int64, time_Sub, int64_min, int64_max. lia. Qed.

Lemma IsZero_or_now t now : IsZero now = false -> IsZero (or_now t now) = false.
Proof. unfold or_now. by destruct (IsZero t) eqn:E. Qed.

(** [ctx.Err()]: [None] while the context is live. *)
Definition Context := option error.
Definition context_Canceled : error := Sentinel "context canceled".

(** ** Shared list lemmas *)
Lemma Forall_snoc {A} (P : A -> Prop) l x : Forall P (l ++ [x]) <-> Forall P l /\ P x.
Proof. rewrite Forall_app, Forall_singleton. done. Qed.

(** Membership in an explicit list. *)
Ltac in_list := repeat first [by left | right].

Definition zlen {A} (l : list A) : Z := Z.of_nat (length l).

Lemma zlen_app {A} (l k : list A) : zlen (l ++ k) = zlen l + zlen k.
Proof. unfold zlen. rewrite length_app. lia. Qed.

Lemma zlen_cons {A} (x : A) l : zlen (x :: l) = 1 + zlen l.
Proof. unfold zlen. simpl length. lia. Qed.

Lemma zlen_nonneg {A} (l : list A) : 0 <= zlen l.
Proof. unfold zlen. lia. Qed.

(** Decide a property of the integers below a bound by evaluation. *)
Lemma range_forall (n : Z) (P : Z -> bool) :
  forallb P (seqZ 0 n) = true -> forall z, 0 <= z < n -> P z = true.
Proof.
  intros H z Hz. rewrite forallb_forall in H. apply H, list_elem_of_In, elem_of_seqZ. lia.
Qed.

(** The same for large bounds, halving the range. *)
Fixpoint check_below (depth : nat) (lo : Z) (P : Z -> bool) : bool :=
  match depth with
  | O => P lo
  | S d => check_below d lo P && check_below d (lo + 2 ^ Z.of_nat d) P
  end.
Lemma check_below_forall depth lo P : check_below depth lo P = true ->
  forall z, lo <= z < lo + 2 ^ Z.of_nat depth -> P z = true.
Proof.
  revert lo. induction depth as [|d IH]; intros lo H z Hz; simpl in H.
  - change (2 ^ Z.of_nat 0) with 1 in Hz. by replace z with lo by lia.
  - apply andb_true_iff in H as [H1 H2]. rewrite Nat2Z.inj_succ, Z.pow_succ_r in Hz by lia.
    destruct (decide (z < lo + 2 ^ Z.of_nat d)); [apply (IH lo H1); lia|apply (IH _ H2); lia].
Qed.

(** An element is determined by its identifier when identifiers are distinct. *)
Lemma NoDup_map_inj {A B} (f : A -> B) l x y : NoDup (map f l) -> x ∈ l -> y ∈ l -> f x = f y -> x = y.
Proof.
  induction l as [|z l IH]; intros HN Hx Hy E; [by apply not_elem_of_nil in Hx|].
  apply NoDup_cons in HN as [Hz HN]. apply elem_of_cons in Hx as [->|Hx], Hy as [->|Hy]; try done.
  - exfalso. apply Hz. rewrite E. apply list_elem_of_fmap. eauto.
  - exfalso. apply Hz. rewrite <- E. apply list_elem_of_fmap. eauto.
  - by apply IH.
Qed.

(** Sum of a measure over a list. *)
Definition zsum {A} (f : A -> Z) (l : list A) : Z := foldr (fun x a => f x + a) 0 l.

Lemma zsum_app {A} (f : A -> Z) l k : zsum f (l ++ k) = zsum f l + zsum f k.
Proof. induction l; simpl; lia. Qed.

Lemma zsum_nonneg {A} (f : A -> Z) l : Forall (fun x => 0 <= f x) l -> 0 <= zsum f l.
Proof. induction 1; simpl; lia. Qed.

Lemma zsum_perm {A} (f : A -> Z) l k : l ≡ₚ k -> zsum f l = zsum f k.
Proof. induction 1; simpl; lia. Qed.

Lemma zsum_insert {A} (f : A -> Z) l i x y : l !! i = Some x ->
  zsum f (<[i := y]> l) = zsum f l - f x + f y.
Proof.
  revert i. induction l as [|z l IH]; intros [|i] H; simplify_eq/=; [lia|]. rewrite (IH i) by done. lia.
Qed.

Lemma zsum_replicate {A} (f : A -> Z) n x : zsum f (replicate n x) = Z.of_nat n * f x.
Proof. induction n as [|n IH]; [done|]. cbn [replicate zsum foldr]. unfold zsum in IH. lia. Qed.

(** ** Sorting

    [sort.Slice] with a [less] function, and [sort.Strings].  Go's sort is not
    stable; the model is a stable insertion sort, and the lemmas below only use
    that the output is a sorted permutation of the input. *)
Definition slice_le {A} (less : A -> A -> bool) : relation A :=
  fun x y => less y x = false.

Fixpoint insert_Slice {A} (less : A -> A -> bool) (x : A) (l : list A) : list A :=
  match l with
  | [] => [x]
  | y :: r => if less y x then y :: insert_Slice less x r else x :: y :: r
  end.
Definition sort_Slice {A} (less : A -> A -> bool) (l : list A) : list A :=
  foldr (insert_Slice less) [] l.
Definition sort_Strings (l : list string) : list string := merge_sort String.le l.

Lemma insert_Slice_perm {A} (less : A -> A -> bool) x l : insert_Slice less x l ≡ₚ x :: l.
Proof.
  induction l as [|y r IH]; simpl; [done|]. destruct (less y x); [|done]. rewrite IH. apply Permutation_swap.
Qed.

Lemma sort_Slice_perm {A} (less : A -> A -> bool) l : sort_Slice less l ≡ₚ l.
Proof. induction l as [|x l IH]; simpl; [done|]. by rewrite insert_Slice_perm, IH. Qed.

(** The order only matters on the elements of the slice. *)
Lemma sort_Slice_ext {A} (less less' : A -> A -> bool) l :
  (forall x y, x ∈ l -> y ∈ l -> less x y = less' x y) -> sort_Slice less l = sort_Slice less' l.
Proof.
  assert (forall x r, (forall y, y ∈ r -> less y x = less' y x) ->
    insert_Slice less x r = insert_Slice less' x r) as Hins.
  { intros x r. induction r as [|y r IH]; intros H; simpl; [done|].
    rewrite (H y), IH; [done| |left]. intros z Hz. apply H. by right. }
  induction l as [|x l IH]; intros H; simpl; [done|].
  rewrite IH by (intros; apply H; by right). apply Hins. intros y Hy. apply H; [right|left].
  rewrite <- sort_Slice_perm. exact Hy.
Qed.

Lemma sort_Strings_perm l : sort_Strings l ≡ₚ l.
Proof. apply merge_sort_Permutation. Qed.

Lemma sort_Strings_sorted l : StronglySorted String.le (sort_Strings l).
Proof. apply (StronglySorted_merge_sort _). Qed.

(** A comparator that is a strict weak order: what [sort.Slice] requires. *)
Class WeakOrder {A} (less : A -> A -> bool) : Prop := {
  weak_asym x y : less x y = true -> less y x = false;
  weak_trans x y z : less y x = false -> less z y = false -> less z x = false
}.

Lemma insert_Slice_sorted {A} (less : A -> A -> bool) `{!WeakOrder less} x l :
  StronglySorted (slice_le less) l -> StronglySorted (slice_le less) (insert_Slice less x l).
Proof.
  induction 1 as [|y r HS IH HF]; simpl; [repeat constructor|].
  destruct (less y x) eqn:E; constructor; [done| |by constructor|].
  - rewrite insert_Slice_perm. constructor; [by apply weak_asym|done].
  - constructor; [done|]. eapply Forall_impl; [exact HF|]. intros z Hz. by eapply weak_trans.
Qed.

Lemma sort_Slice_sorted {A} (less : A -> A -> bool) `{!WeakOrder less} l :
  StronglySorted (slice_le less) (sort_Slice less l).
Proof. induction l as [|x l IH]; simpl; [constructor|by apply insert_Slice_sorted]. Qed.

(** The first element of a sorted slice is a least element of the input. *)
Lemma sort_Slice_head {A} (less : A -> A -> bool) `{!WeakOrder less} l x r :
  sort_Slice less l = x :: r ->
  x ∈ l /\ forall y, y ∈ l -> less y x = false.
Proof.
  intros E. pose proof (sort_Slice_perm less l) as P.
  pose proof (sort_Slice_sorted less l) as S. rewrite E in P, S.
  split; [rewrite <- P; left|]. intros y Hy. rewrite <- P in Hy.
  apply StronglySorted_cons in S as [F _].
  apply elem_of_cons in Hy as [->|Hy].
  - destruct (less x x) eqn:Ex; [|done].
    pose proof (weak_asym _ _ Ex). congruence.
  - rewrite Forall_forall in F. by apply F.
Qed.

(** A strict total order given by a boolean function. *)
Class StrictTotal {K} (lt : K -> K -> bool) : Prop := {
  st_irrefl x : lt x x = false;
  st_trans x y z : lt x y = true -> lt y z = true -> lt x z = true;
  st_total x y : x <> y -> lt x y = false -> lt y x = true
}.

(** Go's [<] on strings is the byte-wise lexicographic order. *)
Lemma string_ltb_leb x y : String.ltb x y = negb (String.leb y x).
Proof.
  unfold String.ltb, String.leb. rewrite (String.compare_antisym y x). by destruct (String.compare x y).
Qed.

#[global] Instance string_ltb_total : StrictTotal String.ltb.
Proof.
  constructor.
  - intros x. rewrite string_ltb_leb. destruct (String.leb_total x x) as [-> | ->]; done.
  - intros x y z. rewrite !string_ltb_leb, !negb_true_iff. intros H1 H2.
    destruct (String.leb z x) eqn:E; [|done]. exfalso.
    destruct (String.leb_total x y) as [Hxy|Hxy]; [|congruence].
    assert (String.le z y) as Hzy.
    { transitivity x; unfold String.le; by rewrite ?E, ?Hxy. }
    unfold String.le in Hzy. by rewrite H2 in Hzy.
  - intros x y Hne. rewrite !string_ltb_leb, negb_false_iff, negb_true_iff. intros H.
    destruct (String.leb x y) eqn:E; [|done]. exfalso. by apply Hne, String.leb_antisym.
Qed.

(** Compare by a key, and by an identifier where the keys are equal. *)
Definition lex_less {A K} `{EqDecision K} (lt : K -> K -> bool) (key : A -> K) (id : A -> string)
  (a b : A) : bool :=
  if bool_decide (key a = key b) then String.ltb (id a) (id b) else lt (key a) (key b).

Lemma strict_asym {K} (lt : K -> K -> bool) `{!StrictTotal lt} x y : lt x y = true -> lt y x = false.
Proof.
  intros H. destruct (lt y x) eqn:E; [|done]. pose proof (st_trans x y x H E). by rewrite st_irrefl in *.
Qed.

#[global] Instance lex_less_weak {A K} `{EqDecision K} (lt : K -> K -> bool) `{!StrictTotal lt}
  (key : A -> K) (id : A -> string) : WeakOrder (lex_less lt key id).
Proof.
  constructor.
  - intros x y. unfold lex_less. case_bool_decide as E; intros H.
    + rewrite bool_decide_true by done. by apply (strict_asym String.ltb).
    + rewrite bool_decide_false by congruence. by apply strict_asym.
  - intros x y z L1 L2. unfold lex_less in *.
    destruct (decide (key y = key x)) as [Eyx|Nyx], (decide (key z = key y)) as [Ezy|Nzy].
    + rewrite !bool_decide_true in * by congruence.
      destruct (String.ltb (id z) (id x)) eqn:E; [|done]. exfalso.
      destruct (decide (id x = id y)) as [Exy|Hne]; [congruence|].
      destruct (String.ltb (id x) (id y)) eqn:Exy; [|by rewrite (st_total (id x) (id y)) in L1].
      by rewrite (st_trans _ _ _ E Exy) in L2.
    + rewrite bool_decide_false in L2 |- * by congruence. by rewrite <- Eyx.
    + rewrite bool_decide_false in L1 |- * by congruence. by rewrite Ezy.
    + rewrite bool_decide_false in L1, L2 by done.
      destruct (decide (key z = key x)) as [Ezx|Nzx].
      { pose proof (st_total _ _ Nyx L1). congruence. }
      rewrite bool_decide_false by done. destruct (lt (key z) (key x)) eqn:E; [|done]. exfalso.
      pose proof (st_total _ _ Nyx L1) as Exy. by rewrite (st_trans _ _ _ E Exy) in L2.
Qed.

(** Elements neither of which comes first have the same identifier. *)
Lemma lex_less_id {A K} `{EqDecision K} (lt : K -> K -> bool) `{!StrictTotal lt}
  (key : A -> K) (id : A -> string) x y :
  lex_less lt key id x y = false -> lex_less lt key id y x = false -> id x = id y.
Proof.
  unfold lex_less. intros L1 L2. destruct (decide (key x = key y)) as [E|N].
  - rewrite bool_decide_true in L1, L2 by done.
    destruct (decide (id x = id y)) as [|Hne]; [done|]. by rewrite (st_total _ _ Hne L1) in L2.
  - rewrite bool_decide_false in L1, L2 by congruence. by rewrite (st_total _ _ N L1) in L2.
Qed.

(** With distinct identifiers the first element after sorting does not depend on
    the order of the input, nor on which sorting algorithm is used. *)
Lemma sort_Slice_head_perm {A K} `{EqDecision K} (lt : K -> K -> bool) `{!StrictTotal lt}
  (key : A -> K) (id : A -> string) l l' : l ≡ₚ l' -> NoDup (map id l) ->
  head (sort_Slice (lex_less lt key id) l) = head (sort_Slice (lex_less lt key id) l').
Proof.
  intros HP HN.
  destruct (sort_Slice (lex_less lt key id) l) as [|x r] eqn:E;
  destruct (sort_Slice (lex_less lt key id) l') as [|x' r'] eqn:E'.
  - done.
  - pose proof (sort_Slice_perm (lex_less lt key id) l) as P1. rewrite E, HP in P1.
    pose proof (sort_Slice_perm (lex_less lt key id) l') as P2. rewrite E', <- P1 in P2.
    by apply Permutation_nil_r in P2.
  - pose proof (sort_Slice_perm (lex_less lt key id) l) as P1. rewrite E, HP in P1.
    pose proof (sort_Slice_perm (lex_less lt key id) l') as P2. rewrite E', <- P1 in P2.
    by apply Permutation_nil_l in P2.
  - destruct (sort_Slice_head _ _ _ _ E) as [Hx Hmin], (sort_Slice_head _ _ _ _ E') as [Hx' Hmin'].
    rewrite <- HP in Hx'. cbn [head]. f_equal.
    assert (id x = id x') as Hid.
    { apply (lex_less_id lt key id); [apply Hmin'; by rewrite <- HP|by apply Hmin]. }
    by apply (NoDup_map_inj id l).
Qed.

(** ** Automation *)
Create HintDb agent discriminated.
#[export] Hint Resolve wrap64_range time_Sub_range zlen_nonneg : agent.
#[export] Hint Resolve sort_Slice_perm sort_Strings_perm : agent.

(** Case analysis on every [if] and [match] of a fallible computation that is
    known to have returned, discarding the branches that return something
    else. *)
Ltac inv_run H :=
  repeat (first [ progress simplify_eq/= | case_match | case_decide ];
          try discriminate H).
