(* ===== verification/GoStrings.v ===== *)
(** * Go strings

    The parts of the packages [strings], [strconv] and [encoding/hex] that the
    agent uses.  A Go string is a sequence of bytes: it is modelled by
    [string], and the functions work on its list of characters.

    [TrimSpace] is exact: it removes the UTF-8 encodings of every rune of
    [unicode.IsSpace].  Letter case ([ToLower], [ToUpper], [EqualFold]) is the
    ASCII mapping; bytes from 0x80 on are left as they are, so the Unicode case
    tables are outside the model. *)
From S2P Require Import Prelude GoUnicode.

Notation chars := String.list_ascii_of_string.
Notation str := String.string_of_list_ascii.

Definition code (c : ascii) : Z := Z.of_N (N_of_ascii c).

Lemma str_chars s : str (chars s) = s.
Proof. apply String.string_of_list_ascii_of_string. Qed.
Lemma chars_str l : chars (str l) = l.
Proof. apply String.list_ascii_of_string_of_list_ascii. Qed.
Lemma chars_inj s t : chars s = chars t -> s = t.
Proof. intros E. by rewrite <- (str_chars s), E, str_chars. Qed.
Lemma chars_app s t : chars (s +:+ t) = chars s ++ chars t.
Proof. induction s as [|c s IH]; [done|]. change (c :: chars (s +:+ t) = c :: chars s ++ chars t). by rewrite IH. Qed.
Lemma chars_nil s : chars s = [] <-> s = "".
Proof. by destruct s. Qed.
Lemma length_chars s : length (chars s) = String.length s.
Proof. induction s; simpl; congruence. Qed.

(** [len] of a string. *)
Definition slen (s : string) : Z := zlen (chars s).

(** ** White space *)

(** The runes of [unicode.IsSpace] by the length of their encoding. *)
Definition space1 (c : ascii) : bool :=
  let k := code c in ((9 <=? k) && (k <=? 13)) || (k =? 32).
Definition space2 (c d : ascii) : bool :=
  (code c =? 0xC2) && ((code d =? 0x85) || (code d =? 0xA0)).
Definition space3 (c d e : ascii) : bool :=
  let k := code e in
  ((code c =? 0xE1) && (code d =? 0x9A) && (k =? 0x80)) ||
  ((code c =? 0xE2) && (code d =? 0x80) &&
     (((0x80 <=? k) && (k <=? 0x8A)) || (k =? 0xA8) || (k =? 0xA9) || (k =? 0xAF))) ||
  ((code c =? 0xE2) && (code d =? 0x81) && (k =? 0x9F)) ||
  ((code c =? 0xE3) && (code d =? 0x80) && (k =? 0x80)).

Section Trim.
Context (p1 : ascii -> bool) (p2 : ascii -> ascii -> bool)
        (p3 : ascii -> ascii -> ascii -> bool).

(** Does the list start with a rune to trim? *)
Definition starts_with_space (l : list ascii) : bool :=
  match l with
  | c :: d :: e :: _ => p1 c || p2 c d || p3 c d e
  | [c; d] => p1 c || p2 c d
  | [c] => p1 c
  | [] => false
  end.

Fixpoint trim_front (l : list ascii) : list ascii :=
  match l with
  | [] => []
  | c :: r1 =>
    if p1 c then trim_front r1 else
    match r1 with
    | [] => l
    | d :: r2 =>
      if p2 c d then trim_front r2 else
      match r2 with
      | [] => l
      | e :: r3 => if p3 c d e then trim_front r3 else l
      end
    end
  end.

(** Either nothing is trimmed, or a non-empty front goes and trimming goes on. *)
Lemma trim_front_step l :
  (starts_with_space l = false /\ trim_front l = l) \/
  exists k r, k <> [] /\ l = k ++ r /\ trim_front l = trim_front r.
Proof.
  destruct l as [|c [|d [|e l]]]; [by left|..].
  - destruct (p1 c) eqn:E1; [right; exists [c], []|left]; simpl; by rewrite E1.
  - destruct (p1 c) eqn:E1; [right; exists [c], [d]; simpl; by rewrite E1|].
    destruct (p2 c d) eqn:E2; [right; exists [c; d], []|left]; simpl; by rewrite E1, E2.
  - destruct (p1 c) eqn:E1; [right; exists [c], (d :: e :: l); simpl; by rewrite E1|].
    destruct (p2 c d) eqn:E2; [right; exists [c; d], (e :: l); simpl; by rewrite E1, E2|].
    destruct (p3 c d e) eqn:E3; [right; exists [c; d; e], l|left]; simpl; by rewrite E1, E2, E3.
Qed.

(** Induction along the trimming. *)
Lemma trim_front_ind (P : list ascii -> list ascii -> Prop) :
  (forall l, starts_with_space l = false -> P l l) ->
  (forall k r t, P r t -> P (k ++ r) t) ->
  forall l, P l (trim_front l).
Proof.
  intros Hbase Hstep l. remember (length l) as n eqn:Hn.
  revert l Hn. induction n as [n IH] using lt_wf_ind. intros l ->.
  destruct (trim_front_step l) as [[H1 ->]|(k & r & Hk & -> & ->)]; [by apply Hbase|].
  apply Hstep. eapply IH; [|done]. destruct k; [done|]. simpl. rewrite length_app. lia.
Qed.

Lemma trim_front_id l : starts_with_space l = false -> trim_front l = l.
Proof.
  destruct l as [|c [|d [|e l]]]; simpl; rewrite ?orb_false_iff; [done|..].
  - by intros ->.
  - by intros [-> ->].
  - by intros [[-> ->] ->].
Qed.

Lemma trim_front_clean l : starts_with_space (trim_front l) = false.
Proof. by apply (trim_front_ind (fun _ t => starts_with_space t = false)). Qed.

Lemma trim_front_idemp l : trim_front (trim_front l) = trim_front l.
Proof. apply trim_front_id, trim_front_clean. Qed.

Lemma trim_front_suffix l : exists k, l = k ++ trim_front l.
Proof.
  apply (trim_front_ind (fun l t => exists k, l = k ++ t)).
  - intros k _. by exists [].
  - intros k r t [k' ->]. exists (k ++ k'). by rewrite app_assoc.
Qed.

(** Starting with a space only depends on a prefix. *)
Lemma starts_with_space_app l k :
  starts_with_space l = true -> starts_with_space (l ++ k) = true.
Proof.
  destruct l as [|c [|d [|e l]]], k as [|c' [|d' k]]; simpl; try done;
    rewrite ?orb_true_iff; tauto.
Qed.

Lemma trim_front_cons c r1 : trim_front (c :: r1) =
  if p1 c then trim_front r1 else
  match r1 with
  | [] => c :: r1
  | d :: r2 =>
    if p2 c d then trim_front r2 else
    match r2 with
    | [] => c :: r1
    | e :: r3 => if p3 c d e then trim_front r3 else c :: r1
    end
  end.
Proof. done. Qed.

Lemma trim_front_map f l :
  (forall c, p1 (f c) = p1 c) -> (forall c d, p2 (f c) (f d) = p2 c d) ->
  (forall c d e, p3 (f c) (f d) (f e) = p3 c d e) ->
  trim_front (map f l) = map f (trim_front l).
Proof.
  intros H1 H2 H3. remember (length l) as n eqn:Hn.
  revert l Hn. induction n as [n IH] using lt_wf_ind. intros l ->.
  assert (forall r, (length r < length l)%nat -> trim_front (map f r) = map f (trim_front r)) as IH'.
  { intros r Hr. by eapply IH. }
  destruct l as [|c r1]; [done|]. cbn [map]. rewrite !trim_front_cons, H1.
  destruct (p1 c); [apply IH'; simpl; lia|].
  destruct r1 as [|d r2]; [done|]. cbn [map]. rewrite H2.
  destruct (p2 c d); [apply IH'; simpl; lia|].
  destruct r2 as [|e r3]; [done|]. cbn [map]. rewrite H3.
  destruct (p3 c d e); [apply IH'; simpl; lia|done].
Qed.

Lemma trim_front_none l : Forall (fun c => p1 c = false) l ->
  (forall c d, c ∈ l -> p2 c d = false) -> (forall c d e, c ∈ l -> p3 c d e = false) ->
  trim_front l = l.
Proof.
  intros F1 F2 F3. apply trim_front_id.
  destruct l as [|c [|d [|e l]]]; simpl; inv F1;
    rewrite ?orb_false_iff; split_and?; (done || (apply F2; left) || (apply F3; left)).
Qed.

Lemma starts_not_space l c : head l = Some c -> p1 c = false ->
  (forall d, p2 c d = false) -> (forall d e, p3 c d e = false) -> starts_with_space l = false.
Proof.
  intros Hl H1 H2 H3. destruct l as [|x [|y [|z r]]]; [done|..]; injection Hl as ->; simpl;
    rewrite H1, ?H2, ?H3; done.
Qed.
End Trim.

Definition trim_left_space : list ascii -> list ascii := trim_front space1 space2 space3.
Definition trim_right_space (l : list ascii) : list ascii :=
  reverse (trim_front space1 (fun d c => space2 c d) (fun e d c => space3 c d e) (reverse l)).

Definition TrimSpace (s : string) : string := str (trim_right_space (trim_left_space (chars s))).

Lemma trim_right_prefix l : exists k, l = trim_right_space l ++ k.
Proof.
  unfold trim_right_space.
  destruct (trim_front_suffix space1 (fun d c => space2 c d) (fun e d c => space3 c d e) (reverse l))
    as [k Hk].
  exists (reverse k). rewrite <- reverse_app, <- Hk. by rewrite reverse_involutive.
Qed.

Lemma TrimSpace_idemp s : TrimSpace (TrimSpace s) = TrimSpace s.
Proof.
  unfold TrimSpace. rewrite chars_str. f_equal.
  set (l := trim_left_space (chars s)).
  assert (trim_left_space (trim_right_space l) = trim_right_space l) as ->.
  { apply trim_front_id. destruct (starts_with_space _ _ _ (trim_right_space l)) eqn:E; [|done].
    destruct (trim_right_prefix l) as [k Hk].
    apply (starts_with_space_app _ _ _ _ k) in E. rewrite <- Hk in E.
    unfold l, trim_left_space in E. by rewrite trim_front_clean in E. }
  unfold trim_right_space. by rewrite reverse_involutive, trim_front_idemp.
Qed.

(** A string of printable ASCII characters without space is left alone. *)
Definition no_space (c : ascii) : bool := (32 <? code c) && (code c <? 128).

Lemma no_space_not_space c : no_space c = true ->
  space1 c = false /\ (forall d, space2 c d = false /\ space2 d c = false) /\
  (forall d e, space3 c d e = false /\ space3 e d c = false).
Proof.
  unfold no_space, space1, space2, space3. intros H. split; [lia|]. split; intros; split; lia.
Qed.

(** Only the first and the last character matter. *)
Lemma TrimSpace_ends s c d : head (chars s) = Some c -> last (chars s) = Some d ->
  no_space c = true -> no_space d = true -> TrimSpace s = s.
Proof.
  intros Hh Hl (C1 & C2 & C3)%no_space_not_space (D1 & D2 & D3)%no_space_not_space.
  unfold TrimSpace, trim_left_space, trim_right_space. rewrite (trim_front_id space1 space2 space3).
  - rewrite trim_front_id; [by rewrite reverse_involutive, str_chars|].
    rewrite <- (reverse_involutive (chars s)), last_reverse in Hl.
    eapply starts_not_space; [exact Hl|done|apply D2|intros; apply D3].
  - eapply starts_not_space; [exact Hh|done|apply C2|intros; apply C3].
Qed.

(** A visible character in front of a trimmed text keeps it trimmed. *)
Lemma TrimSpace_cons c s : no_space c = true -> TrimSpace s = s -> TrimSpace (String c s) = String c s.
Proof.
  intros Hc Hs. assert (starts_with_space space1 (fun d c => space2 c d) (fun e d c => space3 c d e) (reverse (chars s)) = false) as HR.
  { rewrite <- Hs. unfold TrimSpace, trim_right_space. rewrite chars_str, reverse_involutive. apply trim_front_clean. }
  apply no_space_not_space in Hc as (C1 & C2 & C3).
  assert (chars (String c s) = c :: chars s) as HC by done.
  unfold TrimSpace, trim_left_space, trim_right_space. rewrite HC, (trim_front_id space1 space2 space3).
  - rewrite reverse_cons, trim_front_id; [by rewrite reverse_app, reverse_involutive, reverse_singleton; cbn [app]; rewrite <- HC, str_chars|].
    destruct (reverse (chars s)) as [|x [|y [|z r]]]; cbn [app starts_with_space] in *; rewrite ?C1; try done;
      rewrite ?orb_false_iff in *; repeat split; intuition (apply C2 || apply C3 || done).
  - eapply starts_not_space; [done|done|apply C2|intros; apply C3].
Qed.

(** A character that is part of no space survives trimming. *)
Lemma trim_front_keeps p1 p2 p3 x l : p1 x = false -> (forall d, p2 x d = false /\ p2 d x = false) ->
  (forall d e, p3 x d e = false /\ p3 d x e = false /\ p3 d e x = false) -> x ∈ l -> x ∈ trim_front p1 p2 p3 l.
Proof.
  intros H1 H2 H3. remember (length l) as n eqn:Hn. revert l Hn. induction n as [n IH] using lt_wf_ind. intros l -> Hx.
  destruct l as [|c l]; [done|]. rewrite trim_front_cons. destruct (p1 c) eqn:E1.
  { apply elem_of_cons in Hx as [<-|Hx]; [congruence|]. eapply IH; [|done|done]. simpl. lia. }
  destruct l as [|d l]; [done|]. destruct (p2 c d) eqn:E2.
  { rewrite !elem_of_cons in Hx. destruct Hx as [<-|[<-|Hx]]; [by rewrite (proj1 (H2 _)) in E2|by rewrite (proj2 (H2 _)) in E2|].
    eapply IH; [|done|done]. simpl. lia. }
  destruct l as [|e l]; [done|]. destruct (p3 c d e) eqn:E3; [|done].
  rewrite !elem_of_cons in Hx. destruct Hx as [<-|[<-|[<-|Hx]]].
  - destruct (H3 d e) as (? & _ & _). congruence.
  - destruct (H3 c e) as (_ & ? & _). congruence.
  - destruct (H3 c d) as (_ & _ & ?). congruence.
  - eapply IH; [|done|done]. simpl. lia.
Qed.

(** A text with a visible character is not blank. *)
Lemma TrimSpace_visible s c : c ∈ chars s -> no_space c = true -> TrimSpace s <> "".
Proof.
  intros Hc Hs E. apply (f_equal chars) in E. unfold TrimSpace, trim_right_space, trim_left_space in E. rewrite chars_str in E.
  assert (space1 c = false /\ (forall d, space2 c d = false /\ space2 d c = false) /\
    forall d e, space3 c d e = false /\ space3 d c e = false /\ space3 d e c = false) as (H1 & H2 & H3).
  { unfold no_space in Hs. unfold space1, space2, space3. split; [lia|]. split; intros; split_and?; lia. }
  assert (c ∈ chars "") as Hin; [|by apply not_elem_of_nil in Hin]. rewrite <- E. apply elem_of_reverse. apply trim_front_keeps.
  - done.
  - intros d. destruct (H2 d). done.
  - intros d e. destruct (H3 d e) as (A & _ & _), (H3 e d) as (_ & B & C). destruct (H3 e d) as (F & _ & _), (H3 d e) as (_ & G & K). done.
  - apply elem_of_reverse. by apply trim_front_keeps.
Qed.

Lemma TrimSpace_id s : Forall (fun c => no_space c = true) (chars s) -> TrimSpace s = s.
Proof.
  intros F. destruct (chars s) as [|c l] eqn:E; [by apply chars_nil in E as ->|].
  destruct (last (c :: l)) as [d|] eqn:Hl; [|by apply last_None in Hl].
  apply (TrimSpace_ends s c d); rewrite ?E; try done.
  - by apply Forall_cons in F as [? _].
  - rewrite Forall_forall in F. apply F. by apply last_Some_elem_of.
Qed.

(** ** Letter case *)
Definition lower_char (c : ascii) : ascii :=
  if (65 <=? code c) && (code c <=? 90) then ascii_of_N (N_of_ascii c + 32) else c.
Definition upper_char (c : ascii) : ascii :=
  if (97 <=? code c) && (code c <=? 122) then ascii_of_N (N_of_ascii c - 32) else c.

Definition ToLower (s : string) : string := str (map lower_char (chars s)).
Definition newline : string := str ["010"%char].
Definition ToUpper (s : string) : string := str (map upper_char (chars s)).
Definition EqualFold (s t : string) : bool := String.eqb (ToLower s) (ToLower t).

(** Decide a property of characters by evaluation on the 256 of them. *)
Definition all_chars : list ascii := map ascii_of_nat (seq 0 256).
Lemma all_chars_complete c : c ∈ all_chars.
Proof.
  unfold all_chars. rewrite list_elem_of_fmap. exists (nat_of_ascii c).
  rewrite ascii_nat_embedding. split; [done|].
  rewrite elem_of_seq. pose proof (nat_ascii_bounded c). lia.
Qed.
Lemma char_forall (P : ascii -> bool) : forallb P all_chars = true -> forall c, P c = true.
Proof. intros H c. rewrite forallb_forall in H. apply H, list_elem_of_In, all_chars_complete. Qed.

Lemma lower_char_idemp c : lower_char (lower_char c) = lower_char c.
Proof.
  apply Ascii.eqb_eq. revert c.
  apply (char_forall (fun c => Ascii.eqb (lower_char (lower_char c)) (lower_char c))).
  vm_compute. reflexivity.
Qed.

Lemma ToLower_idemp s : ToLower (ToLower s) = ToLower s.
Proof.
  unfold ToLower. rewrite chars_str, map_map. f_equal. apply map_ext, lower_char_idemp.
Qed.

Lemma upper_char_idemp c : upper_char (upper_char c) = upper_char c.
Proof.
  apply Ascii.eqb_eq. revert c.
  apply (char_forall (fun c => Ascii.eqb (upper_char (upper_char c)) (upper_char c))).
  vm_compute. reflexivity.
Qed.

Lemma ToUpper_idemp s : ToUpper (ToUpper s) = ToUpper s.
Proof.
  unfold ToUpper. rewrite chars_str, map_map. f_equal. apply map_ext, upper_char_idemp.
Qed.

(** Changing the case of a character never changes what it is as (part of) a
    white-space rune. *)
Section CaseMapping.
Context (f : ascii -> ascii).
Hypothesis f_letters : forall c, code (f c) = code c \/ (65 <= code c <= 122 /\ 65 <= code (f c) <= 122).

Lemma case_code_eqb c k : k < 65 \/ 122 < k -> (code (f c) =? k) = (code c =? k).
Proof. pose proof (f_letters c). lia. Qed.
Lemma case_code_geb c k : k < 65 \/ 122 < k -> (k <=? code (f c)) = (k <=? code c).
Proof. pose proof (f_letters c). lia. Qed.
Lemma case_code_leb c k : k < 65 \/ 122 < k -> (code (f c) <=? k) = (code c <=? k).
Proof. pose proof (f_letters c). lia. Qed.

Lemma space_case :
  (forall c, space1 (f c) = space1 c) /\
  (forall c d, space2 (f c) (f d) = space2 c d) /\
  (forall c d e, space3 (f c) (f d) (f e) = space3 c d e).
Proof.
  split_and!; intros; unfold space1, space2, space3;
    rewrite ?case_code_eqb, ?case_code_geb, ?case_code_leb by lia; done.
Qed.

Lemma TrimSpace_map s : TrimSpace (str (map f (chars s))) = str (map f (chars (TrimSpace s))).
Proof.
  destruct space_case as (H1 & H2 & H3).
  unfold TrimSpace, trim_left_space, trim_right_space.
  rewrite !chars_str. f_equal.
  rewrite trim_front_map by done. rewrite <- fmap_reverse.
  change (f <$> ?x) with (map f x).
  rewrite trim_front_map by (intros; done || apply H2 || apply H3).
  by rewrite <- fmap_reverse.
Qed.
End CaseMapping.

Lemma lower_char_letters c : code (lower_char c) = code c \/ (65 <= code c <= 122 /\ 65 <= code (lower_char c) <= 122).
Proof.
  pose proof (char_forall (fun c => (code (lower_char c) =? code c) ||
    ((65 <=? code c) && (code c <=? 122) && (65 <=? code (lower_char c)) && (code (lower_char c) <=? 122)))
    ltac:(vm_compute; reflexivity) c) as H. cbv beta in H.
  lia.
Qed.
Lemma upper_char_letters c : code (upper_char c) = code c \/ (65 <= code c <= 122 /\ 65 <= code (upper_char c) <= 122).
Proof.
  pose proof (char_forall (fun c => (code (upper_char c) =? code c) ||
    ((65 <=? code c) && (code c <=? 122) && (65 <=? code (upper_char c)) && (code (upper_char c) <=? 122)))
    ltac:(vm_compute; reflexivity) c) as H. cbv beta in H.
  lia.
Qed.
Lemma TrimSpace_ToLower s : TrimSpace (ToLower s) = ToLower (TrimSpace s).
Proof. apply TrimSpace_map, lower_char_letters. Qed.
Lemma TrimSpace_ToUpper s : TrimSpace (ToUpper s) = ToUpper (TrimSpace s).
Proof. apply TrimSpace_map, upper_char_letters. Qed.

(** The normalisation [strings.ToLower(strings.TrimSpace(v))], used throughout. *)
Definition canonical (s : string) : string := ToLower (TrimSpace s).

Lemma canonical_idemp s : canonical (canonical s) = canonical s.
Proof. unfold canonical. by rewrite TrimSpace_ToLower, TrimSpace_idemp, ToLower_idemp. Qed.
Lemma canonical_trimmed s : TrimSpace (canonical s) = canonical s.
Proof. unfold canonical. by rewrite TrimSpace_ToLower, TrimSpace_idemp. Qed.
Lemma canonical_lower s : ToLower (canonical s) = canonical s.
Proof. unfold canonical. by rewrite ToLower_idemp. Qed.

#[export] Hint Rewrite TrimSpace_idemp ToLower_idemp canonical_idemp canonical_trimmed
  canonical_lower str_chars chars_str chars_app : agent.

(** ** Prefixes, suffixes, splitting *)
Fixpoint is_prefix (p l : list ascii) : bool :=
  match p, l with
  | [], _ => true
  | c :: p, d :: l => Ascii.eqb c d && is_prefix p l
  | _, _ => false
  end.

Definition HasPrefix (s p : string) : bool := is_prefix (chars p) (chars s).
Definition HasSuffix (s p : string) : bool := is_prefix (reverse (chars p)) (reverse (chars s)).
Definition TrimPrefix (s p : string) : string :=
  if HasPrefix s p then str (drop (length (chars p)) (chars s)) else s.
Definition TrimSuffix (s p : string) : string :=
  if HasSuffix s p then str (take (length (chars s) - length (chars p)) (chars s)) else s.

(** [strings.Index] on characters; [None] is Go's -1. *)
Fixpoint find_sub (p l : list ascii) : option nat :=
  if is_prefix p l then Some 0%nat else
  match l with [] => None | _ :: r => S <$> find_sub p r end.
Definition Contains (s sub : string) : bool :=
  match find_sub (chars sub) (chars s) with Some _ => true | None => false end.
Definition ContainsAny (s cs : string) : bool :=
  existsb (fun c => existsb (Ascii.eqb c) (chars cs)) (chars s).

Fixpoint find_char (p : ascii -> bool) (l : list ascii) : option nat :=
  match l with
  | [] => None
  | c :: r => if p c then Some 0%nat else S <$> find_char p r
  end.
Definition IndexByte (l : list ascii) (c : ascii) : option nat := find_char (Ascii.eqb c) l.
Definition LastIndexByte (l : list ascii) (c : ascii) : option nat :=
  (fun i => length l - 1 - i)%nat <$> find_char (Ascii.eqb c) (reverse l).

(** [strings.Split] with a one-byte separator: at least one field. *)
Fixpoint split_chars (sep : ascii) (l : list ascii) : list (list ascii) :=
  match l with
  | [] => [[]]
  | c :: r =>
    if Ascii.eqb c sep then [] :: split_chars sep r
    else match split_chars sep r with
         | [] => [[c]]
         | f :: fs => (c :: f) :: fs
         end
  end.
Definition Split (s : string) (sep : ascii) : list string := map str (split_chars sep (chars s)).

Definition Join (l : list string) (sep : string) : string := String.concat sep l.

(** [strings.Trim], [strings.TrimLeft] with a one-character cutset. *)
Fixpoint drop_char (c : ascii) (l : list ascii) : list ascii :=
  match l with d :: r => if Ascii.eqb c d then drop_char c r else l | [] => [] end.
Definition TrimLeftChar (c : ascii) (s : string) : string := str (drop_char c (chars s)).
Definition TrimChar (c : ascii) (s : string) : string :=
  str (reverse (drop_char c (reverse (drop_char c (chars s))))).

Definition TrimRightChar (c : ascii) (s : string) : string := str (reverse (drop_char c (reverse (chars s)))).

(** The helper of several packages: the first value that is not blank, trimmed. *)
Fixpoint firstNonEmpty (values : list string) : string :=
  match values with
  | [] => ""
  | v :: rest => if String.eqb (TrimSpace v) "" then firstNonEmpty rest else TrimSpace v
  end.

(** [strings.ReplaceAll] with a non-empty pattern. *)
Fixpoint replace_go (fuel : nat) (old new l : list ascii) : list ascii :=
  match fuel with
  | O => l
  | S fuel =>
    match l with
    | [] => []
    | c :: r => if is_prefix old l then new ++ replace_go fuel old new (drop (length old) l)
                else c :: replace_go fuel old new r
    end
  end.
Definition ReplaceAll (s old new : string) : string :=
  str (replace_go (length (chars s)) (chars old) (chars new) (chars s)).

Lemma is_prefix_spec p l : is_prefix p l = true <-> exists k, l = p ++ k.
Proof.
  revert l. induction p as [|c p IH]; intros [|d l]; simpl; split; try done; try naive_solver.
  - rewrite andb_true_iff, Ascii.eqb_eq, IH. intros [-> [k ->]]. by exists k.
  - intros [k [= -> ->]]. rewrite Ascii.eqb_refl. apply IH. by exists k.
Qed.

Lemma TrimPrefix_app p s : TrimPrefix (p +:+ s) p = s.
Proof.
  unfold TrimPrefix, HasPrefix. rewrite chars_app.
  rewrite (proj2 (is_prefix_spec (chars p) (chars p ++ chars s))) by eauto.
  rewrite drop_app_length. apply str_chars.
Qed.
Lemma HasPrefix_app p s : HasPrefix (p +:+ s) p = true.
Proof. unfold HasPrefix. rewrite chars_app. apply is_prefix_spec. eauto. Qed.

Lemma HasSuffix_spec s p : HasSuffix s p = true <-> exists k, chars s = k ++ chars p.
Proof.
  unfold HasSuffix. rewrite is_prefix_spec. split; intros [k Hk].
  - exists (reverse k). apply (inj reverse). by rewrite Hk, reverse_app, reverse_involutive.
  - exists (reverse k). by rewrite Hk, reverse_app.
Qed.

(** Removing a suffix keeps a prefix of the string. *)
Lemma TrimSuffix_prefix s p : exists k, chars s = chars (TrimSuffix s p) ++ k.
Proof.
  unfold TrimSuffix. case_match; [|by exists []; rewrite app_nil_r].
  rewrite chars_str. eexists. by rewrite take_drop.
Qed.

Lemma ToLower_fixed s : ToLower s = s <-> Forall (fun c => lower_char c = c) (chars s).
Proof.
  unfold ToLower. split.
  - intros H. apply (f_equal chars) in H. rewrite chars_str in H.
    induction (chars s) as [|c l IH]; [done|]. simpl in H. injection H as H1 H2.
    constructor; auto.
  - intros F. rewrite <- (str_chars s) at 2. f_equal.
    induction F as [|c l Hc _ IH]; [done|]. simpl. congruence.
Qed.

(** Joining the fields of a split with the separator gives the string back. *)
Fixpoint join_chars (sep : ascii) (ls : list (list ascii)) : list ascii :=
  match ls with
  | [] => []
  | [l] => l
  | l :: ls => l ++ sep :: join_chars sep ls
  end.

Lemma split_chars_ne sep l : split_chars sep l <> [].
Proof. destruct l; simpl; repeat case_match; done. Qed.

Lemma join_split sep l : join_chars sep (split_chars sep l) = l.
Proof.
  induction l as [|c l IH]; [done|]. simpl.
  destruct (Ascii.eqb_spec c sep) as [->|Hne].
  - destruct (split_chars sep l) eqn:E; [by apply split_chars_ne in E|]. simpl in *. by rewrite IH.
  - destruct (split_chars sep l) as [|f fs] eqn:E; [by apply split_chars_ne in E|].
    destruct fs; simpl in *; by rewrite IH.
Qed.

Lemma split_chars_app sep l r :
  split_chars sep (l ++ sep :: r) = split_chars sep l ++ split_chars sep r.
Proof.
  induction l as [|c l IH]; simpl.
  - by rewrite Ascii.eqb_refl.
  - destruct (Ascii.eqb c sep); [by rewrite IH|]. rewrite IH.
    destruct (split_chars sep l) eqn:E; [by apply split_chars_ne in E|done].
Qed.

Lemma split_chars_no_sep sep l : Forall (fun f => sep ∉ f) (split_chars sep l).
Proof.
  induction l as [|c l IH]; simpl.
  - constructor; [set_solver|constructor].
  - destruct (Ascii.eqb_spec c sep) as [->|Hne].
    + constructor; [set_solver|done].
    + destruct (split_chars sep l); inv IH; constructor; set_solver.
Qed.

Lemma split_chars_plain sep l : sep ∉ l -> split_chars sep l = [l].
Proof.
  induction l as [|c l IH]; intros H; simpl; [done|]. rewrite IH by set_solver.
  destruct (Ascii.eqb_spec c sep) as [->|]; [set_solver|done].
Qed.

Lemma split_join_plain sep ls : ls <> [] -> Forall (fun l => sep ∉ l) ls -> split_chars sep (join_chars sep ls) = ls.
Proof.
  intros Hne HF. induction HF as [|l ls Hl HF IH]; [done|]. destruct ls as [|l' ls].
  - cbn [join_chars]. by apply split_chars_plain.
  - change (join_chars sep (l :: l' :: ls)) with (l ++ sep :: join_chars sep (l' :: ls)).
    by rewrite split_chars_app, split_chars_plain, IH.
Qed.

(** ** Numbers *)

(** [strconv.FormatInt(n, 10)] and [%d]. *)
Definition Itoa (n : Z) : string := pretty n.

Definition digit (c : ascii) : option Z :=
  if (48 <=? code c) && (code c <=? 57) then Some (code c - 48) else None.

Fixpoint digits_value (l : list ascii) (acc : Z) : option Z :=
  match l with
  | [] => Some acc
  | c :: r => match digit c with Some d => digits_value r (acc * 10 + d) | None => None end
  end.

(** [strconv.ParseInt(s, 10, 64)]: an optional sign, at least one digit, and a
    value in range. *)
Definition ErrSyntax : error := Sentinel "invalid syntax".
Definition ErrRange : error := Sentinel "value out of range".
Definition num_error (s : string) (e : error) : error :=
  Wrapf ("strconv.ParseInt: parsing " +:+ s +:+ ": " +:+ Error e) e.

Definition ParseInt (s : string) : result Z :=
  let '(neg, l) := match chars s with
                   | "+"%char :: r => (false, r)
                   | "-"%char :: r => (true, r)
                   | l => (false, l)
                   end in
  match l with
  | [] => Err (num_error s ErrSyntax)
  | _ =>
    match digits_value l 0 with
    | None => Err (num_error s ErrSyntax)
    | Some v => let z := if neg : bool then - v else v in
                if decide (in_int64 z) then Ok z else Err (num_error s ErrRange)
    end
  end.

Definition is_lower_hex (c : ascii) : bool :=
  ((48 <=? code c) && (code c <=? 57)) || ((97 <=? code c) && (code c <=? 102)).

Definition hex_digit (n : Z) : ascii :=
  ascii_of_N (Z.to_N (if n <? 10 then 48 + n else 87 + n)).
(** [hex.EncodeToString] on a list of bytes. *)
Definition hex_encode (bytes : list Z) : list ascii :=
  mbind (fun b => [hex_digit (b / 16); hex_digit (b `mod` 16)]) bytes.

(** ** Quoting

    The [%q] verb: double quotes, with Go's escapes.  Text beyond ASCII is decoded as UTF-8:
    a printable character is kept, another one is written as its code point, and a byte
    that starts no valid sequence is written in hexadecimal. *)
Definition hex2 (c : ascii) : list ascii := [hex_digit (code c / 16); hex_digit (code c `mod` 16)].
Definition quote_char (c : ascii) : list ascii :=
  let n := code c in
  if (n =? 34) || (n =? 92) then ["\"%char; c]
  else if n =? 7 then chars "\a" else if n =? 8 then chars "\b"
  else if n =? 9 then chars "\t" else if n =? 10 then chars "\n"
  else if n =? 11 then chars "\v" else if n =? 12 then chars "\f"
  else if n =? 13 then chars "\r"
  else if (n <? 32) || (n =? 127) then chars "\x" ++ hex2 c
  else [c].
Fixpoint hex_digits (width : nat) (n : Z) : list ascii :=
  match width with O => [] | S w => hex_digits w (n / 16) ++ [hex_digit (n `mod` 16)] end.
Definition quote_rune (bytes : list ascii) (r : Z) : list ascii :=
  if IsPrint r then bytes
  else if r <? 65536 then chars "\u" ++ hex_digits 4 r else chars "\U" ++ hex_digits 8 r.
(** Sequences of two, three and four bytes: continuation bytes, no overlong form, no surrogate
    and nothing above U+10FFFF. *)
Definition utf8_tail (c : ascii) : bool := (128 <=? code c) && (code c <? 192).
Definition utf8_two (a b : ascii) : option Z :=
  let r := (code a - 192) * 64 + (code b - 128) in
  if (194 <=? code a) && (code a <? 224) && utf8_tail b then Some r else None.
Definition utf8_three (a b c : ascii) : option Z :=
  let r := ((code a - 224) * 64 + (code b - 128)) * 64 + (code c - 128) in
  if (224 <=? code a) && (code a <? 240) && utf8_tail b && utf8_tail c && (2048 <=? r) && negb ((55296 <=? r) && (r <? 57344))
  then Some r else None.
Definition utf8_four (a b c d : ascii) : option Z :=
  let r := (((code a - 240) * 64 + (code b - 128)) * 64 + (code c - 128)) * 64 + (code d - 128) in
  if (240 <=? code a) && (code a <? 245) && utf8_tail b && utf8_tail c && utf8_tail d && (65536 <=? r) && (r <? 1114112)
  then Some r else None.
Fixpoint quote_chars (l : list ascii) : list ascii :=
  match l with
  | [] => []
  | a :: l1 =>
    let bad := chars "\x" ++ hex2 a in
    if code a <? 128 then quote_char a ++ quote_chars l1 else
    match l1 with
    | [] => bad
    | b :: l2 =>
      match utf8_two a b with
      | Some r => quote_rune [a; b] r ++ quote_chars l2
      | None =>
        match l2 with
        | [] => bad ++ quote_chars l1
        | c :: l3 =>
          match utf8_three a b c with
          | Some r => quote_rune [a; b; c] r ++ quote_chars l3
          | None =>
            match l3 with
            | [] => bad ++ quote_chars l1
            | d :: l4 =>
              match utf8_four a b c d with
              | Some r => quote_rune [a; b; c; d] r ++ quote_chars l4
              | None => bad ++ quote_chars l1
              end
            end
          end
        end
      end
    end
  end.
Definition Quote (s : string) : string :=
  str ([ascii_of_nat 34] ++ quote_chars (chars s) ++ [ascii_of_nat 34]).
(** A letter with an accent, a byte that is not UTF-8, a soft hyphen, an emoji and a noncharacter. *)
Definition codes (l : list Z) : string := str (map (fun n => ascii_of_nat (Z.to_nat n)) l).
Example quoted_texts :
  map Quote [codes [65; 195; 169]; codes [255; 65]; codes [194; 173]; codes [240; 159; 142; 172]; codes [239; 191; 191]] =
  map (fun body => codes [34] +:+ body +:+ codes [34])
    [codes [65; 195; 169]; "\xffA"; "\u00ad"; codes [240; 159; 142; 172]; "\uffff"].
Proof. vm_compute. reflexivity. Qed.
#[global] Arguments Quote : simpl never.

(** ** Lists of names

    One round of the loop that lower-cases and trims names and drops blank and
    repeated ones. *)
Definition push_name (acc : gset string * list string) (value : string) : gset string * list string :=
  let value := ToLower (TrimSpace value) in
  if String.eqb value "" then acc
  else if bool_decide (value ∈ acc.1) then acc
  else ({[value]} ∪ acc.1, acc.2 ++ [value]).

Lemma push_names values seen acc : (forall x, x ∈ seen <-> x ∈ acc) -> NoDup acc ->
  let '(seen', acc') := fold_left push_name values (seen, acc) in
  NoDup acc' /\
  forall x, x ∈ acc' <-> x ∈ acc \/ (x <> "" /\ exists v, v ∈ values /\ canonical v = x).
Proof.
  revert seen acc. induction values as [|v values IH]; intros seen acc Hs HN; cbn [fold_left].
  { split; [done|]. intros x. split; [auto|]. intros [|(_ & v & Hv & _)]; [done|]. by apply not_elem_of_nil in Hv. }
  assert (forall x, (exists w, w ∈ v :: values /\ canonical w = x) <->
    canonical v = x \/ exists w, w ∈ values /\ canonical w = x) as Hcons.
  { intros x. setoid_rewrite elem_of_cons. naive_solver. }
  unfold push_name at 2. fold (canonical v). cbv zeta.
  destruct (String.eqb_spec (canonical v) "") as [E|Hne]; [|cbn [fst snd]; case_bool_decide as Hin].
  - specialize (IH seen acc Hs HN). destruct (fold_left _ _ _) as [seen' acc']. destruct IH as [H1 H2].
    split; [done|]. intros x. rewrite H2, Hcons. naive_solver.
  - specialize (IH seen acc Hs HN). destruct (fold_left _ _ _) as [seen' acc']. destruct IH as [H1 H2].
    split; [done|]. intros x. rewrite H2, Hcons. rewrite Hs in Hin. naive_solver.
  - specialize (IH ({[canonical v]} ∪ seen) (acc ++ [canonical v])).
    destruct (fold_left _ _ _) as [seen' acc']. destruct IH as [H1 H2].
    + intros x. rewrite elem_of_union, elem_of_singleton, elem_of_app, list_elem_of_singleton, Hs. tauto.
    + apply NoDup_app. split_and!; [done| |apply NoDup_singleton].
      intros x Hx ->%list_elem_of_singleton. by apply Hin, Hs.
    + split; [done|]. intros x. rewrite H2, Hcons, elem_of_app, list_elem_of_singleton. naive_solver.
Qed.

(** ** UTF-8

    How many bytes [range] over a string consumes for one rune: the length of a
    valid encoding at the front, or one byte. *)
Definition in_codes (lo hi : Z) (c : ascii) : bool := (lo <=? code c) && (code c <=? hi).
Definition cont (c : ascii) : bool := in_codes 128 191 c.
Definition rune_width (l : list ascii) : nat :=
  match l with
  | c :: d :: r =>
    let n := code c in
    if n <? 128 then 1%nat
    else if (194 <=? n) && (n <=? 223) && cont d then 2%nat
    else match r with
         | e :: r' =>
           let three := if n =? 224 then in_codes 160 191 d else if n =? 237 then in_codes 128 159 d
                        else (224 <=? n) && (n <=? 239) && cont d in
           let four := if n =? 240 then in_codes 144 191 d else if n =? 244 then in_codes 128 143 d
                       else (240 <=? n) && (n <=? 244) && cont d in
           if three && cont e then 3%nat
           else match r' with
                | f :: _ => if four && cont e && cont f then 4%nat else 1%nat
                | [] => 1%nat
                end
         | [] => 1%nat
         end
  | _ => 1%nat
  end.

(** A string split into the byte sequences of its runes. *)
Fixpoint runes_go (fuel : nat) (l : list ascii) : list (list ascii) :=
  match fuel, l with
  | S fuel, _ :: _ => take (rune_width l) l :: runes_go fuel (drop (rune_width l) l)
  | _, _ => []
  end.
Definition runes (s : string) : list (list ascii) := runes_go (length (chars s)) (chars s).

Lemma rune_width_pos l : (1 <= rune_width l)%nat.
Proof. unfold rune_width. repeat case_match; lia. Qed.

Lemma runes_go_concat fuel l : (length l <= fuel)%nat -> concat (runes_go fuel l) = l.
Proof.
  revert l. induction fuel as [|fuel IH]; intros [|c l] Hl; cbn [length] in Hl; try done; [lia|].
  change (take (rune_width (c :: l)) (c :: l) ++ concat (runes_go fuel (drop (rune_width (c :: l)) (c :: l))) = c :: l).
  pose proof (rune_width_pos (c :: l)). rewrite IH by (rewrite length_drop; cbn [length]; lia).
  apply take_drop.
Qed.

Lemma runes_concat s : concat (runes s) = chars s.
Proof. by apply runes_go_concat. Qed.
