(* ===== verification/GoUrl.v ===== *)
(** * net/url

    [url.Parse] of Go 1.22 (the version [go.mod] names): scheme, opaque part,
    authority with user info, host and port checks, path and fragment escapes.
    The agent reads [Scheme] and [Host] of the result, the path as it was written
    ([PathText]; GoUrlEscape.v derives [Path] and [RawPath] from it) and whether
    parsing failed; the error values carry the message of the branch they come from. *)
From S2P Require Import Prelude GoStrings.

Record URL := mkURL {
  Scheme : list ascii;
  Opaque : list ascii;
  Host : list ascii;
  PathText : list ascii;
  RawQuery : list ascii
}.

Definition is_alpha (c : ascii) : bool :=
  ((97 <=? code c) && (code c <=? 122)) || ((65 <=? code c) && (code c <=? 90)).
Definition is_digit (c : ascii) : bool := (48 <=? code c) && (code c <=? 57).
Definition ishex (c : ascii) : bool :=
  is_digit c || ((97 <=? code c) && (code c <=? 102)) || ((65 <=? code c) && (code c <=? 70)).
Definition unhex (c : ascii) : Z :=
  if is_digit c then code c - 48
  else if (97 <=? code c) && (code c <=? 102) then code c - 87
  else if (65 <=? code c) && (code c <=? 70) then code c - 55 else 0.
Definition one_of (cs : string) (c : ascii) : bool := existsb (Ascii.eqb c) (chars cs).

(** [strings.Cut] at a byte. *)
Fixpoint cut (sep : ascii) (l : list ascii) : list ascii * list ascii :=
  match l with
  | [] => ([], [])
  | c :: r => if Ascii.eqb c sep then ([], r)
              else let '(a, b) := cut sep r in (c :: a, b)
  end.

(** The escape modes the parser uses. *)
Inductive encoding := encodePath | encodeUserPassword | encodeHost | encodeZone | encodeFragment.

(** [shouldEscape] in the host and zone modes, the only ones [unescape] consults. *)
Definition shouldEscapeHost (c : ascii) : bool :=
  negb (is_alpha c || is_digit c || one_of "!$&'()*+,;=:[]<>-_.~" c || (code c =? 34)).

Definition host_mode (mode : encoding) : bool :=
  match mode with encodeHost | encodeZone => true | _ => false end.

Definition EscapeError : error := Errorf "invalid URL escape".
Definition InvalidHostError : error := Errorf "invalid character in host name".

(** One well-formed escape triple, checked against the mode. *)
Definition escape_ok (mode : encoding) (h l : ascii) : bool :=
  let is25 := Ascii.eqb h "2" && Ascii.eqb l "5" in
  match mode with
  | encodeHost => is25 || (8 <=? unhex h)
  | encodeZone =>
    let v := ascii_of_N (Z.to_N (unhex h * 16 + unhex l)) in
    is25 || (code v =? 32) || negb (shouldEscapeHost v)
  | _ => true
  end.

Fixpoint unescape (mode : encoding) (s : list ascii) : result (list ascii) :=
  match s with
  | [] => Ok []
  | c :: r =>
    if Ascii.eqb c "%" then
      match r with
      | h :: l :: r' =>
        if negb (ishex h && ishex l) then Err EscapeError
        else if negb (escape_ok mode h l) then Err EscapeError
        else t ← unescape mode r';
             Ok (ascii_of_N (Z.to_N (unhex h * 16 + unhex l)) :: t)
      | _ => Err EscapeError
      end
    else if host_mode mode && (code c <? 128) && shouldEscapeHost c then Err InvalidHostError
    else t ← unescape mode r; Ok (c :: t)
  end.

Definition stringContainsCTLByte (s : list ascii) : bool :=
  existsb (fun c => (code c <? 32) || (code c =? 127)) s.

(** [getScheme]: the characters before the first colon when they form a scheme. *)
Fixpoint scheme_go (first : bool) (s : list ascii) : option (list ascii * list ascii) + error :=
  match s with
  | [] => inl None
  | c :: r =>
    let continue :=
      match scheme_go false r with
      | inl (Some (a, b)) => inl (Some (c :: a, b))
      | x => x
      end in
    if is_alpha c then continue
    else if is_digit c || one_of "+-." c then (if first then inl None else continue)
    else if Ascii.eqb c ":" then
      (if first then inr (Errorf "missing protocol scheme") else inl (Some ([], r)))
    else inl None
  end.
Definition getScheme (s : list ascii) : result (list ascii * list ascii) :=
  match scheme_go true s with
  | inl (Some p) => Ok p
  | inl None => Ok ([], s)
  | inr e => Err e
  end.

Definition validOptionalPort (p : list ascii) : bool :=
  match p with
  | [] => true
  | c :: r => Ascii.eqb c ":" && forallb is_digit r
  end.

Definition validUserinfo (s : list ascii) : bool :=
  forallb (fun c => is_alpha c || is_digit c || one_of "-._:~!$&'()*+,;=%@" c) s.

Definition invalid_port : error := Errorf "invalid port after host".

Definition parseHost (host : list ascii) : result (list ascii) :=
  if is_prefix ["["%char] host then
    match LastIndexByte host "]" with
    | None => Err (Errorf "missing ']' in host")
    | Some i =>
      if negb (validOptionalPort (drop (S i) host)) then Err invalid_port else
      match find_sub (chars "%25") (take i host) with
      | Some zone =>
        h1 ← unescape encodeHost (take zone host);
        h2 ← unescape encodeZone (drop zone (take i host));
        h3 ← unescape encodeHost (drop i host);
        Ok (h1 ++ h2 ++ h3)
      | None => unescape encodeHost host
      end
    end
  else
    match LastIndexByte host ":" with
    | Some i => if validOptionalPort (drop i host) then unescape encodeHost host else Err invalid_port
    | None => unescape encodeHost host
    end.

(** The host of an authority; the user info is checked and dropped. *)
Definition parseAuthority (authority : list ascii) : result (list ascii) :=
  match LastIndexByte authority "@" with
  | None => parseHost authority
  | Some i =>
    host ← parseHost (drop (S i) authority);
    let userinfo := take i authority in
    if negb (validUserinfo userinfo) then Err (Errorf "net/url: invalid userinfo") else
    let '(username, password) := cut ":" userinfo in
    _ ← unescape encodeUserPassword username;
    _ ← unescape encodeUserPassword password;
    Ok host
  end.

Definition count_char (c : ascii) (s : list ascii) : nat :=
  length (List.filter (Ascii.eqb c) s).

(** [parse(rawURL, false)]. *)
Definition parse (rawURL : list ascii) : result URL :=
  if stringContainsCTLByte rawURL then Err (Errorf "net/url: invalid control character in URL") else
  if decide (rawURL = chars "*") then Ok (mkURL [] [] [] (chars "*") []) else
  '(scheme, rest) ← getScheme rawURL;
  let scheme := map lower_char scheme in
  let '(rest, query) :=
    if is_prefix ["?"%char] (reverse rest) && Nat.eqb (count_char "?" rest) 1
    then (take (length rest - 1) rest, [])
    else cut "?" rest in
  if negb (is_prefix ["/"%char] rest) && negb (bool_decide (scheme = [])) then
    Ok (mkURL scheme rest [] [] query)
  else if negb (is_prefix ["/"%char] rest) && existsb (Ascii.eqb ":") (cut "/" rest).1 then
    Err (Errorf "first path segment in URL cannot contain colon")
  else if (negb (bool_decide (scheme = [])) || negb (is_prefix (chars "///") rest))
          && is_prefix (chars "//") rest then
    let authority := drop 2 rest in
    let '(authority, path) :=
      match IndexByte authority "/" with
      | Some i => (take i authority, drop i authority)
      | None => (authority, [])
      end in
    host ← parseAuthority authority;
    _ ← unescape encodePath path;
    Ok (mkURL scheme [] host path query)
  else
    _ ← unescape encodePath rest;
    Ok (mkURL scheme [] [] rest query).

(** [url.Parse]. *)
Definition url_Parse (rawURL : string) : result URL :=
  let '(u, frag) := cut "#" (chars rawURL) in
  url ← parse u;
  match frag with
  | [] => Ok url
  | _ => _ ← unescape encodeFragment frag; Ok url
  end.

Example parse_https : url_Parse "https://user:pw@example.com:8443/a%20b?x=1#f" =
  Ok (mkURL (chars "https") [] (chars "example.com:8443") (chars "/a%20b") (chars "x=1")).
Proof. vm_compute. reflexivity. Qed.
Example parse_bad_port : is_ok (url_Parse "http://example.com:8x/") = false.
Proof. vm_compute. reflexivity. Qed.
Example parse_bad_escape : is_ok (url_Parse "http://example.com/%zz") = false.
Proof. vm_compute. reflexivity. Qed.
Example parse_opaque : url_Parse "mailto:a@b.c" =
  Ok (mkURL (chars "mailto") (chars "a@b.c") [] [] []).
Proof. vm_compute. reflexivity. Qed.

(** ** Shape of an accepted absolute URL *)
Lemma cut_prefix sep l : exists k, l = (cut sep l).1 ++ k.
Proof.
  induction l as [|c l IH]; simpl; [by exists []|].
  destruct (Ascii.eqb c sep); simpl; [by exists (c :: l)|].
  destruct (cut sep l) as [a b]. destruct IH as [k ->]. by exists k.
Qed.

Lemma scheme_go_split first s a b :
  scheme_go first s = inl (Some (a, b)) -> s = a ++ ":"%char :: b.
Proof.
  revert first a b. induction s as [|c s IH]; intros first a b; simpl; [done|].
  intros H. repeat case_match; simplify_eq/=; try (f_equal; by eapply IH).
  match goal with H : Ascii.eqb c ":" = true |- _ => apply Ascii.eqb_eq in H; by subst end.
Qed.

(** A URL that parses with a host is [scheme://...] or starts with two slashes. *)
Lemma parse_host_shape raw u :
  parse raw = Ok u -> Host u <> [] ->
  exists sch r, getScheme raw = Ok (sch, r) /\ Scheme u = map lower_char sch /\
    is_prefix (chars "//") r = true.
Proof.
  unfold parse. intros H Hne.
  destruct (stringContainsCTLByte raw); [done|].
  case_decide; [simplify_eq/=; done|].
  apply bind_Ok in H as ([sch r] & Hs & H). exists sch, r. rewrite Hs. split; [done|].
  assert (exists rest query k, (if is_prefix ["?"%char] (reverse r) && Nat.eqb (count_char "?" r) 1
    then (take (length r - 1) r, []) else cut "?" r) = (rest, query) /\ r = rest ++ k)
    as (rest & query & k & Hq & Hk).
  { destruct (is_prefix _ _ && _).
    - eexists _, _, (drop (length r - 1) r). split; [done|]. by rewrite take_drop.
    - destruct (cut_prefix "?" r) as [k Hk]. destruct (cut "?" r) as [a b] eqn:E.
      by exists a, b, k. }
  rewrite Hq in H. clear Hq.
  assert (is_prefix (chars "//") rest = true -> is_prefix (chars "//") r = true) as Hp.
  { rewrite !is_prefix_spec. intros [k' ->]. exists (k' ++ k). by rewrite Hk, app_assoc. }
  destruct (negb (is_prefix _ rest) && negb (bool_decide _)); [injection H as <-; done|].
  destruct (negb (is_prefix _ rest) && existsb _ _); [done|].
  destruct ((_ || _) && is_prefix (chars "//") rest) eqn:E.
  - apply andb_true_iff in E as [_ E].
    destruct (IndexByte (drop 2 rest) "/");
      apply bind_Ok in H as (host & _ & H); apply bind_Ok in H as (? & _ & [= <-]);
      (split; [done|by apply Hp]).
  - apply bind_Ok in H as (? & _ & [= <-]). done.
Qed.

Lemma url_Parse_host s u : url_Parse s = Ok u -> Host u <> [] ->
  exists sch r, chars s = sch ++ r /\ Scheme u = map lower_char sch /\
    (sch = [] /\ is_prefix (chars "//") r = true \/ is_prefix (chars "://") r = true).
Proof.
  unfold url_Parse. intros H Hne.
  destruct (cut_prefix "#" (chars s)) as [k Hk].
  destruct (cut "#" (chars s)) as [raw frag]. simpl in Hk.
  assert (parse raw = Ok u) as Hp.
  { apply bind_Ok in H as (u' & Hu & H). destruct frag; [by injection H as ->|].
    apply bind_Ok in H as (? & _ & [= ->]). done. }
  destruct (parse_host_shape raw u Hp Hne) as (sch & r & Hs & Hl & Hr).
  unfold getScheme in Hs. destruct (scheme_go true raw) as [[[a b]|]|] eqn:E; simplify_eq.
  - apply scheme_go_split in E. exists sch, (":"%char :: r ++ k).
    rewrite Hk, E, <- app_assoc. split_and!; [done..|]. right.
    apply is_prefix_spec in Hr as [k' ->]. apply is_prefix_spec. by exists (k' ++ k).
  - exists [], (r ++ k). split_and!; [done..|]. left. split; [done|].
    apply is_prefix_spec in Hr as [k' ->]. apply is_prefix_spec. by exists (k' ++ k).
Qed.
