(* ===== verification/GoUrlEscape.v ===== *)
(** * net/url: escaping

    [PathEscape], [setPath] and [EscapedPath] of Go 1.22.  A path is escaped byte by
    byte; which bytes stay depends on whether a whole path or one segment is meant. *)
From S2P Require Import Prelude GoStrings GoUrl.

Definition unreserved (c : ascii) : bool := is_alpha c || is_digit c || one_of "-_.~" c.
Definition keep_path (c : ascii) : bool := unreserved c || one_of "$&+,/:;=@" c.
Definition keep_segment (c : ascii) : bool := unreserved c || one_of "$&+:=@" c.

Definition upper_hex (n : Z) : ascii := upper_char (hex_digit n).
Definition escape_char (keep : ascii -> bool) (c : ascii) : list ascii :=
  if keep c then [c] else ["%"%char; upper_hex (code c / 16); upper_hex (code c `mod` 16)].
Definition escape (keep : ascii -> bool) (l : list ascii) : list ascii := flat_map (escape_char keep) l.

Definition PathEscape (s : string) : string := str (escape keep_segment (chars s)).

(** [validEncoded] in the path mode. *)
Definition validEncoded (l : list ascii) : bool :=
  forallb (fun c => one_of "!$&'()*+,;=:@[]%" c || keep_path c) l.

(** [setPath]: the decoded path, and the text when it is not the default encoding. *)
Definition setPath (text : list ascii) : result (list ascii * list ascii) :=
  path ← unescape encodePath text;
  Ok (path, if decide (text = escape keep_path path) then [] else text).

Definition EscapedPath (path rawPath : list ascii) : list ascii :=
  if negb (bool_decide (rawPath = [])) && validEncoded rawPath &&
     match unescape encodePath rawPath with Ok p => bool_decide (p = path) | Err _ => false end
  then rawPath
  else if bool_decide (path = chars "*") then chars "*" else escape keep_path path.

(** ** Escaping is undone by unescaping *)
Lemma escape_char_unescape keep c r : keep "%"%char = false ->
  unescape encodePath (escape_char keep c ++ r) = (t ← unescape encodePath r; Ok (c :: t)).
Proof.
  intros Hk. unfold escape_char. destruct (keep c) eqn:E.
  - cbn [app unescape]. destruct (Ascii.eqb_spec c "%") as [->|]; [congruence|]. cbn. done.
  - pose (ok := fun c => ishex (upper_hex (code c / 16)) && ishex (upper_hex (code c `mod` 16)) &&
      bool_decide (ascii_of_N (Z.to_N (unhex (upper_hex (code c / 16)) * 16 + unhex (upper_hex (code c `mod` 16)))) = c)).
    assert (ok c = true) as H by (apply char_forall; vm_compute; reflexivity).
    unfold ok in H. rewrite !andb_true_iff in H. destruct H as [[H1 H2] H3%bool_decide_eq_true].
    cbn [app unescape]. cbn [Ascii.eqb Bool.eqb]. rewrite H1, H2. cbn [andb negb escape_ok]. by rewrite H3.
Qed.

Lemma unescape_escape keep l : keep "%"%char = false -> unescape encodePath (escape keep l) = Ok l.
Proof.
  intros Hk. induction l as [|c l IH]; [done|]. unfold escape. cbn [flat_map]. fold (escape keep l).
  by rewrite escape_char_unescape, IH.
Qed.

(** A segment keeps nothing a path would have to escape. *)
Lemma escape_segment_no_slash s : "/"%char ∉ chars (PathEscape s).
Proof.
  unfold PathEscape. rewrite chars_str. unfold escape. intros H%list_elem_of_In%in_flat_map. destruct H as (c & _ & H).
  pose (ok := fun c => forallb (fun d => negb (Ascii.eqb d "/")) (escape_char keep_segment c)).
  assert (ok c = true) as E by (apply char_forall; vm_compute; reflexivity).
  unfold ok in E. rewrite forallb_forall in E. apply E in H. by rewrite Ascii.eqb_refl in H.
Qed.

Lemma EscapedPath_default path : path <> chars "*" -> EscapedPath path [] = escape keep_path path.
Proof.
  intros Hs. unfold EscapedPath. rewrite (bool_decide_true ([] = [])) by done. cbn [negb andb].
  by rewrite bool_decide_false.
Qed.

(** What [EscapedPath] writes for a decoded path is read back as that path, and written
    again in the same way: the path a request carries is the path that was escaped. *)
Lemma EscapedPath_stable path : path <> chars "*" ->
  exists p raw, setPath (escape keep_path path) = Ok (p, raw) /\ p = path /\
    EscapedPath p raw = escape keep_path path.
Proof.
  intros Hs. unfold setPath. rewrite unescape_escape by done. cbn [mbind result_bind].
  eexists _, _. split; [done|]. split; [done|]. rewrite decide_True by done.
  by apply EscapedPath_default.
Qed.

(** Bytes that need no escaping are left alone. *)
Lemma escape_id keep l : Forall (fun c => keep c = true) l -> escape keep l = l.
Proof.
  induction 1 as [|c l Hc _ IH]; [done|]. unfold escape in *. cbn [flat_map]. rewrite IH.
  unfold escape_char. by rewrite Hc.
Qed.
