(* ===== verification/GoUrlText.v ===== *)
(** * net/url: whole URLs and queries

    [url.Parse] with user info, fragment and the flags [String] needs, [URL.String],
    [Hostname], [ParseQuery], [Values.Get], [Values.Set] and [Values.Encode] of Go 1.22. *)
From S2P Require Import Prelude GoStrings GoUrl GoUrlEscape.

(** ** URLs *)
Record Userinfo := mkUserinfo { ui_username : list ascii; ui_password : option (list ascii) }.
Record FullURL := mkFullURL {
  u_Scheme : list ascii; u_Opaque : list ascii; u_User : option Userinfo; u_Host : list ascii;
  u_Path : list ascii; u_RawPath : list ascii; u_OmitHost : bool; u_ForceQuery : bool; u_RawQuery : list ascii;
  u_Fragment : list ascii; u_RawFragment : list ascii
}.

Definition keep_fragment (c : ascii) : bool := unreserved c || one_of "$&+,/:;=?@!()*" c.
Definition keep_user (c : ascii) : bool := unreserved c || one_of "$&+,;=" c.
Definition keep_host (c : ascii) : bool := negb (shouldEscapeHost c).

Definition full_authority (authority : list ascii) : result (option Userinfo * list ascii) :=
  match LastIndexByte authority "@" with
  | None => host ← parseHost authority; Ok (None, host)
  | Some i =>
    host ← parseHost (drop (S i) authority);
    let userinfo := take i authority in
    if negb (validUserinfo userinfo) then Err (Errorf "net/url: invalid userinfo") else
    let '(username, password) := cut ":" userinfo in
    username ← unescape encodeUserPassword username;
    password ← unescape encodeUserPassword password;
    Ok (Some (mkUserinfo username (if existsb (Ascii.eqb ":") userinfo then Some password else None)), host)
  end.

Definition full_parse (rawURL : list ascii) : result FullURL :=
  if stringContainsCTLByte rawURL then Err (Errorf "net/url: invalid control character in URL") else
  if decide (rawURL = chars "*") then Ok (mkFullURL [] [] None [] (chars "*") [] false false [] [] []) else
  '(scheme, rest) ← getScheme rawURL;
  let scheme := map lower_char scheme in
  let force := is_prefix ["?"%char] (reverse rest) && Nat.eqb (count_char "?" rest) 1 in
  let '(rest, query) := if force then (take (length rest - 1) rest, []) else cut "?" rest in
  if negb (is_prefix ["/"%char] rest) && negb (bool_decide (scheme = [])) then
    Ok (mkFullURL scheme rest None [] [] [] false force query [] [])
  else if negb (is_prefix ["/"%char] rest) && existsb (Ascii.eqb ":") (cut "/" rest).1 then
    Err (Errorf "first path segment in URL cannot contain colon")
  else if (negb (bool_decide (scheme = [])) || negb (is_prefix (chars "///") rest))
          && is_prefix (chars "//") rest then
    let authority := drop 2 rest in
    let '(authority, path) :=
      match IndexByte authority "/" with
      | Some i => (take i authority, drop i authority)
      | None => (authority, [])
      end in
    '(user, host) ← full_authority authority;
    '(path, rawPath) ← setPath path;
    Ok (mkFullURL scheme [] user host path rawPath false force query [] [])
  else
    let omit := negb (bool_decide (scheme = [])) && is_prefix ["/"%char] rest in
    '(path, rawPath) ← setPath rest;
    Ok (mkFullURL scheme [] None [] path rawPath omit force query [] []).

Definition with_fragment (fragment raw : list ascii) (u : FullURL) : FullURL :=
  mkFullURL (u_Scheme u) (u_Opaque u) (u_User u) (u_Host u) (u_Path u) (u_RawPath u) (u_OmitHost u) (u_ForceQuery u)
    (u_RawQuery u) fragment raw.
Definition with_query (query : list ascii) (u : FullURL) : FullURL :=
  mkFullURL (u_Scheme u) (u_Opaque u) (u_User u) (u_Host u) (u_Path u) (u_RawPath u) (u_OmitHost u) (u_ForceQuery u)
    query (u_Fragment u) (u_RawFragment u).
Definition with_user (user : option Userinfo) (u : FullURL) : FullURL :=
  mkFullURL (u_Scheme u) (u_Opaque u) user (u_Host u) (u_Path u) (u_RawPath u) (u_OmitHost u) (u_ForceQuery u)
    (u_RawQuery u) (u_Fragment u) (u_RawFragment u).
Definition with_path (host path rawPath : list ascii) (u : FullURL) : FullURL :=
  mkFullURL (u_Scheme u) (u_Opaque u) (u_User u) host path rawPath (u_OmitHost u) (u_ForceQuery u)
    (u_RawQuery u) (u_Fragment u) (u_RawFragment u).

Definition full_Parse (rawURL : string) : result FullURL :=
  let '(u, frag) := cut "#" (chars rawURL) in
  url ← full_parse u;
  match frag with
  | [] => Ok url
  | _ => f ← unescape encodeFragment frag;
         Ok (with_fragment f (if decide (frag = escape keep_fragment f) then [] else frag) url)
  end.

(** It succeeds where [url_Parse] does, with the same scheme, host, path and query. *)
Definition same_url (u : URL) (f : FullURL) : Prop :=
  Scheme u = u_Scheme f /\ Opaque u = u_Opaque f /\ Host u = u_Host f /\ RawQuery u = u_RawQuery f /\
  unescape encodePath (PathText u) = Ok (u_Path f).
Definition agree (a : result URL) (b : result FullURL) : Prop :=
  match a, b with Ok u, Ok f => same_url u f | Err e, Err e' => e = e' | _, _ => False end.

Lemma full_authority_host a : parseAuthority a = (x ← full_authority a; Ok x.2).
Proof.
  unfold parseAuthority, full_authority. destruct (LastIndexByte a "@") as [i|]; [|by destruct (parseHost a)].
  destruct (parseHost (drop (S i) a)); cbn; [|done]. destruct (validUserinfo (take i a)); cbn; [|done].
  destruct (cut ":" (take i a)) as [un pw]. destruct (unescape encodeUserPassword un); cbn; [|done].
  by destruct (unescape encodeUserPassword pw).
Qed.

Lemma full_parse_agrees s : agree (parse s) (full_parse s).
Proof.
  unfold parse, full_parse. destruct (stringContainsCTLByte s); [done|].
  destruct (decide (s = chars "*")); [vm_compute; by repeat split|].
  destruct (getScheme s) as [[scheme rest]|e]; cbn [mbind result_bind]; [|done].
  destruct (if _ && Nat.eqb (count_char "?" rest) 1 then _ else _) as [rest' query].
  destruct (negb (is_prefix ["/"%char] rest') && negb (bool_decide (map lower_char scheme = []))); [vm_compute; by repeat split|].
  destruct (negb (is_prefix ["/"%char] rest') && _); [done|].
  assert (forall text, match unescape encodePath text with
    | Ok p => exists raw, setPath text = Ok (p, raw) | Err e => setPath text = Err e end) as HP.
  { intros text. unfold setPath. destruct (unescape encodePath text); cbn; eauto. }
  destruct ((_ || _) && is_prefix (chars "//") rest').
  - destruct (match IndexByte _ "/" with Some _ => _ | None => _ end) as [authority path].
    rewrite full_authority_host. destruct (full_authority authority) as [[user host]|e]; cbn [mbind result_bind]; [|done].
    specialize (HP path). destruct (unescape encodePath path) as [p|e] eqn:EP; [|cbn; by rewrite HP].
    destruct HP as [raw HP]. cbn. rewrite HP. cbn. unfold same_url. cbn. by rewrite EP.
  - specialize (HP rest'). destruct (unescape encodePath rest') as [p|e] eqn:EP; [|cbn; by rewrite HP].
    destruct HP as [raw HP]. cbn. rewrite HP. cbn. unfold same_url. cbn. by rewrite EP.
Qed.

Lemma full_Parse_agrees s : agree (url_Parse s) (full_Parse s).
Proof.
  unfold url_Parse, full_Parse. destruct (cut "#" (chars s)) as [u frag]. pose proof (full_parse_agrees u) as H.
  destruct (parse u) as [x|e], (full_parse u) as [y|e']; cbn in H |- *; try done.
  destruct frag as [|c frag]; [done|]. destruct (unescape encodeFragment (c :: frag)); cbn; done.
Qed.

Definition User_String (user : Userinfo) : list ascii :=
  escape keep_user (ui_username user) ++ match ui_password user with Some p => ":"%char :: escape keep_user p | None => [] end.
Definition EscapedFragment (u : FullURL) : list ascii :=
  if negb (bool_decide (u_RawFragment u = [])) &&
     forallb (fun c => one_of "!$&'()*+,;=:@[]%" c || keep_fragment c) (u_RawFragment u) &&
     match unescape encodeFragment (u_RawFragment u) with Ok f => bool_decide (f = u_Fragment u) | Err _ => false end
  then u_RawFragment u else escape keep_fragment (u_Fragment u).

Definition nonempty (l : list ascii) : bool := negb (bool_decide (l = [])).
Definition URL_String (u : FullURL) : string :=
  let has_user := match u_User u with Some _ => true | None => false end in
  let scheme := if nonempty (u_Scheme u) then u_Scheme u ++ [":"%char] else [] in
  let front :=
    if nonempty (u_Opaque u) then scheme ++ u_Opaque u else
    let authority :=
      if negb (nonempty (u_Scheme u) || nonempty (u_Host u) || has_user) then []
      else if u_OmitHost u && negb (nonempty (u_Host u)) && negb has_user then []
      else (if nonempty (u_Host u) || nonempty (u_Path u) || has_user then chars "//" else []) ++
           match u_User u with Some user => User_String user ++ ["@"%char] | None => [] end ++
           escape keep_host (u_Host u) in
    let path := EscapedPath (u_Path u) (u_RawPath u) in
    let before := scheme ++ authority in
    let before := before ++ (if nonempty path && negb (is_prefix ["/"%char] path) && nonempty (u_Host u) then ["/"%char] else []) in
    let before := before ++ (if negb (nonempty before) && existsb (Ascii.eqb ":") (cut "/" path).1 then chars "./" else []) in
    before ++ path in
  str (front ++ (if u_ForceQuery u || nonempty (u_RawQuery u) then "?"%char :: u_RawQuery u else []) ++
       (if nonempty (u_Fragment u) then "#"%char :: EscapedFragment u else [])).

(** [Hostname]: without port and brackets. *)
Definition Hostname (u : FullURL) : string :=
  let hostport := u_Host u in
  let host :=
    match LastIndexByte hostport ":" with
    | Some i => if validOptionalPort (drop i hostport) then take i hostport else hostport
    | None => hostport
    end in
  let host :=
    if is_prefix ["["%char] host && is_prefix ["]"%char] (reverse host) then take (length host - 2) (drop 1 host) else host in
  str host.

(** ** Queries *)
Notation Values := (gmap string (list string)).

Definition query_char (c : ascii) : list ascii :=
  if unreserved c then [c] else if Ascii.eqb c " " then ["+"%char]
  else ["%"%char; upper_hex (code c / 16); upper_hex (code c `mod` 16)].
Definition QueryEscape (s : string) : string := str (flat_map query_char (chars s)).
Definition plus_to_space (c : ascii) : ascii := if Ascii.eqb c "+" then " "%char else c.
Definition QueryUnescape (s : list ascii) : result (list ascii) := unescape encodePath (map plus_to_space s).

Definition add_value (key value : string) (m : Values) : Values := <[key := default [] (m !! key) ++ [value]]> m.
Definition parse_pair (m : Values) (piece : list ascii) : Values :=
  if existsb (Ascii.eqb ";") piece then m
  else if bool_decide (piece = []) then m
  else let '(key, value) := cut "=" piece in
       match QueryUnescape key, QueryUnescape value with
       | Ok key, Ok value => add_value (str key) (str value) m
       | _, _ => m
       end.
Definition ParseQuery (query : list ascii) : Values := foldl parse_pair ∅ (split_chars "&" query).
Definition Query (u : FullURL) : Values := ParseQuery (u_RawQuery u).
Definition Values_Get (key : string) (m : Values) : string := match m !! key with Some (v :: _) => v | _ => "" end.
Definition Values_Set (key value : string) (m : Values) : Values := <[key := [value]]> m.

Definition pair_text (key value : string) : list ascii := chars (QueryEscape key) ++ "="%char :: chars (QueryEscape value).
Definition Values_Encode (m : Values) : list ascii :=
  let keys := sort_Strings (map_to_list m).*1 in
  join_chars "&" (mbind (fun key => map (pair_text key) (default [] (m !! key))) keys).

(** ** A query that was encoded is read back *)
Definition query_safe (c : ascii) : bool := unreserved c || Ascii.eqb c "+" || Ascii.eqb c "%".

Lemma QueryEscape_safe s : Forall (fun c => query_safe c = true) (chars (QueryEscape s)).
Proof.
  unfold QueryEscape. rewrite chars_str, Forall_forall. intros d H%list_elem_of_In%in_flat_map. destruct H as (c & _ & H).
  pose (ok := fun c => forallb query_safe (query_char c)).
  assert (ok c = true) as E by (apply char_forall; vm_compute; reflexivity).
  unfold ok in E. rewrite forallb_forall in E. by apply E.
Qed.

Lemma QueryEscape_free c s : query_safe c = false -> c ∉ chars (QueryEscape s).
Proof. intros Hc Hin. pose proof (QueryEscape_safe s) as H. rewrite Forall_forall in H. apply H in Hin. congruence. Qed.

Lemma query_char_unescape c r :
  unescape encodePath (map plus_to_space (query_char c) ++ r) = (t ← unescape encodePath r; Ok (c :: t)).
Proof.
  pose (ok := fun c => bool_decide (map plus_to_space (query_char c) = escape_char (fun c => unreserved c || Ascii.eqb c " ") c)).
  assert (ok c = true) as E%bool_decide_eq_true by (apply char_forall; vm_compute; reflexivity).
  rewrite E. by apply escape_char_unescape.
Qed.

Lemma QueryUnescape_QueryEscape s : QueryUnescape (chars (QueryEscape s)) = Ok (chars s).
Proof.
  unfold QueryUnescape, QueryEscape. rewrite chars_str. induction (chars s) as [|c l IH]; [done|].
  cbn [flat_map]. by rewrite map_app, query_char_unescape, IH.
Qed.

Lemma cut_app sep l r : sep ∉ l -> cut sep (l ++ sep :: r) = (l, r).
Proof.
  induction l as [|c l IH]; intros H; cbn [app cut].
  - by rewrite Ascii.eqb_refl.
  - destruct (Ascii.eqb_spec c sep) as [->|]; [set_solver|]. by rewrite IH by set_solver.
Qed.

Lemma pair_text_free c key value : query_safe c = false -> c <> "="%char -> c ∉ pair_text key value.
Proof.
  intros Hc He. unfold pair_text. rewrite elem_of_app, elem_of_cons.
  pose proof (QueryEscape_free c key Hc). pose proof (QueryEscape_free c value Hc). tauto.
Qed.

Lemma existsb_free c l : c ∉ l -> existsb (Ascii.eqb c) l = false.
Proof.
  intros H. apply not_true_is_false. intros (d & Hd & ->%Ascii.eqb_eq)%existsb_exists. by apply H, list_elem_of_In.
Qed.

Lemma parse_pair_text m key value : parse_pair m (pair_text key value) = add_value key value m.
Proof.
  unfold parse_pair. rewrite existsb_free by (by apply pair_text_free). rewrite bool_decide_eq_false_2.
  2:{ unfold pair_text. by destruct (chars (QueryEscape key)). }
  unfold pair_text. rewrite cut_app by (by apply QueryEscape_free). by rewrite !QueryUnescape_QueryEscape, !str_chars.
Qed.

Lemma ParseQuery_pairs (pairs : list (string * string)) :
  ParseQuery (join_chars "&" (map (fun '(k, v) => pair_text k v) pairs)) = foldl (fun m '(k, v) => add_value k v m) ∅ pairs.
Proof.
  unfold ParseQuery. destruct pairs as [|p pairs]; [done|]. rewrite split_join_plain; [|done|].
  - generalize (∅ : Values). induction (p :: pairs) as [|[k v] l IH]; intros m; [done|]. cbn [map foldl]. by rewrite parse_pair_text, IH.
  - rewrite Forall_forall. intros x H%list_elem_of_In%in_map_iff. destruct H as ([k v] & <- & _). by apply pair_text_free.
Qed.

Definition pairs_of (m : Values) (keys : list string) : list (string * string) :=
  mbind (fun key => map (pair key) (default [] (m !! key))) keys.

Lemma Values_Encode_pairs m : Values_Encode m = join_chars "&" (map (fun '(k, v) => pair_text k v) (pairs_of m (sort_Strings (map_to_list m).*1))).
Proof.
  unfold Values_Encode, pairs_of. f_equal. induction (sort_Strings _) as [|k l IH]; [done|].
  cbn. rewrite map_app, IH, map_map. done.
Qed.

Lemma add_values key values acc :
  foldl (fun m '(k, v) => add_value k v m) acc (map (pair key) values) =
  match values with [] => acc | _ => <[key := default [] (acc !! key) ++ values]> acc end.
Proof.
  revert acc. induction values as [|v l IH]; intros acc; [done|]. cbn [map foldl]. rewrite IH. unfold add_value.
  destruct l as [|v' l]; [done|]. rewrite lookup_insert_eq, insert_insert_eq. cbn. by rewrite <- (assoc_L (++)).
Qed.

Lemma add_pairs m keys acc : NoDup keys -> (forall k, k ∈ keys -> acc !! k = None) ->
  (forall k, k ∈ keys -> exists v l, m !! k = Some (v :: l)) ->
  forall k, foldl (fun m '(k, v) => add_value k v m) acc (pairs_of m keys) !! k = if decide (k ∈ keys) then m !! k else acc !! k.
Proof.
  revert acc. induction keys as [|key keys IH]; intros acc ND HA HM k; [done|]. apply NoDup_cons in ND as [Hn ND].
  unfold pairs_of. cbn [mbind list_bind]. fold (pairs_of m keys). rewrite foldl_app, add_values.
  destruct (HM key) as (v & l & E); [left|]. rewrite E. cbn [default from_option].
  rewrite (HA key) by left. cbn [default from_option id app]. rewrite IH; [|done| |].
  - destruct (decide (k = key)) as [->|Hk].
    + rewrite (decide_False (P := key ∈ keys)) by done. rewrite (decide_True (P := key ∈ key :: keys)) by left.
      by rewrite lookup_insert_eq.
    + rewrite lookup_insert_ne by done. repeat case_decide; rewrite ?elem_of_cons in *; naive_solver.
  - intros k' Hk'. rewrite lookup_insert_ne by congruence. apply HA. by right.
  - intros k' Hk'. apply HM. by right.
Qed.

Definition no_empty_values (m : Values) : Prop := map_Forall (fun _ l => l <> []) m.

Lemma ParseQuery_Encode m : no_empty_values m -> ParseQuery (Values_Encode m) = m.
Proof.
  intros HN. rewrite Values_Encode_pairs, ParseQuery_pairs. apply map_eq. intros k.
  assert (forall k, k ∈ sort_Strings (map_to_list m).*1 <-> is_Some (m !! k)) as HK.
  { intros k'. rewrite sort_Strings_perm, list_elem_of_fmap. split.
    - intros ([? v] & -> & H%elem_of_map_to_list). by exists v.
    - intros [v H]. exists (k', v). by rewrite elem_of_map_to_list. }
  rewrite add_pairs.
  - case_decide as H; [done|]. rewrite HK, <- eq_None_not_Some in H. by rewrite H, lookup_empty.
  - rewrite sort_Strings_perm. apply NoDup_fst_map_to_list.
  - intros. apply lookup_empty.
  - intros k' [l E]%HK. destruct l as [|v l]; [by apply HN in E|eauto].
Qed.

(** What a query is read as has no empty lists. *)
Lemma parse_pair_ne m piece : no_empty_values m -> no_empty_values (parse_pair m piece).
Proof.
  intros H. unfold parse_pair. destruct (existsb _ piece); [done|]. destruct (bool_decide _); [done|].
  destruct (cut "=" piece) as [key value]. destruct (QueryUnescape key), (QueryUnescape value); try done.
  unfold add_value. apply map_Forall_insert_2; [|done]. by destruct (default [] _).
Qed.

Lemma ParseQuery_ne q : no_empty_values (ParseQuery q).
Proof.
  unfold ParseQuery. assert (no_empty_values ∅) as H by apply map_Forall_empty. revert H.
  generalize (∅ : Values). induction (split_chars "&" q) as [|p l IH]; intros m H; [done|]. cbn [foldl].
  by apply IH, parse_pair_ne.
Qed.
