(* ===== verification/GoPath.v ===== *)
(** * path/filepath on Unix: Clean, Join and IsAbs

    A path is read as a flag for the leading slash and a stack of components.
    [Clean] drops empty and "." components and lets ".." cancel the component
    before it; [render] writes the result back. *)
From S2P Require Import Prelude GoStrings.

Notation comp := (list ascii) (only parsing).
Definition slash : ascii := "/".
Definition dot : comp := chars ".".
Definition dotdot : comp := chars "..".

Definition IsAbs (path : string) : bool := HasPrefix path "/".

(** One component on the stack of components kept so far, last first. *)
Definition push_comp (rooted : bool) (stack : list comp) (c : comp) : list comp :=
  if bool_decide (c = []) || bool_decide (c = dot) then stack
  else if bool_decide (c = dotdot) then
    match stack with
    | [] => if rooted then [] else [dotdot]
    | top :: rest => if bool_decide (top = dotdot) then dotdot :: stack else rest
    end
  else c :: stack.

Definition clean_comps (rooted : bool) (stack : list comp) (cs : list comp) : list comp :=
  fold_left (push_comp rooted) cs stack.

Definition path_stack (path : string) : list comp :=
  clean_comps (IsAbs path) [] (split_chars slash (chars path)).

Definition render (rooted : bool) (stack : list comp) : string :=
  let joined := join_chars slash (reverse stack) in
  if rooted then str (slash :: joined)
  else match stack with [] => "." | _ => str joined end.

Definition Clean (path : string) : string := render (IsAbs path) (path_stack path).

(** [filepath.Join] of two elements: empty leading elements are ignored. *)
Definition Join2 (a b : string) : string :=
  if String.eqb a "" then (if String.eqb b "" then "" else Clean b)
  else Clean (a +:+ "/" +:+ b).

Example clean_1 : Clean "a/./b//../c/" = "a/c". Proof. vm_compute. reflexivity. Qed.
Example clean_2 : Clean "../../a/../b" = "../../b". Proof. vm_compute. reflexivity. Qed.
Example clean_3 : Clean "/../a/.." = "/". Proof. vm_compute. reflexivity. Qed.
Example clean_4 : Clean "" = ".". Proof. vm_compute. reflexivity. Qed.

(** ** Normal forms *)
Definition plain (c : comp) : Prop := c <> [] /\ c <> dot /\ c <> dotdot /\ slash ∉ c.

(** A cleaned stack: plain components above a run of ".." that is empty when the
    path is rooted. *)
Inductive clean_stack (rooted : bool) : list comp -> Prop :=
| cs_base n : (rooted = true -> n = 0%nat) -> clean_stack rooted (replicate n dotdot)
| cs_push c s : plain c -> clean_stack rooted s -> clean_stack rooted (c :: s).

Lemma dotdot_no_slash : slash ∉ dotdot.
Proof. unfold dotdot, slash. cbn. set_solver. Qed.

Lemma push_comp_clean rooted s c : clean_stack rooted s -> slash ∉ c -> clean_stack rooted (push_comp rooted s c).
Proof.
  intros Hs Hc. unfold push_comp. case_bool_decide; [done|]. case_bool_decide; [done|]. cbn [orb].
  case_bool_decide as Hd; [|by apply cs_push]. destruct Hs as [n Hn|top s Hp Hs].
  - destruct n as [|n]; cbn [replicate].
    + destruct rooted; [apply (cs_base true 0); done|apply (cs_base false 1); done].
    + rewrite bool_decide_true by done. destruct rooted; [by specialize (Hn eq_refl)|].
      by apply (cs_base false (S (S n))).
  - rewrite bool_decide_false by apply Hp. done.
Qed.

Lemma clean_comps_clean rooted s cs : clean_stack rooted s -> Forall (fun c => slash ∉ c) cs ->
  clean_stack rooted (clean_comps rooted s cs).
Proof.
  intros Hs HF. revert s Hs. induction HF as [|c cs Hc _ IH]; intros s Hs; [done|].
  cbn [clean_comps fold_left]. by apply IH, push_comp_clean.
Qed.

Lemma path_stack_clean path : clean_stack (IsAbs path) (path_stack path).
Proof.
  apply clean_comps_clean; [by apply (cs_base _ 0)|apply split_chars_no_sep].
Qed.

(** Pushing the components of a cleaned stack rebuilds it. *)
Lemma push_plain rooted s c : plain c -> push_comp rooted s c = c :: s.
Proof.
  intros (H1 & H2 & H3 & _). unfold push_comp.
  rewrite !bool_decide_false by done. done.
Qed.

Lemma clean_comps_app rooted s cs ds :
  clean_comps rooted s (cs ++ ds) = clean_comps rooted (clean_comps rooted s cs) ds.
Proof. unfold clean_comps. by rewrite fold_left_app. Qed.

Lemma clean_comps_plain rooted s cs : Forall plain cs -> clean_comps rooted s cs = reverse cs ++ s.
Proof.
  intros HF. revert s. induction HF as [|c cs Hc _ IH]; intros s; [done|].
  cbn [clean_comps fold_left]. rewrite push_plain by done. fold (clean_comps rooted (c :: s) cs).
  rewrite IH, reverse_cons, <- app_assoc. done.
Qed.

Lemma clean_comps_rebuild rooted s : clean_stack rooted s -> clean_comps rooted [] (reverse s) = s.
Proof.
  induction 1 as [n Hn|c s Hc _ IH].
  - rewrite reverse_replicate. induction n as [|n IH]; [done|].
    destruct rooted; [by specialize (Hn eq_refl)|]. rewrite replicate_S_end, clean_comps_app.
    rewrite IH by done. cbn [clean_comps fold_left]. unfold push_comp.
    rewrite !(bool_decide_false (dotdot = _)), (bool_decide_true (dotdot = dotdot)) by done.
    rewrite <- replicate_S_end. destruct n; [done|]. cbn [replicate orb]. by rewrite bool_decide_true.
  - rewrite reverse_cons, clean_comps_app, IH. cbn. by apply push_plain.
Qed.

(** ** Rendering and reading back *)
Lemma clean_stack_no_slash rooted s : clean_stack rooted s -> Forall (fun c => slash ∉ c) s.
Proof.
  induction 1 as [n _|c s Hc _ IH]; [apply Forall_replicate, dotdot_no_slash|].
  constructor; [apply Hc|done].
Qed.

Lemma clean_stack_nonempty rooted s : clean_stack rooted s -> Forall (fun c => c <> []) s.
Proof.
  induction 1 as [n _|c s Hc _ IH]; [by apply Forall_replicate|]. constructor; [apply Hc|done].
Qed.

(** The components of a rendered stack, up to empty and "." ones. *)
Lemma split_render rooted s stack : clean_stack rooted s ->
  clean_comps rooted stack (split_chars slash (chars (render rooted s))) =
  clean_comps rooted stack (reverse s).
Proof.
  intros Hs. pose proof (clean_stack_no_slash rooted s Hs) as HF. unfold render.
  destruct rooted.
  - rewrite chars_str. change (slash :: ?x) with ([] ++ slash :: x).
    rewrite split_chars_app. cbn [split_chars app]. destruct s as [|c s]; [done|].
    rewrite split_join_plain; [done| |by apply Forall_reverse].
    intros E%(f_equal length). rewrite length_reverse in E. done.
  - destruct s as [|c s]; [done|]. rewrite chars_str, split_join_plain; [done| |by apply Forall_reverse].
    intros E%(f_equal length). rewrite length_reverse in E. done.
Qed.

Lemma head_join cs c : head cs = Some c -> c <> [] -> head (join_chars slash cs) = head c.
Proof. destruct cs as [|d [|e cs]]; [done|..]; intros [= ->] Hne; by destruct c. Qed.

(** A rendered path is absolute exactly when it is rooted. *)
Lemma IsAbs_render rooted s : clean_stack rooted s -> IsAbs (render rooted s) = rooted.
Proof.
  intros Hs. unfold IsAbs, HasPrefix, render. destruct rooted; [by rewrite chars_str|].
  destruct s as [|c s]; [done|]. rewrite chars_str. pose proof (clean_stack_no_slash false _ Hs) as HF.
  destruct (last (c :: s)) as [b|] eqn:El; [|by apply last_None in El].
  assert (b ∈ c :: s) as Hb by (by apply last_Some_elem_of).
  pose proof (clean_stack_nonempty false _ Hs) as HN. rewrite Forall_forall in HN. specialize (HN b Hb).
  rewrite Forall_forall in HF. specialize (HF b Hb).
  assert (head (join_chars slash (reverse (c :: s))) = head b) as Hh.
  { apply head_join; [|done]. rewrite <- last_reverse, reverse_involutive. done. }
  destruct (join_chars slash (reverse (c :: s))) as [|x r]; destruct b as [|y b]; try done.
  cbn in Hh. injection Hh as ->. destruct (is_prefix (chars "/") (y :: r)) eqn:E; [|done].
  apply is_prefix_spec in E as [k E]. injection E as -> _. exfalso. apply HF. left.
Qed.

(** Cleaning what was rendered gives the stack back; in particular [Clean] is
    idempotent. *)
Lemma path_stack_render rooted s : clean_stack rooted s -> path_stack (render rooted s) = s.
Proof.
  intros Hs. unfold path_stack. rewrite IsAbs_render by done. rewrite split_render by done.
  by apply clean_comps_rebuild.
Qed.

Lemma Clean_idemp path : Clean (Clean path) = Clean path.
Proof.
  unfold Clean at 1. pose proof (path_stack_clean path) as H. unfold Clean.
  by rewrite IsAbs_render, path_stack_render.
Qed.

(** ** Joining a clean root and a clean relative path without ".." *)
Lemma Join2_plain rooted root ds : clean_stack rooted root -> Forall plain ds -> ds <> [] ->
  Join2 (render rooted root) (render false ds) = render rooted (ds ++ root).
Proof.
  intros Hr HF Hne. unfold Join2.
  assert (clean_stack false ds) as Hd.
  { clear Hne. induction HF as [|d ds H1 _ IH]; [by apply (cs_base _ 0)|by apply cs_push]. }
  assert (forall r s, clean_stack r s -> render r s <> "") as Hnz.
  { intros r s Hs E. pose proof (IsAbs_render r s Hs) as HA. rewrite E in HA. cbn in HA. subst r.
    unfold render in E. destruct s as [|c s]; [done|].
    pose proof (path_stack_render false (c :: s) Hs) as HP. unfold render in HP. rewrite E in HP. done. }
  rewrite (proj2 (String.eqb_neq _ _) (Hnz rooted root Hr)).
  assert (IsAbs (render rooted root +:+ "/" +:+ render false ds) = rooted) as HA.
  { rewrite <- (IsAbs_render rooted root Hr) at 2. unfold IsAbs, HasPrefix. rewrite !chars_app.
    destruct (chars (render rooted root)) as [|c l] eqn:E; [|done].
    apply chars_nil in E. by apply Hnz in E. }
  unfold Clean, path_stack. rewrite HA. f_equal. rewrite !chars_app. change (chars "/") with [slash].
  cbn [app]. rewrite split_chars_app, clean_comps_app, split_render by done.
  rewrite clean_comps_rebuild by done.
  assert (clean_comps rooted root (split_chars slash (chars (render false ds))) =
          clean_comps rooted root (reverse ds)) as ->.
  { unfold render. destruct ds as [|d ds]; [done|]. rewrite chars_str, split_join_plain; [done| |].
    - intros E%(f_equal length). rewrite length_reverse in E. done.
    - apply Forall_reverse. eapply Forall_impl; [exact HF|]. by intros c (_ & _ & _ & ?). }
  rewrite clean_comps_plain by (by apply Forall_reverse). by rewrite reverse_involutive.
Qed.

(** Joining any directory and one plain component gives a child of the directory. *)
Lemma Join2_child dir name : dir <> "" -> plain name ->
  path_stack (Join2 dir (str name)) = name :: path_stack dir /\ IsAbs (Join2 dir (str name)) = IsAbs dir.
Proof.
  intros Hd Hn. unfold Join2. rewrite (proj2 (String.eqb_neq _ _) Hd).
  assert (IsAbs (dir +:+ "/" +:+ str name) = IsAbs dir) as HA.
  { unfold IsAbs, HasPrefix. rewrite chars_app. destruct (chars dir) eqn:E; [|done].
    by apply chars_nil in E. }
  unfold Clean. rewrite IsAbs_render, path_stack_render by apply path_stack_clean.
  split; [|done]. unfold path_stack. rewrite HA, !chars_app, chars_str. change (chars "/") with [slash].
  cbn [app]. rewrite split_chars_app, clean_comps_app, (split_chars_plain slash name) by apply Hn.
  by apply push_plain.
Qed.
