(* ===== verification/GoCrypto.v ===== *)
(** * crypto/sha256, crypto/hmac and encoding/hex

    SHA-256 (FIPS 180-4) on a list of bytes, HMAC-SHA-256 (RFC 2104) and the
    lower-case hexadecimal rendering, all executable, with test vectors. *)
From S2P Require Import Prelude GoStrings.

Definition bytes_of (s : string) : list Z := map code (chars s).

(** 32-bit words. *)
Definition w32 (z : Z) : Z := z `mod` 2 ^ 32.
Definition rotr (n x : Z) : Z := w32 (Z.lor (Z.shiftr x n) (Z.shiftl x (32 - n))).
Definition big_sigma0 x := Z.lxor (Z.lxor (rotr 2 x) (rotr 13 x)) (rotr 22 x).
Definition big_sigma1 x := Z.lxor (Z.lxor (rotr 6 x) (rotr 11 x)) (rotr 25 x).
Definition small_sigma0 x := Z.lxor (Z.lxor (rotr 7 x) (rotr 18 x)) (Z.shiftr x 3).
Definition small_sigma1 x := Z.lxor (Z.lxor (rotr 17 x) (rotr 19 x)) (Z.shiftr x 10).
Definition ch x y z := Z.lxor (Z.land x y) (Z.land (Z.lxor x 0xffffffff) z).
Definition maj x y z := Z.lxor (Z.lxor (Z.land x y) (Z.land x z)) (Z.land y z).

(** FIPS 180-4 defines the round constants as the first 32 bits of the fractional
    parts of the cube roots of the first 64 primes, and the initial hash value
    the same way from the square roots of the first eight. *)
Definition is_prime (n : Z) : bool :=
  forallb (fun d => negb (n `mod` d =? 0)) (seqZ 2 (n - 2)).
Definition primes : list Z := Eval vm_compute in filter is_prime (seqZ 2 310).

(** The integer cube root, bit by bit from bit [n - 1] down. *)
Fixpoint cube_root (n : nat) (acc z : Z) : Z :=
  match n with
  | O => acc
  | S n =>
    let acc' := acc + 2 ^ Z.of_nat n in
    cube_root n (if acc' ^ 3 <=? z then acc' else acc) z
  end.

Definition sha256_k : list Z := Eval vm_compute in map (fun p => w32 (cube_root 40 0 (p * 2 ^ 96))) primes.

(** The eight working variables. *)
Record hash_state := mkH { ha : Z; hb : Z; hc : Z; hd : Z; he : Z; hf : Z; hg : Z; hh : Z }.

Definition root_word (i : nat) : Z := w32 (Z.sqrt (default 0 (primes !! i) * 2 ^ 64)).
Definition sha256_init : hash_state := Eval vm_compute in
  mkH (root_word 0) (root_word 1) (root_word 2) (root_word 3)
      (root_word 4) (root_word 5) (root_word 6) (root_word 7).

Definition sha_round (s : hash_state) (kw : Z * Z) : hash_state :=
  let t1 := hh s + big_sigma1 (he s) + ch (he s) (hf s) (hg s) + kw.1 + kw.2 in
  let t2 := big_sigma0 (ha s) + maj (ha s) (hb s) (hc s) in
  mkH (w32 (t1 + t2)) (ha s) (hb s) (hc s) (w32 (hd s + t1)) (he s) (hf s) (hg s).

(** The message schedule; [ws] holds the words so far, last first. *)
Fixpoint schedule_go (n : nat) (ws : list Z) : list Z :=
  match n with
  | O => reverse ws
  | S n =>
    let w i := default 0 (ws !! i) in
    schedule_go n
      (w32 (small_sigma1 (w 1%nat) + w 6%nat + small_sigma0 (w 14%nat) + w 15%nat) :: ws)
  end.
Definition schedule (block : list Z) : list Z := schedule_go 48 (reverse block).

Definition add_state (s t : hash_state) : hash_state :=
  mkH (w32 (ha s + ha t)) (w32 (hb s + hb t)) (w32 (hc s + hc t)) (w32 (hd s + hd t))
      (w32 (he s + he t)) (w32 (hf s + hf t)) (w32 (hg s + hg t)) (w32 (hh s + hh t)).

Definition compress (s : hash_state) (block : list Z) : hash_state :=
  add_state s (fold_left sha_round (zip sha256_k (schedule block)) s).

Fixpoint words_of (l : list Z) : list Z :=
  match l with
  | a :: b :: c :: d :: r => (a * 2 ^ 24 + b * 2 ^ 16 + c * 2 ^ 8 + d) :: words_of r
  | _ => []
  end.
Definition be_bytes (n : nat) (z : Z) : list Z :=
  map (fun i => Z.shiftr z (8 * Z.of_nat i) `mod` 256) (reverse (seq 0 n)).

Definition pad (msg : list Z) : list Z :=
  let len := zlen msg in
  msg ++ [0x80] ++ replicate (Z.to_nat ((55 - len) `mod` 64)) 0 ++ be_bytes 8 (8 * len).

Fixpoint blocks (n : nat) (ws : list Z) (s : hash_state) : hash_state :=
  match n with
  | O => s
  | S n => blocks n (drop 16 ws) (compress s (take 16 ws))
  end.

Definition digest_of (s : hash_state) : list Z :=
  mbind (be_bytes 4) [ha s; hb s; hc s; hd s; he s; hf s; hg s; hh s].

Definition sha256 (msg : list Z) : list Z :=
  let ws := words_of (pad msg) in
  digest_of (blocks (length ws `div` 16)%nat ws sha256_init).

(** [hex.EncodeToString]. *)
Definition hex_string (bytes : list Z) : string := str (hex_encode bytes).

Definition hmac_sha256 (key msg : list Z) : list Z :=
  let key := if 64 <? zlen key then sha256 key else key in
  let key := key ++ replicate (64 - length key) 0 in
  sha256 (map (Z.lxor 0x5c) key ++ sha256 (map (Z.lxor 0x36) key ++ msg)).

Example sha256_abc : hex_string (sha256 (bytes_of "abc")) =
  "ba7816bf8f01cfea414140de5dae2223b00361a396177a9cb410ff61f20015ad".
Proof. vm_compute. reflexivity. Qed.
Example sha256_empty : hex_string (sha256 []) =
  "e3b0c44298fc1c149afbf4c8996fb92427ae41e4649b934ca495991b7852b855".
Proof. vm_compute. reflexivity. Qed.
Example sha256_two_blocks :
  hex_string (sha256 (bytes_of "abcdbcdecdefdefgefghfghighijhijkijkljklmklmnlmnomnopnopq")) =
  "248d6a61d20638b8e5c026930c3e6039a33ce45964ff2167f6ecedd419db06c1".
Proof. vm_compute. reflexivity. Qed.
Example hmac_rfc4231_2 :
  hex_string (hmac_sha256 (bytes_of "Jefe") (bytes_of "what do ya want for nothing?")) =
  "5bdcc146bf60754e6a042426089575c75a003f089d2739839dec58b964ec3843".
Proof. vm_compute. reflexivity. Qed.

(** ** The shape of a digest *)
Definition is_byte (b : Z) : Prop := 0 <= b < 256.

Lemma be_bytes_shape n z : length (be_bytes n z) = n /\ Forall is_byte (be_bytes n z).
Proof.
  unfold be_bytes. split; [by rewrite length_map, length_reverse, length_seq|].
  apply Forall_fmap, Forall_forall. intros i _. simpl. unfold is_byte.
  apply Z.mod_pos_bound. lia.
Qed.

Lemma sha256_shape msg : length (sha256 msg) = 32%nat /\ Forall is_byte (sha256 msg).
Proof.
  unfold sha256. generalize (blocks (length (words_of (pad msg)) `div` 16)%nat
    (words_of (pad msg)) sha256_init) as s. intros [a b c d e f g h]. unfold digest_of.
  cbn [mbind list_bind ha hb hc hd he hf hg hh].
  split.
  - rewrite !length_app. rewrite !(proj1 (be_bytes_shape 4 _)). done.
  - rewrite !Forall_app. split_and!; try apply be_bytes_shape. constructor.
Qed.

Lemma hex_digit_lower n : 0 <= n < 16 -> is_lower_hex (hex_digit n) = true.
Proof.
  apply (range_forall 16 (fun n => is_lower_hex (hex_digit n))). vm_compute. reflexivity.
Qed.

Lemma hex_encode_shape bs : Forall is_byte bs ->
  length (hex_encode bs) = (2 * length bs)%nat /\
  Forall (fun c => is_lower_hex c = true) (hex_encode bs).
Proof.
  unfold hex_encode. induction 1 as [|b bs Hb _ [IH1 IH2]]; [done|].
  cbn [mbind list_bind]. rewrite length_app. split; [simpl in *; lia|].
  unfold is_byte in Hb. apply Forall_app. split; [|done].
  repeat constructor; apply hex_digit_lower;
    [split; [apply Z.div_pos; lia|apply Z.div_lt_upper_bound; lia]|apply Z.mod_pos_bound; lia].
Qed.

Lemma hex_sha256_shape msg :
  length (chars (hex_string (sha256 msg))) = 64%nat /\
  Forall (fun c => is_lower_hex c = true) (chars (hex_string (sha256 msg))).
Proof.
  unfold hex_string. rewrite chars_str.
  destruct (sha256_shape msg) as [HL HF].
  destruct (hex_encode_shape _ HF) as [HL' HF']. split; [by rewrite HL', HL|done].
Qed.

Lemma lower_hex_no_space c : is_lower_hex c = true -> no_space c = true.
Proof. unfold is_lower_hex, no_space. lia. Qed.

Lemma lower_hex_lower_char c : is_lower_hex c = true -> lower_char c = c.
Proof. unfold is_lower_hex, lower_char. intros H. case_match; [lia|done]. Qed.

#[export] Hint Resolve lower_hex_no_space lower_hex_lower_char : agent.
