(* ===== verification/GoBase64.v ===== *)
(** * encoding/base64: RawURLEncoding

    The URL alphabet without padding.  Decoding skips carriage returns and line
    feeds and does not check the unused low bits of the last character, as Go's
    non-strict decoder does. *)
From S2P Require Import Prelude GoStrings GoCrypto.

Definition base64_alphabet : list ascii :=
  chars "ABCDEFGHIJKLMNOPQRSTUVWXYZabcdefghijklmnopqrstuvwxyz0123456789-_".

Definition encode_char (i : Z) : ascii := default "A"%char (base64_alphabet !! Z.to_nat i).

Definition decode_char (c : ascii) : option Z :=
  let n := code c in
  if (65 <=? n) && (n <=? 90) then Some (n - 65)
  else if (97 <=? n) && (n <=? 122) then Some (n - 71)
  else if (48 <=? n) && (n <=? 57) then Some (n + 4)
  else if n =? 45 then Some 62 else if n =? 95 then Some 63 else None.

Fixpoint encode64 (bs : list Z) : list ascii :=
  match bs with
  | [] => []
  | [a] => [encode_char (a / 4); encode_char (a `mod` 4 * 16)]
  | [a; b] =>
    [encode_char (a / 4); encode_char (a `mod` 4 * 16 + b / 16); encode_char (b `mod` 16 * 4)]
  | a :: b :: c :: r =>
    encode_char (a / 4) :: encode_char (a `mod` 4 * 16 + b / 16)
      :: encode_char (b `mod` 16 * 4 + c / 64) :: encode_char (c `mod` 64) :: encode64 r
  end.

(** Six-bit groups to bytes; a single left-over group is an error. *)
Fixpoint groups (l : list Z) : option (list Z) :=
  match l with
  | [] => Some []
  | [_] => None
  | [a; b] => Some [a * 4 + b / 16]
  | [a; b; c] => Some [a * 4 + b / 16; b `mod` 16 * 16 + c / 4]
  | a :: b :: c :: d :: r =>
    rest ← groups r;
    Some (a * 4 + b / 16 :: b `mod` 16 * 16 + c / 4 :: c `mod` 4 * 64 + d :: rest)
  end.

Definition decode64 (s : list ascii) : option (list Z) :=
  let s := filter (fun c => negb ((code c =? 10) || (code c =? 13))) s in
  digits ← mapM decode_char s;
  groups digits.

Definition EncodeToString (bs : list Z) : string := str (encode64 bs).
Definition DecodeString (s : string) : option (list Z) := decode64 (chars s).

Example base64_vector : EncodeToString (bytes_of "any carnal pleas") = "YW55IGNhcm5hbCBwbGVhcw".
Proof. vm_compute. reflexivity. Qed.

Definition is_sextet (i : Z) : Prop := 0 <= i < 64.

(** A character of the alphabet decodes, is not white space and not a dot. *)
Definition base64_ok (i : Z) : bool :=
  let c := encode_char i in
  bool_decide (decode_char c = Some i) && no_space c && negb (Ascii.eqb c ".").
Lemma encode_char_ok i : is_sextet i -> base64_ok i = true.
Proof. apply (range_forall 64 base64_ok). vm_compute. reflexivity. Qed.

Lemma is_byte_split a : is_byte a ->
  is_sextet (a / 4) /\ 0 <= a `mod` 4 < 4 /\ 0 <= a / 16 < 16 /\ 0 <= a `mod` 16 < 16 /\
  0 <= a / 64 < 4 /\ 0 <= a `mod` 64 < 64.
Proof. unfold is_byte, is_sextet. intros H. Z.to_euclidean_division_equations. lia. Qed.

(** Encoding, as the six-bit groups it writes. *)
Fixpoint sextets (bs : list Z) : list Z :=
  match bs with
  | [] => []
  | [a] => [a / 4; a `mod` 4 * 16]
  | [a; b] => [a / 4; a `mod` 4 * 16 + b / 16; b `mod` 16 * 4]
  | a :: b :: c :: r =>
    a / 4 :: a `mod` 4 * 16 + b / 16 :: b `mod` 16 * 4 + c / 64 :: c `mod` 64 :: sextets r
  end.

Lemma bytes_ind (P : list Z -> Prop) :
  P [] -> (forall a, P [a]) -> (forall a b, P [a; b]) ->
  (forall a b c r, P r -> P (a :: b :: c :: r)) -> forall l, P l.
Proof.
  intros H0 H1 H2 H3. fix IH 1. intros [|a [|b [|c r]]]; [done|done|done|apply H3, IH].
Qed.

Lemma encode64_sextets bs : encode64 bs = map encode_char (sextets bs).
Proof. induction bs using bytes_ind; [done..|]. cbn [encode64 sextets map]. by rewrite IHbs. Qed.

Lemma sextets_ok bs : Forall is_byte bs -> Forall is_sextet (sextets bs).
Proof.
  induction bs as [|a|a b|a b c r IH] using bytes_ind; intros HF; cbn [sextets];
    rewrite ?Forall_cons in HF.
  - done.
  - destruct HF as [Ha _]. apply is_byte_split in Ha. unfold is_sextet in *.
    repeat (constructor; [lia|]). constructor.
  - destruct HF as (Ha & Hb & _). apply is_byte_split in Ha, Hb. unfold is_sextet in *.
    repeat (constructor; [lia|]). constructor.
  - destruct HF as (Ha & Hb & Hc & HF). specialize (IH HF). apply is_byte_split in Ha, Hb, Hc.
    unfold is_sextet in *. repeat (constructor; [lia|]). done.
Qed.

Lemma groups_sextets bs : Forall is_byte bs -> groups (sextets bs) = Some bs.
Proof.
  induction bs as [|a|a b|a b c r IH] using bytes_ind; intros HF; cbn [sextets groups];
    rewrite ?Forall_cons in HF; unfold is_byte in HF.
  - done.
  - repeat f_equal. Z.to_euclidean_division_equations. lia.
  - repeat f_equal; Z.to_euclidean_division_equations; lia.
  - destruct HF as (Ha & Hb & Hc & HF). rewrite (IH HF). cbn [mbind option_bind].
    repeat f_equal; Z.to_euclidean_division_equations; lia.
Qed.

Lemma encode64_chars bs : Forall is_byte bs ->
  Forall (fun c => no_space c = true /\ c <> "."%char) (encode64 bs).
Proof.
  intros HF. rewrite encode64_sextets. apply Forall_map. eapply Forall_impl; [by apply sextets_ok|].
  intros i Hi. apply encode_char_ok in Hi. unfold base64_ok in Hi.
  rewrite !andb_true_iff, negb_true_iff in Hi. destruct Hi as [[_ H1] H2]. split; [done|].
  by apply Ascii.eqb_neq.
Qed.

Lemma decode_encode64 bs : Forall is_byte bs -> decode64 (encode64 bs) = Some bs.
Proof.
  intros HF. unfold decode64.
  assert (filter (fun c => negb ((code c =? 10) || (code c =? 13))) (encode64 bs) = encode64 bs) as ->.
  { pose proof (encode64_chars bs HF) as HC. induction HC as [|c l [Hc _] _ IH]; [done|].
    rewrite filter_cons_True; [by rewrite IH|]. unfold no_space in Hc. apply Is_true_true. lia. }
  assert (mapM decode_char (encode64 bs) = Some (sextets bs)) as ->.
  { rewrite encode64_sextets. apply mapM_Some, Forall2_fmap_l.
    pose proof (sextets_ok bs HF) as HS. induction HS as [|i l Hi _ IH]; constructor; [|done].
    apply encode_char_ok in Hi. unfold base64_ok in Hi. rewrite !andb_true_iff in Hi.
    by destruct Hi as [[H%bool_decide_eq_true _] _]. }
  cbn [mbind option_bind]. by apply groups_sextets.
Qed.
