(* ===== verification/GoFloat.v ===== *)
(** * float64

    IEEE 754 binary64 as far as the code needs it: conversion from an integer,
    division, [==] and [<], on the Standard Library's executable specification
    of floating-point numbers. *)
From Stdlib Require Import SpecFloat.
From S2P Require Import Prelude.

Definition prec : Z := 53.
Definition emax : Z := 1024.
Definition float64 (z : Z) : spec_float := binary_normalize prec emax z 0 false.
Definition fdiv (x y : spec_float) : spec_float := SFdiv prec emax x y.

#[global] Arguments float64 : simpl never.
#[global] Arguments fdiv : simpl never.

Definition is_nan (f : spec_float) : bool := match f with S754_nan => true | _ => false end.
Definition is_finite (f : spec_float) : bool := match f with S754_finite _ _ _ => true | _ => false end.

(** ** Order

    Away from NaN, [<] and [==] are the lexicographic order and equality on a
    key: sign, exponent, mantissa. *)
Definition fkey (f : spec_float) : Z * Z * Z :=
  match f with
  | S754_zero _ => (0, 0, 0)
  | S754_infinity s => (if s then -2 else 2, 0, 0)
  | S754_nan => (3, 0, 0)
  | S754_finite s m e => if s then (-1, - e, Z.neg m) else (1, e, Z.pos m)
  end.
Definition key_lt (x y : Z * Z * Z) : bool :=
  let '(a, b, c) := x in let '(a', b', c') := y in
  (a <? a') || ((a =? a') && ((b <? b') || ((b =? b') && (c <? c')))).

Lemma SFcompare_key f g : is_nan f = false -> is_nan g = false ->
  SFltb f g = key_lt (fkey f) (fkey g) /\ SFeqb f g = bool_decide (fkey f = fkey g).
Proof.
  intros Hf Hg. unfold SFltb, SFeqb.
  destruct f as [s|s| |s m e]; destruct g as [s'|s'| |s' m' e']; try done;
    try (destruct s; done); try (destruct s'; done); try (destruct s, s'; done).
  destruct s, s'; try done; cbn [SFcompare fkey key_lt];
    destruct (Z.compare_spec e e') as [->|He|He];
    try (change (Pos.compare_cont Eq m m') with (Pos.compare m m');
         destruct (Pos.compare_spec m m') as [->|Hm|Hm]); cbn [CompOpp];
    (split; [lia || (symmetry; lia)|]);
    symmetry; (apply bool_decide_eq_true || apply bool_decide_eq_false); (congruence || (intros [=]; lia)).
Qed.

Lemma key_lt_total x y : x <> y -> key_lt x y = false -> key_lt y x = true.
Proof.
  destruct x as [[a b] c], y as [[a' b'] c']. simpl. intros Hne H.
  assert (~ (a = a' /\ b = b' /\ c = c')) by naive_solver. lia.
Qed.

(** ** Which values are not NaN *)

Lemma shr_1_m r : 0 <= shr_m r -> shr_m (shr_1 r) = shr_m r / 2.
Proof.
  destruct r as [m r s]. simpl. intros Hm. destruct m as [|[p|p|]|p]; try done; cbn [shr_1 shr_m].
  - apply Z.div_unique with 1; lia.
  - apply Z.div_unique with 0; lia.
Qed.

Lemma iter_shr_m p r : 0 <= shr_m r -> shr_m (SpecFloat.iter_pos shr_1 p r) = shr_m r / 2 ^ Z.pos p.
Proof.
  revert r. induction p as [p IH|p IH|]; intros r H; cbn [SpecFloat.iter_pos].
  - assert (0 <= shr_m r / 2) by (apply Z.div_pos; lia).
    assert (shr_m (shr_1 r) = shr_m r / 2) as E1 by (by apply shr_1_m).
    assert (shr_m (SpecFloat.iter_pos shr_1 p (shr_1 r)) = shr_m r / 2 / 2 ^ Z.pos p) as E2 by (rewrite IH; rewrite E1; done).
    rewrite IH by (rewrite E2; apply Z.div_pos; lia). rewrite E2, !Z.div_div by lia. f_equal.
    replace (Z.pos p~1) with (1 + Z.pos p + Z.pos p) by lia. rewrite !Z.pow_add_r by lia. lia.
  - rewrite IH by (rewrite IH by done; apply Z.div_pos; lia). rewrite IH, Z.div_div by lia. f_equal.
    replace (Z.pos p~0) with (Z.pos p + Z.pos p) by lia. by rewrite Z.pow_add_r by lia.
  - by apply shr_1_m.
Qed.

Lemma loc_m m l : shr_m (shr_record_of_loc m l) = m.
Proof. by destruct l as [|[]]. Qed.

Lemma shr_fexp_m m e l : 0 <= m ->
  let n := Z.max 0 (fexp prec emax (Zdigits2 m + e) - e) in
  shr_m (shr_fexp prec emax m e l).1 = m / 2 ^ n /\ (shr_fexp prec emax m e l).2 = e + n.
Proof.
  intros Hm n. unfold shr_fexp, shr. subst n.
  destruct (fexp prec emax (Zdigits2 m + e) - e) as [|p|p]; cbn [fst snd].
  - rewrite Z.max_l by lia. rewrite loc_m, Z.div_1_r. split; [done|lia].
  - rewrite Z.max_r by lia. rewrite iter_shr_m; rewrite loc_m; done.
  - rewrite Z.max_l by lia. rewrite loc_m, Z.div_1_r. split; [done|lia].
Qed.

Lemma round_bounds m l : m <= round_nearest_even m l <= m + 1.
Proof. destruct l as [|[]]; simpl; try lia. destruct (Z.even m); lia. Qed.

(** Rounding a mantissa that is not negative never yields NaN. *)
Lemma round_not_nan s m e l : 0 <= m -> is_nan (binary_round_aux prec emax s m e l) = false.
Proof.
  intros Hm. unfold binary_round_aux. destruct (shr_fexp_m m e l Hm) as [H1 _].
  destruct (shr_fexp prec emax m e l) as [r1 e1]. cbn [fst] in H1.
  assert (0 <= shr_m r1) by (rewrite H1; apply Z.div_pos; lia).
  pose proof (round_bounds (shr_m r1) (loc_of_shr_record r1)) as HR.
  set (m2 := round_nearest_even _ _) in *. clearbody m2. assert (0 <= m2) as Hm2 by lia.
  destruct (shr_fexp_m m2 e1 loc_Exact Hm2) as [H2 _].
  destruct (shr_fexp prec emax m2 e1 loc_Exact) as [r2 e2]. cbn [fst] in H2.
  assert (0 <= shr_m r2) by (rewrite H2; apply Z.div_pos; lia).
  destruct (shr_m r2); [done| |lia]. by destruct (e2 <=? _).
Qed.

Lemma digits_bounds p : 2 ^ (Z.pos (digits2_pos p) - 1) <= Z.pos p < 2 ^ Z.pos (digits2_pos p).
Proof.
  induction p as [p IH|p IH|]; cbn [digits2_pos]; [| |done].
  all: rewrite Pos2Z.inj_succ, Z.pow_succ_r by lia;
    replace (Z.succ (Z.pos (digits2_pos p)) - 1) with (Z.succ (Z.pos (digits2_pos p) - 1)) by lia;
    rewrite Z.pow_succ_r by lia; lia.
Qed.

Lemma digits_unique m d : 0 < d -> 2 ^ (d - 1) <= m < 2 ^ d -> Zdigits2 m = d.
Proof.
  intros Hd Hm. destruct m as [|p|p]; [pose proof (Z.pow_pos_nonneg 2 (d - 1)); lia| |
    pose proof (Z.pow_pos_nonneg 2 (d - 1)); lia].
  cbn [Zdigits2]. pose proof (digits_bounds p) as Hp. set (k := Z.pos (digits2_pos p)) in *.
  assert (~ k < d) by (intros Hlt; pose proof (Z.pow_le_mono_r 2 k (d - 1)); lia).
  assert (~ d < k) by (intros Hlt; pose proof (Z.pow_le_mono_r 2 d (k - 1)); lia). lia.
Qed.

(** A mantissa of 53 to 64 digits with a small exponent rounds to a finite number. *)
Lemma round_finite s m e d : 53 <= d <= 64 -> 2 ^ (d - 1) <= m < 2 ^ d -> -52 <= e <= 0 ->
  is_finite (binary_round_aux prec emax s m e loc_Exact) = true.
Proof.
  intros Hd Hm He. assert (0 <= m) as Hm0 by (pose proof (Z.pow_pos_nonneg 2 (d - 1)); lia).
  unfold binary_round_aux. destruct (shr_fexp_m m e loc_Exact Hm0) as [H1 E1].
  rewrite (digits_unique m d) in * by (try lia; done).
  destruct (shr_fexp prec emax m e loc_Exact) as [r1 e1]. cbn [fst snd] in H1, E1.
  replace (Z.max 0 (fexp prec emax (d + e) - e)) with (d - 53) in *
    by (unfold fexp, emin, prec, emax; lia).
  assert (2 ^ 52 <= shr_m r1 < 2 ^ 53) as Hr1.
  { rewrite H1. split; [apply Z.div_le_lower_bound|apply Z.div_lt_upper_bound];
      rewrite <- ?Z.pow_add_r by lia; try lia.
    - replace (d - 53 + 52) with (d - 1) by lia. lia.
    - replace (d - 53 + 53) with d by lia. lia. }
  pose proof (round_bounds (shr_m r1) (loc_of_shr_record r1)) as HR.
  set (m2 := round_nearest_even _ _) in *. clearbody m2.
  destruct (shr_fexp_m m2 e1 loc_Exact ltac:(lia)) as [H2 E2].
  assert (Zdigits2 m2 = 53 \/ Zdigits2 m2 = 54) as HD.
  { destruct (Z.lt_ge_cases m2 (2 ^ 53)); [left|right]; apply digits_unique; lia. }
  destruct (shr_fexp prec emax m2 e1 loc_Exact) as [r2 e2]. cbn [fst snd] in H2, E2.
  assert (0 < shr_m r2 /\ e2 <= 20) as [Hp He2].
  { rewrite H2, E2. unfold fexp, emin, prec, emax. destruct HD as [-> | ->].
    - rewrite (Z.max_l 0) by lia. rewrite Z.div_1_r. lia.
    - replace (Z.max 0 _) with 1 by lia. split; [apply Z.div_str_pos; lia|lia]. }
  destruct (shr_m r2) as [|p|p]; [lia| |lia].
  unfold emax, prec. rewrite (proj2 (Z.leb_le _ _)) by lia. done.
Qed.

Lemma binary_round_finite s p : Z.pos p <= 2 ^ 63 -> is_finite (binary_round prec emax s p 0) = true.
Proof.
  intros Hp. pose proof (digits_bounds p) as HB. unfold binary_round.
  set (d := Z.pos (digits2_pos p)) in *.
  assert (1 <= d <= 64) as Hd.
  { split; [lia|]. apply Z.nlt_ge. intros Hlt. pose proof (Z.pow_le_mono_r 2 64 (d - 1)). lia. }
  unfold shl_align. replace (fexp prec emax (d + 0) - 0) with (d - 53)
    by (unfold fexp, emin, prec, emax; lia).
  destruct (d - 53) as [|k|k] eqn:Ek.
  - apply (round_finite _ _ _ d); lia.
  - apply (round_finite _ _ _ d); lia.
  - cbv beta iota. change (Pos.iter xO p k) with (shift_pos k p). rewrite shift_pos_correct, Z.pow_pos_fold. apply (round_finite _ _ _ 53); [lia| |].
    + assert (2 ^ 53 = 2 ^ d * 2 ^ Z.pos k) as -> by (rewrite <- Z.pow_add_r by lia; f_equal; lia).
      assert (2 ^ (53 - 1) = 2 ^ (d - 1) * 2 ^ Z.pos k) as ->
        by (rewrite <- Z.pow_add_r by lia; f_equal; lia). nia.
    + unfold fexp, emin, prec, emax. lia.
Qed.

(** A mantissa of exactly 53 digits is kept. *)
Lemma round_exact s m e : 2 ^ 52 <= Z.pos m < 2 ^ 53 -> -52 <= e <= 0 ->
  binary_round_aux prec emax s (Z.pos m) e loc_Exact = S754_finite s m e.
Proof.
  intros Hm He. assert (Zdigits2 (Z.pos m) = 53) as HD by (apply digits_unique; lia).
  unfold binary_round_aux, shr_fexp. rewrite HD.
  assert (fexp prec emax (53 + e) - e = 0) as -> by (unfold fexp, emin, prec, emax; lia).
  cbn [shr shr_record_of_loc shr_m loc_of_shr_record round_nearest_even]. rewrite HD.
  assert (fexp prec emax (53 + e) - e = 0) as -> by (unfold fexp, emin, prec, emax; lia).
  cbn [shr shr_record_of_loc shr_m]. by rewrite (proj2 (Z.leb_le _ _)) by (unfold prec, emax; lia).
Qed.

(** Integers of at most 53 digits are represented exactly. *)
Lemma float64_exact z : z <> 0 -> Z.abs z < 2 ^ 53 -> exists m k, 0 <= k <= 52 /\
  Z.pos m = Z.abs z * 2 ^ k /\ float64 z = S754_finite (z <? 0) m (- k).
Proof.
  intros Hne Hz. assert (exists p, Z.abs z = Z.pos p /\ float64 z = binary_round prec emax (z <? 0) p 0) as (p & Hp & ->).
  { destruct z as [|p|p]; [done| |]; by exists p. }
  rewrite Hp in *. pose proof (digits_bounds p) as HB. unfold binary_round.
  set (d := Z.pos (digits2_pos p)) in *.
  assert (1 <= d <= 53) as Hd.
  { split; [lia|]. apply Z.nlt_ge. intros Hlt. pose proof (Z.pow_le_mono_r 2 53 (d - 1)). lia. }
  unfold shl_align. replace (fexp prec emax (d + 0)) with (d - 53) by (unfold fexp, emin, prec, emax; lia).
  rewrite Z.sub_0_r. destruct (d - 53) as [|k|k] eqn:Ek; [|lia|].
  - exists p, 0. split_and!; [lia|lia|lia|]. replace d with 53 in HB by lia. apply round_exact; lia.
  - change (Pos.iter xO p k) with (shift_pos k p).
    assert (Z.pos (shift_pos k p) = Z.pos p * 2 ^ Z.pos k) as Hm by (rewrite shift_pos_correct, Z.pow_pos_fold; lia).
    set (m := shift_pos k p) in *. clearbody m. exists m, (Z.pos k). split_and!; [lia|lia|done|].
    apply round_exact; [|lia]. rewrite Hm.
    assert (2 ^ 53 = 2 ^ d * 2 ^ Z.pos k) as -> by (rewrite <- Z.pow_add_r by lia; f_equal; lia).
    assert (2 ^ 52 = 2 ^ (d - 1) * 2 ^ Z.pos k) as ->
      by (rewrite <- Z.pow_add_r by lia; f_equal; lia). nia.
Qed.

(** Every 64-bit integer converts to zero or to a finite number. *)
Lemma float64_finite z : in_int64 z -> z <> 0 -> is_finite (float64 z) = true.
Proof.
  unfold in_int64, int64_min, int64_max. intros Hz Hne. unfold float64, binary_normalize.
  destruct z as [|p|p]; [done| |]; apply binary_round_finite; lia.
Qed.

(** The quotient of two 64-bit integers is not NaN when the divisor is not zero. *)
Lemma fdiv_not_nan x y : in_int64 x -> in_int64 y -> y <> 0 -> is_nan (fdiv (float64 x) (float64 y)) = false.
Proof.
  intros Hx Hy Hne. pose proof (float64_finite y Hy Hne) as HY.
  destruct (float64 y) as [| | |sy my ey]; try done. unfold fdiv.
  destruct (Z.eq_dec x 0) as [->|Hxne]; [done|].
  pose proof (float64_finite x Hx Hxne) as HX. destruct (float64 x) as [| | |sx mx ex]; try done.
  unfold SFdiv, SFdiv_core_binary.
  set (m' := match _ with Z0 => _ | Z.pos _ => _ | Z.neg _ => _ end).
  assert (0 <= m') as Hm'.
  { subst m'. case_match; [lia|apply Z.shiftl_nonneg; lia|lia]. }
  pose proof (Z_div_mod m' (Z.pos my) ltac:(lia)) as HD.
  destruct (Z.div_eucl m' (Z.pos my)) as [q r]. apply round_not_nan. nia.
Qed.
