(* ===== verification/GoTime.v ===== *)
(** * Package time: layouts and durations

    The time stamp of the dead letters, and [time.ParseDuration] as the standard
    library defines it, with its overflow checks on 64-bit integers and its
    floating-point handling of fractions. *)
From Stdlib Require Import SpecFloat.
From S2P Require Import Prelude GoStrings GoFloat.

(** ** Time stamps

    [Time.Format] with the layout "20060102T150405.000000000Z".  Days are counted
    from 1 January of year 1; [civil] is the proleptic Gregorian calendar. *)
Definition civil (days : Z) : Z * Z * Z :=
  let z := days + 306 in
  let era := z / 146097 in
  let doe := z `mod` 146097 in
  let yoe := (doe - doe / 1460 + doe / 36524 - doe / 146096) / 365 in
  let doy := doe - (365 * yoe + yoe / 4 - yoe / 100) in
  let mp := (5 * doy + 2) / 153 in
  let m := if mp <? 10 then mp + 3 else mp - 9 in
  let y := yoe + era * 400 + (if m <=? 2 then 1 else 0) in
  (y, m, doy - (153 * mp + 2) / 5 + 1).

(** [appendInt]: decimal digits padded with zeros to a width. *)
Definition pad (width : nat) (n : Z) : list ascii :=
  let digits := chars (Itoa (Z.abs n)) in
  (if n <? 0 then ["-"%char] else []) ++ replicate (width - length digits) "0"%char ++ digits.

Definition stamp (t : Time) : string :=
  let secs := t / second in
  let '(y, m, d) := civil (secs / 86400) in
  let tod := secs `mod` 86400 in
  str (pad 4 y ++ pad 2 m ++ pad 2 d ++ chars "T" ++
       pad 2 (tod / 3600) ++ pad 2 (tod `mod` 3600 / 60) ++ pad 2 (tod `mod` 60) ++
       chars "." ++ pad 9 (t `mod` second) ++ chars "Z").

(** ** Durations *)
Definition Millisecond : Duration := 1000000.
Definition Minute : Duration := 60 * second.
Definition Hour : Duration := 60 * Minute.

Definition fmul (x y : spec_float) : spec_float := SFmul prec emax x y.

(** Conversion of a finite float that is not negative to an integer: truncation. *)
Definition ftrunc (x : spec_float) : Z :=
  match x with
  | S754_finite s m e => let v := if 0 <=? e then Z.pos m * 2 ^ e else Z.pos m / 2 ^ (- e) in if s then - v else v
  | _ => 0
  end.

Definition unit_map : list (list ascii * Z) :=
  [(chars "ns", 1); (chars "us", 1000); (map ascii_of_nat [194; 181; 115]%nat, 1000);
   (map ascii_of_nat [206; 188; 115]%nat, 1000); (chars "ms", Millisecond); (chars "s", second);
   (chars "m", Minute); (chars "h", Hour)].

Definition lookup_unit (u : list ascii) : option Z := snd <$> find (fun p => bool_decide (p.1 = u)) unit_map.

(** [leadingInt]: the digits at the front; [None] on overflow. *)
Fixpoint leadingInt (l : list ascii) (x : Z) : option (Z * list ascii) :=
  match l with
  | c :: r =>
    match digit c with
    | None => Some (x, l)
    | Some d =>
      if 2 ^ 63 / 10 <? x then None else
      let x := x * 10 + d in
      if 2 ^ 63 <? x then None else leadingInt r x
    end
  | [] => Some (x, [])
  end.

(** [leadingFraction]: digits beyond the precision of 64 bits are dropped. *)
Fixpoint leadingFraction (l : list ascii) (x : Z) (scale : spec_float) (overflow : bool)
  : Z * spec_float * list ascii :=
  match l with
  | c :: r =>
    match digit c with
    | None => (x, scale, l)
    | Some d =>
      if overflow || ((2 ^ 63 - 1) / 10 <? x) || (2 ^ 63 <? x * 10 + d) then leadingFraction r x scale true
      else leadingFraction r (x * 10 + d) (fmul scale (float64 10)) false
    end
  | [] => (x, scale, [])
  end.

(** The unit at the front: everything up to the next digit or dot. *)
Definition number_char (c : ascii) : bool := bool_decide (is_Some (digit c)) || Ascii.eqb c ".".
Fixpoint take_unit (l : list ascii) : list ascii * list ascii :=
  match l with
  | c :: r => if number_char c then ([], l) else let '(u, k) := take_unit r in (c :: u, k)
  | [] => ([], [])
  end.

(** One number with its unit: its value in nanoseconds and the rest. *)
Definition parse_term (l : list ascii) : option (Z * list ascii) :=
  match l with
  | [] => None
  | c :: _ =>
    if negb (number_char c) then None else
    '(v, l1) ← leadingInt l 0;
    let pre := negb (length l =? length l1)%nat in
    let '(f, scale, l2, post) :=
      match l1 with
      | d :: r => if Ascii.eqb d "."
                  then let '(f, scale, k) := leadingFraction r 0 (float64 1) false in
                       (f, scale, k, negb (length r =? length k)%nat)
                  else (0, float64 1, l1, false)
      | [] => (0, float64 1, l1, false)
      end in
    if negb pre && negb post then None else
    let '(u, l3) := take_unit l2 in
    match u with
    | [] => None
    | _ =>
      unit ← lookup_unit u;
      if 2 ^ 63 / unit <? v then None else
      let v := v * unit in
      if 0 <? f then
        let v := (v + ftrunc (fmul (float64 f) (fdiv (float64 unit) scale))) `mod` 2 ^ 64 in
        if 2 ^ 63 <? v then None else Some (v, l3)
      else Some (v, l3)
    end
  end.

(** The loop; every round consumes a character, so the length is enough fuel. *)
Fixpoint parse_terms (fuel : nat) (l : list ascii) (d : Z) : option Z :=
  match l with
  | [] => Some d
  | _ =>
    match fuel with
    | O => None
    | S fuel =>
      '(v, r) ← parse_term l;
      let d := d + v in
      if 2 ^ 63 <? d then None else parse_terms fuel r d
    end
  end.

(** [time.ParseDuration]; [None] stands for its error, whose text no caller uses. *)
Definition ParseDuration (s : string) : option Duration :=
  let '(neg, l) := match chars s with
                   | c :: r => if Ascii.eqb c "-" then (true, r) else if Ascii.eqb c "+" then (false, r)
                               else (false, chars s)
                   | [] => (false, [])
                   end in
  if bool_decide (l = chars "0") then Some 0 else
  match l with
  | [] => None
  | _ =>
    d ← parse_terms (length l) l 0;
    if neg then Some (- d) else if 2 ^ 63 - 1 <? d then None else Some d
  end.

Example duration_1 : ParseDuration "1h30m" = Some (90 * Minute). Proof. vm_compute. reflexivity. Qed.
Example duration_2 : ParseDuration "1.5s" = Some (1500 * Millisecond). Proof. vm_compute. reflexivity. Qed.
Example duration_3 : ParseDuration "-.5h" = Some (- 30 * Minute). Proof. vm_compute. reflexivity. Qed.
Example duration_4 : ParseDuration "10" = None. Proof. vm_compute. reflexivity. Qed.
Example duration_5 : ParseDuration "9223372036854775808ns" = None. Proof. vm_compute. reflexivity. Qed.
Example duration_6 : ParseDuration "-9223372036854775808ns" = Some int64_min. Proof. vm_compute. reflexivity. Qed.

(** [parseDurationOr] of packages transfer and gateway. *)
Definition parseDurationOr (value : string) (fallback : Duration) : Duration :=
  match ParseDuration (TrimSpace value) with
  | Some d => if d <=? 0 then fallback else d
  | None => fallback
  end.

(** ** The fuel of the loop is enough: every term consumes at least one character. *)
Lemma leadingInt_len l x v r : leadingInt l x = Some (v, r) -> (length r <= length l)%nat.
Proof.
  revert x. induction l as [|c l IH]; intros x; simpl; [by intros [= _ <-]|].
  destruct (digit c); [|by intros [= _ <-]]. repeat case_match; try done. intros Hl%IH. lia.
Qed.

Lemma leadingFraction_len l x s o : (length (leadingFraction l x s o).2 <= length l)%nat.
Proof.
  revert x s o. induction l as [|c l IH]; intros x s o; simpl; [done|].
  destruct (digit c); [|done]. case_match; etrans; try apply IH; lia.
Qed.

Lemma take_unit_len l : (length (take_unit l).1 + length (take_unit l).2 = length l)%nat.
Proof.
  induction l as [|c l IH]; [done|]. cbn [take_unit]. destruct (number_char c); [done|].
  destruct (take_unit l) as [u k]. cbn in *. lia.
Qed.

Lemma parse_term_len l v r : parse_term l = Some (v, r) -> (length r < length l)%nat.
Proof.
  unfold parse_term. destruct l as [|c l]; [done|]. destruct (negb _); [done|].
  destruct (leadingInt (c :: l) 0) as [[v0 l1]|] eqn:E1; [|done]. apply leadingInt_len in E1. cbn [mbind option_bind].
  set (x := match l1 with [] => _ | _ => _ end).
  assert (length x.1.2 <= length l1)%nat as Hx.
  { subst x. destruct l1 as [|d k]; [done|]. destruct (Ascii.eqb d "."); [|done].
    pose proof (leadingFraction_len k 0 (float64 1) false). destruct (leadingFraction _ _ _ _) as [[f sc] k']. cbn in *. lia. }
  destruct x as [[[f sc] l2] post]. cbn [fst snd] in Hx. destruct (_ && _); [done|].
  pose proof (take_unit_len l2). destruct (take_unit l2) as [u l3]. cbn [fst snd] in *.
  destruct u as [|u0 u]; [done|]. destruct (lookup_unit _); [|done]. cbn [mbind option_bind].
  cbn [length] in *. repeat case_match; intros [= _ <-] || done; lia.
Qed.

Lemma parse_terms_fuel fuel fuel' l d : (length l <= fuel)%nat -> (length l <= fuel')%nat ->
  parse_terms fuel l d = parse_terms fuel' l d.
Proof.
  revert fuel' l d. induction fuel as [|fuel IH]; intros [|fuel'] [|c l] d H1 H2; cbn [length] in *; try lia; try done.
  cbn [parse_terms]. destruct (parse_term (c :: l)) as [[v r]|] eqn:E; [|done]. apply parse_term_len in E. cbn [length] in E.
  cbn [mbind option_bind]. case_match; [done|]. apply IH; lia.
Qed.
