(* ===== verification/GoJson.v ===== *)
(** * Values behind Go's [any]

    What [json.Unmarshal] stores in an [any], and the values the agent puts into a
    [map\[string\]any] before it is encoded.  A map is the list of its entries in
    the order in which one traversal enumerates them; its keys are distinct.  The
    codec itself (text to value and back) is a parameter of the files that use it. *)
From Stdlib Require Import SpecFloat.
From S2P Require Import Prelude GoStrings GoFloat GoTime.

Inductive any :=
| ANil | ABool (b : bool) | AInt (z : Z) | AFloat (f : spec_float) | AString (s : string)
| AList (l : list any)
| AMap (m : list (string * any))
| AStringMap (m : list (string * string))   (* a [map\[string\]string] *)
| AOther (rendered : string).               (* a struct, or a list or map of another type, by its JSON text *)

Notation metadata := (gmap string any).
Notation object := (list (string * any)).

(** Induction that reaches the elements of lists and maps. *)
Section any_induction.
Context (P : any -> Prop).
Hypothesis HNil : P ANil.
Hypothesis HBool : forall b, P (ABool b).
Hypothesis HInt : forall z, P (AInt z).
Hypothesis HFloat : forall f, P (AFloat f).
Hypothesis HString : forall s, P (AString s).
Hypothesis HList : forall l, Forall P l -> P (AList l).
Hypothesis HMap : forall m, Forall (fun kv => P kv.2) m -> P (AMap m).
Hypothesis HStringMap : forall m, P (AStringMap m).
Hypothesis HOther : forall s, P (AOther s).

Fixpoint any_deep_ind (v : any) : P v :=
  match v with
  | ANil => HNil
  | ABool b => HBool b
  | AInt z => HInt z
  | AFloat f => HFloat f
  | AString s => HString s
  | AList l =>
    HList l ((fix go l := match l return Forall P l with
              | [] => Forall_nil_2 _
              | x :: r => Forall_cons_2 _ _ _ (any_deep_ind x) (go r)
              end) l)
  | AMap m =>
    HMap m ((fix go m := match m return Forall (fun kv => P kv.2) m with
             | [] => Forall_nil_2 _
             | kv :: r => Forall_cons_2 (fun kv => P kv.2) kv _ (any_deep_ind kv.2) (go r)
             end) m)
  | AStringMap m => HStringMap m
  | AOther s => HOther s
  end.
End any_induction.

(** Indexing a map. *)
Fixpoint assoc {A} (key : string) (m : list (string * A)) : option A :=
  match m with
  | [] => None
  | (k, v) :: r => if String.eqb k key then Some v else assoc key r
  end.

Lemma assoc_elem {A} key (m : list (string * A)) v : assoc key m = Some v -> (key, v) ∈ m.
Proof.
  induction m as [|[k x] r IH]; simpl; [done|]. destruct (String.eqb k key) eqn:E.
  - apply String.eqb_eq in E as ->. intros [= ->]. left.
  - intros H. right. by apply IH.
Qed.

(** With distinct keys indexing does not depend on the order of enumeration. *)
Lemma assoc_perm {A} key (m m' : list (string * A)) :
  m ≡ₚ m' -> NoDup (map fst m) -> assoc key m = assoc key m'.
Proof.
  intros HP. induction HP as [|[k v] r r' HP IH|[k v] [k' v'] r|r1 r2 r3 H1 IH1 H2 IH2]; intros HN.
  - done.
  - simpl. apply NoDup_cons in HN as [_ HN]. by rewrite IH.
  - simpl. destruct (String.eqb k' key) eqn:E', (String.eqb k key) eqn:E; try done.
    apply String.eqb_eq in E as ->, E' as ->. apply NoDup_cons in HN as [HN _].
    exfalso. apply HN. left.
  - rewrite IH1 by done. apply IH2. by rewrite <- H1.
Qed.

(** Conversion of a [float64] to [int64]: truncation, and the smallest [int64]
    for a value out of range, as on amd64. *)
Definition int64_of_float (f : spec_float) : Z :=
  match f with
  | S754_finite _ _ _ => let z := ftrunc f in if decide (in_int64 z) then z else int64_min
  | S754_zero _ => 0
  | _ => int64_min
  end.

Lemma int64_of_float_range f : in_int64 (int64_of_float f).
Proof. unfold int64_of_float. repeat case_match; done. Qed.

(** ** Numbers that are encoded and decoded again

    [json.Marshal] writes an integral [float64] below 10^21 in decimal, with the fewest
    digits that read back as the same number; [json.Unmarshal] into an integer accepts a
    decimal text without fraction or exponent in the range of [int64]. *)
Definition integral (f : spec_float) : option Z :=
  match f with
  | S754_zero _ => Some 0
  | S754_finite s m e =>
    if (0 <=? e) || (Z.pos m `mod` 2 ^ (- e) =? 0) then Some (ftrunc f) else None
  | _ => None
  end.
Definition same_float (x y : Z) : bool := bool_decide (fkey (float64 x) = fkey (float64 y)).

(** The shortest digits of a positive integer, with at most [k] zeros at the end.  Two
    candidates are never equally far: the number would be an odd multiple of
    5^k * 2^(k-1) and a multiple of its own unit, which is at least 10^k. *)
Fixpoint shortest (k : nat) (z : Z) : Z :=
  match k with
  | O => z
  | S k' =>
    let unit := 10 ^ Z.of_nat k in
    let lo := z / unit * unit in
    let hi := lo + unit in
    match same_float lo z, same_float hi z with
    | true, true => if z - lo <? hi - z then lo else hi
    | true, false => lo
    | false, true => hi
    | false, false => shortest k' z
    end
  end.
Definition decimal (z : Z) : Z :=
  if Z.abs z <? 2 ^ 53 then z else Z.sgn z * shortest 21 (Z.abs z).
Definition json_int (f : spec_float) : option Z :=
  z ← integral f;
  if 10 ^ 21 <=? Z.abs z then None else
  let d := decimal z in if decide (in_int64 d) then Some d else None.

(** Truncation of an exact integer. *)
Lemma ftrunc_float64 z : Z.abs z < 2 ^ 53 -> ftrunc (float64 z) = z.
Proof.
  intros Hz. destruct (Z.eq_dec z 0) as [->|Hne]; [done|].
  destruct (float64_exact z Hne Hz) as (m & k & Hk & Hm & ->). cbn [ftrunc].
  assert ((if 0 <=? - k then Z.pos m * 2 ^ (- k) else Z.pos m / 2 ^ (- - k)) = Z.abs z) as ->;
    [|destruct (Z.ltb_spec z 0); lia].
  rewrite Hm, Z.opp_involutive. destruct (Z.leb_spec 0 (- k)).
  - replace k with 0 by lia. simpl. lia.
  - apply Z.div_mul. lia.
Qed.

Lemma json_int_exact z : Z.abs z < 2 ^ 53 -> json_int (float64 z) = Some z.
Proof.
  intros Hz. unfold json_int.
  assert (integral (float64 z) = Some z) as ->.
  { pose proof (ftrunc_float64 z Hz) as HT. destruct (Z.eq_dec z 0) as [->|Hne]; [done|].
    destruct (float64_exact z Hne Hz) as (m & k & Hk & Hm & E). rewrite E in *. cbn [integral].
    rewrite Z.opp_involutive, Hm, Z.mod_mul, HT by lia. by rewrite orb_true_r. }
  cbn [mbind option_bind]. unfold decimal. rewrite (proj2 (Z.leb_gt _ _)), (proj2 (Z.ltb_lt _ _)) by lia.
  by rewrite decide_True by (unfold in_int64, int64_min, int64_max; lia).
Qed.

(** Larger numbers lose digits twice: when they are read, and when they are written. *)
Example json_int_large : json_int (float64 (2 ^ 60 + 1)) = Some 1152921504606847000 /\
  json_int (float64 (2 ^ 63 - 1)) = None.
Proof. split; vm_compute; reflexivity. Qed.
