(* ===== verification/GoJsonStruct.v ===== *)
(** * Structs and JSON

    What encoding/json does between a decoded object and a Go struct: the choice of the field
    for a key, decoding into variables that already have a content, and [omitempty].  A type
    that occurs in the agent's messages is an instance of [Json]. *)
From Stdlib Require Import SpecFloat.
From S2P Require Import Prelude GoStrings GoFloat GoTime GoJson.

(** [json_dec v x] is the content of a variable after [v] was decoded into it when it had the
    content [x]; [None] is a value that does not fit the type.  [json_fits] are the values that
    JSON represents exactly. *)
Class Json (A : Type) := {
  json_zero : A;
  json_empty : A -> bool;
  json_dec : any -> A -> option A;
  json_enc : A -> any;
  json_fits : A -> Prop;
  json_empty_zero a : json_empty a = true -> a = json_zero;
  json_dec_enc a : json_fits a -> json_dec (json_enc a) json_zero = Some a
}.

#[local] Obligation Tactic := idtac.

(** ** Types without fields; [null] leaves all but maps as they are *)
Definition dec_string (v : any) (old : string) : option string :=
  match v with ANil => Some old | AString s => Some s | _ => None end.
#[export] Program Instance json_string : Json string := {|
  json_zero := ""; json_empty s := String.eqb s ""; json_dec := dec_string; json_enc := AString; json_fits _ := True
|}.
Next Obligation. intros a H. by apply String.eqb_eq in H. Qed.
Next Obligation. done. Qed.

Definition dec_bool (v : any) (old : bool) : option bool :=
  match v with ANil => Some old | ABool b => Some b | _ => None end.
#[export] Program Instance json_bool : Json bool := {|
  json_zero := false; json_empty := negb; json_dec := dec_bool; json_enc := ABool; json_fits _ := True
|}.
Next Obligation. by intros []. Qed.
Next Obligation. done. Qed.

Definition dec_int (v : any) (old : Z) : option Z :=
  match v with
  | ANil => Some old
  | AFloat f => json_int f
  | AInt z => if decide (in_int64 z) then Some z else None
  | _ => None
  end.
#[export] Program Instance json_Z : Json Z := {|
  json_zero := 0; json_empty z := z =? 0; json_dec := dec_int; json_enc z := AFloat (float64 z);
  json_fits z := Z.abs z < 2 ^ 53
|}.
Next Obligation. intros a H. lia. Qed.
Next Obligation. intros a H. by apply json_int_exact. Qed.

Definition string_entry (kv : string * any) : option (string * string) := pair kv.1 <$> dec_string kv.2 "".
Definition dec_string_map (v : any) (old : gmap string string) : option (gmap string string) :=
  match v with
  | ANil => Some ∅
  | AMap m => (fun l => list_to_map l ∪ old) <$> mapM string_entry m
  | AStringMap m => Some (list_to_map m ∪ old)
  | _ => None
  end.
#[export] Program Instance json_string_map : Json (gmap string string) := {|
  json_zero := ∅; json_empty m := bool_decide (m = ∅); json_dec := dec_string_map;
  json_enc m := AMap (prod_map id AString <$> map_to_list m); json_fits _ := True
|}.
Next Obligation. intros a H. by apply bool_decide_eq_true in H. Qed.
Next Obligation.
  intros a _. cbn. assert (forall l, mapM string_entry (prod_map id AString <$> l) = Some l) as ->.
  { induction l as [|[k v] l IH]; [done|]. cbn. by rewrite IH. }
  cbn. by rewrite list_to_map_to_list, (right_id_L ∅ (∪)).
Qed.

Definition dec_any_map (v : any) (old : metadata) : option metadata :=
  match v with
  | ANil => Some ∅
  | AMap m => Some (list_to_map m ∪ old)
  | AStringMap m => Some (list_to_map (prod_map id AString <$> m) ∪ old)
  | _ => None
  end.
#[export] Program Instance json_any_map : Json metadata := {|
  json_zero := ∅; json_empty m := bool_decide (size m = 0%nat); json_dec := dec_any_map;
  json_enc m := AMap (map_to_list m); json_fits _ := True
|}.
Next Obligation. intros a H. apply bool_decide_eq_true in H. by apply map_size_empty_iff. Qed.
Next Obligation. intros a _. cbn. by rewrite list_to_map_to_list, (right_id_L ∅ (∪)). Qed.

(** ** Fields

    The field of a key is the one with exactly this name, else the first whose name differs
    in letter case.  Keys arrive in their order, because [json.Marshal] sorts the keys of a
    map; a later key for the same field is decoded into what an earlier one left. *)
Definition field_named (names : list string) (key : string) : option string :=
  if decide (key ∈ names) then Some key else find (EqualFold key) names.
Definition selects (names : list string) (name : string) (kv : string * any) : bool :=
  bool_decide (field_named names kv.1 = Some name).
Definition key_order (m : object) : object := sort_Slice (fun x y => String.ltb x.1 y.1) m.
Definition field `{Json A} (names : list string) (name : string) (m : object) (old : A) : option A :=
  foldl (fun acc kv => if selects names name kv then acc ≫= json_dec kv.2 else acc) (Some old) (key_order m).

(** A struct variable: [null] leaves it, an object changes fields. *)
Definition struct {A} (fields : object -> option A) (v : any) (old : A) : option A :=
  match v with
  | ANil => Some old
  | AMap m => fields m
  | AStringMap m => fields (prod_map id AString <$> m)
  | _ => None
  end.

(** The other direction: a field with [omitempty] is left out when it is empty. *)
Definition entry `{Json A} (omitempty : bool) (name : string) (a : A) : string * option any :=
  (name, if omitempty && json_empty a then None else Some (json_enc a)).
Definition present (entries : list (string * option any)) : object :=
  omap (fun e => pair e.1 <$> e.2) entries.

(** ** Laws *)
Lemma foldl_filter {A B} (p : B -> bool) (f : A -> B -> A) l a :
  foldl (fun acc x => if p x then f acc x else acc) a l = foldl f a (List.filter p l).
Proof. revert a. induction l as [|x l IH]; intros a; [done|]. cbn. rewrite IH. by destruct (p x). Qed.

Lemma Permutation_List_filter {A} (p : A -> bool) l k : l ≡ₚ k -> List.filter p l ≡ₚ List.filter p k.
Proof.
  induction 1 as [|x l k _ IH|x y l|l k j _ IH1 _ IH2]; cbn; [done| | |by etrans].
  - destruct (p x); by rewrite IH.
  - destruct (p x), (p y); try done. apply Permutation_swap.
Qed.

(** What the object holds for a field that at most one key selects. *)
Lemma field_selected `{Json A} names name m old (o : option any) :
  (snd <$> List.filter (selects names name) m) = option_list o ->
  field names name m old = match o with Some v => json_dec v old | None => Some old end.
Proof.
  intros HF. unfold field. rewrite foldl_filter.
  assert (List.filter (selects names name) (key_order m) = List.filter (selects names name) m) as ->.
  { assert (List.filter (selects names name) (key_order m) ≡ₚ List.filter (selects names name) m) as HP
      by (apply Permutation_List_filter, sort_Slice_perm).
    destruct (List.filter (selects names name) m) as [|x [|y r]] eqn:E.
    - by apply Permutation_nil_r in HP.
    - by apply Permutation_singleton_r in HP.
    - by destruct o. }
  destruct (List.filter (selects names name) m) as [|x [|y r]] eqn:E, o; try done.
  cbn in HF |- *. by injection HF as <-.
Qed.

Lemma field_named_self names key : key ∈ names -> field_named names key = Some key.
Proof. intros H. unfold field_named. by rewrite decide_True. Qed.

Lemma filter_present names entries name o : incl (map fst entries) names -> NoDup (map fst entries) ->
  (name, o) ∈ entries -> List.filter (selects names name) (present entries) = pair name <$> option_list o.
Proof.
  assert (forall e : list (string * option any), incl (map fst e) names -> name ∉ map fst e ->
    List.filter (selects names name) (present e) = []) as HNone.
  { induction e as [|[k w] e IH]; intros HI HN; [done|]. cbn in HN. apply not_elem_of_cons in HN as [Hk HN].
    assert (List.filter (selects names name) (present e) = []) as HE.
    { apply IH; [|done]. intros x Hx. apply HI. by right. }
    cbn. destruct w; [|done]. cbn. unfold selects at 1. cbn.
    rewrite field_named_self by (apply list_elem_of_In, HI; by left).
    rewrite bool_decide_eq_false_2 by congruence. done. }
  induction entries as [|[k w] entries IH]; intros HI HN He; [by apply not_elem_of_nil in He|].
  cbn in HN. apply NoDup_cons in HN as [Hk HN].
  assert (incl (map fst entries) names) as HI' by (intros x Hx; apply HI; by right).
  assert (field_named names k = Some k) as Hf by (apply field_named_self, list_elem_of_In, HI; by left).
  apply elem_of_cons in He as [[= -> ->]|He].
  - destruct w; cbn; [|by apply HNone]. unfold selects at 1. cbn. rewrite Hf, bool_decide_eq_true_2 by done.
    by rewrite HNone.
  - rewrite <- (IH HI' HN He). destruct w; cbn; [|done]. unfold selects at 1. cbn. rewrite Hf.
    rewrite bool_decide_eq_false_2; [done|]. intros [= ->]. apply Hk. apply list_elem_of_fmap. by exists (name, o).
Qed.

(** An object that carries the entries of a struct, in any order and beside keys the struct
    does not know. *)
Record carries (names : list string) (entries : list (string * option any)) (m : object) : Prop := {
  ca_names : map fst entries = names;
  ca_distinct : NoDup names;
  ca_unknown : exists extra, m ≡ₚ present entries ++ extra /\ Forall (fun kv => field_named names kv.1 = None) extra
}.

Lemma carries_present names entries : map fst entries = names -> NoDup names -> carries names entries (present entries).
Proof. intros. constructor; [done..|]. exists []. by rewrite app_nil_r. Qed.

(** Each field reads back what was written, also when it was left out. *)
Lemma field_entry `{Json A} names entries m omit name (a : A) : carries names entries m ->
  entry omit name a ∈ entries -> json_fits a -> field names name m json_zero = Some a.
Proof.
  intros [<- HN (extra & HP & HX)] He Ha.
  rewrite (field_selected _ _ _ _ (if omit && json_empty a then None else Some (json_enc a))).
  - destruct (omit && json_empty a) eqn:E; [|by apply json_dec_enc].
    apply andb_true_iff in E as [_ E]. by rewrite (json_empty_zero a E).
  - assert (List.filter (selects (map fst entries) name) m ≡ₚ
      pair name <$> option_list (if omit && json_empty a then None else Some (json_enc a))) as HF.
    { rewrite (Permutation_List_filter _ _ _ HP), List.filter_app.
      rewrite (filter_present _ _ _ _ (incl_refl _) HN He).
      assert (List.filter (selects (map fst entries) name) extra = []) as ->; [|by rewrite app_nil_r].
      clear HP. induction HX as [|x l Hx HX IH]; [done|]. cbn. unfold selects at 1. by rewrite Hx. }
    destruct (omit && json_empty a); cbn in HF |- *.
    + apply Permutation_nil_r in HF as ->. done.
    + apply Permutation_singleton_r in HF as ->. done.
Qed.

(** One step of the decoder of a struct. *)
Lemma read_entry `{Json A} {B} names entries m omit name (a old : A) (k : A -> option B) r : carries names entries m ->
  old = json_zero -> entry omit name a ∈ entries -> json_fits a -> k a = Some r -> (field names name m old ≫= k) = Some r.
Proof. intros HC -> He Ha Hk. by rewrite (field_entry _ _ _ _ _ _ HC He Ha). Qed.

(** Reads the fields of a struct one after the other; what is left is that they fit. *)
Ltac read_entries HC :=
  repeat (eapply (read_entry _ _ _ _ _ _ _ _ _ HC); [reflexivity|in_list| |]); try exact I.
