(* ===== verification/GoRFC3339.v ===== *)
(** * Package time: RFC 3339 time stamps

    [Time.Format] with the layouts [time.RFC3339] and [time.RFC3339Nano] for a UTC
    time, and [time.Parse] for [time.RFC3339Nano] with all that Go's parser
    tolerates: a one-digit hour, a comma before the fraction, more than nine
    fraction digits and numeric offsets. *)
From S2P Require Import Prelude GoStrings GoFloat GoTime.

(** ** The calendar *)
Definition is_leap (y : Z) : bool :=
  (y `mod` 4 =? 0) && (negb (y `mod` 100 =? 0) || (y `mod` 400 =? 0)).
Definition daysIn (m y : Z) : Z :=
  if m =? 2 then (if is_leap y then 29 else 28)
  else if (m =? 4) || (m =? 6) || (m =? 9) || (m =? 11) then 30 else 31.

(** Days from 1 January of year 1 to a date: the inverse of [civil]. *)
Definition days_of_date (y m d : Z) : Z :=
  let y := if m <=? 2 then y - 1 else y in
  let yoe := y `mod` 400 in
  let doy := (153 * (if 2 <? m then m - 3 else m + 9) + 2) / 5 + d - 1 in
  y / 400 * 146097 + (yoe * 365 + yoe / 4 - yoe / 100 + doy) - 306.

(** ** Formatting *)
Definition digit_char (n : Z) : ascii := ascii_of_N (Z.to_N (48 + n `mod` 10)).
Fixpoint digits_of (width : nat) (n : Z) : list ascii :=
  match width with O => [] | S w => digits_of w (n / 10) ++ [digit_char n] end.

Definition drop_zeros (l : list ascii) : list ascii := reverse (drop_char "0" (reverse l)).

Definition date_time (t : Time) : list ascii :=
  let secs := t / second in
  let '(y, m, d) := civil (secs / 86400) in
  let tod := secs `mod` 86400 in
  GoTime.pad 4 y ++ "-"%char :: digits_of 2 m ++ "-"%char :: digits_of 2 d ++ "T"%char ::
  digits_of 2 (tod / 3600) ++ ":"%char :: digits_of 2 (tod `mod` 3600 / 60) ++ ":"%char ::
  digits_of 2 (tod `mod` 60).

Definition fraction (t : Time) : list ascii :=
  let ns := t `mod` second in
  if ns =? 0 then [] else "."%char :: drop_zeros (digits_of 9 ns).

Definition FormatRFC3339 (t : Time) : string := str (date_time t ++ ["Z"%char]).
Definition FormatRFC3339Nano (t : Time) : string := str (date_time t ++ fraction t ++ ["Z"%char]).

(** ** Parsing *)
Fixpoint take_digits (n : nat) (acc : Z) (l : list ascii) : option (Z * list ascii) :=
  match n with
  | O => Some (acc, l)
  | S n => match l with
           | c :: r => d ← digit c; take_digits n (acc * 10 + d) r
           | [] => None
           end
  end.

Definition expect (c : ascii) (l : list ascii) : option (list ascii) :=
  match l with x :: r => if Ascii.eqb x c then Some r else None | [] => None end.

(** [getnum] without the fixed width: one or two digits. *)
Definition take_hour (l : list ascii) : option (Z * list ascii) :=
  match take_digits 2 0 l with Some p => Some p | None => take_digits 1 0 l end.

Definition in_range (lo hi x : Z) : option unit := if (lo <=? x) && (x <=? hi) then Some tt else None.

Fixpoint span_digits (l : list ascii) : list ascii * list ascii :=
  match l with
  | c :: r => match digit c with
              | Some _ => let '(a, b) := span_digits r in (c :: a, b)
              | None => ([], l)
              end
  | [] => ([], [])
  end.

(** The nanoseconds of up to nine fraction digits. *)
Definition scaled (l : list ascii) : Z := default 0 (digits_value l 0) * 10 ^ (9 - Z.of_nat (length l)).

(** The optional fraction: nothing is consumed unless a digit follows the mark. *)
Definition take_fraction (l : list ascii) : Z * list ascii :=
  match l with
  | mark :: c :: _ =>
    if (Ascii.eqb mark "." || Ascii.eqb mark ",") && bool_decide (is_Some (digit c))
    then let '(ds, rest) := span_digits (drop 1 l) in (scaled (take 9 ds), rest)
    else (0, l)
  | _ => (0, l)
  end.

(** The zone: [Z] or a signed offset in hours and minutes, in seconds. *)
Definition take_zone (l : list ascii) : option (Z * list ascii) :=
  match l with
  | [] => None
  | c :: r =>
    if Ascii.eqb c "Z" then Some (0, r) else
    '(hh, r) ← take_digits 2 0 r;
    r ← expect ":" r;
    '(mm, r) ← take_digits 2 0 r;
    _ ← in_range 0 24 hh; _ ← in_range 0 60 mm;
    let offset := hh * 3600 + mm * 60 in
    if Ascii.eqb c "+" then Some (offset, r) else
    if Ascii.eqb c "-" then Some (- offset, r) else None
  end.

Definition ParseRFC3339Nano (s : string) : option Time :=
  '(y, l) ← take_digits 4 0 (chars s);
  l ← expect "-" l; '(m, l) ← take_digits 2 0 l; _ ← in_range 1 12 m;
  l ← expect "-" l; '(d, l) ← take_digits 2 0 l;
  l ← expect "T" l; '(hh, l) ← take_hour l; _ ← in_range 0 23 hh;
  l ← expect ":" l; '(mm, l) ← take_digits 2 0 l; _ ← in_range 0 59 mm;
  l ← expect ":" l; '(ss, l) ← take_digits 2 0 l; _ ← in_range 0 59 ss;
  let '(ns, l) := take_fraction l in
  '(offset, l) ← take_zone l;
  match l with
  | [] => _ ← in_range 1 (daysIn m y) d;
          Some ((days_of_date y m d * 86400 + hh * 3600 + mm * 60 + ss - offset) * second + ns)
  | _ => None
  end.

(** ** The calendar is consistent

    One era of 400 years: the year of a day is found by a division that counts the
    leap days, which is monotone, so it is enough to look at the ends of each year. *)
Definition year_start (y : Z) : Z := 365 * y + y / 4 - y / 100 + y / 400.
Definition leap_count (doe : Z) : Z := doe - doe / 1460 + doe / 36524 - doe / 146096.

Lemma leap_count_mono a b : 0 <= a <= b -> leap_count a <= leap_count b.
Proof.
  intros [Ha H]. replace b with (a + Z.of_nat (Z.to_nat (b - a))) by lia.
  induction (Z.to_nat (b - a)) as [|n IH]; [replace (a + Z.of_nat 0) with a by lia; lia|].
  etransitivity; [exact IH|]. rewrite Nat2Z.inj_succ. unfold leap_count, Z.succ. rewrite Z.add_assoc.
  assert (0 <= a + Z.of_nat n) as Hx by lia. generalize dependent (a + Z.of_nat n). intros x _ Hx.
  Z.to_euclidean_division_equations. lia.
Qed.

Definition year_block_ok (y : Z) : bool :=
  (leap_count (year_start y) / 365 =? y) && (leap_count (year_start (y + 1) - 1) / 365 =? y) &&
  ((year_start (y + 1) - year_start y <? 366) || is_leap (y + 1)).

Lemma year_blocks y : 0 <= y < 400 -> year_block_ok y = true.
Proof. apply range_forall. vm_compute. reflexivity. Qed.

Lemma year_of_day (n : nat) doe : 0 <= doe < year_start (Z.of_nat n) ->
  exists y, 0 <= y < Z.of_nat n /\ year_start y <= doe < year_start (y + 1).
Proof.
  induction n as [|n IH]; intros H; [change (year_start (Z.of_nat 0)) with 0 in H; lia|].
  rewrite Nat2Z.inj_succ in *. destruct (decide (doe < year_start (Z.of_nat n))) as [Hd|Hd].
  - destruct IH as (y & H1 & H2); [lia|]. exists y. lia.
  - exists (Z.of_nat n). unfold Z.succ in H. lia.
Qed.

(** Month and day of a day of the year that starts on 1 March. *)
Definition month_ok (doy : Z) : bool :=
  let mp := (5 * doy + 2) / 153 in
  let m := if mp <? 10 then mp + 3 else mp - 9 in
  let d := doy - (153 * mp + 2) / 5 + 1 in
  (1 <=? m) && (m <=? 12) && (1 <=? d) &&
  (d <=? (if m =? 2 then (if doy =? 365 then 29 else 28) else daysIn m 1)) &&
  ((153 * (if 2 <? m then m - 3 else m + 9) + 2) / 5 + d - 1 =? doy) &&
  implb (m <=? 2) (306 <=? doy) && implb (306 <=? doy) (m <=? 2) && implb (doy =? 365) (m =? 2).

Lemma months doy : 0 <= doy < 366 -> month_ok doy = true.
Proof. apply range_forall. vm_compute. reflexivity. Qed.

Lemma era_date doe : 0 <= doe < 146097 -> exists y m d, civil (doe - 306) = (y, m, d) /\
  0 <= y <= 400 /\ (306 <= doe -> 1 <= y) /\ (doe < 146037 -> y <= 399) /\
  1 <= m <= 12 /\ 1 <= d <= daysIn m y /\ days_of_date y m d = doe - 306.
Proof.
  intros H. destruct (year_of_day 400 doe) as (yoe & Hy & Hb); [exact H|]. change (Z.of_nat 400) with 400 in Hy.
  pose proof (year_blocks yoe Hy) as HB. unfold year_block_ok in HB.
  rewrite !andb_true_iff, orb_true_iff in HB. destruct HB as [[B1 B2] B3].
  assert (0 <= year_start yoe) as Hs by (unfold year_start; Z.to_euclidean_division_equations; lia).
  assert (leap_count doe / 365 = yoe) as Hyoe.
  { pose proof (leap_count_mono (year_start yoe) doe ltac:(lia)) as M1.
    pose proof (leap_count_mono doe (year_start (yoe + 1) - 1) ltac:(lia)) as M2.
    apply (Z.div_le_mono _ _ 365) in M1, M2; lia. }
  assert (year_start yoe = 365 * yoe + yoe / 4 - yoe / 100) as Es.
  { unfold year_start. rewrite (Z.div_small yoe 400) by lia. lia. }
  set (doy := doe - year_start yoe).
  assert (0 <= doy < 366) as Hd by (unfold doy, year_start in *; Z.to_euclidean_division_equations; lia).
  pose proof (months doy Hd) as HM. unfold month_ok in HM.
  unfold civil. replace (doe - 306 + 306) with doe by lia.
  rewrite (Z.div_small doe), (Z.mod_small doe) by lia. fold (leap_count doe). rewrite Hyoe.
  replace (doe - (365 * yoe + yoe / 4 - yoe / 100)) with doy by (unfold doy; lia).
  cbv zeta in HM |- *.
  set (mp := (5 * doy + 2) / 153) in *. set (m := if mp <? 10 then mp + 3 else mp - 9) in *.
  set (d := doy - (153 * mp + 2) / 5 + 1) in *. clearbody mp m d.
  rewrite !andb_true_iff in HM. destruct HM as [[[[[[[M1 M2] M3] M4] M5] M6] M7] M8].
  assert (doy = 365 -> is_leap (yoe + 1) = true) as HL by (intros ?; destruct B3 as [B3|B3]; [unfold doy in *; lia|done]).
  eexists _, _, _. split; [done|].
  assert (days_of_date (yoe + 0 * 400 + (if m <=? 2 then 1 else 0)) m d = doe - 306) as HD.
  { unfold days_of_date. destruct (m <=? 2) eqn:Em; cbv zeta.
    - replace (yoe + 0 * 400 + 1 - 1) with yoe by lia. rewrite (Z.div_small yoe), (Z.mod_small yoe) by lia. lia.
    - replace (yoe + 0 * 400 + 0) with yoe by lia. rewrite (Z.div_small yoe), (Z.mod_small yoe) by lia. lia. }
  split_and!; [..|exact HD].
  all: try (destruct (m <=? 2) eqn:Em; lia).
  - intros Hge. destruct (decide (yoe = 0)) as [->|]; [|destruct (m <=? 2); lia].
    change (year_start 0) with 0 in *. destruct (306 <=? doy) eqn:E; [|unfold doy in *; lia].
    simpl in M7. rewrite M7. lia.
  - intros Hlt. destruct (decide (yoe = 399)) as [->|]; [|destruct (m <=? 2); lia].
    change (year_start 399) with 145731 in *. destruct (m <=? 2) eqn:E; simpl in M6; [unfold doy in *; lia|lia].
  - unfold daysIn in *. destruct (m =? 2) eqn:Em; [|lia]. replace (m <=? 2) with true by lia.
    replace (yoe + 0 * 400 + 1) with (yoe + 1) by lia.
    destruct (doy =? 365) eqn:E; [rewrite HL by lia; lia|destruct (is_leap (yoe + 1)); lia].
Qed.

Lemma civil_shift days k :
  civil (days + k * 146097) = let '(y, m, d) := civil days in (y + k * 400, m, d).
Proof.
  unfold civil. replace (days + k * 146097 + 306) with (days + 306 + k * 146097) by lia.
  rewrite Z.div_add, Z.mod_add by lia. cbv zeta.
  do 2 f_equal. lia.
Qed.

Lemma is_leap_shift y k : is_leap (y + k * 400) = is_leap y.
Proof.
  unfold is_leap. rewrite Z.mod_add by lia.
  replace (y + k * 400) with (y + k * 100 * 4) at 1 by lia.
  replace (y + k * 400) with (y + k * 4 * 100) by lia. by rewrite !Z.mod_add by lia.
Qed.

Lemma days_of_date_shift y k m d : days_of_date (y + k * 400) m d = days_of_date y m d + k * 146097.
Proof.
  unfold days_of_date. destruct (m <=? 2); cbv zeta.
  - replace (y + k * 400 - 1) with (y - 1 + k * 400) by lia. rewrite Z.div_add, Z.mod_add by lia. lia.
  - rewrite Z.div_add, Z.mod_add by lia. lia.
Qed.

(** Days of the years 1 to 9999. *)
Definition calendar_days : Z := 3652059.

Lemma civil_date days : 0 <= days < calendar_days ->
  exists y m d, civil days = (y, m, d) /\ 1 <= y <= 9999 /\ 1 <= m <= 12 /\ 1 <= d <= daysIn m y /\
    days_of_date y m d = days.
Proof.
  unfold calendar_days. intros H.
  pose proof (Z.div_mod (days + 306) 146097 ltac:(lia)) as E.
  pose proof (Z.mod_pos_bound (days + 306) 146097 ltac:(lia)) as B.
  set (era := (days + 306) / 146097) in *. set (doe := (days + 306) `mod` 146097) in *.
  assert (0 <= era <= 24) as He by lia.
  destruct (era_date doe B) as (y & m & d & Ec & K1 & K2 & K3 & K4 & K5 & K6).
  replace days with (doe - 306 + era * 146097) by lia. rewrite civil_shift, Ec.
  eexists _, _, _. split; [done|]. rewrite days_of_date_shift.
  unfold daysIn in *. rewrite is_leap_shift. lia.
Qed.

(** ** Digits *)
Lemma digit_digit_char n : digit (digit_char n) = Some (n `mod` 10).
Proof.
  unfold digit_char. pose proof (Z.mod_pos_bound n 10 ltac:(lia)) as B. revert B.
  generalize (n `mod` 10). intros z B.
  assert (bool_decide (digit (ascii_of_N (Z.to_N (48 + z))) = Some z) = true) as H.
  { revert z B. apply range_forall. vm_compute. reflexivity. }
  by apply bool_decide_eq_true in H.
Qed.

Lemma digits_value_app l r acc v : digits_value l acc = Some v ->
  digits_value (l ++ r) acc = digits_value r v.
Proof.
  revert acc. induction l as [|c l IH]; intros acc; simpl; [by intros [= ->]|].
  destruct (digit c); [|done]. apply IH.
Qed.

Lemma digits_of_length w n : length (digits_of w n) = w.
Proof. revert n. induction w as [|w IH]; intros n; simpl; [done|]. rewrite length_app, IH. simpl. lia. Qed.

Lemma digits_of_value w n : 0 <= n < 10 ^ Z.of_nat w -> digits_value (digits_of w n) 0 = Some n.
Proof.
  revert n. induction w as [|w IH]; intros n H.
  - change (10 ^ Z.of_nat 0) with 1 in H. replace n with 0 by lia. done.
  - rewrite Nat2Z.inj_succ, Z.pow_succ_r in H by lia. simpl.
    rewrite (digits_value_app _ _ _ (n / 10)).
    + simpl. rewrite digit_digit_char. f_equal. pose proof (Z.div_mod n 10). lia.
    + apply IH. split; [apply Z.div_pos; lia|apply Z.div_lt_upper_bound; lia].
Qed.

Lemma digits_value_all l acc v : digits_value l acc = Some v -> Forall (fun c => is_Some (digit c)) l.
Proof.
  revert acc. induction l as [|c l IH]; intros acc; simpl; [constructor|].
  destruct (digit c) eqn:E; [|done]. intros H. constructor; [by eexists|by eapply IH].
Qed.

Lemma take_digits_app l r acc v : digits_value l acc = Some v ->
  take_digits (length l) acc (l ++ r) = Some (v, r).
Proof.
  revert acc. induction l as [|c l IH]; intros acc; simpl; [by intros [= ->]|].
  destruct (digit c); simpl; [apply IH|done].
Qed.

Lemma take_digits_of w n r : 0 <= n < 10 ^ Z.of_nat w ->
  take_digits w 0 (digits_of w n ++ r) = Some (n, r).
Proof.
  intros H. rewrite <- (digits_of_length w n) at 1. by apply take_digits_app, digits_of_value.
Qed.

Definition year_ok (y : Z) : bool :=
  bool_decide (digits_value (GoTime.pad 4 y) 0 = Some y) && Nat.eqb (length (GoTime.pad 4 y)) 4.

Lemma year_digits y : 1 <= y <= 9999 ->
  digits_value (GoTime.pad 4 y) 0 = Some y /\ length (GoTime.pad 4 y) = 4%nat.
Proof.
  intros H. assert ((9999 <? y) || year_ok y = true) as E.
  { apply (check_below_forall 14 0 (fun y => (9999 <? y) || year_ok y)); [vm_compute; reflexivity|].
    change (2 ^ Z.of_nat 14) with 16384. lia. }
  apply orb_true_iff in E as [E|E]; [lia|]. unfold year_ok in E.
  by apply andb_true_iff in E as [E1%bool_decide_eq_true E2%Nat.eqb_eq].
Qed.

Lemma take_year y r : 1 <= y <= 9999 -> take_digits 4 0 (GoTime.pad 4 y ++ r) = Some (y, r).
Proof.
  intros H. destruct (year_digits y H) as [E1 E2].
  pose proof (take_digits_app _ r _ _ E1) as E. by rewrite E2 in E.
Qed.

Lemma take_hour_of n r : 0 <= n < 100 -> take_hour (digits_of 2 n ++ r) = Some (n, r).
Proof. intros H. unfold take_hour. by rewrite take_digits_of. Qed.

Lemma in_range_ok lo hi x : lo <= x <= hi -> in_range lo hi x = Some tt.
Proof. intros H. unfold in_range. by replace ((lo <=? x) && (x <=? hi)) with true by lia. Qed.

(** ** Fractions *)
Lemma span_digits_app l r : Forall (fun c => is_Some (digit c)) l ->
  (forall c, head r = Some c -> digit c = None) -> span_digits (l ++ r) = (l, r).
Proof.
  induction 1 as [|c l [d Hd] _ IH]; intros Hr; simpl.
  - destruct r as [|c r]; [done|]. simpl. by rewrite (Hr c).
  - by rewrite Hd, IH.
Qed.

Lemma digits_snoc_zero l v : (length l < 9)%nat -> digits_value l 0 = Some v -> scaled (l ++ ["0"%char]) = scaled l.
Proof.
  intros HL Hv. unfold scaled. rewrite (digits_value_app _ _ _ v Hv), Hv. cbn [digits_value default from_option].
  replace (digit "0") with (Some 0) by reflexivity. cbn [digits_value default from_option].
  rewrite length_app. simpl length. rewrite Nat2Z.inj_add. change (Z.of_nat 1) with 1.
  replace (9 - Z.of_nat (length l)) with (Z.succ (9 - (Z.of_nat (length l) + 1))) by lia.
  rewrite Z.pow_succ_r by lia. unfold id. lia.
Qed.

Lemma drop_zeros_scaled l v : (length l <= 9)%nat -> digits_value l 0 = Some v ->
  scaled (drop_zeros l) = scaled l /\ exists z, l = drop_zeros l ++ z.
Proof.
  revert v. induction l as [|c l IH] using rev_ind; intros v HL Hv; [by split; [|exists []]|].
  rewrite length_app in HL. simpl in HL. unfold drop_zeros. rewrite reverse_snoc. cbn [drop_char].
  destruct (Ascii.eqb_spec "0" c) as [<-|Hne].
  - destruct (digits_value l 0) as [w|] eqn:E.
    + destruct (IH w) as [H1 [z Hz]]; [lia|done|]. fold (drop_zeros l). split.
      * by rewrite H1, (digits_snoc_zero _ w) by (done || lia).
      * exists (z ++ ["0"%char]). by rewrite app_assoc, <- Hz.
    + exfalso. revert Hv E. clear. generalize 0. induction l as [|c l IH]; intros z; simpl; [done|].
      destruct (digit c); [apply IH|done].
  - split; [by rewrite reverse_cons, reverse_involutive|]. exists [].
    by rewrite reverse_cons, reverse_involutive, app_nil_r.
Qed.

Lemma drop_zeros_nil l : drop_zeros l = [] -> Forall (fun c => c = "0"%char) l.
Proof.
  unfold drop_zeros. intros H. assert (drop_char "0" (reverse l) = []) as E.
  { apply (f_equal reverse) in H. by rewrite reverse_involutive in H. }
  rewrite <- Forall_reverse. revert E. induction (reverse l) as [|c r IH]; cbn [drop_char]; [constructor|].
  destruct (Ascii.eqb_spec "0" c) as [<-|]; [|done]. intros E. constructor; [done|by apply IH].
Qed.

Lemma zeros_value l acc : Forall (fun c => c = "0"%char) l -> digits_value l acc = Some (acc * 10 ^ Z.of_nat (length l)).
Proof.
  intros H. revert acc. induction H as [|c l -> _ IH]; intros acc; cbn [digits_value length]; [f_equal; lia|].
  replace (digit "0") with (Some 0) by reflexivity. rewrite IH. f_equal.
  rewrite Nat2Z.inj_succ, Z.pow_succ_r by lia. lia.
Qed.

Lemma take_fraction_of t r : (forall c, head r = Some c -> digit c = None) -> head r = Some "Z"%char ->
  take_fraction (fraction t ++ r) = (t `mod` second, r).
Proof.
  intros Hr Hz. unfold fraction. pose proof (Z.mod_pos_bound t second ltac:(done)) as B.
  set (ns := t `mod` second) in *. destruct (ns =? 0) eqn:E0.
  - simpl. replace ns with 0 by lia. destruct r as [|c r]; [done|]. injection Hz as ->. by destruct r.
  - assert (digits_value (digits_of 9 ns) 0 = Some ns) as HV by (apply digits_of_value; exact B).
    destruct (drop_zeros_scaled (digits_of 9 ns) ns) as [HS [z Hl]]; [by rewrite digits_of_length|done|].
    assert (Forall (fun c => is_Some (digit c)) (drop_zeros (digits_of 9 ns))) as HF.
    { apply digits_value_all in HV. rewrite Hl, Forall_app in HV. apply HV. }
    destruct (drop_zeros (digits_of 9 ns)) as [|c l] eqn:ED.
    { apply drop_zeros_nil, (zeros_value _ 0) in ED. rewrite HV in ED. injection ED. lia. }
    unfold take_fraction. cbn [app]. rewrite bool_decide_true by (by inversion HF).
    cbn [Ascii.eqb Bool.eqb orb andb drop]. rewrite (app_comm_cons l r c), span_digits_app by done.
    rewrite take_ge.
    + rewrite HS. unfold scaled. rewrite HV, digits_of_length. cbn. f_equal. lia.
    + apply (f_equal length) in Hl. rewrite digits_of_length, length_app in Hl. lia.
Qed.

(** ** Round trip *)
Lemma Parse_Format t : 0 <= t < calendar_days * 86400 * second ->
  ParseRFC3339Nano (FormatRFC3339Nano t) = Some t.
Proof.
  intros H. unfold ParseRFC3339Nano, FormatRFC3339Nano, date_time. rewrite chars_str.
  set (secs := t / second). set (tod := secs `mod` 86400).
  assert (0 <= secs / 86400 < calendar_days) as Hd.
  { unfold secs, calendar_days, second in *. Z.to_euclidean_division_equations. lia. }
  destruct (civil_date _ Hd) as (y & m & d & -> & Hy & Hm & Hdd & Hdays).
  assert (0 <= tod < 86400) as Ht by (unfold tod; apply Z.mod_pos_bound; lia).
  assert (d <= 31) as Hd31 by (unfold daysIn in Hdd; repeat case_match; lia).
  assert (0 <= tod / 3600 <= 23 /\ 0 <= tod `mod` 3600 / 60 <= 59 /\ 0 <= tod `mod` 60 <= 59 /\
          tod / 3600 * 3600 + tod `mod` 3600 / 60 * 60 + tod `mod` 60 = tod) as (H1 & H2 & H3 & H4).
  { Z.to_euclidean_division_equations. lia. }
  repeat (rewrite <- app_assoc || rewrite <- app_comm_cons).
  rewrite take_year by done. cbn [mbind option_bind expect Ascii.eqb Bool.eqb].
  rewrite take_digits_of by lia. cbn [mbind option_bind]. rewrite in_range_ok by lia.
  cbn [mbind option_bind expect Ascii.eqb Bool.eqb]. rewrite take_digits_of by lia.
  cbn [mbind option_bind expect Ascii.eqb Bool.eqb]. rewrite take_hour_of by lia.
  cbn [mbind option_bind]. rewrite in_range_ok by lia.
  cbn [mbind option_bind expect Ascii.eqb Bool.eqb]. rewrite take_digits_of by lia.
  cbn [mbind option_bind]. rewrite in_range_ok by lia.
  cbn [mbind option_bind expect Ascii.eqb Bool.eqb]. rewrite take_digits_of by lia.
  cbn [mbind option_bind]. rewrite in_range_ok by lia. cbn [mbind option_bind].
  rewrite take_fraction_of by (done || (intros c [= <-]; done)).
  cbn [take_zone Ascii.eqb Bool.eqb mbind option_bind]. rewrite in_range_ok by lia. cbn [mbind option_bind].
  f_equal. rewrite Hdays. pose proof (Z.div_mod t second ltac:(done)) as E1.
  pose proof (Z.div_mod secs 86400 ltac:(done)) as E2. fold secs in E1. fold tod in E2. lia.
Qed.

Lemma digit_no_space c : is_Some (digit c) -> no_space c = true.
Proof.
  intros [d Hd]. pose (ok := fun c => match digit c with Some _ => no_space c | None => true end).
  assert (ok c = true) as E by (apply char_forall; vm_compute; reflexivity).
  unfold ok in E. by rewrite Hd in E.
Qed.

(** A formatted time has no white space around it. *)
Lemma TrimSpace_Format t : 0 <= t < calendar_days * 86400 * second ->
  TrimSpace (FormatRFC3339Nano t) = FormatRFC3339Nano t /\ FormatRFC3339Nano t <> "".
Proof.
  intros H. unfold FormatRFC3339Nano, date_time.
  assert (0 <= t / second / 86400 < calendar_days) as Hd.
  { unfold calendar_days, second in *. Z.to_euclidean_division_equations. lia. }
  destruct (civil_date _ Hd) as (y & m & d & -> & Hy & _).
  destruct (year_digits y Hy) as [E1 E2]. apply digits_value_all in E1.
  destruct (GoTime.pad 4 y) as [|c l]; [done|]. apply Forall_cons in E1 as [Hc _]. split.
  - eapply (TrimSpace_ends _ c "Z"%char); rewrite ?chars_str.
    + done.
    + by rewrite app_assoc, last_snoc.
    + by apply digit_no_space.
    + done.
  - intros E. apply (f_equal chars) in E. by rewrite chars_str in E.
Qed.

(** ** [Duration.String] *)
Definition fraction_text (prec : nat) (v : Z) : list ascii :=
  match drop_zeros (digits_of prec v) with [] => [] | ds => "."%char :: ds end.
Definition unit_text (prec : nat) (u : Z) (name : list ascii) : list ascii :=
  chars (Itoa (u / 10 ^ Z.of_nat prec)) ++ fraction_text prec (u `mod` 10 ^ Z.of_nat prec) ++ name.
Definition DurationString (d : Duration) : string :=
  let u := Z.abs d in
  let text :=
    if u =? 0 then chars "0s" else
    if u <? 1000 then unit_text 0 u (chars "ns") else
    if u <? 1000000 then unit_text 3 u (map ascii_of_nat [194; 181; 115]%nat) else
    if u <? second then unit_text 6 u (chars "ms") else
    let secs := u / second in
    let mins := secs / 60 in
    let tail := unit_text 9 (secs `mod` 60 * second + u `mod` second) (chars "s") in
    if mins =? 0 then tail else
    if mins / 60 =? 0 then chars (Itoa mins) ++ "m"%char :: tail
    else chars (Itoa (mins / 60)) ++ "h"%char :: chars (Itoa (mins `mod` 60)) ++ "m"%char :: tail in
  str (if d <? 0 then "-"%char :: text else text).

Example duration_strings : map DurationString [0; 15 * second; 90 * second; 3600 * second; 1500000; 1100; - second] =
  ["0s"; "15s"; "1m30s"; "1h0m0s"; "1.5ms"; str (chars "1.1" ++ map ascii_of_nat [194; 181; 115]%nat); "-1s"].
Proof. vm_compute. reflexivity. Qed.

(** ** Decimal numbers read back *)
Lemma pretty_digit d : (d < 10)%N -> digit (pretty_N_char d) = Some (Z.of_N d).
Proof.
  intros H. assert (d = 0 \/ d = 1 \/ d = 2 \/ d = 3 \/ d = 4 \/ d = 5 \/ d = 6 \/ d = 7 \/ d = 8 \/ d = 9)%N as Hd by lia.
  destruct_or! Hd; subst; reflexivity.
Qed.

Lemma pretty_go_value x s v : digits_value (chars s) (Z.of_N x) = Some v ->
  digits_value (chars (pretty_N_go x s)) 0 = Some v.
Proof.
  revert s. induction (N.lt_wf_0 x) as [x _ IH]. intros s H.
  destruct (decide (0 < x)%N) as [Hx|Hx].
  - rewrite pretty_N_go_step by done. apply IH; [apply N.div_lt; lia|]. cbn [chars digits_value].
    rewrite pretty_digit by (apply N.mod_lt; lia).
    replace (Z.of_N (x / 10) * 10 + Z.of_N (x `mod` 10)) with (Z.of_N x); [exact H|].
    pose proof (N.div_mod x 10). lia.
  - assert (x = 0%N) as -> by lia. by rewrite pretty_N_go_0.
Qed.

Lemma Itoa_value n : 0 <= n -> digits_value (chars (Itoa n)) 0 = Some n.
Proof.
  intros Hn. unfold Itoa. destruct n as [|p|p]; [done| |lia].
  change (pretty (Z.pos p)) with (pretty (N.pos p)). unfold pretty, pretty_N. rewrite decide_False by lia.
  apply pretty_go_value. cbn. done.
Qed.

(** [fmt.Sprintf] with "%06d" and the like. *)
Lemma pad_value w n : 0 <= n -> digits_value (GoTime.pad w n) 0 = Some n.
Proof.
  intros Hn. unfold GoTime.pad. rewrite (proj2 (Z.ltb_ge n 0)), Z.abs_eq by lia. cbn [app].
  induction (w - length (chars (Itoa n)))%nat as [|k IH]; [by apply Itoa_value|]. cbn [replicate app digits_value].
  replace (digit "0") with (Some 0) by reflexivity. exact IH.
Qed.

Lemma pad_inj w n m : 0 <= n -> 0 <= m -> GoTime.pad w n = GoTime.pad w m -> n = m.
Proof. intros Hn Hm E. apply (f_equal (fun l => digits_value l 0)) in E. rewrite !pad_value in E by done. congruence. Qed.

(** ** Numbers read back *)
Lemma Itoa_shape z : exists (neg : bool) digits, chars (Itoa z) = (if neg then ["-"%char] else []) ++ digits /\
  digits <> [] /\ digits_value digits 0 = Some (Z.abs z) /\ z = (if neg then - Z.abs z else Z.abs z).
Proof.
  destruct (decide (0 <= z)) as [Hz|Hz].
  - exists false, (chars (Itoa z)). rewrite Z.abs_eq by done. split_and!; [done| |by apply Itoa_value|done].
    intros E. pose proof (Itoa_value z Hz) as HV. rewrite E in HV. injection HV as <-. by vm_compute in E.
  - exists true, (chars (Itoa (- z))). rewrite Z.abs_neq by lia. split_and!; [|  |apply Itoa_value; lia|lia].
    + destruct z as [|p|p]; [lia|lia|]. reflexivity.
    + intros E. pose proof (Itoa_value (- z) ltac:(lia)) as HV. rewrite E in HV. injection HV as HV. lia.
Qed.

Lemma digits_first d l v : digits_value (d :: l) 0 = Some v -> is_Some (digit d).
Proof. cbn. destruct (digit d); [eauto|done]. Qed.

Lemma ParseInt_Itoa z : in_int64 z -> ParseInt (Itoa z) = Ok z.
Proof.
  intros Hz. destruct (Itoa_shape z) as (neg & digits & HC & Hne & HV & Heq). unfold ParseInt. rewrite HC.
  destruct digits as [|d l]; [done|]. pose proof (digits_first _ _ _ HV) as [n Hn].
  assert (d <> "+"%char /\ d <> "-"%char) as [Hp Hm] by (split; intros ->; by vm_compute in Hn).
  destruct neg; cbn [app].
  - rewrite HV, <- Heq. by rewrite decide_True.
  - assert (match d :: l with "+"%char :: r => (false, r) | "-"%char :: r => (true, r) | x => (false, x) end = (false, d :: l)) as ->.
    { destruct d as [[] [] [] [] [] [] [] []]; try reflexivity; by exfalso. }
    rewrite HV, <- Heq. by rewrite decide_True.
Qed.

(** The first and the last character of a number are digits or the sign. *)
Lemma Itoa_ends z : Forall (fun c => is_Some (digit c) \/ c = "-"%char) (chars (Itoa z)) /\
  exists c d, head (chars (Itoa z)) = Some c /\ last (chars (Itoa z)) = Some d /\ is_Some (digit d).
Proof.
  destruct (Itoa_shape z) as (neg & digits & -> & Hne & HV & _). pose proof (digits_value_all _ _ _ HV) as HF. split.
  - apply Forall_app. split; [destruct neg; repeat constructor; by right|]. eapply Forall_impl; [exact HF|]. by left.
  - destruct (last digits) as [d|] eqn:EL; [|by apply last_None in EL].
    assert (is_Some (digit d)) as Hd by (rewrite Forall_forall in HF; apply HF; by apply last_Some_elem_of).
    destruct digits as [|c l]; [done|]. destruct neg; [exists "-"%char, d|exists c, d]; rewrite last_app, EL; by split_and!.
Qed.
