(* ===== verification/Identity.v ===== *)
(** * internal/identity: UUIDs, host names and fingerprints

    [Uuid] models uuid.go, [Hostname] hostname.go and [Fingerprint] the
    derivation of fingerprint.go.  Randomness ([crypto/rand]) and the operating
    system's host name are arguments. *)
From S2P Require Import Prelude GoStrings GoCrypto.

(** ** uuid.go *)
Module Uuid.

Definition UUIDLength : Z := 36.

Definition isHex (char : ascii) : bool := is_lower_hex char.

Definition dashPositions (index : Z) : bool :=
  (index =? 8) || (index =? 13) || (index =? 18) || (index =? 23).

(** The loop over the characters of the normalized value. *)
Fixpoint check_chars (index : Z) (l : list ascii) : result unit :=
  match l with
  | [] => Ok tt
  | char :: r =>
    if dashPositions index then
      if Ascii.eqb char "-" then check_chars (index + 1) r
      else Err (Errorf ("uuid dash missing at position " +:+ Itoa index))
    else if isHex char then check_chars (index + 1) r
    else Err (Errorf ("uuid contains non-hex character at position " +:+ Itoa index))
  end.

Definition ValidateUUID (value : string) : result unit :=
  let normalized := ToLower (TrimSpace value) in
  if String.eqb normalized "" then Err (Errorf "uuid cannot be empty") else
  if negb (slen normalized =? UUIDLength)
  then Err (Errorf ("uuid must be " +:+ Itoa UUIDLength +:+ " characters")) else
  _ ← check_chars 0 (chars normalized);
  if negb (bool_decide (chars normalized !! 14%nat = Some "4"%char))
  then Err (Errorf "uuid must be version 4") else
  match chars normalized !! 19%nat with
  | Some c => if existsb (Ascii.eqb c) (chars "89ab") then Ok tt
              else Err (Errorf "uuid must use RFC 4122 variant")
  | None => Err (Errorf "uuid must use RFC 4122 variant")
  end.

Definition NormalizeUUID (value : string) : result string :=
  let normalized := ToLower (TrimSpace value) in
  _ ← ValidateUUID normalized;
  Ok normalized.

Definition IsUUID (value : string) : bool := is_ok (ValidateUUID value).

(** [formatUUID]: hexadecimal with dashes after 8, 12, 16 and 20 digits. *)
Definition formatUUID (bytes : list Z) : string :=
  let encoded := hex_encode bytes in
  let slice i j := take (j - i) (drop i encoded) in
  str (slice 0 8 ++ ["-"%char] ++ slice 8 12 ++ ["-"%char] ++ slice 12 16 ++ ["-"%char]
       ++ slice 16 20 ++ ["-"%char] ++ slice 20 32)%nat.

(** [NewUUID] on the 16 bytes read from [crypto/rand], or its error. *)
Definition NewUUID (entropy : result (list Z)) : result string :=
  match entropy with
  | Err e => Err (Wrapf ("generate uuid entropy: " +:+ Error e) e)
  | Ok bytes =>
    let bytes := <[6%nat := Z.lor (Z.land (default 0 (bytes !! 6%nat)) 0x0f) 0x40]> bytes in
    let bytes := <[8%nat := Z.lor (Z.land (default 0 (bytes !! 8%nat)) 0x3f) 0x80]> bytes in
    Ok (formatUUID bytes)
  end.

Example new_uuid_zero : NewUUID (Ok (replicate 16 0)) = Ok "00000000-0000-4000-8000-000000000000".
Proof. vm_compute. reflexivity. Qed.

(** *** Validation and normalization *)

Lemma ValidateUUID_canonical v : ValidateUUID (canonical v) = ValidateUUID v.
Proof.
  unfold ValidateUUID. change (ToLower (TrimSpace ?x)) with (canonical x).
  by rewrite canonical_idemp.
Qed.

(** Normalizing succeeds exactly on valid values and gives the canonical form. *)
Lemma NormalizeUUID_spec v : NormalizeUUID v =
  match ValidateUUID v with Ok _ => Ok (canonical v) | Err e => Err e end.
Proof.
  unfold NormalizeUUID. change (ToLower (TrimSpace v)) with (canonical v).
  rewrite ValidateUUID_canonical. by destruct (ValidateUUID v).
Qed.

Lemma NormalizeUUID_Ok v n : NormalizeUUID v = Ok n <-> ValidateUUID v = Ok tt /\ n = canonical v.
Proof.
  rewrite NormalizeUUID_spec. destruct (ValidateUUID v) as [[]|]; naive_solver.
Qed.

Lemma check_chars_run i l r : Forall (fun c => isHex c = true) l ->
  (forall k, i <= k < i + zlen l -> dashPositions k = false) ->
  check_chars i (l ++ r) = check_chars (i + zlen l) r.
Proof.
  intros F. revert i. induction F as [|c l Hc _ IH]; intros i Hd; simpl.
  - by replace (i + zlen []) with i by (unfold zlen; simpl; lia).
  - rewrite zlen_cons in Hd. rewrite Hd by (pose proof (zlen_nonneg l); lia).
    rewrite Hc, IH; [by rewrite zlen_cons, Z.add_assoc|].
    intros k Hk. apply Hd. lia.
Qed.

Lemma check_chars_dash i r : dashPositions i = true ->
  check_chars i ("-"%char :: r) = check_chars (i + 1) r.
Proof. intros H. simpl. by rewrite H. Qed.

(** The text of sixteen bytes, as a list of characters. *)
Lemma formatUUID_chars b0 b1 b2 b3 b4 b5 b6 b7 b8 b9 b10 b11 b12 b13 b14 b15 :
  chars (formatUUID [b0; b1; b2; b3; b4; b5; b6; b7; b8; b9; b10; b11; b12; b13; b14; b15]) =
  hex_encode [b0; b1; b2; b3] ++ "-"%char :: hex_encode [b4; b5] ++ "-"%char ::
  hex_encode [b6; b7] ++ "-"%char :: hex_encode [b8; b9] ++ "-"%char ::
  hex_encode [b10; b11; b12; b13; b14; b15].
Proof. unfold formatUUID. rewrite chars_str. reflexivity. Qed.

Lemma list_16 {A} (l : list A) : length l = 16%nat ->
  exists b0 b1 b2 b3 b4 b5 b6 b7 b8 b9 b10 b11 b12 b13 b14 b15,
  l = [b0; b1; b2; b3; b4; b5; b6; b7; b8; b9; b10; b11; b12; b13; b14; b15].
Proof.
  intros H. do 16 (destruct l as [|? l]; [done|]). destruct l; [|done]. by do 16 eexists.
Qed.

(** Version and variant digits: the high nibbles of bytes 6 and 8. *)
Lemma version_nibble b : is_byte b ->
  is_byte (Z.lor (Z.land b 0x0f) 0x40) /\ Z.lor (Z.land b 0x0f) 0x40 / 16 = 4.
Proof.
  intros H.
  pose proof (range_forall 256 (fun b => let x := Z.lor (Z.land b 0x0f) 0x40 in
    (0 <=? x) && (x <? 256) && (x / 16 =? 4)) ltac:(vm_compute; reflexivity) b H) as F.
  cbv zeta beta in F. unfold is_byte. lia.
Qed.

Lemma variant_nibble b : is_byte b ->
  is_byte (Z.lor (Z.land b 0x3f) 0x80) /\ 8 <= Z.lor (Z.land b 0x3f) 0x80 / 16 <= 11.
Proof.
  intros H.
  pose proof (range_forall 256 (fun b => let x := Z.lor (Z.land b 0x3f) 0x80 in
    (0 <=? x) && (x <? 256) && (8 <=? x / 16) && (x / 16 <=? 11)) ltac:(vm_compute; reflexivity) b H) as F.
  cbv zeta beta in F. unfold is_byte. lia.
Qed.

Definition uuid_char (c : ascii) : bool := isHex c || Ascii.eqb c "-".

Lemma uuid_char_plain c : uuid_char c = true -> no_space c = true /\ lower_char c = c.
Proof.
  unfold uuid_char. intros [H|H%Ascii.eqb_eq]%orb_true_iff; [|by subst].
  split; auto with agent.
Qed.

(** A string of hexadecimal digits and dashes is its own canonical form. *)
Lemma canonical_uuid_chars s : Forall (fun c => uuid_char c = true) (chars s) -> canonical s = s.
Proof.
  intros F. unfold canonical. rewrite TrimSpace_id.
  - unfold ToLower. rewrite <- (str_chars s) at 2. f_equal.
    induction F as [|c l Hc _ IH]; [done|]. simpl. rewrite IH. f_equal. by apply uuid_char_plain.
  - eapply Forall_impl; [exact F|]. intros c Hc. by apply uuid_char_plain.
Qed.

(** Groups of 8-4-4-4-12 hexadecimal digits with the version and variant digits
    in place are a valid UUID, already canonical. *)
Lemma uuid_shape_valid u l1 l2 l3 v l4 l5 :
  chars u = l1 ++ "-"%char :: l2 ++ "-"%char :: ("4"%char :: l3) ++ "-"%char :: (v :: l4)
            ++ "-"%char :: l5 ->
  length l1 = 8%nat -> length l2 = 4%nat -> length l3 = 3%nat -> length l4 = 3%nat ->
  length l5 = 12%nat -> Forall (fun c => isHex c = true) (l1 ++ l2 ++ l3 ++ l4 ++ l5) ->
  v ∈ chars "89ab" ->
  canonical u = u /\ ValidateUUID u = Ok tt.
Proof.
  intros HC N1 N2 N3 N4 N5 F Hv. rewrite !Forall_app in F. destruct F as (F1 & F2 & F3 & F4 & F5).
  assert (isHex v = true) as Fv.
  { clear -Hv. revert v Hv. apply Forall_forall. repeat constructor. }
  assert (canonical u = u) as Hcan.
  { apply canonical_uuid_chars. rewrite HC.
    assert (forall l, Forall (fun c => isHex c = true) l -> Forall (fun c => uuid_char c = true) l) as W.
    { intros l Hl. eapply Forall_impl; [exact Hl|]. intros c Hc. unfold uuid_char. by rewrite Hc. }
    repeat rewrite ?Forall_app, ?Forall_cons. unfold uuid_char in *. rewrite Fv. split_and!; auto. }
  split; [done|]. unfold ValidateUUID. change (ToLower (TrimSpace u)) with (canonical u).
  rewrite Hcan. destruct (String.eqb_spec u "") as [->|_]; [by destruct l1|].
  assert (slen u = UUIDLength) as ->.
  { unfold slen, zlen, UUIDLength. rewrite HC. repeat (rewrite length_app; cbn [length]). lia. }
  cbn [Z.eqb UUIDLength negb]. rewrite HC.
  rewrite check_chars_run by (done || unfold zlen, dashPositions; rewrite N1; lia).
  rewrite check_chars_dash by (unfold zlen; by rewrite N1).
  rewrite check_chars_run by (done || unfold zlen, dashPositions; rewrite N1, N2; lia).
  rewrite check_chars_dash by (unfold zlen; by rewrite N1, N2).
  rewrite check_chars_run by
    (first [by constructor | unfold zlen, dashPositions; simpl length; rewrite N1, N2, N3; lia]).
  rewrite check_chars_dash by (unfold zlen; simpl length; by rewrite N1, N2, N3).
  rewrite check_chars_run by
    (first [by constructor | unfold zlen, dashPositions; simpl length; rewrite N1, N2, N3, N4; lia]).
  rewrite check_chars_dash by (unfold zlen; simpl length; by rewrite N1, N2, N3, N4).
  rewrite <- (app_nil_r l5), check_chars_run by
    (first [done | unfold zlen, dashPositions; simpl length; rewrite N1, N2, N3, N4, N5; lia]).
  cbn [check_chars mbind result_bind].
  assert (forall (p : list ascii) x q (n : nat), length p = n -> (p ++ x :: q) !! n = Some x) as LM.
  { intros p x q n <-. apply list_lookup_middle. done. }
  pose proof (LM (l1 ++ "-"%char :: l2 ++ ["-"%char]) "4"%char
    (l3 ++ "-"%char :: (v :: l4) ++ "-"%char :: l5) 14%nat) as L14.
  pose proof (LM (l1 ++ "-"%char :: l2 ++ "-"%char :: ("4"%char :: l3) ++ ["-"%char]) v
    (l4 ++ "-"%char :: l5) 19%nat) as L19.
  rewrite app_nil_r. repeat (rewrite <- app_assoc in L14; cbn [app] in L14).
  repeat (rewrite <- app_assoc in L19; cbn [app] in L19).
  cbn [app]. rewrite L14, L19.
  - rewrite bool_decide_true by done. cbn [negb].
    assert (existsb (Ascii.eqb v) (chars "89ab") = true) as ->; [|done].
    apply existsb_exists. exists v. split; [by apply list_elem_of_In|by apply Ascii.eqb_refl].
  - repeat (rewrite length_app; cbn [length]). lia.
  - repeat (rewrite length_app; cbn [length]). lia.
Qed.

Lemma NewUUID_ok bytes : length bytes = 16%nat -> Forall is_byte bytes ->
  exists u, NewUUID (Ok bytes) = Ok u /\ ValidateUUID u = Ok tt /\ NormalizeUUID u = Ok u.
Proof.
  intros HL HF. destruct (list_16 bytes HL) as (x0 & x1 & x2 & x3 & x4 & x5 & x6 & x7 & x8 & x9
    & x10 & x11 & x12 & x13 & x14 & x15 & ->).
  repeat (apply Forall_cons in HF as [? HF]).
  destruct (version_nibble x6) as [B6 V6]; [done|]. destruct (variant_nibble x8) as [B8 V8]; [done|].
  set (y6 := Z.lor (Z.land x6 15) 64) in *. set (y8 := Z.lor (Z.land x8 63) 128) in *.
  exists (formatUUID [x0; x1; x2; x3; x4; x5; y6; x7; y8; x9; x10; x11; x12; x13; x14; x15]).
  split; [reflexivity|].
  pose proof (formatUUID_chars x0 x1 x2 x3 x4 x5 y6 x7 y8 x9 x10 x11 x12 x13 x14 x15) as HC.
  assert (forall bs, Forall is_byte bs -> Forall (fun c => isHex c = true) (hex_encode bs)) as HX.
  { intros bs Hbs. by apply hex_encode_shape. }
  destruct (uuid_shape_valid (formatUUID [x0; x1; x2; x3; x4; x5; y6; x7; y8; x9; x10; x11; x12; x13; x14; x15])
    (hex_encode [x0; x1; x2; x3]) (hex_encode [x4; x5])
    (hex_digit (y6 `mod` 16) :: hex_encode [x7]) (hex_digit (y8 / 16))
    (hex_digit (y8 `mod` 16) :: hex_encode [x9])
    (hex_encode [x10; x11; x12; x13; x14; x15])) as [Hcan Hval]; try reflexivity.
  - rewrite HC. unfold hex_encode. cbn [mbind list_bind app]. by rewrite V6.
  - rewrite !Forall_app, !Forall_cons. split_and!;
      try (apply HX; repeat first [assumption | apply Forall_nil_2 | apply Forall_cons_2]);
      apply hex_digit_lower, Z.mod_pos_bound; lia.
  - assert (y8 / 16 = 8 \/ y8 / 16 = 9 \/ y8 / 16 = 10 \/ y8 / 16 = 11) as E by lia.
    destruct E as [->|[->|[->| ->]]]; apply list_elem_of_In; vm_compute; tauto.
  - split; [done|]. apply NormalizeUUID_Ok. by rewrite Hcan.
Qed.

(** Whatever sixteen bytes the random source delivers, [NewUUID] returns a
    string that [ValidateUUID] accepts (right length, dashes, version and
    variant digits) and that [NormalizeUUID] leaves unchanged. *)
Theorem NewUUID_valid bytes : length bytes = 16%nat -> Forall is_byte bytes ->
  exists u, NewUUID (Ok bytes) = Ok u /\ ValidateUUID u = Ok tt /\ NormalizeUUID u = Ok u.
Proof. apply NewUUID_ok. Qed.

Lemma NewUUID_valid_witness : exists u, NewUUID (Ok (replicate 16 255)) = Ok u /\
  ValidateUUID u = Ok tt /\ NormalizeUUID u = Ok u.
Proof.
  apply NewUUID_valid; [reflexivity|]. apply Forall_replicate. unfold is_byte. lia.
Defined.

End Uuid.

(** ** hostname.go *)
Module Hostname.

Definition UnknownHostname : string := "unknown-host".
Definition HostnameSourceOS : string := "os".
Definition HostnameSourceFallback : string := "fallback".
Definition HostnameMaxLength : Z := 253.
Definition HostnameLabelMaxLength : Z := 63.

Record HostInfo := mkHostInfo { Raw : string; Normalized : string; Source : string }.

Definition isHostnameChar (char : ascii) : bool :=
  ((97 <=? code char) && (code char <=? 122)) || ((48 <=? code char) && (code char <=? 57))
  || Ascii.eqb char "-".

Fixpoint check_label_chars (index position : Z) (label : list ascii) : result unit :=
  match label with
  | [] => Ok tt
  | char :: r =>
    if isHostnameChar char then check_label_chars index (position + 1) r
    else Err (Errorf ("hostname label " +:+ Itoa index +:+ " contains invalid character at position "
                      +:+ Itoa position))
  end.

Definition validateHostnameLabel (index : Z) (label : list ascii) : result unit :=
  match label with
  | [] => Err (Errorf ("hostname label " +:+ Itoa index +:+ " cannot be empty"))
  | first :: _ =>
    if HostnameLabelMaxLength <? zlen label
    then Err (Errorf ("hostname label " +:+ Itoa index +:+ " must be at most "
                      +:+ Itoa HostnameLabelMaxLength +:+ " characters"))
    else if Ascii.eqb first "-" || bool_decide (last label = Some "-"%char)
    then Err (Errorf ("hostname label " +:+ Itoa index +:+ " cannot start or end with hyphen"))
    else check_label_chars index 0 label
  end.

(** The loop over the labels. *)
Fixpoint check_labels (index : Z) (labels : list (list ascii)) : result unit :=
  match labels with
  | [] => Ok tt
  | label :: r => _ ← validateHostnameLabel index label; check_labels (index + 1) r
  end.

Definition ValidateHostname (value : string) : result unit :=
  let trimmed := TrimSpace value in
  if String.eqb trimmed "" then Err (Errorf "hostname cannot be empty") else
  if HostnameMaxLength <? slen trimmed
  then Err (Errorf ("hostname must be at most " +:+ Itoa HostnameMaxLength +:+ " characters")) else
  if Contains trimmed ".." then Err (Errorf "hostname cannot contain empty labels") else
  check_labels 0 (split_chars "." (chars trimmed)).

Definition NormalizeHostname (value : string) : result string :=
  let normalized := ToLower (TrimSpace value) in
  let normalized := TrimSuffix normalized "." in
  _ ← ValidateHostname normalized;
  Ok normalized.

Definition IsHostname (value : string) : bool := is_ok (NormalizeHostname value).

Definition fallbackHostname (raw : string) : HostInfo :=
  mkHostInfo raw UnknownHostname HostnameSourceFallback.

(** A provider is nil or returns a raw name and an error. *)
Definition HostnameProvider := option (string * option error).

Definition ResolveHostnameWith (provider : HostnameProvider) : HostInfo :=
  match provider with
  | None => fallbackHostname ""
  | Some (raw, Some _) => fallbackHostname raw
  | Some (raw, None) =>
    match NormalizeHostname raw with
    | Err _ => fallbackHostname raw
    | Ok normalized => mkHostInfo raw normalized HostnameSourceOS
    end
  end.

Lemma ValidateHostname_TrimSpace v : ValidateHostname (TrimSpace v) = ValidateHostname v.
Proof. unfold ValidateHostname. by rewrite TrimSpace_idemp. Qed.

Lemma check_labels_nonempty i labels : check_labels i labels = Ok tt -> [] ∉ labels.
Proof.
  revert i. induction labels as [|l labels IH]; intros i; simpl; [set_solver|].
  intros ([] & Hl & H)%bind_Ok. apply IH in H. destruct l; [done|]. set_solver.
Qed.

(** A valid name does not end with a dot. *)
Lemma ValidateHostname_no_dot v : ValidateHostname v = Ok tt -> HasSuffix (TrimSpace v) "." = false.
Proof.
  unfold ValidateHostname. intros H. repeat (case_match; [done|]).
  apply check_labels_nonempty in H. apply not_true_iff_false.
  intros [k Hk]%HasSuffix_spec. apply H. rewrite Hk. cbn [chars].
  rewrite split_chars_app. set_solver.
Qed.

Lemma NormalizeHostname_Ok v n : NormalizeHostname v = Ok n <->
  n = TrimSuffix (canonical v) "." /\ ValidateHostname n = Ok tt.
Proof.
  unfold NormalizeHostname. change (ToLower (TrimSpace v)) with (canonical v).
  split.
  - intros ([] & Hv & [= <-])%bind_Ok. done.
  - intros [-> H]. apply bind_Ok. by exists tt.
Qed.

Lemma TrimSuffix_lower s p : ToLower s = s -> ToLower (TrimSuffix s p) = TrimSuffix s p.
Proof.
  rewrite !ToLower_fixed. destruct (TrimSuffix_prefix s p) as [k Hk]. rewrite Hk at 1.
  by intros [F _]%Forall_app.
Qed.

(** A normalized host name is a valid one, and normalizing it again succeeds
    and only removes surrounding white space from it. *)
Theorem NormalizeHostname_stable v n : NormalizeHostname v = Ok n ->
  ValidateHostname n = Ok tt /\ NormalizeHostname n = Ok (TrimSpace n).
Proof.
  intros [Hn Hv]%NormalizeHostname_Ok. split; [done|].
  assert (canonical n = TrimSpace n) as Hc.
  { unfold canonical. rewrite <- TrimSpace_ToLower. f_equal. subst n.
    apply TrimSuffix_lower, canonical_lower. }
  apply NormalizeHostname_Ok. rewrite Hc. split; [|by rewrite ValidateHostname_TrimSpace].
  unfold TrimSuffix. by rewrite (ValidateHostname_no_dot n Hv).
Qed.

Lemma NormalizeHostname_stable_witness :
  NormalizeHostname "Media-01.Example.com." = Ok "media-01.example.com" /\
  ValidateHostname "media-01.example.com" = Ok tt.
Proof.
  assert (NormalizeHostname "Media-01.Example.com." = Ok "media-01.example.com") as H
    by (vm_compute; reflexivity).
  split; [exact H|]. exact (proj1 (NormalizeHostname_stable _ _ H)).
Defined.

(** White space before a final dot survives normalization. *)
Theorem NormalizeHostname_keeps_space :
  NormalizeHostname "a ." = Ok "a " /\ NormalizeHostname "a " = Ok "a".
Proof. split; vm_compute; reflexivity. Qed.

(** Resolving the host name never fails: whatever the operating system
    answers, the result is a valid host name, taken from the system exactly
    when the raw answer normalizes and the fallback constant otherwise. *)
Theorem ResolveHostnameWith_valid provider :
  let info := ResolveHostnameWith provider in
  ValidateHostname (Normalized info) = Ok tt /\
  match provider with
  | Some (raw, None) =>
    Raw info = raw /\
    match NormalizeHostname raw with
    | Ok n => Normalized info = n /\ Source info = HostnameSourceOS
    | Err _ => Normalized info = UnknownHostname /\ Source info = HostnameSourceFallback
    end
  | _ => Normalized info = UnknownHostname /\ Source info = HostnameSourceFallback
  end.
Proof.
  assert (ValidateHostname UnknownHostname = Ok tt) as HU by (vm_compute; reflexivity).
  destruct provider as [[raw [e|]]|]; simpl; [done| |done].
  destruct (NormalizeHostname raw) as [n|e] eqn:E; simpl; [|done].
  apply NormalizeHostname_Ok in E as [_ E]. done.
Qed.

End Hostname.

(** ** fingerprint.go *)
Module Fingerprint.
Import Uuid Hostname.

Definition FingerprintAlgorithm : string := "sha256".
Definition FingerprintVersion : Z := 1.
Definition FingerprintLength : Z := 64.
Definition FingerprintMaterialPrefix : string := "auren-transfer-agent:identity".

Definition isLowerHex (char : ascii) : bool := is_lower_hex char.

Definition NewFingerprint (agentID hostname : string) : result string :=
  match NormalizeUUID agentID with
  | Err e => Err (Wrapf ("fingerprint agent_id: " +:+ Error e) e)
  | Ok normalizedAgentID =>
    match NormalizeHostname hostname with
    | Err e => Err (Wrapf ("fingerprint hostname: " +:+ Error e) e)
    | Ok normalizedHostname =>
      let material := FingerprintMaterialPrefix +:+ ":v" +:+ Itoa FingerprintVersion +:+ ":"
                      +:+ normalizedAgentID +:+ ":" +:+ normalizedHostname in
      Ok (hex_string (sha256 (bytes_of material)))
    end
  end.

Fixpoint check_fingerprint_chars (position : Z) (l : list ascii) : result unit :=
  match l with
  | [] => Ok tt
  | char :: r => if isLowerHex char then check_fingerprint_chars (position + 1) r
    else Err (Errorf ("fingerprint contains invalid character at position " +:+ Itoa position))
  end.

Definition ValidateFingerprint (value : string) : result unit :=
  let trimmed := TrimSpace value in
  if String.eqb trimmed "" then Err (Errorf "fingerprint cannot be empty") else
  if negb (slen trimmed =? FingerprintLength)
  then Err (Errorf ("fingerprint must be " +:+ Itoa FingerprintLength +:+ " lowercase hex characters"))
  else check_fingerprint_chars 0 (chars trimmed).

Definition IsFingerprint (value : string) : bool := is_ok (ValidateFingerprint value).

Lemma check_fingerprint_chars_hex i l :
  Forall (fun c => isLowerHex c = true) l -> check_fingerprint_chars i l = Ok tt.
Proof. intros F. revert i. induction F as [|c l Hc _ IH]; intros i; simpl; [done|]. by rewrite Hc. Qed.

(** A fingerprint is derived exactly when the agent id and the host name are
    valid; it has the canonical 64-digit shape [ValidateFingerprint] checks, and
    it only depends on the normalized identity (case and surrounding white
    space of the id do not matter). *)
Theorem NewFingerprint_valid agentID hostname :
  (is_ok (NewFingerprint agentID hostname)
    = is_ok (NormalizeUUID agentID) && is_ok (NormalizeHostname hostname)) /\
  (forall f, NewFingerprint agentID hostname = Ok f -> ValidateFingerprint f = Ok tt) /\
  NewFingerprint (canonical agentID) hostname = NewFingerprint agentID hostname.
Proof.
  split_and!.
  - unfold NewFingerprint. repeat case_match; done.
  - intros f. unfold NewFingerprint. repeat case_match; try done. intros [= <-].
    destruct (hex_sha256_shape (bytes_of (FingerprintMaterialPrefix +:+ ":v" +:+ Itoa FingerprintVersion
      +:+ ":" +:+ a +:+ ":" +:+ a0))) as [HL HF].
    set (f := hex_string _) in *. clearbody f. unfold ValidateFingerprint.
    rewrite TrimSpace_id by (eapply Forall_impl; [exact HF|]; auto with agent).
    destruct (String.eqb_spec f "") as [->|_]; [done|].
    unfold slen, zlen. rewrite HL. by apply check_fingerprint_chars_hex.
  - unfold NewFingerprint. rewrite !NormalizeUUID_spec, ValidateUUID_canonical, canonical_idemp. done.
Qed.

End Fingerprint.
