(* ===== verification/Job.v ===== *)
(** * internal/worker/job.go: the worker job model

    A [Job] keeps the fields of the Go struct.  [JobType] and [JobStatus] are
    string types in Go and stay strings, because the code compares some of them
    exactly and others after trimming.  A [map\[string\]string] is a [gmap]; the
    nil map and the empty map are both the empty [gmap].  Clock readings and
    the random bytes of a generated id are arguments. *)
From S2P Require Import Prelude GoStrings GoUrl Identity.
Import Uuid.

Definition JobTypeTransfer : string := "transfer".
Definition JobStatusPending : string := "pending".
Definition JobStatusQueued : string := "queued".
Definition JobStatusRunning : string := "running".
Definition JobStatusSucceeded : string := "succeeded".
Definition JobStatusFailed : string := "failed".

Record JobInput := mkJobInput {
  in_ID : string;
  in_ExternalID : string;
  in_Type : string;
  in_Priority : Z;
  in_MaxAttempts : Z;
  in_SourceURL : string;
  in_DestinationKey : string;
  in_Headers : gmap string string;
  in_Metadata : gmap string string;
  in_Now : Time
}.

Record Job := mkJob {
  ID : string;
  ExternalID : string;
  Type_ : string;
  Status : string;
  Priority : Z;
  Attempt : Z;
  MaxAttempts : Z;
  SourceURL : string;
  DestinationKey : string;
  Headers : gmap string string;
  Metadata : gmap string string;
  CreatedAt : Time;
  UpdatedAt : Time
}.

(** The zero value [Job{}]. *)
Definition zero_job : Job := mkJob "" "" "" "" 0 0 0 "" "" ∅ ∅ 0 0.

#[global] Instance Job_eq_dec : EqDecision Job.
Proof. solve_decision. Defined.

(** Field updates used by the code. *)
Definition set_Status (s : string) (j : Job) : Job :=
  mkJob (ID j) (ExternalID j) (Type_ j) s (Priority j) (Attempt j) (MaxAttempts j) (SourceURL j)
    (DestinationKey j) (Headers j) (Metadata j) (CreatedAt j) (UpdatedAt j).
Definition set_Attempt (a : Z) (j : Job) : Job :=
  mkJob (ID j) (ExternalID j) (Type_ j) (Status j) (Priority j) a (MaxAttempts j) (SourceURL j)
    (DestinationKey j) (Headers j) (Metadata j) (CreatedAt j) (UpdatedAt j).
Definition set_UpdatedAt (t : Time) (j : Job) : Job :=
  mkJob (ID j) (ExternalID j) (Type_ j) (Status j) (Priority j) (Attempt j) (MaxAttempts j)
    (SourceURL j) (DestinationKey j) (Headers j) (Metadata j) (CreatedAt j) t.
Definition set_maps (h m : gmap string string) (j : Job) : Job :=
  mkJob (ID j) (ExternalID j) (Type_ j) (Status j) (Priority j) (Attempt j) (MaxAttempts j)
    (SourceURL j) (DestinationKey j) h m (CreatedAt j) (UpdatedAt j).

(** ** Maps *)

(** The body of [cloneStringMap]'s loop over the entries, in the order the
    runtime enumerates them. *)
Definition clone_entries (entries : list (string * string)) : gmap string string :=
  fold_left (fun output kv =>
    let trimmedKey := TrimSpace kv.1 in
    if String.eqb trimmedKey "" then output else <[trimmedKey := kv.2]> output) entries ∅.

(** Go enumerates a map in an unspecified order; this is one such order.
    [clone_entries_clean] shows that the order is immaterial for maps whose keys
    are already trimmed. *)
Definition cloneStringMap (input : gmap string string) : gmap string string :=
  clone_entries (map_to_list input).

(** Maps whose keys are trimmed and not empty: the image of [cloneStringMap]. *)
Definition clean_map (m : gmap string string) : Prop :=
  forall k, is_Some (m !! k) -> TrimSpace k = k /\ k <> "".

Definition Clone (job : Job) : Job :=
  set_maps (cloneStringMap (Headers job)) (cloneStringMap (Metadata job)) job.

(** ** Validation *)
Definition IsTerminalJobStatus (status : string) : bool :=
  let s := TrimSpace status in
  String.eqb s JobStatusSucceeded || String.eqb s JobStatusFailed.

Definition IsSupportedJobType (jobType : string) : bool :=
  String.eqb (TrimSpace jobType) JobTypeTransfer.

Definition IsSupportedJobStatus (status : string) : bool :=
  let s := TrimSpace status in
  String.eqb s JobStatusPending || String.eqb s JobStatusQueued || String.eqb s JobStatusRunning
  || String.eqb s JobStatusSucceeded || String.eqb s JobStatusFailed.

Definition SupportedJobStatuses : list string :=
  sort_Slice String.ltb
    [JobStatusPending; JobStatusQueued; JobStatusRunning; JobStatusSucceeded; JobStatusFailed].

Definition isValidAbsoluteURL (value : string) : bool :=
  match url_Parse (TrimSpace value) with
  | Err _ => false
  | Ok parsed =>
    if bool_decide (Host parsed = []) then false else
    let scheme := ToLower (str (Scheme parsed)) in
    String.eqb scheme "http" || String.eqb scheme "https"
  end.

(** The issues [ValidateJob] collects, in its order. *)
Definition job_issues (job : Job) : list string :=
  (if is_ok (ValidateUUID (ID job)) then [] else ["id must be a canonical UUID"]) ++
  (if IsSupportedJobType (Type_ job) then [] else ["type must be transfer"]) ++
  (if IsSupportedJobStatus (Status job) then []
   else ["status must be pending, queued, running, succeeded or failed"]) ++
  (if Priority job <? 0 then ["priority must be zero or greater"] else []) ++
  (if Attempt job <? 0 then ["attempt must be zero or greater"] else []) ++
  (if MaxAttempts job <=? 0 then ["max_attempts must be greater than zero"] else []) ++
  (if MaxAttempts job <? Attempt job then ["attempt cannot be greater than max_attempts"] else []) ++
  (if isValidAbsoluteURL (SourceURL job) then []
   else ["source_url must be an absolute http or https URL"]) ++
  (if String.eqb (TrimSpace (DestinationKey job)) "" then ["destination_key is required"] else []) ++
  (if IsZero (CreatedAt job) then ["created_at is required"] else []) ++
  (if IsZero (UpdatedAt job) then ["updated_at is required"] else []).

Definition ValidateJob (job : Job) : result unit :=
  match job_issues job with
  | [] => Ok tt
  | issues => Err (Errorf ("job validation failed: " +:+ Join issues "; "))
  end.

(** ** Construction and status changes *)
Definition NewJob (input : JobInput) (entropy : result (list Z)) (clock : Time) : result Job :=
  let jobID := TrimSpace (in_ID input) in
  jobID ←
    (if String.eqb jobID "" then NewUUID entropy
     else match NormalizeUUID jobID with
          | Ok normalized => Ok normalized
          | Err e => Err (Wrapf ("job id: " +:+ Error e) e)
          end);
  let jobType := in_Type input in
  let jobType := if String.eqb (TrimSpace jobType) "" then JobTypeTransfer else jobType in
  let maxAttempts := in_MaxAttempts input in
  let maxAttempts := if maxAttempts =? 0 then 1 else maxAttempts in
  let now := or_now (in_Now input) clock in
  let job := mkJob jobID (TrimSpace (in_ExternalID input)) jobType JobStatusPending
    (in_Priority input) 0 maxAttempts (TrimSpace (in_SourceURL input))
    (TrimSpace (in_DestinationKey input)) (cloneStringMap (in_Headers input))
    (cloneStringMap (in_Metadata input)) now now in
  _ ← ValidateJob job;
  Ok job.

Definition WithStatus (job : Job) (status : string) (now clock : Time) : result Job :=
  let updated := set_UpdatedAt (or_now now clock) (set_Status status (Clone job)) in
  _ ← ValidateJob updated;
  Ok updated.

Definition WithAttemptStatus (job : Job) (status : string) (now clock : Time) : result Job :=
  let updated := Clone job in
  let updated := set_Attempt (wrap64 (Attempt updated + 1)) updated in
  let updated := set_UpdatedAt (or_now now clock) (set_Status status updated) in
  _ ← ValidateJob updated;
  Ok updated.

#[global] Arguments ValidateUUID : simpl never.
#[global] Arguments NormalizeUUID : simpl never.
#[global] Arguments NewUUID : simpl never.
#[global] Arguments TrimSpace : simpl never.
#[global] Arguments ToLower : simpl never.
#[global] Arguments url_Parse : simpl never.
#[global] Arguments isValidAbsoluteURL : simpl never.
#[global] Arguments IsSupportedJobStatus : simpl never.
#[global] Arguments IsSupportedJobType : simpl never.
#[global] Arguments IsTerminalJobStatus : simpl never.
#[global] Arguments cloneStringMap : simpl never.
#[global] Arguments ValidateJob : simpl never.
#[global] Arguments wrap64 : simpl never.

(** ** Cloning *)

Lemma clone_entries_snoc l k v :
  clone_entries (l ++ [(k, v)]) =
  if String.eqb (TrimSpace k) "" then clone_entries l else <[TrimSpace k := v]> (clone_entries l).
Proof. unfold clone_entries. by rewrite fold_left_app. Qed.

Lemma clone_entries_is_clean l : clean_map (clone_entries l).
Proof.
  induction l as [|[k v] l IH] using rev_ind.
  - intros k [x Hx]. done.
  - rewrite clone_entries_snoc. destruct (String.eqb_spec (TrimSpace k) "") as [_|Hne]; [done|].
    intros k' Hk'. destruct (decide (TrimSpace k = k')) as [<-|].
    + by rewrite TrimSpace_idemp.
    + apply IH. by rewrite lookup_insert_ne in Hk'.
Qed.

(** On trimmed, non-empty, distinct keys the loop builds the map of the entries. *)
Lemma clone_entries_id l :
  (forall k, k ∈ l.*1 -> TrimSpace k = k /\ k <> "") -> NoDup l.*1 ->
  clone_entries l = list_to_map l.
Proof.
  induction l as [|[k v] l IH] using rev_ind; intros Hc Hn; [done|].
  rewrite fmap_app in Hc, Hn. apply NoDup_app in Hn as (Hn & Hdis & _).
  assert (k ∉ l.*1) as Hk. { intros Hk. by apply (Hdis k Hk), list_elem_of_singleton. }
  rewrite clone_entries_snoc, list_to_map_snoc, IH by set_solver.
  destruct (Hc k) as [-> Hne]; [set_solver|]. by destruct (String.eqb_spec k "").
Qed.

(** For a map with trimmed keys every enumeration order gives the map itself. *)
Lemma clone_entries_clean m entries :
  clean_map m -> entries ≡ₚ map_to_list m -> clone_entries entries = m.
Proof.
  intros Hm HP.
  assert (NoDup entries.*1) as Hn. { rewrite HP. apply NoDup_fst_map_to_list. }
  rewrite clone_entries_id; [|intros k Hk|done].
  - rewrite <- (list_to_map_to_list m). by apply list_to_map_proper.
  - apply Hm. rewrite HP in Hk. apply list_elem_of_fmap in Hk as ([k' v] & -> & Hkv).
    apply elem_of_map_to_list in Hkv. by exists v.
Qed.

Lemma cloneStringMap_clean m : clean_map m -> cloneStringMap m = m.
Proof. intros H. by apply clone_entries_clean. Qed.

Lemma cloneStringMap_is_clean m : clean_map (cloneStringMap m).
Proof. apply clone_entries_is_clean. Qed.

Lemma cloneStringMap_idemp m : cloneStringMap (cloneStringMap m) = cloneStringMap m.
Proof. apply cloneStringMap_clean, cloneStringMap_is_clean. Qed.

Lemma clean_map_insert m k v : clean_map m -> TrimSpace k = k -> k <> "" -> clean_map (<[k := v]> m).
Proof.
  intros Hm Hk Hne k' Hk'. destruct (decide (k = k')) as [<-|]; [done|].
  apply Hm. by rewrite lookup_insert_ne in Hk'.
Qed.

(** When two keys only differ by white space the copy depends on the order in
    which the runtime enumerates the map. *)
Theorem cloneStringMap_order_dependent :
  let entries := [("a", "1"); (" a", "2")] in
  clone_entries entries <> clone_entries (reverse entries).
Proof. vm_compute. discriminate. Qed.

Definition clean_job (j : Job) : Prop := clean_map (Headers j) /\ clean_map (Metadata j).

Lemma Clone_clean j : clean_job (Clone j).
Proof. split; apply cloneStringMap_is_clean. Qed.

Lemma Clone_id j : clean_job j -> Clone j = j.
Proof.
  intros [Hh Hm]. unfold Clone. rewrite !cloneStringMap_clean by done. by destruct j.
Qed.

Lemma Clone_idemp j : Clone (Clone j) = Clone j.
Proof. apply Clone_id, Clone_clean. Qed.

#[export] Hint Resolve Clone_clean cloneStringMap_is_clean clone_entries_is_clean : agent.
#[export] Hint Rewrite Clone_idemp cloneStringMap_idemp : agent.

(** ** The well-formedness [ValidateJob] decides *)
Record valid_job (j : Job) : Prop := {
  vj_id : ValidateUUID (ID j) = Ok tt;
  vj_type : IsSupportedJobType (Type_ j) = true;
  vj_status : IsSupportedJobStatus (Status j) = true;
  vj_priority : 0 <= Priority j;
  vj_attempt : 0 <= Attempt j <= MaxAttempts j;
  vj_max : 0 < MaxAttempts j;
  vj_url : isValidAbsoluteURL (SourceURL j) = true;
  vj_dest : TrimSpace (DestinationKey j) <> "";
  vj_created : IsZero (CreatedAt j) = false;
  vj_updated : IsZero (UpdatedAt j) = false
}.

Lemma if_nil {A} (b : bool) (x : A) : (if b then [] else [x]) = [] <-> b = true.
Proof. by destruct b. Qed.
Lemma if_nil_neg {A} (b : bool) (x : A) : (if b then [x] else []) = [] <-> b = false.
Proof. by destruct b. Qed.

Lemma ValidateJob_Ok j : ValidateJob j = Ok tt <-> valid_job j.
Proof.
  assert (ValidateJob j = Ok tt <-> job_issues j = []) as ->.
  { unfold ValidateJob. destruct (job_issues j); naive_solver. }
  unfold job_issues. rewrite !app_nil, !if_nil, !if_nil_neg, is_ok_true.
  split.
  - intros ([[] H0] & H1 & H2 & H3 & H4 & H5 & H6 & H7 & H8 & H9 & H10).
    apply String.eqb_neq in H8. constructor; done || lia.
  - intros []. split_and!; try done; try lia; [by exists tt|]. by apply String.eqb_neq.
Qed.

Lemma ValidateJob_unit j : ValidateJob j = Ok tt \/ exists e, ValidateJob j = Err e.
Proof. unfold ValidateJob. destruct (job_issues j); eauto. Qed.

(** Validation does not look at the maps. *)
Lemma ValidateJob_set_maps h m j : ValidateJob (set_maps h m j) = ValidateJob j.
Proof. done. Qed.
Lemma valid_job_Clone j : valid_job (Clone j) <-> valid_job j.
Proof. by rewrite <- !ValidateJob_Ok. Qed.

(** Changing the status and the time stamp of a valid job keeps it valid. *)
Lemma valid_job_status j s t :
  valid_job j -> IsSupportedJobStatus s = true -> IsZero t = false ->
  valid_job (set_UpdatedAt t (set_Status s j)).
Proof. by intros []; constructor. Qed.

Lemma WithStatus_Ok j s now clock j' : WithStatus j s now clock = Ok j' <->
  j' = set_UpdatedAt (or_now now clock) (set_Status s (Clone j)) /\ valid_job j'.
Proof.
  unfold WithStatus. rewrite bind_Ok. split.
  - intros ([] & H & [= <-]). by rewrite <- ValidateJob_Ok.
  - intros [-> H]. exists tt. by rewrite ValidateJob_Ok.
Qed.

Lemma WithAttemptStatus_Ok j s now clock j' : WithAttemptStatus j s now clock = Ok j' <->
  j' = set_UpdatedAt (or_now now clock)
         (set_Status s (set_Attempt (wrap64 (Attempt j + 1)) (Clone j))) /\ valid_job j'.
Proof.
  unfold WithAttemptStatus. rewrite bind_Ok. split.
  - intros ([] & H & [= <-]). by rewrite <- ValidateJob_Ok.
  - intros [-> H]. exists tt. by rewrite ValidateJob_Ok.
Qed.

(** At the maximum no further attempt is granted, also when incrementing the
    64-bit counter would wrap around. *)
Lemma WithAttemptStatus_exhausted j s now clock :
  valid_job j -> in_int64 (MaxAttempts j) -> Attempt j = MaxAttempts j ->
  exists e, WithAttemptStatus j s now clock = Err e.
Proof.
  intros Hv Hm H. pose proof (vj_attempt j Hv) as Ha.
  assert (in_int64 (Attempt j)) as HA by (unfold in_int64, int64_min in *; lia).
  destruct (WithAttemptStatus j s now clock) as [j'|e] eqn:E; [|by exists e].
  apply WithAttemptStatus_Ok in E as [-> Hj'].
  pose proof (vj_attempt _ Hj') as Ha'. cbn in Ha'. pose proof (wrap64_range (Attempt j + 1)).
  destruct (decide (Attempt j = int64_max)) as [E|E].
  - rewrite E in *. change (wrap64 (int64_max + 1)) with int64_min in *. unfold int64_min in *. lia.
  - rewrite wrap64_id in * by (unfold in_int64, int64_min, int64_max in *; lia). lia.
Qed.

(** ** Properties *)

(** A job that [NewJob] returns passes [ValidateJob], is pending with no
    attempt consumed and at least one allowed, carries an id that
    [NormalizeUUID] leaves unchanged, and its defensive copy is the job
    itself. *)
Theorem NewJob_valid input entropy clock j :
  NewJob input entropy clock = Ok j ->
  (forall bytes, entropy = Ok bytes -> length bytes = 16%nat /\ Forall GoCrypto.is_byte bytes) ->
  ValidateJob j = Ok tt /\ Status j = JobStatusPending /\ Attempt j = 0 /\ 1 <= MaxAttempts j /\
  NormalizeUUID (ID j) = Ok (ID j) /\ Clone j = j.
Proof.
  unfold NewJob. intros (jid & Hid & ([] & Hv & [= <-])%bind_Ok)%bind_Ok Hent.
  split; [done|]. apply ValidateJob_Ok in Hv.
  split; [reflexivity|]. split; [reflexivity|]. split; [|split].
  - pose proof (vj_max _ Hv). lia.
  - cbn [ID]. destruct (String.eqb (TrimSpace (in_ID input)) "").
    + destruct entropy as [bytes|]; [|unfold NewUUID in Hid; discriminate]. destruct (Hent bytes eq_refl) as [HL HF].
      destruct (NewUUID_ok bytes HL HF) as (u & Hu & _ & Hn). congruence.
    + destruct (NormalizeUUID (TrimSpace (in_ID input))) as [n|] eqn:E; simplify_eq.
      apply NormalizeUUID_Ok in E as [HV ->]. apply NormalizeUUID_Ok.
      by rewrite ValidateUUID_canonical, canonical_idemp.
  - apply Clone_id. split; apply cloneStringMap_is_clean.
Qed.

(** Claiming an attempt on a valid job succeeds exactly when attempts remain
    below the maximum; it then consumes exactly one attempt, sets the status
    and leaves the identity of the job alone.  At the maximum it is refused,
    also when incrementing the 64-bit counter would wrap around. *)
Theorem WithAttemptStatus_consumes j s now clock :
  valid_job j -> in_int64 (MaxAttempts j) -> IsSupportedJobStatus s = true ->
  IsZero (or_now now clock) = false ->
  (Attempt j < MaxAttempts j -> exists j', WithAttemptStatus j s now clock = Ok j' /\
     valid_job j' /\ Attempt j' = Attempt j + 1 /\ Status j' = s /\ ID j' = ID j /\
     MaxAttempts j' = MaxAttempts j) /\
  (Attempt j = MaxAttempts j -> is_ok (WithAttemptStatus j s now clock) = false).
Proof.
  intros Hv Hm Hs Ht. pose proof (vj_attempt j Hv) as Ha.
  split; intros H.
  - assert (wrap64 (Attempt j + 1) = Attempt j + 1) as HW.
    { apply wrap64_id. unfold in_int64 in *. unfold int64_min in *. lia. }
    eexists. split.
    + apply WithAttemptStatus_Ok. split; [reflexivity|]. rewrite HW.
      destruct Hv. constructor; simpl; try done; lia.
    + rewrite HW. split; [|done]. destruct Hv. constructor; simpl; try done; lia.
  - by destruct (WithAttemptStatus_exhausted j s now clock Hv Hm H) as [e ->].
Qed.

(** An accepted source URL, once trimmed, is [scheme://...] with the scheme
    http or https in any case. *)
Theorem isValidAbsoluteURL_shape value : isValidAbsoluteURL value = true ->
  exists sch r, TrimSpace value = sch +:+ "://" +:+ r /\
    (ToLower sch = "http" \/ ToLower sch = "https").
Proof.
  unfold isValidAbsoluteURL. destruct (url_Parse (TrimSpace value)) as [u|] eqn:E; [|done].
  case_bool_decide as Hh; [done|]. intros Hs.
  destruct (url_Parse_host _ _ E Hh) as (sch & r & Hc & Hl & Hr).
  assert (ToLower (str (Scheme u)) = ToLower (str sch)) as HS.
  { rewrite Hl. unfold ToLower. rewrite !chars_str, map_map. f_equal. apply map_ext, lower_char_idemp. }
  rewrite HS, orb_true_iff, !String.eqb_eq in Hs.
  destruct Hr as [[-> _]|Hr]; [by destruct Hs|].
  apply is_prefix_spec in Hr as [k ->]. exists (str sch), (str k). split; [|done].
  apply chars_inj. by rewrite !chars_app, !chars_str, Hc.
Qed.

(** *** Witnesses *)
Definition sample_input : JobInput :=
  mkJobInput "6BA7B810-9dad-41d1-80b4-00c04fd430c8" "ext" "" 0 3 " https://example.com/a.ts "
    "movies/a.ts" {[ " X " := "1" ]} ∅ 1000.
Definition sample_job : Job :=
  mkJob "6ba7b810-9dad-41d1-80b4-00c04fd430c8" "ext" "transfer" "pending" 0 0 3
    "https://example.com/a.ts" "movies/a.ts" {[ "X" := "1" ]} ∅ 1000 1000.

Lemma sample_job_new : NewJob sample_input (Ok (replicate 16 0)) 5 = Ok sample_job.
Proof. vm_compute. reflexivity. Qed.

Lemma sample_job_valid : valid_job sample_job.
Proof. apply ValidateJob_Ok. vm_compute. reflexivity. Qed.

Lemma NewJob_valid_witness : ValidateJob sample_job = Ok tt /\ Clone sample_job = sample_job.
Proof.
  destruct (NewJob_valid sample_input (Ok (replicate 16 0)) 5 sample_job sample_job_new)
    as (H1 & _ & _ & _ & _ & H2).
  - intros bytes [= <-]. split; [reflexivity|]. repeat (constructor; [split; reflexivity || lia|]).
    constructor.
  - split; [exact H1|exact H2].
Defined.

Lemma WithAttemptStatus_consumes_witness :
  exists j', WithAttemptStatus sample_job JobStatusRunning 2000 1 = Ok j' /\ Attempt j' = 1.
Proof.
  destruct (WithAttemptStatus_consumes sample_job JobStatusRunning 2000 1) as [H _].
  - exact sample_job_valid.
  - split; vm_compute; discriminate.
  - reflexivity.
  - reflexivity.
  - destruct (H eq_refl) as (j' & Hj & _ & Ha & _). exists j'. split; [exact Hj|exact Ha].
Defined.

Lemma isValidAbsoluteURL_shape_witness :
  exists sch r, TrimSpace " HTTPS://example.com/a.ts" = sch +:+ "://" +:+ r /\
    (ToLower sch = "http" \/ ToLower sch = "https").
Proof. apply isValidAbsoluteURL_shape. vm_compute. reflexivity. Defined.
