(* ===== verification/GoFS.v ===== *)
(** * Files

    The file operations of package [os] the agent's stores use, on a map from
    paths to contents.  The outcome of every system call is an argument, so all
    failures are covered.  [write_atomic] is the write sequence the queue,
    identity and Media Hub stores share: temporary file, write, chmod, close,
    rename, and the deferred removal of the temporary file. *)
From S2P Require Import Prelude GoStrings.

Notation FS := (gmap string string).

(** [os.ErrNotExist], which [os.IsNotExist] and [errors.Is] recognize. *)
Definition os_ErrNotExist : error := Sentinel "file does not exist".
Definition path_error (call path : string) (e : error) : error :=
  Wrapf (call +:+ " " +:+ path +:+ ": " +:+ Error e) e.

(** [os.ReadFile]: a missing file, another failure the system reports, or the contents. *)
Definition ReadFile (fault : option error) (path : string) (fs : FS) : result string :=
  match fault with
  | Some e => Err (path_error "open" path e)
  | None => match fs !! path with
            | Some content => Ok content
            | None => Err (path_error "open" path os_ErrNotExist)
            end
  end.
Definition IsNotExist (e : error) : bool := errors_Is e os_ErrNotExist.

(** The outcome of each call of the write sequence, and how many bytes a failing
    write leaves behind. *)
Record write_faults := mkFaults {
  f_mkdir : option error;
  f_create : option error;
  f_write : option error;
  f_partial : nat;
  f_chmod : option error;
  f_close : option error;
  f_rename : option error
}.
Definition no_faults : write_faults := mkFaults None None None 0 None None None.

(** The states of the file system between the calls, in order; a crash leaves
    one of them.  The last one is the state on return. *)
Definition write_atomic (fl : write_faults) (tmp path content : string) (fs : FS)
  : option error * list FS :=
  match f_mkdir fl with
  | Some e => (Some e, [fs])
  | None =>
    match f_create fl with
    | Some e => (Some e, [fs])
    | None =>
      let created := <[tmp := ""]> fs in
      match f_write fl with
      | Some e =>
        let partial := <[tmp := str (take (f_partial fl) (chars content))]> created in
        (Some e, [fs; created; partial; delete tmp partial])
      | None =>
        let written := <[tmp := content]> created in
        match f_chmod fl with
        | Some e => (Some e, [fs; created; written; delete tmp written])
        | None =>
          match f_close fl with
          | Some e => (Some e, [fs; created; written; delete tmp written])
          | None =>
            match f_rename fl with
            | Some e => (Some e, [fs; created; written; delete tmp written])
            | None =>
              let renamed := <[path := content]> (delete tmp written) in
              (None, [fs; created; written; renamed; delete tmp renamed])
            end
          end
        end
      end
    end
  end.

Definition final_fs (fs : FS) (states : list FS) : FS := default fs (last states).

(** A crash at any point leaves the target as it was or completely written, and
    touches no other file than the temporary one. *)
Lemma write_atomic_crash_safe fl tmp path content fs fs' :
  tmp <> path -> fs' ∈ (write_atomic fl tmp path content fs).2 ->
  (fs' !! path = fs !! path \/ fs' !! path = Some content) /\
  forall p, p <> path -> p <> tmp -> fs' !! p = fs !! p.
Proof.
  intros Hne H. unfold write_atomic in H.
  repeat case_match; simpl in H; rewrite ?elem_of_cons, ?elem_of_nil in H;
    destruct_or? H; try done; subst;
    (split; [by rewrite ?lookup_insert, ?lookup_delete_ne, ?lookup_insert_ne by done;
             simplify_map_eq; auto
            |intros p Hp Ht; by simplify_map_eq]).
Qed.

(** On return: unchanged after an error, the target replaced after a success. *)
Lemma write_atomic_final fl tmp path content fs :
  tmp <> path -> fs !! tmp = None ->
  let '(err, states) := write_atomic fl tmp path content fs in
  final_fs fs states = match err with Some _ => fs | None => <[path := content]> fs end.
Proof.
  intros Hne Ht. unfold write_atomic, final_fs.
  repeat case_match; simpl; try done; simplify_eq/=;
    rewrite ?delete_insert_eq, ?delete_insert_ne, ?delete_delete_eq by done;
    rewrite ?delete_insert_eq, ?delete_insert_ne, ?delete_delete_eq by done;
    rewrite ?(delete_id fs) by done; done.
Qed.
