(* ===== verification/DocStore.v ===== *)
(** * One JSON document in one file

    identity/store.go and mediahub/state.go keep their document the same way; they
    differ in the words of the error messages, the check of the document and the
    type.  [Document] is what a store needs to know of its document; the theorems
    about crashes and reading back are proved here once for all instances.  The
    JSON codec is a parameter. *)
From S2P Require Import Prelude GoStrings GoPath GoFS.

(** [filepath.Dir]. *)
Definition Dir (path : string) : string :=
  match LastIndexByte (chars path) slash with
  | Some i => Clean (str (take (S i) (chars path)))
  | None => "."
  end.

(** [kind] is how the messages call the document. *)
Class Document (A : Type) := {
  doc_kind : string;
  doc_path_error : string;
  doc_validate : A -> result unit
}.

Definition context (msg : string) (e : option error) : option error :=
  (fun e => Wrapf (msg +:+ ": " +:+ Error e) e) <$> e.

(** The failures of the write sequence with the words the stores add. *)
Definition named_faults (kind path : string) (fl : write_faults) : write_faults :=
  let file := " temporary " +:+ kind +:+ " file" in
  mkFaults
    (context ("create " +:+ kind +:+ " directory " +:+ Dir path) (f_mkdir fl))
    (context ("create" +:+ file) (f_create fl))
    (context ("write" +:+ file) (f_write fl)) (f_partial fl)
    (context ("chmod" +:+ file) (f_chmod fl))
    (context ("close" +:+ file) (f_close fl))
    (context ("replace " +:+ kind +:+ " file " +:+ path) (f_rename fl)).

Section Store.
Context {A : Type} `{!Document A} (marshal : A -> result string) (unmarshal : string -> result A).

Definition load_document (path : string) (read_fault : option error) (fs : FS) : result A :=
  if String.eqb (TrimSpace path) "" then Err (Errorf (doc_path_error (A := A))) else
  match ReadFile read_fault path fs with
  | Err e => Err (Wrapf ("load " +:+ doc_kind (A := A) +:+ " " +:+ path +:+ ": " +:+ Error e) e)
  | Ok payload =>
    match unmarshal payload with
    | Err e => Err (Wrapf ("decode " +:+ doc_kind (A := A) +:+ " " +:+ path +:+ ": " +:+ Error e) e)
    | Ok document =>
      match doc_validate document with
      | Err e => Err (Wrapf ("validate " +:+ doc_kind (A := A) +:+ " " +:+ path +:+ ": " +:+ Error e) e)
      | Ok _ => Ok document
      end
    end
  end.

(** The error and the states of the file system the write goes through. *)
Definition save_document (path : string) (document : A) (fl : write_faults) (tmp : string) (fs : FS)
  : option error * list FS :=
  if String.eqb (TrimSpace path) "" then (Some (Errorf (doc_path_error (A := A))), [fs]) else
  match doc_validate document with
  | Err e => (Some e, [fs])
  | Ok _ =>
    let fl := named_faults (doc_kind (A := A)) path fl in
    match f_mkdir fl with
    | Some e => (Some e, [fs])
    | None =>
      match marshal document with
      | Err e => (Some (Wrapf ("encode " +:+ doc_kind (A := A) +:+ ": " +:+ Error e) e), [fs])
      | Ok payload => write_atomic fl tmp path (payload +:+ newline) fs
      end
    end
  end.

(** Whenever the process stops, the file holds the old document or the whole new
    one, and no other file but the temporary one is touched. *)
Lemma save_document_crash_safe path document fl tmp fs fs' :
  tmp <> path -> fs' ∈ (save_document path document fl tmp fs).2 ->
  (fs' !! path = fs !! path \/
   exists payload, marshal document = Ok payload /\ fs' !! path = Some (payload +:+ newline)) /\
  forall p, p <> path -> p <> tmp -> fs' !! p = fs !! p.
Proof.
  intros Hne. unfold save_document. repeat case_match; cbn [snd];
    try (rewrite list_elem_of_singleton; intros ->; auto).
  intros [Hw Hf]%write_atomic_crash_safe; [|done]. split; [|exact Hf]. naive_solver.
Qed.

(** On return: after an error the files are as before; after a success the document
    was valid and is stored. *)
Lemma save_document_final path document fl tmp fs :
  tmp <> path -> fs !! tmp = None ->
  let '(err, states) := save_document path document fl tmp fs in
  match err with
  | Some _ => final_fs fs states = fs
  | None => doc_validate document = Ok tt /\ TrimSpace path <> "" /\ exists payload, marshal document = Ok payload /\
            final_fs fs states = <[path := payload +:+ newline]> fs
  end.
Proof.
  intros Hne Ht. unfold save_document.
  destruct (String.eqb_spec (TrimSpace path) ""); [done|].
  destruct (doc_validate document) as [[]|] eqn:HV; [|done].
  destruct (f_mkdir (named_faults _ _ _)); [done|].
  destruct (marshal document) as [payload|]; [|done].
  pose proof (write_atomic_final (named_faults (doc_kind (A := A)) path fl) tmp path (payload +:+ newline) fs Hne Ht) as H.
  destruct (write_atomic _ _ _ _ _) as [[e|] states]; [done|]. eauto.
Qed.

(** A stored document is read back, provided the codec decodes what it encoded. *)
Lemma load_saved_document path document fl tmp fs states :
  save_document path document fl tmp fs = (None, states) -> tmp <> path -> fs !! tmp = None ->
  (forall payload, marshal document = Ok payload -> unmarshal (payload +:+ newline) = Ok document) ->
  load_document path None (final_fs fs states) = Ok document.
Proof.
  intros H Hne Ht Hcodec. pose proof (save_document_final path document fl tmp fs Hne Ht) as HF.
  rewrite H in HF. destruct HF as (HV & Hp & payload & HM & HF).
  unfold load_document. destruct (String.eqb_spec (TrimSpace path) ""); [done|].
  rewrite HF. unfold ReadFile. by rewrite lookup_insert_eq, (Hcodec payload HM), HV.
Qed.

(** A document that loads is valid. *)
Lemma load_document_valid path fault fs document :
  load_document path fault fs = Ok document -> doc_validate document = Ok tt.
Proof.
  unfold load_document. destruct (String.eqb _ _); [done|].
  destruct (ReadFile _ _ _) as [payload|]; [|done]. destruct (unmarshal payload) as [d|]; [|done].
  destruct (doc_validate d) as [[]|] eqn:E; [|done]. by intros [= <-].
Qed.

(** Only a missing file is reported as missing. *)
Lemma load_document_missing path fault fs :
  TrimSpace path <> "" -> fault = None -> fs !! path = None ->
  exists e, load_document path fault fs = Err e /\ IsNotExist e = true.
Proof.
  intros Hp -> Hl. unfold load_document. destruct (String.eqb_spec (TrimSpace path) ""); [done|].
  unfold ReadFile. rewrite Hl. by eexists.
Qed.
End Store.
