(* ===== verification/IdentityStore.v ===== *)
(** * internal/identity/store.go: the agent's durable identity

    The record is kept in one JSON file; [Ensure] loads it or creates it once.  The
    clock and the identifier generator are arguments, the JSON codec is a parameter. *)
From S2P Require Import Prelude GoStrings GoPath GoTime GoRFC3339 GoFS DocStore Identity.
Import Uuid.

Definition StoreSchemaVersion : Z := 1.

Record IdentityRecord := mkRecord { SchemaVersion : Z; rec_AgentID : string; rec_CreatedAt : string; rec_UpdatedAt : string }.
Record IdentityResult := mkIdentityResult { res_Record : IdentityRecord; res_Path : string; res_Created : bool }.

Definition IdentitySource (result : IdentityResult) : string := if res_Created result then "created" else "loaded".

(** The text of the parser's own message is left off. *)
Definition parseRecordTime (field value : string) : result Time :=
  let trimmed := TrimSpace value in
  if String.eqb trimmed "" then Err (Errorf ("identity record " +:+ field +:+ " is required")) else
  match ParseRFC3339Nano trimmed with
  | Some t => Ok t
  | None => Err (Errorf ("identity record " +:+ field +:+ " must be RFC3339Nano"))
  end.

Definition ValidateRecord (record : IdentityRecord) : result unit :=
  if negb (SchemaVersion record =? StoreSchemaVersion)
  then Err (Errorf ("identity record schema_version must be " +:+ Itoa StoreSchemaVersion)) else
  match ValidateUUID (rec_AgentID record) with
  | Err e => Err (Wrapf ("identity record agent_id: " +:+ Error e) e)
  | Ok _ =>
    createdAt ← parseRecordTime "created_at" (rec_CreatedAt record);
    updatedAt ← parseRecordTime "updated_at" (rec_UpdatedAt record);
    if updatedAt <? createdAt
    then Err (Errorf "identity record updated_at cannot be before created_at") else Ok tt
  end.

Definition NewRecord (agentID : string) (timestamp : Time) : result IdentityRecord :=
  match NormalizeUUID agentID with
  | Err e => Err (Wrapf ("identity record agent_id: " +:+ Error e) e)
  | Ok normalized =>
    let stamp := FormatRFC3339Nano timestamp in
    let record := mkRecord StoreSchemaVersion normalized stamp stamp in
    _ ← ValidateRecord record; Ok record
  end.

#[global] Instance identity_document : Document IdentityRecord := {
  doc_kind := "identity store";
  doc_path_error := "identity store path cannot be empty";
  doc_validate := ValidateRecord
}.

Definition DefaultStorePath (dataDir : string) : string :=
  let root := TrimSpace dataDir in
  Join2 (Join2 (if String.eqb root "" then "./data" else root) "identity") "agent.json".

(** ** The identity the other components see: [Snapshot] of fingerprint.go *)
Record IdentitySnapshot := mkIdentitySnapshot {
  id_AgentID : string; id_Fingerprint : string; id_FingerprintAlgorithm : string; id_Hostname : string;
  id_HostnameSource : string; id_Persistence : string; id_StoreSource : string; id_StorePath : string
}.

Definition NewIdentitySnapshot (stored : IdentityResult) (host : Hostname.HostInfo) : result IdentitySnapshot :=
  _ ← ValidateRecord (res_Record stored);
  match Hostname.ValidateHostname (Hostname.Normalized host) with
  | Err e => Err (Wrapf ("identity snapshot hostname: " +:+ Error e) e)
  | Ok _ =>
    if String.eqb (TrimSpace (Hostname.Source host)) ""
    then Err (Errorf "identity snapshot hostname_source cannot be empty") else
    fingerprint ← Fingerprint.NewFingerprint (rec_AgentID (res_Record stored)) (Hostname.Normalized host);
    Ok (mkIdentitySnapshot (rec_AgentID (res_Record stored)) fingerprint Fingerprint.FingerprintAlgorithm
          (Hostname.Normalized host) (Hostname.Source host) "persistent" (IdentitySource stored) (res_Path stored))
  end.

Section IdentityStore.
Context (marshal : IdentityRecord -> result string) (unmarshal : string -> result IdentityRecord).

Definition LoadIdentity : string -> option error -> FS -> result IdentityRecord := load_document unmarshal.
Definition SaveIdentity : string -> IdentityRecord -> write_faults -> string -> FS -> option error * list FS :=
  save_document marshal.

(** What one run of the agent meets: the identifier the generator returns, the time,
    and the outcome of the system calls. *)
Record boot_env := mkBootEnv {
  b_generated : result string; b_now : Time; b_read : option error; b_write : write_faults; b_tmp : string
}.

(** [Ensure] and the states of the file system it goes through. *)
Definition EnsureIdentity (path : string) (env : boot_env) (fs : FS) : result IdentityResult * list FS :=
  if String.eqb (TrimSpace path) "" then (Err (Errorf "identity store path cannot be empty"), [fs]) else
  match LoadIdentity path (b_read env) fs with
  | Ok record => (Ok (mkIdentityResult record path false), [fs])
  | Err e =>
    if negb (errors_Is e os_ErrNotExist) then (Err e, [fs]) else
    match b_generated env with
    | Err e => (Err (Wrapf ("create identity: " +:+ Error e) e), [fs])
    | Ok agentID =>
      match NewRecord agentID (b_now env) with
      | Err e => (Err e, [fs])
      | Ok record =>
        let '(err, states) := SaveIdentity path record (b_write env) (b_tmp env) fs in
        match err with
        | Some e => (Err e, states)
        | None => (Ok (mkIdentityResult record path true), states)
        end
      end
    end
  end.

(** One run of the agent on the files: it returns a result, or the machine stops in
    between.  The temporary name is one that no file has, and a failure to read is
    not reported as a missing file. *)
Inductive boot_step (path : string) (fs : FS) : option (result IdentityResult) -> FS -> Prop :=
| boot_returns env result states :
    EnsureIdentity path env fs = (result, states) -> b_tmp env <> path -> fs !! b_tmp env = None ->
    from_option (fun e => negb (IsNotExist e)) true (b_read env) = true ->
    boot_step path fs (Some result) (final_fs fs states)
| boot_crashes env fs' :
    fs' ∈ (EnsureIdentity path env fs).2 -> b_tmp env <> path -> fs !! b_tmp env = None ->
    from_option (fun e => negb (IsNotExist e)) true (b_read env) = true ->
    boot_step path fs None fs'.

(** The file holds a record that loads. *)
Definition settled (path : string) (record : IdentityRecord) (fs : FS) : Prop :=
  TrimSpace path <> "" /\ ValidateRecord record = Ok tt /\
  exists payload, fs !! path = Some payload /\ unmarshal payload = Ok record.

Lemma settled_load path record fs : settled path record fs <-> LoadIdentity path None fs = Ok record.
Proof.
  unfold settled, LoadIdentity, load_document, ReadFile. destruct (String.eqb_spec (TrimSpace path) "").
  { split; [by intros (? & _)|done]. }
  destruct (fs !! path) as [payload|]; [|split; [by intros (_ & _ & ? & ? & _)|done]].
  destruct (unmarshal payload) as [d|] eqn:E;
    [|split; [intros (_ & _ & ? & [= <-] & ?); congruence|done]]. cbn [doc_validate identity_document].
  destruct (ValidateRecord d) as [[]|] eqn:EV; split.
  - intros (_ & _ & ? & [= <-] & ?). congruence.
  - intros [= <-]. eauto 10.
  - intros (_ & ? & ? & [= <-] & ?). congruence.
  - done.
Qed.

(** Once a record is stored, a run changes no file, and reports this record or an error. *)
Lemma settled_ensure path record env fs : settled path record fs ->
  from_option (fun e => negb (IsNotExist e)) true (b_read env) = true ->
  exists result, EnsureIdentity path env fs = (result, [fs]) /\
    forall r, result = Ok r -> r = mkIdentityResult record path false.
Proof.
  intros HS Hf. pose proof (proj1 (settled_load _ _ _) HS) as HL. destruct HS as (Hp & _).
  unfold EnsureIdentity. destruct (String.eqb_spec (TrimSpace path) ""); [done|].
  destruct (b_read env) as [e|].
  - unfold LoadIdentity, load_document, ReadFile. destruct (String.eqb_spec (TrimSpace path) ""); [done|].
    assert (errors_Is (Wrapf ("load " +:+ doc_kind (A := IdentityRecord) +:+ " " +:+ path +:+ ": " +:+
      Error (path_error "open" path e)) (path_error "open" path e)) os_ErrNotExist = false) as ->.
    { cbn [errors_Is path_error]. rewrite !bool_decide_false by done. cbn [orb]. apply negb_true_iff. exact Hf. }
    cbn [negb]. eexists. split; [done|]. done.
  - rewrite HL. eexists. split; [done|]. by intros r [= <-].
Qed.

Lemma settled_step path record fs result fs' : settled path record fs -> boot_step path fs result fs' ->
  fs' = fs /\ forall r, result = Some (Ok r) -> r = mkIdentityResult record path false.
Proof.
  intros HS [env res states HE _ _ Hf|env fs1 HE _ _ Hf];
    destruct (settled_ensure path record env fs HS Hf) as (res' & HE' & HR).
  - rewrite HE' in HE. injection HE as -> <-. split; [done|]. intros r [= ->]. by apply HR.
  - rewrite HE' in HE. apply list_elem_of_singleton in HE as ->. done.
Qed.

(** A run that reports a record leaves it stored. *)
Lemma ensure_settles path fs r fs' :
  (forall agentID now record payload, NewRecord agentID now = Ok record -> marshal record = Ok payload ->
     unmarshal (payload +:+ newline) = Ok record) ->
  boot_step path fs (Some (Ok r)) fs' -> settled path (res_Record r) fs'.
Proof.
  intros Hcodec H. inversion H as [env res states HE Hne Ht Hf|]; subst.
  unfold EnsureIdentity in HE. destruct (String.eqb_spec (TrimSpace path) "") as [|Hp]; [done|].
  destruct (LoadIdentity path (b_read env) fs) as [record|e] eqn:HL.
  - simplify_eq. cbn [res_Record]. apply settled_load. unfold final_fs. cbn [last default from_option].
    destruct (b_read env) eqn:Er; [|exact HL].
    unfold LoadIdentity, load_document in HL. by destruct (String.eqb_spec (TrimSpace path) "").
  - destruct (negb _); [done|]. destruct (b_generated env) as [agentID|]; [|done].
    destruct (NewRecord agentID (b_now env)) as [record|] eqn:HN; [|done].
    destruct (SaveIdentity path record (b_write env) (b_tmp env) fs) as [[e'|] states'] eqn:HS; [done|].
    simplify_eq. cbn [res_Record]. apply settled_load.
    apply (load_saved_document marshal unmarshal path record (b_write env) (b_tmp env) fs states HS Hne Ht).
    intros payload HM. by eapply Hcodec.
Qed.

Lemma ensure_loaded path record env fs : LoadIdentity path None fs = Ok record -> b_read env = None ->
  EnsureIdentity path env fs = (Ok (mkIdentityResult record path false), [fs]).
Proof.
  intros HL Hr. unfold EnsureIdentity. rewrite Hr, HL.
  unfold LoadIdentity, load_document in HL. by destruct (String.eqb (TrimSpace path) "").
Qed.

Inductive boots (path : string) : FS -> FS -> Prop :=
| boots_refl fs : boots path fs fs
| boots_step fs result fs' fs'' : boot_step path fs result fs' -> boots path fs' fs'' -> boots path fs fs''.

Lemma settled_boots path record fs fs' : settled path record fs -> boots path fs fs' -> fs' = fs.
Proof.
  intros HS HB. induction HB as [|fs result fs1 fs2 H1 _ IH]; [done|].
  destruct (settled_step path record fs result fs1 HS H1) as [-> _]. by apply IH.
Qed.

(** C20: the agent keeps the identity it first reported: whatever restarts and crashes
    follow, with whatever clocks, generators and failing system calls, every later
    run that reports an identity reports the same record, loaded from the file. *)
Theorem identity_stable path fs r fs1 fs2 s fs3 :
  (forall agentID now record payload, NewRecord agentID now = Ok record -> marshal record = Ok payload ->
     unmarshal (payload +:+ newline) = Ok record) ->
  boot_step path fs (Some (Ok r)) fs1 -> boots path fs1 fs2 -> boot_step path fs2 (Some (Ok s)) fs3 ->
  s = mkIdentityResult (res_Record r) path false /\ IdentitySource s = "loaded".
Proof.
  intros Hcodec H1 HB H2. pose proof (ensure_settles _ _ _ _ Hcodec H1) as HS.
  rewrite (settled_boots _ _ _ _ HS HB) in H2.
  destruct (settled_step _ _ _ _ _ HS H2) as [_ HR]. by rewrite (HR s eq_refl).
Qed.
End IdentityStore.

(** ** New records *)

(** A record for a valid identifier and a time of the years 1 to 9999 is accepted; it
    carries the canonical identifier and its times read back as the given time. *)
Theorem NewRecord_spec agentID now : ValidateUUID agentID = Ok tt -> 0 <= now < calendar_days * 86400 * second ->
  exists record, NewRecord agentID now = Ok record /\ ValidateRecord record = Ok tt /\
    rec_AgentID record = canonical agentID /\
    parseRecordTime "created_at" (rec_CreatedAt record) = Ok now /\
    parseRecordTime "updated_at" (rec_UpdatedAt record) = Ok now.
Proof.
  intros HU Ht. unfold NewRecord. rewrite NormalizeUUID_spec, HU.
  destruct (TrimSpace_Format now Ht) as [HT Hne].
  assert (forall field, parseRecordTime field (FormatRFC3339Nano now) = Ok now) as HP.
  { intros field. unfold parseRecordTime. rewrite HT. destruct (String.eqb_spec (FormatRFC3339Nano now) ""); [done|].
    by rewrite Parse_Format. }
  assert (ValidateRecord (mkRecord StoreSchemaVersion (canonical agentID) (FormatRFC3339Nano now) (FormatRFC3339Nano now)) = Ok tt) as HV.
  { unfold ValidateRecord. cbn [rec_AgentID rec_CreatedAt rec_UpdatedAt SchemaVersion]. rewrite Z.eqb_refl. cbn [negb].
    rewrite ValidateUUID_canonical, HU, !HP. cbn [mbind result_bind]. by rewrite Z.ltb_irrefl. }
  rewrite HV. eexists. split_and!; [done|done|done|apply HP..].
Qed.

(** Whatever the operating system says about the host, a stored identity has a snapshot,
    and its fingerprint has the canonical shape. *)
Theorem identity_snapshot_total result provider : ValidateRecord (res_Record result) = Ok tt ->
  exists snapshot, NewIdentitySnapshot result (Hostname.ResolveHostnameWith provider) = Ok snapshot /\
    id_AgentID snapshot = rec_AgentID (res_Record result) /\
    Fingerprint.ValidateFingerprint (id_Fingerprint snapshot) = Ok tt /\
    NewIdentitySnapshot (mkIdentityResult (res_Record result) (res_Path result) false) (Hostname.ResolveHostnameWith provider) =
      Ok (mkIdentitySnapshot (id_AgentID snapshot) (id_Fingerprint snapshot) (id_FingerprintAlgorithm snapshot)
            (id_Hostname snapshot) (id_HostnameSource snapshot) (id_Persistence snapshot) "loaded" (id_StorePath snapshot)).
Proof.
  intros HV. pose proof (Hostname.ResolveHostnameWith_valid provider) as [HH HC]. cbv zeta in HH, HC.
  set (info := Hostname.ResolveHostnameWith provider) in *.
  assert (is_ok (Hostname.NormalizeHostname (Hostname.Normalized info)) = true /\ TrimSpace (Hostname.Source info) <> "") as [HN HS].
  { assert (is_ok (Hostname.NormalizeHostname Hostname.UnknownHostname) = true) as HU by (vm_compute; reflexivity).
    destruct provider as [[raw [e|]]|]; [destruct HC as [-> ->]; by split| |destruct HC as [-> ->]; by split].
    destruct HC as [_ HC]. destruct (Hostname.NormalizeHostname raw) as [n|] eqn:E; destruct HC as [-> ->]; [|by split].
    apply Hostname.NormalizeHostname_stable in E as [_ ->]. by split. }
  assert (ValidateUUID (rec_AgentID (res_Record result)) = Ok tt) as HU.
  { unfold ValidateRecord in HV. destruct (negb _); [done|]. by destruct (ValidateUUID _) as [[]|]. }
  destruct (Fingerprint.NewFingerprint_valid (rec_AgentID (res_Record result)) (Hostname.Normalized info)) as (HF & HFv & _).
  rewrite HN, andb_true_r in HF. rewrite NormalizeUUID_spec, HU in HF. cbn [is_ok] in HF.
  apply is_ok_true in HF as [f Hf]. unfold NewIdentitySnapshot. cbn [res_Record res_Path]. rewrite HV, HH, Hf.
  cbn [mbind result_bind]. destruct (String.eqb_spec (TrimSpace (Hostname.Source info)) ""); [done|].
  eexists. split_and!; [done|done|by apply HFv|done].
Qed.

(** ** Examples *)
Definition sample_id : string := "3F2504E0-4F89-41D3-9A0C-0305E82C3301".
Definition sample_now : Time := 63900000000 * second + 120.
Definition sample_record : IdentityRecord :=
  mkRecord 1 (canonical sample_id) (FormatRFC3339Nano sample_now) (FormatRFC3339Nano sample_now).

Lemma NewRecord_spec_witness : exists record, NewRecord sample_id sample_now = Ok record.
Proof.
  destruct (NewRecord_spec sample_id sample_now) as (record & H & _).
  - vm_compute. reflexivity.
  - vm_compute. split; [discriminate|reflexivity].
  - exists record. exact H.
Defined.

Lemma identity_snapshot_total_witness : exists snapshot,
  NewIdentitySnapshot (mkIdentityResult sample_record "agent.json" true)
    (Hostname.ResolveHostnameWith (Some ("Media-01", None))) = Ok snapshot.
Proof.
  destruct (identity_snapshot_total (mkIdentityResult sample_record "agent.json" true) (Some ("Media-01", None)))
    as (snapshot & H & _).
  - vm_compute. reflexivity.
  - exists snapshot. exact H.
Defined.

(** A codec for records: the fields, each followed by a bar. *)
Definition bar : ascii := "|".
Definition bar_marshal (r : IdentityRecord) : result string :=
  if (SchemaVersion r =? 1) && forallb (fun s => forallb (fun c => negb (Ascii.eqb c bar)) (chars s))
       [rec_AgentID r; rec_CreatedAt r; rec_UpdatedAt r]
  then Ok (str (join_chars bar (map chars [rec_AgentID r; rec_CreatedAt r; rec_UpdatedAt r; ""])))
  else Err (Errorf "unsupported value").
Definition bar_unmarshal (s : string) : result IdentityRecord :=
  match split_chars bar (chars s) with
  | [a; b; c; _] => Ok (mkRecord 1 (str a) (str b) (str c))
  | _ => Err (Errorf "unexpected end of JSON input")
  end.

Lemma bar_codec r payload : bar_marshal r = Ok payload -> bar_unmarshal (payload +:+ newline) = Ok r.
Proof.
  unfold bar_marshal. destruct (_ && _) eqn:E; [|done]. intros [= <-].
  apply andb_true_iff in E as [EV E]. cbn [forallb] in E. rewrite !andb_true_iff in E. destruct E as (H1 & H2 & H3 & _).
  assert (forall s, forallb (fun c => negb (Ascii.eqb c bar)) (chars s) = true -> bar ∉ chars s) as HN.
  { intros s Hs Hin. rewrite forallb_forall in Hs. apply list_elem_of_In, Hs in Hin. by rewrite Ascii.eqb_refl in Hin. }
  apply HN in H1, H2, H3. unfold bar_unmarshal. rewrite chars_app, chars_str. cbn [map join_chars].
  repeat (rewrite <- app_assoc; cbn [app]). rewrite !split_chars_app, !split_chars_plain by done. cbn [app].
  rewrite !str_chars. destruct r. cbn in *. f_equal. f_equal. lia.
Qed.

Definition first_boot : boot_env := mkBootEnv (Ok sample_id) sample_now None no_faults "data/identity/.agent-1.tmp".
Definition later_boot : boot_env := mkBootEnv (Ok "other") 5 None no_faults "data/identity/.agent-2.tmp".
Definition sample_path : string := "data/identity/agent.json".
Definition first_files : FS := final_fs ∅ (EnsureIdentity bar_marshal bar_unmarshal sample_path first_boot ∅).2.

Lemma identity_stable_witness : exists s fs3,
  boot_step bar_marshal bar_unmarshal sample_path first_files (Some (Ok s)) fs3 /\
  s = mkIdentityResult sample_record sample_path false.
Proof.
  assert (boot_step bar_marshal bar_unmarshal sample_path ∅
            (Some (Ok (mkIdentityResult sample_record sample_path true))) first_files) as H1.
  { apply (boot_returns _ _ _ _ first_boot); [|discriminate|reflexivity..].
    apply injective_projections; [vm_compute; reflexivity|reflexivity]. }
  assert (LoadIdentity bar_unmarshal sample_path None first_files = Ok sample_record) as HL by (vm_compute; reflexivity).
  assert (first_files !! b_tmp later_boot = None) as Hn by (vm_compute; reflexivity).
  pose proof (ensure_loaded bar_marshal bar_unmarshal sample_path _ later_boot first_files HL eq_refl) as HE.
  assert (boot_step bar_marshal bar_unmarshal sample_path first_files None first_files) as H2.
  { apply (boot_crashes _ _ _ _ later_boot); [rewrite HE; left|discriminate|exact Hn|reflexivity]. }
  assert (boot_step bar_marshal bar_unmarshal sample_path first_files
            (Some (Ok (mkIdentityResult sample_record sample_path false))) first_files) as H3.
  { apply (boot_returns _ _ _ _ later_boot _ [first_files]); [exact HE|discriminate|exact Hn|reflexivity]. }
  eexists _, _. split; [exact H3|].
  refine (proj1 (identity_stable bar_marshal bar_unmarshal sample_path ∅ _ _ first_files _ _ _ H1 _ H3)).
  - intros agentID now record payload _ HM. exact (bar_codec record payload HM).
  - exact (boots_step _ _ _ _ _ _ _ H2 (boots_refl _ _ _ _)).
Defined.
