(* ===== verification/NodeState.v ===== *)
(** * internal/mediahub/state.go: the node's credentials

    The credentials the Media Hub issued are one JSON document (see [DocStore]).
    [LastConfigAt] and [ConfigVersion] only follow the configuration pulls. *)
From S2P Require Import Prelude GoStrings GoPath GoTime GoFS DocStore.

Definition StateSchemaVersion : Z := 1.

Record NodeState := mkNodeState {
  ns_SchemaVersion : Z;
  NodeUUID : string;
  NodeSecret : string;
  ns_ConfigVersion : string;
  ns_RegisteredAt : Time;
  ns_UpdatedAt : Time;
  ns_LastConfigAt : Time
}.
Definition empty_state : NodeState := mkNodeState 0 "" "" "" 0 0 0.

Definition NodeEmpty (state : NodeState) : bool :=
  String.eqb (TrimSpace (NodeUUID state)) "" || String.eqb (TrimSpace (NodeSecret state)) "".

(** [Safe]: what diagnostics may show. *)
Record SafeState := mkSafeState {
  safe_schema : Z; safe_uuid : string; safe_secret_present : bool; safe_config_version : string;
  safe_registered_at : Time; safe_updated_at : Time; safe_last_config_at : Time
}.
Definition Safe (state : NodeState) : SafeState :=
  mkSafeState (ns_SchemaVersion state) (TrimSpace (NodeUUID state))
    (negb (String.eqb (TrimSpace (NodeSecret state)) "")) (TrimSpace (ns_ConfigVersion state))
    (ns_RegisteredAt state) (ns_UpdatedAt state) (ns_LastConfigAt state).

Definition ValidateState (state : NodeState) : result unit :=
  if negb (ns_SchemaVersion state =? StateSchemaVersion)
  then Err (Errorf ("media hub state schema_version must be " +:+ Itoa StateSchemaVersion)) else
  if String.eqb (TrimSpace (NodeUUID state)) "" then Err (Errorf "media hub state node_uuid is required") else
  if String.eqb (TrimSpace (NodeSecret state)) "" then Err (Errorf "media hub state node_secret is required") else
  if IsZero (ns_RegisteredAt state) then Err (Errorf "media hub state registered_at is required") else
  if IsZero (ns_UpdatedAt state) then Err (Errorf "media hub state updated_at is required") else
  if ns_UpdatedAt state <? ns_RegisteredAt state
  then Err (Errorf "media hub state updated_at cannot be before registered_at") else Ok tt.

(** [clock] is the reading made when [now] is the zero time. *)
Definition NewNodeState (nodeUUID nodeSecret configVersion : string) (now clock : Time) : result NodeState :=
  let now := or_now now clock in
  let state := mkNodeState StateSchemaVersion (TrimSpace nodeUUID) (TrimSpace nodeSecret)
                 (TrimSpace configVersion) now now zero_time in
  _ ← ValidateState state; Ok state.

#[global] Instance state_document : Document NodeState := {
  doc_kind := "media hub state";
  doc_path_error := "media hub state path cannot be empty";
  doc_validate := ValidateState
}.

Definition DefaultStatePath (dataDir : string) : string :=
  let root := TrimSpace dataDir in
  Join2 (Join2 (if String.eqb root "" then "./data" else root) "media-hub") "node.json".

Definition set_UpdatedAt (t : Time) (state : NodeState) : NodeState :=
  mkNodeState (ns_SchemaVersion state) (NodeUUID state) (NodeSecret state) (ns_ConfigVersion state)
    (ns_RegisteredAt state) t (ns_LastConfigAt state).

Section StateStore.
Context (marshal : NodeState -> result string) (unmarshal : string -> result NodeState).

Definition LoadState (path : string) (read_fault : option error) (fs : FS) : result NodeState :=
  load_document unmarshal path read_fault fs.

(** The state, and whether a file was found. *)
Definition LoadOrEmpty (path : string) (read_fault : option error) (fs : FS) : result (NodeState * bool) :=
  match LoadState path read_fault fs with
  | Ok state => Ok (state, true)
  | Err e => if errors_Is e os_ErrNotExist then Ok (empty_state, false) else Err e
  end.

Definition SaveNodeState (path : string) (state : NodeState) (clock : Time) (fl : write_faults) (tmp : string) (fs : FS)
  : option error * list FS :=
  let state := if IsZero (ns_UpdatedAt state) then set_UpdatedAt clock state else state in
  save_document marshal path state fl tmp fs.

(** A valid state that is saved without an error is what is loaded afterwards. *)
Lemma LoadOrEmpty_saved path state clock fl tmp fs states :
  SaveNodeState path state clock fl tmp fs = (None, states) ->
  IsZero (ns_UpdatedAt state) = false -> tmp <> path -> fs !! tmp = None ->
  (forall payload, marshal state = Ok payload -> unmarshal (payload +:+ newline) = Ok state) ->
  LoadOrEmpty path None (final_fs fs states) = Ok (state, true).
Proof.
  intros HS Hz Hne Ht Hcodec. unfold SaveNodeState in HS. rewrite Hz in HS.
  unfold LoadOrEmpty, LoadState. by rewrite (load_saved_document _ _ _ _ _ _ _ _ HS Hne Ht Hcodec).
Qed.

Lemma LoadOrEmpty_valid path fault fs state :
  LoadOrEmpty path fault fs = Ok (state, true) -> ValidateState state = Ok tt.
Proof.
  unfold LoadOrEmpty, LoadState. destruct (load_document _ _ _ _) as [s|e] eqn:E; [|by destruct (errors_Is e _)].
  intros [= <-]. by apply load_document_valid in E.
Qed.
End StateStore.

Lemma ValidateState_ok state : ValidateState state = Ok tt <->
  ns_SchemaVersion state = StateSchemaVersion /\ NodeEmpty state = false /\
  ns_RegisteredAt state <> 0 /\ ns_UpdatedAt state <> 0 /\ ns_RegisteredAt state <= ns_UpdatedAt state.
Proof.
  unfold ValidateState, NodeEmpty, IsZero.
  destruct (String.eqb (TrimSpace (NodeUUID state)) ""), (String.eqb (TrimSpace (NodeSecret state)) "");
    repeat case_match; cbn [orb]; split; intros H'; try done; try (exfalso; destruct H' as (? & ? & ? & ? & ?); first [done|lia]);
    split_and!; try done; lia.
Qed.

(** A new state is accepted exactly when both credentials are given and the clock is not
    the zero time; it holds the trimmed credentials. *)
Lemma NewNodeState_ok uuid secret version now clock state : NewNodeState uuid secret version now clock = Ok state <->
  TrimSpace uuid <> "" /\ TrimSpace secret <> "" /\ or_now now clock <> 0 /\
  state = mkNodeState StateSchemaVersion (TrimSpace uuid) (TrimSpace secret) (TrimSpace version)
            (or_now now clock) (or_now now clock) zero_time.
Proof.
  unfold NewNodeState. set (s := mkNodeState _ _ _ _ _ _ _).
  assert (ValidateState s = Ok tt <-> TrimSpace uuid <> "" /\ TrimSpace secret <> "" /\ or_now now clock <> 0) as E.
  { rewrite ValidateState_ok. unfold NodeEmpty, s.
    cbn [NodeUUID NodeSecret ns_SchemaVersion ns_RegisteredAt ns_UpdatedAt]. rewrite !TrimSpace_idemp, orb_false_iff, !String.eqb_neq.
    split; [intros (_ & [? ?] & ? & _)|intros (? & ? & ?)]; split_and!; done || lia. }
  destruct (ValidateState s) as [[]|e]; cbn [mbind result_bind].
  - destruct E as [E _]. specialize (E eq_refl). split; [intros [= <-]; tauto|intros (_ & _ & _ & ->); done].
  - destruct E as [_ E]. split; [done|]. intros (H1 & H2 & H3 & _). by discriminate (E (conj H1 (conj H2 H3))).
Qed.

Lemma NewNodeState_valid uuid secret version now clock state :
  NewNodeState uuid secret version now clock = Ok state -> ValidateState state = Ok tt.
Proof.
  unfold NewNodeState. intros H. apply bind_Ok in H as ([] & HV & [= <-]). exact HV.
Qed.
