(* ===== verification/Queue.v ===== *)
(** * internal/queue: the bounded job queue

    [JobQueue] is the interface the worker and the dispatcher rely on, stated
    against an abstract bounded FIFO.  [Memory] models memory.go and discharges
    the interface; [Adapters] models the driver selection of adapters.go, whose
    queues all embed a [MemoryQueue].  Every operation that takes the mutex is
    one atomic state transition. *)
From S2P Require Import Prelude GoStrings Identity Job.

Definition ErrQueueFull : error := Sentinel "queue is full".
Definition ErrQueueClosed : error := Sentinel "queue is closed".

(** ** The abstract bounded FIFO *)
Module Fifo.

Record t := mk { cap : Z; items : list Job; open : bool }.

Definition push (j : Job) (q : t) : option error * t :=
  if negb (open q) then (Some ErrQueueClosed, q)
  else if cap q <=? zlen (items q) then (Some ErrQueueFull, q)
  else (None, mk (cap q) (items q ++ [j]) (open q)).

Definition pop (q : t) : result (option Job) * t :=
  if negb (open q) then (Err ErrQueueClosed, q)
  else match items q with
       | [] => (Ok None, q)
       | j :: r => (Ok (Some j), mk (cap q) r (open q))
       end.

Definition close (q : t) : t := mk (cap q) (items q) false.

End Fifo.

(** What [Enqueue] stores for an accepted job. *)
Definition queued_form (clock : Time) (job : Job) : Job :=
  set_UpdatedAt clock (set_Status JobStatusQueued (Clone job)).

Definition accepts_status (job : Job) : bool :=
  String.eqb (Status job) JobStatusPending || String.eqb (Status job) JobStatusQueued.

(** The checks [Enqueue] makes before it takes the lock. *)
Definition enqueue_guard (ctx : Context) (job : Job) : option error :=
  match ctx with
  | Some e => Some e
  | None =>
    match ValidateJob job with
    | Err e => Some e
    | Ok _ => if accepts_status job then None
              else Some (Errorf "queue only accepts pending or queued jobs")
    end
  end.

(** ** The interface

    The operations of the Go interface [queue.Queue] on an implementation type
    [Q], and the contract: through [abs] every operation is the corresponding
    operation of the abstract FIFO on the prepared job. *)
Class JobQueue (Q : Type) := {
  Enqueue : Context -> Time -> Job -> Q -> option error * Q;
  Dequeue : Context -> Q -> result (option Job) * Q;
  Len : Q -> Z;
  Capacity : Q -> Z;
  Snapshot_ : Q -> list Job;
  Close : Q -> Q;
  abs : Q -> Fifo.t;
  wf : Q -> Prop
}.

Class JobQueueSpec (Q : Type) `{!JobQueue Q} : Prop := {
  enqueue_spec ctx clock job q : wf q -> IsZero clock = false ->
    let '(err, q') := Enqueue ctx clock job q in
    wf q' /\
    match enqueue_guard ctx job with
    | Some e => err = Some e /\ q' = q
    | None => (err, abs q') = Fifo.push (queued_form clock job) (abs q)
    end;
  dequeue_spec ctx q : wf q ->
    let '(r, q') := Dequeue ctx q in
    wf q' /\
    match ctx with
    | Some e => r = Err e /\ q' = q
    | None => (r, abs q') = Fifo.pop (abs q)
    end;
  close_spec q : wf q -> wf (Close q) /\ abs (Close q) = Fifo.close (abs q);
  len_spec q : wf q -> Len q = zlen (Fifo.items (abs q));
  capacity_spec q : wf q -> Capacity q = Fifo.cap (abs q);
  snapshot_spec q : wf q -> Snapshot_ q = Fifo.items (abs q);
  contents_wf q : wf q ->
    zlen (Fifo.items (abs q)) <= Fifo.cap (abs q) /\
    Forall (fun j => valid_job j /\ Status j = JobStatusQueued /\ clean_job j) (Fifo.items (abs q))
}.

(** ** memory.go *)
Module Memory.

Record MemoryQueue := mkMemoryQueue {
  capacity : Z;
  jobs : list Job;
  closed : bool
}.

Definition NewMemoryQueue (capacity : Z) : result MemoryQueue :=
  if capacity <=? 0 then Err (Errorf "memory queue capacity must be greater than zero")
  else Ok (mkMemoryQueue capacity [] false).

Definition Enqueue (ctx : Context) (clock : Time) (job : Job) (queue : MemoryQueue)
  : option error * MemoryQueue :=
  match ctx with
  | Some e => (Some e, queue)
  | None =>
    match ValidateJob job with
    | Err e => (Some e, queue)
    | Ok _ =>
      if negb (String.eqb (Status job) JobStatusPending)
         && negb (String.eqb (Status job) JobStatusQueued)
      then (Some (Errorf "queue only accepts pending or queued jobs"), queue)
      else
        match WithStatus job JobStatusQueued clock clock with
        | Err e => (Some e, queue)
        | Ok queued =>
          if closed queue then (Some ErrQueueClosed, queue)
          else if capacity queue <=? zlen (jobs queue) then (Some ErrQueueFull, queue)
          else (None, mkMemoryQueue (capacity queue) (jobs queue ++ [Clone queued]) (closed queue))
        end
    end
  end.

(** [copy(dst, src)] on slices of the same backing array: the elements of [src]
    overwrite a prefix of [dst]. *)
Definition copy_slice {A} (dst src : list A) : list A :=
  take (length dst) src ++ drop (length src) dst.

Definition Dequeue (ctx : Context) (queue : MemoryQueue) : result (option Job) * MemoryQueue :=
  match ctx with
  | Some e => (Err e, queue)
  | None =>
    if closed queue then (Err ErrQueueClosed, queue)
    else match jobs queue with
         | [] => (Ok None, queue)
         | first :: _ =>
           let job := Clone first in
           let js := copy_slice (jobs queue) (drop 1 (jobs queue)) in
           let js := <[(length js - 1)%nat := zero_job]> js in
           let js := take (length js - 1)%nat js in
           (Ok (Some job), mkMemoryQueue (capacity queue) js (closed queue))
         end
  end.

#[global] Arguments Enqueue : simpl never.
#[global] Arguments Dequeue : simpl never.

Definition Len (queue : MemoryQueue) : Z := zlen (jobs queue).
Definition Capacity (queue : MemoryQueue) : Z := capacity queue.
Definition Snapshot (queue : MemoryQueue) : list Job := map Clone (jobs queue).
Definition Close (queue : MemoryQueue) : MemoryQueue :=
  mkMemoryQueue (capacity queue) (jobs queue) true.

Definition abs (queue : MemoryQueue) : Fifo.t :=
  Fifo.mk (capacity queue) (jobs queue) (negb (closed queue)).

(** What holds of every stored job. *)
Definition stored_ok (j : Job) : Prop := valid_job j /\ Status j = JobStatusQueued /\ clean_job j.

Definition wf (queue : MemoryQueue) : Prop :=
  0 < capacity queue /\ zlen (jobs queue) <= capacity queue /\ Forall stored_ok (jobs queue).

(** Shifting the slice down and dropping the cleared last slot leaves the tail. *)
Lemma shift_down {A} (d x : A) (r : list A) :
  let l := x :: r in
  let js := copy_slice l (drop 1 l) in
  let js := <[(length js - 1)%nat := d]> js in
  take (length js - 1)%nat js = r.
Proof.
  cbv zeta. unfold copy_slice. change (drop 1 (x :: r)) with (drop 0 r). rewrite drop_0.
  rewrite (take_ge r) by (simpl; lia).
  assert (exists y, drop (length r) (x :: r) = [y]) as [y ->].
  { assert (length (drop (length r) (x :: r)) = 1%nat) as H by (rewrite length_drop; simpl; lia).
    destruct (drop (length r) (x :: r)) as [|y [|]]; [done|by exists y|done]. }
  rewrite length_insert, length_app. cbn [length].
  rewrite take_insert_ge by lia. replace (length r + 1 - 1)%nat with (length r) by lia.
  apply take_app_length.
Qed.

Lemma Dequeue_step queue first rest : jobs queue = first :: rest -> closed queue = false ->
  Dequeue None queue =
    (Ok (Some (Clone first)), mkMemoryQueue (capacity queue) rest (closed queue)).
Proof.
  intros HJ HC. unfold Dequeue. rewrite HC, HJ.
  do 2 f_equal. apply (shift_down zero_job first rest).
Qed.

Lemma queued_form_stored clock job :
  valid_job job -> IsZero clock = false -> stored_ok (queued_form clock job).
Proof.
  intros Hv Hc. split_and!; [|done|apply Clone_clean].
  apply valid_job_status; [by apply valid_job_Clone|done|done].
Qed.

(** [Enqueue] is the guard followed by an abstract push. *)
Lemma Enqueue_guarded ctx clock job queue : IsZero clock = false ->
  Enqueue ctx clock job queue =
  match enqueue_guard ctx job with
  | Some e => (Some e, queue)
  | None =>
    if closed queue then (Some ErrQueueClosed, queue)
    else if capacity queue <=? zlen (jobs queue) then (Some ErrQueueFull, queue)
    else (None, mkMemoryQueue (capacity queue) (jobs queue ++ [queued_form clock job]) (closed queue))
  end.
Proof.
  intros Hc. unfold Enqueue, enqueue_guard, accepts_status. destruct ctx as [e|]; [done|].
  destruct (ValidateJob job) as [[]|e] eqn:Hv; [|done].
  destruct (String.eqb (Status job) JobStatusPending), (String.eqb (Status job) JobStatusQueued);
    cbn [negb andb orb]; try done;
  (assert (WithStatus job JobStatusQueued clock clock = Ok (queued_form clock job)) as ->;
   [apply WithStatus_Ok; unfold or_now; rewrite Hc; split; [done|];
    apply queued_form_stored; [by apply ValidateJob_Ok|done]
   |assert (Clone (queued_form clock job) = queued_form clock job) as ->;
    [apply Clone_id, queued_form_stored; [by apply ValidateJob_Ok|done]|done]]).
Qed.

Lemma guard_None_valid ctx job : enqueue_guard ctx job = None ->
  ctx = None /\ valid_job job /\ accepts_status job = true.
Proof.
  unfold enqueue_guard. destruct ctx; [done|]. destruct (ValidateJob job) as [[]|] eqn:E; [|done].
  destruct (accepts_status job); [|done]. intros _. by rewrite <- ValidateJob_Ok.
Qed.

#[export] Instance memory_queue : JobQueue MemoryQueue := {|
  Queue.Enqueue := Enqueue;
  Queue.Dequeue := Dequeue;
  Queue.Len := Len;
  Queue.Capacity := Capacity;
  Queue.Snapshot_ := Snapshot;
  Queue.Close := Close;
  Queue.abs := abs;
  Queue.wf := wf
|}.

#[export] Instance memory_queue_spec : JobQueueSpec MemoryQueue.
Proof.
  constructor; simpl.
  - intros ctx clock job q (Hp & Hl & HF) Hc. rewrite Enqueue_guarded by done.
    destruct (enqueue_guard ctx job) as [e|] eqn:Hg; [done|].
    apply guard_None_valid in Hg as (_ & Hv & _).
    unfold Fifo.push, abs. simpl. rewrite negb_involutive.
    destruct (closed q) eqn:HC; [by rewrite ?HC|].
    destruct (Z.leb_spec (capacity q) (zlen (jobs q))); [by rewrite ?HC|].
    split; [|done]. split_and!; simpl; [done| |].
    + rewrite zlen_app. unfold zlen at 2. simpl. lia.
    + apply Forall_snoc. split; [done|]. by apply queued_form_stored.
  - intros ctx q (Hp & Hl & HF). destruct ctx as [e|]; [done|].
    unfold Fifo.pop, abs. simpl. rewrite negb_involutive.
    destruct (closed q) eqn:HC; [unfold Dequeue; by rewrite HC; simpl; rewrite HC|].
    destruct (jobs q) as [|first rest] eqn:HJ.
    + unfold Dequeue. rewrite HC, HJ. split; [|by rewrite HJ, HC].
      split_and!; rewrite ?HJ; done.
    + apply Forall_cons in HF as [(Hv & Hs & Hcl) HF].
      rewrite (Dequeue_step q first rest HJ HC). simpl. rewrite (Clone_id first) by done.
      split; [|by rewrite ?HC]. split_and!; simpl; [done| |done].
      rewrite zlen_cons in Hl. lia.
  - intros q (Hp & Hl & HF). done.
  - done.
  - done.
  - intros q (Hp & Hl & HF). unfold Snapshot, abs. simpl.
    induction HF as [|j l (_ & _ & Hj) _ IH]; [done|]. simpl. rewrite (Clone_id j) by done.
    f_equal. apply IH. rewrite zlen_cons in Hl. lia.
  - intros q (Hp & Hl & HF). done.
Qed.

End Memory.

(** ** Sequences of operations

    Clients call the queue from several goroutines; the mutex serializes the
    calls, so an execution is a sequence of operations. *)
Inductive op :=
| OpEnqueue (ctx : Context) (clock : Time) (job : Job)
| OpDequeue (ctx : Context)
| OpClose.

Inductive out :=
| OutEnqueue (job : Job) (err : option error)
| OutDequeue (r : result (option Job))
| OutClose.

Section Sequences.
Context {Q : Type} `{JQ : !JobQueue Q}.

Definition run_op (o : op) (q : Q) : out * Q :=
  match o with
  | OpEnqueue ctx clock job =>
    let '(err, q') := Enqueue ctx clock job q in (OutEnqueue (queued_form clock job) err, q')
  | OpDequeue ctx => let '(r, q') := Dequeue ctx q in (OutDequeue r, q')
  | OpClose => (OutClose, Close q)
  end.

Fixpoint run (os : list op) (q : Q) : list out * Q :=
  match os with
  | [] => ([], q)
  | o :: os => let '(x, q') := run_op o q in let '(xs, q'') := run os q' in (x :: xs, q'')
  end.
End Sequences.

(** The same on the abstract FIFO. *)
Definition fifo_op (o : op) (q : Fifo.t) : out * Fifo.t :=
  match o with
  | OpEnqueue ctx clock job =>
    match enqueue_guard ctx job with
    | Some e => (OutEnqueue (queued_form clock job) (Some e), q)
    | None => let '(err, q') := Fifo.push (queued_form clock job) q in
              (OutEnqueue (queued_form clock job) err, q')
    end
  | OpDequeue ctx =>
    match ctx with
    | Some e => (OutDequeue (Err e), q)
    | None => let '(r, q') := Fifo.pop q in (OutDequeue r, q')
    end
  | OpClose => (OutClose, Fifo.close q)
  end.

Fixpoint fifo_run (os : list op) (q : Fifo.t) : list out * Fifo.t :=
  match os with
  | [] => ([], q)
  | o :: os => let '(x, q') := fifo_op o q in let '(xs, q'') := fifo_run os q' in (x :: xs, q'')
  end.

(** Clock readings are never the zero time. *)
Definition clock_ok (o : op) : Prop :=
  match o with OpEnqueue _ clock _ => IsZero clock = false | _ => True end.

(** The jobs accepted and the jobs delivered by an execution, in order. *)
Definition accepted (xs : list out) : list Job :=
  omap (fun x => match x with OutEnqueue j None => Some j | _ => None end) xs.
Definition delivered (xs : list out) : list Job :=
  omap (fun x => match x with OutDequeue (Ok o) => o | _ => None end) xs.

Section Refinement.
Context {Q : Type} `{JQ : !JobQueue Q} `{!JobQueueSpec Q}.

Lemma run_op_refines o q : wf q -> clock_ok o ->
  let '(x, q') := run_op o q in wf q' /\ fifo_op o (abs q) = (x, abs q').
Proof.
  intros Hwf Hc. destruct o as [ctx clock job|ctx|]; simpl in *.
  - pose proof (enqueue_spec ctx clock job q Hwf Hc) as H.
    destruct (Enqueue ctx clock job q) as [err q']. destruct H as [Hwf' H]. split; [done|].
    destruct (enqueue_guard ctx job) as [e|]; [by destruct H as [-> ->]|]. by rewrite <- H.
  - pose proof (dequeue_spec ctx q Hwf) as H.
    destruct (Dequeue ctx q) as [r q']. destruct H as [Hwf' H]. split; [done|].
    destruct ctx; [by destruct H as [-> ->]|]. by rewrite <- H.
  - destruct (close_spec q Hwf) as [H1 H2]. split; [done|]. by rewrite H2.
Qed.

Lemma run_refines os q : wf q -> Forall clock_ok os ->
  let '(xs, q') := run os q in wf q' /\ fifo_run os (abs q) = (xs, abs q').
Proof.
  intros Hwf F. revert q Hwf. induction F as [|o os Ho _ IH]; intros q Hwf; simpl; [done|].
  pose proof (run_op_refines o q Hwf Ho) as H. destruct (run_op o q) as [x q1].
  destruct H as [Hwf1 ->]. specialize (IH q1 Hwf1).
  destruct (run os q1) as [xs q2]. destruct IH as [Hwf2 ->]. done.
Qed.
End Refinement.

(** First in, first out: what was delivered followed by what is stored is what
    was stored at the start followed by what was accepted. *)
Lemma fifo_order os q : let '(xs, q') := fifo_run os q in
  delivered xs ++ Fifo.items q' = Fifo.items q ++ accepted xs.
Proof.
  revert q. induction os as [|o os IH]; intros q; simpl; [by rewrite app_nil_r|].
  destruct (fifo_op o q) as [x q1] eqn:E. specialize (IH q1).
  destruct (fifo_run os q1) as [xs q2].
  assert (Fifo.items q ++ accepted [x] = delivered [x] ++ Fifo.items q1) as H.
  { destruct o as [ctx clock job|ctx|]; simpl in E.
    - destruct (enqueue_guard ctx job); [simplify_eq/=; by rewrite app_nil_r|].
      unfold Fifo.push in E. repeat case_match; simplify_eq/=; by rewrite ?app_nil_r.
    - destruct ctx; [simplify_eq/=; by rewrite app_nil_r|].
      unfold Fifo.pop in E. repeat case_match; simplify_eq/=; by rewrite ?app_nil_r.
    - simplify_eq/=. by rewrite app_nil_r. }
  change (x :: xs) with ([x] ++ xs). unfold delivered, accepted in *.
  rewrite !omap_app, <- app_assoc, IH, !app_assoc. by rewrite H.
Qed.

(** Capacity and content bounds along an execution. *)
Lemma fifo_run_cap os q : Fifo.cap (fifo_run os q).2 = Fifo.cap q.
Proof.
  revert q. induction os as [|o os IH]; intros q; simpl; [done|].
  destruct (fifo_op o q) as [x q1] eqn:E. specialize (IH q1).
  destruct (fifo_run os q1) as [xs q2]. simpl in *. rewrite IH.
  destruct o as [ctx clock job|ctx|]; simpl in E; unfold Fifo.push, Fifo.pop in E;
    repeat case_match; simplify_eq/=; done.
Qed.

Module MemoryTheorems.
Import Memory.

(** C27: a [MemoryQueue] behaves exactly as the abstract bounded FIFO: for every
    sequence of Enqueue, Dequeue and Close calls on a queue built by
    [NewMemoryQueue], each call returns what the abstract queue returns
    (rejections and their errors included) and the contents agree. *)
Theorem memory_queue_refines_fifo cap q os :
  NewMemoryQueue cap = Ok q -> Forall clock_ok os ->
  let '(xs, q') := run os q in
  fifo_run os (Fifo.mk cap [] true) = (xs, Fifo.mk cap (Snapshot q') (negb (closed q'))).
Proof.
  unfold NewMemoryQueue. destruct (Z.leb_spec cap 0); [done|]. intros [= <-] F.
  assert (wf (mkMemoryQueue cap [] false)) as Hwf.
  { split_and!; simpl; [done| |constructor]. unfold zlen. simpl. lia. }
  pose proof (run_refines os (mkMemoryQueue cap [] false) Hwf F) as HR.
  destruct (run os _) as [xs q']. destruct HR as [Hwf' HR].
  pose proof (snapshot_spec q' Hwf') as HS. simpl in HS. rewrite HS.
  change (fifo_run os (Fifo.mk cap [] true) = (xs, Queue.abs q')) in HR. rewrite HR.
  pose proof (fifo_run_cap os (Fifo.mk cap [] true)) as HC.
  rewrite HR in HC. cbn in HC. cbn. unfold abs. by rewrite HC.
Qed.

(** Jobs leave a [MemoryQueue] in the order they were accepted, none is lost
    or duplicated, and at every moment at most [cap] valid jobs with status
    queued are stored. *)
Theorem memory_queue_fifo cap q os :
  NewMemoryQueue cap = Ok q -> Forall clock_ok os ->
  let '(xs, q') := run os q in
  accepted xs = delivered xs ++ Snapshot q' /\ Len q' <= cap /\
  Forall (fun j => ValidateJob j = Ok tt /\ Status j = JobStatusQueued) (Snapshot q').
Proof.
  unfold NewMemoryQueue. destruct (Z.leb_spec cap 0); [done|]. intros [= <-] F.
  assert (wf (mkMemoryQueue cap [] false)) as Hwf.
  { split_and!; simpl; [done| |constructor]. unfold zlen. simpl. lia. }
  pose proof (run_refines os (mkMemoryQueue cap [] false) Hwf F) as HR.
  destruct (run os _) as [xs q']. destruct HR as [Hwf' HR].
  change (fifo_run os (Fifo.mk cap [] true) = (xs, Queue.abs q')) in HR.
  pose proof (fifo_order os (Fifo.mk cap [] true)) as HO.
  pose proof (fifo_run_cap os (Fifo.mk cap [] true)) as HC.
  rewrite HR in HO, HC. cbn in HO, HC.
  pose proof (snapshot_spec q' Hwf') as HS. simpl in HS. rewrite HS.
  destruct Hwf' as (_ & HL & HF). split_and!.
  - by rewrite HO.
  - unfold Len. by rewrite <- HC.
  - simpl. eapply Forall_impl; [exact HF|]. intros j (Hv & Hs & _). by rewrite ValidateJob_Ok.
Qed.

Definition sample_ops : list op :=
  [OpEnqueue None 7 sample_job; OpEnqueue None 8 sample_job; OpEnqueue None 9 sample_job;
   OpDequeue None; OpEnqueue (Some context_Canceled) 9 sample_job; OpClose; OpDequeue None].
Definition sample_queue : MemoryQueue := mkMemoryQueue 2 [] false.

Lemma sample_ops_clock : Forall clock_ok sample_ops.
Proof. repeat constructor. Qed.

Lemma memory_queue_refines_fifo_witness :
  let '(xs, q') := run sample_ops sample_queue in
  fifo_run sample_ops (Fifo.mk 2 [] true) = (xs, Fifo.mk 2 (Snapshot q') (negb (closed q'))).
Proof. apply (memory_queue_refines_fifo 2); [reflexivity|exact sample_ops_clock]. Defined.

Lemma memory_queue_fifo_witness :
  let '(xs, q') := run sample_ops sample_queue in
  accepted xs = delivered xs ++ Snapshot q' /\ Len q' <= 2 /\
  Forall (fun j => ValidateJob j = Ok tt /\ Status j = JobStatusQueued) (Snapshot q').
Proof. apply (memory_queue_fifo 2); [reflexivity|exact sample_ops_clock]. Defined.

(** The sample execution: two jobs fit, the third is refused as full, the
    cancelled call and the call after Close fail. *)
Example sample_ops_outcome :
  map (fun x => match x with
                | OutEnqueue _ e => e
                | OutDequeue (Ok _) => None
                | OutDequeue (Err e) => Some e
                | OutClose => None end) (run sample_ops sample_queue).1
  = [None; None; Some ErrQueueFull; None; Some context_Canceled; None; Some ErrQueueClosed].
Proof. vm_compute. reflexivity. Qed.

End MemoryTheorems.
