(* ===== verification/QueueStore.v ===== *)
(** * internal/queue/persistence.go and adapters.go

    [Persistence] models queue snapshots, the file store and [Restore];
    [Adapters] models the driver selection.  The JSON codec of the snapshot is
    a parameter of the file store: [marshal] and [unmarshal]. *)
From S2P Require Import Prelude GoStrings Identity Job Queue GoFS.

Module Persistence.

Definition PersistenceVersion : string := "queue.snapshot.v1".
Definition StoreSourceCreated : string := "created".
Definition StoreSourceLoaded : string := "loaded".
Definition StoreSourceSaved : string := "saved".

Record Snapshot := mkSnapshot {
  Version : string;
  Driver : string;
  GeneratedAt : Time;
  Jobs : list Job
}.

Record StoreResult := mkStoreResult { Path : string; Source : string; JobCount : Z }.

Definition cloneJobs (jobs : list Job) : list Job := map Clone jobs.

Definition SnapshotClone (snapshot : Snapshot) : Snapshot :=
  mkSnapshot (Version snapshot) (Driver snapshot) (GeneratedAt snapshot) (cloneJobs (Jobs snapshot)).

Definition NewSnapshot (driver : string) (jobs : list Job) (now clock : Time) : Snapshot :=
  mkSnapshot PersistenceVersion (TrimSpace driver) (or_now now clock) (cloneJobs jobs).

(** The loop of [ValidateSnapshot] over the jobs. *)
Fixpoint validate_jobs (index : Z) (jobs : list Job) : result unit :=
  match jobs with
  | [] => Ok tt
  | job :: r =>
    match ValidateJob job with
    | Err e => Err (Wrapf ("queue persistence job " +:+ Itoa index +:+ ": " +:+ Error e) e)
    | Ok _ =>
      if negb (String.eqb (Status job) JobStatusQueued)
         && negb (String.eqb (Status job) JobStatusPending)
      then Err (Errorf ("queue persistence job " +:+ Itoa index +:+ " must be pending or queued"))
      else validate_jobs (index + 1) r
    end
  end.

Definition ValidateSnapshot (snapshot : Snapshot) : result unit :=
  if negb (String.eqb (Version snapshot) PersistenceVersion)
  then Err (Errorf ("queue persistence version must be " +:+ PersistenceVersion)) else
  if String.eqb (TrimSpace (Driver snapshot)) ""
  then Err (Errorf "queue persistence driver is required") else
  if IsZero (GeneratedAt snapshot)
  then Err (Errorf "queue persistence generated_at is required") else
  validate_jobs 0 (Jobs snapshot).

(** *** The file store *)
Section FileStore.
Context (marshal : Snapshot -> result string) (unmarshal : string -> result Snapshot).

Record FileStore := mkFileStore { path : string; now : Time }.

Definition NewFileStore (path : string) (now : Time) : FileStore := mkFileStore (TrimSpace path) now.

(** [Load]: [Ok None] when the file does not exist. *)
Definition Load (store : FileStore) (ctx : Context) (read_fault : option error) (fs : FS)
  : result (option Snapshot) :=
  match ctx with
  | Some e => Err e
  | None =>
    if String.eqb (TrimSpace (path store)) ""
    then Err (Errorf "queue persistence path cannot be empty") else
    match ReadFile read_fault (path store) fs with
    | Err e => if IsNotExist e then Ok None else Err e
    | Ok content =>
      match unmarshal content with
      | Err e => Err (Wrapf ("decode queue persistence: " +:+ Error e) e)
      | Ok snapshot => _ ← ValidateSnapshot snapshot; Ok (Some (SnapshotClone snapshot))
      end
    end
  end.

(** [Save] returns its result and the file-system states it goes through. *)
Definition Save (store : FileStore) (ctx : Context) (driver : string) (jobs : list Job)
  (clock : Time) (fl : write_faults) (tmp : string) (fs : FS)
  : result StoreResult * list FS :=
  match ctx with
  | Some e => (Err e, [fs])
  | None =>
    if String.eqb (TrimSpace (path store)) ""
    then (Err (Errorf "queue persistence path cannot be empty"), [fs]) else
    let snapshot := NewSnapshot driver jobs (now store) clock in
    match ValidateSnapshot snapshot with
    | Err e => (Err e, [fs])
    | Ok _ =>
      match f_mkdir fl with
      | Some e => (Err e, [fs])
      | None =>
        match marshal snapshot with
        | Err e => (Err e, [fs])
        | Ok content =>
          let content := content +:+ str ["010"%char] in
          match write_atomic fl tmp (path store) content fs with
          | (Some e, states) => (Err e, states)
          | (None, states) =>
            (Ok (mkStoreResult (path store) StoreSourceSaved (zlen (Jobs snapshot))), states)
          end
        end
      end
    end
  end.

(** [Ensure] loads the snapshot, or saves an empty one and loads it back. *)
Definition Ensure (store : FileStore) (ctx : Context) (driver : string) (clock : Time)
  (read_fault reread_fault : option error) (fl : write_faults) (tmp : string) (fs : FS)
  : result (Snapshot * StoreResult) * FS :=
  match Load store ctx read_fault fs with
  | Err e => (Err e, fs)
  | Ok (Some snapshot) =>
    (Ok (SnapshotClone snapshot,
         mkStoreResult (path store) StoreSourceLoaded (zlen (Jobs snapshot))), fs)
  | Ok None =>
    let '(saved, states) := Save store ctx driver [] clock fl tmp fs in
    let fs' := final_fs fs states in
    match saved with
    | Err e => (Err e, fs')
    | Ok res =>
      match Load store ctx reread_fault fs' with
      | Err e => (Err e, fs')
      | Ok None => (Err (Errorf "queue persistence was not created"), fs')
      | Ok (Some snapshot) =>
        (Ok (SnapshotClone snapshot, mkStoreResult (Path res) StoreSourceCreated (JobCount res)), fs')
      end
    end
  end.

(** C28: saving a queue snapshot is atomic: at whatever system call the process
    stops or fails, the store file holds its previous contents or the whole
    new document, and no other file than the temporary one has changed. *)
Theorem Save_crash_safe store ctx driver jobs clock fl tmp fs fs' :
  tmp <> path store ->
  fs' ∈ (Save store ctx driver jobs clock fl tmp fs).2 ->
  (fs' !! path store = fs !! path store \/
   exists content, marshal (NewSnapshot driver jobs (now store) clock) = Ok content /\
     fs' !! path store = Some (content +:+ str ["010"%char])) /\
  forall p, p <> path store -> p <> tmp -> fs' !! p = fs !! p.
Proof.
  intros Hne H. unfold Save in H.
  destruct ctx; [apply list_elem_of_singleton in H; subst; auto|].
  case_match; [apply list_elem_of_singleton in H; subst; auto|].
  destruct (ValidateSnapshot _); [|apply list_elem_of_singleton in H; subst; auto].
  destruct (f_mkdir fl) eqn:?; [apply list_elem_of_singleton in H; subst; auto|].
  destruct (marshal _) as [content|] eqn:?; [|apply list_elem_of_singleton in H; subst; auto].
  destruct (write_atomic_crash_safe fl tmp (path store) (content +:+ str ["010"%char]) fs fs')
    as [H1 H2]; [done|by destruct (write_atomic _ _ _ _ _) as [[]]|].
  split; [|done]. destruct H1; eauto.
Qed.

Lemma save_error_keeps store ctx driver jobs clock fl tmp fs e states :
  Save store ctx driver jobs clock fl tmp fs = (Err e, states) -> tmp <> path store -> fs !! tmp = None ->
  final_fs fs states = fs.
Proof.
  intros H Hne Ht. unfold Save in H. destruct ctx; [by simplify_eq|].
  destruct (String.eqb _ _); [by simplify_eq|]. destruct (ValidateSnapshot _); [|by simplify_eq].
  destruct (f_mkdir fl); [by simplify_eq|]. destruct (marshal _) as [content|]; [|by simplify_eq].
  pose proof (write_atomic_final fl tmp (path store) (content +:+ str ["010"%char]) fs Hne Ht) as HF.
  destruct (write_atomic _ _ _ _ _) as [[e'|] states']; [|done]. by simplify_eq.
Qed.

Lemma save_then_load store driver jobs clock fl tmp fs res states :
  Save store None driver jobs clock fl tmp fs = (Ok res, states) ->
  tmp <> path store -> fs !! tmp = None ->
  let snapshot := NewSnapshot driver jobs (now store) clock in
  (forall content, marshal snapshot = Ok content ->
     unmarshal (content +:+ str ["010"%char]) = Ok snapshot) ->
  Load store None None (final_fs fs states) = Ok (Some snapshot) /\
  JobCount res = zlen jobs.
Proof.
  intros H Hne Ht snapshot Hcodec. unfold Save in H.
  destruct (String.eqb (TrimSpace (path store)) "") eqn:Hp; [done|]. fold snapshot in H.
  destruct (ValidateSnapshot snapshot) as [[]|] eqn:HV; [|done].
  destruct (f_mkdir fl) eqn:?; [done|].
  destruct (marshal snapshot) as [content|] eqn:HM; [|done].
  pose proof (write_atomic_final fl tmp (path store) (content +:+ str ["010"%char]) fs Hne Ht) as HF.
  destruct (write_atomic _ _ _ _ _) as [[e|] states']; [done|]. simplify_eq.
  split.
  - unfold Load. rewrite Hp, HF. unfold ReadFile. rewrite lookup_insert_eq.
    rewrite Hcodec by done. rewrite HV. cbn. do 2 f_equal.
    unfold snapshot, NewSnapshot, SnapshotClone, cloneJobs. cbn. f_equal.
    rewrite map_map. apply map_ext. intros j. apply Clone_idemp.
  - simpl. unfold cloneJobs, zlen. by rewrite length_map.
Qed.

(** What [Save] reports as saved, [Load] reads back: the snapshot of the
    (defensively copied) jobs, provided the JSON codec round-trips that
    document. *)
Theorem Save_Load_roundtrip store driver jobs clock fl tmp fs res states :
  Save store None driver jobs clock fl tmp fs = (Ok res, states) ->
  tmp <> path store -> fs !! tmp = None ->
  let snapshot := NewSnapshot driver jobs (now store) clock in
  (forall content, marshal snapshot = Ok content ->
     unmarshal (content +:+ str ["010"%char]) = Ok snapshot) ->
  Load store None None (final_fs fs states) = Ok (Some snapshot) /\
  JobCount res = zlen jobs.
Proof. apply save_then_load. Qed.
End FileStore.

(** A codec that knows one document, to exercise the theorems. *)
Definition one_marshal (s : Snapshot) : result string := Ok "{...}".
Definition one_unmarshal (s : Snapshot) (content : string) : result Snapshot :=
  if String.eqb content ("{...}" +:+ str ["010"%char]) then Ok s else Err (Errorf "bad document").

Definition sample_store : FileStore := mkFileStore "data/worker/queue.json" 42.
Definition sample_snapshot : Snapshot := NewSnapshot "memory" [sample_job] 42 43.

(** The file system after the temporary file was written and before the rename. *)
Definition crash_state : FS :=
  default ∅ ((Save one_marshal sample_store None "memory" [sample_job] 43 no_faults "t" ∅).2 !! 1%nat).

Lemma Save_crash_safe_witness : crash_state !! "data/other.json" = None /\
  (crash_state !! path sample_store = None \/
   exists content, one_marshal (NewSnapshot "memory" [sample_job] 42 43) = Ok content /\
     crash_state !! path sample_store = Some (content +:+ str ["010"%char])).
Proof.
  destruct (Save_crash_safe one_marshal sample_store None "memory" [sample_job] 43
    no_faults "t" ∅ crash_state) as [H1 H2].
  - discriminate.
  - apply (list_elem_of_lookup_2 _ 1%nat). vm_compute. reflexivity.
  - split; [exact (H2 "data/other.json" ltac:(discriminate) ltac:(discriminate))|exact H1].
Defined.

Lemma Save_Load_roundtrip_witness :
  Load (one_unmarshal sample_snapshot) sample_store None None
    (final_fs ∅ (Save one_marshal sample_store None "memory" [sample_job] 43 no_faults "t" ∅).2)
  = Ok (Some sample_snapshot).
Proof.
  refine (proj1 (Save_Load_roundtrip one_marshal (one_unmarshal sample_snapshot) sample_store
    "memory" [sample_job] 43 no_faults "t" ∅ (mkStoreResult (path sample_store) StoreSourceSaved 1)
    _ _ _ _ _)).
  - vm_compute. reflexivity.
  - discriminate.
  - reflexivity.
  - intros content [= <-]. vm_compute. reflexivity.
Defined.

(** *** Restore *)
Section Restore.
Context {Q : Type} `{JQ : !JobQueue Q} `{!JobQueueSpec Q}.

(** The loop: how many jobs were enqueued, the error that stopped it, and the
    queue.  Enqueue number [i] reads the clock as [clock i]. *)
Fixpoint restore_loop (ctx : Context) (clock : nat -> Time) (restored : nat) (jobs : list Job) (q : Q)
  : (nat * option error) * Q :=
  match jobs with
  | [] => ((restored, None), q)
  | job :: r =>
    match Enqueue ctx (clock restored) job q with
    | (Some e, q') => ((restored, Some e), q')
    | (None, q') => restore_loop ctx clock (S restored) r q'
    end
  end.

Definition Restore (ctx : Context) (clock : nat -> Time) (snapshot : Snapshot) (target : Q)
  : (nat * option error) * Q :=
  match ValidateSnapshot snapshot with
  | Err e => ((0%nat, Some e), target)
  | Ok _ => restore_loop ctx clock 0 (Jobs snapshot) target
  end.

Lemma validate_jobs_guard i jobs : validate_jobs i jobs = Ok tt ->
  Forall (fun j => enqueue_guard None j = None) jobs.
Proof.
  revert i. induction jobs as [|j jobs IH]; intros i; simpl; [constructor|].
  destruct (ValidateJob j) eqn:HV; [|done].
  destruct (negb _ && negb _) eqn:HS; [done|]. intros H. constructor; [|by eapply IH].
  unfold enqueue_guard, accepts_status. rewrite HV.
  by destruct (String.eqb (Status j) JobStatusQueued), (String.eqb (Status j) JobStatusPending).
Qed.

(** The jobs as they are stored by enqueues number [i], [i+1], ... *)
Definition stored_from (clock : nat -> Time) (i : nat) (jobs : list Job) : list Job :=
  imap (fun k j => queued_form (clock (i + k)%nat) j) jobs.

Lemma stored_from_cons clock i j jobs :
  stored_from clock i (j :: jobs) = queued_form (clock i) j :: stored_from clock (S i) jobs.
Proof.
  unfold stored_from. rewrite imap_cons. rewrite Nat.add_0_r. f_equal. apply imap_ext.
  intros k x _. simpl. by replace (i + S k)%nat with (S (i + k)) by lia.
Qed.

Lemma restore_loop_spec clock i jobs q :
  wf q -> (forall k, IsZero (clock k) = false) ->
  Fifo.open (abs q) = true -> Forall (fun j => enqueue_guard None j = None) jobs ->
  let free := Z.to_nat (Fifo.cap (abs q) - zlen (Fifo.items (abs q))) in
  let n := Nat.min free (length jobs) in
  let '((restored, err), q') := restore_loop None clock i jobs q in
  wf q' /\ restored = (i + n)%nat /\
  err = (if (free <? length jobs)%nat then Some ErrQueueFull else None) /\
  Fifo.items (abs q') = Fifo.items (abs q) ++ stored_from clock i (take n jobs).
Proof.
  intros Hwf Hc Ho F. revert i q Hwf Ho. induction F as [|j jobs Hj F IH]; intros i q Hwf Ho; simpl.
  - rewrite Nat.min_0_r, take_nil. simpl. rewrite app_nil_r.
    split_and!; (done || lia || by destruct (Z.to_nat _)).
  - pose proof (enqueue_spec None (clock i) j q Hwf (Hc i)) as HE.
    destruct (Enqueue None (clock i) j q) as [err q1]. destruct HE as [Hwf1 HE].
    rewrite Hj in HE. unfold Fifo.push in HE. rewrite Ho in HE. cbn [negb] in HE.
    destruct (Z.leb_spec (Fifo.cap (abs q)) (zlen (Fifo.items (abs q)))) as [Hle|Hlt];
      injection HE as -> Habs.
    + replace (Z.to_nat _) with 0%nat by lia. simpl. rewrite app_nil_r, Habs.
      split_and!; done || lia.
    + specialize (IH (S i) q1 Hwf1). rewrite Habs in IH.
      cbn [Fifo.cap Fifo.items Fifo.open] in IH. specialize (IH eq_refl).
      destruct (restore_loop None clock (S i) jobs q1) as [[restored err] q2].
      rewrite zlen_app in IH. change (zlen [_]) with 1 in IH.
      replace (Z.to_nat (Fifo.cap (abs q) - zlen (Fifo.items (abs q))))
        with (S (Z.to_nat (Fifo.cap (abs q) - (zlen (Fifo.items (abs q)) + 1)))) by lia.
      set (free := Z.to_nat (Fifo.cap (abs q) - (zlen (Fifo.items (abs q)) + 1))) in *.
      destruct IH as (Hwf2 & -> & -> & ->). split_and!; [done|simpl; lia|done|].
      cbn [Nat.min take]. rewrite stored_from_cons, <- app_assoc. done.
Qed.

(** Restoring a valid snapshot into an open queue with a live context
    enqueues its jobs in order until the queue is full: the count returned is
    the smaller of the free capacity and the number of jobs, the error is
    "queue is full" exactly when jobs were left over, and the queue gains
    exactly the queued forms of that many first jobs. *)
Theorem Restore_spec clock snapshot q :
  wf q -> (forall k, IsZero (clock k) = false) -> Fifo.open (abs q) = true ->
  ValidateSnapshot snapshot = Ok tt ->
  let free := Z.to_nat (Capacity q - Len q) in
  let n := Nat.min free (length (Jobs snapshot)) in
  let '((restored, err), q') := Restore None clock snapshot q in
  restored = n /\
  err = (if (free <? length (Jobs snapshot))%nat then Some ErrQueueFull else None) /\
  Snapshot_ q' = Snapshot_ q ++ stored_from clock 0 (take n (Jobs snapshot)).
Proof.
  intros Hwf Hc Ho HV. unfold Restore. rewrite HV.
  rewrite capacity_spec, len_spec by done.
  assert (Forall (fun j => enqueue_guard None j = None) (Jobs snapshot)) as F.
  { unfold ValidateSnapshot in HV. repeat (case_match; [done|]). by eapply validate_jobs_guard. }
  pose proof (restore_loop_spec clock 0 (Jobs snapshot) q Hwf Hc Ho F) as H. cbv zeta in H |- *.
  destruct (restore_loop None clock 0 (Jobs snapshot) q) as [[restored err] q'].
  destruct H as (Hwf' & -> & -> & H). rewrite !snapshot_spec by done. done.
Qed.
End Restore.

Import Memory.

Lemma Restore_spec_witness :
  let q := mkMemoryQueue 2 [] false in
  let free := Z.to_nat (Queue.Capacity q - Queue.Len q) in
  let n := Nat.min free (length (Jobs sample_snapshot)) in
  let '((restored, err), q') := Restore None (fun _ => 9) sample_snapshot q in
  restored = n /\
  err = (if (free <? length (Jobs sample_snapshot))%nat then Some ErrQueueFull else None) /\
  Snapshot_ q' = Snapshot_ q ++ stored_from (fun _ => 9) 0 (take n (Jobs sample_snapshot)).
Proof.
  apply (Restore_spec (fun _ => 9) sample_snapshot (mkMemoryQueue 2 [] false)).
  - split_and!; simpl; [lia|unfold zlen; simpl; lia|constructor].
  - intros _. reflexivity.
  - reflexivity.
  - vm_compute. reflexivity.
Defined.

End Persistence.

(** ** adapters.go *)
Module Adapters.
Import Memory.

Definition MemoryDriver : string := "memory".
Definition RedisStreamsDriver : string := "redis_streams".
Definition RabbitMQDriver : string := "rabbitmq".
Definition NATSDriver : string := "nats".
Definition QueueModeLocal : string := "local".
Definition QueueModeFoundationAdapter : string := "foundation_adapter".

Record Options := mkOptions {
  opt_Driver : string;
  opt_MemoryCapacity : Z;
  opt_RedisAddress : string;
  opt_RedisStream : string;
  opt_RedisConsumerGroup : string;
  opt_RabbitMQURL : string;
  opt_RabbitMQQueue : string;
  opt_NATSURL : string;
  opt_NATSSubject : string;
  opt_NATSQueueGroup : string
}.

Record Info := mkInfo {
  info_Driver : string;
  info_Mode : string;
  info_Endpoint : string;
  info_Name : string;
  info_ConsumerGroup : string;
  info_Capacity : Z;
  info_Length : Z
}.

(** The four queue types all hold a [MemoryQueue] and static diagnostics. *)
Inductive ClusterQueue :=
| InstrumentedQueue (queue : MemoryQueue) (info : Info)
| RedisStreamsQueue (queue : MemoryQueue) (info : Info)
| RabbitMQQueue (queue : MemoryQueue) (info : Info)
| NATSQueue (queue : MemoryQueue) (info : Info).

Definition embedded (c : ClusterQueue) : MemoryQueue :=
  match c with
  | InstrumentedQueue q _ | RedisStreamsQueue q _ | RabbitMQQueue q _ | NATSQueue q _ => q
  end.
Definition static_info (c : ClusterQueue) : Info :=
  match c with
  | InstrumentedQueue _ i | RedisStreamsQueue _ i | RabbitMQQueue _ i | NATSQueue _ i => i
  end.

(** [Info()]: the static diagnostics with the live length and capacity. *)
Definition Info_ (c : ClusterQueue) : Info :=
  let info := static_info c in
  mkInfo (info_Driver info) (info_Mode info) (info_Endpoint info) (info_Name info)
    (info_ConsumerGroup info) (Capacity (embedded c)) (Len (embedded c)).

Definition NormalizeDriver (driver : string) : string := ToLower (TrimSpace driver).

Definition NewRedisStreamsQueue (address stream group : string) (capacity : Z) : result ClusterQueue :=
  let address := TrimSpace address in
  if String.eqb address "" then Err (Errorf "redis streams address is required") else
  let stream := TrimSpace stream in
  if String.eqb stream "" then Err (Errorf "redis stream is required") else
  let group := TrimSpace group in
  if String.eqb group "" then Err (Errorf "redis consumer group is required") else
  memory ← NewMemoryQueue capacity;
  Ok (RedisStreamsQueue memory (mkInfo RedisStreamsDriver QueueModeFoundationAdapter address stream
        group (Capacity memory) 0)).

Definition NewRabbitMQQueue (url queueName : string) (capacity : Z) : result ClusterQueue :=
  let endpoint := TrimSpace url in
  if String.eqb endpoint "" then Err (Errorf "rabbitmq url is required") else
  let name := TrimSpace queueName in
  if String.eqb name "" then Err (Errorf "rabbitmq queue is required") else
  memory ← NewMemoryQueue capacity;
  Ok (RabbitMQQueue memory (mkInfo RabbitMQDriver QueueModeFoundationAdapter endpoint name "" 
        (Capacity memory) 0)).

Definition NewNATSQueue (url subject group : string) (capacity : Z) : result ClusterQueue :=
  let endpoint := TrimSpace url in
  if String.eqb endpoint "" then Err (Errorf "nats url is required") else
  let subject := TrimSpace subject in
  if String.eqb subject "" then Err (Errorf "nats subject is required") else
  let group := TrimSpace group in
  if String.eqb group "" then Err (Errorf "nats queue group is required") else
  memory ← NewMemoryQueue capacity;
  Ok (NATSQueue memory (mkInfo NATSDriver QueueModeFoundationAdapter endpoint subject group
        (Capacity memory) 0)).

Definition NewQueue (options : Options) : result ClusterQueue :=
  let driver := NormalizeDriver (opt_Driver options) in
  if String.eqb driver MemoryDriver || String.eqb driver "" then
    memory ← NewMemoryQueue (opt_MemoryCapacity options);
    Ok (InstrumentedQueue memory (mkInfo MemoryDriver QueueModeLocal "" "" "" (Capacity memory) 0))
  else if String.eqb driver RedisStreamsDriver then
    NewRedisStreamsQueue (opt_RedisAddress options) (opt_RedisStream options)
      (opt_RedisConsumerGroup options) (opt_MemoryCapacity options)
  else if String.eqb driver RabbitMQDriver then
    NewRabbitMQQueue (opt_RabbitMQURL options) (opt_RabbitMQQueue options) (opt_MemoryCapacity options)
  else if String.eqb driver NATSDriver then
    NewNATSQueue (opt_NATSURL options) (opt_NATSSubject options) (opt_NATSQueueGroup options)
      (opt_MemoryCapacity options)
  else Err (Errorf ("unsupported queue driver " +:+ Quote (opt_Driver options))).

Definition SupportedDrivers : list string :=
  [MemoryDriver; RedisStreamsDriver; RabbitMQDriver; NATSDriver].

(** The operator settings a driver needs. *)
Definition required_settings (options : Options) (driver : string) : list string :=
  if String.eqb driver RedisStreamsDriver
  then [opt_RedisAddress options; opt_RedisStream options; opt_RedisConsumerGroup options]
  else if String.eqb driver RabbitMQDriver then [opt_RabbitMQURL options; opt_RabbitMQQueue options]
  else if String.eqb driver NATSDriver
  then [opt_NATSURL options; opt_NATSSubject options; opt_NATSQueueGroup options]
  else [].

Lemma NewMemoryQueue_pos cap : 0 < cap -> NewMemoryQueue cap = Ok (mkMemoryQueue cap [] false).
Proof. intros H. unfold NewMemoryQueue. destruct (Z.leb_spec cap 0); [lia|done]. Qed.
Lemma NewMemoryQueue_bad cap : cap <= 0 -> exists e, NewMemoryQueue cap = Err e.
Proof. intros H. unfold NewMemoryQueue. destruct (Z.leb_spec cap 0); [eauto|lia]. Qed.

Lemma NewQueue_bad_capacity options : opt_MemoryCapacity options <= 0 ->
  exists e, NewQueue options = Err e.
Proof.
  intros H. unfold NewQueue, NewRedisStreamsQueue, NewRabbitMQQueue, NewNATSQueue.
  destruct (NewMemoryQueue_bad _ H) as [e ->]. cbn [mbind result_bind].
  repeat match goal with |- context [if ?b then _ else _] => destruct b end; eauto.
Qed.

(** Close the case where the outcome of every check is known. *)
Ltac settle :=
  cbn; split;
  [split; [first [discriminate | intros _; split_and!; solve [assumption | lia | constructor | done]]
          | intros (_ & _ & ?); destruct_and?; solve [reflexivity | contradiction | done]]
  | first [discriminate | by intros c [= <-]]].

(** The queue factory succeeds exactly for a known driver (or none, meaning
    memory), a positive capacity and non-blank settings of that driver; the
    queue it returns is an empty open local queue of that capacity and reports
    the canonical driver name. *)
Theorem NewQueue_spec options :
  let driver := NormalizeDriver (opt_Driver options) in
  let effective := if String.eqb driver "" then MemoryDriver else driver in
  (is_ok (NewQueue options) = true <->
     effective ∈ SupportedDrivers /\ 0 < opt_MemoryCapacity options /\
     Forall (fun s => TrimSpace s <> "") (required_settings options effective)) /\
  forall c, NewQueue options = Ok c ->
    embedded c = mkMemoryQueue (opt_MemoryCapacity options) [] false /\
    Info_ c = mkInfo effective (info_Mode (static_info c)) (info_Endpoint (static_info c))
                (info_Name (static_info c)) (info_ConsumerGroup (static_info c))
                (opt_MemoryCapacity options) 0.
Proof.
  cbv zeta. destruct (Z.leb_spec (opt_MemoryCapacity options) 0) as [Hc|Hc].
  { destruct (NewQueue_bad_capacity options Hc) as [e ->]. split; [|done].
    split; [done|]. intros (_ & ? & _). lia. }
  unfold NewQueue, NewRedisStreamsQueue, NewRabbitMQQueue, NewNATSQueue, required_settings.
  rewrite (NewMemoryQueue_pos _ Hc).
  set (driver := NormalizeDriver _). clearbody driver.
  assert (forall s, s ∈ SupportedDrivers <->
    s = MemoryDriver \/ s = RedisStreamsDriver \/ s = RabbitMQDriver \/ s = NATSDriver) as HS.
  { intros s. unfold SupportedDrivers. set_solver. }
  destruct (String.eqb_spec driver "") as [->|Hne]; [cbn; split; [|naive_solver]|].
  { split; [|done]. intros _. rewrite HS. split_and!; [auto|lia|constructor]. }
  destruct (String.eqb_spec driver MemoryDriver) as [->|H1].
  { cbn. split; [|naive_solver]. split; [|done]. intros _. rewrite HS.
    split_and!; [auto|lia|constructor]. }
  destruct (String.eqb_spec driver RedisStreamsDriver) as [->|H2];
    [assert (RedisStreamsDriver ∈ SupportedDrivers) by (rewrite HS; auto)
    |destruct (String.eqb_spec driver RabbitMQDriver) as [->|H3];
      [assert (RabbitMQDriver ∈ SupportedDrivers) by (rewrite HS; auto)
      |destruct (String.eqb_spec driver NATSDriver) as [->|H4];
        [assert (NATSDriver ∈ SupportedDrivers) by (rewrite HS; auto)|]]]; cbn [orb].
  - rewrite !Forall_cons.
    destruct (String.eqb_spec (TrimSpace (opt_RedisAddress options)) "");
    destruct (String.eqb_spec (TrimSpace (opt_RedisStream options)) "");
    destruct (String.eqb_spec (TrimSpace (opt_RedisConsumerGroup options)) "");
    settle.
  - rewrite !Forall_cons.
    destruct (String.eqb_spec (TrimSpace (opt_RabbitMQURL options)) "");
    destruct (String.eqb_spec (TrimSpace (opt_RabbitMQQueue options)) "");
    settle.
  - rewrite !Forall_cons.
    destruct (String.eqb_spec (TrimSpace (opt_NATSURL options)) "");
    destruct (String.eqb_spec (TrimSpace (opt_NATSSubject options)) "");
    destruct (String.eqb_spec (TrimSpace (opt_NATSQueueGroup options)) "");
    settle.
  - cbn. split; [|done]. split; [done|]. rewrite HS. naive_solver.
Qed.

End Adapters.
