(* ===== verification/Worker.v ===== *)
(** * internal/worker: worker.go and pool.go

    [RunOnce] is split where the Go code is interruptible: [Dequeue] under the
    queue's mutex, then [execute_job] on the claimed job.  [Pool] models the
    goroutines of [Pool.RunOnce] as an interleaving of those two steps.
    Handlers are functions from the claimed job to a result and an error. *)
From S2P Require Import Prelude GoStrings Identity Job Queue.

Definition DefaultWorkerID : string := "worker-1".

Record HandlerResult := mkHandlerResult {
  h_Status : string;
  h_Message : string;
  h_Metadata : gmap string string;
  h_Now : Time
}.

Definition Handler := Job -> HandlerResult * option error.

Record RunResult := mkRunResult {
  WorkerID : string;
  Executed : bool;
  ResultJob : Job;
  StartedAt : Time;
  EndedAt : Time;
  RunDuration : Duration;
  RunError : string
}.

(** [RunResult{WorkerID: id}] with the other fields at their zero values. *)
Definition idle_result (id : string) : RunResult := mkRunResult id false zero_job 0 0 0 "".

Definition NormalizeWorkerID (value : string) : string := ToLower (TrimSpace value).

Definition NoopHandler : Handler :=
  fun _ => (mkHandlerResult JobStatusSucceeded "noop" ∅ 0, None).

(** The worker id [NewWorker] settles on; queue and handler are never nil here. *)
Definition worker_id (id : string) : string :=
  let workerID := NormalizeWorkerID id in
  if String.eqb workerID "" then DefaultWorkerID else workerID.

(** The clock readings of one run: at the start, at the end, and the fallback of
    [WithAttemptStatus]. *)
Record clocks := mkClocks { c_started : Time; c_ended : Time; c_fallback : Time }.
Definition clocks_ok (c : clocks) : Prop :=
  IsZero (c_started c) = false /\ IsZero (c_ended c) = false.

(** The status and error after the handler returned. *)
Definition settle_status (res : HandlerResult) (handlerErr : option error) : string * option error :=
  let status := h_Status res in
  let status := if String.eqb status "" then JobStatusSucceeded else status in
  let status := match handlerErr with Some _ => JobStatusFailed | None => status end in
  if negb (IsTerminalJobStatus status) then
    (JobStatusFailed,
     match handlerErr with
     | None => Some (Errorf ("handler returned non-terminal status " +:+ Quote (h_Status res)))
     | Some e => Some e
     end)
  else (status, handlerErr).

(** Merging the handler's metadata, then its message, into the job's. *)
Definition merge_metadata (entries : list (string * string)) (m : gmap string string)
  : gmap string string :=
  fold_left (fun m kv => let trimmedKey := TrimSpace kv.1 in
    if String.eqb trimmedKey "" then m else <[trimmedKey := kv.2]> m) entries m.
Definition final_metadata (res : HandlerResult) (m : gmap string string) : gmap string string :=
  let m := merge_metadata (map_to_list (h_Metadata res)) m in
  if String.eqb (TrimSpace (h_Message res)) "" then m
  else <["worker_message" := TrimSpace (h_Message res)]> m.

(** The part of [RunOnce] after a job was dequeued. *)
Definition execute_job (id : string) (clk : clocks) (handler : Handler) (queued : Job)
  : RunResult * option error :=
  let started := c_started clk in
  match WithAttemptStatus queued JobStatusRunning started (c_fallback clk) with
  | Err e => (mkRunResult id true (Clone queued) started started 0 (Error e), Some e)
  | Ok running =>
    let '(handlerResult, handlerErr) := handler (Clone running) in
    let ended := if IsZero (h_Now handlerResult) then c_ended clk else h_Now handlerResult in
    let '(status, handlerErr) := settle_status handlerResult handlerErr in
    let final := set_UpdatedAt ended (set_Status status (Clone running)) in
    let final := set_maps (Headers final) (final_metadata handlerResult (Metadata final)) final in
    match ValidateJob final with
    | Err e => (mkRunResult id true (Clone running) started ended (time_Sub ended started) (Error e), Some e)
    | Ok _ =>
      match handlerErr with
      | Some e => (mkRunResult id true (Clone final) started ended (time_Sub ended started) (Error e), Some e)
      | None => (mkRunResult id true (Clone final) started ended (time_Sub ended started) "", None)
      end
    end
  end.

(** What one run of a worker observes of its surroundings: the context as
    [RunOnce] and as [Dequeue] read it, the clock, and what the handler does. *)
Record RunEnv := mkRunEnv {
  e_ctx : Context;
  e_ctx_dequeue : Context;
  e_clocks : clocks;
  e_handler : Handler
}.

(** Where a worker is in its [RunOnce]. *)
Inductive progress :=
| Idle
| Claimed (job : Job)
| Finished (r : RunResult * option error).

Section RunOnce.
Context {Q : Type} `{JQ : !JobQueue Q}.

(** [RunOnce] up to and including the dequeue. *)
Definition poll (id : string) (e : RunEnv) (q : Q) : progress * Q :=
  match e_ctx e with
  | Some err => (Finished (idle_result id, Some err), q)
  | None =>
    match Dequeue (e_ctx_dequeue e) q with
    | (Err err, q') => (Finished (mkRunResult id false zero_job 0 0 0 (Error err), Some err), q')
    | (Ok None, q') => (Finished (idle_result id, None), q')
    | (Ok (Some queued), q') => (Claimed queued, q')
    end
  end.

(** The rest of [RunOnce]. *)
Definition finish (id : string) (e : RunEnv) (p : progress) : RunResult * option error :=
  match p with
  | Idle => (idle_result id, None)
  | Claimed queued => execute_job id (e_clocks e) (e_handler e) queued
  | Finished r => r
  end.

Definition RunOnce (id : string) (e : RunEnv) (q : Q) : (RunResult * option error) * Q :=
  let '(p, q') := poll id e q in (finish id e p, q').
End RunOnce.

(** ** One execution *)

Lemma merge_metadata_clean entries m : clean_map m -> clean_map (merge_metadata entries m).
Proof.
  unfold merge_metadata. revert m. induction entries as [|[k v] entries IH]; intros m Hm; simpl; [done|].
  apply IH. destruct (String.eqb_spec (TrimSpace k) "") as [_|Hne]; [done|].
  apply clean_map_insert; [done|apply TrimSpace_idemp|done].
Qed.

Lemma final_metadata_clean res m : clean_map m -> clean_map (final_metadata res m).
Proof.
  intros Hm. unfold final_metadata. case_match; [by apply merge_metadata_clean|].
  apply clean_map_insert; [by apply merge_metadata_clean|by vm_compute|done].
Qed.

(** After the handler the status is terminal, and it is "failed" as soon as the
    handler reported an error. *)
Lemma settle_status_terminal res e : IsTerminalJobStatus (settle_status res e).1 = true.
Proof.
  unfold settle_status. cbv zeta. match goal with |- context [negb (IsTerminalJobStatus ?s)] =>
    destruct (IsTerminalJobStatus s) eqn:E end; cbn [negb fst]; [exact E|].
  vm_compute. reflexivity.
Qed.

Lemma settle_status_failed res e : (settle_status res (Some e)).1 = JobStatusFailed /\
  (settle_status res (Some e)).2 = Some e.
Proof. unfold settle_status. by destruct (negb _). Qed.

Lemma terminal_supported s : IsTerminalJobStatus s = true -> IsSupportedJobStatus s = true.
Proof.
  unfold IsTerminalJobStatus, IsSupportedJobStatus. rewrite orb_true_iff.
  intros [-> | ->]; by rewrite ?orb_true_r.
Qed.

(** The running job handed to the handler. *)
Definition running_job (clk : clocks) (queued : Job) : Job :=
  set_UpdatedAt (or_now (c_started clk) (c_fallback clk))
    (set_Status JobStatusRunning (set_Attempt (Attempt queued + 1) (Clone queued))).

(** The job a completed execution reports. *)
Definition finished_job (clk : clocks) (handler : Handler) (queued : Job) : Job :=
  let running := running_job clk queued in
  let '(res, err) := handler running in
  let ended := if IsZero (h_Now res) then c_ended clk else h_Now res in
  set_maps (Headers running) (final_metadata res (Metadata running))
    (set_UpdatedAt ended (set_Status (settle_status res err).1 running)).

(** A job that may be claimed: valid, attempts left, counters in range. *)
Definition claimable (j : Job) : Prop :=
  valid_job j /\ Attempt j < MaxAttempts j /\ in_int64 (MaxAttempts j).

Lemma running_job_ok clk j : claimable j -> IsZero (c_started clk) = false ->
  WithAttemptStatus j JobStatusRunning (c_started clk) (c_fallback clk) = Ok (running_job clk j) /\
  valid_job (running_job clk j) /\ clean_job (running_job clk j).
Proof.
  intros (Hv & Ha & Hm) Ht. pose proof (vj_attempt j Hv).
  assert (valid_job (running_job clk j)) as HV.
  { unfold running_job, or_now. rewrite Ht. destruct Hv. constructor; simpl; try done; lia. }
  split_and!; [|done|apply Clone_clean].
  apply WithAttemptStatus_Ok. split; [|done]. unfold running_job.
  rewrite wrap64_id; [done|]. unfold in_int64, int64_min in *. lia.
Qed.

Lemma finished_job_ok clk handler j : claimable j -> clocks_ok clk ->
  valid_job (finished_job clk handler j) /\ clean_job (finished_job clk handler j) /\
  IsTerminalJobStatus (Status (finished_job clk handler j)) = true.
Proof.
  intros Hc [Hs He]. destruct (running_job_ok clk j Hc Hs) as (_ & HV & HC).
  unfold finished_job. destruct (handler (running_job clk j)) as [res err].
  set (r := running_job clk j) in *. clearbody r.
  pose proof (settle_status_terminal res err) as HT.
  assert (IsZero (if IsZero (h_Now res) then c_ended clk else h_Now res) = false) as HZ
    by (by destruct (IsZero (h_Now res)) eqn:E).
  split_and!; [|split; [apply HC|apply final_metadata_clean, HC]|done].
  apply ValidateJob_Ok. rewrite ValidateJob_set_maps. apply ValidateJob_Ok.
  apply valid_job_status; [done|by apply terminal_supported|done].
Qed.

(** What executing a claimable job yields. *)
Lemma execute_job_ok id clk handler j : claimable j -> clocks_ok clk ->
  execute_job id clk handler j =
    let '(res, herr) := handler (running_job clk j) in
    let err := (settle_status res herr).2 in
    let ended := if IsZero (h_Now res) then c_ended clk else h_Now res in
    (mkRunResult id true (finished_job clk handler j) (c_started clk) ended
       (time_Sub ended (c_started clk)) (match err with Some e => Error e | None => "" end), err).
Proof.
  intros Hc Hk. destruct (running_job_ok clk j Hc (proj1 Hk)) as (HW & HV & HC).
  destruct (finished_job_ok clk handler j Hc Hk) as (FV & FC & _).
  unfold execute_job. rewrite HW. rewrite (Clone_id (running_job clk j)) by done.
  unfold finished_job in *. destruct (handler (running_job clk j)) as [res herr].
  destruct (settle_status res herr) as [status err] eqn:ES.
  simpl in FV, FC |- *.
  change (set_maps (Headers _) _ _) with
    (set_maps (Headers (running_job clk j)) (final_metadata res (Metadata (running_job clk j)))
       (set_UpdatedAt (if IsZero (h_Now res) then c_ended clk else h_Now res)
          (set_Status status (running_job clk j)))).
  apply ValidateJob_Ok in FV. rewrite FV. rewrite Clone_id by done.
  by destruct err.
Qed.

Lemma finished_job_fields clk handler j :
  Attempt (finished_job clk handler j) = Attempt j + 1 /\
  ID (finished_job clk handler j) = ID j /\
  MaxAttempts (finished_job clk handler j) = MaxAttempts j /\
  Status (finished_job clk handler j) =
    (settle_status (handler (running_job clk j)).1 (handler (running_job clk j)).2).1.
Proof. unfold finished_job. by destruct (handler (running_job clk j)). Qed.

(** Executing a job without attempts left. *)
Lemma execute_job_exhausted id clk handler j :
  valid_job j -> clean_job j -> in_int64 (MaxAttempts j) -> Attempt j = MaxAttempts j ->
  exists e, execute_job id clk handler j =
    (mkRunResult id true j (c_started clk) (c_started clk) 0 (Error e), Some e).
Proof.
  intros Hv Hcl Hm Ha. unfold execute_job.
  destruct (WithAttemptStatus_exhausted j JobStatusRunning (c_started clk) (c_fallback clk) Hv Hm Ha)
    as [e ->]. exists e. by rewrite Clone_id.
Qed.

(** ** One run of a worker *)
Section WorkerTheorems.
Context {Q : Type} `{JQ : !JobQueue Q} `{!JobQueueSpec Q}.

(** Polling under a live context is the abstract pop. *)
Lemma poll_live id e q : wf q -> e_ctx e = None -> e_ctx_dequeue e = None ->
  Fifo.open (abs q) = true ->
  let '(p, q') := poll id e q in
  wf q' /\ abs q' = Fifo.mk (Fifo.cap (abs q)) (drop 1 (Fifo.items (abs q))) true /\
  p = match Fifo.items (abs q) with
      | [] => Finished (idle_result id, None)
      | j :: _ => Claimed j
      end.
Proof.
  intros Hwf H1 H2 Ho. unfold poll. rewrite H1, H2. pose proof (dequeue_spec None q Hwf) as H.
  destruct (Dequeue None q) as [r q']. destruct H as [Hwf' H]. unfold Fifo.pop in H.
  rewrite Ho in H. cbn [negb] in H. destruct (abs q) as [cap items open] eqn:EA. cbn in *.
  subst open. destruct items as [|j rest]; simplify_eq; (split; [done|]); split; done || congruence.
Qed.

(** A failed or cancelled poll leaves the queue's contents alone. *)
Lemma poll_contents id e q : wf q ->
  let '(p, q') := poll id e q in
  wf q' /\ Fifo.items (abs q) = match p with Claimed j => [j] | _ => [] end ++ Fifo.items (abs q').
Proof.
  intros Hwf. unfold poll. destruct (e_ctx e) as [err|]; [done|].
  pose proof (dequeue_spec (e_ctx_dequeue e) q Hwf) as H.
  destruct (Dequeue (e_ctx_dequeue e) q) as [r q']. destruct H as [Hwf' H].
  destruct (e_ctx_dequeue e) as [err|]; [by destruct H as [-> ->]|].
  unfold Fifo.pop in H. destruct (negb (Fifo.open (abs q))).
  { injection H as -> ->. by split. }
  destruct (Fifo.items (abs q)) as [|j rest] eqn:EI; injection H as -> Hq; rewrite Hq; by split.
Qed.
End WorkerTheorems.
