(* ===== verification/Pool.v ===== *)
(** * internal/worker/pool.go: the bounded worker pool

    [Pool.RunOnce] starts one goroutine per worker.  The only state they share
    is the queue, whose operations are atomic, so a run of the pool is an
    interleaving of two steps per worker: the poll (up to and including
    [Dequeue]) and the rest of [Worker.RunOnce].  [step] is that interleaving;
    [RunInOrder] runs the workers one after the other and is what the
    interleavings are compared with. *)
From S2P Require Import Prelude GoStrings Identity Job Queue Worker.

Record Pool := mkPool { workers : list string }.

Definition NewPool (concurrency : Z) : result Pool :=
  if concurrency <=? 0 then Err (Errorf "worker pool concurrency must be greater than zero")
  else Ok (mkPool (map (fun index => worker_id ("worker-" +:+ Itoa index)) (seqZ 1 concurrency))).

Definition Size (pool : Pool) : Z := zlen (workers pool).
Definition WorkerIDs (pool : Pool) : list string := workers pool.

Record PoolStats := mkPoolStats { st_Concurrency : Z; st_WorkerIDs : list string }.
Definition Stats (pool : Pool) : PoolStats := mkPoolStats (Size pool) (WorkerIDs pool).

Definition zero_run : RunResult * option error := (idle_result "", None).

(** The error [Pool.RunOnce] returns: the first one in worker order. *)
Definition first_error (rs : list (RunResult * option error)) : option error :=
  head (omap snd rs).

Section Interleaving.
Context {Q : Type} `{JQ : !JobQueue Q}.
(** The workers of the pool, each with what its run will observe. *)
Variable ws : list (string * RunEnv).

Record state := mkState { s_queue : Q; s_progress : list progress }.

Definition start (q : Q) : state := mkState q (replicate (length ws) Idle).

Inductive step : state -> state -> Prop :=
| step_poll s i id e p q' :
    s_progress s !! i = Some Idle -> ws !! i = Some (id, e) ->
    poll id e (s_queue s) = (p, q') ->
    step s (mkState q' (<[i := p]> (s_progress s)))
| step_finish s i id e j :
    s_progress s !! i = Some (Claimed j) -> ws !! i = Some (id, e) ->
    step s (mkState (s_queue s)
              (<[i := Finished (finish id e (Claimed j))]> (s_progress s))).

Definition is_finished (p : progress) : Prop :=
  match p with Finished _ => True | _ => False end.
Definition complete (s : state) : Prop := Forall is_finished (s_progress s).

(** Running worker [i] to completion, storing its result in its slot. *)
Definition run_worker (acc : list (RunResult * option error) * Q) (i : nat)
  : list (RunResult * option error) * Q :=
  match ws !! i with
  | Some (id, e) => let '(r, q') := RunOnce id e acc.2 in (<[i := r]> acc.1, q')
  | None => acc
  end.
Definition RunInOrder (order : list nat) (q : Q) : list (RunResult * option error) * Q :=
  fold_left run_worker order (replicate (length ws) zero_run, q).

(** [Pool.RunOnce], once the goroutines have polled in the order [order]. *)
Definition PoolRunOnce (order : list nat) (q : Q)
  : (list RunResult * option error) * Q :=
  let '(rs, q') := RunInOrder order q in ((rs.*1, first_error rs), q').

(** ** Interleavings are sequential runs *)

Lemma poll_not_idle id e q : (poll id e q).1 <> Idle.
Proof.
  unfold poll. destruct (e_ctx e); [done|]. by destruct (Dequeue _ _) as [[[?|]|?] ?].
Qed.

Lemma RunInOrder_snoc order i q : RunInOrder (order ++ [i]) q = run_worker (RunInOrder order q) i.
Proof. unfold RunInOrder. by rewrite fold_left_app. Qed.

Lemma RunInOrder_length order q : length (RunInOrder order q).1 = length ws.
Proof.
  induction order as [|i order IH] using rev_ind; [apply length_replicate|].
  rewrite RunInOrder_snoc. unfold run_worker. destruct (ws !! i) as [[id e]|]; [|done].
  destruct (RunOnce id e _). simpl. by rewrite length_insert.
Qed.

(** [order] lists the workers that have polled, in that order. *)
Definition explains (order : list nat) (q : Q) (s : state) : Prop :=
  NoDup order /\ Forall (fun i => (i < length ws)%nat) order /\ length (s_progress s) = length ws /\ s_queue s = (RunInOrder order q).2 /\
  forall i id e p, ws !! i = Some (id, e) -> s_progress s !! i = Some p ->
    if decide (i ∈ order) then p <> Idle /\ (RunInOrder order q).1 !! i = Some (finish id e p)
    else p = Idle.

Lemma start_explained q : explains [] q (start q).
Proof.
  split_and!; [constructor|constructor|apply length_replicate|done|].
  intros i id e p _ Hp. simpl in Hp. by apply lookup_replicate in Hp as [-> _].
Qed.

Lemma poll_explained order q s i id e p q' :
  explains order q s -> s_progress s !! i = Some Idle -> ws !! i = Some (id, e) ->
  poll id e (s_queue s) = (p, q') ->
  explains (order ++ [i]) q (mkState q' (<[i := p]> (s_progress s))).
Proof.
  intros (HN & HB & HL & HQ & HP) Hi Hw Hpoll.
  assert (i ∉ order) as Hni.
  { intros Hin. specialize (HP i id e Idle Hw Hi). rewrite decide_True in HP by done. naive_solver. }
  pose proof (poll_not_idle id e (s_queue s)) as Hne. rewrite Hpoll in Hne.
  assert (run_worker (RunInOrder order q) i = (<[i := finish id e p]> (RunInOrder order q).1, q')) as HR.
  { unfold run_worker, RunOnce. by rewrite Hw, <- HQ, Hpoll. }
  unfold explains. rewrite RunInOrder_snoc, HR. simpl. split_and!.
  - apply NoDup_app. split_and!; [done| |apply NoDup_singleton]. intros k Hk Hk'%list_elem_of_singleton.
    by subst k.
  - apply Forall_snoc. split; [done|by eapply lookup_lt_Some].
  - by rewrite length_insert.
  - done.
  - intros k id' e' p' Hw' Hp'. destruct (decide (k = i)) as [->|Hki].
    + rewrite Hw in Hw'. injection Hw' as <- <-. rewrite decide_True by set_solver.
      rewrite list_lookup_insert_eq in Hp' by (by eapply lookup_lt_Some). injection Hp' as <-.
      split; [done|]. rewrite list_lookup_insert_eq; [done|].
      rewrite RunInOrder_length. by eapply lookup_lt_Some.
    + rewrite list_lookup_insert_ne in Hp' by done. specialize (HP k id' e' p' Hw' Hp').
      destruct (decide (k ∈ order)).
      * rewrite decide_True by set_solver. by rewrite list_lookup_insert_ne.
      * by rewrite decide_False by set_solver.
Qed.

Lemma finish_explained order q s i id e j :
  explains order q s -> s_progress s !! i = Some (Claimed j) -> ws !! i = Some (id, e) ->
  explains order q (mkState (s_queue s) (<[i := Finished (finish id e (Claimed j))]> (s_progress s))).
Proof.
  intros (HN & HB & HL & HQ & HP) Hi Hw. split_and!; simpl; [done|done|by rewrite length_insert|done|].
  intros k id' e' p' Hw' Hp'. destruct (decide (k = i)) as [->|Hki].
  - rewrite Hw in Hw'. injection Hw' as <- <-.
    rewrite list_lookup_insert_eq in Hp' by (by eapply lookup_lt_Some). injection Hp' as <-.
    specialize (HP i id e _ Hw Hi). destruct (decide (i ∈ order)); [|done].
    by destruct HP as [_ ->].
  - rewrite list_lookup_insert_ne in Hp' by done. by apply (HP k id' e' p').
Qed.

Lemma reachable_explained q s : rtc step (start q) s -> exists order, explains order q s.
Proof.
  revert s. apply rtc_ind_r.
  - exists []. apply start_explained.
  - intros s s' _ Hs [order IH]. destruct Hs.
    + exists (order ++ [i]). by eapply poll_explained.
    + exists order. by eapply finish_explained.
Qed.

(** In a complete state every worker has polled. *)
Lemma complete_order order q s : explains order q s -> complete s -> order ≡ₚ seq 0 (length ws) /\
  s_progress s = map Finished (RunInOrder order q).1.
Proof.
  intros (HN & HB & HL & HQ & HP) HC.
  assert (forall i id e, ws !! i = Some (id, e) -> exists r,
    s_progress s !! i = Some (Finished r) /\ i ∈ order /\ (RunInOrder order q).1 !! i = Some r) as H.
  { intros i id e Hw. destruct (lookup_lt_is_Some_2 (s_progress s) i) as [p Hp].
    { rewrite HL. by eapply lookup_lt_Some. }
    pose proof (HP i id e p Hw Hp) as HPi.
    apply (Forall_lookup_1 _ _ _ _ HC) in Hp as Hf. destruct p as [| |r]; try done. exists r.
    destruct (decide (i ∈ order)); [|done]. destruct HPi as [_ ->]. done. }
  split.
  - apply NoDup_Permutation; [done|apply NoDup_seq|]. intros i. rewrite elem_of_seq. split.
    + intros Hi. rewrite Forall_forall in HB. specialize (HB i Hi). lia.
    + intros Hi. destruct (lookup_lt_is_Some_2 ws i) as [[id e] Hw]; [lia|].
      by destruct (H i id e Hw) as (r & _ & ? & _).
  - apply list_eq. intros i. destruct (ws !! i) as [[id e]|] eqn:Hw.
    + destruct (H i id e Hw) as (r & -> & _ & Hr).
      change (map Finished) with (fmap (M:=list) Finished). by rewrite list_lookup_fmap, Hr.
    + apply lookup_ge_None in Hw. rewrite !lookup_ge_None_2; [done| |by rewrite HL].
      by rewrite length_map, RunInOrder_length.
Qed.
End Interleaving.

Arguments step {_ _} _ _ _.
Arguments start {_} _ _.
Arguments complete {_} _.

(** ** Termination *)
Section Progress.
Context {Q : Type} `{JQ : !JobQueue Q}.
Variable ws : list (string * RunEnv).

(** The number of steps a worker still has to make at most. *)
Definition remaining (p : progress) : Z :=
  match p with Idle => 2 | Claimed _ => 1 | Finished _ => 0 end.

Lemma step_remaining (s s' : state (Q:=Q)) : step ws s s' ->
  zsum remaining (s_progress s') < zsum remaining (s_progress s) /\
  length (s_progress s') = length (s_progress s).
Proof.
  destruct 1 as [s i id e p q' Hi _ Hp|s i id e j Hi _]; simpl;
    rewrite (zsum_insert _ _ _ _ _ Hi), length_insert; (split; [|done]); [|simpl; lia].
  pose proof (poll_not_idle id e (s_queue s)) as H. rewrite Hp in H. destruct p; simpl in *; [done|lia|lia].
Qed.

Lemma steps_bounded n (s s' : state (Q:=Q)) : nsteps (step ws) n s s' ->
  Z.of_nat n + zsum remaining (s_progress s') <= zsum remaining (s_progress s) /\
  length (s_progress s') = length (s_progress s).
Proof.
  induction 1 as [s|n s1 s2 s3 H12 _ IH]; [lia|]. pose proof (step_remaining _ _ H12). lia.
Qed.

Lemma remaining_nonneg l : 0 <= zsum remaining l.
Proof. apply zsum_nonneg, Forall_true. by intros []. Qed.

Lemma start_remaining (q : Q) : zsum remaining (s_progress (start ws q)) = 2 * zlen ws.
Proof. unfold start, zlen. simpl. induction ws; simpl; [done|]. rewrite IHl. lia. Qed.

(** A pool that is not complete can make a step. *)
Lemma step_or_complete (s : state (Q:=Q)) : length (s_progress s) = length ws ->
  complete s \/ exists s', step ws s s'.
Proof.
  intros HL. destruct (decide (Exists (fun p => remaining p <> 0) (s_progress s))) as [HE|HE].
  - right. apply Exists_exists in HE as (p & [i Hi]%list_elem_of_lookup & Hp).
    destruct (lookup_lt_is_Some_2 ws i) as [[id e] Hw].
    { rewrite <- HL. by eapply lookup_lt_Some. }
    destruct p as [|j|r]; [| |done].
    + destruct (poll id e (s_queue s)) as [p q'] eqn:Hpoll. eexists. by eapply step_poll.
    + eexists. by eapply step_finish.
  - left. apply not_Exists_Forall in HE; [|apply _]. eapply Forall_impl; [exact HE|].
    intros []; simpl; lia || done.
Qed.
End Progress.

(** ** A pool over a live, open queue *)
Section Live.
Context {Q : Type} `{JQ : !JobQueue Q} `{!JobQueueSpec Q}.
Variable ws : list (string * RunEnv).

Definition live (w : string * RunEnv) : Prop := e_ctx w.2 = None /\ e_ctx_dequeue w.2 = None.
Hypothesis ws_live : Forall live ws.

(** What a worker reports for the job it got, if any. *)
Definition report (id : string) (e : RunEnv) (o : option Job) : RunResult * option error :=
  match o with
  | Some j => execute_job id (e_clocks e) (e_handler e) j
  | None => (idle_result id, None)
  end.

Lemma RunOnce_live id e q : wf q -> live (id, e) -> Fifo.open (abs q) = true ->
  let '(r, q') := RunOnce id e q in
  wf q' /\ abs q' = Fifo.mk (Fifo.cap (abs q)) (drop 1 (Fifo.items (abs q))) true /\
  r = report id e (head (Fifo.items (abs q))).
Proof.
  intros Hwf [H1 H2] Ho. unfold RunOnce. pose proof (poll_live id e q Hwf H1 H2 Ho) as HP.
  destruct (poll id e q) as [p q']. destruct HP as (Hwf' & HA & ->). split_and!; [done|done|].
  by destruct (Fifo.items (abs q)).
Qed.

Lemma RunInOrder_live order q : wf q -> Fifo.open (abs q) = true ->
  NoDup order -> Forall (fun i => (i < length ws)%nat) order ->
  let '(rs, q') := RunInOrder ws order q in
  wf q' /\ abs q' = Fifo.mk (Fifo.cap (abs q)) (drop (length order) (Fifo.items (abs q))) true /\
  forall k i id e, order !! k = Some i -> ws !! i = Some (id, e) ->
    rs !! i = Some (report id e (Fifo.items (abs q) !! k)).
Proof.
  intros Hwf Ho. induction order as [|i order IH] using rev_ind; intros HN HB.
  { simpl. split_and!; [done| |done]. destruct (abs q). simpl in *. by subst. }
  apply NoDup_app in HN as (HN & Hdis & _). apply Forall_snoc in HB as [HB Hi].
  specialize (IH HN HB). rewrite RunInOrder_snoc. pose proof (RunInOrder_length ws order q) as HL.
  destruct (RunInOrder ws order q) as [rs q1]. destruct IH as (Hwf1 & HA1 & HR). simpl in HL.
  destruct (lookup_lt_is_Some_2 ws i Hi) as [[id e] Hw]. unfold run_worker. rewrite Hw. cbn [snd].
  assert (live (id, e)) as Hlive by (by eapply (Forall_lookup_1 _ _ _ _ ws_live)).
  pose proof (RunOnce_live id e q1 Hwf1 Hlive) as H1. rewrite HA1 in H1. specialize (H1 eq_refl).
  destruct (RunOnce id e q1) as [r q2]. destruct H1 as (Hwf2 & HA2 & ->). cbn in HA2. split_and!; [done| |].
  - rewrite HA2, drop_drop, length_app. done.
  - intros k i' id' e' Hk Hw'. cbn [fst]. apply lookup_snoc_Some in Hk as [[Hlt Hk]|[-> <-]].
    + rewrite list_lookup_insert_ne; [by apply HR|]. intros <-.
      apply (Hdis i); [by eapply list_elem_of_lookup_2|by apply list_elem_of_singleton].
    + rewrite Hw in Hw'. injection Hw' as <- <-. rewrite list_lookup_insert_eq by (by rewrite HL).
      cbn [Fifo.items]. by rewrite head_lookup, lookup_drop, Nat.add_0_r.
Qed.
End Live.

(** ** Properties *)

(** One run of a worker on a live, open queue whose first job still has
    attempts takes that job off the queue and reports it executed, valid, in a
    terminal status and with exactly one more attempt consumed; an error of the
    handler is returned and makes the job failed. *)
Theorem RunOnce_executes {Q} `{JobQueueSpec Q} id e q j rest :
  wf q -> live (id, e) -> Fifo.open (abs q) = true -> clocks_ok (e_clocks e) ->
  Fifo.items (abs q) = j :: rest -> Attempt j < MaxAttempts j -> in_int64 (MaxAttempts j) ->
  let '((r, err), q') := RunOnce id e q in
  Fifo.items (abs q') = rest /\ Executed r = true /\ ValidateJob (ResultJob r) = Ok tt /\
  IsTerminalJobStatus (Status (ResultJob r)) = true /\ Attempt (ResultJob r) = Attempt j + 1 /\
  ID (ResultJob r) = ID j /\ MaxAttempts (ResultJob r) = MaxAttempts j /\
  (forall herr, (e_handler e (running_job (e_clocks e) j)).2 = Some herr ->
     err = Some herr /\ Status (ResultJob r) = JobStatusFailed).
Proof.
  intros Hwf Hl Ho Hk HI Ha Hm. destruct (contents_wf q Hwf) as [_ HF]. rewrite HI in HF.
  apply Forall_cons in HF as [(Hv & _) _].
  assert (claimable j) as Hc by done.
  pose proof (RunOnce_live id e q Hwf Hl Ho) as HR. rewrite HI in HR.
  destruct (RunOnce id e q) as [r q']. destruct HR as (_ & HA & ->). cbn [head report].
  rewrite (execute_job_ok id (e_clocks e) (e_handler e) j Hc Hk).
  destruct (finished_job_ok (e_clocks e) (e_handler e) j Hc Hk) as (FV & _ & FT).
  apply ValidateJob_Ok in FV.
  destruct (finished_job_fields (e_clocks e) (e_handler e) j) as (E1 & E2 & E3 & E4).
  destruct (e_handler e (running_job (e_clocks e) j)) as [res herr].
  cbn [ResultJob Executed]. rewrite HA. cbn [Fifo.items drop]. rewrite drop_0. split_and!; try done.
  intros herr' [= ->]. cbn [fst snd] in E4. destruct (settle_status_failed res herr') as [E5 E6].
  by rewrite E4, E5, E6.
Qed.

(** A job whose attempts are used up is refused by the worker that claims
    it: the handler does not run, an error is returned, the reported job is the
    queued one unchanged, and the queue no longer holds it. *)
Theorem RunOnce_exhausted {Q} `{JobQueueSpec Q} id e q j rest :
  wf q -> live (id, e) -> Fifo.open (abs q) = true ->
  Fifo.items (abs q) = j :: rest -> Attempt j = MaxAttempts j -> in_int64 (MaxAttempts j) ->
  let '((r, err), q') := RunOnce id e q in
  Fifo.items (abs q') = rest /\ Executed r = true /\ ResultJob r = j /\
  exists msg, err = Some msg /\ RunError r = Error msg.
Proof.
  intros Hwf Hl Ho HI Ha Hm. destruct (contents_wf q Hwf) as [_ HF]. rewrite HI in HF.
  apply Forall_cons in HF as [(Hv & _ & Hcl) _].
  pose proof (RunOnce_live id e q Hwf Hl Ho) as HR. rewrite HI in HR.
  destruct (RunOnce id e q) as [r q']. destruct HR as (_ & HA & ->). cbn [head report].
  destruct (execute_job_exhausted id (e_clocks e) (e_handler e) j Hv Hcl Hm Ha) as [err ->].
  rewrite HA. cbn [Fifo.items drop]. rewrite drop_0. split_and!; eauto.
Qed.

(** C29: a run of the pool is linearizable: however the goroutines interleave, a
    complete run leaves the queue and the per-worker results as running the
    workers one after the other in some order does. *)
Theorem pool_linearizable {Q} `{JobQueue Q} ws (q : Q) s :
  rtc (step ws) (start ws q) s -> complete s ->
  exists order, order ≡ₚ seq 0 (length ws) /\
    s_progress s = map Finished (RunInOrder ws order q).1 /\ s_queue s = (RunInOrder ws order q).2.
Proof.
  intros HR HC. destruct (reachable_explained ws q s HR) as [order HE]. exists order.
  destruct (complete_order ws order q s HE HC) as [HP HS]. split_and!; [done|done|apply HE].
Qed.

(** A run of the pool ends: an interleaving has at most two steps per worker,
    and one that cannot go on is complete. *)
Theorem pool_terminates {Q} `{JobQueue Q} ws (q : Q) n s :
  nsteps (step ws) n (start ws q) s ->
  Z.of_nat n <= 2 * zlen ws /\ ((forall s', ~ step ws s s') -> complete s).
Proof.
  intros Hn. destruct (steps_bounded ws n _ s Hn) as [HB HL]. rewrite start_remaining in HB.
  pose proof (remaining_nonneg (s_progress s)). split; [lia|]. intros Hstuck.
  destruct (step_or_complete ws s) as [|[s' Hs]]; [|done|by destruct (Hstuck s')].
  rewrite HL. unfold start. simpl. apply length_replicate.
Qed.

(** Over a live, open queue the workers of the pool take the first jobs of
    the queue, each job by exactly one worker: in a complete run the queue has
    lost as many jobs from its front as there are workers, and the [k]-th worker
    to poll reports on the [k]-th job, or nothing when there is none. *)
Theorem pool_claims_front {Q} `{JobQueueSpec Q} ws (q : Q) s :
  Forall live ws -> wf q -> Fifo.open (abs q) = true ->
  rtc (step ws) (start ws q) s -> complete s ->
  abs (s_queue s) = Fifo.mk (Fifo.cap (abs q)) (drop (length ws) (Fifo.items (abs q))) true /\
  exists order, order ≡ₚ seq 0 (length ws) /\
    forall k i id e, order !! k = Some i -> ws !! i = Some (id, e) ->
      s_progress s !! i = Some (Finished (report id e (Fifo.items (abs q) !! k))).
Proof.
  intros Hl Hwf Ho HR HC. destruct (reachable_explained ws q s HR) as [order HE].
  destruct (complete_order ws order q s HE HC) as [HP HS]. destruct HE as (HN & HB & _ & HQ & _).
  pose proof (RunInOrder_live ws Hl order q Hwf Ho HN HB) as HL.
  rewrite HQ. destruct (RunInOrder ws order q) as [rs q']. destruct HL as (_ & HA & HK). split.
  - cbn [snd]. by rewrite HA, HP, length_seq.
  - exists order. split; [done|]. intros k i id e Hk Hw. rewrite HS. cbn [fst].
    change (map Finished) with (fmap (M:=list) Finished). by rewrite list_lookup_fmap, (HK k i id e).
Qed.

(** *** Witnesses: three workers on a queue of two jobs, the handler fails on the
    second worker. *)
Import Memory.

Definition sample_queued : Job := queued_form 7 sample_job.
Definition exhausted_job : Job := set_Attempt 3 sample_queued.
Definition sample_memory : MemoryQueue := mkMemoryQueue 5 [sample_queued; sample_queued] false.
Definition failing_handler : Handler := fun _ => (mkHandlerResult "" "" ∅ 0, Some (Errorf "boom")).
Definition sample_env (h : Handler) : RunEnv := mkRunEnv None None (mkClocks 10 20 30) h.
Definition sample_workers : list (string * RunEnv) :=
  [("worker-1", sample_env NoopHandler); ("worker-2", sample_env failing_handler);
   ("worker-3", sample_env NoopHandler)].

Lemma sample_queued_ok : stored_ok sample_queued.
Proof. apply queued_form_stored; [exact sample_job_valid|done]. Qed.

Lemma sample_memory_wf : Queue.wf sample_memory.
Proof.
  split_and!; [reflexivity|vm_compute; discriminate|].
  constructor; [apply sample_queued_ok|constructor; [apply sample_queued_ok|constructor]].
Qed.

Lemma sample_live : Forall live sample_workers.
Proof. repeat constructor. Qed.

(** Worker 2 polls first and finishes last. *)
Definition sample_final : state :=
  let '(rs, q') := RunInOrder sample_workers [1; 0; 2]%nat sample_memory in
  mkState q' (map Finished rs).

Lemma sample_run : nsteps (step sample_workers) 5 (start sample_workers sample_memory) sample_final.
Proof.
  eapply nsteps_l; [eapply (step_poll _ _ 1%nat); [vm_compute; reflexivity..]|].
  eapply nsteps_l; [eapply (step_poll _ _ 0%nat); [vm_compute; reflexivity..]|].
  eapply nsteps_l; [eapply (step_finish _ _ 0%nat); [vm_compute; reflexivity..]|].
  eapply nsteps_l; [eapply (step_poll _ _ 2%nat); [vm_compute; reflexivity..]|].
  eapply nsteps_l; [eapply (step_finish _ _ 1%nat); [vm_compute; reflexivity..]|].
  match goal with |- nsteps _ _ ?a ?b => replace a with b by (vm_compute; reflexivity) end.
  constructor.
Qed.

Lemma sample_complete : complete sample_final.
Proof. vm_compute. repeat constructor. Qed.

Lemma RunOnce_executes_witness :
  let '((r, err), q') := RunOnce "worker-2" (sample_env failing_handler) sample_memory in
  err = Some (Errorf "boom") /\ Status (ResultJob r) = JobStatusFailed.
Proof.
  pose proof (RunOnce_executes "worker-2" (sample_env failing_handler) sample_memory sample_queued
    [sample_queued] sample_memory_wf (conj eq_refl eq_refl) eq_refl (conj eq_refl eq_refl) eq_refl
    eq_refl) as H.
  destruct (RunOnce _ _ sample_memory) as [[r err] q'].
  destruct H as (_ & _ & _ & _ & _ & _ & _ & H); [split; vm_compute; discriminate|].
  exact (H _ eq_refl).
Defined.

Definition exhausted_memory : MemoryQueue := mkMemoryQueue 1 [exhausted_job] false.

Lemma exhausted_memory_wf : Queue.wf exhausted_memory.
Proof.
  split_and!; [reflexivity|vm_compute; discriminate|]. apply Forall_singleton.
  destruct sample_queued_ok as ([] & _ & Hc). split_and!; [|reflexivity|exact Hc].
  constructor; assumption || (cbn; lia).
Qed.

Lemma RunOnce_exhausted_witness :
  let '((r, err), q') := RunOnce "worker-1" (sample_env NoopHandler) exhausted_memory in
  Fifo.items (Queue.abs q') = [] /\ ResultJob r = exhausted_job.
Proof.
  pose proof (RunOnce_exhausted "worker-1" (sample_env NoopHandler) exhausted_memory exhausted_job
    [] exhausted_memory_wf (conj eq_refl eq_refl) eq_refl eq_refl eq_refl) as H.
  destruct (RunOnce _ _ exhausted_memory) as [[r err] q'].
  destruct H as (H1 & _ & H2 & _); [split; vm_compute; discriminate|]. split; [exact H1|exact H2].
Defined.

Lemma pool_linearizable_witness : exists order, order ≡ₚ seq 0 3 /\
  s_queue sample_final = (RunInOrder sample_workers order sample_memory).2.
Proof.
  destruct (pool_linearizable sample_workers sample_memory sample_final) as (order & H1 & _ & H2).
  - eapply rtc_nsteps_2, sample_run.
  - exact sample_complete.
  - exists order. split; [exact H1|exact H2].
Defined.

Lemma pool_terminates_witness : 5 <= 2 * zlen sample_workers.
Proof. exact (proj1 (pool_terminates sample_workers sample_memory 5 sample_final sample_run)). Defined.

Lemma pool_claims_front_witness :
  Fifo.items (Queue.abs (s_queue sample_final)) = drop 3 [sample_queued; sample_queued].
Proof.
  destruct (pool_claims_front sample_workers sample_memory sample_final sample_live sample_memory_wf eq_refl)
    as [H _]; [eapply rtc_nsteps_2, sample_run|exact sample_complete|].
  rewrite H. reflexivity.
Defined.
