(* ===== verification/Heartbeat.v ===== *)
(** * Heartbeats, ticks and build information

    internal/heartbeat/heartbeat.go, internal/scheduler/scheduler.go and
    internal/runtime/version.go. *)
From S2P Require Import Prelude GoStrings GoTime GoRFC3339 GoFS DocStore Identity IdentityStore Pool.
Import Uuid.

(** ** runtime/version.go *)
Record VersionInfo := mkVersionInfo { v_Name : string; v_Version : string; v_Status : string }.
Definition runtime_Info : VersionInfo := mkVersionInfo "auren-transfer-agent" "v1.13.1" "production/ready".
Definition VersionString (info : VersionInfo) : string :=
  v_Name info +:+ " " +:+ v_Version info +:+ " (" +:+ v_Status info +:+ ")".

(** ** heartbeat/heartbeat.go *)
Definition StatusIdle : string := "idle".
Record QueueStats := mkQueueStats { qs_Driver : string; qs_Length : Z; qs_Capacity : Z }.

Record HeartbeatInput := mkHeartbeatInput {
  hi_Identity : IdentitySnapshot; hi_Version : VersionInfo; hi_Status : string; hi_GeneratedAt : Time;
  hi_Interval : Duration; hi_WorkerEnabled : bool; hi_PoolStats : PoolStats; hi_QueueStats : QueueStats
}.
Record HeartbeatRecord := mkHeartbeatRecord {
  hb_AgentID : string; hb_Fingerprint : string; hb_FingerprintAlgorithm : string; hb_Hostname : string;
  hb_Version : string; hb_RuntimeStatus : string; hb_Status : string; hb_GeneratedAt : Time; hb_Interval : string;
  hb_WorkerEnabled : bool; hb_WorkerConcurrency : Z; hb_WorkerIDs : list string; hb_Queue : QueueStats
}.

Definition ValidateHeartbeat (record : HeartbeatRecord) : result unit :=
  match ValidateUUID (hb_AgentID record) with
  | Err e => Err (Wrapf ("heartbeat agent_id: " +:+ Error e) e)
  | Ok _ =>
    match Fingerprint.ValidateFingerprint (hb_Fingerprint record) with
    | Err e => Err (Wrapf ("heartbeat fingerprint: " +:+ Error e) e)
    | Ok _ =>
      if negb (String.eqb (hb_FingerprintAlgorithm record) Fingerprint.FingerprintAlgorithm)
      then Err (Errorf ("heartbeat fingerprint_algorithm must be " +:+ Fingerprint.FingerprintAlgorithm)) else
      if String.eqb (hb_Hostname record) "" then Err (Errorf "heartbeat hostname is required") else
      if String.eqb (hb_Version record) "" then Err (Errorf "heartbeat version is required") else
      if String.eqb (hb_RuntimeStatus record) "" then Err (Errorf "heartbeat runtime_status is required") else
      if String.eqb (hb_Status record) "" then Err (Errorf "heartbeat status is required") else
      if IsZero (hb_GeneratedAt record) then Err (Errorf "heartbeat generated_at is required") else
      if hb_WorkerConcurrency record <? 0
      then Err (Errorf "heartbeat worker_concurrency must be zero or greater") else
      if (qs_Length (hb_Queue record) <? 0) || (qs_Capacity (hb_Queue record) <? 0)
      then Err (Errorf "heartbeat queue length and capacity must be zero or greater") else Ok tt
    end
  end.

(** [clock] is the reading made when no time is given. *)
Definition NewHeartbeat (input : HeartbeatInput) (clock : Time) : result HeartbeatRecord :=
  let status := if String.eqb (hi_Status input) "" then StatusIdle else hi_Status input in
  let version := if String.eqb (v_Version (hi_Version input)) "" then runtime_Info else hi_Version input in
  let id := hi_Identity input in
  let record := mkHeartbeatRecord (id_AgentID id) (id_Fingerprint id) (id_FingerprintAlgorithm id) (id_Hostname id)
    (v_Version version) (v_Status version) status (or_now (hi_GeneratedAt input) clock)
    (DurationString (hi_Interval input)) (hi_WorkerEnabled input) (st_Concurrency (hi_PoolStats input))
    (st_WorkerIDs (hi_PoolStats input)) (hi_QueueStats input) in
  _ ← ValidateHeartbeat record; Ok record.

(** ** scheduler/scheduler.go *)
Record RunResult := mkRunResult { rn_StartedAt : Time; rn_EndedAt : Time; rn_Duration : Duration; rn_Error : string }.

Definition NewFixedInterval (interval : Duration) (has_task : bool) : result Duration :=
  if interval <=? 0 then Err (Errorf "scheduler interval must be greater than zero") else
  if negb has_task then Err (Errorf "scheduler task cannot be nil") else Ok interval.

(** [RunOnce] of a task that acts on a state: its error, and the clock before and after. *)
Definition SchedulerRunOnce {S} (task : S -> option error * S) (started ended : Time) (s : S) : RunResult * S :=
  let '(err, s') := task s in
  (mkRunResult started ended (time_Sub ended started) (from_option Error "" err), s').

(** [Start]: the goroutine runs the task at a tick and sends the result on a channel of
    capacity one, which blocks while the channel is full; it looks at the context only
    between two sends, and closes the channel when it returns.  [sc_runs] are the
    results produced so far, [sc_received] those the reader took. *)
Record sched := mkSched {
  sc_buffer : list RunResult; sc_pending : option RunResult; sc_cancelled : bool; sc_closed : bool;
  sc_received : list RunResult; sc_runs : list RunResult
}.
Definition sched_start : sched := mkSched [] None false false [] [].

Inductive sched_event := tick | send | receive | cancel | exit.
Inductive sched_step : sched_event -> sched -> sched -> Prop :=
| sched_tick result c rec runs buf :
    sched_step tick (mkSched buf None c false rec runs) (mkSched buf (Some result) c false rec (runs ++ [result]))
| sched_send result c rec runs :
    sched_step send (mkSched [] (Some result) c false rec runs) (mkSched [result] None c false rec runs)
| sched_receive result p c cl rec runs :
    sched_step receive (mkSched [result] p c cl rec runs) (mkSched [] p c cl (rec ++ [result]) runs)
| sched_cancel buf p c cl rec runs :
    sched_step cancel (mkSched buf p c cl rec runs) (mkSched buf p true cl rec runs)
| sched_exit buf rec runs :
    sched_step exit (mkSched buf None true false rec runs) (mkSched buf None true true rec runs).

Inductive sched_run : list sched_event -> sched -> sched -> Prop :=
| sched_nil s : sched_run [] s s
| sched_cons e es s s' s'' : sched_step e s s' -> sched_run es s' s'' -> sched_run (e :: es) s s''.

(** The reader gets the results of the runs in order, none lost or repeated: what it has
    not taken yet is in the channel or about to be sent; when the channel is closed all
    is in the channel. *)
Theorem scheduler_delivers es s : sched_run es sched_start s ->
  sc_runs s = sc_received s ++ sc_buffer s ++ option_list (sc_pending s) /\
  (length (sc_buffer s) <= 1)%nat /\ (sc_closed s = true -> sc_cancelled s = true /\ sc_pending s = None).
Proof.
  enough (forall a b, sched_run es a b ->
    sc_runs a = sc_received a ++ sc_buffer a ++ option_list (sc_pending a) /\
    (length (sc_buffer a) <= 1)%nat /\ (sc_closed a = true -> sc_cancelled a = true /\ sc_pending a = None) ->
    sc_runs b = sc_received b ++ sc_buffer b ++ option_list (sc_pending b) /\
    (length (sc_buffer b) <= 1)%nat /\ (sc_closed b = true -> sc_cancelled b = true /\ sc_pending b = None)) as H.
  { intros HR. apply (H _ _ HR). simpl. split_and!; [done|lia|done]. }
  intros a b HR. induction HR as [|e es s1 s2 s3 Hs _ IH]; [done|]. intros Inv. apply IH.
  destruct Hs; cbn in *; destruct Inv as (-> & HL & HC); split_and!; try done; try lia; try (simpl; lia).
  - by rewrite app_nil_r, <- app_assoc.
  - by rewrite <- app_assoc.
  - intros Hc. by destruct (HC Hc).
Qed.

(** The agent can always report: for an identity that was read from the store and any
    host, a running pool and a queue that counts, the heartbeat is accepted, whatever
    status, version and time the caller leaves out. *)
Theorem NewHeartbeat_total stored provider snapshot input clock :
  ValidateRecord (res_Record stored) = Ok tt ->
  NewIdentitySnapshot stored (Hostname.ResolveHostnameWith provider) = Ok snapshot ->
  hi_Identity input = snapshot -> (v_Version (hi_Version input) = "" \/ v_Status (hi_Version input) <> "") ->
  clock <> 0 -> 0 <= st_Concurrency (hi_PoolStats input) ->
  0 <= qs_Length (hi_QueueStats input) -> 0 <= qs_Capacity (hi_QueueStats input) ->
  exists record, NewHeartbeat input clock = Ok record /\ ValidateHeartbeat record = Ok tt /\
    hb_AgentID record = rec_AgentID (res_Record stored) /\ hb_Queue record = hi_QueueStats input.
Proof.
  intros HV HS <- Hver Hc H1 H2 H3. unfold NewIdentitySnapshot in HS. rewrite HV in HS. cbn [mbind result_bind] in HS.
  destruct (Hostname.ValidateHostname _) as [[]|] eqn:EH; [|done].
  destruct (String.eqb _ ""); [done|]. apply bind_Ok in HS as (f & Hf & [= HS]).
  destruct (Fingerprint.NewFingerprint_valid (rec_AgentID (res_Record stored))
    (Hostname.Normalized (Hostname.ResolveHostnameWith provider))) as (_ & HF & _). apply HF in Hf. clear HF.
  assert (ValidateUUID (rec_AgentID (res_Record stored)) = Ok tt) as HU.
  { unfold ValidateRecord in HV. destruct (negb _); [done|]. by destruct (ValidateUUID _) as [[]|]. }
  assert (Hostname.Normalized (Hostname.ResolveHostnameWith provider) <> "") as Hn.
  { intros E. by rewrite E in EH. }
  unfold NewHeartbeat. rewrite <- HS.
  cbn [id_AgentID id_Fingerprint id_FingerprintAlgorithm id_Hostname].
  set (status := if String.eqb (hi_Status input) "" then _ else _).
  set (version := if String.eqb (v_Version (hi_Version input)) "" then _ else _).
  assert (status <> "") as Hs by (unfold status; by destruct (String.eqb_spec (hi_Status input) "")).
  assert (v_Version version <> "" /\ v_Status version <> "") as [Hv1 Hv2].
  { unfold version. destruct (String.eqb_spec (v_Version (hi_Version input)) ""); [done|]. by destruct Hver. }
  assert (IsZero (or_now (hi_GeneratedAt input) clock) = false) as Hz by (apply IsZero_or_now; unfold IsZero; lia).
  set (record := mkHeartbeatRecord _ _ _ _ _ _ _ _ _ _ _ _ _).
  assert (ValidateHeartbeat record = Ok tt) as HR.
  { unfold ValidateHeartbeat, record. cbn [hb_AgentID hb_Fingerprint hb_FingerprintAlgorithm hb_Hostname hb_Version
      hb_RuntimeStatus hb_Status hb_GeneratedAt hb_WorkerConcurrency hb_Queue].
    rewrite HU, Hf. rewrite String.eqb_refl. cbn [negb]. rewrite !(proj2 (String.eqb_neq _ _)) by done. rewrite Hz.
    replace (st_Concurrency (hi_PoolStats input) <? 0) with false by lia.
    by replace ((qs_Length (hi_QueueStats input) <? 0) || (qs_Capacity (hi_QueueStats input) <? 0)) with false by lia. }
  rewrite HR. cbn [mbind result_bind]. eexists. split; [done|]. split; [exact HR|]. done.
Qed.

(** A reader that stops reading keeps the goroutine forever: with the channel full and a
    result to send, cancelling the context ends nothing. *)
Theorem scheduler_stuck_without_reader es s s' : sched_run es s s' -> receive ∉ es ->
  sc_buffer s <> [] -> is_Some (sc_pending s) -> sc_closed s = false -> sc_closed s' = false /\ sc_runs s' = sc_runs s.
Proof.
  intros HR. induction HR as [|e es s1 s2 s3 Hs _ IH]; intros Hes Hb Hp Hc; [done|].
  assert (e <> receive /\ receive ∉ es) as [He Hes'] by set_solver.
  destruct Hs; cbn in *; try done; try (destruct Hp; discriminate). by apply IH.
Qed.

(** ** Examples *)
Definition run_of (t : Time) : RunResult := mkRunResult t (t + 1) 1 "".
Definition delivered : sched := mkSched [run_of 2] None true true [run_of 1] [run_of 1; run_of 2].

Lemma scheduler_delivers_witness :
  sched_run [tick; send; receive; tick; send; cancel; exit] sched_start delivered /\
  sc_runs delivered = sc_received delivered ++ sc_buffer delivered ++ option_list (sc_pending delivered).
Proof.
  assert (sched_run [tick; send; receive; tick; send; cancel; exit] sched_start delivered) as H.
  { do 7 (eapply sched_cons; [constructor|]). apply sched_nil. }
  split; [exact H|]. exact (proj1 (scheduler_delivers _ _ H)).
Defined.

Definition sample_heartbeat (snapshot : IdentitySnapshot) : HeartbeatInput :=
  mkHeartbeatInput snapshot (mkVersionInfo "" "" "") "" 0 (15 * second) true (mkPoolStats 2 ["w1"; "w2"]) (mkQueueStats "memory" 0 10).

Lemma NewHeartbeat_total_witness : exists snapshot record,
  NewIdentitySnapshot (mkIdentityResult sample_record "agent.json" false)
    (Hostname.ResolveHostnameWith (Some ("Media-01", None))) = Ok snapshot /\
  NewHeartbeat (sample_heartbeat snapshot) 7 = Ok record.
Proof.
  destruct (NewIdentitySnapshot (mkIdentityResult sample_record "agent.json" false)
    (Hostname.ResolveHostnameWith (Some ("Media-01", None)))) as [snapshot|] eqn:E.
  2: { apply (f_equal is_ok) in E. vm_compute in E. discriminate E. }
  destruct (NewHeartbeat_total (mkIdentityResult sample_record "agent.json" false) (Some ("Media-01", None)) snapshot
    (sample_heartbeat snapshot) 7) as (record & H & _); [vm_compute; reflexivity|exact E|reflexivity|left; reflexivity|lia|
    cbn; lia|cbn; lia|cbn; lia|].
  exists snapshot, record. split; [reflexivity|exact H].
Defined.
