(* ===== verification/Dispatcher.v ===== *)
(** * internal/dispatcher: the retry policy and the dispatch cycle

    [Dispatcher.RunOnce] runs the pool once and puts failed jobs that have
    attempts left back on the queue.  The retry queue is the queue the pool
    polls, as the bootstrap wires them.  The pool's part of a cycle is
    [Pool.PoolRunOnce] for an order in which the workers polled, which covers
    every interleaving by the linearizability of the pool. *)
From S2P Require Import Prelude GoStrings Identity Job Queue Worker Pool.

(** ** retry.go *)
Definition RetryReasonMaxAttemptsReached : string := "max_attempts_reached".
Definition RetryReasonJobNotFailed : string := "job_not_failed".
Definition RetryReasonEligible : string := "eligible".

Record RetryDecision := mkRetryDecision { Retry : bool; Reason : string; RetryJob : Job }.

(** [AttemptsRetryPolicy.Decide]; [clock] is its fallback clock reading. *)
Definition Decide (job : Job) (now clock : Time) : result RetryDecision :=
  _ ← ValidateJob job;
  if negb (String.eqb (Status job) JobStatusFailed)
  then Ok (mkRetryDecision false RetryReasonJobNotFailed (Clone job)) else
  if MaxAttempts job <=? Attempt job
  then Ok (mkRetryDecision false RetryReasonMaxAttemptsReached (Clone job)) else
  let now := or_now now clock in
  let retryJob := set_UpdatedAt now (set_Status JobStatusPending (Clone job)) in
  let metadata := <["retry_reason" := RetryReasonEligible]> (Metadata retryJob) in
  let metadata := <["retry_attempt" := Itoa (wrap64 (Attempt retryJob + 1))]> metadata in
  let retryJob := set_maps (Headers retryJob) metadata retryJob in
  _ ← ValidateJob retryJob;
  Ok (mkRetryDecision true RetryReasonEligible retryJob).

Definition NormalizeRetryReason (value : string) : string := ToLower (TrimSpace value).

(** ** dispatcher.go *)
Record DispatchResult := mkDispatchResult {
  d_StartedAt : Time;
  d_EndedAt : Time;
  d_Duration : Duration;
  d_PoolStats : PoolStats;
  d_WorkerResults : list RunResult;
  d_Executed : Z;
  d_Succeeded : Z;
  d_Failed : Z;
  d_Retried : Z;
  d_QueueLength : Z;
  d_QueueCapacity : Z;
  d_Error : string
}.

Definition clone_result (r : RunResult) : RunResult :=
  mkRunResult (WorkerID r) (Executed r) (Clone (ResultJob r)) (StartedAt r) (EndedAt r)
    (RunDuration r) (RunError r).
Definition cloneRunResults (results : list RunResult) : list RunResult := map clone_result results.

(** The counters the loop over the worker results updates. *)
Record counters := mkCounters { n_executed : Z; n_succeeded : Z; n_failed : Z; n_retried : Z }.
Definition zero_counters : counters := mkCounters 0 0 0 0.
Definition count_executed (c : counters) := mkCounters (n_executed c + 1) (n_succeeded c) (n_failed c) (n_retried c).
Definition count_succeeded (c : counters) := mkCounters (n_executed c) (n_succeeded c + 1) (n_failed c) (n_retried c).
Definition count_failed (c : counters) := mkCounters (n_executed c) (n_succeeded c) (n_failed c + 1) (n_retried c).
Definition count_retried (c : counters) := mkCounters (n_executed c) (n_succeeded c) (n_failed c) (n_retried c + 1).

(** What a cycle observes: the clock at its start and end, the retry policy's
    fallback clock, the pool's workers and the order they polled in, and for
    each requeue the context and the clock [Enqueue] reads. *)
Record DispatchEnv := mkDispatchEnv {
  v_started : Time;
  v_ended : Time;
  v_fallback : Time;
  v_workers : list (string * RunEnv);
  v_order : list nat;
  v_enqueue : nat -> Context * Time
}.

Section Cycle.
Context {Q : Type} `{JQ : !JobQueue Q}.

(** The loop over the results; an error of the policy or of the queue ends it. *)
Fixpoint retry_loop (v : DispatchEnv) (index : nat) (results : list RunResult) (c : counters) (q : Q)
  : (counters * option error) * Q :=
  match results with
  | [] => ((c, None), q)
  | r :: rest =>
    if negb (Executed r) then retry_loop v (S index) rest c q else
    let c := count_executed c in
    if String.eqb (Status (ResultJob r)) JobStatusSucceeded
    then retry_loop v (S index) rest (count_succeeded c) q
    else if String.eqb (Status (ResultJob r)) JobStatusFailed then
      let c := count_failed c in
      match Decide (ResultJob r) (v_ended v) (v_fallback v) with
      | Err e => ((c, Some e), q)
      | Ok decision =>
        if Retry decision then
          match Enqueue (v_enqueue v index).1 (v_enqueue v index).2 (RetryJob decision) q with
          | (Some e, q') => ((c, Some e), q')
          | (None, q') => retry_loop v (S index) rest (count_retried c) q'
          end
        else retry_loop v (S index) rest c q
      end
    else retry_loop v (S index) rest c q
  end.

(** [Dispatcher.RunOnce] with the retry queue set. *)
Definition DispatchOnce (v : DispatchEnv) (pool : Pool) (q : Q)
  : (DispatchResult * option error) * Q :=
  let '((results, runErr), q1) := PoolRunOnce (v_workers v) (v_order v) q in
  let '((c, loopErr), q2) := retry_loop v 0 results zero_counters q1 in
  let output len cap err :=
    mkDispatchResult (v_started v) (v_ended v) (time_Sub (v_ended v) (v_started v)) (Stats pool)
      (cloneRunResults results) (n_executed c) (n_succeeded c) (n_failed c) (n_retried c) len cap err in
  match loopErr with
  | Some e => ((output 0 0 (Error e), Some e), q2)
  | None =>
    ((output (Len q2) (Capacity q2) (match runErr with Some e => Error e | None => "" end), runErr), q2)
  end.

(** A run of several cycles. *)
Fixpoint dispatch_cycles (vs : list DispatchEnv) (pool : Pool) (q : Q)
  : list (DispatchResult * option error) * Q :=
  match vs with
  | [] => ([], q)
  | v :: vs =>
    let '(r, q') := DispatchOnce v pool q in
    let '(rs, q'') := dispatch_cycles vs pool q' in (r :: rs, q'')
  end.
End Cycle.

(** ** The retry policy *)

(** The job [Decide] hands back for a retry. *)
Definition retry_job (now : Time) (job : Job) : Job :=
  set_maps (Headers (Clone job))
    (<["retry_attempt" := Itoa (wrap64 (Attempt job + 1))]>
       (<["retry_reason" := RetryReasonEligible]> (Metadata (Clone job))))
    (set_UpdatedAt now (set_Status JobStatusPending (Clone job))).

(** Whether a reported job goes back on the queue. *)
Definition retryable (job : Job) : bool :=
  String.eqb (Status job) JobStatusFailed && (Attempt job <? MaxAttempts job).

Lemma pending_supported : IsSupportedJobStatus JobStatusPending = true.
Proof. vm_compute. reflexivity. Qed.

Lemma retry_job_valid now job : valid_job job -> IsZero now = false -> valid_job (retry_job now job).
Proof.
  intros Hv Hn. apply ValidateJob_Ok. unfold retry_job. rewrite ValidateJob_set_maps.
  apply ValidateJob_Ok, valid_job_status; [by apply valid_job_Clone|exact pending_supported|done].
Qed.

Lemma Decide_valid job now clock : valid_job job -> IsZero (or_now now clock) = false ->
  exists reason j', Decide job now clock = Ok (mkRetryDecision (retryable job) reason j') /\
    (retryable job = true -> j' = retry_job (or_now now clock) job).
Proof.
  intros Hv Hn. unfold Decide, retryable. apply ValidateJob_Ok in Hv as HV. rewrite HV. cbn [mbind result_bind].
  destruct (String.eqb (Status job) JobStatusFailed); cbn [negb andb];
    [|do 2 eexists; split; [reflexivity|done]].
  destruct (Z.leb_spec (MaxAttempts job) (Attempt job)).
  - rewrite (proj2 (Z.ltb_ge _ _)) by lia. do 2 eexists; split; [reflexivity|done].
  - rewrite (proj2 (Z.ltb_lt _ _)) by lia. change (set_maps _ _ _) with (retry_job (or_now now clock) job).
    pose proof (retry_job_valid (or_now now clock) job Hv Hn) as HR%ValidateJob_Ok. rewrite HR. do 2 eexists; split; [reflexivity|done].
Qed.

(** ** The loop over the results *)

(** A live cycle: the clocks run and no context is cancelled while requeueing. *)
Definition retry_live (v : DispatchEnv) : Prop :=
  IsZero (v_ended v) = false /\
  forall i, (v_enqueue v i).1 = None /\ IsZero (v_enqueue v i).2 = false.

(** The job the loop puts back for a result, as the queue stores it. *)
Definition requeue (v : DispatchEnv) (index : nat) (r : RunResult) : list Job :=
  if Executed r && retryable (ResultJob r)
  then [queued_form (v_enqueue v index).2 (retry_job (v_ended v) (ResultJob r))] else [].
Fixpoint requeued (v : DispatchEnv) (index : nat) (results : list RunResult) : list Job :=
  match results with
  | [] => []
  | r :: rest => requeue v index r ++ requeued v (S index) rest
  end.

Definition executed (r : RunResult) : Z := Z.b2z (Executed r).
Definition with_status (s : string) (r : RunResult) : Z :=
  Z.b2z (Executed r && String.eqb (Status (ResultJob r)) s).

Definition executed_valid (r : RunResult) : Prop := Executed r = true -> valid_job (ResultJob r).

Section Loop.
Context {Q : Type} `{JQ : !JobQueue Q} `{!JobQueueSpec Q}.

(** Requeueing a valid job into an open queue with room. *)
Lemma requeue_ok v index r q : wf q -> retry_live v -> Fifo.open (abs q) = true ->
  valid_job (ResultJob r) -> zlen (Fifo.items (abs q)) < Fifo.cap (abs q) ->
  let j' := retry_job (v_ended v) (ResultJob r) in
  let '(err, q') := Enqueue (v_enqueue v index).1 (v_enqueue v index).2 j' q in
  err = None /\ wf q' /\
  abs q' = Fifo.mk (Fifo.cap (abs q)) (Fifo.items (abs q) ++ [queued_form (v_enqueue v index).2 j']) true.
Proof.
  intros Hwf [He Hv] Ho HV Hroom j'. destruct (Hv index) as [Hctx Hclk].
  pose proof (enqueue_spec (v_enqueue v index).1 (v_enqueue v index).2 j' q Hwf Hclk) as H.
  destruct (Enqueue _ _ j' q) as [err q']. destruct H as [Hwf' H].
  assert (enqueue_guard (v_enqueue v index).1 j' = None) as HG.
  { unfold enqueue_guard. rewrite Hctx.
    pose proof (retry_job_valid (v_ended v) (ResultJob r) HV He) as HR%ValidateJob_Ok.
    fold j' in HR. rewrite HR. reflexivity. }
  rewrite HG in H. unfold Fifo.push in H. rewrite Ho in H. cbn [negb] in H.
  rewrite (proj2 (Z.leb_gt _ _)) in H by done. injection H as -> ->. done.
Qed.

(** The counters after one more result. *)
Definition count (v : DispatchEnv) (index : nat) (r : RunResult) (c : counters) : counters :=
  mkCounters (n_executed c + executed r) (n_succeeded c + with_status JobStatusSucceeded r)
    (n_failed c + with_status JobStatusFailed r) (n_retried c + zlen (requeue v index r)).

Ltac bump :=
  unfold zlen, count_succeeded, count_retried, count_failed, count_executed; cbn; f_equal; lia.

(** One turn of the loop, with live contexts and room for what comes back. *)
Lemma retry_step v index r rest c q : wf q -> retry_live v -> Fifo.open (abs q) = true ->
  executed_valid r -> zlen (Fifo.items (abs q)) + zlen (requeue v index r) <= Fifo.cap (abs q) ->
  exists q', retry_loop v index (r :: rest) c q = retry_loop v (S index) rest (count v index r c) q' /\
    wf q' /\ abs q' = Fifo.mk (Fifo.cap (abs q)) (Fifo.items (abs q) ++ requeue v index r) true.
Proof.
  intros Hwf Hv Ho Hr Hroom. cbn [retry_loop].
  unfold count, requeue, executed, with_status, retryable in *.
  assert (forall c0 c', c' = c0 -> exists q', retry_loop v (S index) rest c0 q =
      retry_loop v (S index) rest c' q' /\ wf q' /\
      abs q' = Fifo.mk (Fifo.cap (abs q)) (Fifo.items (abs q) ++ []) true) as Hsame.
  { intros c0 c' ->. exists q. rewrite app_nil_r. destruct (abs q). simpl in *. by subst. }
  destruct c as [c1 c2 c3 c4].
  destruct (Executed r) eqn:HE; cbn in *; [|apply Hsame; bump]. specialize (Hr HE).
  destruct (String.eqb_spec (Status (ResultJob r)) JobStatusSucceeded) as [->|_].
  { change (String.eqb JobStatusSucceeded JobStatusFailed) with false in *.
    apply Hsame. bump. }
  assert (or_now (v_ended v) (v_fallback v) = v_ended v) as Enow
    by (unfold or_now; by destruct Hv as [-> _]).
  destruct (String.eqb (Status (ResultJob r)) JobStatusFailed) eqn:EF; cbn in *;
    [|apply Hsame; bump].
  destruct (Decide_valid (ResultJob r) (v_ended v) (v_fallback v) Hr) as (reason & j' & -> & Hj').
  { rewrite Enow. apply Hv. }
  unfold retryable in *. rewrite EF in *. cbn [andb Retry RetryJob] in *.
  destruct (Attempt (ResultJob r) <? MaxAttempts (ResultJob r)); [|apply Hsame; bump].
  rewrite (Hj' eq_refl), Enow. unfold zlen at 2 in Hroom. simpl length in Hroom.
  pose proof (requeue_ok v index r q Hwf Hv Ho Hr ltac:(lia)) as HQ. cbv zeta in HQ.
  destruct (Enqueue _ _ _ q) as [err q1]. destruct HQ as (-> & Hw1 & HA1).
  exists q1. split_and!; [|done|done]. f_equal. bump.
Qed.

(** With live contexts and room for what comes back, the loop never fails,
    appends the requeued jobs in order and counts what it saw. *)
Lemma retry_loop_ok v index results c q : wf q -> retry_live v -> Fifo.open (abs q) = true ->
  Forall executed_valid results ->
  zlen (Fifo.items (abs q)) + zlen (requeued v index results) <= Fifo.cap (abs q) ->
  let '((c', err), q') := retry_loop v index results c q in
  err = None /\ wf q' /\
  abs q' = Fifo.mk (Fifo.cap (abs q)) (Fifo.items (abs q) ++ requeued v index results) true /\
  c' = mkCounters (n_executed c + zsum executed results)
         (n_succeeded c + zsum (with_status JobStatusSucceeded) results)
         (n_failed c + zsum (with_status JobStatusFailed) results)
         (n_retried c + zlen (requeued v index results)).
Proof.
  intros Hwf Hv Ho HF. revert index c q Hwf Ho.
  induction HF as [|r results Hr _ IH]; intros index c q Hwf Ho Hroom.
  { simpl. split_and!; [done|done| |].
    - rewrite app_nil_r. destruct (abs q). simpl in *. by subst.
    - destruct c. unfold zlen. simpl. f_equal; lia. }
  cbn [requeued zsum foldr] in *. rewrite zlen_app in *.
  pose proof (zlen_nonneg (requeued v (S index) results)).
  destruct (retry_step v index r results c q Hwf Hv Ho Hr ltac:(lia)) as (q1 & -> & Hw1 & HA1).
  specialize (IH (S index) (count v index r c) q1 Hw1). rewrite HA1 in IH.
  cbn [Fifo.items Fifo.cap Fifo.open] in IH. rewrite zlen_app in IH.
  specialize (IH eq_refl ltac:(lia)). destruct (retry_loop _ _ _ _ _) as [[c' err] q'].
  destruct IH as (-> & Hw & HA & ->).
  split_and!; [done|done|by rewrite HA, <- app_assoc|]. unfold count, zsum. cbn [n_executed n_succeeded n_failed n_retried]. f_equal; lia.
Qed.
End Loop.

(** ** One cycle *)

(** How many more times a job can still be executed, plus the last refusal. *)
Definition weight (j : Job) : Z := MaxAttempts j - Attempt j + 1.

(** What a result accounts for: its execution and what it puts back. *)
Definition credit (r : RunResult) : Z :=
  executed r + (if Executed r && retryable (ResultJob r) then weight (ResultJob r) else 0).

Definition max_in_range (j : Job) : Prop := in_int64 (MaxAttempts j).
Definition result_ok (r : RunResult) : Prop :=
  Executed r = true -> valid_job (ResultJob r) /\ max_in_range (ResultJob r).

Lemma requeued_measure v index results :
  zsum weight (requeued v index results) + zsum executed results = zsum credit results /\
  zlen (requeued v index results) <= zsum executed results.
Proof.
  revert index. induction results as [|r results IH]; intros index; [done|].
  specialize (IH (S index)). cbn [requeued]. rewrite zsum_app, zlen_app.
  unfold zsum, requeue, credit, executed in *. cbn [foldr]. unfold zlen in *.
  destruct (Executed r), (retryable (ResultJob r)); cbn in *; unfold weight in *; cbn in *; lia.
Qed.

Lemma requeued_in_range v index results :
  Forall result_ok results -> Forall max_in_range (requeued v index results).
Proof.
  intros HF. revert index. induction HF as [|r results Hr _ IH]; intros index; cbn [requeued]; [done|].
  apply Forall_app. split; [|done]. unfold requeue. destruct (Executed r) eqn:HE; cbn [andb]; [|done].
  destruct (retryable (ResultJob r)); [|done]. apply Forall_singleton. by destruct (Hr HE).
Qed.

Lemma report_credit id e j : clocks_ok (e_clocks e) -> valid_job j -> Status j = JobStatusQueued ->
  clean_job j -> max_in_range j ->
  let r := (report id e (Some j)).1 in
  executed r = 1 /\ result_ok r /\ credit r <= weight j.
Proof.
  intros Hk Hv Hs Hcl Hm r. pose proof (vj_attempt j Hv) as Ha. subst r. cbn [report].
  unfold credit, result_ok, executed.
  destruct (decide (Attempt j < MaxAttempts j)) as [Hlt|Hge].
  - assert (claimable j) as Hc by done.
    rewrite (execute_job_ok id (e_clocks e) (e_handler e) j Hc Hk).
    destruct (finished_job_ok (e_clocks e) (e_handler e) j Hc Hk) as (FV & _ & _).
    destruct (finished_job_fields (e_clocks e) (e_handler e) j) as (E1 & _ & E3 & _).
    destruct (e_handler e _) as [res herr]. cbn [fst Executed ResultJob andb Z.b2z].
    unfold max_in_range, weight. rewrite E3, E1. split_and!; [done|done|].
    destruct (retryable _); lia.
  - destruct (execute_job_exhausted id (e_clocks e) (e_handler e) j Hv Hcl Hm ltac:(lia)) as [err ->].
    cbn [fst Executed ResultJob andb Z.b2z]. split_and!; [done|done|].
    unfold retryable. rewrite Hs. cbn [andb]. unfold weight. simpl. lia.
Qed.

Section Drain.
Context {Q : Type} `{JQ : !JobQueue Q} `{!JobQueueSpec Q}.

Definition worker_live (w : string * RunEnv) : Prop := live w /\ clocks_ok (e_clocks w.2).

(** A queue a dispatcher can work on. *)
Definition ready (q : Q) : Prop :=
  wf q /\ Fifo.open (abs q) = true /\ Forall max_in_range (Fifo.items (abs q)).

(** The total work stored in a queue. *)
Definition work (q : Q) : Z := zsum weight (Fifo.items (abs q)).

(** Each worker moves weight from the queue to its result. *)
Lemma RunOnce_measure id e q : ready q -> worker_live (id, e) ->
  let '(r, q') := RunOnce id e q in
  ready q' /\ result_ok r.1 /\ credit r.1 + work q' <= work q /\
  executed r.1 + zlen (Fifo.items (abs q')) = zlen (Fifo.items (abs q)).
Proof.
  intros (Hwf & Ho & HR) [Hl Hk]. pose proof (RunOnce_live id e q Hwf Hl Ho) as H.
  destruct (contents_wf q Hwf) as [_ HF]. unfold ready, work in *.
  destruct (RunOnce id e q) as [r q']. destruct H as (Hwf' & HA & ->). rewrite HA.
  cbn [Fifo.items Fifo.open]. destruct (Fifo.items (abs q)) as [|j rest].
  { cbn. split_and!; done || lia. }
  apply Forall_cons in HF as [(Hv & Hs & Hc) _]. apply Forall_cons in HR as [Hm HR].
  change (drop 1 (j :: rest)) with (drop 0 rest). rewrite drop_0. cbn [head].
  destruct (report_credit id e j Hk Hv Hs Hc Hm) as (H1 & H2 & H3).
  rewrite zlen_cons. cbn [zsum foldr]. split_and!; try done; unfold zsum in *; lia.
Qed.

Lemma RunInOrder_measure ws order q : ready q -> Forall worker_live ws ->
  NoDup order -> Forall (fun i => (i < length ws)%nat) order ->
  let '(rs, q') := RunInOrder ws order q in
  ready q' /\ Forall result_ok rs.*1 /\ zsum credit rs.*1 + work q' <= work q /\
  zsum executed rs.*1 + zlen (Fifo.items (abs q')) = zlen (Fifo.items (abs q)) /\
  length rs = length ws /\
  forall i, i ∉ order -> (i < length ws)%nat -> rs !! i = Some zero_run.
Proof.
  intros Hq Hws. induction order as [|i order IH] using rev_ind; intros HN HB.
  { unfold RunInOrder. cbn [fold_left]. rewrite fmap_replicate.
    rewrite !zsum_replicate. change (credit zero_run.1) with 0. change (executed zero_run.1) with 0.
    split_and!; [done| |lia|lia|apply length_replicate|].
    - apply Forall_replicate. done.
    - intros i _ Hi. by apply lookup_replicate_2. }
  apply NoDup_app in HN as (HN & Hdis & _). apply Forall_snoc in HB as [HB Hi].
  specialize (IH HN HB). rewrite RunInOrder_snoc.
  destruct (RunInOrder ws order q) as [rs q1]. destruct IH as (Hq1 & HF & HC & HE & HL & HZ).
  destruct (lookup_lt_is_Some_2 ws i Hi) as [[id e] Hw]. unfold run_worker. rewrite Hw. cbn [snd fst].
  assert (worker_live (id, e)) as Hlive by (by eapply (Forall_lookup_1 _ _ _ _ Hws)).
  pose proof (RunOnce_measure id e q1 Hq1 Hlive) as H1.
  destruct (RunOnce id e q1) as [r q2]. destruct H1 as (Hq2 & Hr & HC2 & HE2).
  assert (i ∉ order) as Hni.
  { intros Hin. apply (Hdis i Hin). by apply list_elem_of_singleton. }
  assert (rs.*1 !! i = Some zero_run.1) as Hz by (by rewrite list_lookup_fmap, HZ).
  rewrite list_fmap_insert, !(zsum_insert _ _ _ _ _ Hz).
  change (credit zero_run.1) with 0. change (executed zero_run.1) with 0. split_and!.
  - done.
  - by apply Forall_insert.
  - lia.
  - lia.
  - by rewrite length_insert.
  - intros k Hk Hkn. rewrite list_lookup_insert_ne by set_solver. apply HZ; set_solver.
Qed.

(** A live cycle of the dispatcher: workers and requeues are live, and every
    worker polls exactly once. *)
Definition cycle_live (v : DispatchEnv) : Prop :=
  retry_live v /\ Forall worker_live (v_workers v) /\ v_order v ≡ₚ seq 0 (length (v_workers v)).

Lemma order_ok v : cycle_live v ->
  NoDup (v_order v) /\ Forall (fun i => (i < length (v_workers v))%nat) (v_order v) /\
  length (v_order v) = length (v_workers v).
Proof.
  intros (_ & _ & HP). split_and!.
  - rewrite HP. apply NoDup_seq.
  - rewrite HP. apply Forall_forall. intros i Hi%elem_of_seq. lia.
  - by rewrite HP, length_seq.
Qed.

(** What one live cycle does to the queue and what it reports. *)
Lemma DispatchOnce_ok v pool q : cycle_live v -> ready q ->
  let '((out, err), q') := DispatchOnce v pool q in
  let results := ((PoolRunOnce (v_workers v) (v_order v) q).1).1 in
  ready q' /\ work q' + d_Executed out <= work q /\
  Fifo.items (abs q') =
    drop (length (v_workers v)) (Fifo.items (abs q)) ++ requeued v 0 results /\
  d_Executed out = Z.min (zlen (v_workers v)) (zlen (Fifo.items (abs q))) /\
  d_Failed out = zsum (with_status JobStatusFailed) results /\
  d_Succeeded out = zsum (with_status JobStatusSucceeded) results /\
  d_Retried out = zlen (requeued v 0 results) /\
  err = ((PoolRunOnce (v_workers v) (v_order v) q).1).2.
Proof.
  intros Hv Hq. destruct (order_ok v Hv) as (HN & HB & HLo). destruct Hv as (Hrl & Hws & _).
  pose proof (RunInOrder_measure (v_workers v) (v_order v) q Hq Hws HN HB) as HM.
  pose proof Hq as (Hwf & Ho & _).
  assert (Forall live (v_workers v)) as Hlive by (eapply Forall_impl; [exact Hws|by intros ? []]).
  pose proof (RunInOrder_live (v_workers v) Hlive (v_order v) q Hwf Ho HN HB) as HA.
  unfold DispatchOnce, PoolRunOnce. destruct (RunInOrder _ _ q) as [rs q1].
  destruct HM as ((Hwf1 & Ho1 & HR1) & HF & HC & HE & _). destruct HA as (_ & HA & _). cbn [fst snd].
  destruct (requeued_measure v 0 rs.*1) as [HQ1 HQ2].
  assert (Forall executed_valid rs.*1) as HV.
  { eapply Forall_impl; [exact HF|]. intros r Hr Hx. by destruct (Hr Hx). }
  destruct (contents_wf q Hwf) as [Hcap _].
  assert (Fifo.cap (abs q1) = Fifo.cap (abs q)) as Ecap by (by rewrite HA).
  pose proof (retry_loop_ok v 0 rs.*1 zero_counters q1 Hwf1 Hrl Ho1 HV ltac:(lia)) as HL.
  destruct (retry_loop _ _ _ _ _) as [[c err] q2]. destruct HL as (-> & Hwf2 & HA2 & ->).
  cbn [d_Executed d_Failed d_Succeeded d_Retried n_executed n_failed n_succeeded n_retried zero_counters].
  unfold ready, work in *. rewrite HA2. cbn [Fifo.items Fifo.open]. rewrite zsum_app.
  assert (zlen (Fifo.items (abs q1)) = Z.max 0 (zlen (Fifo.items (abs q)) - zlen (v_workers v))) as Elen.
  { rewrite HA. cbn [Fifo.items]. unfold zlen. rewrite length_drop. lia. }
  split_and!; try done; [|lia| |lia].
  - apply Forall_app. split; [done|by apply requeued_in_range].
  - rewrite HA. cbn [Fifo.items]. by rewrite HLo.
Qed.

(** A queue without work is empty. *)
Lemma work_zero q : ready q -> work q <= 0 -> Fifo.items (abs q) = [].
Proof.
  intros (Hwf & _ & _) HW. destruct (contents_wf q Hwf) as [_ HF]. unfold work in HW.
  destruct (Fifo.items (abs q)) as [|j rest]; [done|]. exfalso.
  assert (Forall (fun j => 1 <= weight j) (j :: rest)) as HG.
  { eapply Forall_impl; [exact HF|]. intros j' (Hv & _). pose proof (vj_attempt j' Hv). unfold weight. lia. }
  apply Forall_cons in HG as [Hj HG]. cbn [zsum foldr] in HW.
  assert (0 <= zsum weight rest) by (apply zsum_nonneg; eapply Forall_impl; [exact HG|simpl; lia]).
  unfold zsum in *. lia.
Qed.

(** Repeated live cycles: work and executions together never exceed the work at
    the start, and each cycle that finds a job makes progress. *)
Lemma dispatch_cycles_work vs pool q : Forall cycle_live vs -> ready q ->
  Forall (fun v => v_workers v <> []) vs ->
  let '(rs, q') := dispatch_cycles vs pool q in
  ready q' /\ work q' + zsum (fun r => d_Executed r.1) rs <= work q /\ work q' <= work q /\
  (Fifo.items (abs q') = [] \/ work q' + zlen vs <= work q).
Proof.
  intros HV. revert q. induction HV as [|v vs Hv _ IH]; intros q Hq HW; cbn [dispatch_cycles].
  { split_and!; [done|simpl; lia|lia|right; unfold zlen; simpl; lia]. }
  apply Forall_cons in HW as [Hw HW]. pose proof (DispatchOnce_ok v pool q Hv Hq) as H1.
  destruct (DispatchOnce v pool q) as [[out err] q1]. destruct H1 as (Hq1 & HC & _ & HE & _).
  specialize (IH q1 Hq1 HW). destruct (dispatch_cycles vs pool q1) as [rs q2].
  destruct IH as (Hq2 & HC2 & HM & HD). rewrite zlen_cons. cbn [zsum foldr fst]. unfold zsum in HC2.
  assert (1 <= zlen (v_workers v)) as Hn.
  { destruct (v_workers v) as [|w l]; [done|]. rewrite zlen_cons. pose proof (zlen_nonneg l). lia. }
  pose proof (zlen_nonneg (Fifo.items (abs q))). split_and!; [done|lia|lia|].
  destruct HD as [HD|HD]; [by left|]. destruct (Fifo.items (abs q)) as [|j rest] eqn:EI.
  - left. apply work_zero; [done|]. assert (work q = 0) by (unfold work; by rewrite EI). lia.
  - right. rewrite zlen_cons in HE. pose proof (zlen_nonneg rest). lia.
Qed.
End Drain.

(** ** Properties *)

(** The retry policy requeues a valid job exactly when it failed and has
    attempts left; the requeued job is valid, pending, keeps its identity and
    its attempt count, and records the reason and the number of the attempt to
    come. *)
Theorem Decide_spec job now clock :
  valid_job job -> IsZero (or_now now clock) = false -> in_int64 (MaxAttempts job) ->
  exists d, Decide job now clock = Ok d /\
    (Retry d = true <-> Status job = JobStatusFailed /\ Attempt job < MaxAttempts job) /\
    (Retry d = true -> ValidateJob (RetryJob d) = Ok tt /\ Status (RetryJob d) = JobStatusPending /\
       ID (RetryJob d) = ID job /\ Attempt (RetryJob d) = Attempt job /\
       Metadata (RetryJob d) !! "retry_reason" = Some "eligible" /\
       Metadata (RetryJob d) !! "retry_attempt" = Some (Itoa (Attempt job + 1))).
Proof.
  intros Hv Hn Hm. destruct (Decide_valid job now clock Hv Hn) as (reason & j' & HD & Hj').
  exists (mkRetryDecision (retryable job) reason j'). split; [done|]. cbn [Retry RetryJob].
  split; [unfold retryable; rewrite andb_true_iff, String.eqb_eq, Z.ltb_lt; done|].
  intros Hr. rewrite (Hj' Hr). pose proof (retry_job_valid _ job Hv Hn) as HV%ValidateJob_Ok.
  unfold retryable in Hr. apply andb_true_iff in Hr as [_ Hlt%Z.ltb_lt].
  pose proof (vj_attempt job Hv). split_and!; try done.
  - cbn [Metadata retry_job set_maps]. rewrite lookup_insert_ne by done. apply lookup_insert_eq.
  - cbn [Metadata retry_job set_maps]. rewrite lookup_insert_eq. rewrite wrap64_id; [done|].
    unfold in_int64, int64_min, int64_max in *. lia.
Qed.

(** A live dispatch cycle executes as many jobs as there are workers and jobs,
    from the front of the queue; afterwards the queue holds the jobs that were
    not reached followed by the failed jobs with attempts left, in worker order;
    nothing else is lost or added, the counters count the outcomes, and the
    error returned is the pool's. *)
Theorem DispatchOnce_spec {Q} `{JobQueueSpec Q} v pool (q : Q) : cycle_live v -> ready q ->
  let '((out, err), q') := DispatchOnce v pool q in
  let '((results, runErr), _) := PoolRunOnce (v_workers v) (v_order v) q in
  ready q' /\
  Fifo.items (abs q') =
    drop (length (v_workers v)) (Fifo.items (abs q)) ++ requeued v 0 results /\
  d_Executed out = Z.min (zlen (v_workers v)) (zlen (Fifo.items (abs q))) /\
  d_Failed out = zsum (with_status JobStatusFailed) results /\
  d_Succeeded out = zsum (with_status JobStatusSucceeded) results /\
  d_Retried out = zlen (requeued v 0 results) /\ err = runErr.
Proof.
  intros Hv Hq. pose proof (DispatchOnce_ok v pool q Hv Hq) as HD.
  destruct (DispatchOnce v pool q) as [[out err] q'].
  destruct (PoolRunOnce _ _ q) as [[results runErr] q1]. cbn [fst snd] in HD. naive_solver.
Qed.

(** C30: dispatching terminates: whatever the handlers do, the number of executions
    over any number of live cycles is bounded by the attempts left in the queue
    plus one per job, and after that many cycles the queue is empty. *)
Theorem dispatch_drains {Q} `{JobQueueSpec Q} vs pool (q : Q) :
  Forall cycle_live vs -> Forall (fun v => v_workers v <> []) vs -> ready q ->
  let '(rs, q') := dispatch_cycles vs pool q in
  zsum (fun r => d_Executed r.1) rs <= work q - work q' /\
  (work q <= zlen vs -> Fifo.items (abs q') = []).
Proof.
  intros HV HW Hq. pose proof (dispatch_cycles_work vs pool q HV Hq HW) as HD.
  destruct (dispatch_cycles vs pool q) as [rs q']. destruct HD as (Hq' & H1 & H2 & H3).
  split; [lia|]. intros Hn. destruct H3 as [H3|H3]; [done|]. apply work_zero; [done|lia].
Qed.

(** *** Witnesses: two workers, one of which always fails. *)
Import Memory.

Definition sample_cycle : DispatchEnv :=
  mkDispatchEnv 100 200 0
    [("worker-1", sample_env NoopHandler); ("worker-2", sample_env failing_handler)] [0; 1]%nat
    (fun _ => (None, 300)).
Definition sample_pool : Pool := mkPool ["worker-1"; "worker-2"].

Lemma sample_cycle_live : cycle_live sample_cycle.
Proof.
  split_and!; [split; [reflexivity|intros i; split; reflexivity]| |reflexivity].
  constructor; [split; split; reflexivity|constructor; [split; split; reflexivity|constructor]].
Qed.

Lemma sample_ready : ready sample_memory.
Proof.
  split_and!; [exact sample_memory_wf|reflexivity|].
  constructor; [split; vm_compute; discriminate|constructor; [split; vm_compute; discriminate|constructor]].
Qed.

Definition failed_job : Job := set_Attempt 1 (set_Status JobStatusFailed sample_job).

Lemma failed_job_valid : valid_job failed_job.
Proof. apply ValidateJob_Ok. vm_compute. reflexivity. Qed.

Lemma Decide_spec_witness : exists d, Decide failed_job 5 0 = Ok d /\ Retry d = true.
Proof.
  destruct (Decide_spec failed_job 5 0 failed_job_valid eq_refl) as (d & H1 & H2 & _);
    [split; vm_compute; discriminate|].
  exists d. split; [exact H1|]. apply H2. split; reflexivity.
Defined.

(** The two stored jobs are executed, the second one comes back. *)
Lemma DispatchOnce_spec_witness :
  let '((out, err), q') := DispatchOnce sample_cycle sample_pool sample_memory in
  d_Executed out = 2 /\ d_Retried out = 1 /\ zlen (Fifo.items (Queue.abs q')) = 1.
Proof.
  pose proof (DispatchOnce_spec sample_cycle sample_pool sample_memory sample_cycle_live sample_ready) as H.
  destruct (DispatchOnce sample_cycle sample_pool sample_memory) as [[out err] q'].
  destruct (PoolRunOnce _ _ sample_memory) as [[results runErr] q1] eqn:E.
  assert (results = (PoolRunOnce (v_workers sample_cycle) (v_order sample_cycle) sample_memory).1.1)
    as -> by (rewrite E; reflexivity).
  destruct H as (_ & -> & -> & _ & _ & -> & _). split; [reflexivity|]. vm_compute. split; reflexivity.
Defined.

Lemma dispatch_drains_witness :
  Fifo.items (Queue.abs (dispatch_cycles (replicate 8 sample_cycle) sample_pool sample_memory).2) = [].
Proof.
  pose proof (dispatch_drains (replicate 8 sample_cycle) sample_pool sample_memory) as H.
  destruct (dispatch_cycles _ _ _) as [rs q'].
  destruct H as [_ H].
  - apply Forall_replicate. exact sample_cycle_live.
  - apply Forall_replicate. discriminate.
  - exact sample_ready.
  - apply H. vm_compute. discriminate.
Defined.

(** When requeueing fails the cycle stops: here the context is cancelled after the
    pool ran, both jobs failed with attempts left, and neither is on the queue
    afterwards; the second failure is not even counted. *)
Definition cancelled_cycle : DispatchEnv :=
  mkDispatchEnv 100 200 0
    [("worker-1", sample_env failing_handler); ("worker-2", sample_env failing_handler)] [0; 1]%nat
    (fun _ => (Some context_Canceled, 300)).

Theorem dispatch_loses_failed_jobs :
  let '((out, err), q') := DispatchOnce cancelled_cycle sample_pool sample_memory in
  d_Executed out = 1 /\ d_Failed out = 1 /\ d_Retried out = 0 /\
  map (fun r => retryable (ResultJob r)) (d_WorkerResults out) = [true; true] /\
  Len q' = 0.
Proof. vm_compute. split_and!; reflexivity. Qed.
