(* ===== verification/Cluster.v ===== *)
(** * internal/cluster/cluster.go: registry, balancing, election and failover

    The registry is a map from agent id to agent; every operation under its
    mutex is one transition.  Agents are values, so [Clone] is the identity.
    Load ratios are binary64 numbers as in the code. *)
From Stdlib Require Import SpecFloat.
From S2P Require Import Prelude GoStrings GoFloat Identity Job.
Import Uuid.

Definition AgentStatusAvailable : string := "available".
Definition AgentStatusDraining : string := "draining".
Definition AgentStatusUnhealthy : string := "unhealthy".

Record Agent := mkAgent {
  a_ID : string;
  a_Fingerprint : string;
  a_Hostname : string;
  a_Version : string;
  a_Status : string;
  a_Capacity : Z;
  a_ActiveJobs : Z;
  a_LastSeenAt : Time;
  a_Metadata : gmap string string
}.

Definition zero_agent : Agent := mkAgent "" "" "" "" "" 0 0 0 ∅.

Definition AgentClone (agent : Agent) : Agent := agent.

Definition set_load (activeJobs : Z) (status : string) (now : Time) (a : Agent) : Agent :=
  mkAgent (a_ID a) (a_Fingerprint a) (a_Hostname a) (a_Version a) status (a_Capacity a) activeJobs now
    (a_Metadata a).

Definition IsSupportedAgentStatus (status : string) : bool :=
  let s := TrimSpace status in
  String.eqb s AgentStatusAvailable || String.eqb s AgentStatusDraining || String.eqb s AgentStatusUnhealthy.

Definition agent_issues (agent : Agent) : list string :=
  (if is_ok (ValidateUUID (a_ID agent)) then [] else ["id must be a canonical UUID"]) ++
  (if is_ok (Fingerprint.ValidateFingerprint (a_Fingerprint agent)) then []
   else ["fingerprint must be a sha256 hex string"]) ++
  (if is_ok (Hostname.ValidateHostname (a_Hostname agent)) then [] else ["hostname must be canonical"]) ++
  (if String.eqb (TrimSpace (a_Version agent)) "" then ["version is required"] else []) ++
  (if IsSupportedAgentStatus (a_Status agent) then []
   else ["status must be available, draining or unhealthy"]) ++
  (if a_Capacity agent <=? 0 then ["capacity must be greater than zero"] else []) ++
  (if a_ActiveJobs agent <? 0 then ["active_jobs must be zero or greater"] else []) ++
  (if a_Capacity agent <? a_ActiveJobs agent
   then ["active_jobs cannot be greater than capacity"] else []) ++
  (if IsZero (a_LastSeenAt agent) then ["last_seen_at is required"] else []).

Definition ValidateAgent (agent : Agent) : result unit :=
  match agent_issues agent with
  | [] => Ok tt
  | issues => Err (Errorf ("agent validation failed: " +:+ Join issues "; "))
  end.

(** ** The registry *)
Notation Registry := (gmap string Agent).

Definition Register (agent : Agent) (registry : Registry) : option error * Registry :=
  match ValidateAgent agent with
  | Err e => (Some e, registry)
  | Ok _ => (None, <[a_ID agent := AgentClone agent]> registry)
  end.

Fixpoint register_all (agents : list Agent) (registry : Registry) : result Registry :=
  match agents with
  | [] => Ok registry
  | agent :: rest =>
    match Register agent registry with
    | (Some e, _) => Err e
    | (None, registry') => register_all rest registry'
    end
  end.
Definition NewRegistry (agents : list Agent) : result Registry := register_all agents ∅.

(** The parts of [identity.Snapshot] and [runtime.VersionInfo] it reads. *)
Definition LocalAgent (agentID fingerprint hostname version status : string) (capacity : Z)
  (now clock : Time) : result Agent :=
  let now := or_now now clock in
  let agent := mkAgent agentID fingerprint hostname version AgentStatusAvailable capacity 0 now
    (<["runtime_status" := status]> {["leader_source" := "local_registry"]}) in
  _ ← ValidateAgent agent;
  Ok agent.

Definition UpdateHeartbeat (agentID : string) (activeJobs : Z) (status : string) (now clock : Time)
  (registry : Registry) : result Agent * Registry :=
  match NormalizeUUID agentID with
  | Err e => (Err (Wrapf ("agent id: " +:+ Error e) e), registry)
  | Ok normalizedID =>
    if activeJobs <? 0 then (Err (Errorf "active jobs must be zero or greater"), registry) else
    let status := if String.eqb (TrimSpace status) "" then AgentStatusAvailable else status in
    if negb (IsSupportedAgentStatus status)
    then (Err (Errorf ("unsupported agent status " +:+ Quote status)), registry) else
    match registry !! normalizedID with
    | None => (Err (Errorf ("agent " +:+ normalizedID +:+ " not found")), registry)
    | Some agent =>
      let agent := set_load activeJobs status (or_now now clock) agent in
      (Ok (AgentClone agent), <[normalizedID := AgentClone agent]> registry)
    end
  end.

Definition Get (agentID : string) (registry : Registry) : option Agent :=
  match NormalizeUUID agentID with
  | Err _ => None
  | Ok normalizedID => AgentClone <$> registry !! normalizedID
  end.

Definition List (registry : Registry) : list Agent :=
  let ids := sort_Strings (map_to_list registry).*1 in
  map (fun id => AgentClone (default zero_agent (registry !! id))) ids.

Definition RegistryLen (registry : Registry) : Z := Z.of_nat (size registry).

(** ** Load balancing *)
Definition load_ratio (a : Agent) : spec_float := fdiv (float64 (a_ActiveJobs a)) (float64 (a_Capacity a)).

Definition less_loaded (i j : Agent) : bool :=
  let left := load_ratio i in
  let right := load_ratio j in
  if SFeqb left right then String.ltb (a_ID i) (a_ID j) else SFltb left right.

(** The agents the loop does not skip. *)
Definition can_take (a : Agent) : bool :=
  negb (negb (String.eqb (a_Status a) AgentStatusAvailable) || (a_Capacity a <=? 0)
        || (a_Capacity a <=? a_ActiveJobs a)).

Definition SelectLeastLoaded (agents : list Agent) : option Agent :=
  let candidates := map AgentClone (filter can_take agents) in
  match candidates with
  | [] => None
  | _ => AgentClone <$> head (sort_Slice less_loaded candidates)
  end.

(** ** Leader election *)
Record ElectionResult := mkElectionResult {
  LeaderID : string;
  LeaderFingerprint : string;
  Candidates : Z;
  Algorithm : string
}.

Definition less_leader (i j : Agent) : bool :=
  if String.eqb (a_Fingerprint i) (a_Fingerprint j) then String.ltb (a_ID i) (a_ID j)
  else String.ltb (a_Fingerprint i) (a_Fingerprint j).

Definition is_available (a : Agent) : bool := String.eqb (a_Status a) AgentStatusAvailable.

Definition ElectLeader (agents : list Agent) : ElectionResult * bool :=
  let candidates := map AgentClone (filter is_available agents) in
  match sort_Slice less_leader candidates with
  | [] => (mkElectionResult "" "" 0 "lowest_fingerprint", false)
  | leader :: _ =>
    (mkElectionResult (a_ID leader) (a_Fingerprint leader) (zlen candidates) "lowest_fingerprint", true)
  end.

(** ** Failover *)
Record Assignment := mkAssignment { JobID : string; AgentID : string }.
Record FailoverPlan := mkFailoverPlan {
  FailedAgentID : string;
  Assignments : list Assignment;
  UnassignedIDs : list string
}.

(** The inner loop: the first agent with the id gets one more active job. *)
Fixpoint bump_active (id : string) (available : list Agent) : list Agent :=
  match available with
  | [] => []
  | a :: rest =>
    if String.eqb (a_ID a) id
    then set_load (wrap64 (a_ActiveJobs a + 1)) (a_Status a) (a_LastSeenAt a) a :: rest
    else a :: bump_active id rest
  end.

(** The loop over the jobs. *)
Fixpoint assign_jobs (jobs : list Job) (available : list Agent) (assigned : list Assignment)
  (unassigned : list string) : result (list Assignment * list string) :=
  match jobs with
  | [] => Ok (assigned, unassigned)
  | job :: rest =>
    _ ← ValidateJob job;
    match SelectLeastLoaded available with
    | None => assign_jobs rest available assigned (unassigned ++ [ID job])
    | Some target =>
      assign_jobs rest (bump_active (a_ID target) available)
        (assigned ++ [mkAssignment (ID job) (a_ID target)]) unassigned
    end
  end.

Definition survivors (failedID : string) (agents : list Agent) : list Agent :=
  filter (fun a => negb (String.eqb (a_ID a) failedID || negb (is_available a)
                         || (a_Capacity a <=? a_ActiveJobs a))) agents.

Definition PlanFailover (agents : list Agent) (failedAgentID : string) (jobs : list Job)
  : result FailoverPlan :=
  match NormalizeUUID failedAgentID with
  | Err e => Err (Wrapf ("failed agent id: " +:+ Error e) e)
  | Ok failedID =>
    let available := map AgentClone (survivors failedID agents) in
    '(assigned, unassigned) ← assign_jobs jobs available [] [];
    Ok (mkFailoverPlan failedID
          (sort_Slice (fun i j => String.ltb (JobID i) (JobID j)) assigned) (sort_Strings unassigned))
  end.

#[global] Arguments load_ratio : simpl never.
#[global] Arguments SelectLeastLoaded : simpl never.
#[global] Arguments IsSupportedAgentStatus : simpl never.
#[global] Arguments ValidateAgent : simpl never.

(** ** Selection *)
#[global] Instance key_lt_strict : StrictTotal key_lt.
Proof.
  constructor.
  - intros [[a b] c]. simpl. lia.
  - intros [[a b] c] [[a' b'] c'] [[a'' b''] c'']. simpl. lia.
  - apply key_lt_total.
Qed.

(** The integers of an agent are 64-bit. *)
Definition agent_ints (a : Agent) : Prop := in_int64 (a_Capacity a) /\ in_int64 (a_ActiveJobs a).

Definition load_order : Agent -> Agent -> bool := lex_less key_lt (fun a => fkey (load_ratio a)) a_ID.
Definition leader_order : Agent -> Agent -> bool := lex_less String.ltb a_Fingerprint a_ID.

Lemma load_ratio_number a : agent_ints a -> a_Capacity a <> 0 -> is_nan (load_ratio a) = false.
Proof. intros [Hc Ha] Hne. by apply fdiv_not_nan. Qed.

Lemma can_take_spec a : can_take a = true <->
  a_Status a = AgentStatusAvailable /\ 0 < a_Capacity a /\ a_ActiveJobs a < a_Capacity a.
Proof.
  unfold can_take. rewrite negb_true_iff, !orb_false_iff, negb_false_iff, String.eqb_eq, !Z.leb_gt. tauto.
Qed.

(** On eligible agents the comparator is the lexicographic one. *)
Lemma less_loaded_order i j : agent_ints i -> agent_ints j -> can_take i = true -> can_take j = true ->
  less_loaded i j = load_order i j.
Proof.
  intros Hi Hj (_ & Ci & _)%can_take_spec (_ & Cj & _)%can_take_spec. unfold less_loaded, load_order, lex_less.
  destruct (SFcompare_key (load_ratio i) (load_ratio j)) as [-> ->]; [apply load_ratio_number; [done|lia]..|done].
Qed.

Lemma less_leader_order i j : less_leader i j = leader_order i j.
Proof.
  unfold less_leader, leader_order, lex_less.
  destruct (String.eqb_spec (a_Fingerprint i) (a_Fingerprint j));
    [by rewrite bool_decide_true|by rewrite bool_decide_false].
Qed.

Lemma SelectLeastLoaded_head agents : Forall agent_ints agents ->
  SelectLeastLoaded agents = head (sort_Slice load_order (filter can_take agents)).
Proof.
  intros HF. unfold SelectLeastLoaded. change (map AgentClone) with (fmap (M:=list) AgentClone).
  change AgentClone with (@id Agent). rewrite list_fmap_id.
  rewrite (sort_Slice_ext less_loaded load_order).
  - destruct (filter can_take agents) as [|a l]; [done|]. by destruct (head _).
  - intros x y [Hx Hxa]%list_elem_of_filter [Hy Hya]%list_elem_of_filter.
    rewrite Forall_forall in HF. apply less_loaded_order; auto; by apply Is_true_true.
Qed.

(** The selected agent is eligible and none comes before it. *)
Lemma select_Some agents a : Forall agent_ints agents -> SelectLeastLoaded agents = Some a ->
  a ∈ agents /\ can_take a = true /\ forall b, b ∈ agents -> can_take b = true -> load_order b a = false.
Proof.
  intros HF. rewrite SelectLeastLoaded_head by done.
  destruct (sort_Slice load_order _) as [|x r] eqn:E; [done|]. intros [= ->].
  destruct (sort_Slice_head _ _ _ _ E) as [[Ht Hin]%list_elem_of_filter Hmin].
  split_and!; [done|by apply Is_true_true|]. intros b Hb Hc. apply Hmin, list_elem_of_filter.
  split; [by apply Is_true_true|done].
Qed.

Lemma select_None agents : Forall agent_ints agents -> SelectLeastLoaded agents = None ->
  forall b, b ∈ agents -> can_take b = false.
Proof.
  intros HF. rewrite SelectLeastLoaded_head by done.
  pose proof (sort_Slice_perm load_order (filter can_take agents)) as HP.
  destruct (sort_Slice load_order _) as [|x r]; [|done]. intros _ b Hb.
  destruct (can_take b) eqn:E; [|done]. exfalso.
  assert (b ∈ filter can_take agents) as Hin by (apply list_elem_of_filter; split; [by apply Is_true_true|done]).
  rewrite <- HP in Hin. by apply not_elem_of_nil in Hin.
Qed.

Lemma filter_ids_NoDup (P : Agent -> bool) agents : NoDup (map a_ID agents) ->
  NoDup (map a_ID (filter P agents)).
Proof.
  intros HN. eapply sublist_NoDup; [exact HN|]. apply fmap_sublist, sublist_filter.
Qed.

(** [SelectLeastLoaded] finds an agent whenever one is available with a free
    slot; the agent it returns is such an agent, its (binary64) load ratio is
    the lowest, ties going to the smaller id, and with distinct ids the choice
    does not depend on the order in which the agents are listed. *)
Theorem SelectLeastLoaded_spec agents : Forall agent_ints agents ->
  (SelectLeastLoaded agents = None <-> forall b, b ∈ agents -> can_take b = false) /\
  (forall a, SelectLeastLoaded agents = Some a ->
     a ∈ agents /\ a_Status a = AgentStatusAvailable /\ a_ActiveJobs a < a_Capacity a /\
     forall b, b ∈ agents -> can_take b = true ->
       SFltb (load_ratio b) (load_ratio a) = false /\
       (SFeqb (load_ratio b) (load_ratio a) = true -> String.ltb (a_ID b) (a_ID a) = false)) /\
  (forall agents', agents ≡ₚ agents' -> NoDup (map a_ID agents) ->
     SelectLeastLoaded agents' = SelectLeastLoaded agents).
Proof.
  intros HF. split_and!.
  - split; [by apply select_None|]. intros H. destruct (SelectLeastLoaded agents) as [a|] eqn:E; [|done].
    destruct (select_Some agents a HF E) as (Hin & Hc & _). by rewrite (H a Hin) in Hc.
  - intros a E. destruct (select_Some agents a HF E) as (Hin & Hc & Hmin).
    pose proof Hc as (Hs & _ & Hlt)%can_take_spec. split_and!; [done..|]. intros b Hb Hcb.
    rewrite Forall_forall in HF. specialize (Hmin b Hb Hcb).
    rewrite <- less_loaded_order in Hmin by auto. unfold less_loaded in Hmin.
    split; [|by intros HE; rewrite HE in Hmin]. destruct (SFltb _ _) eqn:EL; [|done].
    unfold SFeqb, SFltb in *. by destruct (SFcompare _ _) as [[]|].
  - intros agents' HP HN. rewrite (SelectLeastLoaded_head agents), (SelectLeastLoaded_head agents')
      by (rewrite <- ?HP; done).
    apply eq_sym, (sort_Slice_head_perm key_lt (fun a => fkey (load_ratio a)) a_ID); [by apply filter_Permutation|by apply filter_ids_NoDup].
Qed.

(** Leader election agrees: two views of the same agents with distinct ids
    elect the same leader, and the leader is an available agent whose
    fingerprint is the lowest among the available ones. *)
Theorem ElectLeader_agreement agents agents' : agents ≡ₚ agents' -> NoDup (map a_ID agents) ->
  ElectLeader agents' = ElectLeader agents /\
  ((ElectLeader agents).2 = true <-> exists a, a ∈ agents /\ a_Status a = AgentStatusAvailable) /\
  ((ElectLeader agents).2 = true -> exists a, a ∈ agents /\ a_Status a = AgentStatusAvailable /\
     LeaderID (ElectLeader agents).1 = a_ID a /\
     forall b, b ∈ agents -> a_Status b = AgentStatusAvailable ->
       String.ltb (a_Fingerprint b) (a_Fingerprint a) = false).
Proof.
  intros HP HN. unfold ElectLeader. change (map AgentClone) with (fmap (M:=list) AgentClone).
  change AgentClone with (@id Agent). rewrite !list_fmap_id.
  rewrite !(sort_Slice_ext less_leader leader_order) by (intros; apply less_leader_order).
  assert (filter is_available agents ≡ₚ filter is_available agents') as HPf by (by rewrite HP).
  pose proof (sort_Slice_head_perm String.ltb a_Fingerprint a_ID _ _ HPf
    (filter_ids_NoDup is_available agents HN)) as HH. fold leader_order in HH.
  pose proof (sort_Slice_perm leader_order (filter is_available agents)) as Hperm.
  assert (forall b, b ∈ filter is_available agents <-> b ∈ agents /\ a_Status b = AgentStatusAvailable) as Hin.
  { intros b. rewrite list_elem_of_filter, Is_true_true. unfold is_available.
    rewrite String.eqb_eq. tauto. }
  destruct (sort_Slice leader_order (filter is_available agents)) as [|x r] eqn:E;
  destruct (sort_Slice leader_order (filter is_available agents')) as [|x' r']; try done; cbn [snd fst].
  - split_and!; [done| |done]. split; [done|]. intros (a & Ha & Hs). exfalso.
    assert (a ∈ filter is_available agents) as Hf by (by apply Hin). rewrite <- Hperm in Hf.
    by apply not_elem_of_nil in Hf.
  - injection HH as <-. destruct (sort_Slice_head _ _ _ _ E) as [Hx Hmin]. apply Hin in Hx as Hx'.
    unfold zlen. rewrite HPf. split_and!; [done|naive_solver|]. intros _. exists x.
    split_and!; [by apply Hx'..|done|]. intros b Hb Hs. specialize (Hmin b (proj2 (Hin b) (conj Hb Hs))).
    unfold leader_order, lex_less in Hmin. case_bool_decide as EF; [|done]. rewrite EF. apply st_irrefl.
Qed.

(** ** Failover planning *)

(** How many of the assignments go to an agent. *)
Definition assigned_to (id : string) (assigned : list Assignment) : Z :=
  zsum (fun x => Z.b2z (String.eqb (AgentID x) id)) assigned.
(** The agent once the assignments are running on it. *)
Definition loaded (assigned : list Assignment) (a : Agent) : Agent :=
  set_load (a_ActiveJobs a + assigned_to (a_ID a) assigned) (a_Status a) (a_LastSeenAt a) a.

Lemma assigned_to_snoc id l x : assigned_to id (l ++ [x]) = assigned_to id l + Z.b2z (String.eqb (AgentID x) id).
Proof. unfold assigned_to. rewrite zsum_app. simpl. lia. Qed.

Lemma assigned_to_perm id l l' : l ≡ₚ l' -> assigned_to id l = assigned_to id l'.
Proof. apply zsum_perm. Qed.

(** Bumping the chosen agent is recording one more assignment to it. *)
Lemma bump_active_loaded j t assigned start : NoDup (map a_ID start) ->
  (forall a, a ∈ start -> a_ID a = t -> in_int64 (a_ActiveJobs a + assigned_to t assigned + 1)) ->
  bump_active t (map (loaded assigned) start) = map (loaded (assigned ++ [mkAssignment j t])) start.
Proof.
  induction start as [|a start IH]; intros HN Hr; [done|]. cbn [map bump_active] in *.
  apply NoDup_cons in HN as [Ha HN]. unfold loaded at 1. cbn [a_ID set_load].
  destruct (String.eqb_spec (a_ID a) t) as [Et|Hne].
  - f_equal.
    + unfold loaded, set_load. cbn. rewrite assigned_to_snoc. cbn [AgentID].
      rewrite Et, String.eqb_refl. rewrite wrap64_id by (rewrite <- Et in *; apply Hr; [left|done]).
      f_equal. simpl. lia.
    + apply map_ext_in. intros b Hb%list_elem_of_In. unfold loaded. rewrite assigned_to_snoc. cbn [AgentID].
      destruct (String.eqb_spec t (a_ID b)) as [Eb|]; [|f_equal; simpl; lia].
      exfalso. apply Ha. rewrite Et, Eb. apply list_elem_of_fmap. by exists b.
  - rewrite IH; [|done|intros b Hb; apply Hr; by right]. f_equal. unfold loaded.
    rewrite assigned_to_snoc. cbn [AgentID]. rewrite (proj2 (String.eqb_neq t (a_ID a))) by done.
    f_equal. simpl. lia.
Qed.

Definition survivor_ok (a : Agent) : Prop :=
  a_Status a = AgentStatusAvailable /\ in_int64 (a_Capacity a) /\ 0 <= a_ActiveJobs a <= a_Capacity a.

(** The state of the loop: no survivor above its capacity, and all of them full as
    soon as a job went unassigned. *)
Record plan_ok (start : list Agent) (assigned : list Assignment) (unassigned : list string) : Prop := {
  pl_targets : Forall (fun x => exists a, a ∈ start /\ a_ID a = AgentID x) assigned;
  pl_capacity : forall a, a ∈ start -> a_ActiveJobs a + assigned_to (a_ID a) assigned <= a_Capacity a;
  pl_full : unassigned <> [] -> forall a, a ∈ start ->
    a_ActiveJobs a + assigned_to (a_ID a) assigned = a_Capacity a
}.

Lemma assigned_to_nonneg id l : 0 <= assigned_to id l.
Proof. apply zsum_nonneg, Forall_true. intros x. by destruct (String.eqb _ _). Qed.

Lemma loaded_ints start assigned unassigned : Forall survivor_ok start ->
  plan_ok start assigned unassigned -> Forall agent_ints (map (loaded assigned) start).
Proof.
  intros HF HP. apply Forall_map, Forall_forall. intros a Ha. rewrite Forall_forall in HF.
  destruct (HF a Ha) as (_ & Hc & Hr). pose proof (pl_capacity _ _ _ HP a Ha).
  pose proof (assigned_to_nonneg (a_ID a) assigned).
  split; cbn; [done|]. unfold in_int64, int64_min in *. lia.
Qed.

(** Giving a job to an agent with a free slot. *)
Lemma plan_ok_assign start assigned unassigned a j :
  NoDup (map a_ID start) -> plan_ok start assigned unassigned -> a ∈ start ->
  a_ActiveJobs a + assigned_to (a_ID a) assigned < a_Capacity a ->
  plan_ok start (assigned ++ [mkAssignment j (a_ID a)]) unassigned.
Proof.
  intros HN HP Ha Hlt. split.
  - apply Forall_snoc. split; [apply HP|]. by exists a.
  - intros b Hb. rewrite assigned_to_snoc. cbn [AgentID]. pose proof (pl_capacity _ _ _ HP b Hb).
    destruct (String.eqb_spec (a_ID a) (a_ID b)) as [E|]; cbn [Z.b2z]; [|lia].
    assert (b = a) as -> by (by apply (NoDup_map_inj a_ID start)). lia.
  - intros Hu. pose proof (pl_full _ _ _ HP Hu a Ha). lia.
Qed.

(** When no agent can take a job all of them are full. *)
Lemma plan_ok_full start assigned unassigned j :
  Forall survivor_ok start -> plan_ok start assigned unassigned ->
  (forall b, b ∈ map (loaded assigned) start -> can_take b = false) ->
  plan_ok start assigned (unassigned ++ [j]).
Proof.
  intros HF HP Hnone. split; [apply HP|apply HP|]. intros _ a Ha.
  pose proof (pl_capacity _ _ _ HP a Ha). rewrite Forall_forall in HF. destruct (HF a Ha) as (Hs & _ & Hr).
  pose proof (assigned_to_nonneg (a_ID a) assigned).
  assert (loaded assigned a ∈ map (loaded assigned) start) as Hin by (apply list_elem_of_fmap; by exists a).
  specialize (Hnone _ Hin). apply not_true_iff_false in Hnone. rewrite can_take_spec in Hnone. cbn in Hnone.
  destruct (decide (a_ActiveJobs a + assigned_to (a_ID a) assigned < a_Capacity a)); [|lia].
  exfalso. apply Hnone. split_and!; [done|lia|lia].
Qed.

Lemma assign_jobs_ok jobs start assigned unassigned res :
  NoDup (map a_ID start) -> Forall survivor_ok start -> plan_ok start assigned unassigned ->
  assign_jobs jobs (map (loaded assigned) start) assigned unassigned = Ok res ->
  plan_ok start res.1 res.2 /\
  map JobID res.1 ++ res.2 ≡ₚ map JobID assigned ++ unassigned ++ map ID jobs.
Proof.
  intros HN HF. revert assigned unassigned. induction jobs as [|job rest IH]; intros assigned unassigned HP.
  { intros [= <-]. cbn. by rewrite app_nil_r. }
  cbn [assign_jobs]. intros ([] & _ & H)%bind_Ok. pose proof (loaded_ints _ _ _ HF HP) as HI.
  destruct (SelectLeastLoaded (map (loaded assigned) start)) as [t|] eqn:ES.
  - destruct (select_Some _ _ HI ES) as ((a & -> & Ha)%list_elem_of_fmap & Hc & _).
    cbn [loaded set_load a_ID] in H. pose proof Hc as (_ & _ & Hlt)%can_take_spec. cbn in Hlt.
    rewrite (bump_active_loaded (ID job)) in H; [|done|].
    + apply IH in H as (HP' & Hperm); [|by apply plan_ok_assign]. split; [done|].
      rewrite Hperm, map_app, <- !app_assoc. cbn [map JobID app]. apply Permutation_app_head, Permutation_middle.
    + intros b Hb Eb. assert (b = a) as -> by (by apply (NoDup_map_inj a_ID start)).
      rewrite Forall_forall in HF. destruct (HF a Ha) as (_ & Hcb & Hrb).
      pose proof (assigned_to_nonneg (a_ID a) assigned). unfold in_int64, int64_min in *. lia.
  - apply IH in H as (HP' & Hperm); [|by apply plan_ok_full, select_None]. split; [done|].
    rewrite Hperm, <- !app_assoc. done.
Qed.

(** Enough for the loop to finish: every job is valid. *)
Lemma assign_jobs_total jobs available assigned unassigned :
  Forall (fun j => ValidateJob j = Ok tt) jobs ->
  exists res, assign_jobs jobs available assigned unassigned = Ok res.
Proof.
  intros HF. revert available assigned unassigned.
  induction HF as [|j jobs Hj _ IH]; intros; cbn [assign_jobs]; [by eexists|].
  rewrite Hj. cbn. destruct (SelectLeastLoaded available); apply IH.
Qed.

Lemma survivors_spec failedID agents a : a ∈ survivors failedID agents <->
  a ∈ agents /\ a_ID a <> failedID /\ a_Status a = AgentStatusAvailable /\ a_ActiveJobs a < a_Capacity a.
Proof.
  unfold survivors. rewrite list_elem_of_filter, Is_true_true.
  rewrite negb_true_iff, !orb_false_iff, negb_false_iff, Z.leb_gt, String.eqb_neq.
  unfold is_available. rewrite String.eqb_eq. tauto.
Qed.


(** ** The registry *)

(** What every operation keeps: agents are stored under their id with a supported
    status, and a load that is not negative. *)
Definition registry_ok (registry : Registry) : Prop :=
  map_Forall (fun id a => a_ID a = id /\ is_ok (ValidateUUID id) = true /\
    IsSupportedAgentStatus (a_Status a) = true /\ 0 <= a_ActiveJobs a /\ 0 < a_Capacity a) registry.

Lemma ValidateAgent_Ok a : ValidateAgent a = Ok tt ->
  is_ok (ValidateUUID (a_ID a)) = true /\ IsSupportedAgentStatus (a_Status a) = true /\
  0 < a_Capacity a /\ 0 <= a_ActiveJobs a <= a_Capacity a.
Proof.
  unfold ValidateAgent. destruct (agent_issues a) eqn:E; [|done]. intros _. revert E.
  unfold agent_issues. rewrite !app_nil, !if_nil, !if_nil_neg. intros. split_and!; tauto || lia.
Qed.

Lemma Register_ok a registry : registry_ok registry -> registry_ok (Register a registry).2.
Proof.
  intros H. unfold Register. destruct (ValidateAgent a) as [[]|e] eqn:E; [|done].
  apply ValidateAgent_Ok in E as (H1 & H2 & H3 & H4). cbn [snd]. apply map_Forall_insert_2; [|done].
  unfold AgentClone. split_and!; done || lia.
Qed.

Lemma heartbeat_ok id active status now clock registry : registry_ok registry ->
  registry_ok (UpdateHeartbeat id active status now clock registry).2.
Proof.
  intros H. unfold UpdateHeartbeat. destruct (NormalizeUUID id) as [nid|]; [|done].
  destruct (Z.ltb_spec active 0); [done|]. set (st := if String.eqb _ _ then _ else _).
  destruct (IsSupportedAgentStatus st) eqn:Es; cbn [negb]; [|done].
  destruct (registry !! nid) as [a|] eqn:Ea; [|done]. cbn [snd]. apply map_Forall_insert_2; [|done].
  destruct (H nid a Ea) as (H1 & H2 & _ & _ & H5). cbn. split_and!; done || lia.
Qed.

(** An operation of the registry, as its clients issue them. *)
Inductive registry_op :=
| OpRegister (a : Agent)
| OpHeartbeat (id : string) (active : Z) (status : string) (now clock : Time).
Definition registry_step (registry : Registry) (o : registry_op) : Registry :=
  match o with
  | OpRegister a => (Register a registry).2
  | OpHeartbeat id active status now clock => (UpdateHeartbeat id active status now clock registry).2
  end.

(** Along any sequence of registrations and heartbeats on a registry built
    empty, agents stay stored under their own id with a supported status, a
    positive capacity and a load that is not negative; [List] returns each of
    them once, in ascending id order. *)
Theorem registry_invariant ops :
  let registry := fold_left registry_step ops ∅ in
  registry_ok registry /\ StronglySorted String.le (map a_ID (List registry)) /\
  NoDup (map a_ID (List registry)) /\
  forall a, a ∈ List registry <-> registry !! a_ID a = Some a.
Proof.
  intros registry. assert (registry_ok registry) as H.
  { subst registry. assert (registry_ok ∅) as H0 by (apply map_Forall_empty). revert H0.
    generalize (∅ : Registry). induction ops as [|o ops IH]; intros r Hr; [done|].
    cbn [fold_left]. apply IH. destruct o; [by apply Register_ok|by apply heartbeat_ok]. }
  clearbody registry. clear ops. unfold List. set (ids := sort_Strings _).
  assert (forall id, id ∈ ids <-> is_Some (registry !! id)) as Hids.
  { intros id. subst ids. rewrite sort_Strings_perm. rewrite list_elem_of_fmap. split.
    - intros ([k a] & -> & Hk%elem_of_map_to_list). by exists a.
    - intros [a Ha]. exists (id, a). split; [done|]. by apply elem_of_map_to_list. }
  assert (map a_ID (map (fun id => AgentClone (default zero_agent (registry !! id))) ids) = ids) as Emap.
  { rewrite map_map. rewrite <- (map_id ids) at 2. apply map_ext_in. intros id [a Ha]%list_elem_of_In%Hids.
    rewrite Ha. cbn. by destruct (H id a Ha) as (-> & _). }
  split_and!; [done|rewrite Emap; apply sort_Strings_sorted| |].
  - rewrite Emap. subst ids. rewrite sort_Strings_perm. apply NoDup_fst_map_to_list.
  - intros a. rewrite list_elem_of_fmap. split.
    + intros (id & -> & [b Hb]%Hids). rewrite Hb. cbn. destruct (H id b Hb) as (-> & _). done.
    + intros Ha. exists (a_ID a). rewrite Ha. split; [done|]. apply Hids. by exists a.
Qed.

(** An agent registered under a canonical id is found again by [Get], under any
    spelling of the id that normalizes to it, and a heartbeat then changes its
    load, status and time stamp and nothing else of the registry. *)
Theorem register_get_heartbeat a registry id active now clock :
  ValidateAgent a = Ok tt -> NormalizeUUID id = Ok (a_ID a) -> 0 <= active ->
  let '(err, registry') := Register a registry in
  err = None /\ Get id registry' = Some a /\
  let '(r, registry'') := UpdateHeartbeat id active AgentStatusDraining now clock registry' in
  r = Ok (set_load active AgentStatusDraining (or_now now clock) a) /\
  Get id registry'' = Some (set_load active AgentStatusDraining (or_now now clock) a) /\
  forall k, k <> a_ID a -> registry'' !! k = registry !! k.
Proof.
  intros HV HN Ha. unfold Register. rewrite HV. split; [done|]. unfold Get, UpdateHeartbeat. rewrite HN.
  rewrite lookup_insert_eq. split; [done|]. rewrite (proj2 (Z.ltb_ge _ _)) by done.
  change (String.eqb (TrimSpace AgentStatusDraining) "") with false. cbv beta iota zeta.
  change (IsSupportedAgentStatus AgentStatusDraining) with true. cbn [negb]. cbv beta iota zeta.
  rewrite lookup_insert_eq. split_and!; [done|done|]. intros k Hk.
  by rewrite !lookup_insert_ne by congruence.
Qed.

(** *** Witnesses *)
Definition sample_agent (id fingerprint : string) (capacity active : Z) : Agent :=
  mkAgent id fingerprint "node-1" "1.0.0" AgentStatusAvailable capacity active 5 ∅.
Definition id1 : string := "11111111-1111-4111-8111-111111111111".
Definition id2 : string := "22222222-2222-4222-8222-222222222222".
Definition fp (c : ascii) : string := str (replicate 64 c).
Definition agent1 : Agent := sample_agent id1 (fp "b") 3 1.
Definition agent2 : Agent := sample_agent id2 (fp "a") 2 1.

Lemma sample_agents_ints : Forall agent_ints [agent1; agent2].
Proof. repeat constructor; vm_compute; discriminate. Qed.
Lemma sample_agents_ids : NoDup (map a_ID [agent1; agent2]).
Proof. apply (bool_decide_unpack _). vm_compute. exact I. Qed.

(** A third of the slots taken beats half of them. *)
Lemma SelectLeastLoaded_spec_witness : SelectLeastLoaded [agent2; agent1] = Some agent1.
Proof.
  destruct (SelectLeastLoaded_spec [agent1; agent2] sample_agents_ints) as (_ & _ & H).
  rewrite (H [agent2; agent1]).
  - vm_compute. reflexivity.
  - apply Permutation_swap.
  - exact sample_agents_ids.
Defined.

Lemma ElectLeader_agreement_witness :
  ElectLeader [agent2; agent1] = ElectLeader [agent1; agent2] /\
  LeaderID (ElectLeader [agent1; agent2]).1 = id2.
Proof.
  destruct (ElectLeader_agreement [agent1; agent2] [agent2; agent1]) as (H & _ & _).
  - apply Permutation_swap.
  - exact sample_agents_ids.
  - split; [exact H|vm_compute; reflexivity].
Defined.


Lemma register_get_heartbeat_witness : Get id1 (Register agent1 ∅).2 = Some agent1.
Proof.
  pose proof (register_get_heartbeat agent1 ∅ id1 2 7 8) as H.
  destruct (Register agent1 ∅) as [err r]. destruct H as (_ & H & _); [vm_compute; reflexivity..| |].
  - lia.
  - exact H.
Defined.

(** A registration under a non-canonical spelling of an id is accepted, and the
    agent cannot be found or updated afterwards. *)
Theorem registered_upper_case_is_lost :
  let a := sample_agent "AAAAAAAA-1111-4111-8111-111111111111" (fp "b") 3 1 in
  let '(err, registry) := Register a ∅ in
  err = None /\ RegistryLen registry = 1 /\ Get (a_ID a) registry = None /\
  is_ok (UpdateHeartbeat (a_ID a) 1 AgentStatusAvailable 7 8 registry).1 = false.
Proof. vm_compute. split_and!; reflexivity. Qed.

(** A heartbeat can store a load above the capacity, which [ValidateAgent] rejects. *)
Theorem heartbeat_breaks_capacity :
  let '(r, registry) := UpdateHeartbeat id1 9 AgentStatusAvailable 7 8 (Register agent1 ∅).2 in
  is_ok r = true /\ (is_ok ∘ ValidateAgent <$> Get id1 registry) = Some false.
Proof. vm_compute. split_and!; reflexivity. Qed.

(** A status with surrounding spaces is accepted as available by a heartbeat, and
    the agent then gets no work. *)
Theorem spaced_status_gets_no_work :
  let '(r, registry) := UpdateHeartbeat id1 1 " available " 7 8 (Register agent1 ∅).2 in
  is_ok r = true /\ SelectLeastLoaded (List registry) = None.
Proof. vm_compute. split_and!; reflexivity. Qed.
