(* ===== verification/Security.v ===== *)
(** * internal/security/security.go

    JSON Web Tokens, API keys, the mTLS policy, roles and permissions, the rate
    limiter and the secrets store.  HMAC-SHA-256 and base64url are executable;
    the JSON codec is a parameter of the token functions. *)
From S2P Require Import Prelude GoStrings GoCrypto GoBase64.

(** [time.Time.Unix]: seconds since 1970. *)
Definition unix_epoch : Z := 62135596800.
Definition Unix (t : Time) : Z := t / second - unix_epoch.

(** ** Lists of names *)
Definition normalizeList (values : list string) : list string :=
  sort_Strings (fold_left push_name values (∅, [])).2.

(** ** JSON Web Tokens *)
Definition errInvalidToken : error := Sentinel "invalid jwt token".

Record JWTOptions := mkJWTOptions {
  jo_Enabled : bool; jo_Secret : string; jo_Issuer : string; jo_Audience : string; jo_TTL : Duration
}.
Record Claims := mkClaims {
  Subject : string; Roles : list string; Issuer : string; Audience : string;
  IssuedAt : Z; ExpiresAt : Z
}.
Record JWTService := mkJWTService {
  j_enabled : bool; j_secret : list Z; j_issuer : string; j_audience : string; j_ttl : Duration
}.

Definition NewJWTService (options : JWTOptions) : result JWTService :=
  let ttl := jo_TTL options in
  let ttl := if ttl <=? 0 then 15 * 60 * second else ttl in
  let secret := TrimSpace (jo_Secret options) in
  if jo_Enabled options && (slen secret <? 16)
  then Err (Errorf "jwt secret must contain at least 16 characters when enabled")
  else Ok (mkJWTService (jo_Enabled options) (bytes_of secret) (TrimSpace (jo_Issuer options))
             (TrimSpace (jo_Audience options)) ttl).

Definition signHS256 (payload secret : list Z) : list Z := hmac_sha256 secret payload.

Definition jwt_header : gmap string string := <["alg" := "HS256"]> {["typ" := "JWT"]}.

Section JWT.
Variable marshal_header : gmap string string -> list Z.
Variable marshal_claims : Claims -> list Z.
Variable unmarshal_header : list Z -> result (gmap string string).
Variable unmarshal_claims : list Z -> result Claims.

(** The claims [Sign] puts into a token. *)
Definition signed_claims (service : JWTService) (subject : string) (roles : list string) (now : Time) : Claims :=
  mkClaims (TrimSpace subject) (normalizeList roles) (j_issuer service) (j_audience service) (Unix now)
    (Unix (now + j_ttl service)).

Definition Sign (service : JWTService) (subject : string) (roles : list string) (now : Time)
  : result string :=
  if bool_decide (j_secret service = []) then Err (Errorf "jwt secret is not configured") else
  let subject' := TrimSpace subject in
  if String.eqb subject' "" then Err (Errorf "subject is required") else
  let claims := signed_claims service subject roles now in
  let hb := marshal_header jwt_header in
  let cb := marshal_claims claims in
  let input := EncodeToString hb +:+ "." +:+ EncodeToString cb in
  let sig := signHS256 (bytes_of input) (j_secret service) in
  Ok (input +:+ "." +:+ EncodeToString sig).

(** The checks on the decoded parts. *)
Definition check_claims (service : JWTService) (claims : Claims) (now : Time) : result Claims :=
  if String.eqb (TrimSpace (Subject claims)) "" || (ExpiresAt claims <=? Unix now)
  then Err errInvalidToken else
  if negb (String.eqb (j_issuer service) "") && negb (String.eqb (Issuer claims) (j_issuer service))
  then Err errInvalidToken else
  if negb (String.eqb (j_audience service) "") && negb (String.eqb (Audience claims) (j_audience service))
  then Err errInvalidToken else
  Ok (mkClaims (Subject claims) (normalizeList (Roles claims)) (Issuer claims) (Audience claims)
        (IssuedAt claims) (ExpiresAt claims)).

Definition Validate (service : JWTService) (token : string) (now : Time) : result Claims :=
  let token := TrimSpace (TrimPrefix (TrimSpace token) "Bearer ") in
  match Split token "." with
  | [p0; p1; p2] =>
    if bool_decide (j_secret service = []) then Err errInvalidToken else
    let expected := signHS256 (bytes_of (p0 +:+ "." +:+ p1)) (j_secret service) in
    match DecodeString p2 with
    | None => Err errInvalidToken
    | Some actual =>
      if negb (bool_decide (expected = actual)) then Err errInvalidToken else
      match DecodeString p0 with
      | None => Err errInvalidToken
      | Some hb =>
        match unmarshal_header hb with
        | Err _ => Err errInvalidToken
        | Ok header =>
          if negb (String.eqb (default "" (header !! "alg")) "HS256") then Err errInvalidToken else
          match DecodeString p1 with
          | None => Err errInvalidToken
          | Some pb =>
            match unmarshal_claims pb with
            | Err _ => Err errInvalidToken
            | Ok claims => check_claims service claims now
            end
          end
        end
      end
    end
  | _ => Err errInvalidToken
  end.
End JWT.

(** ** API keys *)
Definition HashAPIKey (value : string) : string :=
  hex_string (sha256 (bytes_of ("auren-transfer-agent-api-key:" +:+ TrimSpace value))).

Record APIKeyOptions := mkAPIKeyOptions {
  ko_Required : bool; ko_RawKey : string; ko_Hash : string; ko_Header : string
}.
Record APIKeyVerifier := mkAPIKeyVerifier {
  k_required : bool; k_rawKey : string; k_hash : string; k_header : string
}.

Definition NewAPIKeyVerifier (options : APIKeyOptions) : result APIKeyVerifier :=
  let header := TrimSpace (ko_Header options) in
  let header := if String.eqb header "" then "Authorization" else header in
  if ContainsAny header (str ["013"; "010"]%char)
  then Err (Errorf "api key header cannot contain newline characters") else
  let raw := TrimSpace (ko_RawKey options) in
  let hash := TrimSpace (ko_Hash options) in
  if ko_Required options && String.eqb raw "" && String.eqb hash ""
  then Err (Errorf "api key or api key hash is required")
  else Ok (mkAPIKeyVerifier (ko_Required options) raw hash header).

Definition normalizeAPIKeyValue (value : string) : string :=
  let value := TrimSpace value in
  if HasPrefix value "Bearer " then TrimSpace (TrimPrefix value "Bearer ")
  else if HasPrefix value "ApiKey " then TrimSpace (TrimPrefix value "ApiKey ")
  else value.

Definition Verify (verifier : APIKeyVerifier) (value : string) : bool :=
  if negb (k_required verifier) then true else
  let candidate := normalizeAPIKeyValue value in
  if String.eqb candidate "" then false else
  if negb (String.eqb (k_rawKey verifier) "") && String.eqb candidate (k_rawKey verifier) then true else
  if negb (String.eqb (k_hash verifier) "") && String.eqb (HashAPIKey candidate) (k_hash verifier) then true
  else false.

(** ** mTLS: the parts of [tls.ConnectionState] the policy reads *)
Record MTLSPolicy := mkMTLSPolicy { m_enabled : bool; m_requiredCN : string; m_minTLSVersion : Z }.
Record TLSState := mkTLSState {
  tls_Version : Z; tls_PeerCommonNames : list string; tls_VerifiedChains : Z
}.
Definition VersionTLS12 : Z := 0x0303.
Definition NewMTLSPolicy (enabled : bool) (requiredCN : string) (minVersion : Z) : MTLSPolicy :=
  mkMTLSPolicy enabled (TrimSpace requiredCN) (if minVersion =? 0 then VersionTLS12 else minVersion).

Definition ValidateState (policy : MTLSPolicy) (state : option TLSState) : bool :=
  if negb (m_enabled policy) then true else
  match state with
  | None => false
  | Some state =>
    match tls_PeerCommonNames state with
    | [] => false
    | cn :: _ =>
      if (tls_Version state <? m_minTLSVersion policy) || (tls_VerifiedChains state =? 0) then false
      else if String.eqb (m_requiredCN policy) "" then true
      else String.eqb cn (m_requiredCN policy)
    end
  end.

(** ** Roles and permissions *)
Definition PermissionAgentRead : string := "agent:read".
Definition PermissionJobRead : string := "job:read".
Definition PermissionJobWrite : string := "job:write".
Definition PermissionAdmin : string := "admin:*".

Notation Policy := (gmap string (gset string)).

(** [input] lists the entries of the map in the order the runtime enumerates
    them. *)
Definition NewPolicy (input : list (string * list string)) : Policy :=
  fold_left (fun output entry =>
    let r := ToLower (TrimSpace entry.1) in
    if String.eqb r "" then output
    else <[r := list_to_set (normalizeList entry.2)]> output) input ∅.

Definition NewDefaultPolicy : Policy :=
  NewPolicy
    [("admin", [PermissionAdmin; PermissionAgentRead; PermissionJobRead; PermissionJobWrite]);
     ("worker", [PermissionAgentRead; PermissionJobRead; PermissionJobWrite]);
     ("observer", [PermissionAgentRead; PermissionJobRead])].

Definition role_allows (policy : Policy) (permission role : string) : bool :=
  let allowed := default ∅ (policy !! role) in
  bool_decide (PermissionAdmin ∈ allowed) || bool_decide (permission ∈ allowed).

Definition Allows (policy : Policy) (roles : list string) (permission : string) : bool :=
  let permission := ToLower (TrimSpace permission) in
  if String.eqb permission "" then false
  else existsb (role_allows policy permission) (normalizeList roles).

Definition PolicyRoles (policy : Policy) : list string := sort_Strings (map_to_list policy).*1.

(** ** Rate limiting *)
Record rateEntry := mkRateEntry { windowStart : Time; entry_count : Z }.
Record RateLimiter := mkRateLimiter {
  limit : Z; window : Duration; entries : gmap string rateEntry
}.

Definition NewRateLimiter (limit : Z) (window : Duration) : result RateLimiter :=
  if limit <? 0 then Err (Errorf "rate limit must be zero or greater") else
  if window <=? 0 then Err (Errorf "rate limit window must be greater than zero") else
  Ok (mkRateLimiter limit window ∅).

Definition rate_key (key : string) : string :=
  let key := TrimSpace key in if String.eqb key "" then "anonymous" else key.

Definition Allow (limiter : RateLimiter) (key : string) (now : Time) : bool * RateLimiter :=
  if limit limiter =? 0 then (true, limiter) else
  let key := rate_key key in
  let entry := default (mkRateEntry 0 0) (entries limiter !! key) in
  if IsZero (windowStart entry) || (window limiter <=? time_Sub now (windowStart entry)) then
    (true, mkRateLimiter (limit limiter) (window limiter) (<[key := mkRateEntry now 1]> (entries limiter)))
  else if limit limiter <=? entry_count entry then (false, limiter)
  else
    (true, mkRateLimiter (limit limiter) (window limiter)
             (<[key := mkRateEntry (windowStart entry) (entry_count entry + 1)]> (entries limiter))).

(** ** Secrets *)
Definition RedactedPlaceholder : string := "[REDACTED]".
Notation Secrets := (gmap string string).

Definition NewSecrets (values : list (string * string)) : Secrets :=
  fold_left (fun output kv =>
    let key := TrimSpace kv.1 in
    let value := TrimSpace kv.2 in
    if negb (String.eqb key "") && negb (String.eqb value "") then <[key := value]> output else output)
    values ∅.
Definition SecretsGet (secrets : Secrets) (key : string) : option string := secrets !! TrimSpace key.
Definition SecretsCount (secrets : Secrets) : Z := Z.of_nat (size secrets).
Definition SecretsNames (secrets : Secrets) : list string := sort_Strings (map_to_list secrets).*1.
Definition Redact (secrets : Secrets) (input : string) : string :=
  let values := filter (fun v => 4 <=? slen v) (map_to_list secrets).*2 in
  let values := sort_Slice (fun i j => slen j <? slen i) values in
  fold_left (fun output value => ReplaceAll output value RedactedPlaceholder) values input.

#[global] Arguments normalizeList : simpl never.
#[global] Arguments HashAPIKey : simpl never.
#[global] Arguments signHS256 : simpl never.
#[global] Arguments Unix : simpl never.

(** ** Normalized lists *)
Lemma normalizeList_spec values : NoDup (normalizeList values) /\
  StronglySorted String.le (normalizeList values) /\
  forall x, x ∈ normalizeList values <-> x <> "" /\ exists v, v ∈ values /\ canonical v = x.
Proof.
  unfold normalizeList. pose proof (push_names values ∅ []) as H.
  destruct (fold_left push_name values (∅, [])) as [seen acc].
  destruct H as [HN HE]; [set_solver|constructor|]. cbn [snd]. split_and!.
  - by rewrite sort_Strings_perm.
  - apply sort_Strings_sorted.
  - intros x. rewrite sort_Strings_perm, HE. set_solver.
Qed.

Lemma normalizeList_idemp values : normalizeList (normalizeList values) = normalizeList values.
Proof.
  destruct (normalizeList_spec values) as (HN & HS & HE).
  destruct (normalizeList_spec (normalizeList values)) as (HN' & HS' & HE').
  apply (StronglySorted_unique String.le); [done|done|]. apply NoDup_Permutation; [done|done|].
  intros x. rewrite HE'. split.
  - intros (Hne & v & (Hv & w & Hw & <-)%HE & <-). rewrite canonical_idemp. apply HE.
    rewrite canonical_idemp in Hne. eauto.
  - intros Hx. pose proof Hx as (Hne & v & Hv & <-)%HE. split; [done|].
    exists (canonical v). by rewrite canonical_idemp.
Qed.

(** ** Roles *)

(** A request is allowed exactly when the permission is not blank and one of
    the roles, compared without regard to case and surrounding space, is known
    to the policy with that permission or with the admin permission. *)
Theorem Allows_spec policy roles permission :
  Allows policy roles permission = true <->
  canonical permission <> "" /\ exists role allowed, role ∈ roles /\ canonical role <> "" /\
    policy !! canonical role = Some allowed /\
    (PermissionAdmin ∈ allowed \/ canonical permission ∈ allowed).
Proof.
  unfold Allows. fold (canonical permission).
  destruct (normalizeList_spec roles) as (_ & _ & HE).
  destruct (String.eqb_spec (canonical permission) "") as [->|Hne]; [naive_solver|].
  rewrite existsb_exists. unfold role_allows. setoid_rewrite <- list_elem_of_In. split.
  - intros (r & (Hr & role & Hin & <-)%HE & H). split; [done|]. exists role.
    destruct (policy !! canonical role) as [allowed|] eqn:E.
    + exists allowed. rewrite orb_true_iff, !bool_decide_eq_true in H. done.
    + exfalso. rewrite orb_true_iff, !bool_decide_eq_true in H. cbn in H. set_solver.
  - intros (_ & role & allowed & Hin & Hr & HP & H). exists (canonical role). split; [apply HE; eauto|].
    rewrite HP, orb_true_iff, !bool_decide_eq_true. done.
Qed.

(** The default policy: only administrators may do anything, workers may read
    agents and read and write jobs, observers may only read, and nobody else may
    do anything. *)
Theorem default_policy_table role permission :
  Allows NewDefaultPolicy [role] permission = true <->
  canonical permission <> "" /\
  (canonical role = "admin" \/
   canonical role = "worker" /\ canonical permission ∈ [PermissionAgentRead; PermissionJobRead; PermissionJobWrite] \/
   canonical role = "observer" /\ canonical permission ∈ [PermissionAgentRead; PermissionJobRead]).
Proof.
  assert (NewDefaultPolicy =
    <["observer" := list_to_set [PermissionAgentRead; PermissionJobRead]]>
    (<["worker" := list_to_set [PermissionAgentRead; PermissionJobRead; PermissionJobWrite]]>
    (<["admin" := list_to_set [PermissionAdmin; PermissionAgentRead; PermissionJobRead; PermissionJobWrite]]> ∅))) as ->
    by (vm_compute; reflexivity).
  unfold Allows. fold (canonical permission). set (p := canonical permission). clearbody p.
  destruct (normalizeList_spec [role]) as (HN & _ & HE).
  destruct (String.eqb_spec p "") as [->|Hne]; [naive_solver|].
  rewrite existsb_exists. setoid_rewrite <- list_elem_of_In. setoid_rewrite HE. unfold role_allows.
  split.
  - intros (r & (Hr & v & ->%list_elem_of_singleton & <-) & H). split; [done|].
    rewrite orb_true_iff, !bool_decide_eq_true in H.
    destruct (decide (canonical role = "observer")) as [E|N1]; [rewrite E, lookup_insert_eq in H; rewrite E; set_solver|].
    rewrite lookup_insert_ne in H by done.
    destruct (decide (canonical role = "worker")) as [E|N2]; [rewrite E, lookup_insert_eq in H; rewrite E; set_solver|].
    rewrite lookup_insert_ne in H by done.
    destruct (decide (canonical role = "admin")) as [E|N3]; [by left|].
    rewrite lookup_insert_ne in H by done. cbn in H. set_solver.
  - intros (_ & H). exists (canonical role).
    destruct H as [Hr|[[Hr Hp]|[Hr Hp]]]; rewrite Hr.
    all: split; [split; [done|]; exists role; split; [by apply list_elem_of_singleton|done]|].
    all: rewrite orb_true_iff, !bool_decide_eq_true.
    + rewrite !lookup_insert_ne by done. rewrite lookup_insert_eq. left. cbn. set_solver.
    + rewrite lookup_insert_ne by done. rewrite lookup_insert_eq. right. cbn. set_solver.
    + rewrite lookup_insert_eq. right. cbn. set_solver.
Qed.

(** ** API keys *)
(** A scheme and a space in front of a key without white space. *)
Lemma normalize_scheme scheme key c : scheme = "Bearer " \/ scheme = "ApiKey " ->
  head (chars scheme) = Some c -> no_space c = true ->
  Forall (fun c => no_space c = true) (chars key) -> key <> "" ->
  normalizeAPIKeyValue (scheme +:+ key) = key.
Proof.
  intros Hs Hh Hc HF Hne. pose proof (TrimSpace_id key HF) as HT.
  assert (TrimSpace (scheme +:+ key) = scheme +:+ key) as HTs.
  { destruct (last (chars key)) as [d|] eqn:Hl.
    2:{ apply last_None, chars_nil in Hl. done. }
    apply (TrimSpace_ends _ c d); [| |done|].
    - rewrite chars_app. by destruct (chars scheme).
    - rewrite chars_app, last_app, Hl. done.
    - rewrite Forall_forall in HF. apply HF. by apply last_Some_elem_of. }
  unfold normalizeAPIKeyValue. rewrite HTs. destruct Hs as [-> | ->].
  - by rewrite HasPrefix_app, TrimPrefix_app.
  - assert (HasPrefix ("ApiKey " +:+ key) "Bearer " = false) as ->.
    { unfold HasPrefix. rewrite chars_app. done. }
    by rewrite HasPrefix_app, TrimPrefix_app.
Qed.

(** A verifier that requires a key accepts a header value exactly when the key
    in it (after an optional Bearer or ApiKey scheme) is not blank and is the
    configured key or hashes to the configured hash; the configured key is
    accepted under either scheme. *)
Theorem Verify_spec options verifier :
  NewAPIKeyVerifier options = Ok verifier -> ko_Required options = true ->
  (forall value, Verify verifier value = true <->
     normalizeAPIKeyValue value <> "" /\
     (normalizeAPIKeyValue value = TrimSpace (ko_RawKey options) \/
      HashAPIKey (normalizeAPIKeyValue value) = TrimSpace (ko_Hash options))) /\
  (Forall (fun c => no_space c = true) (chars (ko_RawKey options)) -> ko_RawKey options <> "" ->
   Verify verifier ("Bearer " +:+ ko_RawKey options) = true /\
   Verify verifier ("ApiKey " +:+ ko_RawKey options) = true).
Proof.
  unfold NewAPIKeyVerifier. destruct (ContainsAny _ _); [done|]. intros H Hreq. rewrite Hreq in H.
  assert (verifier = mkAPIKeyVerifier true (TrimSpace (ko_RawKey options)) (TrimSpace (ko_Hash options))
    (if String.eqb (TrimSpace (ko_Header options)) "" then "Authorization" else TrimSpace (ko_Header options)))
    as -> by (destruct (true && _ && _); by simplify_eq). clear H.
  assert (forall value, Verify (mkAPIKeyVerifier true (TrimSpace (ko_RawKey options)) (TrimSpace (ko_Hash options))
    (if String.eqb (TrimSpace (ko_Header options)) "" then "Authorization" else TrimSpace (ko_Header options))) value = true <->
     normalizeAPIKeyValue value <> "" /\
     (normalizeAPIKeyValue value = TrimSpace (ko_RawKey options) \/
      HashAPIKey (normalizeAPIKeyValue value) = TrimSpace (ko_Hash options))) as HV.
  { intros value. unfold Verify. cbn [k_required k_rawKey k_hash negb].
    set (candidate := normalizeAPIKeyValue value). clearbody candidate.
    assert (HashAPIKey candidate <> "") as Hh.
    { intros E%chars_nil. unfold HashAPIKey in E. apply (f_equal length) in E.
      by rewrite (proj1 (hex_sha256_shape _)) in E. }
    destruct (String.eqb_spec candidate "") as [->|Hne]; [naive_solver|].
    destruct (String.eqb_spec candidate (TrimSpace (ko_RawKey options))) as [E1|N1].
    { rewrite <- E1, (proj2 (String.eqb_neq candidate "") Hne). cbn. naive_solver. }
    rewrite andb_false_r.
    destruct (String.eqb_spec (HashAPIKey candidate) (TrimSpace (ko_Hash options))) as [E2|N2].
    { rewrite <- E2, (proj2 (String.eqb_neq (HashAPIKey candidate) "") Hh). cbn. naive_solver. }
    rewrite andb_false_r. naive_solver. }
  split; [exact HV|]. intros HF Hne. rewrite !HV, (TrimSpace_id _ HF).
  rewrite (normalize_scheme "Bearer " (ko_RawKey options) "B"), (normalize_scheme "ApiKey " (ko_RawKey options) "A")
    by (done || auto). auto.
Qed.

(** ** Tokens *)
Lemma Split_three a b c : ("."%char ∉ chars a) -> ("."%char ∉ chars b) -> ("."%char ∉ chars c) ->
  Split (a +:+ "." +:+ b +:+ "." +:+ c) "." = [a; b; c].
Proof.
  intros Ha Hb Hc. unfold Split. rewrite !chars_app. cbn [chars app].
  change (chars ".") with ["."%char]. cbn [app]. rewrite !split_chars_app.
  rewrite !split_chars_plain by done. cbn. by rewrite !str_chars.
Qed.

Lemma EncodeToString_chars bs : Forall is_byte bs ->
  Forall (fun c => no_space c = true) (chars (EncodeToString bs)) /\
  "."%char ∉ chars (EncodeToString bs) /\ DecodeString (EncodeToString bs) = Some bs.
Proof.
  intros HF. unfold EncodeToString, DecodeString. rewrite chars_str.
  pose proof (encode64_chars bs HF) as HC. rewrite Forall_forall in HC. split_and!.
  - apply Forall_forall. intros c Hc. by apply HC.
  - intros H. by destruct (HC _ H).
  - by apply decode_encode64.
Qed.

Lemma hmac_bytes key msg : Forall is_byte (hmac_sha256 key msg).
Proof. apply sha256_shape. Qed.

(** A token of three encoded parts survives the normalization of [Validate]. *)
Lemma token_parts a b c : Forall (fun x => no_space x = true) (chars a) ->
  Forall (fun x => no_space x = true) (chars b) -> Forall (fun x => no_space x = true) (chars c) ->
  let token := a +:+ "." +:+ b +:+ "." +:+ c in
  TrimSpace (TrimPrefix (TrimSpace token) "Bearer ") = token.
Proof.
  intros Ha Hb Hc token.
  assert (Forall (fun x => no_space x = true) (chars token)) as HF.
  { unfold token. rewrite !chars_app, !Forall_app. split_and!; try done; by repeat constructor. }
  rewrite (TrimSpace_id token HF).
  assert (TrimPrefix token "Bearer " = token) as ->; [|by apply TrimSpace_id].
  unfold TrimPrefix. destruct (HasPrefix token "Bearer ") eqn:E; [|done]. exfalso.
  apply is_prefix_spec in E as [k E]. rewrite E in HF. apply Forall_app in HF as [HF _].
  rewrite Forall_forall in HF. specialize (HF " "%char). discriminate HF. set_solver.
Qed.

Lemma unless_set x y : negb (String.eqb x "") && negb (String.eqb y x) = false -> x = "" \/ y = x.
Proof. rewrite andb_false_iff, !negb_false_iff, !String.eqb_eq. done. Qed.

Lemma check_claims_Ok service claims' now claims : check_claims service claims' now = Ok claims ->
  claims = mkClaims (Subject claims') (normalizeList (Roles claims')) (Issuer claims') (Audience claims')
             (IssuedAt claims') (ExpiresAt claims') /\
  TrimSpace (Subject claims') <> "" /\ Unix now < ExpiresAt claims' /\
  (j_issuer service = "" \/ Issuer claims' = j_issuer service) /\
  (j_audience service = "" \/ Audience claims' = j_audience service).
Proof.
  unfold check_claims. destruct (_ || _) eqn:E1; [discriminate|].
  destruct (negb _ && negb _) eqn:E2; [discriminate|].
  destruct (negb (String.eqb (j_audience service) "") && _) eqn:E3; [discriminate|].
  intros [= <-]. apply orb_false_iff in E1 as [Es%String.eqb_neq Ee%Z.leb_gt].
  apply unless_set in E2, E3. auto.
Qed.

Section TokenTheorems.
Variable marshal_header : gmap string string -> list Z.
Variable marshal_claims : Claims -> list Z.
Variable unmarshal_header : list Z -> result (gmap string string).
Variable unmarshal_claims : list Z -> result Claims.

(** C33: a token that [Sign] issued is accepted by [Validate] of the same service
    until it expires, with the claims that were signed, provided the JSON codec
    round-trips the header and these claims. *)
Theorem Sign_Validate service subject roles now later token :
  let claims := signed_claims service subject roles now in
  Sign marshal_header marshal_claims service subject roles now = Ok token ->
  Forall is_byte (marshal_header jwt_header) -> Forall is_byte (marshal_claims claims) ->
  unmarshal_header (marshal_header jwt_header) = Ok jwt_header ->
  unmarshal_claims (marshal_claims claims) = Ok claims ->
  Unix later < Unix (now + j_ttl service) ->
  Validate unmarshal_header unmarshal_claims service token later = Ok claims.
Proof.
  intros claims. unfold Sign. case_bool_decide as Hsec; [done|].
  destruct (String.eqb_spec (TrimSpace subject) "") as [|Hsub]; [done|]. fold claims. intros [= <-] Bh Bc Uh Uc Hexp.
  destruct (EncodeToString_chars _ Bh) as (Nh & Dh & Eh), (EncodeToString_chars _ Bc) as (Nc & Dc & Ec).
  set (input := EncodeToString (marshal_header jwt_header) +:+ "." +:+ EncodeToString (marshal_claims claims)).
  destruct (EncodeToString_chars _ (hmac_bytes (j_secret service) (bytes_of input))) as (Ns & Ds & Es).
  set (sig := EncodeToString (signHS256 (bytes_of input) (j_secret service))).
  assert (input +:+ "." +:+ sig = EncodeToString (marshal_header jwt_header) +:+ "." +:+
    EncodeToString (marshal_claims claims) +:+ "." +:+ sig) as ->.
  { apply chars_inj. unfold input. by rewrite !chars_app, <- !app_assoc. }
  unfold Validate. rewrite token_parts, Split_three by done.
  rewrite bool_decide_false by done. fold input. unfold sig, signHS256. rewrite Es.
  rewrite bool_decide_true by done. cbn [negb]. rewrite Eh, Uh.
  change (String.eqb (default "" (jwt_header !! "alg")) "HS256") with true. cbn [negb]. rewrite Ec, Uc.
  unfold check_claims, claims, signed_claims. cbn [Subject Roles Issuer Audience IssuedAt ExpiresAt].
  rewrite TrimSpace_idemp, (proj2 (String.eqb_neq _ _) Hsub), (proj2 (Z.leb_gt _ _)) by done.
  cbn [orb]. rewrite !String.eqb_refl, !andb_false_r, normalizeList_idemp. done.
Qed.

(** C32: [Validate] accepts nothing that was not authenticated: an accepted token
    has three parts, the third of which decodes to the HMAC of the first two
    under the service's secret, its header names HS256, its claims name a
    subject, have not expired and match the configured issuer and audience. *)
Theorem Validate_sound service token now claims :
  Validate unmarshal_header unmarshal_claims service token now = Ok claims ->
  j_secret service <> [] /\ TrimSpace (Subject claims) <> "" /\ Unix now < ExpiresAt claims /\
  (j_issuer service = "" \/ Issuer claims = j_issuer service) /\
  (j_audience service = "" \/ Audience claims = j_audience service) /\
  exists p0 p1 p2 hb header pb claims',
    Split (TrimSpace (TrimPrefix (TrimSpace token) "Bearer ")) "." = [p0; p1; p2] /\
    DecodeString p2 = Some (hmac_sha256 (j_secret service) (bytes_of (p0 +:+ "." +:+ p1))) /\
    DecodeString p0 = Some hb /\ unmarshal_header hb = Ok header /\ header !! "alg" = Some "HS256" /\
    DecodeString p1 = Some pb /\ unmarshal_claims pb = Ok claims' /\
    Subject claims = Subject claims' /\ Roles claims = normalizeList (Roles claims').
Proof.
  unfold Validate. destruct (Split _ _) as [|p0 [|p1 [|p2 [|]]]]; try discriminate.
  case_bool_decide as Hsec; [discriminate|].
  destruct (DecodeString p2) as [actual|] eqn:E2; [|discriminate].
  case_bool_decide as Hsig; cbn [negb]; [|discriminate].
  destruct (DecodeString p0) as [hb|] eqn:E0; [|discriminate].
  destruct (unmarshal_header hb) as [header|] eqn:EH; [|discriminate].
  destruct (String.eqb_spec (default "" (header !! "alg")) "HS256") as [Ealg|]; cbn [negb]; [|discriminate].
  destruct (DecodeString p1) as [pb|] eqn:E1; [|discriminate].
  destruct (unmarshal_claims pb) as [claims'|] eqn:EC; [|discriminate].
  intros (-> & H1 & H2 & H3 & H4)%check_claims_Ok. cbn [Subject Roles Issuer Audience ExpiresAt].
  do 5 (split; [assumption|]). exists p0, p1, p2, hb, header, pb, claims'.
  assert (header !! "alg" = Some "HS256") by (destruct (header !! "alg"); [f_equal; exact Ealg|discriminate]).
  split_and!; try assumption; try reflexivity. rewrite E2, <- Hsig. reflexivity.
Qed.
End TokenTheorems.

(** ** Rate limiting *)

(** A history of calls: the key and the clock of each, in order. *)
Fixpoint allowed_in (lo hi : Time) (key : string) (calls : list (string * Time)) (limiter : RateLimiter) : Z :=
  match calls with
  | [] => 0
  | (k, t) :: rest =>
    let '(ok, limiter') := Allow limiter k t in
    Z.b2z (ok && String.eqb (rate_key k) key && (lo <=? t) && (t <? hi)) + allowed_in lo hi key rest limiter'
  end.

Definition entry_of (key : string) (limiter : RateLimiter) : rateEntry :=
  default (mkRateEntry 0 0) (entries limiter !! key).

Lemma Allow_config limiter k t :
  limit (Allow limiter k t).2 = limit limiter /\ window (Allow limiter k t).2 = window limiter.
Proof. unfold Allow. repeat case_match; done. Qed.

Lemma Allow_other limiter k t key : rate_key k <> key ->
  entry_of key (Allow limiter k t).2 = entry_of key limiter.
Proof.
  intros Hne. unfold Allow, entry_of. destruct (limit limiter =? 0); [done|].
  repeat case_match; cbn [snd entries]; rewrite ?lookup_insert_ne; done.
Qed.

Lemma window_elapsed w t s : in_int64 w -> 0 <= t - s -> (w <=? time_Sub t s) = (w <=? t - s).
Proof. unfold time_Sub, in_int64, int64_min, int64_max. intros H1 H2. lia. Qed.

(** Accounting for one key: [n] calls were counted in [lo, lo + w) so far, the last
    call was at [now]. *)
Definition accounted (lo w l n now : Z) (e : rateEntry) : Prop :=
  (0 < n -> lo <= now) /\ 0 <= n /\
  (IsZero (windowStart e) = true /\ n = 0 \/
   0 < windowStart e <= now /\ 1 <= entry_count e <= l /\
   (windowStart e < lo /\ n <= entry_count e \/ lo <= windowStart e < lo + w /\ n <= l + entry_count e \/
    lo + w <= windowStart e /\ n <= 2 * l)).

Lemma Allow_accounted limiter k t lo n now :
  let key := rate_key k in
  0 < limit limiter -> 0 < window limiter -> in_int64 (window limiter) -> 0 < t -> now <= t ->
  accounted lo (window limiter) (limit limiter) n now (entry_of key limiter) ->
  let '(ok, limiter') := Allow limiter k t in
  accounted lo (window limiter) (limit limiter)
    (n + Z.b2z (ok && (lo <=? t) && (t <? lo + window limiter))) t (entry_of key limiter').
Proof.
  intros key Hl Hw Hi Ht Hnow (H1 & H2 & H3). unfold Allow. rewrite (proj2 (Z.eqb_neq _ _)) by lia.
  fold key. fold (entry_of key limiter). set (e := entry_of key limiter) in *.
  destruct (IsZero (windowStart e) || (window limiter <=? time_Sub t (windowStart e))) eqn:EW.
  - unfold entry_of, accounted. cbn [entries]. rewrite lookup_insert_eq. cbn [default id windowStart entry_count].
    assert (n = 0 \/ window limiter <= t - windowStart e /\ 0 < windowStart e) as Helapsed.
    { destruct H3 as [[_ ->]|[H3 _]]; [by left|]. right. rewrite window_elapsed in EW by (done || lia).
      unfold IsZero in EW. lia. }
    unfold IsZero in *.
    destruct ((lo <=? t) && (t <? lo + window limiter)) eqn:EB; cbn [andb Z.b2z]; rewrite ?EB; cbn [Z.b2z]; lia.
  - apply orb_false_iff in EW as [EZ EW]. destruct H3 as [[H3 _]|H3]; [congruence|].
    assert (t - windowStart e < window limiter) as Hin by (rewrite window_elapsed in EW by (done || lia); lia).
    destruct (Z.leb_spec (limit limiter) (entry_count e)).
    + cbn [andb Z.b2z]. fold e. unfold accounted. lia.
    + unfold entry_of, accounted. cbn [entries]. rewrite lookup_insert_eq. cbn [default id windowStart entry_count].
      destruct ((lo <=? t) && (t <? lo + window limiter)) eqn:EB; cbn [andb Z.b2z]; rewrite ?EB; cbn [Z.b2z]; lia.
Qed.

Lemma allowed_in_bound calls limiter key lo n now :
  0 < limit limiter -> 0 < window limiter -> in_int64 (window limiter) ->
  Forall (fun c => 0 < c.2) calls -> StronglySorted Z.le (now :: calls.*2) ->
  accounted lo (window limiter) (limit limiter) n now (entry_of key limiter) ->
  n + allowed_in lo (lo + window limiter) key calls limiter <= 2 * limit limiter.
Proof.
  intros Hl Hw Hi. revert limiter n now Hl Hw Hi.
  induction calls as [|[k t] rest IH]; intros limiter n now Hl Hw Hi HP HS HA; cbn [allowed_in].
  { destruct HA as (_ & _ & HA). lia. }
  apply Forall_cons in HP as [Ht HP]. cbn in Ht. cbn [fmap list_fmap snd] in HS.
  apply StronglySorted_cons in HS as [Hle HS]. apply Forall_cons in Hle as [Hnow _].
  pose proof (Allow_config limiter k t) as [HL HW].
  destruct (String.eqb_spec (rate_key k) key) as [<-|Hne].
  - pose proof (Allow_accounted limiter k t lo n now Hl Hw Hi Ht Hnow HA) as HA'.
    destruct (Allow limiter k t) as [ok limiter']. cbn [snd] in HL, HW. rewrite andb_true_r.
    rewrite <- HL, <- HW in *. specialize (IH limiter' _ t Hl Hw Hi HP HS HA'). lia.
  - pose proof (Allow_other limiter k t key Hne) as HO.
    destruct (Allow limiter k t) as [ok limiter']. cbn [snd] in HL, HW, HO. rewrite andb_false_r. cbn [andb Z.b2z].
    rewrite <- HL, <- HW, <- HO in *. specialize (IH limiter' n t Hl Hw Hi HP HS). apply IH.
    destruct HA as (H1 & H2 & H3). unfold accounted. lia.
Qed.

(** C34: whatever the calls, a key is never allowed more than twice the limit in any
    interval of the window's length (the limiter resets at fixed window
    boundaries), as long as the clock does not run backwards. *)
Theorem rate_limit_bound l w limiter calls key lo :
  NewRateLimiter l w = Ok limiter -> 0 < l -> in_int64 w ->
  Forall (fun c => 0 < c.2) calls -> StronglySorted Z.le calls.*2 ->
  allowed_in lo (lo + w) key calls limiter <= 2 * l.
Proof.
  unfold NewRateLimiter. intros H Hl Hi HP HS.
  destruct (Z.ltb_spec l 0); [done|]. destruct (Z.leb_spec w 0); [done|]. injection H as <-.
  apply (allowed_in_bound calls (mkRateLimiter l w ∅) key lo 0 0); try done.
  - constructor; [done|]. apply Forall_fmap. eapply Forall_impl; [exact HP|]. simpl. lia.
  - split_and!; [lia|lia|by left].
Qed.

(** *** Witnesses *)
Definition sample_service : JWTService :=
  mkJWTService true (bytes_of "0123456789abcdef") "auren" "" (900 * second).
Definition sample_now : Time := (unix_epoch + 1700000000) * second.
(** A codec for one document of each kind. *)
Definition sample_header_json : list Z := bytes_of "{H}".
Definition sample_claims_json : list Z := bytes_of "{C}".
Definition sample_claims : Claims := signed_claims sample_service " agent " ["Worker"; "worker "] sample_now.
Definition sample_token : string :=
  match Sign (fun _ => sample_header_json) (fun _ => sample_claims_json) sample_service " agent "
          ["Worker"; "worker "] sample_now with Ok t => t | Err _ => "" end.

Lemma sample_token_valid :
  Validate (fun _ => Ok jwt_header) (fun _ => Ok sample_claims) sample_service
    ("Bearer " +:+ sample_token) sample_now = Ok sample_claims.
Proof. vm_compute. reflexivity. Qed.

Lemma Sign_Validate_witness :
  Validate (fun _ => Ok jwt_header) (fun _ => Ok sample_claims) sample_service sample_token sample_now
  = Ok sample_claims.
Proof.
  apply (Sign_Validate (fun _ => sample_header_json) (fun _ => sample_claims_json)
    (fun _ => Ok jwt_header) (fun _ => Ok sample_claims) sample_service " agent " ["Worker"; "worker "]
    sample_now sample_now sample_token).
  - vm_compute. reflexivity.
  - repeat (constructor; [split; vm_compute; discriminate || reflexivity|]). constructor.
  - repeat (constructor; [split; vm_compute; discriminate || reflexivity|]). constructor.
  - reflexivity.
  - reflexivity.
  - vm_compute. reflexivity.
Defined.

Lemma Validate_sound_witness : Unix sample_now < ExpiresAt sample_claims.
Proof.
  destruct (Validate_sound (fun _ => Ok jwt_header) (fun _ => Ok sample_claims) sample_service
    ("Bearer " +:+ sample_token) sample_now sample_claims sample_token_valid) as (_ & _ & H & _).
  exact H.
Defined.

Definition sample_key_options : APIKeyOptions := mkAPIKeyOptions true "s3cret-key" "" "X-Api-Key".
Definition sample_verifier : APIKeyVerifier := mkAPIKeyVerifier true "s3cret-key" "" "X-Api-Key".

Lemma Verify_spec_witness : Verify sample_verifier ("Bearer " +:+ "s3cret-key") = true.
Proof.
  destruct (Verify_spec sample_key_options sample_verifier) as [_ H].
  - vm_compute. reflexivity.
  - reflexivity.
  - apply H; [repeat constructor|discriminate].
Defined.

Definition sample_calls : list (string * Time) :=
  [("a", 9); ("a", 9); ("a", 9); ("b", 9); ("a", 10); ("a", 11); ("a", 19)].

(** Limit 2 per 10: two calls just before the boundary and two just after it. *)
Lemma rate_limit_bound_witness : allowed_in 9 (9 + 10) "a" sample_calls (mkRateLimiter 2 10 ∅) <= 2 * 2.
Proof.
  apply (rate_limit_bound 2 10); [reflexivity|lia|split; vm_compute; discriminate| |].
  - repeat (constructor; [vm_compute; reflexivity|]). constructor.
  - vm_compute. repeat constructor; discriminate.
Defined.
