(* ===== verification/Ranges.v ===== *)
(** * Byte ranges: download/multipart.go and upload/multipart.go plans,
      download/resume.go

    Both plans run the same loop on [int64] values that wrap around.  The slice
    is allocated first with a capacity computed in [int64], and [make] panics
    when that capacity came out negative. *)
From S2P Require Import Prelude GoStrings.

Record Part := mkPart { Index : Z; Start : Z; End_ : Z; BytesWritten : Z }.
Record Plan := mkPlan { PlanSize : Z; PartSize : Z; Parts : list Part }.

Definition panic_makeslice : error := Sentinel "runtime error: makeslice: cap out of range".

(** The capacity expression [(total+part-1)/part]. *)
Definition plan_cap (total part : Z) : Z := Z.quot (wrap64 (wrap64 (total + part) - 1)) part.

(** The loop from [start]; [None] when the fuel does not suffice. *)
Fixpoint plan_loop (fuel : nat) (total part start index : Z) : option (list Part) :=
  if total <=? start then Some [] else
  match fuel with
  | O => None
  | S fuel =>
    let e := wrap64 (wrap64 (start + part) - 1) in
    let e := if total <=? e then wrap64 (total - 1) else e in
    rest ← plan_loop fuel total part (wrap64 (start + part)) (wrap64 (index + 1));
    Some (mkPart index start e 0 :: rest)
  end.

Definition out_of_fuel : error := Sentinel "out of fuel".

(** Without wrap-around the loop makes at most [total / part + 1] turns. *)
Definition run_plan (total part : Z) : result Plan :=
  let cap := plan_cap total part in
  if cap <? 0 then Err panic_makeslice else
  match plan_loop (Z.to_nat (total / part) + 2) total part 0 0 with
  | Some parts => Ok (mkPlan total part parts)
  | None => Err out_of_fuel
  end.

(** [download.NewMultipartPlan]. *)
Definition NewMultipartPlan (totalSize partSize : Z) : result Plan :=
  if totalSize <=? 0 then Err (Errorf "multipart total size must be greater than zero") else
  if partSize <=? 0 then Err (Errorf "multipart part size must be greater than zero") else
  run_plan totalSize partSize.

(** The [RangeHeader] of a download part. *)
Definition RangeHeader (p : Part) : string := "bytes=" +:+ Itoa (Start p) +:+ "-" +:+ Itoa (End_ p).

(** [upload.NewPlan]. *)
Definition NewPlan (size partSize : Z) : result Plan :=
  if size <? 0 then Err (Errorf "upload size must be zero or greater") else
  if partSize <=? 0 then Err (Errorf "upload part size must be greater than zero") else
  if size =? 0 then Ok (mkPlan size partSize [mkPart 0 0 (-1) 0]) else
  run_plan size partSize.

Definition PartsSnapshot (plan : Plan) : list Part := Parts plan.

Definition part_len (p : Part) : Z := End_ p - Start p + 1.

(** [parts] covers the bytes from [lo] to [hi - 1] in order without gap or overlap,
    in pieces of [size] bytes except perhaps the last, numbered from [index]. *)
Fixpoint tiles (size lo hi index : Z) (parts : list Part) : Prop :=
  match parts with
  | [] => lo = hi
  | p :: rest =>
    Start p = lo /\ Index p = index /\ lo <= End_ p < hi /\
    (part_len p = size \/ rest = [] /\ part_len p <= size) /\
    tiles size (End_ p + 1) hi (index + 1) rest
  end.

Lemma plan_loop_tiles fuel total part start index :
  0 < part -> 0 <= start <= total + part - 1 -> total + part - 1 <= int64_max -> 0 <= index <= start ->
  total <= start + part * Z.of_nat fuel ->
  exists parts, plan_loop fuel total part start index = Some parts /\
    (start < total -> tiles part start total index parts) /\ (total <= start -> parts = []).
Proof.
  intros Hp. revert start index. induction fuel as [|fuel IH]; intros start index Hs Hmax Hi Hf;
    cbn [plan_loop]; destruct (Z.leb_spec total start).
  - exists []. split_and!; [done|lia|done].
  - lia.
  - exists []. split_and!; [done|lia|done].
  - assert (wrap64 (start + part) = start + part) as E1
      by (apply wrap64_id; unfold in_int64, int64_min, int64_max in *; lia).
    assert (wrap64 (start + part - 1) = start + part - 1) as E2
      by (apply wrap64_id; unfold in_int64, int64_min, int64_max in *; lia).
    assert (wrap64 (total - 1) = total - 1) as E3
      by (apply wrap64_id; unfold in_int64, int64_min, int64_max in *; lia).
    assert (wrap64 (index + 1) = index + 1) as E4
      by (apply wrap64_id; unfold in_int64, int64_min, int64_max in *; lia).
    rewrite E1, E2, E3, E4.
    destruct (IH (start + part) (index + 1)) as (parts & HL & Ht & He); [lia|lia|lia|lia|].
    rewrite HL. cbn. eexists. split_and!; [done| |lia]. intros _. cbn [tiles Start Index End_ part_len].
    unfold part_len. cbn [Start End_]. destruct (Z.leb_spec total (start + part - 1)).
    + rewrite He by lia. split_and!; [done|done|lia|lia|right; split; [done|lia]|cbn; lia].
    + split_and!; [done|done|lia|lia|left; lia|].
      destruct (Z.lt_ge_cases (start + part) total) as [Hlt|Hge].
      * replace (start + part - 1 + 1) with (start + part) by lia. by apply Ht.
      * rewrite He by lia. cbn. lia.
Qed.

Lemma run_plan_ok total part : 0 < total -> 0 < part -> total + part - 1 <= int64_max ->
  exists plan, run_plan total part = Ok plan /\ PlanSize plan = total /\ PartSize plan = part /\
    tiles part 0 total 0 (Parts plan).
Proof.
  intros Ht Hp Hmax. unfold run_plan, plan_cap.
  assert (wrap64 (wrap64 (total + part) - 1) = total + part - 1) as ->.
  { destruct (decide (total + part <= int64_max)).
    - rewrite (wrap64_id (total + part)) by (unfold in_int64, int64_min, int64_max in *; lia).
      apply wrap64_id. unfold in_int64, int64_min, int64_max in *; lia.
    - assert (total + part = int64_max + 1) as -> by lia. reflexivity. }
  rewrite Z.quot_div_nonneg by lia. pose proof (Z.div_pos (total + part - 1) part).
  rewrite (proj2 (Z.ltb_ge _ _)) by lia.
  pose proof (Z.div_mod total part). pose proof (Z.mod_pos_bound total part). pose proof (Z.div_pos total part).
  assert (total / part <= total) by (apply Z.div_le_upper_bound; nia).
  destruct (plan_loop_tiles (Z.to_nat (total / part) + 2) total part 0 0) as (parts & HL & HT & _);
    try (unfold int64_max in *; lia); try nia.
  rewrite HL. eexists. split_and!; [done|done|done|]. by apply HT.
Qed.

(** The lengths of the parts add up. *)
Lemma tiles_sum size lo hi index parts : tiles size lo hi index parts -> zsum part_len parts = hi - lo.
Proof.
  revert lo index. induction parts as [|p rest IH]; intros lo index; cbn [tiles zsum foldr]; [lia|].
  intros (Hs & _ & _ & _ & Ht). apply IH in Ht. unfold zsum in Ht. rewrite Ht. unfold part_len. lia.
Qed.

(** The bytes [lo] to [hi] of a text. *)
Definition slice (content : string) (lo hi : Z) : list ascii :=
  take (Z.to_nat (hi - lo + 1)) (drop (Z.to_nat lo) (chars content)).

(** The pieces of a text cut along a plan make up the text. *)
Lemma tiles_concat content size hi parts : forall lo index, tiles size lo hi index parts -> 0 <= lo -> hi <= slen content ->
  concat (map (fun p => slice content (Start p) (End_ p)) parts) = take (Z.to_nat (hi - lo)) (drop (Z.to_nat lo) (chars content)).
Proof.
  induction parts as [|p rest IH]; intros lo index Ht Hlo Hhi; cbn [tiles] in Ht.
  { cbn. replace (hi - lo) with 0 by lia. done. }
  destruct Ht as (HS & _ & HE & _ & Hrest). cbn [map concat]. rewrite (IH _ _ Hrest) by lia. unfold slice. rewrite HS.
  set (n := Z.to_nat (End_ p - lo + 1)). set (m := Z.to_nat (hi - (End_ p + 1))).
  replace (Z.to_nat (hi - lo)) with (n + m)%nat by (unfold n, m; lia).
  replace (Z.to_nat (End_ p + 1)) with (Z.to_nat lo + n)%nat by (unfold n; lia).
  rewrite <- drop_drop. symmetry. rewrite <- (take_drop n (take (n + m) _)). rewrite take_take, skipn_firstn_comm.
  by replace (n `min` (n + m))%nat with n by lia; replace (n + m - n)%nat with m by lia.
Qed.

(** ** Properties *)

(** A multipart download plan covers the bytes 0 to total-1 in order, without
    gap or overlap, in parts of the requested size except perhaps the last, for
    every total and part size whose sum stays within 64 bits; sizes that are not
    positive are rejected. *)
Theorem NewMultipartPlan_tiles total part : in_int64 total -> in_int64 part ->
  total + part - 1 <= int64_max ->
  if (0 <? total) && (0 <? part)
  then exists plan, NewMultipartPlan total part = Ok plan /\ PlanSize plan = total /\
         PartSize plan = part /\ tiles part 0 total 0 (Parts plan) /\
         zsum part_len (Parts plan) = total
  else is_ok (NewMultipartPlan total part) = false.
Proof.
  intros Ht Hp Hmax. unfold NewMultipartPlan.
  destruct (Z.ltb_spec 0 total), (Z.ltb_spec 0 part); cbn [andb];
    [|destruct (Z.leb_spec total 0), (Z.leb_spec part 0); done || lia..].
  rewrite !(proj2 (Z.leb_gt _ _)) by lia.
  destruct (run_plan_ok total part) as (plan & H1 & H2 & H3 & H4); [done..|].
  exists plan. split_and!; [done..|]. rewrite (tiles_sum _ _ _ _ _ H4). lia.
Qed.

(** A content length close to the largest [int64], which a server chooses, makes
    the allocation of the plan panic. *)
Theorem NewMultipartPlan_panics : NewMultipartPlan int64_max (8 * 1024 * 1024) = Err panic_makeslice.
Proof. vm_compute. reflexivity. Qed.

Lemma NewMultipartPlan_tiles_witness :
  exists plan, NewMultipartPlan 10 4 = Ok plan /\ zsum part_len (Parts plan) = 10.
Proof.
  destruct (NewMultipartPlan_tiles 10 4) as (plan & H1 & _ & _ & _ & H2).
  - split; vm_compute; discriminate.
  - split; vm_compute; discriminate.
  - vm_compute. discriminate.
  - exists plan. split; [exact H1|exact H2].
Defined.

Example plan_10_4 : NewMultipartPlan 10 4 = Ok (mkPlan 10 4 [mkPart 0 0 3 0; mkPart 1 4 7 0; mkPart 2 8 9 0]).
Proof. vm_compute. reflexivity. Qed.

(** ** download/resume.go *)
Record ResumeState := mkResumeState {
  rs_Enabled : bool; rs_ExistingBytes : Z; rs_TotalBytes : Z; rs_RangeHeader : string; rs_Complete : bool
}.

Definition NewResumeState (enabled : bool) (existing total : Z) : result ResumeState :=
  if existing <? 0 then Err (Errorf "existing bytes must be zero or greater") else
  if total <? 0 then Err (Errorf "total bytes must be zero or greater") else
  if negb enabled || (existing =? 0) then Ok (mkResumeState enabled existing total "" false) else
  if (0 <? total) && (total <=? existing) then Ok (mkResumeState enabled existing total "" true) else
  Ok (mkResumeState enabled existing total ("bytes=" +:+ Itoa existing +:+ "-") false).

(** What [os.Stat] reports. *)
Inductive stat_result := StatFile (size : Z) | StatDir | StatMissing | StatError (e : error).

Definition ResumeFromFile (path : string) (stat : stat_result) (enabled : bool) (totalBytes : Z)
  : result ResumeState :=
  if String.eqb path "" then NewResumeState enabled 0 totalBytes else
  match stat with
  | StatMissing => NewResumeState enabled 0 totalBytes
  | StatError e => Err e
  | StatDir => Err (Errorf ("resume path is a directory: " +:+ path))
  | StatFile size => NewResumeState enabled size totalBytes
  end.

(** A partial file is resumed from its length exactly when resuming is enabled,
    the file is not empty and not already complete; a file at least as long as a
    known total counts as complete; otherwise the download starts over. *)
Theorem ResumeFromFile_spec path size enabled total : path <> "" -> 0 <= size -> 0 <= total ->
  exists st, ResumeFromFile path (StatFile size) enabled total = Ok st /\ rs_ExistingBytes st = size /\
    (rs_Complete st = true <-> enabled = true /\ 0 < total /\ total <= size) /\
    (rs_RangeHeader st = if enabled && (0 <? size) && negb ((0 <? total) && (total <=? size))
                         then "bytes=" +:+ Itoa size +:+ "-" else "").
Proof.
  intros Hp Hs Ht. unfold ResumeFromFile, NewResumeState. rewrite (proj2 (String.eqb_neq _ _) Hp).
  rewrite (proj2 (Z.ltb_ge size 0)), (proj2 (Z.ltb_ge total 0)) by done.
  destruct enabled; cbn [negb orb andb].
  2:{ eexists. split_and!; [done|done|cbn; naive_solver|done]. }
  destruct (Z.eqb_spec size 0) as [->|Hne]; cbn [negb orb andb].
  { eexists. split_and!; [done|done|cbn; split; [done|lia]|done]. }
  rewrite (proj2 (Z.ltb_lt 0 size)) by lia. cbn [andb].
  destruct ((0 <? total) && (total <=? size)) eqn:E; cbn [negb].
  - eexists. split_and!; [done|done|cbn; split; [intros _; split; [done|lia]|done]|done].
  - eexists. split_and!; [done|done|cbn; split; [done|lia]|done].
Qed.

Lemma ResumeFromFile_spec_witness :
  exists st, ResumeFromFile "a.part" (StatFile 5) true 9 = Ok st /\ rs_RangeHeader st = "bytes=5-".
Proof.
  destruct (ResumeFromFile_spec "a.part" 5 true 9) as (st & H1 & _ & _ & H2); [discriminate|lia|lia|].
  exists st. split; [exact H1|]. rewrite H2. vm_compute. reflexivity.
Defined.
