(* ===== verification/Upload.v ===== *)
(** * internal/upload: local uploads

    Files live in a map from paths to contents.  [Stat] failures and directories,
    short reads and writes and failing system calls are arguments, so every
    outcome of the operating system is covered. *)
From S2P Require Import Prelude GoStrings GoPath GoCrypto GoFS Ranges.

Definition LocalUploaderName : string := "local".
Definition DriverLocal : string := "local".

Record Request := mkRequest {
  SourcePath : string; DestinationPath : string; ReqMetadata : gmap string string
}.
Record Result := mkResult {
  Uploader : string;
  Driver : string;
  ResSourcePath : string;
  ResDestinationPath : string;
  ResBytesWritten : Z;
  ResDuration : Duration;
  Multipart : bool;
  Resumed : bool;
  AlreadyComplete : bool;
  ResParts : list Part;
  ResMetadata : gmap string string
}.

Definition ValidateRequest (request : Request) : result unit :=
  if String.eqb (TrimSpace (SourcePath request)) "" then Err (Errorf "upload source path is required") else
  if String.eqb (TrimSpace (DestinationPath request)) "" then Err (Errorf "upload destination path is required")
  else Ok tt.

(** ** local.go: destinations *)
Record LocalUploader := mkLocalUploader { root : string }.

Definition NewLocalUploader (root : string) : result LocalUploader :=
  let trimmed := TrimSpace root in
  if String.eqb trimmed "" then Err (Errorf "local upload root is required")
  else Ok (mkLocalUploader (Clean trimmed)).

Definition ResolveDestination (uploader : LocalUploader) (destination : string) : result string :=
  let trimmed := TrimSpace destination in
  if String.eqb trimmed "" then Err (Errorf "upload destination path is required") else
  if IsAbs trimmed then Err (Errorf "upload destination must be relative") else
  let cleaned := Clean trimmed in
  if String.eqb cleaned "." || String.eqb cleaned ".." || HasPrefix cleaned "../"
  then Err (Errorf "upload destination escapes local root")
  else Ok (Join2 (root uploader) cleaned).

(** ** Copying *)

(** How the system answers a copy: [io.Copy] writes everything, or fails after
    some bytes. *)
Definition copy_fault := option (nat * error).
Definition copied (fault : copy_fault) (content : string) : string :=
  match fault with None => content | Some (k, _) => str (take k (chars content)) end.

(** Outcomes of the system calls of an upload, and the time it took. *)
Record upload_env := mkUploadEnv {
  u_mkdir : option error;
  u_ctx : Context;
  u_open_source : option error;
  u_open_target : option error;
  u_copy : copy_fault;
  u_close : option error;
  u_duration : Duration
}.
Definition upload_ok : upload_env := mkUploadEnv None None None None None None 0.

(** [LocalUploader.Upload].  The source is opened before the target is truncated
    but read afterwards, so it is read from the state with the target emptied. *)
Definition Upload (uploader : LocalUploader) (env : upload_env) (request : Request) (fs : FS)
  : result Result * FS :=
  match ValidateRequest request with
  | Err e => (Err e, fs)
  | Ok _ =>
    match ResolveDestination uploader (DestinationPath request) with
    | Err e => (Err e, fs)
    | Ok destination =>
      match u_mkdir env, u_ctx env with
      | Some e, _ => (Err e, fs)
      | None, Some e => (Err e, fs)
      | None, None =>
        match ReadFile (u_open_source env) (SourcePath request) fs with
        | Err e => (Err e, fs)
        | Ok _ =>
          match u_open_target env with
          | Some e => (Err e, fs)
          | None =>
            let fs := <[destination := ""]> fs in
            let source := default "" (fs !! SourcePath request) in
            let fs := <[destination := copied (u_copy env) source]> fs in
            match u_copy env, u_close env with
            | Some (_, e), _ => (Err e, fs)
            | None, Some e => (Err e, fs)
            | None, None =>
              (Ok (mkResult LocalUploaderName DriverLocal (SourcePath request) destination (slen source)
                     (u_duration env) false false false [] (ReqMetadata request)), fs)
            end
          end
        end
      end
    end
  end.

(** ** multipart.go: copying part by part *)

(** A reader over the rest of the source, with the answers the system will give:
    at most so many bytes, and an error.  Once the script is used up every read
    is as long as possible. *)
Definition io_EOF : error := Sentinel "EOF".
Definition io_ErrShortWrite : error := Sentinel "short write".
Record stream := mkStream { s_data : list ascii; s_script : list (nat * option error) }.

Definition Read (chunk : nat) (s : stream) : (list ascii * option error) * stream :=
  match s_script s with
  | [] =>
    let n := Nat.min chunk (length (s_data s)) in
    ((take n (s_data s), if bool_decide (s_data s = []) then Some io_EOF else None),
     mkStream (drop n (s_data s)) [])
  | (m, e) :: script =>
    let n := Nat.min m (Nat.min chunk (length (s_data s))) in
    ((take n (s_data s), e), mkStream (drop n (s_data s)) script)
  end.

(** A writer and its answers: how many bytes it takes, and an error. *)
Definition Write (bs : list ascii) (w : stream) : (nat * option error) * stream :=
  match s_script w with
  | [] => ((length bs, None), mkStream (s_data w ++ bs) [])
  | (m, e) :: script =>
    let n := Nat.min m (length bs) in ((n, e), mkStream (s_data w ++ take n bs) script)
  end.

(** The loop of [copyLimited]; [None] when the fuel does not suffice. *)
Fixpoint copy_loop (fuel buffer : nat) (r w : stream) (remaining written : nat)
  : option ((nat * option error) * (stream * stream)) :=
  if bool_decide (remaining = 0%nat) then Some ((written, None), (r, w)) else
  match fuel with
  | O => None
  | S fuel =>
    let chunk := Nat.min buffer remaining in
    let '((bs, readErr), r') := Read chunk r in
    let after w' written' remaining' :=
      match readErr with
      | None => copy_loop fuel buffer r' w' remaining' written'
      | Some e =>
        if bool_decide (e = io_EOF) && bool_decide (remaining' = 0%nat) then Some ((written', None), (r', w'))
        else Some ((written', Some e), (r', w'))
      end in
    if bool_decide (bs = []) then after w written remaining else
    let '((out, writeErr), w') := Write bs w in
    let written' := (written + out)%nat in
    let remaining' := (remaining - out)%nat in
    match writeErr with
    | Some e => Some ((written', Some e), (r', w'))
    | None =>
      if negb (bool_decide (out = length bs)) then Some ((written', Some io_ErrShortWrite), (r', w'))
      else after w' written' remaining'
    end
  end.

Definition copy_fuel (r : stream) (remaining : nat) : nat := (length (s_script r) + remaining + 2)%nat.

Definition copyLimited (r w : stream) (buffer remaining : nat)
  : option ((nat * option error) * (stream * stream)) :=
  copy_loop (copy_fuel r remaining) buffer r w remaining 0.

Definition minInt64 (left right : Z) : Z := if left <? right then left else right.

(** The loop over the parts; [ctxs] is the context as read before each part. *)
Fixpoint copy_parts (buffer : nat) (ctxs : list Context) (parts : list Part) (r w : stream) (total : Z)
  : option (result (list Part * Z) * (stream * stream)) :=
  match parts with
  | [] => Some (Ok ([], total), (r, w))
  | part :: rest =>
    match head ctxs with
    | Some (Some e) => Some (Err e, (r, w))
    | _ =>
      let remaining := if Start part <=? End_ part then wrap64 (End_ part - Start part + 1) else 0 in
      '((written, err), (r', w')) ← copyLimited r w buffer (Z.to_nat remaining);
      let part' := mkPart (Index part) (Start part) (End_ part) (Z.of_nat written) in
      match err with
      | Some e => Some (Err e, (r', w'))
      | None =>
        if negb (Z.of_nat written =? remaining)
        then Some (Err (Errorf ("upload part " +:+ Itoa (Index part) +:+ " wrote " +:+ Itoa (Z.of_nat written)
                                +:+ " bytes, expected " +:+ Itoa remaining)), (r', w'))
        else
          '(res, rw) ← copy_parts buffer (tail ctxs) rest r' w' (wrap64 (total + Z.of_nat written));
          Some (match res with Ok (ps, t) => Ok (part' :: ps, t) | Err e => Err e end, rw)
      end
    end
  end.

(** [multipartCopy] from the opened source and the truncated target. *)
Definition multipartCopy (ctxs : list Context) (plan : Plan) (r w : stream)
  : option (result (list Part * Z) * (stream * stream)) :=
  let buffer := minInt64 (PartSize plan) (1024 * 1024) in
  copy_parts (Z.to_nat buffer) ctxs (PartsSnapshot plan) r w 0.

(** ** multipart.go: sizes in configuration *)
Definition units : list (string * Z) :=
  [("kib", 1024); ("mib", 1024 * 1024); ("gib", 1024 * 1024 * 1024);
   ("kb", 1000); ("mb", 1000 * 1000); ("gb", 1000 * 1000 * 1000); ("b", 1)].

Definition ParsePartSize (value : string) : result Z :=
  let trimmed := TrimSpace value in
  if String.eqb trimmed "" then Err (Errorf "upload part size is required") else
  let lower := ToLower trimmed in
  let '(number, multiplier) :=
    match find (fun u => HasSuffix lower u.1) units with
    | Some u => (TrimSpace (TrimSuffix lower u.1), u.2)
    | None => (lower, 1)
    end in
  match ParseInt number with
  | Err e => Err e
  | Ok parsed =>
    if parsed <=? 0 then Err (Errorf "upload part size must be positive")
    else Ok (wrap64 (parsed * multiplier))
  end.

(** ** resume.go *)
Record UploadResumeState := mkUploadResumeState {
  ur_SourcePath : string; ur_DestinationPath : string; ur_SourceSize : Z; ur_DestinationSize : Z;
  ur_Offset : Z; ur_Complete : bool
}.

(** [os.Stat] on the files of [fs]; [other] answers for directories and failures. *)
Definition Stat (other : option stat_result) (path : string) (fs : FS) : stat_result :=
  match other with
  | Some r => r
  | None => match fs !! path with Some content => StatFile (slen content) | None => StatMissing end
  end.

Definition ResumeFromLocalState (uploader : LocalUploader) (src_stat dst_stat : option stat_result)
  (request : Request) (fs : FS) : result UploadResumeState :=
  _ ← ValidateRequest request;
  destination ← ResolveDestination uploader (DestinationPath request);
  match Stat src_stat (SourcePath request) fs with
  | StatMissing => Err (path_error "stat" (SourcePath request) os_ErrNotExist)
  | StatError e => Err e
  | StatDir => Err (Errorf "upload source must be a file")
  | StatFile sourceSize =>
    destinationSize ←
      match Stat dst_stat destination fs with
      | StatMissing => Ok 0
      | StatError e => Err e
      | StatDir => Err (Errorf "upload destination is a directory")
      | StatFile size => Ok size
      end;
    if sourceSize <? destinationSize then Err (Errorf "upload destination is larger than source")
    else Ok (mkUploadResumeState (SourcePath request) destination sourceSize destinationSize destinationSize
               (destinationSize =? sourceSize))
  end.

Definition FormatBool (b : bool) : string := if b then "true" else "false".

Definition ResumeUpload (uploader : LocalUploader) (env : upload_env) (src_stat dst_stat : option stat_result)
  (request : Request) (fs : FS) : result Result * FS :=
  match ResumeFromLocalState uploader src_stat dst_stat request fs with
  | Err e => (Err e, fs)
  | Ok state =>
    let metadata := <["resume_complete" := FormatBool (ur_Complete state)]>
      (<["resume_offset" := Itoa (ur_Offset state)]> (<["resume" := "true"]> (ReqMetadata request))) in
    if ur_Complete state then
      (Ok (mkResult LocalUploaderName DriverLocal (SourcePath request) (ur_DestinationPath state) 0 0
             false true true [] metadata), fs)
    else
      match u_mkdir env, u_ctx env with
      | Some e, _ => (Err e, fs)
      | None, Some e => (Err e, fs)
      | None, None =>
        match ReadFile (u_open_source env) (SourcePath request) fs with
        | Err e => (Err e, fs)
        | Ok source =>
          match u_open_target env with
          | Some e => (Err e, fs)
          | None =>
            let old := if ur_Offset state =? 0 then "" else default "" (fs !! ur_DestinationPath state) in
            let rest := str (drop (Z.to_nat (ur_Offset state)) (chars source)) in
            let fs := <[ur_DestinationPath state := old +:+ copied (u_copy env) rest]> fs in
            match u_copy env, u_close env with
            | Some (_, e), _ => (Err e, fs)
            | None, Some e => (Err e, fs)
            | None, None =>
              (Ok (mkResult LocalUploaderName DriverLocal (SourcePath request) (ur_DestinationPath state)
                     (slen rest) (u_duration env) false true false [] metadata), fs)
            end
          end
        end
      end
  end.

(** ** integrity.go *)
Record IntegrityResult := mkIntegrityResult {
  ir_Algorithm : string; ir_SourcePath : string; ir_DestinationPath : string;
  ir_SourceSize : Z; ir_DestinationSize : Z; ir_SourceChecksum : string; ir_DestinationChecksum : string;
  ir_SizeMatch : bool; ir_ChecksumMatch : bool; ir_Valid : bool
}.

(** [checksumFile]: the context before the file is opened and while it is read, a
    failure to open or read it, and whether it is a directory. *)
Record checksum_env := mkChecksumEnv {
  k_ctx : Context; k_open : option error; k_isdir : bool; k_ctx_read : Context
}.
Definition checksum_ok : checksum_env := mkChecksumEnv None None false None.

Definition checksumFile (env : checksum_env) (path : string) (fs : FS) : result (Z * string) :=
  match k_ctx env, k_open env with
  | Some e, _ => Err e
  | None, Some e => Err (path_error "open" path e)
  | None, None =>
    if k_isdir env then Err (Errorf "integrity path must be a file") else
    match ReadFile None path fs, k_ctx_read env with
    | Err e, _ => Err e
    | Ok _, Some e => Err e
    | Ok content, None => Ok (slen content, hex_string (sha256 (bytes_of content)))
    end
  end.

Definition ValidateIntegrity (src_env dst_env : checksum_env) (sourcePath destinationPath : string) (fs : FS)
  : result IntegrityResult :=
  if String.eqb (TrimSpace sourcePath) "" then Err (Errorf "integrity source path is required") else
  if String.eqb (TrimSpace destinationPath) "" then Err (Errorf "integrity destination path is required") else
  '(sourceSize, sourceChecksum) ← checksumFile src_env sourcePath fs;
  '(destinationSize, destinationChecksum) ← checksumFile dst_env destinationPath fs;
  let sizeMatch := sourceSize =? destinationSize in
  let checksumMatch := String.eqb sourceChecksum destinationChecksum in
  Ok (mkIntegrityResult "sha256" sourcePath destinationPath sourceSize destinationSize sourceChecksum
        destinationChecksum sizeMatch checksumMatch (sizeMatch && checksumMatch)).

#[global] Arguments Clean : simpl never.
#[global] Arguments Join2 : simpl never.
#[global] Arguments ResolveDestination : simpl never.
#[global] Arguments ValidateRequest : simpl never.

(** ** Destinations stay under the root *)
Lemma NewLocalUploader_root r u : NewLocalUploader r = Ok u ->
  root u = render (IsAbs (TrimSpace r)) (path_stack (TrimSpace r)) /\
  clean_stack (IsAbs (TrimSpace r)) (path_stack (TrimSpace r)).
Proof.
  unfold NewLocalUploader. destruct (String.eqb _ _); [done|]. intros [= <-].
  split; [done|apply path_stack_clean].
Qed.

(** A relative cleaned path that is not "." and does not start with ".." consists
    of plain components. *)
Lemma clean_relative_plain s : clean_stack false s -> render false s <> "." ->
  render false s <> ".." -> HasPrefix (render false s) "../" = false -> s <> [] /\ Forall plain s.
Proof.
  intros Hs H1 H2 H3. destruct s as [|c s]; [done|]. split; [done|].
  assert (exists ps n, c :: s = ps ++ replicate n dotdot /\ Forall plain ps) as (ps & n & E & HP).
  { clear -Hs. induction Hs as [n Hn|d t Hd _ (ps & n & -> & IH)]; [by exists [], n|].
    exists (d :: ps), n. split; [done|by constructor]. }
  destruct n as [|n]; [rewrite app_nil_r in E; by rewrite E|]. exfalso.
  rewrite E in H2, H3. unfold render in H2, H3.
  assert (exists r, join_chars slash (reverse (ps ++ replicate (S n) dotdot)) = dotdot ++ r /\
            (r = [] \/ head r = Some slash)) as (r & Hr & Hhead).
  { rewrite reverse_app, reverse_replicate. cbn [replicate app].
    destruct (replicate n dotdot ++ reverse ps) as [|x xs]; cbn [join_chars].
    - exists []. rewrite app_nil_r. auto.
    - eexists. split; [reflexivity|by right]. }
  assert (ps ++ replicate (S n) dotdot <> []) as Hne by (by destruct ps).
  destruct (ps ++ replicate (S n) dotdot) as [|y ys]; [done|]. rewrite Hr in H2, H3.
  destruct Hhead as [->|Hhead]; [by apply H2|]. destruct r as [|z r]; [done|]. injection Hhead as ->.
  unfold HasPrefix in H3. rewrite chars_str in H3. cbn in H3. done.
Qed.

Lemma resolved_inside r u destination p :
  NewLocalUploader r = Ok u -> ResolveDestination u destination = Ok p ->
  exists added, added <> [] /\ Forall plain added /\
    IsAbs p = IsAbs (root u) /\ path_stack p = added ++ path_stack (root u).
Proof.
  intros Hu Hp. destruct (NewLocalUploader_root r u Hu) as [Er Hr].
  unfold ResolveDestination in Hp. destruct (String.eqb _ _); [done|].
  destruct (IsAbs (TrimSpace destination)) eqn:Ea; [done|].
  pose proof (path_stack_clean (TrimSpace destination)) as Hd. unfold Clean in Hp. rewrite Ea in Hp, Hd.
  destruct (_ || _) eqn:Eb; [done|]. injection Hp as <-.
  apply orb_false_iff in Eb as [[E1%String.eqb_neq E2%String.eqb_neq]%orb_false_iff E3].
  destruct (clean_relative_plain _ Hd E1 E2 E3) as [Hne HF].
  set (ds := path_stack (TrimSpace destination)) in *. set (rs := path_stack (TrimSpace r)) in *.
  assert (clean_stack (IsAbs (TrimSpace r)) (ds ++ rs)) as Hall.
  { clear -HF Hr. induction HF; [done|by apply cs_push]. }
  change (match ds with [] => "." | _ => str (join_chars slash (reverse ds)) end) with (render false ds).
  exists ds. split_and!; [done|done|..].
  - rewrite Er, Join2_plain, !IsAbs_render by done. done.
  - rewrite Er, Join2_plain, !path_stack_render by done. done.
Qed.

(** C35: a local upload never leaves the root: a resolved destination is the
    cleaned root followed by at least one further component, and none of the
    added components is empty, ".", ".." or contains a slash. *)
Theorem ResolveDestination_confined r u destination p :
  NewLocalUploader r = Ok u -> ResolveDestination u destination = Ok p ->
  exists added, added <> [] /\ Forall plain added /\
    IsAbs p = IsAbs (root u) /\ path_stack p = added ++ path_stack (root u).
Proof. apply resolved_inside. Qed.

Lemma ResolveDestination_confined_witness :
  exists added, added <> [] /\ path_stack "data/up/movies/a.ts" = added ++ path_stack "data/up".
Proof.
  destruct (ResolveDestination_confined " ./data/up/ " (mkLocalUploader "data/up") "x/../movies//a.ts"
    "data/up/movies/a.ts") as (added & H1 & _ & _ & H2).
  - vm_compute. reflexivity.
  - vm_compute. reflexivity.
  - exists added. split; [exact H1|exact H2].
Defined.

(** ** Copying is exact *)

(** What a read yields: the next bytes, at most [chunk]; without an error it either
    moves on or uses up an answer of the script. *)
Lemma Read_spec chunk s : let '((bs, e), s') := Read chunk s in
  exists n, bs = take n (s_data s) /\ s_data s' = drop n (s_data s) /\ (n <= chunk)%nat /\
    (n <= length (s_data s))%nat /\
    (length (s_script s') <= length (s_script s))%nat /\
    (e = None -> (0 < chunk)%nat -> n = 0%nat -> (length (s_script s') < length (s_script s))%nat).
Proof.
  unfold Read. destruct (s_script s) as [|[m e] script].
  - exists (Nat.min chunk (length (s_data s))). split_and!; [done|done|lia|lia|done|].
    intros He Hc Hn. destruct (s_data s); [done|]. simpl in Hn. lia.
  - exists (Nat.min m (Nat.min chunk (length (s_data s)))). split_and!; [done|done|lia|lia|simpl; lia|].
    simpl. lia.
Qed.

Lemma Write_spec bs w : let '((out, e), w') := Write bs w in
  (out <= length bs)%nat /\ s_data w' = s_data w ++ take out bs.
Proof.
  unfold Write. destruct (s_script w) as [|[m e] script]; simpl; [by rewrite firstn_all|split; [lia|done]].
Qed.

(** The bytes copied so far are the next ones of the source. *)
Definition copied_to (r w : stream) (k : nat) (w' : stream) : Prop := s_data w' = s_data w ++ take k (s_data r).

(** The outcome of a copy of [remaining] bytes: some number [k] of the next source
    bytes were appended; without an error all of them were, and the source stands
    right behind them. *)
Definition copy_post (r w : stream) (written remaining : nat)
  (o : option ((nat * option error) * (stream * stream))) : Prop :=
  exists k err r' w', o = Some (((written + k)%nat, err), (r', w')) /\
    (k <= remaining)%nat /\ copied_to r w k w' /\
    (err = None -> k = remaining /\ (k <= length (s_data r))%nat /\ s_data r' = drop k (s_data r)).

(** Going on after a read of [n] bytes that were all written. *)
Lemma copy_after fuel buffer r w r1 w1 e n remaining written :
  (forall r w remaining written, (length (s_script r) + remaining < fuel)%nat ->
     copy_post r w written remaining (copy_loop fuel buffer r w remaining written)) ->
  s_data r1 = drop n (s_data r) -> (n <= remaining)%nat -> (n <= length (s_data r))%nat ->
  (e = None -> (length (s_script r1) + (remaining - n) < fuel)%nat) -> copied_to r w n w1 ->
  copy_post r w written remaining
    match e with
    | None => copy_loop fuel buffer r1 w1 (remaining - n) (written + n)
    | Some e => if bool_decide (e = io_EOF) && bool_decide ((remaining - n)%nat = 0%nat)
                then Some (((written + n)%nat, None), (r1, w1)) else Some (((written + n)%nat, Some e), (r1, w1))
    end.
Proof.
  intros IH Hd Hn1 Hn2 Hf Hw1. destruct e as [err|].
  - destruct (bool_decide (err = io_EOF) && bool_decide ((remaining - n)%nat = 0%nat)) eqn:EE.
    + apply andb_true_iff in EE as [_ EE%bool_decide_eq_true].
      exists n, None, r1, w1. split_and!; [done|lia|done|intros _; split_and!; [lia|lia|done]].
    + exists n, (Some err), r1, w1. split_and!; [done|lia|done|done].
  - destruct (IH r1 w1 (remaining - n)%nat (written + n)%nat (Hf eq_refl))
      as (k & err & r' & w' & HL & Hk & Hc & Herr).
    exists (n + k)%nat, err, r', w'. rewrite HL. split_and!; [by rewrite Nat.add_assoc|lia| |].
    + unfold copied_to in *. by rewrite Hc, Hw1, Hd, <- app_assoc, take_take_drop.
    + intros He. destruct (Herr He) as (-> & Hl & Hdr). rewrite Hd in *. rewrite length_drop in Hl.
      split_and!; [lia|lia|]. by rewrite Hdr, drop_drop.
Qed.

Lemma copy_loop_spec fuel buffer r w remaining written :
  (0 < buffer)%nat -> (length (s_script r) + remaining < fuel)%nat ->
  copy_post r w written remaining (copy_loop fuel buffer r w remaining written).
Proof.
  intros Hb. revert r w remaining written. induction fuel as [|fuel IH]; intros r w remaining written Hf; [lia|].
  cbn [copy_loop]. case_bool_decide as Hz.
  { exists 0%nat, None, r, w. rewrite Nat.add_0_r. unfold copied_to. rewrite take_0, app_nil_r, drop_0.
    split_and!; [done|lia|done|intros _; split_and!; [done|lia|done]]. }
  pose proof (Read_spec (Nat.min buffer remaining) r) as HR.
  destruct (Read (Nat.min buffer remaining) r) as [[bs e] r1].
  destruct HR as (n & -> & Hd & Hn1 & Hn2 & Hs1 & Hs2).
  assert (e = None -> (length (s_script r1) + (remaining - n) < fuel)%nat) as Hf1.
  { intros He. destruct (decide (n = 0%nat)) as [->|]; [specialize (Hs2 He ltac:(lia) eq_refl)|]; lia. }
  case_bool_decide as Hbs.
  - assert (n = 0%nat) as -> by (apply (f_equal length) in Hbs; rewrite length_take in Hbs; simpl in Hbs; lia).
    pose proof (copy_after fuel buffer r w r1 w e 0 remaining written IH Hd ltac:(lia) Hn2 Hf1) as H.
    rewrite Nat.sub_0_r, Nat.add_0_r in H.
    rewrite (bool_decide_false (remaining = 0%nat)) in H by done. apply H. unfold copied_to. by rewrite take_0, app_nil_r.
  - pose proof (Write_spec (take n (s_data r)) w) as HW.
    destruct (Write (take n (s_data r)) w) as [[out we] w1]. destruct HW as [Ho HW].
    rewrite length_take in Ho. rewrite take_take in HW.
    assert (copied_to r w out w1) as Hw1 by (unfold copied_to; rewrite HW; do 2 f_equal; lia).
    destruct we as [err|]; [exists out, (Some err), r1, w1; split_and!; [done|lia|done|done]|].
    case_bool_decide as Hfull; cbn [negb];
      [|exists out, (Some io_ErrShortWrite), r1, w1; split_and!; [done|lia|done|done]].
    assert (out = n) as -> by (rewrite Hfull, length_take; lia).
    apply (copy_after fuel buffer r w r1 w1 e n remaining written IH Hd ltac:(lia) Hn2 Hf1 Hw1).
Qed.

Lemma copyLimited_spec r w buffer remaining : (0 < buffer)%nat ->
  copy_post r w 0 remaining (copyLimited r w buffer remaining).
Proof. intros Hb. apply copy_loop_spec; [done|]. unfold copy_fuel. lia. Qed.

(** The number of bytes a part asks for. *)
Definition part_want (p : Part) : Z := if Start p <=? End_ p then part_len p else 0.

(** Copying parts that fit into 64 bits. *)
Lemma copy_parts_spec buffer ctxs parts r w total :
  (0 < buffer)%nat -> 0 <= total -> Forall (fun p => 0 <= Start p /\ -1 <= End_ p < int64_max) parts ->
  total + zsum part_want parts <= int64_max ->
  exists res r' w', copy_parts buffer ctxs parts r w total = Some (res, (r', w')) /\
    (exists k, copied_to r w k w') /\
    (forall ps t, res = Ok (ps, t) -> t = total + zsum part_want parts /\
       copied_to r w (Z.to_nat (zsum part_want parts)) w' /\
       zsum part_want parts <= zlen (s_data r) /\ map BytesWritten ps = map part_want parts).
Proof.
  intros Hb. revert ctxs r w total. induction parts as [|p rest IH]; intros ctxs r w total Ht HF Hmax.
  { exists (Ok ([], total)), r, w. split_and!; [done|exists 0%nat; unfold copied_to; by rewrite take_0, app_nil_r|].
    intros ps t [= <- <-]. cbn. unfold copied_to. rewrite take_0, app_nil_r. pose proof (zlen_nonneg (s_data r)).
    split_and!; [lia|done|done|done]. }
  apply Forall_cons in HF as [[Hs He] HF].
  assert (0 <= part_want p) as Hw0 by (unfold part_want, part_len; destruct (Z.leb_spec (Start p) (End_ p)); lia).
  assert (0 <= zsum part_want rest) as Hr0.
  { apply zsum_nonneg. eapply Forall_impl; [exact HF|]. intros q Hq. unfold part_want, part_len.
    destruct (Z.leb_spec (Start q) (End_ q)); lia. }
  cbn [zsum foldr] in *. fold (zsum part_want rest) in *. cbn [copy_parts].
  assert ((if Start p <=? End_ p then wrap64 (End_ p - Start p + 1) else 0) = part_want p) as ->.
  { unfold part_want, part_len in *. destruct (Start p <=? End_ p); [|done]. apply wrap64_id.
    unfold in_int64, int64_min, int64_max in *. lia. }
  assert (exists k, copied_to r w k w) as Hnone by (exists 0%nat; unfold copied_to; by rewrite take_0, app_nil_r).
  destruct (head ctxs) as [[e|]|];
    [exists (Err e), r, w; split_and!; [done|done|done]| |].
  all: destruct (copyLimited_spec r w buffer (Z.to_nat (part_want p)) Hb) as (k & err & r1 & w1 & -> & Hk & Hc & Herr);
    cbn [mbind option_bind]; destruct err as [e|];
    [exists (Err e), r1, w1; split_and!; [done|by exists k|done]|];
    destruct (Herr eq_refl) as (-> & Hl & Hd); cbn [Nat.add]; rewrite Z2Nat.id, Z.eqb_refl by done; cbn [negb];
    rewrite wrap64_id by (unfold in_int64, int64_min, int64_max in *; lia);
    destruct (IH (tail ctxs) r1 w1 (total + part_want p)) as (res & r' & w' & -> & [k Hk'] & Hres); [lia|done|lia|];
    cbn [mbind option_bind]; eexists _, r', w'; (split_and!; [done| |]);
    [exists (Z.to_nat (part_want p) + k)%nat; unfold copied_to in *; by rewrite Hk', Hc, Hd, <- app_assoc, take_take_drop|];
    intros ps t Eres; destruct res as [[ps' t']|]; [|done]; injection Eres as <- <-;
    destruct (Hres ps' t' eq_refl) as (-> & Hc' & Hl' & Hps); unfold copied_to, zlen in *; rewrite Hd in *;
    rewrite length_drop in Hl';
    (split_and!; [lia| |lia|cbn [map BytesWritten]; f_equal; done]);
    rewrite Hc', Hc, <- app_assoc, take_take_drop; do 2 f_equal; lia.
Qed.

Lemma tiles_wants size lo hi index parts : 0 <= lo -> hi <= int64_max -> tiles size lo hi index parts ->
  Forall (fun p => 0 <= Start p /\ -1 <= End_ p < int64_max) parts /\ zsum part_want parts = hi - lo.
Proof.
  intros Hlo Hhi. revert lo index Hlo. induction parts as [|p rest IH]; intros lo index Hlo; cbn [tiles].
  { intros ->. split; [constructor|cbn; lia]. }
  intros (Hs & _ & He & _ & Ht). destruct (IH (End_ p + 1) (index + 1) ltac:(lia) Ht) as [HF HS]. split.
  - constructor; [lia|done].
  - cbn [zsum foldr]. unfold zsum in HS. rewrite HS. unfold part_want, part_len.
    rewrite (proj2 (Z.leb_le _ _)) by lia. lia.
Qed.

Lemma NewPlan_wants size part plan : 0 <= size -> size + part - 1 <= int64_max -> NewPlan size part = Ok plan ->
  0 < part /\ PartSize plan = part /\
  Forall (fun p => 0 <= Start p /\ -1 <= End_ p < int64_max) (Parts plan) /\ zsum part_want (Parts plan) = size.
Proof.
  unfold NewPlan. intros Hs Hmax. rewrite (proj2 (Z.ltb_ge _ _)) by done.
  destruct (Z.leb_spec part 0); [done|]. destruct (Z.eqb_spec size 0) as [->|Hne].
  { intros [= <-]. split_and!; [done|done| |done]. constructor; [|constructor].
    cbn [Start End_]. unfold int64_max. lia. }
  destruct (run_plan_ok size part) as (plan' & -> & _ & HP & HT); [lia|done|done|]. intros [= <-].
  destruct (tiles_wants part 0 size 0 (Parts plan')) as [HF HS]; [lia|lia|done|]. split_and!; [done|done|done|lia].
Qed.

(** A multipart copy always ends, whatever short reads, short writes and errors
    the system answers with; the target then holds a prefix of the source, and
    when the copy reports success it holds exactly the planned number of bytes,
    which is the total it reports. *)
Theorem multipartCopy_exact size part plan ctxs r script :
  0 <= size -> size + part - 1 <= int64_max -> NewPlan size part = Ok plan ->
  exists res r' w', multipartCopy ctxs plan r (mkStream [] script) = Some (res, (r', w')) /\
    (exists k, s_data w' = take k (s_data r)) /\
    (forall parts total, res = Ok (parts, total) ->
       total = size /\ s_data w' = take (Z.to_nat size) (s_data r) /\ size <= zlen (s_data r)).
Proof.
  intros Hs Hmax Hplan. destruct (NewPlan_wants size part plan Hs Hmax Hplan) as (Hp & HP & HF & HS).
  unfold multipartCopy. rewrite HP.
  destruct (copy_parts_spec (Z.to_nat (minInt64 part (1024 * 1024))) ctxs (Parts plan) r (mkStream [] script) 0)
    as (res & r' & w' & HL & [k Hk] & Hres).
  - unfold minInt64. destruct (Z.ltb_spec part (1024 * 1024)); lia.
  - lia.
  - done.
  - rewrite HS. lia.
  - exists res, r', w'. split_and!; [done|by exists k|]. intros ps t E.
    destruct (Hres ps t E) as (-> & Hc & Hl & _). rewrite HS in *. split_and!; [lia|done|done].
Qed.

(** A short read of one byte, an empty read and a full read. *)
Definition sample_stream : stream := mkStream (chars "hello world") [(1%nat, None); (0%nat, None)].

Lemma multipartCopy_exact_witness :
  exists res r' w', multipartCopy [] (mkPlan 11 4 [mkPart 0 0 3 0; mkPart 1 4 7 0; mkPart 2 8 10 0])
      sample_stream (mkStream [] []) = Some (res, (r', w')) /\
    exists k, s_data w' = take k (chars "hello world").
Proof.
  destruct (multipartCopy_exact 11 4 (mkPlan 11 4 [mkPart 0 0 3 0; mkPart 1 4 7 0; mkPart 2 8 10 0]) []
    sample_stream []) as (res & r' & w' & H1 & H2 & _).
  - lia.
  - vm_compute. discriminate.
  - vm_compute. reflexivity.
  - exists res, r', w'. split; [exact H1|exact H2].
Defined.

(** ** [MultipartUpload]

    What the system answers: [Stat] of the source when it is no plain file, the errors of
    creating the directory and opening the two files, the context before each part, and the
    reads and writes. *)
Record multipart_env := mkMultipartEnv {
  me_stat : option stat_result; me_mkdir : option error; me_open_source : option error; me_open_target : option error;
  me_ctxs : list Context; me_reads : list (nat * option error); me_writes : list (nat * option error); me_duration : Duration
}.
(** [multipartCopy] with its files: the target is emptied before the source is read. *)
Definition copy_file (env : multipart_env) (request : Request) (destination : string) (plan : Plan) (fs : FS)
  : option (result Result * FS) :=
  match me_mkdir env with
  | Some e => Some (Err e, fs)
  | None =>
    match ReadFile (me_open_source env) (SourcePath request) fs, me_open_target env with
    | Err e, _ => Some (Err e, fs)
    | Ok _, Some e => Some (Err e, fs)
    | Ok _, None =>
      let fs := <[destination := ""]> fs in
      let source := default "" (fs !! SourcePath request) in
      '(res, (_, target)) ← multipartCopy (me_ctxs env) plan (mkStream (chars source) (me_reads env)) (mkStream [] (me_writes env));
      Some (match res with
            | Err e => Err e
            | Ok (parts, total) =>
              Ok (mkResult LocalUploaderName DriverLocal (SourcePath request) destination total (me_duration env) true false false parts
                    (ReqMetadata request))
            end, <[destination := str (s_data target)]> fs)
    end
  end.
Definition MultipartUpload (uploader : LocalUploader) (env : multipart_env) (request : Request) (partSize : Z) (fs : FS)
  : option (result Result * FS) :=
  match (_ ← ValidateRequest request;
         if partSize <=? 0 then Err (Errorf "upload part size must be greater than zero") else
         destination ← ResolveDestination uploader (DestinationPath request);
         match Stat (me_stat env) (SourcePath request) fs with
         | StatError e => Err e
         | StatMissing => Err (path_error "stat" (SourcePath request) os_ErrNotExist)
         | StatDir => Err (Errorf "upload source must be a file")
         | StatFile size => plan ← NewPlan size partSize; Ok (destination, plan)
         end) with
  | Err e => Some (Err e, fs)
  | Ok (destination, plan) => copy_file env request destination plan fs
  end.

(** A multipart upload always ends.  Whatever the system answers, it changes no file but
    its destination, and after success that file holds exactly the source, whose size is the
    total reported. *)
Theorem MultipartUpload_exact u env request partSize fs content :
  fs !! SourcePath request = Some content -> me_stat env = None ->
  slen content + partSize - 1 <= int64_max ->
  exists res fs', MultipartUpload u env request partSize fs = Some (res, fs') /\
    match ResolveDestination u (DestinationPath request) with
    | Err _ => is_ok res = false /\ fs' = fs
    | Ok destination =>
      (forall p, p <> destination -> fs' !! p = fs !! p) /\
      (destination <> SourcePath request -> forall result, res = Ok result ->
         fs' !! destination = Some content /\ ResBytesWritten result = slen content /\ ResDestinationPath result = destination)
    end.
Proof.
  intros HC HS Hmax. unfold MultipartUpload. destruct (ValidateRequest request); cbn [mbind result_bind].
  2: { eexists _, _. split; [reflexivity|]. destruct (ResolveDestination u _); [by split|done]. }
  destruct (Z.leb_spec partSize 0).
  { eexists _, _. split; [reflexivity|]. destruct (ResolveDestination u _); [by split|done]. }
  destruct (ResolveDestination u (DestinationPath request)) as [destination|e]; cbn [mbind result_bind]; [|eexists _, _; split; [reflexivity|done]].
  unfold Stat. rewrite HS, HC. destruct (NewPlan (slen content) partSize) as [plan|e] eqn:EP; cbn [mbind result_bind];
    [|eexists _, _; split; [reflexivity|]; by split].
  unfold copy_file. destruct (me_mkdir env); [eexists _, _; split; [reflexivity|]; by split|].
  destruct (ReadFile _ _ _); [|eexists _, _; split; [reflexivity|]; by split].
  destruct (me_open_target env); [eexists _, _; split; [reflexivity|]; by split|]. cbv zeta.
  set (source := default "" _). assert (0 <= slen content) as H0 by apply Nat2Z.is_nonneg.
  destruct (multipartCopy_exact (slen content) partSize plan (me_ctxs env) (mkStream (chars source) (me_reads env)) (me_writes env) H0 Hmax EP)
    as (res & r' & w' & -> & _ & HR).
  cbn [mbind option_bind]. eexists _, _. split; [reflexivity|]. split.
  - intros p Hp. by rewrite !lookup_insert_ne.
  - intros Hne result. destruct res as [[parts total]|e]; [|done]. intros [= <-]. destruct (HR _ _ eq_refl) as (-> & HD & _).
    rewrite lookup_insert_eq. split_and!; [|done|done]. f_equal. rewrite HD. cbn [s_data].
    assert (source = content) as -> by (unfold source; by rewrite lookup_insert_ne, HC).
    unfold slen, zlen. rewrite Nat2Z.id, take_ge by done. apply str_chars.
Qed.

(** ** Whole-file uploads *)
Lemma slen_str l : slen (str l) = zlen l.
Proof. unfold slen. by rewrite chars_str. Qed.

Lemma Upload_resolves u env request fs res fs' : Upload u env request fs = (Ok res, fs') ->
  ResolveDestination u (DestinationPath request) = Ok (ResDestinationPath res).
Proof. unfold Upload. by repeat case_match; intros [= <- <-]. Qed.

Lemma Upload_stores u env request fs res fs' :
  Upload u env request fs = (Ok res, fs') -> ResDestinationPath res <> SourcePath request ->
  ResolveDestination u (DestinationPath request) = Ok (ResDestinationPath res) /\
  (exists content, fs !! SourcePath request = Some content /\
     fs' !! ResDestinationPath res = Some content /\ ResBytesWritten res = slen content) /\
  (forall p, p <> ResDestinationPath res -> fs' !! p = fs !! p).
Proof.
  unfold Upload. destruct (ValidateRequest request) as [[]|]; [|done].
  destruct (ResolveDestination u (DestinationPath request)) as [d|]; [|done].
  destruct (u_mkdir env); [done|]. destruct (u_ctx env); [done|].
  destruct (u_open_source env); [done|]. unfold ReadFile.
  destruct (fs !! SourcePath request) as [content|] eqn:ES; [|done].
  destruct (u_open_target env); [done|]. destruct (u_copy env) as [[k e]|]; [done|].
  destruct (u_close env); [done|]. intros [= <- <-] Hne. cbn [ResDestinationPath ResBytesWritten] in *.
  assert ((<[d := ""]> fs : FS) !! SourcePath request = Some content) as E1 by (by rewrite lookup_insert_ne).
  rewrite E1. cbn [default copied id].
  split_and!; [done|exists content; split_and!; [done|apply lookup_insert_eq|done]|].
  intros p Hp. by rewrite !lookup_insert_ne.
Qed.

(** An upload that reports success leaves at the resolved destination exactly the
    contents of the source, reports their length, and changes no other file; the
    integrity check of the two files is then positive. *)
Theorem Upload_exact u env request fs res fs' :
  Upload u env request fs = (Ok res, fs') -> ResDestinationPath res <> SourcePath request ->
  TrimSpace (ResDestinationPath res) <> "" ->
  ResolveDestination u (DestinationPath request) = Ok (ResDestinationPath res) /\
  (exists content, fs !! SourcePath request = Some content /\
     fs' !! ResDestinationPath res = Some content /\ ResBytesWritten res = slen content) /\
  (forall p, p <> ResDestinationPath res -> fs' !! p = fs !! p) /\
  exists ir, ValidateIntegrity checksum_ok checksum_ok (SourcePath request) (ResDestinationPath res) fs' = Ok ir /\
    ir_Valid ir = true.
Proof.
  intros HU Hne Hd. destruct (Upload_stores _ _ _ _ _ _ HU Hne) as (HR & HC & HO).
  split_and!; [done|done|done|]. destruct HC as (content & H1 & H2 & _).
  assert (TrimSpace (SourcePath request) <> "") as Hs.
  { unfold Upload, ValidateRequest in HU. by destruct (String.eqb_spec (TrimSpace (SourcePath request)) ""). }
  unfold ValidateIntegrity, checksumFile, ReadFile. cbn [k_ctx k_open k_isdir k_ctx_read checksum_ok].
  rewrite (proj2 (String.eqb_neq _ _) Hs), (proj2 (String.eqb_neq _ _) Hd).
  rewrite H2, (HO (SourcePath request)), H1 by done. cbn [mbind result_bind].
  eexists. split; [done|]. cbn [ir_Valid]. by rewrite Z.eqb_refl, String.eqb_refl.
Qed.

(** An upload whose source is its own destination empties the file and reports
    success. *)
Theorem upload_onto_itself_loses_data :
  let u := mkLocalUploader "data" in
  let '(r, fs') := Upload u upload_ok (mkRequest "data/a" "a" ∅) {["data/a" := "precious"]} in
  is_ok r = true /\ fs' !! "data/a" = Some "".
Proof. vm_compute. split; reflexivity. Qed.

Definition sample_fs : FS := {["src/a" := "hello"]}.
Definition sample_result : Result :=
  mkResult "local" "local" "src/a" "data/b" 5 0 false false false [] ∅.

Lemma Upload_exact_witness : exists ir,
  ValidateIntegrity checksum_ok checksum_ok "src/a" "data/b" (<["data/b" := "hello"]> sample_fs) = Ok ir /\
  ir_Valid ir = true.
Proof.
  refine (proj2 (proj2 (proj2 (Upload_exact (mkLocalUploader "data") upload_ok (mkRequest "src/a" "b" ∅) sample_fs
    sample_result (<["data/b" := "hello"]> sample_fs) _ _ _)))).
  - vm_compute. reflexivity.
  - discriminate.
  - vm_compute. discriminate.
Defined.

(** ** Resuming *)

Lemma ResumeFromLocalState_ok u request fs st content :
  ResumeFromLocalState u None None request fs = Ok st -> fs !! SourcePath request = Some content ->
  let old := chars (default "" (fs !! ur_DestinationPath st)) in
  ur_Offset st = zlen old /\ zlen old <= slen content /\ ur_Complete st = (zlen old =? slen content).
Proof.
  unfold ResumeFromLocalState, Stat. intros H ES. rewrite ES in H.
  apply bind_Ok in H as ([] & _ & H). apply bind_Ok in H as (d & _ & H).
  apply bind_Ok in H as (size & Hsize & H).
  assert (size = zlen (chars (default "" (fs !! d)))) as -> by (destruct (fs !! d); by injection Hsize).
  destruct (Z.ltb_spec (slen content) (zlen (chars (default "" (fs !! d))))); [done|]. by injection H as <-.
Qed.

(** Appending the missing bytes. *)
Lemma completed_content old content final : (length old <= length (chars content))%nat ->
  chars final = old ++ drop (length old) (chars content) ->
  slen final = slen content /\ (final = content <-> exists k, chars content = old ++ k).
Proof.
  intros Hl Hf. split; [unfold slen, zlen; rewrite Hf, length_app, length_drop; lia|]. split.
  - intros ->. by exists (drop (length old) (chars content)).
  - intros [k Hk]. apply chars_inj. by rewrite Hf, Hk, drop_app_length.
Qed.

(** Resuming an upload that reports success completes the destination with the
    bytes the source has beyond the destination's length: the destination ends
    up as long as the source, and equal to it exactly when what was there before
    was a prefix of the source.  No other file changes. *)
Theorem ResumeUpload_completes u env request fs res fs' content :
  ResumeUpload u env None None request fs = (Ok res, fs') ->
  ResDestinationPath res <> SourcePath request ->
  fs !! SourcePath request = Some content -> content <> "" ->
  let old := chars (default "" (fs !! ResDestinationPath res)) in
  exists final, fs' !! ResDestinationPath res = Some final /\
    chars final = old ++ drop (length old) (chars content) /\
    slen final = slen content /\ (final = content <-> exists k, chars content = old ++ k) /\
    forall p, p <> ResDestinationPath res -> fs' !! p = fs !! p.
Proof.
  unfold ResumeUpload. intros H Hne ES Hc.
  destruct (ResumeFromLocalState u None None request fs) as [st|] eqn:EST; [|done].
  destruct (ResumeFromLocalState_ok _ _ _ _ _ EST ES) as (HO & HL & HC).
  assert (length (chars (default "" (fs !! ur_DestinationPath st))) <= length (chars content))%nat as Hl
    by (unfold slen, zlen in HL; lia).
  destruct (ur_Complete st).
  - injection H as <- <-. cbn [ResDestinationPath] in *. symmetry in HC. apply Z.eqb_eq in HC.
    unfold slen, zlen in HC. apply Nat2Z.inj in HC. destruct (fs !! ur_DestinationPath st) as [c|] eqn:Ec.
    + cbn [default id] in *. exists c. assert (chars c = chars c ++ drop (length (chars c)) (chars content)) as Hch
        by (rewrite HC, drop_all, app_nil_r; done).
      destruct (completed_content _ _ c Hl Hch). split_and!; done.
    + symmetry in HC. apply nil_length_inv, chars_nil in HC. done.
  - destruct (u_mkdir env); [done|]. destruct (u_ctx env); [done|]. destruct (u_open_source env); [done|].
    unfold ReadFile in H. rewrite ES in H. destruct (u_open_target env); [done|].
    destruct (u_copy env) as [[k e]|]; [done|]. destruct (u_close env); [done|]. injection H as <- <-.
    cbn [ResDestinationPath copied] in *. rewrite HO. set (old := chars (default "" _)) in *.
    match goal with |- context [<[_ := ?x]> fs] => set (final := x) end.
    assert (chars final = old ++ drop (length old) (chars content)) as Hch.
    { subst final. rewrite chars_app, chars_str. unfold zlen. rewrite Nat2Z.id. f_equal.
      destruct (Z.eqb_spec (Z.of_nat (length old)) 0) as [E0|]; [|done]. by destruct old. }
    exists final. destruct (completed_content old content final Hl Hch).
    split_and!; [apply lookup_insert_eq|done|done|done|]. intros p Hp. by rewrite lookup_insert_ne.
Qed.

Definition partial_fs : FS := <["data/b" := "hel"]> sample_fs.
Definition resumed_result : Result :=
  mkResult "local" "local" "src/a" "data/b" 2 0 false true false []
    (<["resume_complete" := "false"]> (<["resume_offset" := "3"]> {["resume" := "true"]})).

Lemma ResumeUpload_completes_witness : exists final,
  (<["data/b" := "hello"]> partial_fs : FS) !! "data/b" = Some final /\ slen final = 5.
Proof.
  destruct (ResumeUpload_completes (mkLocalUploader "data") upload_ok (mkRequest "src/a" "b" ∅) partial_fs
    resumed_result (<["data/b" := "hello"]> partial_fs) "hello") as (final & H1 & _ & H2 & _).
  - vm_compute. reflexivity.
  - discriminate.
  - vm_compute. reflexivity.
  - discriminate.
  - exists final. split; [exact H1|exact H2].
Defined.

(** Resuming an upload of an empty file reports that it is complete although the
    destination does not exist. *)
Theorem resume_of_empty_source_creates_nothing :
  let '(r, fs') := ResumeUpload (mkLocalUploader "data") upload_ok None None
                     (mkRequest "src/a" "b" ∅) {["src/a" := ""]} in
  match r with Ok res => AlreadyComplete res = true | Err _ => False end /\ fs' !! "data/b" = None.
Proof. vm_compute. split; reflexivity. Qed.

(** ** Configured part sizes *)

(** A part size in a configuration is read as the number times its unit when the
    product fits into 64 bits, and is then positive. *)
Theorem ParsePartSize_value value number multiplier n :
  ToLower (TrimSpace value) = number +:+ multiplier.1 -> multiplier ∈ units ->
  find (fun u => HasSuffix (ToLower (TrimSpace value)) u.1) units = Some multiplier ->
  ParseInt (TrimSpace number) = Ok n -> 0 < n -> n * multiplier.2 <= int64_max ->
  ParsePartSize value = Ok (n * multiplier.2) /\ 0 < n * multiplier.2.
Proof.
  intros Hv Hin Hfind Hparse Hn Hmax. destruct multiplier as [unit m]. cbn [fst snd] in *.
  assert (0 < m) as Hm.
  { unfold units in Hin. rewrite !elem_of_cons, elem_of_nil in Hin. naive_solver lia. }
  split; [|nia]. unfold ParsePartSize.
  assert (TrimSpace value <> "") as Hne.
  { intros E. rewrite E in Hfind. vm_compute in Hfind. done. }
  rewrite (proj2 (String.eqb_neq _ _) Hne), Hfind. cbn [fst snd]. rewrite Hv.
  assert (TrimSuffix (number +:+ unit) unit = number) as ->.
  { unfold TrimSuffix. assert (HasSuffix (number +:+ unit) unit = true) as ->.
    { apply HasSuffix_spec. exists (chars number). apply chars_app. }
    rewrite chars_app, length_app. replace (length (chars number) + length (chars unit) - length (chars unit))%nat
      with (length (chars number)) by lia. by rewrite take_app_length, str_chars. }
  rewrite Hparse. rewrite (proj2 (Z.leb_gt _ _)) by done. rewrite wrap64_id; [done|].
  unfold in_int64, int64_min in *. nia.
Qed.

Lemma ParsePartSize_value_witness : ParsePartSize " 16 MiB " = Ok (16 * 1048576).
Proof.
  refine (proj1 (ParsePartSize_value " 16 MiB " "16 " ("mib", 1048576) 16 _ _ _ _ _ _)).
  - vm_compute. reflexivity.
  - unfold units. set_solver.
  - vm_compute. reflexivity.
  - vm_compute. reflexivity.
  - lia.
  - vm_compute. discriminate.
Defined.

(** A product beyond 64 bits wraps around silently: this size is negative. *)
Theorem ParsePartSize_overflows : ParsePartSize "8589934592GiB" = Ok int64_min.
Proof. vm_compute. reflexivity. Qed.
