(* ===== verification/Viper.v ===== *)
(** * Reading configuration files: internal/config/vipercompat/viper.go

    A small stand-in for Viper: a YAML subset, merging over defaults, overrides from the
    environment and typed fields.  The YAML reader keeps references to the maps it is
    filling, one per indentation, and a section that is opened again is a new map while old
    references stay; so it works on a store of maps, and the document is read off the store
    at the end.  Everything else works on trees, which nothing else refers to. *)
From S2P Require Import Prelude GoStrings GoPath GoJson GoFS.

Inductive cval := CInt (z : Z) | CInt64 (z : Z) | CBool (b : bool) | CString (s : string) | CMap (m : list (string * cval)).
Notation tree := (list (string * cval)).

(** Assignment to a key of a map. *)
Fixpoint put {A} (key : string) (value : A) (m : list (string * A)) : list (string * A) :=
  match m with
  | [] => [(key, value)]
  | (k, x) :: r => if String.eqb k key then (k, value) :: r else (k, x) :: put key value r
  end.

(** [setDotted] over the parts of the key. *)
Fixpoint set_path (parts : list string) (value : cval) (current : tree) : tree :=
  match parts with
  | [] => current
  | part :: rest =>
    let part := TrimSpace part in
    if String.eqb part "" then set_path rest value current else
    match rest with
    | [] => put part value current
    | _ =>
      let next := match assoc part current with Some (CMap m) => m | _ => [] end in
      put part (CMap (set_path rest value next)) current
    end
  end.
Definition setDotted (values : tree) (key : string) (value : cval) : tree := set_path (Split key ".") value values.

(** [merge]: what becomes of an entry when a value is merged into it. *)
Fixpoint merge_value (existing : option cval) (value : cval) : cval :=
  match value with
  | CMap src =>
    CMap ((fix go src dst :=
             match src with
             | [] => dst
             | (key, v) :: r => go r (put key (merge_value (assoc key dst) v) dst)
             end) src (match existing with Some (CMap dst) => dst | _ => [] end))
  | _ => value
  end.
Fixpoint merge (dst src : tree) : tree :=
  match src with
  | [] => dst
  | (key, v) :: r => merge (put key (merge_value (assoc key dst) v) dst) r
  end.

(** ** The YAML subset *)

(** [strings.TrimRight] and [strings.Trim] with a set of characters. *)
Fixpoint drop_set (cs l : list ascii) : list ascii :=
  match l with
  | [] => []
  | c :: r => if bool_decide (c ∈ cs) then drop_set cs r else l
  end.
Definition TrimRightSet (s cutset : string) : string := str (reverse (drop_set (chars cutset) (reverse (chars s)))).
Definition TrimSet (s cutset : string) : string :=
  str (reverse (drop_set (chars cutset) (reverse (drop_set (chars cutset) (chars s))))).

Definition blanks : string := str [" "%char; "009"%char; "013"%char].
Definition quotes : string := str ["034"%char; "'"%char].

Definition ParseBool (s : string) : result bool :=
  if bool_decide (s ∈ ["1"; "t"; "T"; "true"; "TRUE"; "True"]) then Ok true else
  if bool_decide (s ∈ ["0"; "f"; "F"; "false"; "FALSE"; "False"]) then Ok false else
  Err (Wrapf ("strconv.ParseBool: parsing " +:+ Quote s +:+ ": invalid syntax") ErrSyntax).

Definition parseScalar (value : string) : cval :=
  let value := TrimSet value quotes in
  match ParseInt value with
  | Ok n => CInt n
  | Err _ => match ParseBool value with Ok b => CBool b | Err _ => CString value end
  end.

Fixpoint leading_spaces (l : list ascii) : Z :=
  match l with
  | c :: r => if Ascii.eqb c " " then 1 + leading_spaces r else 0
  | [] => 0
  end.
Definition countLeadingSpaces (value : string) : Z := leading_spaces (chars value).

Inductive entry := Scalar (v : cval) | Node (id : nat).
Record yaml := mkYaml { y_heap : list (list (string * entry)); y_sections : gmap Z nat }.
Definition yaml_start : yaml := mkYaml [[]] {[-1 := 0%nat]}.

Definition line_error (n : Z) (message : string) : error := Errorf ("line " +:+ Itoa n +:+ ": " +:+ message).

(** One turn of the loop of [parseSimpleYAML]; [n] is the number of the line from one. *)
Definition yaml_line (n : Z) (rawLine : string) (st : yaml) : result yaml :=
  let line := TrimRightSet rawLine blanks in
  let trimmed := TrimSpace line in
  if String.eqb trimmed "" || HasPrefix trimmed "#" then Ok st else
  if HasPrefix trimmed "-" then Err (line_error n "lists are not supported in the v0.1.x config subset") else
  let indent := countLeadingSpaces line in
  if negb (indent `mod` 2 =? 0) then Err (line_error n "indentation must use two-space levels") else
  match IndexByte (chars trimmed) ":" with
  | None => Err (line_error n "expected key: value")
  | Some i =>
    let key := TrimSpace (str (take i (chars trimmed))) in
    if String.eqb key "" then Err (line_error n "key cannot be empty") else
    let parentIndent := if indent - 2 <? 0 then -1 else indent - 2 in
    match y_sections st !! parentIndent with
    | None => Err (line_error n "invalid indentation")
    | Some parent =>
      let value := TrimSpace (str (drop (S i) (chars trimmed))) in
      if String.eqb value "" then
        let child := length (y_heap st) in
        Ok (mkYaml (alter (put key (Node child)) parent (y_heap st) ++ [[]]) (<[indent := child]> (y_sections st)))
      else
        Ok (mkYaml (alter (put key (Scalar (parseScalar value))) parent (y_heap st))
              (filter (fun kv => kv.1 <= indent) (y_sections st)))
    end
  end.

Fixpoint yaml_lines (n : Z) (lines : list string) (st : yaml) : result yaml :=
  match lines with
  | [] => Ok st
  | line :: rest => st ← yaml_line n line st; yaml_lines (n + 1) rest st
  end.

(** The map with an identifier, read off the store; a map only refers to younger ones. *)
Fixpoint yaml_tree (fuel : nat) (heap : list (list (string * entry))) (id : nat) : tree :=
  match fuel with
  | O => []
  | S fuel =>
    map (fun '(key, e) => (key, match e with Scalar v => v | Node i => CMap (yaml_tree fuel heap i) end))
        (default [] (heap !! id))
  end.

Definition parseSimpleYAML (content : string) : result tree :=
  st ← yaml_lines 1 (Split content "010") yaml_start;
  Ok (yaml_tree (length (y_heap st)) (y_heap st) 0).

(** ** Environment overrides *)
Definition envName (prefix : string) (path : list string) : string :=
  let name := ToUpper (ReplaceAll (Join path ".") "." "_") in
  if String.eqb prefix "" then name else prefix +:+ "_" +:+ name.

Section Environment.
Context (env : string -> option string) (prefix : string).

Fixpoint env_value (path : list string) (value : cval) : cval :=
  match value with
  | CMap m => CMap (map (fun '(key, v) => (key, env_value (path ++ [key]) v)) m)
  | _ =>
    match env (envName prefix path) with
    | Some raw => if String.eqb raw "" then value else CString raw
    | None => value
    end
  end.
Definition applyEnvironmentOverrides (values : tree) : tree := map (fun '(key, v) => (key, env_value [key] v)) values.
End Environment.

(** ** Typed fields *)

(** [fmt.Sprint]; the keys of a map are printed sorted. *)
Definition sort_entries : list (string * string) -> list (string * string) :=
  sort_Slice (fun a b => String.ltb a.1 b.1).
Fixpoint Sprint (value : cval) : string :=
  match value with
  | CInt z | CInt64 z => Itoa z
  | CBool b => if b then "true" else "false"
  | CString s => s
  | CMap m => "map[" +:+ Join (map (fun '(k, t) => k +:+ ":" +:+ t) (sort_entries (map (fun '(k, v) => (k, Sprint v)) m))) " " +:+ "]"
  end.

Definition type_name (value : cval) : string :=
  match value with
  | CInt _ => "int" | CInt64 _ => "int64" | CBool _ => "bool" | CString _ => "string" | CMap _ => "map[string]interface {}"
  end.

Definition set_string (value : cval) : result string := Ok (Sprint value).
Definition set_int (value : cval) : result Z :=
  match value with
  | CInt z | CInt64 z => Ok z
  | CString s => ParseInt s
  | _ => Err (Errorf ("unsupported integer value " +:+ type_name value))
  end.
Definition set_bool (value : cval) : result bool :=
  match value with
  | CBool b => Ok b
  | CString s => ParseBool s
  | _ => Err (Errorf ("unsupported boolean value " +:+ type_name value))
  end.

(** A field of [fillStruct]: one that the values do not name keeps what it has. *)
Definition fill {A} (set : cval -> result A) (name key : string) (values : tree) (current : A) : result A :=
  match assoc key values with
  | None => Ok current
  | Some raw => match set raw with Ok a => Ok a | Err e => Err (Wrapf ("field " +:+ name +:+ ": " +:+ Error e) e) end
  end.
Definition fill_section {A} (set : tree -> A -> result A) (name key : string) (values : tree) (current : A) : result A :=
  match assoc key values with
  | None => Ok current
  | Some (CMap nested) => set nested current
  | Some _ => Err (Errorf ("field " +:+ name +:+ " expects object"))
  end.

(** ** The file *)
Definition first_existing (fs : FS) (candidates : list string) : option string :=
  find (fun path => bool_decide (is_Some (fs !! path))) candidates.
Definition not_found (name : string) : error :=
  Errorf (if String.eqb (TrimSpace name) "" then "config file not found" else "config file not found: " +:+ name).

(** [resolvePath] with the type yaml: the path, or the [ConfigFileNotFoundError]. *)
Definition resolvePath (configFile configName : string) (paths : list string) (fs : FS) : result string :=
  let configFile := TrimSpace configFile in
  if negb (String.eqb configFile "")
  then match fs !! configFile with Some _ => Ok configFile | None => Err (not_found configFile) end
  else
    let candidates := flat_map (fun dir => [Join2 dir (configName +:+ ".yaml"); Join2 dir (configName +:+ ".yml")]) paths in
    match first_existing fs candidates with Some path => Ok path | None => Err (not_found configName) end.

(** ** Maps *)
Lemma assoc_put {A} k k' (v : A) m : assoc k (put k' v m) = if String.eqb k' k then Some v else assoc k m.
Proof.
  induction m as [|[x y] m IH]; cbn [put assoc].
  - done.
  - destruct (String.eqb_spec x k') as [->|Hne]; cbn [assoc]; [by destruct (String.eqb k' k)|].
    rewrite IH. destruct (String.eqb_spec x k) as [->|], (String.eqb_spec k' k) as [->|]; congruence.
Qed.

Lemma assoc_map {A B} (f : string -> A -> B) k m :
  assoc k (map (fun '(key, v) => (key, f key v)) m) = f k <$> assoc k m.
Proof.
  induction m as [|[x y] m IH]; cbn [map assoc]; [done|]. destruct (String.eqb_spec x k) as [->|]; [done|apply IH].
Qed.

Lemma put_keys {A} k (v : A) m : NoDup (map fst m) -> NoDup (map fst (put k v m)) /\ map fst (put k v m) ⊆ k :: map fst m.
Proof.
  induction m as [|[x y] m IH]; cbn [put map]; intros HN; [split; [apply NoDup_singleton|done]|].
  apply NoDup_cons in HN as [HN1 HN2]. destruct (String.eqb_spec x k) as [->|Hne]; cbn [map].
  - split; [by constructor|set_solver].
  - destruct (IH HN2) as [H1 H2]. split; [|set_solver]. constructor; [|done]. intros Hx%H2. set_solver.
Qed.

(** Maps without repeated keys, at every depth. *)
Fixpoint distinct (v : cval) : Prop :=
  match v with
  | CMap m => NoDup (map fst m) /\ foldr (fun (kv : string * cval) P => distinct kv.2 /\ P) True m
  | _ => True
  end.

Lemma distinct_all m : foldr (fun (kv : string * cval) P => distinct kv.2 /\ P) True m <-> Forall (fun kv : string * cval => distinct kv.2) m.
Proof. induction m as [|kv m IH]; cbn; [split; [constructor|done]|]. rewrite Forall_cons, IH. done. Qed.

Lemma distinct_assoc m k v : distinct (CMap m) -> assoc k m = Some v -> distinct v.
Proof.
  intros [_ HF] Hk. apply distinct_all in HF. rewrite Forall_forall in HF. apply (HF (k, v)). by apply assoc_elem.
Qed.

(** ** Merging and overriding *)
Definition scalar (v : cval) : Prop := match v with CMap _ => False | _ => True end.
Definition as_map (v : option cval) : tree := match v with Some (CMap m) => m | _ => [] end.

Lemma merge_value_map existing src : merge_value existing (CMap src) = CMap (merge (as_map existing) src).
Proof.
  cbn [merge_value]. f_equal. unfold as_map. generalize (match existing with Some (CMap dst) => dst | _ => [] end).
  induction src as [|[k v] src IH]; intros dst; [done|]. cbn [merge]. apply IH.
Qed.

Lemma merge_assoc dst src k : NoDup (map fst src) ->
  assoc k (merge dst src) = match assoc k src with Some v => Some (merge_value (assoc k dst) v) | None => assoc k dst end.
Proof.
  revert dst. induction src as [|[x v] src IH]; intros dst; cbn [merge map assoc]; [done|].
  intros [Hx HN]%NoDup_cons. rewrite IH by done. rewrite assoc_put.
  destruct (String.eqb_spec x k) as [->|Hne]; [|done].
  destruct (assoc k src) eqn:E; [|done]. apply assoc_elem in E. exfalso. apply Hx. apply list_elem_of_fmap. by exists (k, c).
Qed.

(** The entry of a section. *)
Definition get2 (section key : string) (t : tree) : option cval := assoc section t ≫= fun v => assoc key (as_map (Some v)).

Lemma get2_merge dst src section key : distinct (CMap src) -> (forall v, assoc section src = Some v -> ~ scalar v) ->
  get2 section key (merge dst src) =
  match get2 section key src with
  | Some v => Some (merge_value (assoc key (as_map (assoc section dst))) v)
  | None => get2 section key dst
  end.
Proof.
  intros HD HS. unfold get2. rewrite merge_assoc by apply HD.
  destruct (assoc section src) as [v|] eqn:E; cbn [mbind option_bind]; [|done].
  destruct v as [| | | |m]; try (by exfalso; eapply HS). rewrite merge_value_map. cbn [as_map].
  pose proof (distinct_assoc _ _ _ HD E) as [HN _]. rewrite merge_assoc by done.
  destruct (assoc key m) as [v|]; [done|]. unfold as_map. by destruct (assoc section dst) as [[]|].
Qed.

(** What the environment makes of a scalar. *)
Definition override (env : string -> option string) (prefix : string) (path : list string) (v : cval) : cval :=
  match env (envName prefix path) with
  | Some raw => if String.eqb raw "" then v else CString raw
  | None => v
  end.

Lemma get2_env env prefix section key t v : get2 section key t = Some v -> scalar v ->
  get2 section key (applyEnvironmentOverrides env prefix t) = Some (override env prefix [section; key] v).
Proof.
  unfold get2, applyEnvironmentOverrides. rewrite (assoc_map (fun k => env_value env prefix [k])).
  destruct (assoc section t) as [x|]; cbn [mbind option_bind fmap option_fmap option_map]; [|done].
  destruct x as [| | | |m]; cbn [as_map assoc]; try done.
  cbn [env_value as_map app]. rewrite (assoc_map (fun k => env_value env prefix ([section] ++ [k]))). intros -> Hs. cbn.
  by destruct v.
Qed.

(** A setting comes from the environment when its variable is not empty, else from the
    file, else from the defaults. *)
Lemma settings_precedence env prefix defaults file section key d :
  distinct (CMap file) -> (forall v, assoc section file = Some v -> ~ scalar v) ->
  get2 section key defaults = Some d -> scalar (default d (get2 section key file)) ->
  get2 section key (applyEnvironmentOverrides env prefix (merge defaults file)) =
    Some (override env prefix [section; key] (default d (get2 section key file))).
Proof.
  intros HD HS Hd Hsc. apply get2_env; [|done]. rewrite get2_merge by done.
  destruct (get2 section key file) as [v|]; cbn [default] in *; [|done]. by destruct v.
Qed.

(** ** Documents read off the store *)
Record store_ok (heap : list (list (string * entry))) : Prop := {
  so_keys : forall id node, heap !! id = Some node -> NoDup (map fst node);
  so_scalars : forall id node k v, heap !! id = Some node -> (k, Scalar v) ∈ node -> scalar v;
  so_younger : forall id node k i, heap !! id = Some node -> (k, Node i) ∈ node -> (id < i < length heap)%nat
}.

Lemma parseScalar_scalar value : scalar (parseScalar value).
Proof. unfold parseScalar. repeat case_match; done. Qed.

Lemma put_elem {A} k (v : A) m x : x ∈ put k v m -> x = (k, v) \/ x ∈ m.
Proof.
  induction m as [|[y z] m IH]; cbn [put]; [intros ?%list_elem_of_singleton; by left|].
  destruct (String.eqb_spec y k) as [->|]; rewrite !elem_of_cons; [naive_solver|]. intros [->|H]; [by right; left|].
  destruct (IH H); [by left|by right; right].
Qed.

(** An assignment in the store, to a scalar or to a fresh map, keeps it well formed. *)
Lemma store_put heap parent k e extra : store_ok heap -> (parent < length heap)%nat ->
  (exists v, e = Scalar v /\ scalar v /\ extra = []) \/ (e = Node (length heap) /\ extra = [[]]) ->
  store_ok (alter (put k e) parent heap ++ extra).
Proof.
  intros [HK HS HY] Hp He.
  assert (forall id node, (alter (put k e) parent heap ++ extra) !! id = Some node ->
    (id < length heap)%nat /\ (heap !! id = Some node \/ exists old, id = parent /\ heap !! id = Some old /\ node = put k e old) \/
    id = length heap /\ node = [] /\ extra = [[]]) as Hcase.
  { intros id node Hid. destruct (decide (id < length heap)%nat) as [Hlt|Hge].
    - left. split; [done|]. rewrite lookup_app_l in Hid by (by rewrite length_alter).
      destruct (decide (id = parent)) as [->|Hne].
      + right. rewrite list_lookup_alter_eq in Hid. destruct (heap !! parent) as [old|]; [|done]. injection Hid as <-. eauto.
      + left. by rewrite list_lookup_alter_ne in Hid.
    - right. rewrite lookup_app_r in Hid by (rewrite length_alter; lia). rewrite length_alter in Hid.
      destruct He as [(v & _ & _ & ->)|[_ ->]]; [done|].
      destruct (id - length heap)%nat as [|n] eqn:En; [|by destruct n]. injection Hid as <-. split_and!; [lia|done|done]. }
  assert (length heap <= length (alter (put k e) parent heap ++ extra))%nat as Hlen
    by (rewrite length_app, length_alter; lia).
  split.
  - intros id node Hid. destruct (Hcase id node Hid) as [[_ [H|(old & -> & H & ->)]]|(_ & -> & _)].
    + by eapply HK.
    + apply put_keys. by eapply HK.
    + constructor.
  - intros id node x v Hid Hin. destruct (Hcase id node Hid) as [[_ [H|(old & -> & H & ->)]]|(_ & -> & _)].
    + by eapply HS.
    + apply put_elem in Hin as [[= <- <-]|Hin]; [|by eapply HS]. destruct He as [(v' & [= <-] & ? & _)|[[=] _]]. done.
    + by apply not_elem_of_nil in Hin.
  - intros id node x i Hid Hin. destruct (Hcase id node Hid) as [[Hlt [H|(old & -> & H & ->)]]|(_ & -> & _)].
    + destruct (HY _ _ _ _ H Hin). lia.
    + apply put_elem in Hin as [[= <- <-]|Hin].
      * destruct He as [(v' & [=] & _)|[[= ->] ->]]. rewrite length_app, length_alter. simpl. lia.
      * destruct (HY _ _ _ _ H Hin). lia.
    + by apply not_elem_of_nil in Hin.
Qed.

Definition yaml_ok (st : yaml) : Prop :=
  store_ok (y_heap st) /\ (0 < length (y_heap st))%nat /\
  forall indent id, y_sections st !! indent = Some id -> (id < length (y_heap st))%nat.

Lemma yaml_line_ok n line st st' : yaml_ok st -> yaml_line n line st = Ok st' -> yaml_ok st'.
Proof.
  intros (HH & H0 & HS) H. unfold yaml_line in H. cbv zeta in H.
  match type of H with context [y_sections st !! ?p] => set (parentIndent := p) in H; clearbody parentIndent end.
  repeat case_match; simplify_eq.
  - by split_and!.
  - split_and!; cbn [y_heap y_sections].
    + apply store_put; [done|by eapply HS|by right].
    + rewrite length_app, length_alter. lia.
    + intros indent id. rewrite length_app, length_alter. simpl. intros [[_ <-]|[_ Hi]]%lookup_insert_Some; [lia|].
      apply HS in Hi. lia.
  - split_and!; cbn [y_heap y_sections]; [|by rewrite length_alter|].
    + rewrite <- (app_nil_r (alter _ _ _)). apply store_put; [done|by eapply HS|]. left. eexists. split_and!; [done|apply parseScalar_scalar|done].
    + intros indent id [Hi _]%map_lookup_filter_Some. rewrite length_alter. by eapply HS.
Qed.

Lemma yaml_lines_ok lines : forall n st st', yaml_ok st -> yaml_lines n lines st = Ok st' -> yaml_ok st'.
Proof.
  induction lines as [|line lines IH]; intros n st st' Hok; cbn [yaml_lines]; [by intros [= <-]|].
  destruct (yaml_line n line st) as [st1|] eqn:E; [|done]. cbn [mbind result_bind]. apply IH. by eapply yaml_line_ok.
Qed.

Lemma yaml_start_ok : yaml_ok yaml_start.
Proof.
  split_and!; [split| |].
  - intros [|[]] node [= <-]. constructor.
  - intros [|[]] node k v [= <-] H. by apply not_elem_of_nil in H.
  - intros [|[]] node k i [= <-] H. by apply not_elem_of_nil in H.
  - simpl. lia.
  - intros indent id. cbn [y_sections yaml_start]. intros [_ <-]%lookup_singleton_Some. simpl. lia.
Qed.

Lemma yaml_tree_distinct heap : store_ok heap -> forall fuel id, distinct (CMap (yaml_tree fuel heap id)).
Proof.
  intros [HK HS _]. induction fuel as [|fuel IH]; intros id; cbn [yaml_tree]; [split; [constructor|done]|].
  destruct (heap !! id) as [node|] eqn:E; cbn [default]; [|split; [constructor|done]]. cbn [distinct]. split.
  - rewrite map_map. rewrite (map_ext _ fst) by (by intros []). by eapply HK.
  - apply distinct_all. apply Forall_forall. intros kv [[k e] [-> Hin]]%list_elem_of_fmap. cbn [snd].
    destruct e as [v|i]; [|apply IH]. pose proof (HS _ _ _ _ E Hin). by destruct v.
Qed.

(** The fuel of the reading is enough: more makes no difference. *)
Lemma yaml_tree_fuel heap : store_ok heap -> forall fuel fuel' id,
  (length heap <= fuel + id)%nat -> (length heap <= fuel' + id)%nat -> yaml_tree fuel heap id = yaml_tree fuel' heap id.
Proof.
  intros [_ _ HY]. induction fuel as [|fuel IH]; intros fuel' id H1 H2.
  - cbn. destruct fuel' as [|fuel']; [done|]. cbn. rewrite lookup_ge_None_2 by lia. done.
  - destruct fuel' as [|fuel']; cbn [yaml_tree].
    + rewrite lookup_ge_None_2 by lia. done.
    + destruct (heap !! id) as [node|] eqn:E; [|done]. cbn [default]. apply map_ext_in.
      intros [k e] Hin%list_elem_of_In. destruct e as [v|i]; [done|]. do 2 f_equal.
      destruct (HY _ _ _ _ E Hin). apply IH; lia.
Qed.

Lemma parse_distinct content t : parseSimpleYAML content = Ok t -> distinct (CMap t).
Proof.
  unfold parseSimpleYAML. destruct (yaml_lines _ _ _) as [st|] eqn:E; [|done]. intros [= <-].
  apply yaml_tree_distinct. by destruct (yaml_lines_ok _ _ _ _ yaml_start_ok E).
Qed.

(** ** Printing and reading back *)
Notation document := (list (string * list (string * string))).
Definition line_feed : ascii := "010"%char.

Definition section_text (name : string) : string := name +:+ ":".
Definition entry_text (e : string * string) : string := "  " +:+ e.1 +:+ ": " +:+ e.2.
Definition document_lines (d : document) : list string :=
  flat_map (fun '(name, es) => section_text name :: map entry_text es) d.
Definition print_document (d : document) : string := str (join_chars line_feed (map chars (document_lines d ++ [""]))).

(** A value on one line, and a key. *)
Definition yaml_text (s : string) : Prop :=
  line_feed ∉ chars s /\ exists c d, head (chars s) = Some c /\ last (chars s) = Some d /\ no_space c = true /\ no_space d = true.
Definition yaml_key (s : string) : Prop :=
  yaml_text s /\ ":"%char ∉ chars s /\ head (chars s) <> Some "#"%char /\ head (chars s) <> Some "-"%char.
Definition yaml_document (d : document) : Prop :=
  NoDup (map fst d) /\ Forall (fun '(name, es) => yaml_key name /\ NoDup (map fst es) /\
    Forall (fun '(k, t) => yaml_key k /\ yaml_text t) es) d.

Definition document_tree (d : document) : tree :=
  map (fun '(name, es) => (name, CMap (map (fun '(k, t) => (k, parseScalar t)) es))) d.

Lemma put_fresh {A} k (v : A) m : k ∉ map fst m -> put k v m = m ++ [(k, v)].
Proof.
  induction m as [|[x y] m IH]; cbn [put map app]; intros Hk; [done|].
  destruct (String.eqb_spec x k) as [->|]; [set_solver|]. rewrite IH by set_solver. done.
Qed.

Lemma TrimSpace_text s : yaml_text s -> TrimSpace s = s.
Proof. intros (_ & c & d & ? & ? & ? & ?). by apply (TrimSpace_ends s c d). Qed.

Lemma TrimSpace_blank s : TrimSpace (" " +:+ s) = TrimSpace s.
Proof. unfold TrimSpace. rewrite chars_app. reflexivity. Qed.

Lemma drop_set_id cs l c : head l = Some c -> c ∉ cs -> drop_set cs l = l.
Proof. destruct l as [|x l]; [done|]. intros [= ->] Hc. cbn. by rewrite bool_decide_false. Qed.

Lemma TrimRightSet_text s d : last (chars s) = Some d -> no_space d = true -> TrimRightSet s blanks = s.
Proof.
  intros Hl Hd. unfold TrimRightSet. rewrite (drop_set_id _ _ d).
  - by rewrite reverse_involutive, str_chars.
  - by rewrite <- last_reverse, reverse_involutive.
  - unfold blanks. rewrite chars_str. intros Hin. apply list_elem_of_In in Hin. simpl in Hin.
    destruct Hin as [<-|[<-|[<-|[]]]]; vm_compute in Hd; done.
Qed.

Lemma IndexByte_first c l r : c ∉ l -> IndexByte (l ++ c :: r) c = Some (length l).
Proof.
  unfold IndexByte. induction l as [|x l IH]; intros Hc; cbn [app find_char].
  - by rewrite Ascii.eqb_refl.
  - destruct (Ascii.eqb_spec c x) as [->|]; [set_solver|]. rewrite IH by set_solver. done.
Qed.

(** A line [key:rest] at an indentation, up to the choice of its parent. *)
Lemma yaml_line_key n pad key rest st d parent : yaml_key key -> (pad = "" \/ pad = "  ") ->
  last (chars (":" +:+ rest)) = Some d -> no_space d = true ->
  y_sections st !! (if String.eqb pad "" then -1 else 0) = Some parent ->
  yaml_line n (pad +:+ key +:+ ":" +:+ rest) st =
    let value := TrimSpace rest in
    let indent := if String.eqb pad "" then 0 else 2 in
    if String.eqb value "" then
      Ok (mkYaml (alter (put key (Node (length (y_heap st)))) parent (y_heap st) ++ [[]])
            (<[indent := length (y_heap st)]> (y_sections st)))
    else Ok (mkYaml (alter (put key (Scalar (parseScalar value))) parent (y_heap st))
               (filter (fun kv => kv.1 <= indent) (y_sections st))).
Proof.
  intros (HT & Hcolon & Hhash & Hdash) Hpad Hl Hd Hsec.
  pose proof HT as (_ & c & c' & Hc & Hc' & Hnc & Hnc').
  assert (last (chars (key +:+ ":" +:+ rest)) = Some d) as Hlk by (rewrite chars_app, last_app, Hl; done).
  assert (head (chars (key +:+ ":" +:+ rest)) = Some c) as Hhk by (rewrite chars_app; by destruct (chars key)).
  unfold yaml_line. rewrite (TrimRightSet_text _ d) by (done || (rewrite chars_app, last_app, Hlk; done)).
  assert (TrimSpace (pad +:+ key +:+ ":" +:+ rest) = key +:+ ":" +:+ rest) as ->.
  { rewrite <- (TrimSpace_ends (key +:+ ":" +:+ rest) c d) at 2 by done. destruct Hpad as [->| ->]; [done|].
    change ("  " +:+ key +:+ ":" +:+ rest) with (" " +:+ (" " +:+ key +:+ ":" +:+ rest)). by rewrite !TrimSpace_blank. }
  set (line := key +:+ ":" +:+ rest) in *.
  assert (line <> "") as Hne by (intros E; by rewrite E in Hhk).
  rewrite (proj2 (String.eqb_neq _ _) Hne). cbn [orb].
  assert (forall x, c <> x -> HasPrefix line (str [x]) = false) as Hpre.
  { intros x Hx. apply not_true_is_false. unfold HasPrefix. rewrite chars_str. intros [k Hk]%is_prefix_spec.
    rewrite Hk in Hhk. by injection Hhk as <-. }
  change "#" with (str ["#"%char]). change "-" with (str ["-"%char]). rewrite !Hpre by (intros ->; congruence).
  assert (countLeadingSpaces (pad +:+ line) = if String.eqb pad "" then 0 else 2) as ->.
  { assert (leading_spaces (chars line) = 0) as H0.
    { destruct (chars line) as [|x l]; [done|]. injection Hhk as ->. cbn. destruct (Ascii.eqb_spec c " ") as [->|]; [by vm_compute in Hnc|done]. }
    unfold countLeadingSpaces. rewrite chars_app. destruct Hpad as [->| ->]; cbn -[leading_spaces chars]; [done|].
    change (chars "  ") with [" "%char; " "%char]. cbn -[chars]. by rewrite H0. }
  assert (IndexByte (chars line) ":" = Some (length (chars key))) as ->.
  { unfold line. rewrite !chars_app. by apply IndexByte_first. }
  assert (str (take (length (chars key)) (chars line)) = key) as ->.
  { unfold line. rewrite chars_app, take_app_length. apply str_chars. }
  assert (str (drop (S (length (chars key))) (chars line)) = rest) as ->.
  { unfold line. rewrite !chars_app. change (chars ":" ++ chars rest) with (":"%char :: chars rest).
    rewrite cons_middle, app_assoc. rewrite drop_app_length'; [apply str_chars|]. rewrite length_app. simpl. lia. }
  rewrite (TrimSpace_text key HT).
  assert (key <> "") as Hk by (intros ->; done). rewrite (proj2 (String.eqb_neq _ _) Hk).
  set (indent := if String.eqb pad "" then 0 else 2).
  assert (negb (indent `mod` 2 =? 0) = false /\ (if indent - 2 <? 0 then -1 else indent - 2) = (if String.eqb pad "" then -1 else 0)) as [-> ->]
    by (unfold indent; destruct Hpad as [->| ->]; split; reflexivity).
  cbv zeta. by rewrite Hsec.
Qed.

(** The store after the sections of a document. *)
Definition node_of (es : list (string * string)) : list (string * entry) := map (fun '(k, t) => (k, Scalar (parseScalar t))) es.
Fixpoint root_of (i : nat) (d : document) : list (string * entry) :=
  match d with
  | [] => []
  | (name, _) :: r => (name, Node i) :: root_of (S i) r
  end.
Definition yaml_of (d : document) : yaml :=
  mkYaml (root_of 1 d :: map (fun '(_, es) => node_of es) d)
    (match d with [] => {[-1 := 0%nat]} | _ => <[0 := length d]> {[-1 := 0%nat]} end).

Lemma root_of_keys i d : map fst (root_of i d) = map fst d.
Proof. revert i. induction d as [|[name es] d IH]; intros i; [done|]. cbn. by rewrite IH. Qed.
Lemma root_of_snoc i d name es : root_of i (d ++ [(name, es)]) = root_of i d ++ [(name, Node (i + length d))].
Proof.
  revert i. induction d as [|[x y] d IH]; intros i; cbn; [by rewrite Nat.add_0_r|]. rewrite IH, Nat.add_succ_r. done.
Qed.
Lemma node_of_keys es : map fst (node_of es) = map fst es.
Proof. unfold node_of. rewrite map_map. apply map_ext. by intros []. Qed.

Lemma yaml_of_snoc d name es : yaml_of (d ++ [(name, es)]) =
  mkYaml ((root_of 1 d ++ [(name, Node (S (length d)))]) :: map (fun '(_, es) => node_of es) d ++ [node_of es])
    (<[0 := S (length d)]> {[-1 := 0%nat]}).
Proof.
  unfold yaml_of. rewrite root_of_snoc, map_app, length_app, Nat.add_1_r. cbn [map]. by destruct d.
Qed.

Lemma section_step n d name : yaml_key name -> name ∉ map fst d ->
  yaml_line n (section_text name) (yaml_of d) = Ok (yaml_of (d ++ [(name, [])])).
Proof.
  intros Hk Hn. unfold section_text.
  change (name +:+ ":") with ("" +:+ name +:+ ":" +:+ "").
  rewrite (yaml_line_key n "" name "" (yaml_of d) ":" 0%nat) by (done || (by left) || (by destruct d)).
  cbn [String.eqb]. cbv zeta. rewrite yaml_of_snoc. cbn [y_heap yaml_of y_sections alter list_alter app].
  change (TrimSpace "") with "". cbn [String.eqb]. do 2 f_equal.
  - cbn [length]. rewrite length_map. cbn. rewrite put_fresh by (by rewrite root_of_keys). done.
  - cbn [length]. rewrite length_map. destruct d as [|x d]; [done|]. by rewrite insert_insert_eq.
Qed.

Lemma entry_step n d name es k t : yaml_key k -> yaml_text t -> k ∉ map fst es ->
  yaml_line n (entry_text (k, t)) (yaml_of (d ++ [(name, es)])) = Ok (yaml_of (d ++ [(name, es ++ [(k, t)])])).
Proof.
  intros Hk Ht Hn. unfold entry_text. cbn [fst snd].
  change (": " +:+ t) with (":" +:+ (" " +:+ t)). pose proof Ht as (_ & c & d0 & Hc & Hd & Hnc & Hnd).
  rewrite (yaml_line_key n "  " k (" " +:+ t) (yaml_of (d ++ [(name, es)])) d0 (S (length d))); try done; [|by right| |].
  2:{ rewrite !chars_app. rewrite app_assoc, last_app, Hd. done. }
  2:{ rewrite yaml_of_snoc. cbn [y_sections String.eqb]. by rewrite lookup_insert_eq. }
  cbn [String.eqb]. cbv zeta. rewrite TrimSpace_blank, (TrimSpace_text t Ht).
  assert (t <> "") as Hne by (intros ->; done). rewrite (proj2 (String.eqb_neq _ _) Hne).
  rewrite !yaml_of_snoc. cbn [y_heap y_sections]. do 2 f_equal.
  cbn. f_equal. rewrite <- (length_map (fun '(_, es) => node_of es) d). set (l := map _ d).
  rewrite alter_app_r_alt by lia. rewrite Nat.sub_diag. cbn. f_equal. f_equal. unfold node_of at 2. rewrite map_app. cbn.
  apply put_fresh. by rewrite node_of_keys.
Qed.

Lemma entries_steps es' : forall n d name es, Forall (fun '(k, t) => yaml_key k /\ yaml_text t) es' -> NoDup (map fst (es ++ es')) ->
  yaml_lines n (map entry_text es') (yaml_of (d ++ [(name, es)])) = Ok (yaml_of (d ++ [(name, es ++ es')])).
Proof.
  induction es' as [|[k t] es' IH]; intros n d name es HF HN; cbn [map yaml_lines]; [by rewrite app_nil_r|].
  apply Forall_cons in HF as [[Hk Ht] HF]. rewrite map_app in HN. cbn [map fst] in HN.
  assert (k ∉ map fst es) as Hfresh by (apply NoDup_app in HN as (_ & HN & _); intros Hin; apply (HN k Hin); by left).
  rewrite entry_step by done. cbn [mbind result_bind]. rewrite IH; [by rewrite <- app_assoc|done|].
  rewrite <- app_assoc, map_app. done.
Qed.

Lemma yaml_lines_app l1 l2 : forall n st st1, yaml_lines n l1 st = Ok st1 ->
  yaml_lines n (l1 ++ l2) st = yaml_lines (n + zlen l1) l2 st1.
Proof.
  induction l1 as [|line l1 IH]; intros n st st1; cbn [yaml_lines app].
  - intros [= ->]. f_equal. unfold zlen. simpl. lia.
  - destruct (yaml_line n line st) as [st2|]; [|done]. cbn [mbind result_bind]. intros H. rewrite (IH _ _ _ H), zlen_cons.
    f_equal. lia.
Qed.

Lemma document_steps d : forall n done, NoDup (map fst (done ++ d)) ->
  Forall (fun '(name, es) => yaml_key name /\ NoDup (map fst es) /\ Forall (fun '(k, t) => yaml_key k /\ yaml_text t) es) d ->
  yaml_lines n (document_lines d) (yaml_of done) = Ok (yaml_of (done ++ d)).
Proof.
  induction d as [|[name es] d IH]; intros n done HN HF; [by rewrite app_nil_r|].
  apply Forall_cons in HF as [(Hk & Hes & HFes) HF]. unfold document_lines. cbn [flat_map app yaml_lines]. fold (document_lines d).
  rewrite map_app in HN. cbn [map fst] in HN.
  rewrite section_step; [|done|apply NoDup_app in HN as (_ & HN & _); intros Hin; apply (HN name Hin); by left].
  cbn [mbind result_bind]. erewrite yaml_lines_app by (by apply entries_steps). cbn [app]. rewrite IH.
  - by rewrite <- app_assoc.
  - rewrite <- app_assoc, map_app. done.
  - done.
Qed.

Lemma yaml_tree_of d : yaml_tree (length (y_heap (yaml_of d))) (y_heap (yaml_of d)) 0 = document_tree d.
Proof.
  cbn [yaml_of y_heap length yaml_tree lookup list_lookup default]. rewrite length_map.
  assert (forall pre rest, length (pre ++ rest) = length d ->
    map (fun '(key, e) => (key, match e with Scalar v => v | Node i => CMap (yaml_tree (length d)
       (root_of 1 d :: map (fun '(_, es) => node_of es) (pre ++ rest)) i) end)) (root_of (S (length pre)) rest) = document_tree rest) as H.
  2:{ exact (H [] d eq_refl). }
  intros pre rest. revert pre. induction rest as [|[name es] rest IH]; intros pre HL; [done|]. cbn [root_of map document_tree].
  f_equal.
  - f_equal. rewrite length_app in HL. cbn [length] in HL. destruct (length d) as [|fuel]; [lia|]. cbn [yaml_tree].
    assert ((root_of 1 d :: map (fun '(_, es) => node_of es) (pre ++ (name, es) :: rest)) !! S (length pre) = Some (node_of es)) as ->.
    { change (map (fun '(_, es) => node_of es) (pre ++ (name, es) :: rest) !! length pre = Some (node_of es)).
      rewrite map_app. apply list_lookup_middle. by rewrite length_map. }
    cbn [from_option id]. f_equal. transitivity (map (fun kt : string * string => (kt.1, parseScalar kt.2)) es); [|apply map_ext; by intros []].
    unfold node_of at 2. rewrite map_map. apply map_ext. by intros [].
  - specialize (IH (pre ++ [(name, es)])). replace (length (pre ++ [(name, es)])) with (S (length pre)) in IH
      by (rewrite length_app; simpl; lia).
    rewrite <- app_assoc in IH. exact (IH HL).
Qed.

Lemma text_line s : yaml_text s -> line_feed ∉ chars s.
Proof. by intros [? _]. Qed.

Lemma document_lines_plain d : yaml_document d -> Forall (fun l => line_feed ∉ l) (map chars (document_lines d ++ [""])).
Proof.
  intros [_ HF]. rewrite map_app. apply Forall_app. split; [|by repeat constructor; set_solver].
  apply Forall_forall. intros l (line & -> & Hin)%list_elem_of_fmap. apply list_elem_of_In, in_flat_map in Hin as ([name es] & Hd & Hin).
  rewrite Forall_forall in HF. apply list_elem_of_In, HF in Hd as ((Hk & _) & _ & HFe).
  destruct Hin as [<-|([k t] & <- & He)%in_map_iff].
  - unfold section_text. rewrite chars_app, elem_of_app. apply text_line in Hk. intros [E|E%list_elem_of_singleton]; [by apply Hk|]. discriminate E.
  - rewrite Forall_forall in HFe. apply list_elem_of_In, HFe in He as [[Hk' _] Ht]. apply text_line in Hk', Ht.
    unfold entry_text. cbn [fst snd]. rewrite !chars_app, !elem_of_app.
    change (chars "  ") with [" "%char; " "%char]. change (chars ": ") with [":"%char; " "%char].
    rewrite !elem_of_cons, elem_of_nil. intros [[H|[H|[]]]|[H|[[H|[H|[]]]|H]]];
      (discriminate H || by apply Hk' || by apply Ht).
Qed.

(** A document of sections and entries, printed with two spaces of indentation, is read back
    as the same sections and entries, every value as [parseScalar] understands it. *)
Theorem parse_print d : yaml_document d -> parseSimpleYAML (print_document d) = Ok (document_tree d).
Proof.
  intros HD. unfold parseSimpleYAML, Split, print_document. rewrite chars_str.
  rewrite split_join_plain; [|by destruct (document_lines d)|by apply document_lines_plain].
  rewrite map_map, (map_ext _ id str_chars), map_id. destruct HD as [HN HF].
  rewrite (yaml_lines_app _ _ _ _ (yaml_of d)).
  - cbn [yaml_lines]. change (yaml_line _ "" (yaml_of d)) with (Ok (yaml_of d) : result yaml). cbn [mbind result_bind].
    by rewrite yaml_tree_of.
  - by apply (document_steps d 1 []).
Qed.

Lemma parse_print_witness :
  parseSimpleYAML (print_document [("server", [("host", "0.0.0.0"); ("port", "8080")]); ("worker", [])]) =
  Ok [("server", CMap [("host", CString "0.0.0.0"); ("port", CInt 8080)]); ("worker", CMap [])].
Proof.
  rewrite (parse_print [("server", [("host", "0.0.0.0"); ("port", "8080")]); ("worker", [])]); [vm_compute; reflexivity|].
  assert (forall s, match head (chars s), last (chars s) with
    | Some c, Some d => no_space c && no_space d && negb (bool_decide (line_feed ∈ chars s))
    | _, _ => false end = true -> yaml_text s) as HT.
  { intros s H. destruct (head (chars s)) as [c|] eqn:E1; [|done]. destruct (last (chars s)) as [d|] eqn:E2; [|done].
    apply andb_true_iff in H as [[H1 H2]%andb_true_iff H3%negb_true_iff%bool_decide_eq_false].
    split; [exact H3|]. exists c, d. auto. }
  assert (forall s, yaml_text s -> (negb (bool_decide (":"%char ∈ chars s)) && negb (bool_decide (head (chars s) = Some "#"%char)) &&
    negb (bool_decide (head (chars s) = Some "-"%char))) = true -> yaml_key s) as HK.
  { intros s Hs H. apply andb_true_iff in H as [[H1%negb_true_iff%bool_decide_eq_false H2%negb_true_iff%bool_decide_eq_false]%andb_true_iff
      H3%negb_true_iff%bool_decide_eq_false]. split; [exact Hs|]. split; [exact H1|]. split; assumption. }
  assert (forall s, (match head (chars s), last (chars s) with
    | Some c, Some d => no_space c && no_space d && negb (bool_decide (line_feed ∈ chars s))
    | _, _ => false end && (negb (bool_decide (":"%char ∈ chars s)) && negb (bool_decide (head (chars s) = Some "#"%char)) &&
    negb (bool_decide (head (chars s) = Some "-"%char)))) = true -> yaml_key s) as HK'.
  { intros s [H1 H2]%andb_true_iff. apply HK; [|exact H2]. apply HT. exact H1. }
  split; [apply (bool_decide_unpack _); vm_compute; exact I|].
  repeat constructor; first [apply HK'; vm_compute; reflexivity | apply HT; vm_compute; reflexivity | apply (bool_decide_unpack _); vm_compute; exact I].
Defined.

(** ** Observations *)

(** Opening a section does not forget the deeper sections before it: a line that is indented
    too far is added to a section of another part of the document. *)
Theorem stale_section_is_reused :
  parseSimpleYAML (str (join_chars line_feed (map chars ["a:"; "  b:"; "    c: 1"; "d:"; "    e: 2"]))) =
  Ok [("a", CMap [("b", CMap [("c", CInt 1); ("e", CInt 2)])]); ("d", CMap [])].
Proof. vm_compute. reflexivity. Qed.

(** A quoted value is read as a number all the same: a text setting loses leading zeros. *)
Theorem quoted_number_is_changed :
  set_string (parseScalar (str ("034"%char :: chars "007" ++ ["034"%char]))) = Ok "7".
Proof. vm_compute. reflexivity. Qed.

(** The numbers that [ParseBool] accepts are read as integers before, which a switch refuses. *)
Theorem switch_refuses_one : is_ok (set_bool (parseScalar "1")) = false /\ ParseBool "1" = Ok true.
Proof. vm_compute. split; reflexivity. Qed.
