(* ===== verification/GoFlag.v ===== *)
(** * Package flag

    [FlagSet.Parse] of Go 1.22 for text, integer and switch flags, with
    [flag.ContinueOnError]: the values of the variables behind the flags, and the flags that
    were given ([Visit]).  Two flags may share a variable.  Integers are read by
    [strconv.ParseInt] with base 0: prefixes and underscores of Go literals are allowed. *)
From S2P Require Import Prelude GoStrings GoTime GoJson GoRFC3339 Viper.

(** ** strconv.ParseInt(s, 0, 64) *)
Definition literal_digit (c : ascii) : option Z :=
  let c := lower_char c in
  match digit c with
  | Some d => Some d
  | None => if (97 <=? code c) && (code c <=? 122) then Some (code c - 87) else None
  end.

(** The digits in a base, underscores skipped; the value may not exceed 64 bits. *)
Fixpoint literal_value (base : Z) (l : list ascii) (acc : Z) : result Z :=
  match l with
  | [] => Ok acc
  | c :: r =>
    if Ascii.eqb c "_" then literal_value base r acc else
    match literal_digit c with
    | None => Err ErrSyntax
    | Some d =>
      if base <=? d then Err ErrSyntax else
      let n := acc * base + d in
      if 2 ^ 64 <=? n then Err ErrRange else literal_value base r n
    end
  end.

Inductive seen := SeenStart | SeenDigit | SeenUnderscore | SeenOther.
Fixpoint underscores_from (hex : bool) (saw : seen) (l : list ascii) : bool :=
  match l with
  | [] => match saw with SeenUnderscore => false | _ => true end
  | c :: r =>
    let lower := lower_char c in
    if bool_decide (is_Some (digit c)) || (hex && (97 <=? code lower) && (code lower <=? 102))
    then underscores_from hex SeenDigit r
    else if Ascii.eqb c "_" then
      match saw with SeenDigit => underscores_from hex SeenUnderscore r | _ => false end
    else match saw with SeenUnderscore => false | _ => underscores_from hex SeenOther r end
  end.

(** The base a literal names, and what follows the prefix. *)
Definition literal_base (l : list ascii) : Z * list ascii :=
  match l with
  | "0"%char :: c :: (_ :: _) as r =>
    let rest := drop 2 l in
    if Ascii.eqb (lower_char c) "b" then (2, rest) else
    if Ascii.eqb (lower_char c) "o" then (8, rest) else
    if Ascii.eqb (lower_char c) "x" then (16, rest) else (8, drop 1 l)
  | "0"%char :: r => (8, r)
  | _ => (10, l)
  end.
Definition underscoreOK (l : list ascii) : bool :=
  match l with
  | "0"%char :: c :: r =>
    let c := lower_char c in
    if Ascii.eqb c "b" || Ascii.eqb c "o" || Ascii.eqb c "x" then underscores_from (Ascii.eqb c "x") SeenDigit r
    else underscores_from false SeenStart l
  | _ => underscores_from false SeenStart l
  end.

Definition ParseIntLiteral (s : string) : result Z :=
  let '(neg, l) := match chars s with
                   | "+"%char :: r => (false, r)
                   | "-"%char :: r => (true, r)
                   | l => (false, l)
                   end in
  match l with
  | [] => Err ErrSyntax
  | _ =>
    let '(base, digits) := literal_base l in
    n ← literal_value base digits 0;
    if bool_decide ("_"%char ∈ l) && negb (underscoreOK l) then Err ErrSyntax else
    let z := if neg : bool then - n else n in
    if decide (in_int64 z) then Ok z else Err ErrRange
  end.

(** ** Flags *)
Inductive flag_value := FString (s : string) | FInt (z : Z) | FBool (b : bool).

(** A flag set: the variable of every flag, the values of the variables, the flags given. *)
Record FlagSet := mkFlagSet { fl_formal : list (string * string); fl_vars : list (string * flag_value); fl_actual : list string }.

Definition ErrHelp : error := Sentinel "flag: help requested".
Definition errParse : error := Sentinel "parse error".

(** [Value.Set]. *)
Definition set_flag (old : flag_value) (value : string) : result flag_value :=
  match old with
  | FString _ => Ok (FString value)
  | FInt _ =>
    match ParseIntLiteral value with
    | Ok z => Ok (FInt z)
    | Err e => Err (if bool_decide (e = ErrSyntax) then errParse else e)
    end
  | FBool _ => match ParseBool value with Ok b => Ok (FBool b) | Err _ => Err errParse end
  end.

(** One argument: the end of the flags, a malformed flag, or a name and its value if any. *)
Inductive argument := ArgStop | ArgBad | ArgFlag (name : string) (value : option string).
Definition name_value (l : list ascii) : string * option string :=
  match l with
  | [] => ("", None)
  | c :: r =>
    match IndexByte r "=" with
    | Some i => (str (c :: take i r), Some (str (drop (S i) r)))
    | None => (str l, None)
    end
  end.
Definition flag_name (l : list ascii) : argument :=
  match l with
  | [] | "-"%char :: _ | "="%char :: _ => ArgBad
  | _ => let '(name, value) := name_value l in ArgFlag name value
  end.
Definition read_argument (s : string) : argument :=
  match chars s with
  | "-"%char :: "-"%char :: [] => ArgStop
  | "-"%char :: "-"%char :: l => flag_name l
  | "-"%char :: c :: l => flag_name (c :: l)
  | _ => ArgStop
  end.

Definition store_flag (fs : FlagSet) (name var : string) (v : flag_value) : FlagSet :=
  mkFlagSet (fl_formal fs) (put var v (fl_vars fs)) (fl_actual fs ++ [name]).

Fixpoint Parse (args : list string) (fs : FlagSet) : result FlagSet :=
  match args with
  | [] => Ok fs
  | s :: rest =>
    match read_argument s with
    | ArgStop => Ok fs
    | ArgBad => Err (Errorf ("bad flag syntax: " +:+ s))
    | ArgFlag name value =>
      match assoc name (fl_formal fs) ≫= fun var => old ← assoc var (fl_vars fs); Some (var, old) with
      | None =>
        if String.eqb name "help" || String.eqb name "h" then Err ErrHelp
        else Err (Errorf ("flag provided but not defined: -" +:+ name))
      | Some (var, FBool _ as old) =>
        match value with
        | None => Parse rest (store_flag fs name var (FBool true))
        | Some v =>
          match set_flag old v with
          | Err e => Err (Errorf ("invalid boolean value " +:+ Quote v +:+ " for -" +:+ name +:+ ": " +:+ Error e))
          | Ok new => Parse rest (store_flag fs name var new)
          end
        end
      | Some (var, old) =>
        let set (v : string) (rest : list string) (continue : FlagSet -> result FlagSet) :=
          match set_flag old v with
          | Err e => Err (Errorf ("invalid value " +:+ Quote v +:+ " for flag -" +:+ name +:+ ": " +:+ Error e))
          | Ok new => continue (store_flag fs name var new)
          end in
        match value, rest with
        | Some v, _ => set v rest (Parse rest)
        | None, v :: rest => set v rest (Parse rest)
        | None, [] => Err (Errorf ("flag needs an argument: -" +:+ name))
        end
      end
    end
  end.

Definition flag_string (fs : FlagSet) (var : string) : string :=
  match assoc var (fl_vars fs) with Some (FString s) => s | _ => "" end.
Definition flag_int (fs : FlagSet) (var : string) : Z := match assoc var (fl_vars fs) with Some (FInt z) => z | _ => 0 end.
Definition flag_bool (fs : FlagSet) (var : string) : bool :=
  match assoc var (fl_vars fs) with Some (FBool b) => b | _ => false end.

Example literal_examples :
  map ParseIntLiteral ["0"; "8080"; "-0x1F"; "0b101"; "017"; "1_000"; "08"; "1__0"; "0x"; "9223372036854775808"] =
  [Ok 0; Ok 8080; Ok (-31); Ok 5; Ok 15; Ok 1000; Err ErrSyntax; Err ErrSyntax; Err ErrSyntax; Err ErrRange].
Proof. vm_compute. reflexivity. Qed.

(** ** Numbers read back *)
Lemma pretty_go_head x s : (0 < x)%N -> exists c l, chars (pretty_N_go x s) = c :: l /\ c <> "0"%char.
Proof.
  revert s. induction (N.lt_wf_0 x) as [x _ IH]. intros s Hx. rewrite pretty_N_go_step by done.
  destruct (decide (0 < x / 10)%N) as [Hd|Hd]; [apply IH; [apply N.div_lt; lia|done]|].
  assert (x / 10 = 0)%N as E by (apply N.le_0_r, N.nlt_ge; exact Hd). rewrite E, pretty_N_go_0. cbn [chars]. eexists _, _. split; [reflexivity|].
  assert (x < 10)%N as Hlt by (apply N.div_small_iff in E; [exact E|lia]). rewrite N.mod_small by done. intros Hc.
  change "0"%char with (pretty_N_char 0) in Hc. apply pretty_N_char_inj in Hc; lia.
Qed.

Lemma Itoa_head n : 0 < n -> exists c l, chars (Itoa n) = c :: l /\ c <> "0"%char.
Proof.
  intros Hn. destruct n as [|p|p]; [lia| |lia]. unfold Itoa. change (pretty (Z.pos p)) with (pretty (N.pos p)).
  unfold pretty, pretty_N. rewrite decide_False by lia. by apply pretty_go_head.
Qed.

Lemma digit_literal c d : digit c = Some d -> literal_digit c = Some d /\ 0 <= d < 10 /\ c <> "_"%char.
Proof.
  intros H.
  assert (match digit c with Some d => bool_decide (literal_digit c = Some d) && (0 <=? d) && (d <? 10) && negb (Ascii.eqb c "_") | None => true end = true) as E
    by (revert c H; intros c _; revert c; apply char_forall; vm_compute; reflexivity).
  rewrite H in E. apply andb_true_iff in E as [[[E1%bool_decide_eq_true E2]%andb_true_iff E3]%andb_true_iff E4%negb_true_iff%Ascii.eqb_neq].
  split_and!; [done|lia|lia|done].
Qed.

Lemma digits_value_grows l : forall acc v, 0 <= acc -> digits_value l acc = Some v -> acc <= v.
Proof.
  induction l as [|c l IH]; intros acc v Ha; cbn [digits_value]; [intros [= ->]; lia|].
  destruct (digit c) as [d|] eqn:E; [|done]. apply digit_literal in E as (_ & Hd & _). intros H%IH; lia.
Qed.

Lemma literal_digits l : forall acc v, 0 <= acc -> digits_value l acc = Some v -> v < 2 ^ 64 -> literal_value 10 l acc = Ok v.
Proof.
  induction l as [|c l IH]; intros acc v Ha; cbn [digits_value literal_value]; [by intros [= ->]|].
  destruct (digit c) as [d|] eqn:E; [|done]. intros H Hv. apply digit_literal in E as (-> & Hd & Hu%Ascii.eqb_neq). rewrite Hu.
  assert (acc * 10 + d <= v) by (eapply digits_value_grows; [|exact H]; lia). rewrite (proj2 (Z.leb_gt 10 d)) by lia.
  cbv zeta. rewrite (proj2 (Z.leb_gt (2 ^ 64) (acc * 10 + d))) by lia. apply IH; [lia|done|done].
Qed.

Lemma no_underscore l acc v : digits_value l acc = Some v -> "_"%char ∉ l.
Proof.
  revert acc. induction l as [|c l IH]; intros acc; cbn [digits_value]; [intros _ ?%not_elem_of_nil; done|].
  destruct (digit c) as [d|] eqn:E; [|done]. apply digit_literal in E as (_ & _ & Hu). intros H%IH Hin.
  apply elem_of_cons in Hin as [<-|Hin]; [by apply Hu|by apply H].
Qed.

Lemma literal_base_10 c l : c <> "0"%char -> literal_base (c :: l) = (10, c :: l).
Proof. intros Hc. destruct c as [[] [] [] [] [] [] [] []]; try reflexivity. by exfalso. Qed.

Lemma ParseIntLiteral_Itoa z : in_int64 z -> ParseIntLiteral (Itoa z) = Ok z.
Proof.
  intros Hz. destruct (decide (z = 0)) as [->|Hnz]; [vm_compute; reflexivity|].
  destruct (Itoa_head (Z.abs z)) as (c & l & HC & Hc); [lia|]. pose proof (Itoa_value (Z.abs z) ltac:(lia)) as HV. rewrite HC in HV.
  assert (literal_base (c :: l) = (10, c :: l) /\ literal_value 10 (c :: l) 0 = Ok (Z.abs z) /\ bool_decide ("_"%char ∈ c :: l) = false) as (H1 & H2 & H3).
  { split_and!; [by apply literal_base_10| |apply bool_decide_eq_false; by eapply no_underscore].
    apply literal_digits; [lia|done|]. unfold in_int64, int64_min, int64_max in Hz. lia. }
  unfold ParseIntLiteral. destruct (decide (0 < z)) as [Hp|Hn].
  - rewrite Z.abs_eq in * by lia. rewrite HC.
    assert (match c :: l with "+"%char :: r => (false, r) | "-"%char :: r => (true, r) | x => (false, x) end = (false, c :: l)) as ->.
    { destruct (digits_first _ _ _ HV) as [n Hd]. destruct c as [[] [] [] [] [] [] [] []]; try reflexivity; by vm_compute in Hd. }
    rewrite H1, H2. cbn [mbind result_bind]. rewrite H3. cbn [andb]. by rewrite decide_True.
  - rewrite Z.abs_neq in * by lia.
    assert (chars (Itoa z) = "-"%char :: c :: l) as ->.
    { destruct z as [|p|p]; [lia|lia|]. rewrite <- HC. reflexivity. }
    rewrite H1, H2. cbn [mbind result_bind]. rewrite H3. cbn [andb]. rewrite Z.opp_involutive. by rewrite decide_True.
Qed.

(** ** Arguments read back *)
Definition value_text (v : flag_value) : string :=
  match v with FString s => s | FInt z => Itoa z | FBool b => if b then "true" else "false" end.
Definition same_kind (a b : flag_value) : bool :=
  match a, b with FString _, FString _ | FInt _, FInt _ | FBool _, FBool _ => true | _, _ => false end.

(** A flag name: not empty, no equals sign, not starting with a dash. *)
Definition plain_name (name : string) : bool :=
  match chars name with
  | [] => false
  | c :: l => negb (Ascii.eqb c "-") && negb (existsb (Ascii.eqb "=") (c :: l))
  end.

(** The ways to write a setting of a flag. *)
Inductive written : string * flag_value -> list string -> Prop :=
| written_equals name v dashes : dashes = "-" \/ dashes = "--" -> written (name, v) [dashes +:+ name +:+ "=" +:+ value_text v]
| written_apart name v dashes : dashes = "-" \/ dashes = "--" -> (forall b, v <> FBool b) -> written (name, v) [dashes +:+ name; value_text v]
| written_switch name dashes : dashes = "-" \/ dashes = "--" -> written (name, FBool true) [dashes +:+ name].

(** A setting the flag set has a flag for. *)
Definition accepts (fs : FlagSet) (setting : string * flag_value) : Prop :=
  plain_name setting.1 = true /\
  (exists var old, assoc setting.1 (fl_formal fs) = Some var /\ assoc var (fl_vars fs) = Some old /\ same_kind old setting.2 = true) /\
  match setting.2 with FInt z => in_int64 z | _ => True end.

Definition give (fs : FlagSet) (setting : string * flag_value) : FlagSet :=
  store_flag fs setting.1 (default "" (assoc setting.1 (fl_formal fs))) setting.2.

Lemma accepts_give fs a b : accepts fs a -> accepts fs b -> accepts (give fs a) b.
Proof.
  intros (_ & (va & oa & A1 & A2 & A3) & _) (B1 & (vb & ob & B2 & B3 & B4) & B5). split_and!; [done| |done].
  unfold give, store_flag. cbn [fl_formal fl_vars]. rewrite A1. change (default "" (Some va)) with va. exists vb.
  destruct (String.eqb_spec va vb) as [->|Hne].
  - exists a.2. rewrite assoc_put, String.eqb_refl. split_and!; [done|done|]. rewrite A2 in B3. injection B3 as ->.
    destruct ob, a.2, b.2; done.
  - exists ob. rewrite assoc_put, (proj2 (String.eqb_neq _ _) Hne). by split_and!.
Qed.

Lemma IndexByte_none c l : c ∉ l -> IndexByte l c = None.
Proof.
  unfold IndexByte. induction l as [|d l IH]; [done|]. intros [Hd Hl]%not_elem_of_cons. cbn [find_char].
  rewrite (proj2 (Ascii.eqb_neq c d)) by done. by rewrite IH.
Qed.

Lemma read_plain name dashes value : plain_name name = true -> dashes = "-" \/ dashes = "--" ->
  read_argument (dashes +:+ name +:+ match value with Some v => "=" +:+ v | None => "" end) = ArgFlag name value.
Proof.
  unfold plain_name. intros HN HD. destruct (chars name) as [|c l] eqn:EN; [done|].
  apply andb_true_iff in HN as [Hc%negb_true_iff%Ascii.eqb_neq He%negb_true_iff]. cbn [existsb] in He.
  apply orb_false_iff in He as [Hce He]. apply Ascii.eqb_neq in Hce.
  assert ("="%char ∉ l) as Hl.
  { intros Hin%list_elem_of_In. assert (existsb (Ascii.eqb "=") l = true) as E; [|congruence].
    apply existsb_exists. eexists. split; [exact Hin|apply Ascii.eqb_refl]. }
  set (tail := match value with Some v => "="%char :: chars v | None => [] end).
  assert (chars (name +:+ match value with Some v => "=" +:+ v | None => "" end) = c :: l ++ tail) as HT.
  { rewrite chars_app, EN. destruct value; [rewrite chars_app|]; done. }
  assert (flag_name (c :: l ++ tail) = ArgFlag name value) as HF.
  { assert (forall x, flag_name (c :: x) = let '(name, value) := name_value (c :: x) in ArgFlag name value) as ->.
    { intros x. destruct c as [[] [] [] [] [] [] [] []]; try reflexivity; by exfalso. }
    unfold name_value, tail. destruct value as [v|].
    - rewrite IndexByte_first by done. rewrite take_app_length, <- EN, str_chars.
      rewrite drop_app_ge by lia. replace (S (length l) - length l)%nat with 1%nat by lia. cbn [drop]. by rewrite drop_0, str_chars.
    - rewrite app_nil_r, IndexByte_none by done. by rewrite <- EN, str_chars. }
  unfold read_argument. rewrite chars_app, HT. destruct HD as [-> | ->]; [|exact HF].
  change (chars "-" ++ c :: l ++ tail) with ("-"%char :: c :: (l ++ tail)).
  assert (forall x, match c :: x with "-"%char :: [] => ArgStop | "-"%char :: y => flag_name y | d :: y => flag_name (d :: y) | [] => ArgStop end = flag_name (c :: x)) as H.
  { intros x. destruct c as [[] [] [] [] [] [] [] []]; try reflexivity; by exfalso. }
  rewrite <- HF. rewrite <- (H (l ++ tail)). destruct c as [[] [] [] [] [] [] [] []]; reflexivity.
Qed.

Lemma string_app_empty s : s +:+ "" = s.
Proof. apply chars_inj. rewrite chars_app. apply app_nil_r. Qed.

Lemma set_flag_text old v : same_kind old v = true -> match v with FInt z => in_int64 z | _ => True end ->
  set_flag old (value_text v) = Ok v.
Proof.
  destruct old, v as [s0|z0|b0]; try done; intros _ Hv; cbn [set_flag value_text].
  - by rewrite ParseIntLiteral_Itoa.
  - destruct b0; vm_compute; reflexivity.
Qed.

(** One setting. *)
Lemma Parse_setting fs setting args rest : accepts fs setting -> written setting args ->
  Parse (args ++ rest) fs = Parse rest (give fs setting).
Proof.
  intros (HN & (var & old & H1 & H2 & H3) & HI) HW. unfold give. rewrite H1. change (default "" (Some var)) with var.
  assert (assoc setting.1 (fl_formal fs) ≫= (fun var => old ← assoc var (fl_vars fs); Some (var, old)) = Some (var, old)) as HL
    by (rewrite H1; cbn [mbind option_bind]; by rewrite H2).
  pose proof (set_flag_text _ _ H3 HI) as HS. destruct HW as [name v dashes HD|name v dashes HD HB|name dashes HD];
    cbn [fst snd app] in *; cbn [Parse].
  - rewrite (read_plain name dashes (Some (value_text v))) by done. rewrite HL. destruct old; by rewrite HS.
  - pose proof (read_plain name dashes None HN HD) as HR. cbn beta iota in HR. rewrite (string_app_empty name) in HR. rewrite HR, HL.
    destruct old as [s0|z0|b0]; [by rewrite HS|by rewrite HS|]. destruct v as [| |b]; try done. by destruct (HB b).
  - pose proof (read_plain name dashes None HN HD) as HR. cbn beta iota in HR. rewrite (string_app_empty name) in HR. rewrite HR, HL.
    by destruct old.
Qed.

(** Settings written as arguments, in any of the ways the package allows, are read back: each
    flag has the last value given for it, the others keep their defaults, and exactly the
    flags named are visited. *)
Theorem Parse_written fs settings args : Forall (accepts fs) settings -> Forall2 written settings args ->
  Parse (concat args) fs = Ok (foldl give fs settings).
Proof.
  intros HA HW. revert fs HA. induction HW as [|setting a settings args Hw HW IH]; intros fs HA; [done|].
  apply Forall_cons in HA as [H1 H2]. cbn [concat foldl]. rewrite (Parse_setting fs setting) by done. apply IH.
  eapply Forall_impl; [exact H2|]. intros b Hb. by apply accepts_give.
Qed.
