(* ===== verification/Config.v ===== *)
(** * Configuration: internal/config

    config.go (environment files and aliases, [Load]) and validation.go, on top of the
    reader of Viper.v and the settings of ConfigData.v.  The process environment is a map that
    [Load] changes. *)
From S2P Require Import Prelude GoStrings GoPath GoTime GoJson GoRFC3339 GoFS Upload Viper ConfigData.

(** ** Environment files and aliases *)
Notation environ := (gmap string string).

(** [os.Setenv] refuses what the system cannot store. *)
Definition NUL : ascii := "000"%char.
Definition Setenv (key value : string) (env : environ) : environ :=
  if String.eqb key "" || ContainsAny key (str ["="%char; NUL]) || ContainsAny value (str [NUL])
  then env else <[key := value]> env.

Definition env_line_error (path : string) (n : Z) (message : string) : error :=
  Errorf ("load env file " +:+ path +:+ ":" +:+ Itoa n +:+ ": " +:+ message).

(** One line of an environment file. *)
Definition env_line (path : string) (n : Z) (text : string) (env : environ) : result environ :=
  let line := TrimSpace text in
  if String.eqb line "" || HasPrefix line "#" then Ok env else
  let line := TrimPrefix line "export " in
  match IndexByte (chars line) "=" with
  | None | Some O => Err (env_line_error path n "expected KEY=value")
  | Some i =>
    let key := TrimSpace (str (take i (chars line))) in
    let value := TrimSet (TrimSpace (str (drop (S i) (chars line)))) quotes in
    if String.eqb key "" then Err (env_line_error path n "empty key") else
    Ok (match env !! key with Some _ => env | None => Setenv key value env end)
  end.

(** [bufio.Scanner] ends with an error at a line that does not fit its buffer. *)
Definition max_token : Z := 65536.
Definition ErrTooLong : error := Sentinel "bufio.Scanner: token too long".
Fixpoint env_lines (path : string) (n : Z) (lines : list string) (env : environ) : option error * environ :=
  match lines with
  | [] => (None, env)
  | text :: rest =>
    if max_token <=? slen text
    then (Some (Wrapf ("read env file " +:+ path +:+ ": " +:+ Error ErrTooLong) ErrTooLong), env)
    else match env_line path n text env with
         | Err e => (Some e, env)
         | Ok env => env_lines path (n + 1) rest env
         end
  end.

Definition loadEnvironmentFile (path : string) (fs : FS) (env : environ) : option error * environ :=
  match fs !! path with
  | None => (None, env)
  | Some content => env_lines path 1 (Split content "010") env
  end.

Definition DefaultEnvPrefix : string := "AUREN".
Definition DefaultEnvFiles : list string := [".env"].
Definition DefaultSearchPaths : list string := ["."; "./configs"; "/etc/auren-transfer-agent"].

Fixpoint load_env_files (paths : list string) (fs : FS) (env : environ) : option error * environ :=
  match paths with
  | [] => (None, env)
  | path :: rest =>
    let path := TrimSpace path in
    if String.eqb path "" then load_env_files rest fs env else
    match loadEnvironmentFile path fs env with
    | (Some e, env) => (Some e, env)
    | (None, env) => load_env_files rest fs env
    end
  end.
Definition loadEnvironmentFiles (paths : list string) (fs : FS) (env : environ) : option error * environ :=
  load_env_files (match paths with [] => DefaultEnvFiles | _ => paths end) fs env.

Definition aliases : list (string * list string) :=
  [ ("AUREN_MEDIA_HUB_BASE_URL", ["AUREN_AGENT_MEDIA_HUB_BASE_URL"; "AUREN_MEDIA_HUB_URL"; "MEDIA_HUB_URL"]);
    ("AUREN_MEDIA_HUB_REGISTRATION_TOKEN", ["AUREN_NODE_REGISTRATION_TOKEN"; "AUREN_AGENT_REGISTRATION_TOKEN"; "AUREN_REGISTRATION_TOKEN"; "REGISTRATION_TOKEN"]);
    ("AUREN_MEDIA_HUB_BOOTSTRAP_TOKEN_ENDPOINT", ["AUREN_BOOTSTRAP_TOKEN_ENDPOINT"; "AUREN_NODE_TOKEN_ENDPOINT"; "MEDIA_HUB_NODE_TOKEN_ENDPOINT"]);
    ("AUREN_MEDIA_HUB_BOOTSTRAP_TOKEN_SECRET", ["AUREN_BOOTSTRAP_TOKEN_SECRET"; "AUREN_NODE_TOKEN_SECRET"; "MEDIA_HUB_NODE_TOKEN_SECRET"]);
    ("AUREN_MEDIA_HUB_NODE_UUID", ["AUREN_NODE_UUID"; "AUREN_AGENT_NODE_UUID"]);
    ("AUREN_MEDIA_HUB_NODE_SECRET", ["AUREN_NODE_SECRET"; "AUREN_AGENT_NODE_SECRET"]);
    ("AUREN_MEDIA_HUB_ROLE", ["AUREN_AGENT_ROLE"; "AUREN_NODE_ROLE"]);
    ("AUREN_MEDIA_HUB_REGION", ["AUREN_AGENT_REGION"; "AUREN_NODE_REGION"]);
    ("AUREN_MEDIA_HUB_PUBLIC_BASE_URL", ["AUREN_AGENT_PUBLIC_BASE_URL"; "AUREN_NODE_PUBLIC_BASE_URL"]);
    ("AUREN_MEDIA_HUB_HEALTH_URL", ["AUREN_AGENT_HEALTH_URL"; "AUREN_NODE_HEALTH_URL"]);
    ("AUREN_STORAGE_ACCESS_KEY_ID", ["AUREN_S3_ACCESS_KEY_ID"]);
    ("AUREN_STORAGE_SECRET_ACCESS_KEY", ["AUREN_S3_SECRET_ACCESS_KEY"]);
    ("AUREN_STORAGE_SESSION_TOKEN", ["AUREN_S3_SESSION_TOKEN"]);
    ("AUREN_STORAGE_BUCKET", ["AUREN_S3_BUCKET"]);
    ("AUREN_STORAGE_REGION", ["AUREN_S3_REGION"]);
    ("AUREN_STORAGE_ENDPOINT", ["AUREN_S3_ENDPOINT"]) ].

(** The value of an environment variable when it is not blank. *)
Definition not_blank (env : environ) (name : string) : option string :=
  value ← env !! name; if String.eqb (TrimSpace value) "" then None else Some value.
Definition apply_alias (env : environ) (entry : string * list string) : environ :=
  match not_blank env entry.1 with
  | Some _ => env
  | None => match omap (not_blank env) entry.2 with value :: _ => Setenv entry.1 value env | [] => env end
  end.
(** [normalizeEnvironmentAliases] over the map of aliases in some order. *)
Definition normalizeEnvironmentAliases (order : list (string * list string)) (env : environ) : environ :=
  foldl apply_alias env order.

(** ** validation.go *)
Record ValidationIssue := mkIssue { is_Field : string; is_Message : string }.
Definition add (field message : string) : list ValidationIssue := [mkIssue field message].
Definition requiredString (field value : string) : list ValidationIssue :=
  if String.eqb (TrimSpace value) "" then add field "is required" else [].
Definition positiveInt (field : string) (value : Z) : list ValidationIssue :=
  if value <=? 0 then add field "must be greater than zero" else [].
Definition nonNegativeInt (field : string) (value : Z) : list ValidationIssue :=
  if value <? 0 then add field "must be zero or greater" else [].
Definition port (field : string) (value : Z) : list ValidationIssue :=
  if (value <? 1) || (65535 <? value) then add field "must be between 1 and 65535" else [].
Definition duration (field value : string) : list ValidationIssue :=
  let trimmed := TrimSpace value in
  if String.eqb trimmed "" then add field "is required" else
  match ParseDuration trimmed with
  | None => add field "must be a valid duration"
  | Some d => if d <=? 0 then add field "must be greater than zero" else []
  end.
Definition parseSizeBytes (value : string) : result Z :=
  let trimmed := TrimSpace value in
  if String.eqb trimmed "" then Err (Errorf "empty size") else
  let lower := ToLower trimmed in
  let '(number, multiplier) :=
    match find (fun u => HasSuffix lower u.1) units with
    | Some u => (TrimSpace (TrimSuffix lower u.1), u.2)
    | None => (lower, 1)
    end in
  match ParseInt number with
  | Err e => Err e
  | Ok parsed => if parsed <=? 0 then Err (Errorf "size must be positive") else Ok (wrap64 (parsed * multiplier))
  end.
Definition size (field value : string) : list ValidationIssue :=
  let trimmed := TrimSpace value in
  if String.eqb trimmed "" then add field "is required" else
  match parseSizeBytes trimmed with
  | Err _ => add field "must be a valid positive byte size"
  | Ok _ => []
  end.
Definition path (field value : string) : list ValidationIssue :=
  let trimmed := TrimSpace value in
  if String.eqb trimmed "" then add field "is required" else
  if negb (HasPrefix trimmed "/") then add field "must start with /" else [].
Definition oneOf (field value : string) (allowed : list string) : list ValidationIssue :=
  let trimmed := ToLower (TrimSpace value) in
  if String.eqb trimmed "" then add field "is required" else
  if existsb (fun candidate => String.eqb trimmed (ToLower candidate)) allowed then [] else
  add field ("must be one of " +:+ Join allowed ", ").

Definition newline_set : string := str ["013"%char; "010"%char].

Definition config_issues (cfg : Config) : list ValidationIssue :=
  requiredString "app.name" (App_Name (cfg_App cfg)) ++
  requiredString "app.description" (App_Description (cfg_App cfg)) ++
  oneOf "runtime.environment" (Runtime_Environment (cfg_Runtime cfg)) ["local"; "development"; "test"; "staging"; "production"] ++
  requiredString "runtime.data_dir" (Runtime_DataDir (cfg_Runtime cfg)) ++
  requiredString "runtime.temp_dir" (Runtime_TempDir (cfg_Runtime cfg)) ++
  oneOf "logger.level" (Logger_Level (cfg_Logger cfg)) ["trace"; "debug"; "info"; "warn"; "error"; "fatal"; "panic"; "disabled"] ++
  oneOf "logger.format" (Logger_Format (cfg_Logger cfg)) ["json"; "console"] ++
  requiredString "logger.service" (Logger_Service (cfg_Logger cfg)) ++
  requiredString "server.host" (Server_Host (cfg_Server cfg)) ++
  port "server.port" (Server_Port (cfg_Server cfg)) ++
  duration "server.read_timeout" (Server_ReadTimeout (cfg_Server cfg)) ++
  duration "server.write_timeout" (Server_WriteTimeout (cfg_Server cfg)) ++
  duration "server.idle_timeout" (Server_IdleTimeout (cfg_Server cfg)) ++
  positiveInt "worker.concurrency" (Worker_Concurrency (cfg_Worker cfg)) ++
  duration "worker.shutdown_timeout" (Worker_ShutdownTimeout (cfg_Worker cfg)) ++
  oneOf "queue.driver" (Queue_Driver (cfg_Queue cfg)) ["memory"; "redis_streams"; "rabbitmq"; "nats"] ++
  positiveInt "queue.memory_capacity" (Queue_MemoryCapacity (cfg_Queue cfg)) ++
  duration "queue.poll_interval" (Queue_PollInterval (cfg_Queue cfg)) ++
  (if EqualFold (TrimSpace (Queue_Driver (cfg_Queue cfg))) "redis_streams"
   then requiredString "queue.redis_address" (Queue_RedisAddress (cfg_Queue cfg)) ++
     requiredString "queue.redis_stream" (Queue_RedisStream (cfg_Queue cfg)) ++
     requiredString "queue.redis_consumer_group" (Queue_RedisConsumerGroup (cfg_Queue cfg))
   else []) ++
  (if EqualFold (TrimSpace (Queue_Driver (cfg_Queue cfg))) "rabbitmq"
   then requiredString "queue.rabbitmq_url" (Queue_RabbitMQURL (cfg_Queue cfg)) ++
     requiredString "queue.rabbitmq_queue" (Queue_RabbitMQQueue (cfg_Queue cfg))
   else []) ++
  (if EqualFold (TrimSpace (Queue_Driver (cfg_Queue cfg))) "nats"
   then requiredString "queue.nats_url" (Queue_NATSURL (cfg_Queue cfg)) ++
     requiredString "queue.nats_subject" (Queue_NATSSubject (cfg_Queue cfg)) ++
     requiredString "queue.nats_queue_group" (Queue_NATSQueueGroup (cfg_Queue cfg))
   else []) ++
  requiredString "resolver.default_user_agent" (Resolver_DefaultUserAgent (cfg_Resolver cfg)) ++
  nonNegativeInt "resolver.max_redirects" (Resolver_MaxRedirects (cfg_Resolver cfg)) ++
  requiredString "download.temp_dir" (Download_TempDir (cfg_Download cfg)) ++
  duration "download.connect_timeout" (Download_ConnectTimeout (cfg_Download cfg)) ++
  duration "download.response_header_timeout" (Download_ResponseHeaderTimeout (cfg_Download cfg)) ++
  duration "download.idle_timeout" (Download_IdleTimeout (cfg_Download cfg)) ++
  nonNegativeInt "download.max_retries" (Download_MaxRetries (cfg_Download cfg)) ++
  duration "download.retry_backoff" (Download_RetryBackoff (cfg_Download cfg)) ++
  size "download.chunk_size" (Download_ChunkSize (cfg_Download cfg)) ++
  oneOf "download.checksum" (Download_Checksum (cfg_Download cfg)) ["sha256"; "none"] ++
  oneOf "upload.driver" (Upload_Driver (cfg_Upload cfg)) ["local"] ++
  nonNegativeInt "upload.max_retries" (Upload_MaxRetries (cfg_Upload cfg)) ++
  duration "upload.retry_backoff" (Upload_RetryBackoff (cfg_Upload cfg)) ++
  size "upload.part_size" (Upload_PartSize (cfg_Upload cfg)) ++
  oneOf "storage.driver" (Storage_Driver (cfg_Storage cfg)) ["local"; "auren_storage"; "s3"] ++
  requiredString "storage.region" (Storage_Region (cfg_Storage cfg)) ++
  (if EqualFold (TrimSpace (Storage_Driver (cfg_Storage cfg))) "auren_storage"
   then requiredString "storage.endpoint" (Storage_Endpoint (cfg_Storage cfg)) ++
     requiredString "storage.bucket" (Storage_Bucket (cfg_Storage cfg))
   else if EqualFold (TrimSpace (Storage_Driver (cfg_Storage cfg))) "s3"
    then requiredString "storage.bucket" (Storage_Bucket (cfg_Storage cfg)) ++
      requiredString "storage.access_key_id" (Storage_AccessKeyID (cfg_Storage cfg)) ++
      requiredString "storage.secret_access_key" (Storage_SecretAccessKey (cfg_Storage cfg))
    else requiredString "storage.local_path" (Storage_LocalPath (cfg_Storage cfg))) ++
  requiredString "metrics.host" (Metrics_Host (cfg_Metrics cfg)) ++
  port "metrics.port" (Metrics_Port (cfg_Metrics cfg)) ++
  path "metrics.path" (Metrics_Path (cfg_Metrics cfg)) ++
  duration "heartbeat.interval" (Heartbeat_Interval (cfg_Heartbeat cfg)) ++
  duration "heartbeat.timeout" (Heartbeat_Timeout (cfg_Heartbeat cfg)) ++
  requiredString "security.token_header" (Security_TokenHeader (cfg_Security cfg)) ++
  (if ContainsAny (Security_TokenHeader (cfg_Security cfg)) newline_set
   then add "security.token_header" "cannot contain newline characters"
   else []) ++
  (if negb (String.eqb (TrimSpace (Security_APIKeyHash (cfg_Security cfg))) "") && negb (slen (TrimSpace (Security_APIKeyHash (cfg_Security cfg))) =? 64)
   then add "security.api_key_hash" "must be a sha256 hex digest"
   else []) ++
  duration "security.jwt_ttl" (Security_JWTTTL (cfg_Security cfg)) ++
  (if (Security_JWTEnabled (cfg_Security cfg)) && (slen (TrimSpace (Security_JWTSecret (cfg_Security cfg))) <? 16)
   then add "security.jwt_secret" "must contain at least 16 characters when jwt is enabled"
   else []) ++
  (if (Security_RateLimitEnabled (cfg_Security cfg))
   then positiveInt "security.rate_limit_per_minute" (Security_RateLimitPerMin (cfg_Security cfg))
   else nonNegativeInt "security.rate_limit_per_minute" (Security_RateLimitPerMin (cfg_Security cfg))) ++
  oneOf "security.secrets_provider" (Security_SecretsProvider (cfg_Security cfg)) ["env"; "file"; "none"] ++
  (if EqualFold (TrimSpace (Security_SecretsProvider (cfg_Security cfg))) "file"
   then requiredString "security.secrets_file" (Security_SecretsFile (cfg_Security cfg))
   else []) ++
  (if (DevUI_Enabled (cfg_DevUI cfg))
   then path "dev_ui.path" (DevUI_Path (cfg_DevUI cfg)) ++
     positiveInt "dev_ui.retention" (DevUI_Retention (cfg_DevUI cfg)) ++
     duration "dev_ui.refresh_interval" (DevUI_RefreshInterval (cfg_DevUI cfg)) ++
     (if (DevUI_BodyLimitBytes (cfg_DevUI cfg)) <? 0
      then add "dev_ui.body_limit_bytes" "must be zero or greater"
      else [])
   else []) ++
  (if (MediaHub_Enabled (cfg_MediaHub cfg))
   then requiredString "media_hub.base_url" (MediaHub_BaseURL (cfg_MediaHub cfg)) ++
     path "media_hub.register_path" (MediaHub_RegisterPath (cfg_MediaHub cfg)) ++
     path "media_hub.config_path" (MediaHub_ConfigPath (cfg_MediaHub cfg)) ++
     path "media_hub.heartbeat_path" (MediaHub_HeartbeatPath (cfg_MediaHub cfg)) ++
     path "media_hub.metrics_path" (MediaHub_MetricsPath (cfg_MediaHub cfg)) ++
     path "media_hub.events_path" (MediaHub_EventsPath (cfg_MediaHub cfg)) ++
     duration "media_hub.poll_interval" (MediaHub_PollInterval (cfg_MediaHub cfg)) ++
     duration "media_hub.claim_interval" (MediaHub_ClaimInterval (cfg_MediaHub cfg)) ++
     duration "media_hub.progress_interval" (MediaHub_ProgressInterval (cfg_MediaHub cfg)) ++
     duration "media_hub.control_interval" (MediaHub_ControlInterval (cfg_MediaHub cfg)) ++
     nonNegativeInt "media_hub.max_concurrent_jobs" (MediaHub_MaxConcurrentJobs (cfg_MediaHub cfg)) ++
     (if (MediaHub_TransferEnabled (cfg_MediaHub cfg)) || (MediaHub_ClaimEnabled (cfg_MediaHub cfg))
      then requiredString "media_hub.work_dir" (MediaHub_WorkDir (cfg_MediaHub cfg)) ++
        requiredString "media_hub.accepted_operations" (MediaHub_AcceptedOperations (cfg_MediaHub cfg)) ++
        positiveInt "media_hub.max_concurrent_jobs" (MediaHub_MaxConcurrentJobs (cfg_MediaHub cfg))
      else []) ++
     (if (MediaHub_MinBytes (cfg_MediaHub cfg)) <? 0
      then add "media_hub.min_bytes" "must be zero or greater"
      else []) ++
     duration "media_hub.gateway_heartbeat_interval" (MediaHub_GatewayHeartbeatInterval (cfg_MediaHub cfg)) ++
     duration "media_hub.gateway_token_ttl" (MediaHub_GatewayTokenTTL (cfg_MediaHub cfg)) ++
     duration "media_hub.lease_renewal_interval" (MediaHub_LeaseRenewalInterval (cfg_MediaHub cfg)) ++
     duration "media_hub.secret_rotation_interval" (MediaHub_SecretRotationInterval (cfg_MediaHub cfg)) ++
     (if (MediaHub_DiskMinFreeBytes (cfg_MediaHub cfg)) <? 0
      then add "media_hub.disk_min_free_bytes" "must be zero or greater"
      else []) ++
     (if (MediaHub_DrainEnabled (cfg_MediaHub cfg))
      then requiredString "media_hub.drain_file" (MediaHub_DrainFile (cfg_MediaHub cfg))
      else []) ++
     (if (MediaHub_DeadLetterEnabled (cfg_MediaHub cfg))
      then requiredString "media_hub.dead_letter_dir" (MediaHub_DeadLetterDir (cfg_MediaHub cfg))
      else []) ++
     (if (MediaHub_GatewayEnabled (cfg_MediaHub cfg))
      then requiredString "media_hub.public_base_url" (MediaHub_PublicBaseURL (cfg_MediaHub cfg))
      else []) ++
     duration "media_hub.heartbeat_interval" (MediaHub_HeartbeatInterval (cfg_MediaHub cfg)) ++
     duration "media_hub.metrics_interval" (MediaHub_MetricsInterval (cfg_MediaHub cfg)) ++
     duration "media_hub.events_flush_interval" (MediaHub_EventsFlushInterval (cfg_MediaHub cfg)) ++
     oneOf "media_hub.role" (MediaHub_Role (cfg_MediaHub cfg)) ["gateway"; "worker"; "edge"; "hybrid"] ++
     requiredString "media_hub.provider" (MediaHub_Provider (cfg_MediaHub cfg)) ++
     requiredString "media_hub.region" (MediaHub_Region (cfg_MediaHub cfg)) ++
     nonNegativeInt "media_hub.max_sessions" (MediaHub_MaxSessions (cfg_MediaHub cfg)) ++
     nonNegativeInt "media_hub.max_egress_mbps" (MediaHub_MaxEgressMbps (cfg_MediaHub cfg)) ++
     (if String.eqb (TrimSpace (MediaHub_Capabilities (cfg_MediaHub cfg))) ""
      then add "media_hub.capabilities" "must include at least one capability when media hub connector is enabled"
      else [])
   else []).

(** The text of a [ValidationError]. *)
Definition validation_error (issues : list ValidationIssue) : error :=
  Errorf ("config validation failed: " +:+ Join (map (fun i => is_Field i +:+ ": " +:+ is_Message i) issues) "; ").
Definition Validate (cfg : Config) : result unit :=
  match config_issues cfg with [] => Ok tt | issues => Err (validation_error issues) end.

(** ** Load *)
Record LoadOptions := mkLoadOptions { lo_Path : string; lo_SearchPaths : list string; lo_EnvFiles : list string }.

Definition default_tree : tree := foldl (fun values '(key, v) => setDotted values key v) [] DefaultValues.

(** [ReadInConfig] over the defaults: the values, or the error and whether it is the
    [ConfigFileNotFoundError]. *)
Definition read_config (options : LoadOptions) (read : option error) (fs : FS) (values : tree) : tree + error * bool :=
  let paths := match lo_SearchPaths options with [] => DefaultSearchPaths | paths => paths end in
  let paths := omap (fun p => if String.eqb (TrimSpace p) "" then None else Some (TrimSpace p)) paths in
  match resolvePath (lo_Path options) "agent" paths fs with
  | Err e => inr (e, true)
  | Ok path =>
    match ReadFile read path fs with
    | Err e => inr (e, false)
    | Ok content =>
      match parseSimpleYAML content with
      | Err e => inr (Wrapf ("parse config " +:+ path +:+ ": " +:+ Error e) e, false)
      | Ok parsed => inl (merge values parsed)
      end
    end
  end.

(** The values after the file and the environment. *)
Definition effective (env : environ) (values : tree) : tree :=
  applyEnvironmentOverrides (fun name => env !! name) DefaultEnvPrefix values.

Definition Load (options : LoadOptions) (read : option error) (order : list (string * list string)) (fs : FS) (env : environ)
  : result Config * environ :=
  match loadEnvironmentFiles (lo_EnvFiles options) fs env with
  | (Some e, env) => (Err e, env)
  | (None, env) =>
    let env := normalizeEnvironmentAliases order env in
    let decode values :=
      match fill_Config (effective env values) zero_config with
      | Err e => Err (Wrapf ("decode config: " +:+ Error e) e)
      | Ok cfg => _ ← Validate cfg; Ok cfg
      end in
    match read_config options read fs default_tree with
    | inl values => (decode values, env)
    | inr (e, not_found) =>
      if negb not_found || negb (String.eqb (TrimSpace (lo_Path options)) "")
      then (Err (Wrapf ("load config: " +:+ Error e) e), env)
      else (decode default_tree, env)
    end
  end.

(** Without a file and without variables the settings are the documented defaults. *)
Example Load_defaults : (Load (mkLoadOptions "" [] []) None aliases ∅ ∅).1 = Ok DefaultConfig.
Proof. vm_compute. reflexivity. Qed.

(** ** Writing the settings to a file *)
Definition double_quote : string := str ["034"%char].
Definition scalar_text (v : cval) : string :=
  match v with
  | CString s => double_quote +:+ s +:+ double_quote
  | _ => Sprint v
  end.
Definition config_document (cfg : Config) : list (string * list (string * string)) :=
  map (fun '(name, es) => (name, map (fun '(k, v) => (k, scalar_text v)) es)) (config_sections cfg).

(** A value that the reader takes from its text as it is. *)
Definition plain_value (v : cval) : Prop :=
  match v with
  | CString s => line_feed ∉ chars s /\ parseScalar (double_quote +:+ s +:+ double_quote) = CString s
  | CInt z => in_int64 z
  | CBool _ => True
  | _ => False
  end.
Definition plain_config (cfg : Config) : Prop :=
  Forall (fun section => Forall (fun entry => plain_value entry.2) section.2) (config_sections cfg).

(** ** The reader understands what was written *)
Lemma TrimSet_id s cs c d : head (chars s) = Some c -> last (chars s) = Some d -> c ∉ chars cs -> d ∉ chars cs -> TrimSet s cs = s.
Proof.
  intros Hc Hd H1 H2. unfold TrimSet. rewrite (drop_set_id (chars cs) (chars s) c) by done.
  rewrite (drop_set_id (chars cs) (reverse (chars s)) d); [by rewrite reverse_involutive, str_chars|by rewrite <- last_reverse, reverse_involutive|done].
Qed.

Lemma not_quote c : is_Some (digit c) \/ c = "-"%char -> c ∉ chars quotes /\ no_space c = true /\ c <> line_feed.
Proof.
  intros H. pose (ok := fun c => implb (match digit c with Some _ => true | None => Ascii.eqb c "-" end)
    (negb (bool_decide (c ∈ chars quotes)) && no_space c && negb (Ascii.eqb c line_feed))).
  assert (ok c = true) as E by (apply char_forall; vm_compute; reflexivity). unfold ok in E.
  assert (match digit c with Some _ => true | None => Ascii.eqb c "-" end = true) as E1
    by (destruct H as [[d ->]| ->]; reflexivity).
  rewrite E1 in E. cbn [implb] in E. apply andb_true_iff in E as [[E2%negb_true_iff%bool_decide_eq_false E3]%andb_true_iff E4%negb_true_iff].
  split_and!; [done|done|]. by apply Ascii.eqb_neq in E4.
Qed.

Lemma Itoa_text z : yaml_text (Itoa z) /\ TrimSet (Itoa z) quotes = Itoa z.
Proof.
  destruct (Itoa_ends z) as (HF & c & d & Hc & Hd & _). rewrite Forall_forall in HF.
  assert (c ∈ chars (Itoa z)) as Hcin by (by apply head_Some_elem_of).
  assert (d ∈ chars (Itoa z)) as Hdin by (by apply last_Some_elem_of).
  destruct (not_quote c (HF _ Hcin)) as (C1 & C2 & _). destruct (not_quote d (HF _ Hdin)) as (D1 & D2 & _).
  split; [|by apply (TrimSet_id _ _ c d)]. split; [|by exists c, d].
  intros Hl. by destruct (not_quote _ (HF _ Hl)) as (_ & _ & []).
Qed.

Lemma scalar_text_ok v : plain_value v -> yaml_text (scalar_text v) /\ parseScalar (scalar_text v) = v.
Proof.
  destruct v as [z|z|b|s|m]; cbn [plain_value scalar_text]; try done.
  - intros Hz. destruct (Itoa_text z) as [H1 H2]. split; [exact H1|]. cbn [Sprint]. unfold parseScalar. rewrite H2.
    by rewrite ParseInt_Itoa.
  - intros _. destruct b; cbn [Sprint]; (split; [|vm_compute; reflexivity]);
      (split; [apply (bool_decide_unpack _); vm_compute; exact I|]); eexists _, _; split_and!; vm_compute; reflexivity.
  - intros [H1 H2]. split; [|exact H2]. split.
    + assert (line_feed ∉ chars double_quote) as Hq by (apply (bool_decide_unpack _); vm_compute; exact I).
      rewrite !chars_app, !elem_of_app. intros [H|[H|H]]; [by apply Hq|by apply H1|by apply Hq].
    + exists "034"%char, "034"%char. rewrite !chars_app. split_and!; [done| |done|done]. rewrite app_assoc. apply last_snoc.
Qed.

Lemma config_document_tree cfg : plain_config cfg ->
  document_tree (config_document cfg) = map (fun '(name, es) => (name, CMap es)) (config_sections cfg) /\
  Forall (fun '(name, es) => Forall (fun '(k, t) => yaml_text t) es) (config_document cfg).
Proof.
  unfold plain_config, config_document, document_tree. generalize (config_sections cfg). intros l HF. split.
  - rewrite map_map. apply map_ext_in. intros [name es] Hin%list_elem_of_In. rewrite Forall_forall in HF. apply HF in Hin. cbn [snd] in Hin.
    do 2 f_equal. rewrite map_map. rewrite <- (map_id es) at 2. apply map_ext_in. intros [k v] Hv%list_elem_of_In.
    rewrite Forall_forall in Hin. apply Hin in Hv. cbn [snd] in Hv. by destruct (scalar_text_ok v Hv) as [_ ->].
  - apply Forall_map. eapply Forall_impl; [exact HF|]. intros [name es] He. cbn [snd] in He. apply Forall_map.
    eapply Forall_impl; [exact He|]. intros [k v] Hv. by apply scalar_text_ok.
Qed.

(** The names of sections and entries are keys of the subset, each once. *)
Definition good_name (s : string) : bool :=
  match head (chars s), last (chars s) with
  | Some c, Some d =>
    no_space c && no_space d && negb (bool_decide (line_feed ∈ chars s)) && negb (bool_decide (":"%char ∈ chars s)) &&
    negb (Ascii.eqb c "#") && negb (Ascii.eqb c "-")
  | _, _ => false
  end.
Lemma good_name_key s : good_name s = true -> yaml_key s.
Proof.
  unfold good_name. destruct (head (chars s)) as [c|] eqn:Ec; [|done]. destruct (last (chars s)) as [d|] eqn:Ed; [|done].
  rewrite !andb_true_iff, !negb_true_iff, !bool_decide_eq_false, !Ascii.eqb_neq. intros [[[[[H1 H2] H3] H4] H5] H6].
  split_and!; [|done|congruence|congruence]. split; [done|]. by exists c, d.
Qed.

Definition names_ok (l : list (string * list string)) : bool :=
  bool_decide (NoDup (map fst l)) &&
  forallb (fun '(name, ks) => good_name name && bool_decide (NoDup ks) && forallb good_name ks) l.

Lemma config_names cfg : names_ok (map (fun '(name, es) => (name, map fst es)) (config_document cfg)) = true.
Proof. vm_compute. reflexivity. Qed.

Lemma config_document_ok cfg : plain_config cfg -> yaml_document (config_document cfg).
Proof.
  intros HP. destruct (config_document_tree cfg HP) as [_ HT]. pose proof (config_names cfg) as HN. unfold names_ok in HN.
  apply andb_true_iff in HN as [HN1%bool_decide_eq_true HN2]. split.
  - rewrite map_map in HN1. rewrite (map_ext _ fst) in HN1 by (by intros []). exact HN1.
  - rewrite forallb_forall in HN2. apply Forall_forall. intros [name es] Hin. rewrite Forall_forall in HT.
    pose proof (HT _ Hin) as Hes. cbn in Hes.
    assert (In (name, map fst es) (map (fun '(name, es) => (name, map fst es)) (config_document cfg))) as Hn.
    { apply in_map_iff. exists (name, es). split; [done|]. by apply list_elem_of_In. }
    apply HN2 in Hn. apply andb_true_iff in Hn as [[H1 H2%bool_decide_eq_true]%andb_true_iff H3].
    split_and!; [by apply good_name_key|done|]. rewrite forallb_forall in H3. rewrite Forall_forall in Hes. apply Forall_forall.
    intros [k t] Hkt. split; [|by apply (Hes (k, t))]. apply good_name_key, H3, in_map_iff. exists (k, t). split; [done|]. by apply list_elem_of_In.
Qed.

(** Settings over the defaults without variables. *)
Lemma decode_sections cfg :
  fill_Config (effective ∅ (merge default_tree (map (fun '(name, es) => (name, CMap es)) (config_sections cfg)))) zero_config = Ok cfg.
Proof. destruct cfg as [[] [] [] [] [] [] [] [] [] [] [] [] [] [] []]. vm_compute. reflexivity. Qed.

Lemma aliases_of_nothing order : normalizeEnvironmentAliases order ∅ = ∅.
Proof.
  unfold normalizeEnvironmentAliases. induction order as [|[name names] order IH]; [done|]. cbn [foldl].
  assert (apply_alias ∅ (name, names) = ∅) as ->; [|exact IH].
  unfold apply_alias, not_blank. rewrite lookup_empty. cbn [mbind option_bind fst snd].
  assert (omap (fun n => value ← (∅ : environ) !! n; if String.eqb (TrimSpace value) "" then None else Some value) names = []) as ->; [|done].
  induction names as [|n names IHn]; [done|]. cbn. rewrite lookup_empty. exact IHn.
Qed.

(** Settings written to a file, with texts in quotes, are read back as they were, whatever
    the defaults: valid settings whose texts are not themselves numbers, switches or quoted
    survive the file. *)
Theorem config_file_roundtrip cfg file order : plain_config cfg -> Validate cfg = Ok tt -> TrimSpace file = file -> file <> "" ->
  Load (mkLoadOptions file [] [""]) None order {[file := print_document (config_document cfg)]} ∅ = (Ok cfg, ∅).
Proof.
  intros HP HV HT Hne. unfold Load, loadEnvironmentFiles. cbn [lo_EnvFiles load_env_files]. change (TrimSpace "") with "".
  cbn [String.eqb]. rewrite aliases_of_nothing. unfold read_config, resolvePath. cbn [lo_Path lo_SearchPaths].
  rewrite HT, (proj2 (String.eqb_neq _ _) Hne). cbn [negb]. unfold ReadFile.
  rewrite !lookup_singleton_eq. cbv beta iota. rewrite parse_print by (by apply config_document_ok). rewrite (proj1 (config_document_tree cfg HP)), decode_sections. by rewrite HV.
Qed.

Lemma config_file_roundtrip_witness :
  (Load (mkLoadOptions "agent.yaml" [] [""]) None aliases {["agent.yaml" := print_document (config_document DefaultConfig)]} ∅).1 = Ok DefaultConfig.
Proof.
  rewrite (config_file_roundtrip DefaultConfig "agent.yaml" aliases); [reflexivity| |vm_compute; reflexivity|vm_compute; reflexivity|discriminate].
  assert (forall v, (match v with CString s => negb (bool_decide (line_feed ∈ chars s)) &&
      match parseScalar (double_quote +:+ s +:+ double_quote) with CString t => String.eqb t s | _ => false end
    | CInt z => bool_decide (in_int64 z) | CBool _ => true | _ => false end) = true -> plain_value v) as HV.
  { intros v H. destruct v as [z|z|b|s|m]; [|discriminate H|exact I| |discriminate H].
    - apply bool_decide_eq_true in H. exact H.
    - apply andb_true_iff in H as [H1%negb_true_iff%bool_decide_eq_false H2]. split; [exact H1|].
      destruct (parseScalar _); try discriminate H2. apply String.eqb_eq in H2. by subst. }
  unfold plain_config, config_sections. repeat first [apply Forall_cons; split | apply Forall_nil_2]; cbn [snd];
    repeat first [apply Forall_cons; split | apply Forall_nil_2]; apply HV; vm_compute; reflexivity.
Defined.

(** ** The environment *)
Lemma Setenv_other key value env name : name <> key -> Setenv key value env !! name = env !! name.
Proof. intros Hn. unfold Setenv. case_match; [done|]. by rewrite lookup_insert_ne. Qed.

Lemma env_lines_keep path lines : forall n env name value, env !! name = Some value ->
  (env_lines path n lines env).2 !! name = Some value.
Proof.
  induction lines as [|text lines IH]; intros n env name value Hv; cbn [env_lines]; [done|]. case_match; [done|].
  destruct (env_line path n text env) as [env1|] eqn:E; [|done]. apply IH.
  unfold env_line in E. repeat case_match; simplify_eq; try done.
  rewrite Setenv_other; [done|]. intros ->. congruence.
Qed.

Lemma load_env_files_keep paths fs : forall env name value, env !! name = Some value ->
  (load_env_files paths fs env).2 !! name = Some value.
Proof.
  induction paths as [|path paths IH]; intros env name value Hv; cbn [load_env_files]; [done|]. case_match; [by apply IH|].
  assert ((loadEnvironmentFile (TrimSpace path) fs env).2 !! name = Some value) as H1.
  { unfold loadEnvironmentFile. destruct (fs !! _); [by apply env_lines_keep|done]. }
  destruct (loadEnvironmentFile _ _ _) as [[e|] env1]; [done|]. by apply IH.
Qed.

(** An alias only sets its own name. *)
Lemma apply_alias_other env entry name : name <> entry.1 -> apply_alias env entry !! name = env !! name.
Proof. intros Hn. unfold apply_alias. repeat case_match; try done. by apply Setenv_other. Qed.

Lemma apply_alias_local env env' name names : (forall n, n = name \/ n ∈ names -> env !! n = env' !! n) ->
  apply_alias env (name, names) !! name = apply_alias env' (name, names) !! name.
Proof.
  intros H. unfold apply_alias, not_blank. cbn [fst snd]. rewrite (H name) by (by left).
  assert (omap (fun n => value ← env !! n; if String.eqb (TrimSpace value) "" then None else Some value) names =
          omap (fun n => value ← env' !! n; if String.eqb (TrimSpace value) "" then None else Some value) names) as ->.
  { induction names as [|n names IH]; [done|]. cbn. rewrite (H n) by (right; by left).
    rewrite IH; [done|]. intros m [->|Hm]; apply H; [by left|right; by right]. }
  repeat case_match; rewrite ?(H name) by (by left); try done. unfold Setenv. case_match; [by apply H; left|]. by rewrite !lookup_insert_eq.
Qed.

Lemma normalize_lookup order : forall env name, NoDup (map fst order) ->
  (forall entry n, entry ∈ order -> n ∈ entry.2 -> n ∉ map fst order) ->
  normalizeEnvironmentAliases order env !! name =
    match assoc name order with Some names => apply_alias env (name, names) !! name | None => env !! name end.
Proof.
  unfold normalizeEnvironmentAliases. induction order as [|[x xs] order IH]; intros env name HN HD; [done|].
  cbn [foldl assoc map fst] in *. apply NoDup_cons in HN as [Hx HN].
  rewrite IH; [|done|intros entry n He Hn Hin; eapply HD; [by right|exact Hn|by right]].
  destruct (String.eqb_spec x name) as [->|Hne].
  - destruct (assoc name order) eqn:E; [|done]. apply assoc_elem in E. exfalso. apply Hx, list_elem_of_fmap. by exists (name, l).
  - destruct (assoc name order) as [names|] eqn:E; [|by apply apply_alias_other; cbn]. apply assoc_elem in E.
    apply apply_alias_local. intros n Hn. apply apply_alias_other. cbn [fst]. intros ->.
    destruct Hn as [<-|Hn]; [done|]. eapply (HD (name, names)); [by right|exact Hn|by left].
Qed.

Lemma aliases_disjoint order : order ≡ₚ aliases ->
  NoDup (map fst order) /\ forall entry n, entry ∈ order -> n ∈ entry.2 -> n ∉ map fst order.
Proof.
  intros HP. assert (NoDup (map fst aliases)) as HN by (apply (bool_decide_unpack _); vm_compute; exact I).
  assert (Forall (fun entry : string * list string => Forall (fun n => n ∉ map fst aliases) entry.2) aliases) as HD
    by (apply (bool_decide_unpack _); vm_compute; exact I).
  split; [by rewrite HP|]. intros entry n He Hn. rewrite HP. rewrite HP in He. rewrite Forall_forall in HD.
  specialize (HD _ He). rewrite Forall_forall in HD. by apply HD.
Qed.

(** The aliases are kept in a map, which Go traverses in any order; the order makes no
    difference. *)
Lemma aliases_order_irrelevant order env : order ≡ₚ aliases ->
  normalizeEnvironmentAliases order env = normalizeEnvironmentAliases aliases env.
Proof.
  intros HP. apply map_eq. intros name. destruct (aliases_disjoint order HP) as [H1 H2].
  destruct (aliases_disjoint aliases) as [H3 H4]; [done|].
  rewrite !normalize_lookup by done. by rewrite (assoc_perm name order aliases).
Qed.

Lemma effective_lookup env file section key d :
  distinct (CMap file) -> (forall v, assoc section file = Some v -> ~ scalar v) ->
  get2 section key default_tree = Some d -> scalar (default d (get2 section key file)) ->
  get2 section key (effective env (merge default_tree file)) =
    Some (override (fun name => env !! name) DefaultEnvPrefix [section; key] (default d (get2 section key file))).
Proof. apply settings_precedence. Qed.

(** ** Typed settings *)

(** What a setting of the structure is when the values hold [raw] for it. *)
Definition reads (v raw : cval) : Prop :=
  match v with
  | CString s => set_string raw = Ok s
  | CInt z => set_int raw = Ok z
  | CBool b => set_bool raw = Ok b
  | _ => False
  end.

Lemma fill_reads {A} (set : cval -> result A) name key values current a :
  fill set name key values current = Ok a -> forall raw, assoc key values = Some raw -> set raw = Ok a.
Proof. unfold fill. intros H raw E. rewrite E in H. by destruct (set raw) as [x|e]. Qed.

Lemma fill_section_reads {A} (set : tree -> A -> result A) name section values zero s (entries : list (string * cval)) :
  fill_section set name section values zero = Ok s ->
  (forall nested, set nested zero = Ok s -> Forall (fun e => forall raw, assoc e.1 nested = Some raw -> reads e.2 raw) entries) ->
  (forall v, assoc section values = Some v -> ~ scalar v) /\
  Forall (fun e => forall raw, get2 section e.1 values = Some raw -> reads e.2 raw) entries.
Proof.
  unfold fill_section, get2. intros H HE. destruct (assoc section values) as [x|]; cbn [mbind option_bind].
  - destruct x as [| | | |nested]; try discriminate H. split; [intros v [= <-]; exact (fun f => f)|]. cbn [as_map]. by apply HE.
  - split; [done|]. apply Forall_forall. done.
Qed.

(** The fields of a section, one after the other. *)
Ltac read_fields :=
  let nested := fresh "nested" in let H := fresh "H" in intros nested H;
  match type of H with ?f _ _ = _ => unfold f in H end;
  repeat match type of H with
    | mbind _ ?x = _ => let E := fresh "E" in destruct x eqn:E; [|discriminate H]; cbn [mbind result_bind] in H; pose proof (fill_reads _ _ _ _ _ _ E)
    end;
  injection H as <-; repeat (apply Forall_cons; split); try apply Forall_nil_2;
  match goal with E : forall raw, _ -> _ = Ok ?a |- context [?a] => exact E end.

(** A structure that was filled has every setting as the values say it, and the values hold
    an object for every section they name. *)
Lemma fill_Config_reads values cfg : fill_Config values zero_config = Ok cfg ->
  Forall (fun section => (forall v, assoc section.1 values = Some v -> ~ scalar v) /\
    Forall (fun entry => forall raw, get2 section.1 entry.1 values = Some raw -> reads entry.2 raw) section.2) (config_sections cfg).
Proof.
  unfold fill_Config. intros H.
  repeat match type of H with
    | mbind _ ?x = _ => let E := fresh "E" in destruct x eqn:E; [|discriminate H]; cbn [mbind result_bind] in H
    end.
  injection H as <-. unfold config_sections. cbn [cfg_App cfg_Runtime cfg_Logger cfg_Server cfg_Worker cfg_Queue cfg_Resolver
    cfg_Download cfg_Upload cfg_Storage cfg_Metrics cfg_Heartbeat cfg_Security cfg_MediaHub cfg_DevUI].
  repeat (apply Forall_cons; split); try apply Forall_nil_2; cbn [fst snd];
    (eapply fill_section_reads; [eassumption|]); read_fields.
Qed.

(** Every setting has a default. *)
Lemma settings_have_defaults cfg :
  Forall (fun section => Forall (fun entry => is_Some (get2 section.1 entry.1 default_tree)) section.2) (config_sections cfg).
Proof.
  unfold config_sections. repeat (apply Forall_cons; split); try apply Forall_nil_2; cbn [fst snd];
    repeat (apply Forall_cons; split); try apply Forall_nil_2; cbn [fst]; (eexists; vm_compute; reflexivity).
Qed.

(** ** The configuration file *)
Definition candidates (options : LoadOptions) : list string :=
  flat_map (fun dir => [Join2 dir "agent.yaml"; Join2 dir "agent.yml"])
    (omap (fun p => if String.eqb (TrimSpace p) "" then None else Some (TrimSpace p))
      (match lo_SearchPaths options with [] => DefaultSearchPaths | paths => paths end)).

(** The values of the configuration file: of the file the options name, which must be there;
    when they name none, of the first of the candidates that is there; no values when none
    is. *)
Inductive configuration_file (options : LoadOptions) (fs : FS) : tree -> Prop :=
| named_file path content file : TrimSpace (lo_Path options) = path -> path <> "" -> fs !! path = Some content ->
    parseSimpleYAML content = Ok file -> configuration_file options fs file
| found_file before path after content file : TrimSpace (lo_Path options) = "" -> candidates options = before ++ path :: after ->
    Forall (fun p => fs !! p = None) before -> fs !! path = Some content ->
    parseSimpleYAML content = Ok file -> configuration_file options fs file
| no_file : TrimSpace (lo_Path options) = "" -> Forall (fun p => fs !! p = None) (candidates options) ->
    configuration_file options fs [].

Lemma first_existing_split fs paths :
  match first_existing fs paths with
  | Some path => exists before after, paths = before ++ path :: after /\ Forall (fun p => fs !! p = None) before
  | None => Forall (fun p => fs !! p = None) paths
  end.
Proof.
  induction paths as [|p paths IH]; [constructor|]. unfold first_existing in *. cbn [find].
  case_bool_decide as E; [by exists [], paths|]. apply eq_None_not_Some in E.
  destruct (find _ paths); [|by constructor]. destruct IH as (before & after & -> & HB). exists (p :: before), after. split; [done|by constructor].
Qed.

(** The file that was read is the one the options and the search paths say. *)
Lemma read_config_file options read fs values :
  (forall v, read_config options read fs values = inl v -> exists file, configuration_file options fs file /\ v = merge values file) /\
  (forall e, read_config options read fs values = inr (e, true) -> TrimSpace (lo_Path options) = "" -> configuration_file options fs []).
Proof.
  unfold read_config, resolvePath. cbv zeta. match goal with |- context [flat_map ?f ?l] => change (flat_map f l) with (candidates options) end.
  destruct (String.eqb_spec (TrimSpace (lo_Path options)) "") as [E|E]; cbn [negb].
  - pose proof (first_existing_split fs (candidates options)) as HS. destruct (first_existing fs (candidates options)) as [path|] eqn:EF.
    + destruct HS as (before & after & H1 & H2). unfold ReadFile. destruct read as [e|]; [done|]. destruct (fs !! path) as [content|] eqn:EC; [|done].
      destruct (parseSimpleYAML content) as [file|] eqn:EP; [|done]. split; [|done]. intros v [= <-]. exists file. split; [|done].
      by eapply found_file.
    + split; [done|]. intros _ _ _. by apply no_file.
  - split; [|by intros]. destruct (fs !! TrimSpace (lo_Path options)) as [content|] eqn:EC; [|done]. unfold ReadFile.
    destruct read as [e|]; [done|]. rewrite EC. destruct (parseSimpleYAML content) as [file|] eqn:EP; [|done]. intros v [= <-].
    exists file. split; [|done]. by eapply named_file.
Qed.

Lemma configuration_distinct options fs file : configuration_file options fs file -> distinct (CMap file).
Proof. intros [| |]; [by eapply parse_distinct|by eapply parse_distinct|by split; [constructor|]]. Qed.

(** What a load that succeeded read. *)
Lemma Load_read options read order fs env cfg env' : Load options read order fs env = (Ok cfg, env') ->
  env' = normalizeEnvironmentAliases order (loadEnvironmentFiles (lo_EnvFiles options) fs env).2 /\ Validate cfg = Ok tt /\
  exists file, configuration_file options fs file /\ fill_Config (effective env' (merge default_tree file)) zero_config = Ok cfg.
Proof.
  unfold Load. destruct (loadEnvironmentFiles (lo_EnvFiles options) fs env) as [[e|] env1]; [done|]. cbn [snd].
  set (env2 := normalizeEnvironmentAliases order env1). intros H.
  assert (forall values, (match fill_Config (effective env2 values) zero_config with
      Err e => Err (Wrapf ("decode config: " +:+ Error e) e) | Ok cfg => _ ← Validate cfg; Ok cfg end : result Config) = Ok cfg ->
      fill_Config (effective env2 values) zero_config = Ok cfg /\ Validate cfg = Ok tt) as Hdec.
  { intros values Hd. destruct (fill_Config (effective env2 values) zero_config) as [c|]; [|done].
    destruct (Validate c) as [[]|] eqn:EV; [|done]. injection Hd as ->. by split. }
  destruct (read_config_file options read fs default_tree) as [H1 H2].
  destruct (read_config options read fs default_tree) as [values|[e []]]; cbn [negb orb] in H.
  - destruct (H1 _ eq_refl) as (file & HC & ->). apply pair_equal_spec in H as [Hd <-]. apply Hdec in Hd as [? ?]. by eauto.
  - destruct (String.eqb_spec (TrimSpace (lo_Path options)) "") as [E|E]; cbn [negb] in H; [|done].
    apply pair_equal_spec in H as [Hd <-]. apply Hdec in Hd as [? ?]. split_and!; [done..|]. exists []. split; [by apply (H2 e)|done].
  - done.
Qed.

(** The section of a setting is an object in the file when the structure could be filled. *)
Lemma file_section env file section : distinct (CMap file) ->
  (forall v, assoc section (effective env (merge default_tree file)) = Some v -> ~ scalar v) ->
  forall v, assoc section file = Some v -> ~ scalar v.
Proof.
  intros HD H v E HS. unfold effective, applyEnvironmentOverrides in H. rewrite (assoc_map (fun k => env_value _ _ [k])), merge_assoc in H by apply HD.
  rewrite E in H. cbn [fmap option_fmap option_map] in H. eapply H; [reflexivity|].
  destruct v; cbn [merge_value env_value]; repeat case_match; done.
Qed.



(** A setting whose value is left blank becomes an empty map: as a text it reads
    map[], and its variable is ignored. *)
Theorem blank_value_becomes_map :
  let fs : FS := {["agent.yaml" := str (join_chars line_feed (map chars ["media_hub:"; "  registration_token:"]))]} in
  let env : environ := {["AUREN_MEDIA_HUB_REGISTRATION_TOKEN" := "token-1"]} in
  (fun cfg => MediaHub_RegistrationToken (cfg_MediaHub cfg)) <$>
    (match (Load (mkLoadOptions "agent.yaml" [] [""]) None aliases fs env).1 with Ok cfg => Some cfg | Err _ => None end) = Some "map[]".
Proof. vm_compute. reflexivity. Qed.

(** A size beyond 64 bits is accepted: it wraps around to a negative number. *)
Theorem overflowing_size_is_valid : size "upload.part_size" "8589934592GiB" = [] /\ parseSizeBytes "8589934592GiB" = Ok int64_min.
Proof. vm_compute. split; reflexivity. Qed.
