(* ===== verification/Logging.v ===== *)
(** * The logger

    internal/logger (logger.go, context.go, json.go, console.go) and the structured logger it
    is built on, logger/zerologcompat.  A logger, a context and an event each hold a reference
    to a map of fields; the maps live in a heap, so that sharing is as in the code.  The JSON
    codec is a parameter. *)
From Stdlib Require Import SpecFloat.
From S2P Require Import Prelude GoStrings GoTime GoRFC3339 GoJson ConfigData.

(** ** zerologcompat/zerolog.go *)
Definition TraceLevel : Z := -1.
Definition DebugLevel : Z := 0.
Definition InfoLevel : Z := 1.
Definition WarnLevel : Z := 2.
Definition ErrorLevel : Z := 3.
Definition FatalLevel : Z := 4.
Definition PanicLevel : Z := 5.
Definition DisabledLevel : Z := 6.

Definition level_names : list (string * Z) :=
  [("trace", TraceLevel); ("debug", DebugLevel); ("", InfoLevel); ("info", InfoLevel); ("warn", WarnLevel);
   ("warning", WarnLevel); ("error", ErrorLevel); ("fatal", FatalLevel); ("panic", PanicLevel);
   ("disabled", DisabledLevel); ("off", DisabledLevel)].
Definition ParseLevel (value : string) : result Z :=
  match assoc (ToLower (TrimSpace value)) level_names with
  | Some level => Ok level
  | None => Err (Errorf ("unknown log level " +:+ Quote value))
  end.
Definition Level_String (level : Z) : string :=
  if level =? TraceLevel then "trace" else if level =? DebugLevel then "debug" else
  if level =? InfoLevel then "info" else if level =? WarnLevel then "warn" else
  if level =? ErrorLevel then "error" else if level =? FatalLevel then "fatal" else
  if level =? PanicLevel then "panic" else if level =? DisabledLevel then "disabled" else "info".

(** The heap of field maps. *)
Record heap := mkHeap { cells : gmap nat metadata; next : nat }.
Definition read (r : nat) (h : heap) : metadata := default ∅ (cells h !! r).
Definition alloc (m : metadata) (h : heap) : nat * heap := (next h, mkHeap (<[next h := m]> (cells h)) (S (next h))).
Definition write (r : nat) (key : string) (v : any) (h : heap) : heap :=
  mkHeap (<[r := <[key := v]> (read r h)]> (cells h)) (next h).
Definition cloneFields (r : nat) (h : heap) : nat * heap := alloc (read r h) h.

Record Logger := mkLogger { lg_out : bool; lg_level : Z; lg_fields : nat; lg_timestamp : bool }.
Record Context := mkContext { cx_logger : Logger; cx_fields : nat; cx_timestamp : bool }.
Inductive Event := Disabled | Live (log : Logger) (fields : nat).

(** [New]; the writer is the one the whole family of loggers shares. *)
Definition zerolog_New (out : bool) (h : heap) : Logger * heap :=
  let '(r, h) := alloc ∅ h in (mkLogger out InfoLevel r false, h).
Definition Level (level : Z) (log : Logger) : Logger := mkLogger (lg_out log) level (lg_fields log) (lg_timestamp log).
Definition With (log : Logger) (h : heap) : Context * heap :=
  let '(r, h) := cloneFields (lg_fields log) h in (mkContext log r (lg_timestamp log), h).
Definition Timestamp (c : Context) : Context := mkContext (cx_logger c) (cx_fields c) true.
Definition Context_Str (key value : string) (c : Context) (h : heap) : Context * heap :=
  (c, write (cx_fields c) key (AString value) h).
Definition Context_Logger (c : Context) (h : heap) : Logger * heap :=
  let '(r, h) := cloneFields (cx_fields c) h in
  (mkLogger (lg_out (cx_logger c)) (lg_level (cx_logger c)) r (cx_timestamp c), h).

Definition newEvent (level : Z) (now : Time) (log : Logger) (h : heap) : Event * heap :=
  if negb (lg_out log) || (lg_level log =? DisabledLevel) || (level <? lg_level log) then (Disabled, h) else
  let '(r, h) := cloneFields (lg_fields log) h in
  let h := write r "level" (AString (Level_String level)) h in
  let h := if lg_timestamp log then write r "time" (AString (FormatRFC3339Nano now)) h else h in
  (Live log r, h).
(** [Str], [Bool] and [Int] of an event, by the value they store; [Err] stores a text. *)
Definition Event_Field (key : string) (v : any) (e : Event) (h : heap) : heap :=
  match e with Disabled => h | Live _ r => write r key v h end.
Definition Event_Err (err : option error) (e : Event) (h : heap) : heap :=
  match err with None => h | Some err => Event_Field "error" (AString (Error err)) e h end.

Section Output.
Context (marshal : metadata -> result string).

Definition encode_failed : string :=
  str (map (fun c => if Ascii.eqb c "'" then "034"%char else c)
           (chars "{'level':'error','message':'failed to encode log event'}")).
(** [Msg]: the line that is written, if any. *)
Definition Msg (message : string) (e : Event) (h : heap) : option string * heap :=
  match e with
  | Disabled => (None, h)
  | Live _ r =>
    let h := write r "message" (AString message) h in
    (Some (match marshal (read r h) with Ok text => text | Err _ => encode_failed end +:+ newline), h)
  end.
End Output.

(** ** context.go *)
Record Field := mkField { fd_Key : string; fd_Value : string }.
Fixpoint add_fields (fields : list Field) (c : Context) (h : heap) (applied : bool) : Context * heap * bool :=
  match fields with
  | [] => (c, h, applied)
  | f :: rest =>
    let key := TrimSpace (fd_Key f) in
    if String.eqb key "" then add_fields rest c h applied else
    let '(c, h) := Context_Str key (fd_Value f) c h in add_fields rest c h true
  end.
Definition WithFields (log : Logger) (fields : list Field) (h : heap) : Logger * heap :=
  let '(c, h) := With log h in
  let '(c, h, applied) := add_fields fields c h false in
  if negb applied then (log, h) else Context_Logger c h.

(** The logger under the key of a [context.Context]. *)
Definition LogContext := option Logger.
Definition IntoContext (ctx : LogContext) (log : Logger) : LogContext := Some log.
Definition FromContext (ctx : LogContext) : option Logger := ctx.
Definition FromContextOrDefault (ctx : LogContext) (fallback : Logger) : Logger := default fallback (FromContext ctx).
Definition EnrichContext (ctx : LogContext) (fields : list Field) (h : heap) : LogContext * heap :=
  match FromContext ctx with
  | None => (ctx, h)
  | Some log => let '(log, h) := WithFields log fields h in (IntoContext ctx log, h)
  end.

(** ** logger.go: the logger, and whether its lines go through the console writer *)
Definition JSONFormat : string := "json".
Definition ConsoleFormat : string := "console".
Definition logger_New (cfg : LoggerConfig) (out : bool) (h : heap) : result (Logger * bool) * heap :=
  if negb out then (Err (Errorf "logger output cannot be nil"), h) else
  let format := ToLower (TrimSpace (Logger_Format cfg)) in
  if negb (String.eqb format JSONFormat) && negb (String.eqb format ConsoleFormat)
  then (Err (Errorf ("unsupported logger format " +:+ Quote (Logger_Format cfg))), h) else
  match ParseLevel (Logger_Level cfg) with
  | Err e => (Err e, h)
  | Ok level =>
    let '(base, h) := zerolog_New true h in
    let '(c, h) := With (Level level base) h in
    let '(c, h) := Context_Str "service" (TrimSpace (Logger_Service cfg)) c h in
    let c := if Logger_Timestamp cfg then Timestamp c else c in
    let '(log, h) := Context_Logger c h in
    (Ok (log, String.eqb format ConsoleFormat), h)
  end.

(** ** json.go *)
Definition FieldLevel : string := "level".
Definition FieldTimestamp : string := "time".
Definition FieldService : string := "service".
Definition FieldMessage : string := "message".
Definition FieldVersion : string := "version".
Definition FieldStatus : string := "status".
Definition FieldEnvironment : string := "environment".
Definition validJSONLevels : list string := ["trace"; "debug"; "info"; "warn"; "error"; "fatal"; "panic"; "disabled"].

Record RuntimeStartupEvent := mkStartup { su_Version : string; su_Status : string; su_Environment : string }.
Definition LogRuntimeStartup (marshal : metadata -> result string) (log : Logger) (event : RuntimeStartupEvent) (now : Time)
  (h : heap) : option string * heap :=
  let '(e, h) := newEvent InfoLevel now log h in
  let h := Event_Field FieldVersion (AString (su_Version event)) e h in
  let h := Event_Field FieldStatus (AString (su_Status event)) e h in
  let h := Event_Field FieldEnvironment (AString (su_Environment event)) e h in
  Msg marshal "agent initialized" e h.

Section Lines.
Context (decode : string -> result (option object)) (encode_any : any -> result string) (sprint : any -> string).

Definition DecodeJSONLine (line : string) : result object :=
  let trimmed := TrimSpace line in
  if String.eqb trimmed "" then Err (Errorf "json log line is empty") else
  match decode trimmed with
  | Err e => Err (Wrapf ("decode json log line: " +:+ Error e) e)
  | Ok payload =>
    let payload := default [] payload in
    if bool_decide (payload = []) then Err (Errorf "json log line has no fields") else Ok payload
  end.
Definition requireJSONString (payload : object) (field : string) : result string :=
  match assoc field payload with
  | None => Err (Errorf ("json log field " +:+ field +:+ " is required"))
  | Some (AString text) =>
    if String.eqb (TrimSpace text) "" then Err (Errorf ("json log field " +:+ field +:+ " must be a non-empty string"))
    else Ok text
  | Some _ => Err (Errorf ("json log field " +:+ field +:+ " must be a non-empty string"))
  end.
(** [time_error] is the text of [time.Parse]. *)
Definition ValidateJSONLine (time_error : string -> error) (line : string) : result unit :=
  payload ← DecodeJSONLine line;
  level ← requireJSONString payload FieldLevel;
  if negb (bool_decide (ToLower (TrimSpace level) ∈ validJSONLevels))
  then Err (Errorf ("json log field level has unsupported level " +:+ Quote level)) else
  _ ← requireJSONString payload FieldService;
  _ ← requireJSONString payload FieldMessage;
  match assoc FieldTimestamp payload with
  | None => Ok tt
  | Some (AString timestamp) =>
    if String.eqb (TrimSpace timestamp) ""
    then Err (Errorf "json log field time must be a non-empty string when present") else
    match ParseRFC3339Nano timestamp with
    | None => let e := time_error timestamp in
              Err (Wrapf ("json log field time must be RFC3339Nano UTC-compatible: " +:+ Error e) e)
    | Some _ => Ok tt
    end
  | Some _ => Err (Errorf "json log field time must be a non-empty string when present")
  end.

(** ** console.go *)
Definition dquote : string := str ["034"%char].
Definition console_breaks : string := str [" "; "009"; "010"; "013"; "034"]%char.
Definition quoteConsoleValue (value : string) : string :=
  let trimmed := TrimSpace value in
  if String.eqb trimmed "" then dquote +:+ dquote else
  if ContainsAny trimmed console_breaks then Quote trimmed else trimmed.
Definition consoleValue (value : any) : string :=
  match value with
  | AString s => quoteConsoleValue s
  | _ => match encode_any value with Ok text => quoteConsoleValue text | Err _ => quoteConsoleValue (sprint value) end
  end.
Definition stringField (payload : object) (field : string) : string :=
  match assoc field payload with
  | None | Some ANil => ""
  | Some (AString text) => TrimSpace text
  | Some value => TrimSpace (consoleValue value)
  end.
Definition consoleReservedFields : list string :=
  [FieldTimestamp; FieldLevel; FieldService; FieldMessage; FieldVersion; FieldStatus; FieldEnvironment].
Definition named (name value : string) : list string := if String.eqb value "" then [] else [name +:+ "=" +:+ value].
Definition consoleExtraFields (payload : object) : list string :=
  let keys := sort_Strings (List.filter (fun key => negb (bool_decide (key ∈ consoleReservedFields))) (map fst payload)) in
  map (fun key => key +:+ "=" +:+ consoleValue (default ANil (assoc key payload))) keys ++
  named FieldVersion (stringField payload FieldVersion) ++ named FieldStatus (stringField payload FieldStatus) ++
  named FieldEnvironment (stringField payload FieldEnvironment).

Definition non_empty (s : string) : list string := if String.eqb s "" then [] else [s].
Definition console_parts (payload : object) : list string :=
  non_empty (stringField payload FieldTimestamp) ++
  [let level := ToUpper (stringField payload FieldLevel) in if String.eqb level "" then "INFO" else level] ++
  non_empty (stringField payload FieldService) ++
  [let message := stringField payload FieldMessage in if String.eqb message "" then "log event" else message] ++
  (match consoleExtraFields payload with [] => [] | fields => [Join fields " "] end).
Definition FormatConsoleLine (line : string) : result string :=
  payload ← DecodeJSONLine line; Ok (Join (console_parts payload) " | ").
Definition ValidateConsoleLine (line : string) : result unit :=
  let trimmed := TrimSpace line in
  if String.eqb trimmed "" then Err (Errorf "console log line is empty") else
  if HasPrefix trimmed "{" then Err (Errorf "console log line must not be raw JSON") else
  if negb (Contains trimmed " | ") then Err (Errorf "console log line must contain console separators") else Ok tt.

(** What the console shows for one line: nothing for a blank one. *)
Definition console_text (line : string) : list string :=
  let formatted := match FormatConsoleLine line with Ok text => text | Err _ => TrimSpace line end in
  if String.eqb (TrimSpace formatted) "" then [] else [formatted].

(** [consoleWriter.Write]: the buffer is the state; [faults] are the outcomes of the writes to
    the output, in order.  The result is what the output received, the buffer, the faults that
    are left, and the error. *)
Definition lf : ascii := "010".
Fixpoint read_string (l : list ascii) : option (list ascii * list ascii) :=
  match l with
  | [] => None
  | c :: r => if Ascii.eqb c lf then Some ([c], r) else '(line, rest) ← read_string r; Some (c :: line, rest)
  end.
Fixpoint console_loop (fuel : nat) (buffer : list ascii) (faults : list (option error)) (out : list string)
  : list string * list ascii * list (option error) * option error :=
  match fuel with
  | O => (out, buffer, faults, None)
  | S fuel =>
    match read_string buffer with
    | None => (out, buffer, faults, None)
    | Some (line, buffer) =>
      match console_text (str line) with
      | [] => console_loop fuel buffer faults out
      | text :: _ =>
        match faults with
        | Some e :: faults => (out, buffer, faults, Some e)
        | None :: faults => console_loop fuel buffer faults (out ++ [text])
        | [] => console_loop fuel buffer [] (out ++ [text])
        end
      end
    end
  end.
Definition console_Write (payload : string) (buffer : list ascii) (faults : list (option error))
  : list string * list ascii * list (option error) * result Z :=
  let buffer := buffer ++ chars payload in
  let '(out, buffer, faults, err) := console_loop (S (length buffer)) buffer faults [] in
  (out, buffer, faults, match err with Some e => Err e | None => Ok (slen payload) end).
End Lines.

(** ** Loggers are not changed by their children

    Any sequence of calls on loggers, contexts and events, with every object that was made so
    far at hand, contexts and events also used more than once. *)
Inductive lop :=
| OWith (i : nat) | OLevel (i : nat) (level : Z) | OWithFields (i : nat) (fields : list Field)
| OTimestamp (j : nat) | OStr (j : nat) (key value : string) | OLogger (j : nat)
| OEvent (i : nat) (level : Z) (now : Time) | OField (k : nat) (key : string) (v : any) | OMsg (k : nat) (message : string).

Record lstate := mkLstate { ls_heap : heap; ls_loggers : list Logger; ls_contexts : list Context; ls_events : list Event }.

Definition lstep (s : lstate) (o : lop) : lstate :=
  let h := ls_heap s in
  match o with
  | OWith i =>
    match ls_loggers s !! i with
    | Some log => let '(c, h) := With log h in mkLstate h (ls_loggers s) (ls_contexts s ++ [c]) (ls_events s)
    | None => s
    end
  | OLevel i level =>
    match ls_loggers s !! i with
    | Some log => mkLstate h (ls_loggers s ++ [Level level log]) (ls_contexts s) (ls_events s)
    | None => s
    end
  | OWithFields i fields =>
    match ls_loggers s !! i with
    | Some log => let '(log, h) := WithFields log fields h in mkLstate h (ls_loggers s ++ [log]) (ls_contexts s) (ls_events s)
    | None => s
    end
  | OTimestamp j =>
    match ls_contexts s !! j with
    | Some c => mkLstate h (ls_loggers s) (ls_contexts s ++ [Timestamp c]) (ls_events s)
    | None => s
    end
  | OStr j key value =>
    match ls_contexts s !! j with
    | Some c => let '(c, h) := Context_Str key value c h in mkLstate h (ls_loggers s) (ls_contexts s ++ [c]) (ls_events s)
    | None => s
    end
  | OLogger j =>
    match ls_contexts s !! j with
    | Some c => let '(log, h) := Context_Logger c h in mkLstate h (ls_loggers s ++ [log]) (ls_contexts s) (ls_events s)
    | None => s
    end
  | OEvent i level now =>
    match ls_loggers s !! i with
    | Some log => let '(e, h) := newEvent level now log h in mkLstate h (ls_loggers s) (ls_contexts s) (ls_events s ++ [e])
    | None => s
    end
  | OField k key v =>
    match ls_events s !! k with
    | Some e => mkLstate (Event_Field key v e h) (ls_loggers s) (ls_contexts s) (ls_events s)
    | None => s
    end
  | OMsg k message =>
    match ls_events s !! k with
    | Some e => mkLstate (Msg (fun _ => Ok "") message e h).2 (ls_loggers s) (ls_contexts s) (ls_events s)
    | None => s
    end
  end.

(** References that are written to are never those of a logger. *)
Definition event_ref (e : Event) : option nat := match e with Disabled => None | Live _ r => Some r end.
Record lok (s : lstate) : Prop := {
  lok_loggers : Forall (fun log => (lg_fields log < next (ls_heap s))%nat) (ls_loggers s);
  lok_contexts : Forall (fun c => (cx_fields c < next (ls_heap s))%nat /\
                                  Forall (fun log => lg_fields log <> cx_fields c) (ls_loggers s)) (ls_contexts s);
  lok_events : Forall (fun e => forall r, event_ref e = Some r -> (r < next (ls_heap s))%nat /\
                                  Forall (fun log => lg_fields log <> r) (ls_loggers s)) (ls_events s)
}.

(** A change of the heap that leaves all maps below a mark as they were. *)
Definition keeps (n : nat) (h h' : heap) : Prop := (next h <= next h')%nat /\ forall r, (r < n)%nat -> cells h' !! r = cells h !! r.
Lemma keeps_refl n h : keeps n h h.
Proof. by split. Qed.
Lemma keeps_trans n h1 h2 h3 : keeps n h1 h2 -> keeps n h2 h3 -> keeps n h1 h3.
Proof. intros [H1 H2] [H3 H4]. split; [lia|]. intros r Hr. by rewrite H4, H2. Qed.
Lemma keeps_alloc n m h : (n <= next h)%nat -> keeps n h (alloc m h).2.
Proof. intros Hn. split; [cbn; lia|]. intros r Hr. cbn. by rewrite lookup_insert_ne by lia. Qed.
Lemma keeps_write n r key v h : (n <= r)%nat -> keeps n h (write r key v h).
Proof. intros Hn. split; [done|]. intros q Hq. cbn. by rewrite lookup_insert_ne by lia. Qed.

Lemma add_fields_keeps n fields c h applied : (n <= cx_fields c)%nat ->
  let '(c', h', _) := add_fields fields c h applied in c' = c /\ next h' = next h /\ keeps n h h'.
Proof.
  intros Hc. revert h applied. induction fields as [|f fields IH]; intros h applied; cbn [add_fields].
  - split_and!; [done..|apply keeps_refl].
  - destruct (String.eqb _ ""); [apply IH|]. cbn [Context_Str].
    specialize (IH (write (cx_fields c) (TrimSpace (fd_Key f)) (AString (fd_Value f)) h) true).
    destruct (add_fields fields c _ true) as [[c' h'] b]. destruct IH as (-> & E & HK). split_and!; [done|done|].
    eapply keeps_trans; [|exact HK]. by apply keeps_write.
Qed.

Lemma WithFields_keeps log fields h : (lg_fields log < next h)%nat ->
  let '(log', h') := WithFields log fields h in
  keeps (next h) h h' /\ (log' = log \/ ((next h <= lg_fields log')%nat /\ (lg_fields log' < next h')%nat)).
Proof.
  intros Hl. unfold WithFields, With, cloneFields. destruct (alloc (read (lg_fields log) h) h) as [r h1] eqn:E1.
  pose proof (keeps_alloc (next h) (read (lg_fields log) h) h (le_n _)) as K1. rewrite E1 in K1. cbn [snd] in K1.
  injection E1 as <- <-. set (h1 := mkHeap _ _) in *.
  pose proof (add_fields_keeps (next h) fields (mkContext log (next h) (lg_timestamp log)) h1 false (le_n _)) as HA.
  destruct (add_fields _ _ h1 false) as [[c h2] b]. destruct HA as (-> & E2 & K2).
  destruct b; cbn [negb]; [|split; [by eapply keeps_trans|by left]].
  unfold Context_Logger, cloneFields. cbn [alloc cx_fields cx_logger cx_timestamp]. split.
  - eapply keeps_trans; [exact K1|]. eapply keeps_trans; [exact K2|].
    apply (keeps_alloc (next h) (read (next h) h2) h2). rewrite E2. subst h1. cbn. lia.
  - right. cbn. rewrite E2. subst h1. cbn. lia.
Qed.

Lemma lok_heap s h : lok s -> (next (ls_heap s) <= next h)%nat -> lok (mkLstate h (ls_loggers s) (ls_contexts s) (ls_events s)).
Proof.
  intros [H1 H2 H3] Hn. constructor; cbn.
  - eapply Forall_impl; [exact H1|]. cbn. lia.
  - eapply Forall_impl; [exact H2|]. cbn. intros c [? ?]. split; [lia|done].
  - eapply Forall_impl; [exact H3|]. cbn. intros e He r Hr. destruct (He r Hr). split; [lia|done].
Qed.

Lemma lok_add_logger s log : lok s -> (lg_fields log < next (ls_heap s))%nat ->
  (exists old, old ∈ ls_loggers s /\ lg_fields old = lg_fields log) \/
  (Forall (fun c => (cx_fields c < lg_fields log)%nat) (ls_contexts s) /\
   Forall (fun e => forall r, event_ref e = Some r -> (r < lg_fields log)%nat) (ls_events s)) ->
  lok (mkLstate (ls_heap s) (ls_loggers s ++ [log]) (ls_contexts s) (ls_events s)).
Proof.
  intros [H1 H2 H3] Hn Hf. constructor; cbn.
  - by apply Forall_snoc.
  - apply Forall_forall. intros c Hc. rewrite Forall_forall in H2. destruct (H2 c Hc) as [H4 H5]. split; [done|].
    apply Forall_snoc. split; [done|]. destruct Hf as [(old & Ho & <-)|[Hf _]].
    + rewrite Forall_forall in H5. by apply H5.
    + rewrite Forall_forall in Hf. specialize (Hf c Hc). lia.
  - apply Forall_forall. intros e He r Hr. rewrite Forall_forall in H3. destruct (H3 e He r Hr) as [H4 H5]. split; [done|].
    apply Forall_snoc. split; [done|]. destruct Hf as [(old & Ho & <-)|[_ Hf]].
    + rewrite Forall_forall in H5. by apply H5.
    + rewrite Forall_forall in Hf. specialize (Hf e He r Hr). lia.
Qed.

(** Everything that exists lies below the mark. *)
Lemma lok_below s n : lok s -> (next (ls_heap s) <= n)%nat ->
  Forall (fun c => (cx_fields c < n)%nat) (ls_contexts s) /\
  Forall (fun e => forall r, event_ref e = Some r -> (r < n)%nat) (ls_events s).
Proof.
  intros [_ H2 H3] Hn. split; [eapply Forall_impl; [exact H2|]|eapply Forall_impl; [exact H3|]]; cbn.
  - intros c [? _]. lia.
  - intros e He r Hr. destruct (He r Hr). lia.
Qed.

Lemma fresh_ref s r : lok s -> (next (ls_heap s) <= r)%nat -> Forall (fun log => lg_fields log <> r) (ls_loggers s).
Proof. intros [H1 _ _] Hr. eapply Forall_impl; [exact H1|]. cbn. lia. Qed.

(** The maps of the loggers that exist stay. *)
Definition undisturbed (s : lstate) (h : heap) : Prop :=
  forall log, log ∈ ls_loggers s -> cells h !! lg_fields log = cells (ls_heap s) !! lg_fields log.
Lemma keeps_undisturbed s h : lok s -> keeps (next (ls_heap s)) (ls_heap s) h -> undisturbed s h.
Proof. intros [H1 _ _] [_ HK] log Hl. apply HK. rewrite Forall_forall in H1. by apply H1. Qed.
Lemma write_undisturbed s r key v : Forall (fun log => lg_fields log <> r) (ls_loggers s) -> undisturbed s (write r key v (ls_heap s)).
Proof. intros HF log Hl. rewrite Forall_forall in HF. cbn. rewrite lookup_insert_ne; [done|]. intros E. by apply (HF log Hl). Qed.

Lemma newEvent_keeps level now log h : let '(e, h') := newEvent level now log h in
  keeps (next h) h h' /\ forall r, event_ref e = Some r -> (next h <= r)%nat /\ (r < next h')%nat.
Proof.
  unfold newEvent. destruct (_ || _ || _); [split; [apply keeps_refl|done]|].
  unfold cloneFields. cbn [alloc]. set (h1 := mkHeap _ _).
  assert (keeps (next h) h h1) as K1 by apply (keeps_alloc (next h) (read (lg_fields log) h) h (le_n _)).
  split.
  - eapply keeps_trans; [exact K1|]. destruct (lg_timestamp log); [|by apply keeps_write].
    eapply keeps_trans; by apply keeps_write.
  - intros r [= <-]. destruct (lg_timestamp log); cbn; lia.
Qed.

Lemma event_write s k e key v : lok s -> ls_events s !! k = Some e ->
  let h := Event_Field key v e (ls_heap s) in
  lok (mkLstate h (ls_loggers s) (ls_contexts s) (ls_events s)) /\ undisturbed s h /\
  exists more, ls_loggers s = ls_loggers s ++ more.
Proof.
  intros HO E. apply list_elem_of_lookup_2 in E. destruct e as [|log r]; cbn.
  - split_and!; [by apply lok_heap|done|]. exists []. by rewrite app_nil_r.
  - pose proof HO as [_ _ H3]. rewrite Forall_forall in H3. destruct (H3 _ E r eq_refl) as [_ HF].
    split_and!; [by apply lok_heap|by apply write_undisturbed|]. exists []. by rewrite app_nil_r.
Qed.

Lemma lstep_keeps s o : lok s ->
  lok (lstep s o) /\ undisturbed s (ls_heap (lstep s o)) /\ exists more, ls_loggers (lstep s o) = ls_loggers s ++ more.
Proof.
  intros HO. assert (lok s /\ undisturbed s (ls_heap s) /\ exists more, ls_loggers s = ls_loggers s ++ more) as Hsame.
  { split_and!; [done|done|]. exists []. by rewrite app_nil_r. }
  assert (forall log i, ls_loggers s !! i = Some log -> log ∈ ls_loggers s /\ (lg_fields log < next (ls_heap s))%nat) as Hlog.
  { intros log i Hi. apply list_elem_of_lookup_2 in Hi. split; [done|]. destruct HO as [H1 _ _]. rewrite Forall_forall in H1. by apply H1. }
  destruct o as [i|i level|i fields|j|j key value|j|i level now|k key v|k message]; cbn [lstep].
  - destruct (ls_loggers s !! i) as [log|] eqn:E; [|done]. cbn [With cloneFields alloc]. unfold With, cloneFields. cbn [alloc].
    set (h1 := mkHeap _ _).
    assert (keeps (next (ls_heap s)) (ls_heap s) h1) as K by apply (keeps_alloc _ (read (lg_fields log) (ls_heap s)) _ (le_n _)).
    split_and!; [|by apply keeps_undisturbed|exists []; by rewrite app_nil_r].
    destruct (lok_heap s h1 HO (proj1 K)) as [H1 H2 H3]. constructor; cbn in *; [done| |done].
    apply Forall_snoc. split; [done|]. cbn. split; [lia|]. by apply fresh_ref.
  - destruct (ls_loggers s !! i) as [log|] eqn:E; [|done]. destruct (Hlog _ _ E) as [Hin Hlt].
    split_and!; [|done|by eexists]. apply lok_add_logger; [done|done|]. left. by exists log.
  - destruct (ls_loggers s !! i) as [log|] eqn:E; [|done]. destruct (Hlog _ _ E) as [Hin Hlt].
    pose proof (WithFields_keeps log fields (ls_heap s) Hlt) as HW. destruct (WithFields _ _ _) as [log' h'].
    destruct HW as [K HF]. split_and!; [|by apply keeps_undisturbed|by eexists].
    apply (lok_add_logger (mkLstate h' (ls_loggers s) (ls_contexts s) (ls_events s))); [by apply lok_heap, K| |].
    + cbn. destruct HF as [->|[_ ?]]; [destruct K; lia|lia].
    + destruct HF as [->|[Hge _]]; [left; by exists log|right]. cbn. by apply lok_below.
  - destruct (ls_contexts s !! j) as [c|] eqn:E; [|done]. apply list_elem_of_lookup_2 in E.
    split_and!; [|done|exists []; by rewrite app_nil_r]. destruct HO as [H1 H2 H3]. constructor; cbn; [done| |done].
    apply Forall_snoc. split; [done|]. rewrite Forall_forall in H2. exact (H2 c E).
  - destruct (ls_contexts s !! j) as [c|] eqn:E; [|done]. apply list_elem_of_lookup_2 in E.
    assert ((cx_fields c < next (ls_heap s))%nat /\ Forall (fun log => lg_fields log <> cx_fields c) (ls_loggers s)) as [Hlt HF].
    { destruct HO as [_ H2 _]. rewrite Forall_forall in H2. by apply H2. }
    cbn [Context_Str]. split_and!; [|by apply write_undisturbed|exists []; by rewrite app_nil_r].
    destruct (lok_heap s (write (cx_fields c) key (AString value) (ls_heap s)) HO (le_n _)) as [H1 H2 H3].
    constructor; cbn in *; [done| |done]. apply Forall_snoc. by split.
  - destruct (ls_contexts s !! j) as [c|] eqn:E; [|done]. unfold Context_Logger, cloneFields. cbn [alloc].
    set (h1 := mkHeap _ _).
    assert (keeps (next (ls_heap s)) (ls_heap s) h1) as K by apply (keeps_alloc _ (read (cx_fields c) (ls_heap s)) _ (le_n _)).
    split_and!; [|by apply keeps_undisturbed|by eexists].
    apply (lok_add_logger (mkLstate h1 (ls_loggers s) (ls_contexts s) (ls_events s))); [by apply lok_heap, K|cbn; lia|].
    right. cbn. by apply lok_below.
  - destruct (ls_loggers s !! i) as [log|] eqn:E; [|done].
    pose proof (newEvent_keeps level now log (ls_heap s)) as HE. destruct (newEvent _ _ _ _) as [e h']. destruct HE as [K HF].
    split_and!; [|by apply keeps_undisturbed|exists []; by rewrite app_nil_r].
    destruct (lok_heap s h' HO (proj1 K)) as [H1 H2 H3]. constructor; cbn in *; [done|done|].
    apply Forall_snoc. split; [done|]. intros r Hr. destruct (HF r Hr). split; [done|]. by apply fresh_ref.
  - destruct (ls_events s !! k) as [e|] eqn:E; [|done]. by apply (event_write s k).
  - destruct (ls_events s !! k) as [e|] eqn:E; [|done].
    pose proof (event_write s k e "message" (AString message) HO E) as H. by destruct e.
Qed.

(** What a logger logs is decided when it is made: no sequence of calls on it, on contexts and
    events made from it, or on its children changes its fields. *)
Theorem loggers_are_immutable ops s i log : lok s -> ls_loggers s !! i = Some log ->
  ls_loggers (foldl lstep s ops) !! i = Some log /\
  read (lg_fields log) (ls_heap (foldl lstep s ops)) = read (lg_fields log) (ls_heap s).
Proof.
  intros HO Hi. revert s HO Hi. induction ops as [|o ops IH]; intros s HO Hi; [done|]. cbn [foldl].
  destruct (lstep_keeps s o HO) as (HO' & HU & more & EL).
  destruct (IH (lstep s o) HO') as [E1 E2]; [rewrite EL; by apply lookup_app_l_Some|].
  split; [done|]. rewrite E2. unfold read. rewrite (HU log); [done|]. by apply list_elem_of_lookup_2 in Hi.
Qed.

(** ** The console shows lines, not writes *)
Fixpoint split_lines (l : list ascii) : list (list ascii) * list ascii :=
  match l with
  | [] => ([], [])
  | c :: r =>
    let '(lines, rest) := split_lines r in
    if Ascii.eqb c lf then ([c] :: lines, rest)
    else match lines with [] => ([], c :: rest) | line :: lines => ((c :: line) :: lines, rest) end
  end.

Lemma read_string_split l : match read_string l with
  | None => split_lines l = ([], l)
  | Some (line, r) => split_lines l = (line :: (split_lines r).1, (split_lines r).2) /\ (length r < length l)%nat
  end.
Proof.
  induction l as [|c l IH]; [done|]. cbn [read_string split_lines]. destruct (Ascii.eqb c lf).
  - destruct (split_lines l) as [lines rest]. split; [done|cbn; lia].
  - destruct (read_string l) as [[line r]|]; cbn.
    + destruct IH as [-> ?]. split; [done|lia].
    + by rewrite IH.
Qed.

Lemma split_lines_app a b : split_lines (a ++ b) =
  ((split_lines a).1 ++ (split_lines ((split_lines a).2 ++ b)).1, (split_lines ((split_lines a).2 ++ b)).2).
Proof.
  induction a as [|c a IH]; [cbn; by destruct (split_lines b)|]. cbn [app split_lines]. rewrite IH.
  destruct (split_lines a) as [lines rest]. cbn [fst snd]. destruct (Ascii.eqb c lf) eqn:E; [done|].
  destruct lines as [|line lines]; [|done]. cbn [app fst snd split_lines]. rewrite E. by destruct (split_lines (rest ++ b)) as [[|x xs] y].
Qed.

Section Console.
Context (decode : string -> result (option object)) (encode_any : any -> result string) (sprint : any -> string).
Notation text := (console_text decode encode_any sprint).

Lemma console_text_one line : text line = [] \/ exists x, text line = [x].
Proof. unfold console_text. cbv zeta. destruct (String.eqb _ ""); [by left|right; by eexists]. Qed.

Lemma console_loop_lines fuel buffer out : (length buffer < fuel)%nat ->
  console_loop decode encode_any sprint fuel buffer [] out =
    (out ++ mbind (fun line => text (str line)) (split_lines buffer).1, (split_lines buffer).2, [], None).
Proof.
  revert buffer out. induction fuel as [|fuel IH]; intros buffer out Hf; [lia|]. cbn [console_loop].
  pose proof (read_string_split buffer) as HR. destruct (read_string buffer) as [[line r]|].
  - destruct HR as [-> Hlt]. cbn [fst snd mbind list_bind].
    destruct (console_text_one (str line)) as [->|[x ->]]; rewrite IH by lia; [done|]. by rewrite <- app_assoc.
  - rewrite HR. cbn. by rewrite app_nil_r.
Qed.

(** Writes one after the other, as the logger makes them. *)
Fixpoint console_writes (chunks : list string) (buffer : list ascii) : list string * list ascii * list (result Z) :=
  match chunks with
  | [] => ([], buffer, [])
  | chunk :: rest =>
    let '(out, buffer, _, r) := console_Write decode encode_any sprint chunk buffer [] in
    let '(more, buffer, rs) := console_writes rest buffer in (out ++ more, buffer, r :: rs)
  end.

(** C40: what the console shows depends on the text of the log alone.  For every way to cut it
    into writes, every write is accepted whole, the output receives the rendering of each
    complete line once and in order, and the unfinished line waits in the buffer. *)
Theorem console_chunking chunks :
  console_writes chunks [] =
    (mbind (fun line => text (str line)) (split_lines (mbind chars chunks)).1, (split_lines (mbind chars chunks)).2,
     map (fun chunk => Ok (slen chunk)) chunks).
Proof.
  cut (forall buffer, split_lines buffer = ([], buffer) -> console_writes chunks buffer =
    (mbind (fun line => text (str line)) (split_lines (buffer ++ mbind chars chunks)).1, (split_lines (buffer ++ mbind chars chunks)).2,
     map (fun chunk => Ok (slen chunk)) chunks)); [intros H; by apply (H [])|].
  induction chunks as [|chunk chunks IH]; intros buffer HB; cbn [console_writes mbind list_bind map].
  { by rewrite app_nil_r, HB. }
  unfold console_Write. rewrite console_loop_lines by lia. rewrite app_assoc, (split_lines_app (buffer ++ chars chunk)).
  set (a := split_lines (buffer ++ chars chunk)).
  assert (split_lines a.2 = ([], a.2)) as HA.
  { pose proof (split_lines_app (buffer ++ chars chunk) []) as E. rewrite !app_nil_r in E. fold a in E.
    rewrite (surjective_pairing a) in E at 1. injection E as E1 E2.
    rewrite (surjective_pairing (split_lines a.2)). f_equal; [|done]. apply (f_equal length) in E1. rewrite length_app in E1.
    apply nil_length_inv. lia. }
  rewrite (IH a.2 HA). cbn [fst snd]. by rewrite bind_app.
Qed.
End Console.

(** When the output refuses a line, the line is gone while later lines wait for the next
    write. *)
Theorem refused_line_is_lost decode encode_any sprint line rest e :
  read_string (chars line) = Some (chars line, []) -> console_text decode encode_any sprint line <> [] ->
  exists faults, console_Write decode encode_any sprint (line +:+ rest) [] [Some e] = ([], chars rest, faults, Err e).
Proof.
  intros HR HT. unfold console_Write. cbn [app]. rewrite chars_app.
  assert (forall l r x, read_string l = Some (x, []) -> read_string (l ++ r) = Some (x, r)) as HX.
  { clear. induction l as [|c l IH]; intros r x; [done|]. cbn. destruct (Ascii.eqb c lf); [by intros [= <- ->]|].
    destruct (read_string l) as [[y z]|]; [|done]. cbn. intros [= <- ->]. by rewrite (IH r y). }
  cbn [console_loop]. rewrite (HX _ (chars rest) _ HR), str_chars. destruct (console_text _ _ _ line) as [|x xs]; [done|]. by eexists.
Qed.

(** ** Every line keeps the contract of json.go *)
Definition ascii_only (s : string) : Prop := Forall (fun c => (code c <? 128) = true) (chars s).

Lemma digit_ascii c : is_Some (digit c) -> (code c <? 128) = true.
Proof.
  intros [d Hd]. pose (ok := fun c => match digit c with Some _ => code c <? 128 | None => true end).
  assert (ok c = true) as E by (apply char_forall; vm_compute; reflexivity). unfold ok in E. by rewrite Hd in E.
Qed.

Lemma digits_of_ascii w n : Forall (fun c => (code c <? 128) = true) (digits_of w n).
Proof.
  revert n. induction w as [|w IH]; intros n; cbn; [constructor|]. apply Forall_snoc. split; [apply IH|].
  apply digit_ascii. rewrite digit_digit_char. by eexists.
Qed.

Lemma drop_char_sublist {P : ascii -> Prop} c l : Forall P l -> Forall P (drop_char c l).
Proof. induction 1 as [|x l Hx HF IH]; cbn; [constructor|]. destruct (Ascii.eqb _ _); [done|by constructor]. Qed.

Lemma Format_ascii t : 0 <= t < calendar_days * 86400 * second -> ascii_only (FormatRFC3339Nano t).
Proof.
  intros H. unfold ascii_only, FormatRFC3339Nano, date_time. rewrite chars_str.
  assert (0 <= t / second / 86400 < calendar_days) as Hd.
  { unfold calendar_days, second in *. Z.to_euclidean_division_equations. lia. }
  destruct (civil_date _ Hd) as (y & m & d & -> & Hy & _).
  destruct (year_digits y Hy) as [E1 _]. apply digits_value_all in E1.
  assert (Forall (fun c => (code c <? 128) = true) (GoTime.pad 4 y)) as HP
    by (eapply Forall_impl; [exact E1|]; intros c; apply digit_ascii).
  assert (Forall (fun c => (code c <? 128) = true) (fraction t)) as HF.
  { unfold fraction. cbv zeta. destruct (_ =? 0); [constructor|]. constructor; [done|]. unfold drop_zeros.
    apply Forall_reverse, drop_char_sublist, Forall_reverse, digits_of_ascii. }
  repeat first [exact HP | exact HF | apply digits_of_ascii | apply Forall_nil_2
               | apply Forall_cons_2; [reflexivity|] | apply Forall_app_2].
Qed.

(** Fields of an event and the line it becomes. *)
Definition log_event (marshal : metadata -> result string) (level : Z) (now : Time) (fields : list (string * any))
  (message : string) (log : Logger) (h : heap) : option string :=
  let '(e, h) := newEvent level now log h in
  (Msg marshal message e (foldl (fun h kv => Event_Field kv.1 kv.2 e h) h fields)).1.

Lemma read_write r key v h : read r (write r key v h) = <[key := v]> (read r h).
Proof. unfold read at 1. cbn. by rewrite lookup_insert_eq. Qed.
Lemma read_alloc m h : read (alloc m h).1 (alloc m h).2 = m.
Proof. unfold read. cbn. by rewrite lookup_insert_eq. Qed.

Definition base_fields : list string := [FieldLevel; FieldTimestamp; FieldService; FieldMessage].

(** Fields over others: those of [WithFields], whose blank keys are passed over, and those of
    an event. *)
Definition logger_fields (fields : list Field) (m : metadata) : metadata :=
  foldl (fun m f => if String.eqb (TrimSpace (fd_Key f)) "" then m else <[TrimSpace (fd_Key f) := AString (fd_Value f)]> m) m fields.
Definition event_fields_over (fields : list (string * any)) (m : metadata) : metadata :=
  foldl (fun m kv => <[kv.1 := kv.2]> m) m fields.
(** All fields of a line: of the logger, the level, the time, of the event and the message. *)
Definition event_line (m : metadata) (timestamp : bool) (level : Z) (now : Time) (fields : list (string * any)) (message : string) : metadata :=
  let m := <[FieldLevel := AString (Level_String level)]> m in
  let m := if timestamp then <[FieldTimestamp := AString (FormatRFC3339Nano now)]> m else m in
  <[FieldMessage := AString message]> (event_fields_over fields m).

Lemma fields_read r (fields : list (string * any)) h :
  read r (foldl (fun h kv => write r kv.1 kv.2 h) h fields) = event_fields_over fields (read r h).
Proof. revert h. induction fields as [|[k v] fields IH]; intros h; [done|]. cbn [foldl fst snd]. rewrite IH, read_write. done. Qed.

Lemma event_fields_other fields m key : Forall (fun kv => kv.1 ∉ base_fields) fields -> key ∈ base_fields ->
  event_fields_over fields m !! key = m !! key.
Proof.
  intros HF Hk. revert m. unfold event_fields_over. induction HF as [|[k v] fields Hf HF IH]; intros m; [done|]. cbn [foldl fst snd].
  rewrite IH. apply lookup_insert_ne. by intros ->.
Qed.

Lemma logger_fields_other fields m key : Forall (fun f => TrimSpace (fd_Key f) ∉ base_fields) fields -> key ∈ base_fields ->
  logger_fields fields m !! key = m !! key.
Proof.
  intros HF Hk. revert m. unfold logger_fields. induction HF as [|f fields Hf HF IH]; intros m; [done|]. cbn [foldl].
  rewrite IH. destruct (String.eqb _ ""); [done|]. apply lookup_insert_ne. intros E. apply Hf. by rewrite E.
Qed.

(** What becomes of an event: nothing below the level of the logger, else one line with all its
    fields. *)
Lemma log_event_is marshal level now fields message log h : log_event marshal level now fields message log h =
  if negb (lg_out log) || (lg_level log =? DisabledLevel) || (level <? lg_level log) then None else
  Some (match marshal (event_line (read (lg_fields log) h) (lg_timestamp log) level now fields message) with
        | Ok text => text | Err _ => encode_failed end +:+ newline).
Proof.
  unfold log_event, newEvent. destruct (_ || _ || _).
  { generalize (foldl (fun h kv => Event_Field kv.1 kv.2 Disabled h) h fields). done. }
  unfold cloneFields. destruct (alloc (read (lg_fields log) h) h) as [r h1] eqn:EA.
  assert (read r h1 = read (lg_fields log) h) as ER by (pose proof (read_alloc (read (lg_fields log) h) h) as X; by rewrite EA in X).
  cbn [Msg fst Event_Field]. unfold event_line. rewrite read_write, fields_read.
  destruct (lg_timestamp log); rewrite !read_write, ER; done.
Qed.

Lemma add_fields_read fields c : forall h applied,
  let '(c', h', b) := add_fields fields c h applied in
  c' = c /\ read (cx_fields c) h' = logger_fields fields (read (cx_fields c) h) /\
  (b = false -> forall m, logger_fields fields m = m) /\ (applied = true -> b = true).
Proof.
  induction fields as [|f fields IH]; intros h applied; cbn [add_fields]; [by split_and!|].
  unfold logger_fields. cbn [foldl]. destruct (String.eqb (TrimSpace (fd_Key f)) ""); [apply IH|]. cbn [Context_Str].
  specialize (IH (write (cx_fields c) (TrimSpace (fd_Key f)) (AString (fd_Value f)) h) true).
  destruct (add_fields fields c _ true) as [[c' h'] b]. destruct IH as (-> & -> & _ & ->); [|done]. rewrite read_write. by split_and!.
Qed.

Lemma WithFields_read log fields h log' h' : (lg_fields log < next h)%nat -> WithFields log fields h = (log', h') ->
  lg_out log' = lg_out log /\ lg_level log' = lg_level log /\ lg_timestamp log' = lg_timestamp log /\
  read (lg_fields log') h' = logger_fields fields (read (lg_fields log) h).
Proof.
  intros Hl HW. pose proof (WithFields_keeps log fields h Hl) as HK. rewrite HW in HK. destruct HK as [HK _].
  revert HW. unfold WithFields, With, cloneFields. destruct (alloc (read (lg_fields log) h) h) as [r h1] eqn:EA.
  assert (read r h1 = read (lg_fields log) h) as ER by (pose proof (read_alloc (read (lg_fields log) h) h) as X; by rewrite EA in X).
  pose proof (add_fields_read fields (mkContext log r (lg_timestamp log)) h1 false) as HA.
  destruct (add_fields _ _ h1 false) as [[c h2] b]. destruct HA as (-> & EF & EN & _). cbn [cx_fields] in EF. rewrite ER in EF.
  destruct b; cbn [negb].
  - unfold Context_Logger, cloneFields. cbn [cx_fields cx_logger cx_timestamp].
    destruct (alloc (read r h2) h2) as [r3 h3] eqn:E3. intros [= <- <-]. split_and!; [done..|]. cbn [lg_fields].
    pose proof (read_alloc (read r h2) h2) as X. rewrite E3 in X. cbn [fst snd] in X. by rewrite X.
  - intros [= <- <-]. split_and!; [done..|]. rewrite EN by done. unfold read. by rewrite (proj2 HK).
Qed.

(** A new logger carries the service, and the time when the settings say so. *)
Lemma logger_New_spec cfg h log console h' : logger_New cfg true h = (Ok (log, console), h') ->
  (lg_fields log < next h')%nat /\ lg_out log = true /\ lg_timestamp log = Logger_Timestamp cfg /\
  read (lg_fields log) h' = {[ FieldService := AString (TrimSpace (Logger_Service cfg)) ]} /\
  ParseLevel (Logger_Level cfg) = Ok (lg_level log) /\
  console = String.eqb (ToLower (TrimSpace (Logger_Format cfg))) ConsoleFormat.
Proof.
  unfold logger_New. cbn [negb]. destruct (_ && _); [done|]. destruct (ParseLevel _) as [level|]; [|done].
  unfold zerolog_New, With, cloneFields, Context_Str, Context_Logger, cloneFields. cbn.
  destruct (Logger_Timestamp cfg); cbn; intros [= <- <- <-]; cbn; (split_and!; [lia|done|done| |done|done]);
    unfold read; cbn; rewrite ?lookup_insert_eq; cbn; rewrite ?lookup_insert_eq; cbn; unfold read; cbn;
    rewrite ?lookup_insert_eq; cbn; done.
Qed.

Section Contract.
Context (marshal : metadata -> result string) (decode : string -> result (option object)) (time_error : string -> error).

(** What the contract needs of encoding/json: an encoded map is not blank and decodes to the
    same keys; ASCII strings come back as they are, and a string that is not blank as one that
    is not blank (bytes that are not UTF-8 are replaced). *)
Definition json_codec : Prop := forall m text, marshal m = Ok text ->
  TrimSpace (text +:+ newline) <> "" /\ exists o, decode (TrimSpace (text +:+ newline)) = Ok (Some o) /\
  (forall k, m !! k = None -> assoc k o = None) /\
  (forall k s, m !! k = Some (AString s) -> ascii_only s -> assoc k o = Some (AString s)) /\
  (forall k s, m !! k = Some (AString s) -> TrimSpace s <> "" -> exists s', assoc k o = Some (AString s') /\ TrimSpace s' <> "").

Lemma level_valid level : ascii_only (Level_String level) /\ TrimSpace (Level_String level) = Level_String level /\
  Level_String level <> "" /\ ToLower (Level_String level) ∈ validJSONLevels.
Proof. unfold Level_String. repeat case_match; (split_and!; [by repeat constructor|done|done|by apply (bool_decide_unpack _)]). Qed.

Lemma line_valid m text : json_codec -> marshal m = Ok text ->
  (exists level, m !! FieldLevel = Some (AString (Level_String level))) ->
  (exists s, m !! FieldService = Some (AString s) /\ TrimSpace s <> "") ->
  (exists s, m !! FieldMessage = Some (AString s) /\ TrimSpace s <> "") ->
  (m !! FieldTimestamp = None \/ exists now, 0 <= now < calendar_days * 86400 * second /\
     m !! FieldTimestamp = Some (AString (FormatRFC3339Nano now))) ->
  ValidateJSONLine decode time_error (text +:+ newline) = Ok tt.
Proof.
  intros HC HM (level & HL) (service & HS & HS') (message & HG & HG') HT.
  destruct (HC m text HM) as (HB & o & HD & HN & HA & HP). destruct (level_valid level) as (L1 & L2 & L3 & L4).
  pose proof (HA _ _ HL L1) as EL. destruct (HP _ _ HS HS') as (s1 & ES & ES'). destruct (HP _ _ HG HG') as (s2 & EG & EG').
  unfold ValidateJSONLine, DecodeJSONLine. cbv zeta. rewrite (proj2 (String.eqb_neq _ _) HB), HD. change (default [] (Some o)) with o.
  rewrite bool_decide_eq_false_2 by (intros ->; done). cbn [mbind result_bind]. unfold requireJSONString.
  rewrite EL, ES, EG, L2, (proj2 (String.eqb_neq _ _) L3). cbn [mbind result_bind]. rewrite L2, bool_decide_eq_true_2 by done. cbn [negb].
  rewrite (proj2 (String.eqb_neq _ _) ES'), (proj2 (String.eqb_neq _ _) EG'). cbn [mbind result_bind].
  destruct HT as [HT|(now & Hn & HT)]; [by rewrite (HN _ HT)|].
  destruct (TrimSpace_Format now Hn) as [T1 T2]. rewrite (HA _ _ HT (Format_ascii now Hn)), T1, (proj2 (String.eqb_neq _ _) T2).
  by rewrite Parse_Format.
Qed.

(** The fields of a line of a logger made from the settings and derived by [WithFields]. *)
Definition line_fields (cfg : LoggerConfig) (fields : list Field) (level : Z) (now : Time) (event_fields : list (string * any))
  (message : string) : metadata :=
  event_line (logger_fields fields {[ FieldService := AString (TrimSpace (Logger_Service cfg)) ]}) (Logger_Timestamp cfg)
    level now event_fields message.

(** C39: what a logger made from the settings, and derived by [WithFields], writes.  An event
    below the configured level writes nothing; any other writes one line, which is the encoding
    of exactly its fields (service, fields of the logger, level, time when the settings ask for
    it, fields of the event, message), or a fixed line when, and only when, these cannot be
    encoded.  When the settings name a service, the message is not blank and neither the logger
    nor the event overwrites the four base fields, the encoding keeps the contract that json.go
    states: a known level, the service, the message and a time that parses. *)
Theorem log_lines_valid cfg h log console h1 fields log2 h2 level now event_fields message :
  json_codec ->
  logger_New cfg true h = (Ok (log, console), h1) -> WithFields log fields h1 = (log2, h2) ->
  let m := line_fields cfg fields level now event_fields message in
  (exists min, ParseLevel (Logger_Level cfg) = Ok min /\
     log_event marshal level now event_fields message log2 h2 =
       if (min =? DisabledLevel) || (level <? min) then None
       else Some (match marshal m with Ok text => text | Err _ => encode_failed end +:+ newline)) /\
  (TrimSpace (Logger_Service cfg) <> "" -> Forall (fun f => TrimSpace (fd_Key f) ∉ base_fields) fields ->
   Forall (fun kv => kv.1 ∉ base_fields) event_fields -> TrimSpace message <> "" ->
   0 <= now < calendar_days * 86400 * second ->
   forall text, marshal m = Ok text -> ValidateJSONLine decode time_error (text +:+ newline) = Ok tt).
Proof.
  intros HC HN HW m. destruct (logger_New_spec _ _ _ _ _ HN) as (H1 & HO & HT & HR & HL & _).
  destruct (WithFields_read _ _ _ _ _ H1 HW) as (E1 & E2 & E3 & E4). split.
  - exists (lg_level log). split; [done|]. rewrite log_event_is, E1, E2, E3, E4, HO, HT, HR. done.
  - intros HS HF HE HG Hn text HM.
    assert (forall key, key ∈ base_fields -> key <> FieldMessage -> m !! key =
      (if Logger_Timestamp cfg then <[FieldTimestamp := AString (FormatRFC3339Nano now)]> else id)
        (<[FieldLevel := AString (Level_String level)]> (logger_fields fields {[ FieldService := AString (TrimSpace (Logger_Service cfg)) ]})) !! key) as HB.
    { intros key Hk Hne. unfold m, line_fields, event_line. rewrite lookup_insert_ne, event_fields_other by done. by destruct (Logger_Timestamp cfg). }
    eapply (line_valid m); [done|done|exists level| | |].
    + rewrite HB by (done || in_list). destruct (Logger_Timestamp cfg); [rewrite lookup_insert_ne by done|cbn [id]]; apply lookup_insert_eq.
    + exists (TrimSpace (Logger_Service cfg)). split; [|by rewrite TrimSpace_idemp]. rewrite HB by (done || in_list).
      destruct (Logger_Timestamp cfg); cbn [id]; repeat rewrite lookup_insert_ne by done; rewrite logger_fields_other by (done || in_list); apply lookup_singleton_eq.
    + exists message. split; [apply lookup_insert_eq|done].
    + rewrite HB by (done || in_list). destruct (Logger_Timestamp cfg); [right; exists now; split; [done|apply lookup_insert_eq]|left].
      cbn [id]. rewrite lookup_insert_ne, logger_fields_other by (done || in_list). by apply lookup_singleton_ne.
Qed.
End Contract.

(** ** Examples *)
Definition sample_log_config : LoggerConfig := mkLoggerConfig "info" "console" false " agent ".
Definition sample_fields : metadata :=
  <[FieldMessage := AString "started"]> (<[FieldLevel := AString "info"]> {[ FieldService := AString "agent" ]}).
Definition text_pairs (l : list (string * any)) : option (list (string * string)) :=
  mapM (fun kv => match kv.2 with AString s => Some (kv.1, s) | _ => None end) l.
Definition sample_marshal (m : metadata) : result string :=
  if decide (text_pairs (map_to_list m) = text_pairs (map_to_list sample_fields))
  then Ok "{log}" else Err (Errorf "json: unsupported value").
Definition sample_line_decode (s : string) : result (option object) :=
  if String.eqb s "{log}" then Ok (Some (map_to_list sample_fields)) else Err (Errorf "invalid character").

Lemma text_pairs_inj l k p : text_pairs l = Some p -> text_pairs k = Some p -> l = k.
Proof.
  assert (forall l p, text_pairs l = Some p -> l = prod_map id AString <$> p) as H; [|intros H1 H2; by rewrite (H _ _ H1), (H _ _ H2)].
  clear. induction l as [|[k v] l IH]; intros p; cbn; [by intros [= <-]|]. destruct v; try done. cbn.
  destruct (text_pairs l) as [q|] eqn:E; unfold text_pairs in E; rewrite E; [|done]. cbn. intros [= <-]. cbn. f_equal. by apply IH.
Qed.

Lemma sample_codec : json_codec sample_marshal sample_line_decode.
Proof.
  intros m text. unfold sample_marshal. destruct (decide _) as [E|]; [|done]. intros [= <-].
  assert (map_to_list m = map_to_list sample_fields) as EL.
  { destruct (text_pairs (map_to_list sample_fields)) as [p|] eqn:EP; [|by vm_compute in EP]. by eapply text_pairs_inj. }
  assert (m = sample_fields) as ->.
  { rewrite <- (list_to_map_to_list m), EL. apply list_to_map_to_list. }
  assert (forall k, assoc k (map_to_list sample_fields) = sample_fields !! k) as HA.
  { intros k. unfold sample_fields.
    destruct (decide (k = FieldMessage)) as [->|]; [by vm_compute|]. destruct (decide (k = FieldLevel)) as [->|]; [by vm_compute|].
    destruct (decide (k = FieldService)) as [->|]; [by vm_compute|]. rewrite !lookup_insert_ne, lookup_singleton_ne by done.
    destruct (assoc k _) as [v|] eqn:EA; [|done]. apply assoc_elem, elem_of_map_to_list in EA.
    by rewrite !lookup_insert_ne, lookup_singleton_ne in EA by done. }
  split; [done|]. exists (map_to_list sample_fields). split; [reflexivity|].
  split_and!; intros k; rewrite HA; [done|intros s Hs _; exact Hs|]. intros s Hk Hs. exists s. split; assumption.
Qed.

(** A line of a new logger, which is written and valid. *)
Lemma log_lines_valid_witness :
  let h1 := (logger_New sample_log_config true (mkHeap ∅ 0)).2 in
  log_event sample_marshal InfoLevel 0 [] "started" (mkLogger true InfoLevel 2 false) (WithFields (mkLogger true InfoLevel 2 false) [] h1).2 =
    Some ("{log}" +:+ newline) /\
  ValidateJSONLine sample_line_decode (fun _ => Errorf "parsing time") ("{log}" +:+ newline) = Ok tt.
Proof.
  intros h1. destruct (log_lines_valid sample_marshal sample_line_decode (fun _ => Errorf "parsing time") sample_log_config (mkHeap ∅ 0)
    (mkLogger true InfoLevel 2 false) true h1 [] (mkLogger true InfoLevel 2 false) (WithFields (mkLogger true InfoLevel 2 false) [] h1).2
    InfoLevel 0 [] "started") as [(min & E1 & E2) HV].
  - apply sample_codec.
  - reflexivity.
  - reflexivity.
  - split; [|apply HV].
    + rewrite E2. vm_compute in E1. injection E1 as <-. vm_compute. reflexivity.
    + discriminate.
    + constructor.
    + constructor.
    + discriminate.
    + split; [lia|reflexivity].
    + vm_compute. reflexivity.
Defined.

Definition sample_lstate : lstate :=
  mkLstate (mkHeap {[ 0%nat := {[ FieldService := AString "agent" ]} ]} 1) [mkLogger true InfoLevel 0 false] [] [].
Definition sample_lops : list lop :=
  [OWith 0; OStr 0 "component" "a"; OStr 0 "component" "b"; OLogger 0; OEvent 1 InfoLevel 5; OMsg 0 "x"].
Lemma loggers_are_immutable_witness : read 0 (ls_heap (foldl lstep sample_lstate sample_lops)) = {[ FieldService := AString "agent" ]}.
Proof.
  destruct (loggers_are_immutable sample_lops sample_lstate 0 (mkLogger true InfoLevel 0 false)) as [_ E].
  - constructor; cbn; repeat constructor.
  - reflexivity.
  - exact E.
Defined.

(** The fixed line for fields that cannot be encoded names no service, which the contract asks
    for. *)
Example encode_failed_breaks_contract decode time_error level message :
  decode encode_failed = Ok (Some [(FieldLevel, AString level); (FieldMessage, AString message)]) -> TrimSpace level <> "" ->
  is_ok (ValidateJSONLine decode time_error (encode_failed +:+ newline)) = false.
Proof.
  intros HD HL. unfold ValidateJSONLine, DecodeJSONLine. change (TrimSpace (encode_failed +:+ newline)) with encode_failed. cbv zeta.
  change (String.eqb encode_failed "") with false. cbv iota. rewrite HD. change (default [] (Some ?l)) with l.
  rewrite bool_decide_eq_false_2 by done. cbn [mbind result_bind]. unfold requireJSONString. cbn [assoc String.eqb]. cbn.
  rewrite (proj2 (String.eqb_neq _ _) HL). cbn. by destruct (bool_decide _).
Qed.
