(* ===== verification/GoMime.v ===== *)
(** * Package mime: media types

    [mime.ParseMediaType] as far as the media type and the decision whether there
    is an error go; the values of the parameters only matter for the check that a
    parameter is not given twice with different values. *)
From S2P Require Import Prelude GoStrings.

Definition isTSpecial (c : ascii) : bool :=
  bool_decide (c ∈ ascii_of_nat 34 :: chars "()<>@,;:\/[]?=").
Definition isTokenChar (c : ascii) : bool := (32 <? code c) && (code c <? 127) && negb (isTSpecial c).

Fixpoint consumeToken (l : list ascii) : list ascii * list ascii :=
  match l with
  | c :: r => if isTokenChar c then let '(t, k) := consumeToken r in (c :: t, k) else ([], l)
  | [] => ([], [])
  end.

(** The rest of a quoted string after its opening quote; [None] without a closing one. *)
Fixpoint quoted (l acc : list ascii) : option (list ascii * list ascii) :=
  match l with
  | [] => None
  | c :: r =>
    if code c =? 34 then Some (acc, r) else
    match r with
    | d :: r' =>
      if (code c =? 92) && isTSpecial d then quoted r' (acc ++ [d]) else
      if (code c =? 13) || (code c =? 10) then None else quoted r (acc ++ [c])
    | [] => if (code c =? 13) || (code c =? 10) then None else quoted r (acc ++ [c])
    end
  end.

Definition consumeValue (l : list ascii) : list ascii * list ascii :=
  match l with
  | [] => ([], [])
  | c :: r => if negb (code c =? 34) then consumeToken l
              else match quoted r [] with Some p => p | None => ([], l) end
  end.

Definition eat (c : ascii) (l : list ascii) : option (list ascii) :=
  match l with d :: r => if Ascii.eqb c d then Some r else None | [] => None end.

(** Name, value and rest of one parameter. *)
Definition consumeMediaParam (l : list ascii) : option (list ascii * list ascii * list ascii) :=
  r1 ← eat ";" (trim_left_space l);
  let '(param, r2) := consumeToken (trim_left_space r1) in
  match param with
  | [] => None
  | _ =>
    r3 ← eat "=" (trim_left_space r2);
    let r3 := trim_left_space r3 in
    let '(value, r4) := consumeValue r3 in
    if bool_decide (value = []) && bool_decide (r4 = r3) then None
    else Some (map lower_char param, value, r4)
  end.

(** The parameters after the media type; every round drops a semicolon at least. *)
Fixpoint check_params (fuel : nat) (l : list ascii) (seen : gmap string string) : bool :=
  match fuel with
  | O => false
  | S fuel =>
    match trim_left_space l with
    | [] => true
    | l' =>
      match consumeMediaParam l' with
      | None => String.eqb (TrimSpace (str l')) ";"
      | Some (key, value, rest) =>
        match seen !! str key with
        | Some v => if String.eqb v (str value) then check_params fuel rest seen else false
        | None => check_params fuel rest (<[str key := str value]> seen)
        end
      end
    end
  end.

Definition checkMediaType (l : list ascii) : bool :=
  let '(typ, rest) := consumeToken l in
  match typ, rest with
  | [], _ => false
  | _, [] => true
  | _, c :: r =>
    if negb (Ascii.eqb c "/") then false else
    let '(subtype, rest) := consumeToken r in
    negb (bool_decide (subtype = [])) && bool_decide (rest = [])
  end.

(** The media type, or [None] for an error. *)
Definition ParseMediaType (v : string) : option string :=
  let base := hd [] (split_chars ";" (chars v)) in
  let mediatype := TrimSpace (ToLower (str base)) in
  if negb (checkMediaType (chars mediatype)) then None else
  let rest := drop (length base) (chars v) in
  if check_params (S (length rest)) rest ∅ then Some mediatype else None.

Example media_1 : ParseMediaType "Text/HTML; charset=utf-8" = Some "text/html". Proof. vm_compute. reflexivity. Qed.
Example media_2 : ParseMediaType "text/html; charset" = None. Proof. vm_compute. reflexivity. Qed.
Example media_3 : ParseMediaType "text/html;" = Some "text/html". Proof. vm_compute. reflexivity. Qed.
Example media_4 : ParseMediaType "text/html ; a=b ; a=c" = None. Proof. vm_compute. reflexivity. Qed.
Example media_5 : ParseMediaType "" = None. Proof. vm_compute. reflexivity. Qed.
