(* ===== verification/Storage.v ===== *)
(** * Storage adapters: object paths and the local adapter

    Models internal/storage/adapter.go: the canonical form of an object path and
    [LocalAdapter.Upload] on top of the local uploader.  The adapters that talk to
    S3 and Auren Storage over HTTP are outcomes of the executor's environment. *)
From S2P Require Import Prelude GoStrings GoPath GoFS Upload.

Definition DriverAurenStorage : string := "auren_storage".
Definition DriverS3 : string := "s3".

Record UploadRequest := mkUploadRequest {
  sr_SourcePath : string; sr_ObjectPath : string; sr_BucketUUID : string; sr_Bucket : string;
  sr_DirectoryPath : string; sr_RelativePath : string; sr_Visibility : string; sr_MimeType : string;
  sr_ChecksumAlgorithm : string; sr_ChecksumSHA256 : string; sr_Metadata : gmap string string
}.
Record UploadPartResult := mkUploadPart { up_Number : Z; up_Size : Z; up_ChecksumSHA256 : string; up_ETag : string }.
Record UploadResult := mkUploadResult {
  res_Adapter : string; res_Driver : string; res_BucketUUID : string; res_Bucket : string;
  res_ObjectUUID : string; res_ObjectPath : string; res_Location : string; res_BytesWritten : Z;
  res_ChecksumSHA256 : string; res_Visibility : string; res_MimeType : string; res_Multipart : bool;
  res_Parts : list UploadPartResult; res_Metadata : gmap string string
}.

Definition slashes (s : string) : string := ReplaceAll s "\" "/".

Definition NormalizeObjectPath (objectPath : string) : result string :=
  let trimmed := TrimSpace (slashes objectPath) in
  if String.eqb trimmed "" then Err (Errorf "storage object path is required") else
  if HasPrefix trimmed "/" then Err (Errorf "storage object path must be relative") else
  let cleaned := Clean trimmed in
  if String.eqb cleaned "." || String.eqb cleaned ".." || HasPrefix cleaned "../"
  then Err (Errorf "storage object path escapes root") else Ok cleaned.

Definition CanonicalObjectPath (request : UploadRequest) : result string :=
  if negb (String.eqb (TrimSpace (sr_ObjectPath request)) "") then NormalizeObjectPath (sr_ObjectPath request) else
  let dir := TrimChar slash (slashes (sr_DirectoryPath request)) in
  let relative := TrimChar slash (slashes (sr_RelativePath request)) in
  if String.eqb relative "" then Err (Errorf "storage relative path is required when object_path is empty") else
  if String.eqb dir "" then NormalizeObjectPath relative
  else NormalizeObjectPath (Join2 dir relative).

Definition ValidateUploadRequest (request : UploadRequest) : result unit :=
  if String.eqb (TrimSpace (sr_SourcePath request)) "" then Err (Errorf "storage source path is required")
  else _ ← CanonicalObjectPath request; Ok tt.

Definition NewLocalAdapter (localPath : string) : result LocalUploader := NewLocalUploader localPath.

(** [LocalAdapter.Upload]; the progress callback is left to the executor. *)
Definition AdapterUpload (adapter : LocalUploader) (env : upload_env) (request : UploadRequest) (fs : FS)
  : result UploadResult * FS :=
  match CanonicalObjectPath request with
  | Err e => (Err e, fs)
  | Ok objectPath =>
    match Upload adapter env (mkRequest (sr_SourcePath request) objectPath (sr_Metadata request)) fs with
    | (Err e, fs) => (Err e, fs)
    | (Ok r, fs) =>
      (Ok (mkUploadResult DriverLocal DriverLocal (sr_BucketUUID request) (sr_Bucket request) "" objectPath
             (ResDestinationPath r) (ResBytesWritten r) (sr_ChecksumSHA256 request)
             (sr_Visibility request) (sr_MimeType request) (Multipart r) [] (sr_Metadata request)), fs)
    end
  end.

Lemma TrimLeftChar_relative p : HasPrefix p "/" = false -> TrimLeftChar slash p = p.
Proof.
  intros H. destruct p as [|c p]; [done|]. unfold HasPrefix, TrimLeftChar in *. cbn [chars drop_char is_prefix] in *.
  destruct (Ascii.eqb_spec slash c) as [<-|]; [done|]. apply (str_chars (String c p)).
Qed.

(** ** Object paths stay inside the store *)

(** An object stored through the local adapter lies strictly inside the adapter's
    root, whatever object path, directory and relative path the job names; its
    content is that of the source file, and no other file changes. *)
Theorem AdapterUpload_confined localPath adapter env request fs res fs' :
  NewLocalAdapter localPath = Ok adapter ->
  AdapterUpload adapter env request fs = (Ok res, fs') -> res_Location res <> sr_SourcePath request ->
  (exists added, added <> [] /\ Forall plain added /\
     path_stack (res_Location res) = added ++ path_stack (root adapter)) /\
  (exists content, fs !! sr_SourcePath request = Some content /\
     fs' !! res_Location res = Some content /\ res_BytesWritten res = slen content) /\
  forall p, p <> res_Location res -> fs' !! p = fs !! p.
Proof.
  intros Ha HU Hne. unfold AdapterUpload in HU.
  destruct (CanonicalObjectPath request) as [op|]; [|done].
  destruct (Upload _ _ _ _) as [[r|] fs1] eqn:EU; [|done]. injection HU as <- <-. cbn [res_Location res_BytesWritten] in *.
  destruct (Upload_stores _ _ _ _ _ _ EU Hne) as (HR & HC & HO). split_and!; [|done|done].
  destruct (resolved_inside localPath adapter op _ Ha HR) as (added & H1 & H2 & _ & H3). eauto.
Qed.

Lemma AdapterUpload_confined_witness :
  path_stack "store/movies/a.ts" = [chars "a.ts"; chars "movies"] ++ path_stack "store" /\
  exists added, added <> [] /\ path_stack "store/movies/a.ts" = added ++ path_stack "store".
Proof.
  destruct (AdapterUpload_confined "./store" (mkLocalUploader "store") upload_ok
    (mkUploadRequest "tmp/x" "" "" "" "\movies\" "/./a.ts" "" "" "" "c" ∅) {["tmp/x" := "data"]}
    (mkUploadResult "local" "local" "" "" "" "movies/a.ts" "store/movies/a.ts" 4 "c" "" "" false [] ∅)
    (<["store/movies/a.ts" := "data"]> {["tmp/x" := "data"]})) as ((added & H1 & _ & H2) & _ & _).
  - vm_compute. reflexivity.
  - vm_compute. reflexivity.
  - discriminate.
  - split; [reflexivity|]. exists added. split; [exact H1|exact H2].
Defined.
