(* ===== verification/Ops.v ===== *)
(** * Operational hardening

    Models internal/ops/runtime.go: the drain switch and its marker file, the
    admission decisions for job claims and gateway sessions, the disk guard and
    the dead letters.  The outcome of every system call is an argument; the
    settings are the fields of [config.MediaHubConfig] this package reads. *)
From S2P Require Import Prelude GoStrings GoTime GoPath GoFS.

Definition RuntimeName : string := "operational_hardening_v1".
Definition DecisionAllowed : string := "allowed".
Definition DecisionDrain : string := "drain".
Definition DecisionCapacity : string := "capacity".
Definition DecisionDisk : string := "disk_pressure".
Definition DecisionSessions : string := "session_pressure".
Definition DecisionEgress : string := "egress_pressure".

Record OpsConfig := mkOpsConfig {
  DrainEnabled : bool; DrainFile : string;
  BackpressureEnabled : bool; CfgMaxSessions : Z; CfgMaxEgressMbps : Z;
  DiskGuardEnabled : bool; DiskMinFreeBytes : Z; CfgWorkDir : string;
  DeadLetterEnabled : bool; DeadLetterDir : string;
  LeaseRenewalEnabled : bool; SecretRotationEnabled : bool
}.

Record Runtime := mkRuntime { cfg : OpsConfig; manualDrain : bool; drainReason : string }.
Definition NewRuntime (c : OpsConfig) : Runtime := mkRuntime c false "".

Record ClaimSnapshot := mkClaimSnapshot {
  ActiveJobs : Z; MaxConcurrentJobs : Z; ActiveSessions : Z; MaxSessions : Z;
  CurrentEgressMbps : Z; MaxEgressMbps : Z; WorkDir : string
}.

Record AdmissionDecision := mkDecision {
  Allowed : bool; Reason : string; Message : string; FreeBytes : Z; MinFreeBytes : Z
}.
Definition allow : AdmissionDecision := mkDecision true DecisionAllowed "" 0 0.
Definition deny (reason message : string) : AdmissionDecision := mkDecision false reason message 0 0.

(** ** Helpers *)
Fixpoint firstPositive (values : list Z) : Z :=
  match values with
  | [] => 0
  | v :: rest => if 0 <? v then v else firstPositive rest
  end.

(** [strings.NewReplacer] with one-byte patterns maps every byte on its own. *)
Definition safe_char (c : ascii) : ascii :=
  if bool_decide (c ∈ chars "/\: ") then "_"%char else c.
Definition safeFileName (value : string) : string :=
  let value := TrimSpace value in
  if String.eqb value "" then "unknown" else str (map safe_char (chars value)).

(** ** Drain *)
Definition Enabled (runtime : Runtime) : bool :=
  let c := cfg runtime in
  DrainEnabled c || BackpressureEnabled c || DiskGuardEnabled c || DeadLetterEnabled c ||
  LeaseRenewalEnabled c || SecretRotationEnabled c.

Definition RequestDrain (reason : string) (runtime : Runtime) : Runtime :=
  let reason := TrimSpace reason in
  mkRuntime (cfg runtime) true (if String.eqb reason "" then "manual" else reason).

Definition ClearDrain (runtime : Runtime) : Runtime := mkRuntime (cfg runtime) false "".

(** What the system answers: reading the marker file, creating a directory, and
    [Statfs] as the pair of [Bavail] and [Bsize]. *)
Record ops_env := mkOpsEnv {
  o_files : FS;
  o_read : option error;
  o_mkdir : string -> option error;
  o_statfs : string -> result (Z * Z)
}.

Definition DrainRequested (env : ops_env) (runtime : Runtime) : bool * string :=
  if negb (DrainEnabled (cfg runtime)) then (false, "") else
  if manualDrain runtime then (true, firstNonEmpty [drainReason runtime; "manual"]) else
  let marker := TrimSpace (DrainFile (cfg runtime)) in
  if String.eqb marker "" then (false, "") else
  match ReadFile (o_read env) marker (o_files env) with
  | Ok payload => (true, firstNonEmpty [TrimSpace payload; "marker_file"])
  | Err _ => (false, "")
  end.

(** ** Admission *)
Definition wrapu64 (z : Z) : Z := z `mod` 2 ^ 64.

Definition DiskFreeBytes (env : ops_env) (path : string) : result Z :=
  let target := TrimSpace path in
  let target := if String.eqb target "" then "." else target in
  match o_mkdir env target with
  | Some e => Err e
  | None =>
    '(bavail, bsize) ← o_statfs env target;
    Ok (wrapu64 (bavail * wrapu64 bsize))
  end.

(** The session and egress checks the two admission functions share. *)
Definition backpressure (c : OpsConfig) (s : ClaimSnapshot) : option AdmissionDecision :=
  if negb (BackpressureEnabled c) then None else
  let maxSessions := firstPositive [MaxSessions s; CfgMaxSessions c] in
  if (0 <? maxSessions) && (maxSessions <=? ActiveSessions s)
  then Some (deny DecisionSessions "max active sessions reached") else
  let maxEgress := firstPositive [MaxEgressMbps s; CfgMaxEgressMbps c] in
  if (0 <? maxEgress) && (maxEgress <=? CurrentEgressMbps s)
  then Some (deny DecisionEgress "max egress mbps reached") else None.

Definition disk_guard (env : ops_env) (c : OpsConfig) (s : ClaimSnapshot) : option AdmissionDecision :=
  if negb (DiskGuardEnabled c) then None else
  match DiskFreeBytes env (firstNonEmpty [WorkDir s; CfgWorkDir c; "."]) with
  | Err e => Some (deny DecisionDisk (Error e))
  | Ok disk =>
    if (0 <? DiskMinFreeBytes c) && (wrap64 disk <? DiskMinFreeBytes c)
    then Some (mkDecision false DecisionDisk "free disk below configured minimum" disk (DiskMinFreeBytes c))
    else None
  end.

Definition CanClaim (env : ops_env) (runtime : Runtime) (s : ClaimSnapshot) : AdmissionDecision :=
  let '(drain, reason) := DrainRequested env runtime in
  if drain then deny DecisionDrain (firstNonEmpty [reason; "node is draining"]) else
  if (0 <? MaxConcurrentJobs s) && (MaxConcurrentJobs s <=? ActiveJobs s)
  then deny DecisionCapacity "max concurrent jobs reached" else
  match backpressure (cfg runtime) s with
  | Some d => d
  | None => match disk_guard env (cfg runtime) s with Some d => d | None => allow end
  end.

Definition CanAcceptGatewaySession (env : ops_env) (runtime : Runtime) (s : ClaimSnapshot)
  : AdmissionDecision :=
  let '(drain, reason) := DrainRequested env runtime in
  if drain then deny DecisionDrain (firstNonEmpty [reason; "node is draining"]) else
  match backpressure (cfg runtime) s with Some d => d | None => allow end.

(** The diagnostic map of [Snapshot]: its boolean and its string entries. *)
Definition RuntimeSnapshot (env : ops_env) (runtime : Runtime) (s : ClaimSnapshot)
  : gmap string (bool + string) :=
  let decision := CanClaim env runtime s in
  let '(drain, reason) := DrainRequested env runtime in
  let c := cfg runtime in
  list_to_map [
    ("runtime", inr RuntimeName); ("enabled", inl (Enabled runtime));
    ("drain_requested", inl drain); ("drain_reason", inr reason);
    ("claim_allowed", inl (Allowed decision)); ("claim_reason", inr (Reason decision));
    ("disk_guard_enabled", inl (DiskGuardEnabled c)); ("dead_letter_enabled", inl (DeadLetterEnabled c));
    ("lease_renewal_enabled", inl (LeaseRenewalEnabled c));
    ("backpressure_enabled", inl (BackpressureEnabled c));
    ("secret_rotation_enabled", inl (SecretRotationEnabled c))].

(** ** Dead letters *)
Section DeadLetters.
(** The type of the payload of a job, and [json.MarshalIndent] on dead letters. *)
Context {P : Type}.

Record DeadLetter := mkDeadLetter {
  ID : string; JobUUID : string; Operation : string; Stage : string; LetterError : string;
  Retryable : bool; Payload : P; CreatedAt : Time
}.
Context (MarshalIndent : DeadLetter -> result string).

Definition set_stamp (id : string) (t : Time) (l : DeadLetter) : DeadLetter :=
  mkDeadLetter id (JobUUID l) (Operation l) (Stage l) (LetterError l) (Retryable l) (Payload l) t.

Definition dead_letter_dir (c : OpsConfig) : string :=
  let dir := TrimSpace (DeadLetterDir c) in
  if String.eqb dir "" then Join2 (firstNonEmpty [CfgWorkDir c; "./data/transfer"]) "dead-letter" else dir.

Definition dead_letter_name (l : DeadLetter) : string :=
  stamp (CreatedAt l) +:+ "-" +:+ safeFileName (firstNonEmpty [JobUUID l; ID l]) +:+ ".json".

(** [StoreDeadLetter]: [rand] is what [randomHex] yields, [write] the outcome of
    [os.WriteFile], which opens the file or fails, and then writes everything or
    fails after some bytes. *)
Definition StoreDeadLetter (runtime : Runtime) (mkdir : option error) (rand : string) (now : Time)
  (open : option error) (write : option (nat * error)) (letter : DeadLetter) (fs : FS)
  : (string * option error) * FS :=
  if negb (DeadLetterEnabled (cfg runtime)) then (("", None), fs) else
  let dir := dead_letter_dir (cfg runtime) in
  match mkdir with
  | Some e => (("", Some e), fs)
  | None =>
    let id := if String.eqb (TrimSpace (ID letter)) "" then rand else ID letter in
    let letter := set_stamp id (or_now (CreatedAt letter) now) letter in
    let path := Join2 dir (dead_letter_name letter) in
    match MarshalIndent letter with
    | Err e => (("", Some e), fs)
    | Ok payload =>
      match open with
      | Some e => (("", Some e), fs)
      | None =>
        match write with
        | Some (k, e) => (("", Some e), <[path := str (take k (chars payload))]> fs)
        | None => ((path, None), <[path := payload]> fs)
        end
      end
    end
  end.
End DeadLetters.
Arguments DeadLetter P : clear implicits.

(** ** Admission, declaratively *)

(** The node is draining: asked to, or its marker file can be read. *)
Definition draining (env : ops_env) (runtime : Runtime) : Prop :=
  DrainEnabled (cfg runtime) = true /\
  (manualDrain runtime = true \/
   TrimSpace (DrainFile (cfg runtime)) <> "" /\ o_read env = None /\
   is_Some (o_files env !! TrimSpace (DrainFile (cfg runtime)))).

(** A limit that is not positive does not limit. *)
Definition below (used limit : Z) : Prop := 0 < limit -> used < limit.

(** The limit in force: the one of the snapshot when positive, else the configured one. *)
Definition in_force (own configured : Z) : Z := if 0 <? own then own else configured.

Definition within_backpressure (c : OpsConfig) (s : ClaimSnapshot) : Prop :=
  BackpressureEnabled c = true ->
  below (ActiveSessions s) (in_force (MaxSessions s) (CfgMaxSessions c)) /\
  below (CurrentEgressMbps s) (in_force (MaxEgressMbps s) (CfgMaxEgressMbps c)).

Definition disk_healthy (env : ops_env) (c : OpsConfig) (s : ClaimSnapshot) : Prop :=
  DiskGuardEnabled c = true ->
  exists disk, DiskFreeBytes env (firstNonEmpty [WorkDir s; CfgWorkDir c; "."]) = Ok disk /\
    (0 < DiskMinFreeBytes c -> DiskMinFreeBytes c <= wrap64 disk).

Lemma DrainRequested_spec env runtime :
  (DrainRequested env runtime).1 = true <-> draining env runtime.
Proof.
  unfold DrainRequested, draining, ReadFile.
  destruct (DrainEnabled _); simpl; [|naive_solver].
  destruct (manualDrain _); simpl; [naive_solver|].
  destruct (String.eqb_spec (TrimSpace (DrainFile (cfg runtime))) ""); [naive_solver|].
  destruct (o_read env); simpl; [naive_solver|].
  destruct (o_files env !! _); simpl; [|by split; [|intros (_ & [|(_ & _ & [])])]].
  split; eauto 10.
Qed.

Lemma below_check used own configured :
  let limit := firstPositive [own; configured] in
  ((0 <? limit) && (limit <=? used) = false) <-> below used (in_force own configured).
Proof. unfold below, in_force. simpl. repeat case_match; lia. Qed.

Lemma backpressure_spec c s : backpressure c s = None <-> within_backpressure c s.
Proof.
  unfold backpressure, within_backpressure. rewrite <- !below_check.
  destruct (BackpressureEnabled c); simpl negb; [|naive_solver]. cbv zeta.
  destruct (_ && _) eqn:E1, ((0 <? firstPositive [MaxEgressMbps s; _]) && _) eqn:E2; naive_solver.
Qed.

Lemma disk_guard_spec env c s : disk_guard env c s = None <-> disk_healthy env c s.
Proof.
  unfold disk_guard, disk_healthy. destruct (DiskGuardEnabled c); simpl negb; [|naive_solver]. cbv iota.
  destruct (DiskFreeBytes _ _) as [disk|e]; [|naive_solver].
  destruct (_ && _) eqn:E; split; try done.
  - intros (d & [= <-] & H)%(fun f => f eq_refl). lia.
  - intros _ _. exists disk. split; [done|lia].
Qed.

Lemma backpressure_denies c s d : backpressure c s = Some d -> Allowed d = false.
Proof. unfold backpressure. repeat case_match; naive_solver. Qed.

Lemma disk_guard_denies env c s d : disk_guard env c s = Some d -> Allowed d = false.
Proof. unfold disk_guard. repeat case_match; naive_solver. Qed.

Lemma CanClaim_allowed env runtime s : Allowed (CanClaim env runtime s) = true <->
  ~ draining env runtime /\ below (ActiveJobs s) (MaxConcurrentJobs s) /\
  within_backpressure (cfg runtime) s /\ disk_healthy env (cfg runtime) s.
Proof.
  unfold CanClaim. pose proof (DrainRequested_spec env runtime) as HD.
  destruct (DrainRequested env runtime) as [[] reason]; simpl in *; [naive_solver|].
  assert (~ draining env runtime) by naive_solver. clear HD.
  pose proof (backpressure_spec (cfg runtime) s) as HB. pose proof (disk_guard_spec env (cfg runtime) s) as HG.
  destruct (_ && _) eqn:E; simpl.
  { split; [done|]. unfold below. intros (_ & ? & _). lia. }
  assert (below (ActiveJobs s) (MaxConcurrentJobs s)) by (unfold below; lia).
  destruct (backpressure _ _) eqn:EB; [apply backpressure_denies in EB as ->; naive_solver|].
  destruct (disk_guard _ _ _) eqn:EG; [apply disk_guard_denies in EG as ->; naive_solver|].
  naive_solver.
Qed.

Lemma CanAccept_allowed env runtime s : Allowed (CanAcceptGatewaySession env runtime s) = true <->
  ~ draining env runtime /\ within_backpressure (cfg runtime) s.
Proof.
  unfold CanAcceptGatewaySession. pose proof (DrainRequested_spec env runtime) as HD.
  destruct (DrainRequested env runtime) as [[] reason]; simpl in *; [naive_solver|].
  assert (~ draining env runtime) by naive_solver. pose proof (backpressure_spec (cfg runtime) s).
  destruct (backpressure _ _) eqn:EB; [apply backpressure_denies in EB as ->; naive_solver|].
  naive_solver.
Qed.

(** A job claim is admitted exactly when the node is not draining, the running
    jobs are below the maximum, sessions and egress are below the limits in force
    when backpressure is on, and the disk has the configured room when the disk
    guard is on; a gateway session exactly when the node is not draining and
    backpressure permits, so a node that may claim may also accept sessions. *)
Theorem admission_spec env runtime s :
  (Allowed (CanClaim env runtime s) = true <->
     ~ draining env runtime /\ below (ActiveJobs s) (MaxConcurrentJobs s) /\
     within_backpressure (cfg runtime) s /\ disk_healthy env (cfg runtime) s) /\
  (Allowed (CanAcceptGatewaySession env runtime s) = true <->
     ~ draining env runtime /\ within_backpressure (cfg runtime) s).
Proof. split; [apply CanClaim_allowed|apply CanAccept_allowed]. Qed.

(** ** Draining over time *)
Inductive drain_op := OpRequest (reason : string) | OpClear | OpClaim (s : ClaimSnapshot) | OpAccept (s : ClaimSnapshot).

(** One call, with its decision if it makes one. *)
Definition drain_step (env : ops_env) (o : drain_op) (runtime : Runtime)
  : option AdmissionDecision * Runtime :=
  match o with
  | OpRequest reason => (None, RequestDrain reason runtime)
  | OpClear => (None, ClearDrain runtime)
  | OpClaim s => (Some (CanClaim env runtime s), runtime)
  | OpAccept s => (Some (CanAcceptGatewaySession env runtime s), runtime)
  end.

(** The decisions along a sequence of calls, each with the system it ran on. *)
Fixpoint drain_run (ops : list (ops_env * drain_op)) (runtime : Runtime) : list AdmissionDecision :=
  match ops with
  | [] => []
  | (env, o) :: rest =>
    let '(d, runtime) := drain_step env o runtime in
    option_list d ++ drain_run rest runtime
  end.

Lemma manual_drain_denies env runtime s :
  DrainEnabled (cfg runtime) = true -> manualDrain runtime = true -> drainReason runtime <> "" ->
  TrimSpace (drainReason runtime) = drainReason runtime ->
  CanClaim env runtime s = deny DecisionDrain (drainReason runtime) /\
  CanAcceptGatewaySession env runtime s = deny DecisionDrain (drainReason runtime).
Proof.
  intros HE HM HR HT. unfold CanClaim, CanAcceptGatewaySession, DrainRequested. rewrite HE, HM.
  cbn [negb firstNonEmpty]. rewrite HT. rewrite (proj2 (String.eqb_neq _ _) HR).
  cbn [firstNonEmpty]. rewrite HT. by rewrite (proj2 (String.eqb_neq _ _) HR).
Qed.

(** Once a drain is requested on a node with draining enabled, every claim and
    every session is refused with the drain's reason, whatever the load, the disk
    and the files, for as long as the drain is not cleared or replaced. *)
Theorem drain_blocks_until_cleared env0 reason ops runtime :
  DrainEnabled (cfg runtime) = true ->
  Forall (fun x => match x.2 with OpClear | OpRequest _ => False | _ => True end) ops ->
  Forall (fun d => d = deny DecisionDrain (firstNonEmpty [reason; "manual"]))
    (drain_run ((env0, OpRequest reason) :: ops) runtime).
Proof.
  intros HE HF. set (r := RequestDrain reason runtime).
  change (drain_run _ runtime) with (drain_run ops r).
  assert (drainReason r = firstNonEmpty [reason; "manual"] /\ drainReason r <> "" /\
          TrimSpace (drainReason r) = drainReason r) as (<- & HR & HT).
  { unfold r, RequestDrain. cbn. destruct (String.eqb_spec (TrimSpace reason) ""); [done|].
    split_and!; [done|done|apply TrimSpace_idemp]. }
  induction HF as [|[env o] ops Ho HF IH]; [done|]. simpl.
  destruct o as [| |s|s]; try done; simpl; constructor; try done;
    by apply manual_drain_denies.
Qed.

(** ** Dead letters *)
Definition no_slash (l : list ascii) : Prop := slash ∉ l.

(** Decide that a literal has no slash. *)
Ltac literal_no_slash :=
  match goal with
  | |- no_slash ?l => refine (bool_decide_unpack (slash ∉ l) _); vm_compute; exact I
  | H : slash ∈ ?l |- _ =>
    exfalso; revert H; refine (bool_decide_unpack (slash ∉ l) _); vm_compute; exact I
  end.

Lemma pretty_N_go_no_slash x s : no_slash (chars s) -> no_slash (chars (pretty_N_go x s)).
Proof.
  revert s. induction (N.lt_wf_0 x) as [x _ IH]; intros s Hs.
  destruct (decide (0 < x)%N) as [Hx|Hx].
  - rewrite pretty_N_go_step by done. apply IH; [apply N.div_lt; lia|].
    unfold no_slash. cbn [chars]. intros [E|E]%elem_of_cons; [|by apply Hs].
    revert E. unfold slash, pretty_N_char. repeat case_match; discriminate.
  - assert (x = 0%N) as -> by lia. by rewrite pretty_N_go_0.
Qed.

Lemma Itoa_no_slash n : no_slash (chars (Itoa n)).
Proof.
  assert (forall m : N, no_slash (chars (pretty m))) as HN.
  { intros m. unfold pretty, pretty_N. case_decide; [literal_no_slash|].
    apply pretty_N_go_no_slash. literal_no_slash. }
  unfold Itoa. destruct n as [|p|p]; [literal_no_slash|apply (HN (Npos p))|].
  change (pretty (Z.neg p)) with ("-" +:+ pretty (Npos p)). unfold no_slash. rewrite chars_app, elem_of_app.
  intros [E|E]; [literal_no_slash|by apply (HN (Npos p))].
Qed.

Lemma pad_no_slash w n : no_slash (pad w n).
Proof.
  unfold pad, no_slash. rewrite !elem_of_app. intros [E|[E|E]].
  - destruct (n <? 0); unfold slash in *; set_solver.
  - apply elem_of_replicate in E as [E _]. discriminate.
  - by apply Itoa_no_slash in E.
Qed.

Lemma safeFileName_no_slash v : no_slash (chars (safeFileName v)).
Proof.
  unfold safeFileName. destruct (String.eqb _ _).
  { literal_no_slash. }
  rewrite chars_str. unfold no_slash. intros (c & E & _)%list_elem_of_fmap. unfold safe_char in E.
  case_bool_decide as H; [discriminate|]. subst c. apply H. refine (bool_decide_unpack (slash ∈ chars "/\: ") _). vm_compute. exact I.
Qed.

Lemma stamp_no_slash t : no_slash (chars (stamp t)).
Proof.
  unfold stamp, no_slash. destruct (civil _) as [[y m] d]. rewrite chars_str, !elem_of_app.
  intros HE. destruct_or! HE; try (by apply pad_no_slash in HE); literal_no_slash.
Qed.

(** The name of a dead letter is one path component: no caller-supplied id or job
    id can place it outside its directory. *)
Lemma dead_letter_name_plain {P} (l : DeadLetter P) : plain (chars (dead_letter_name l)).
Proof.
  assert (exists k, chars (dead_letter_name l) = k ++ chars ".json") as [k Hk].
  { unfold dead_letter_name. rewrite !chars_app, !app_assoc. eauto. }
  assert (length (chars (dead_letter_name l)) >= 5)%nat as HL by (rewrite Hk, length_app; cbn; lia).
  split_and!.
  - intros E. rewrite E in HL. cbn in HL. lia.
  - intros E. rewrite E in HL. cbn in HL. lia.
  - intros E. rewrite E in HL. cbn in HL. lia.
  - unfold dead_letter_name. rewrite !chars_app, !elem_of_app. intros HE. destruct_or! HE.
    + by apply stamp_no_slash in HE.
    + literal_no_slash.
    + by apply safeFileName_no_slash in HE.
    + literal_no_slash.
Qed.

Lemma dead_letter_dir_nonempty c : dead_letter_dir c <> "".
Proof.
  unfold dead_letter_dir. destruct (String.eqb_spec (TrimSpace (DeadLetterDir c)) ""); [|done].
  set (w := firstNonEmpty _).
  assert (w <> "") as Hw.
  { unfold w. cbn [firstNonEmpty]. destruct (String.eqb_spec (TrimSpace (CfgWorkDir c)) ""); [|done].
    vm_compute. discriminate. }
  assert (plain (chars "dead-letter")) as Hp.
  { split_and!; [discriminate..|]. change (no_slash (chars "dead-letter")). literal_no_slash. }
  pose proof (Join2_child w _ Hw Hp) as [E _]. rewrite str_chars in E.
  intros E0. rewrite E0 in E. discriminate E.
Qed.

(** A dead letter that is stored ends up in a file directly inside the dead
    letter directory, whatever the ids of the job and the letter, with the
    encoding of the stamped letter as its content; no other file changes.  A
    failed store changes no other file than that one. *)
Theorem StoreDeadLetter_confined {P} (MarshalIndent : DeadLetter P -> result string)
  runtime mkdir rand now open write letter fs path err fs' :
  DeadLetterEnabled (cfg runtime) = true ->
  StoreDeadLetter MarshalIndent runtime mkdir rand now open write letter fs = ((path, err), fs') ->
  exists stored name, plain name /\
    JobUUID stored = JobUUID letter /\ LetterError stored = LetterError letter /\
    Payload stored = Payload letter /\
    let target := Join2 (dead_letter_dir (cfg runtime)) (str name) in
    path_stack target = name :: path_stack (dead_letter_dir (cfg runtime)) /\
    match err with
    | None => path = target /\ exists payload, MarshalIndent stored = Ok payload /\ fs' = <[path := payload]> fs
    | Some _ => path = "" /\ forall p, p <> target -> fs' !! p = fs !! p
    end.
Proof.
  intros HE H. unfold StoreDeadLetter in H. rewrite HE in H. cbn [negb] in H. cbv zeta in H.
  set (stored := set_stamp (if String.eqb (TrimSpace (ID letter)) "" then rand else ID letter)
    (or_now (CreatedAt letter) now) letter) in *.
  exists stored, (chars (dead_letter_name stored)). split; [apply dead_letter_name_plain|].
  split_and!; [done..|]. cbv zeta. rewrite str_chars. split.
  { pose proof (Join2_child (dead_letter_dir (cfg runtime)) _ (dead_letter_dir_nonempty _)
      (dead_letter_name_plain stored)) as [E _]. by rewrite str_chars in E. }
  destruct mkdir; [by simplify_eq|]. destruct (MarshalIndent stored) as [payload|e] eqn:EM; [|by simplify_eq].
  destruct open; [by simplify_eq|]. destruct write as [[k e]|]; simplify_eq; [|by eauto].
  split; [done|]. intros p Hp. by rewrite lookup_insert_ne.
Qed.

(** ** Examples *)
Definition sample_ops : OpsConfig :=
  mkOpsConfig true "data/drain" true 10 0 true 1000 "data" true "" false false.
Definition sample_ops_env : ops_env := mkOpsEnv ∅ None (fun _ => None) (fun _ => Ok (1000, 4096)).
Definition sample_load : ClaimSnapshot := mkClaimSnapshot 1 4 2 0 0 0 "".

Example sample_admitted :
  CanClaim sample_ops_env (NewRuntime sample_ops) sample_load = allow.
Proof. vm_compute. reflexivity. Qed.

Lemma drain_blocks_until_cleared_witness :
  Forall (fun d => d = deny DecisionDrain "upgrade")
    (drain_run [(sample_ops_env, OpRequest " upgrade "); (sample_ops_env, OpClaim sample_load);
                (sample_ops_env, OpAccept sample_load)] (NewRuntime sample_ops)).
Proof.
  apply (drain_blocks_until_cleared sample_ops_env " upgrade " [(sample_ops_env, OpClaim sample_load);
    (sample_ops_env, OpAccept sample_load)] (NewRuntime sample_ops)).
  - reflexivity.
  - repeat constructor.
Defined.

Definition sample_letter : DeadLetter unit :=
  mkDeadLetter "" "../../etc/cron" "transfer" "download" "boom" true tt 0.
Definition sample_marshal (l : DeadLetter unit) : result string := Ok (JobUUID l).

Lemma StoreDeadLetter_confined_witness : exists stored name, plain name /\
  JobUUID stored = "../../etc/cron" /\
  path_stack "data/dead-letter/20231114T221320.000000000Z-.._.._etc_cron.json" =
    name :: path_stack "data/dead-letter" /\
  exists payload, sample_marshal stored = Ok payload.
Proof.
  destruct (StoreDeadLetter_confined sample_marshal (NewRuntime sample_ops) None "ab"
    ((62135596800 + 1700000000) * second) None None sample_letter ∅
    "data/dead-letter/20231114T221320.000000000Z-.._.._etc_cron.json" None
    {["data/dead-letter/20231114T221320.000000000Z-.._.._etc_cron.json" := "../../etc/cron"]})
    as (stored & name & H1 & H2 & _ & _ & H3 & E & payload & H4 & _).
  - reflexivity.
  - vm_compute. reflexivity.
  - exists stored, name. split; [exact H1|]. split; [exact H2|].
    split; [|exists payload; exact H4]. rewrite E. exact H3.
Defined.

(** The free space is compared after a conversion to [int64], so a file system with
    2^63 free bytes or more is reported as full. *)
Theorem huge_disk_is_refused :
  CanClaim (mkOpsEnv ∅ None (fun _ => None) (fun _ => Ok (2 ^ 51, 4096))) (NewRuntime sample_ops) sample_load =
  mkDecision false DecisionDisk "free disk below configured minimum" (2 ^ 63) 1000.
Proof. vm_compute. reflexivity. Qed.
