(* ===== verification/Transfer.v ===== *)
(** * Transfer jobs: contract, tracking, local state and claiming

    Models internal/mediahub/transfer_payloads.go (the job contract), and of
    internal/transfer: stats.go (the tracker of running jobs), state.go (the
    per-job recovery files), manager.go (one claim) and the conversion of
    handler.go.  A clock reading is an argument of the operation that makes it. *)
From Stdlib Require Import SpecFloat.
From S2P Require Import Prelude GoStrings GoPath GoFloat GoJson GoFS Identity Job Worker Ops NodeState.

(** ** mediahub/transfer_payloads.go *)
Record TransferSource := mkTransferSource {
  URL : string; Headers : gmap string string; ResolverStrategy : string; FollowRedirects : bool;
  MaxRedirects : Z; ResumeEnabled : bool; MinBytes : Z; BlockHTML : bool; ExpectedSHA256 : string
}.
Record TransferDestination := mkTransferDestination {
  Driver : string; Endpoint : string; UploadURL : string; Token : string; TokenHeader : string;
  AccessKeyID : string; SecretAccessKey : string; SessionToken : string; ForcePathStyle : bool;
  BucketUUID : string; Bucket : string; DirectoryPath : string; RelativePath : string;
  ObjectPath : string; Visibility : string; MimeType : string; ChecksumAlgorithm : string;
  DestMetadata : gmap string string
}.
Record TransferControl := mkTransferControl {
  HeartbeatSeconds : Z; ProgressEventSeconds : Z; LeaseSeconds : Z; CtlMaxAttempts : Z
}.
Record TransferJob := mkTransferJob {
  UUID : string; TOperation : string; Source : TransferSource; Destination : TransferDestination;
  Control : TransferControl; JobContext : metadata; TMetadata : metadata
}.
Record Capacity := mkCapacity {
  c_MaxConcurrentJobs : Z; c_ActiveJobs : Z; c_MaxSessions : Z; c_ActiveSessions : Z;
  c_MaxEgressMbps : Z; c_CurrentEgressMbps : Z
}.
Record ClaimRequest := mkClaimRequest {
  Capabilities : list string; ReqCapacity : Capacity; AcceptedOperations : list string;
  ReqRegion : string; ClaimMetadata : metadata
}.
Record ClaimResponse := mkClaimResponse { Success : bool; ClaimedJob : TransferJob }.

Definition transfer_issues (job : TransferJob) : list string :=
  (if String.eqb (TrimSpace (UUID job)) "" then ["uuid is required"] else []) ++
  (if String.eqb (TrimSpace (TOperation job)) "" then ["operation is required"] else []) ++
  (if String.eqb (TrimSpace (URL (Source job))) "" then ["source.url is required"] else []) ++
  (if String.eqb (TrimSpace (Driver (Destination job))) "" then ["destination.driver is required"] else []).

Definition ValidateTransferJob (job : TransferJob) : result unit :=
  match transfer_issues job with
  | [] => Ok tt
  | issues => Err (Errorf ("transfer job validation failed: " +:+ Join issues "; "))
  end.

(** ** transfer/stats.go *)
Record ActiveJob := mkActiveJob {
  aj_UUID : string; aj_Operation : string; aj_Stage : string; aj_Message : string; aj_SourceURL : string;
  aj_DestinationDriver : string; aj_ObjectPath : string; aj_CurrentBytes : Z; aj_TotalBytes : Z;
  aj_SpeedBps : Z; aj_Percent : spec_float; aj_StartedAt : Time; aj_UpdatedAt : Time
}.
Record Tracker := mkTracker {
  maxConcurrentJobs : Z; active : gmap string ActiveJob; completed : Z; failed : Z
}.
Record Stats := mkStats {
  st_MaxConcurrentJobs : Z; st_ActiveJobs : Z; st_CompletedJobs : Z; st_FailedJobs : Z;
  st_ActiveJobDetails : list ActiveJob
}.

Definition NewTracker (max : Z) : Tracker := mkTracker (if max <=? 0 then 1 else max) ∅ 0 0.

Definition started_job (now : Time) (job : ActiveJob) : ActiveJob :=
  let started := or_now (aj_StartedAt job) now in
  mkActiveJob (aj_UUID job) (aj_Operation job) (aj_Stage job) (aj_Message job) (aj_SourceURL job)
    (aj_DestinationDriver job) (aj_ObjectPath job) (aj_CurrentBytes job) (aj_TotalBytes job)
    (aj_SpeedBps job) (aj_Percent job) started (or_now (aj_UpdatedAt job) started).

Definition set_active (a : gmap string ActiveJob) (t : Tracker) : Tracker :=
  mkTracker (maxConcurrentJobs t) a (completed t) (failed t).

Definition TryStartJob (now : Time) (job : ActiveJob) (t : Tracker) : bool * Tracker :=
  if maxConcurrentJobs t <=? Z.of_nat (size (active t)) then (false, t)
  else (true, set_active (<[aj_UUID job := started_job now job]> (active t)) t).

Definition fzero : spec_float := S754_zero false.
Definition TryStart (now : Time) (uuid : string) (t : Tracker) : bool * Tracker :=
  TryStartJob now (mkActiveJob uuid "" "" "" "" "" "" 0 0 0 fzero 0 0) t.

Definition keep (old new : string) : string := if String.eqb new "" then old else new.

Definition merge_job (now : Time) (current update : ActiveJob) : ActiveJob :=
  let moved := (0 <? aj_CurrentBytes update) || (0 <? aj_TotalBytes update) ||
               SFltb fzero (aj_Percent update) || (0 <? aj_SpeedBps update) in
  let bytes := if moved then update else current in
  mkActiveJob (aj_UUID current) (keep (aj_Operation current) (aj_Operation update))
    (keep (aj_Stage current) (aj_Stage update)) (keep (aj_Message current) (aj_Message update))
    (keep (aj_SourceURL current) (aj_SourceURL update))
    (keep (aj_DestinationDriver current) (aj_DestinationDriver update))
    (keep (aj_ObjectPath current) (aj_ObjectPath update))
    (aj_CurrentBytes bytes) (aj_TotalBytes bytes) (aj_SpeedBps bytes) (aj_Percent bytes)
    (aj_StartedAt current) now.

Definition UpdateJob (now : Time) (uuid : string) (update : ActiveJob) (t : Tracker) : Tracker :=
  if String.eqb uuid "" then t else
  match active t !! uuid with
  | None => t
  | Some current => set_active (<[uuid := merge_job now current update]> (active t)) t
  end.

Definition Finish (uuid : string) (success : bool) (t : Tracker) : Tracker :=
  mkTracker (maxConcurrentJobs t) (delete uuid (active t))
    (if success then wrap64 (completed t + 1) else completed t)
    (if success then failed t else wrap64 (failed t + 1)).

(** [Snapshot].  Go ranges over the map in any order and [sort.Slice] is not stable,
    so the order of jobs with the same start is not determined by the code; here
    it is the one of [map_to_list]. *)
Definition TrackerSnapshot (t : Tracker) : Stats :=
  mkStats (maxConcurrentJobs t) (Z.of_nat (size (active t))) (completed t) (failed t)
    (sort_Slice (fun i j => aj_StartedAt i <? aj_StartedAt j) (map_to_list (active t)).*2).

(** ** transfer/state.go *)
Definition safe_rune (r : list ascii) : ascii :=
  match r with
  | [c] => let n := code c in
           if ((97 <=? n) && (n <=? 122)) || ((65 <=? n) && (n <=? 90)) || ((48 <=? n) && (n <=? 57))
              || bool_decide (c ∈ chars "-_.") then c else "_"%char
  | _ => "_"%char
  end.
Definition safeName (value : string) : string :=
  let value := TrimSpace value in
  if String.eqb value "" then "unknown" else str (map safe_rune (runes value)).

Definition StateStatusClaimed : string := "claimed".
Definition StateStatusRunning : string := "running".
Definition StateStatusCompleted : string := "completed".
Definition StateStatusFailed : string := "failed".

Record JobState := mkJobState {
  js_UUID : string; js_Operation : string; js_Status : string; js_Stage : string; js_SourceURL : string;
  js_ObjectPath : string; js_TempPath : string; js_CurrentBytes : Z; js_TotalBytes : Z;
  js_ChecksumSHA256 : string; js_LastError : string; js_StartedAt : Time; js_UpdatedAt : Time;
  js_CompletedAt : Time; js_Job : TransferJob
}.

Record StateStore := mkStateStore { store_root : string }.

(** [NewStateStore]: [mkdir] is the outcome of creating the directory. *)
Definition NewStateStore (mkdir : option error) (workDir : string) : result StateStore :=
  let trimmed := TrimSpace workDir in
  if String.eqb trimmed "" then Err (Errorf "transfer work_dir is required") else
  match mkdir with
  | Some e => Err e
  | None => Ok (mkStateStore (Join2 (Clean trimmed) "jobs"))
  end.

Definition Path (store : StateStore) (uuid : string) : string :=
  Join2 (store_root store) (safeName uuid +:+ ".json").

Definition touch (now : Time) (s : JobState) : JobState :=
  mkJobState (js_UUID s) (js_Operation s) (js_Status s) (js_Stage s) (js_SourceURL s) (js_ObjectPath s)
    (js_TempPath s) (js_CurrentBytes s) (js_TotalBytes s) (js_ChecksumSHA256 s) (js_LastError s)
    (js_StartedAt s) now (js_CompletedAt s) (js_Job s).

(** [StateStore.Save].  [os.WriteFile] truncates the file before it writes; the
    list holds the states of the file system between the system calls, the last
    one on return. *)
Definition SaveState (marshal : JobState -> result string) (mkdir open : option error)
  (write : option (nat * error)) (now : Time) (store : StateStore) (state : JobState) (fs : FS)
  : option error * list FS :=
  if String.eqb (TrimSpace (js_UUID state)) "" then (Some (Errorf "transfer state uuid is required"), [fs]) else
  match marshal (touch now state) with
  | Err e => (Some e, [fs])
  | Ok payload =>
    let path := Path store (js_UUID state) in
    match mkdir, open with
    | Some e, _ => (Some e, [fs])
    | None, Some e => (Some e, [fs])
    | None, None =>
      match write with
      | Some (k, e) => (Some e, [fs; <[path := ""]> fs; <[path := str (take k (chars payload))]> fs])
      | None => (None, [fs; <[path := ""]> fs; <[path := payload]> fs])
      end
    end
  end.

(** ** transfer/manager.go *)
Definition normalizedList (values : list string) : list string := (fold_left push_name values (∅, [])).2.

Definition is_separator (c : ascii) : bool :=
  bool_decide (c ∈ [","; ";"; " "; ascii_of_nat 10; ascii_of_nat 9]%char).

(** [strings.FieldsFunc] with a predicate on bytes. *)
Fixpoint fields_go (l : list ascii) (current : list ascii) : list (list ascii) :=
  match l with
  | [] => match current with [] => [] | _ => [current] end
  | c :: r => if is_separator c
              then match current with [] => fields_go r [] | _ => current :: fields_go r [] end
              else fields_go r (current ++ [c])
  end.
Definition normalizedCSV (value : string) : list string :=
  normalizedList (map str (fields_go (chars value) [])).

Record Manager := mkManager {
  m_WorkDir : string; m_AcceptedOperations : string; m_Region : string; m_capabilities : list string;
  m_operations : option Runtime
}.

Definition claim_snapshot (manager : Manager) (stats : Stats) (gw : option ClaimSnapshot) : ClaimSnapshot :=
  match gw with
  | Some g => mkClaimSnapshot (st_ActiveJobs stats) (st_MaxConcurrentJobs stats) (ActiveSessions g)
                (MaxSessions g) (CurrentEgressMbps g) (MaxEgressMbps g) (m_WorkDir manager)
  | None => mkClaimSnapshot (st_ActiveJobs stats) (st_MaxConcurrentJobs stats) 0 0 0 0 (m_WorkDir manager)
  end.

Definition claim_request (manager : Manager) (stats : Stats) (s : ClaimSnapshot) (reason claimed_at : string)
  : ClaimRequest :=
  mkClaimRequest (m_capabilities manager)
    (mkCapacity (st_MaxConcurrentJobs stats) (st_ActiveJobs stats) (MaxSessions s) (ActiveSessions s)
       (MaxEgressMbps s) (CurrentEgressMbps s))
    (normalizedCSV (m_AcceptedOperations manager)) (m_Region manager)
    (list_to_map [("agent_claimer", AString "transfer_executor_v1"); ("hardening_decision", AString reason);
                  ("claimed_at", AString claimed_at)]).

(** What one claim did: the request it sent, if any, and the job it started. *)
Record claim_outcome := mkClaimOutcome {
  co_error : option error; co_request : option ClaimRequest; co_started : option TransferJob
}.
Definition no_claim (e : option error) : claim_outcome := mkClaimOutcome e None None.

(** What follows the request. *)
Definition claim_answer (request : ClaimRequest) (answer : result ClaimResponse) : claim_outcome :=
  match answer with
  | Err e => mkClaimOutcome (Some e) (Some request) None
  | Ok response =>
    if negb (Success response) || String.eqb (TrimSpace (UUID (ClaimedJob response))) ""
    then mkClaimOutcome None (Some request) None
    else mkClaimOutcome None (Some request) (Some (ClaimedJob response))
  end.

(** [claimOnce]: [client] answers the claim, [claimed_at] is the formatted clock. *)
Definition claimOnce (env : ops_env) (manager : Manager) (state : NodeState) (stats : Stats)
  (gw : option ClaimSnapshot) (claimed_at : string) (client : ClaimRequest -> result ClaimResponse)
  : claim_outcome :=
  if NodeEmpty state then no_claim (Some (Errorf "media hub node state is not initialized")) else
  if st_MaxConcurrentJobs stats <=? st_ActiveJobs stats then no_claim None else
  let snapshot := claim_snapshot manager stats gw in
  let decision := match m_operations manager with
                  | Some runtime => CanClaim env runtime snapshot
                  | None => allow
                  end in
  if negb (Allowed decision) then no_claim None else
  let request := claim_request manager stats snapshot (Reason decision) claimed_at in
  claim_answer request (client request).

(** ** transfer/handler.go: the job a worker hands to the executor *)
Definition DriverLocal : string := "local".
Definition handler_job (job : Job) : TransferJob :=
  let operation := firstNonEmpty [ExternalID job; "remote_download"] in
  mkTransferJob (Job.ID job) (if String.eqb (TrimSpace operation) "" then "remote_download" else operation)
    (mkTransferSource (SourceURL job) (Job.Headers job) "" false 0 true 0 true "")
    (mkTransferDestination DriverLocal "" "" "" "" "" "" "" false "" "" "" "" (DestinationKey job) "" "" ""
       (Metadata job))
    (mkTransferControl 0 5 0 (MaxAttempts job)) ∅ {["foundation_worker_job" := ABool true]}.

(** [HandleJob]: [execute] is the executor, [now] the clock reading at the end. *)
Definition HandleJob (execute : TransferJob -> option error) (now : Time) (job : Job)
  : HandlerResult * option error :=
  match execute (handler_job job) with
  | Some e => (mkHandlerResult JobStatusFailed (Error e) ∅ now, Some e)
  | None => (mkHandlerResult JobStatusSucceeded "transfer completed" ∅ now, None)
  end.

(** ** The tracker bounds the running jobs *)

(** The tracker together with the executions in flight: an execution runs from an
    accepted start to its finish. *)
Inductive run_step : Tracker * list string -> Tracker * list string -> Prop :=
| step_start now job t t' running : aj_UUID job ∉ running -> TryStartJob now job t = (true, t') ->
    run_step (t, running) (t', aj_UUID job :: running)
| step_refused now job t t' running : TryStartJob now job t = (false, t') -> run_step (t, running) (t', running)
| step_update now uuid update t running : run_step (t, running) (UpdateJob now uuid update t, running)
| step_finish uuid success t before after :
    run_step (t, before ++ uuid :: after) (Finish uuid success t, before ++ after).

Record tracker_ok (max : Z) (s : Tracker * list string) : Prop := {
  tk_max : maxConcurrentJobs s.1 = max;
  tk_nodup : NoDup s.2;
  tk_dom : forall id, id ∈ s.2 <-> is_Some (active s.1 !! id);
  tk_key : forall id job, active s.1 !! id = Some job -> aj_UUID job = id;
  tk_bound : Z.of_nat (size (active s.1)) <= max
}.

Lemma tracker_size max s : tracker_ok max s -> size (active s.1) = length s.2.
Proof.
  intros [_ HN HD _ _]. rewrite <- (size_dom (D := gset string)), <- (size_list_to_set (C := gset string)) by done.
  f_equal. apply set_eq. intros id. by rewrite elem_of_dom, elem_of_list_to_set, HD.
Qed.

Lemma started_job_UUID now job : aj_UUID (started_job now job) = aj_UUID job.
Proof. done. Qed.

Lemma run_step_ok max s s' : 0 < max -> tracker_ok max s -> run_step s s' -> tracker_ok max s'.
Proof.
  intros Hmax HI H. pose proof (tracker_size max s HI) as HS.
  destruct HI as [H1 H2 H3 H4 H5]. destruct H as [now job t t' r Hn E|now job t t' r E|now id u t r|id ok t b a];
    cbn [fst snd] in *.
  - unfold TryStartJob in E. destruct (Z.leb_spec (maxConcurrentJobs t) (Z.of_nat (size (active t)))); [done|].
    injection E as <-. constructor; cbn; [done|by constructor| | |].
    + intros id. rewrite elem_of_cons, lookup_insert_is_Some, H3. split; [|intuition].
      intros [->|?]; [auto|]. destruct (decide (aj_UUID job = id)); auto.
    + intros id j. rewrite lookup_insert_Some. intros [[<- <-]|[_ ?]]; [done|by apply H4].
    + rewrite map_size_insert_None; [lia|]. destruct (active t !! aj_UUID job) eqn:Ea; [|done].
      exfalso. apply Hn, H3. by rewrite Ea.
  - unfold TryStartJob in E. destruct (_ <=? _); simplify_eq. by constructor.
  - unfold UpdateJob. destruct (String.eqb id ""); [by constructor|].
    destruct (active t !! id) as [cur|] eqn:Ea; [|by constructor].
    constructor; cbn; [done|done| | |].
    + intros k. rewrite H3, lookup_insert_is_Some. destruct (decide (id = k)) as [<-|]; [rewrite Ea; naive_solver|].
      split; [auto|]. by intros [|[_ ?]].
    + intros k j. rewrite lookup_insert_Some. intros [[<- <-]|[_ ?]]; [by apply H4 in Ea|by apply H4].
    + rewrite map_size_insert_Some by (by rewrite Ea). done.
  - assert (b ++ id :: a ≡ₚ id :: b ++ a) as HP by (by rewrite Permutation_middle).
    rewrite HP in H2. apply NoDup_cons in H2 as [Hn H2].
    constructor; cbn; [done|done| | |].
    + intros k. rewrite lookup_delete_is_Some, <- H3, HP, elem_of_cons. split; [|naive_solver].
      intros Hk. split; [by intros ->|auto].
    + intros k j [_ Hk]%lookup_delete_Some. by apply H4.
    + rewrite map_size_delete. destruct (active t !! id); cbn; lia.
Qed.

Lemma run_invariant n s : rtc run_step (NewTracker n, []) s -> tracker_ok (Z.max 1 n) s.
Proof.
  intros H. revert s H. apply rtc_ind_r.
  - constructor; cbn; [destruct (Z.leb_spec n 0); lia|constructor| |done|rewrite map_size_empty; lia].
    intros id. rewrite lookup_empty, elem_of_nil. split; [done|by intros []].
  - intros y z _ Hs IH. by eapply run_step_ok; [lia|..].
Qed.

(** However starts, updates and finishes interleave, as long as a job that is
    still running is not started a second time, the tracker knows exactly the
    running jobs, at most the configured number of them (at least one) run, and
    a further start is refused exactly when that number is reached. *)
Theorem tracker_bounds_running n t running :
  rtc run_step (NewTracker n, []) (t, running) ->
  st_ActiveJobs (TrackerSnapshot t) = zlen running /\ zlen running <= Z.max 1 n /\
  (forall id, id ∈ running <-> is_Some (active t !! id)) /\
  map aj_UUID (st_ActiveJobDetails (TrackerSnapshot t)) ≡ₚ running /\
  (forall now job, (TryStartJob now job t).1 = false <-> zlen running = Z.max 1 n).
Proof.
  intros H%run_invariant. pose proof (tracker_size _ _ H) as HS. destruct H as [H1 H2 H3 H4 H5].
  cbn [fst snd] in *. unfold zlen. split_and!; [cbn; lia|lia|done| |].
  - cbn [TrackerSnapshot st_ActiveJobDetails]. rewrite sort_Slice_perm.
    assert (map aj_UUID (map_to_list (active t)).*2 = (map_to_list (active t)).*1) as ->.
    { rewrite <- list_fmap_compose. apply list_fmap_ext. intros i [k j] Hk%list_elem_of_lookup_2.
      apply elem_of_map_to_list in Hk. cbn. by apply H4. }
    apply NoDup_Permutation; [apply NoDup_fst_map_to_list|done|]. intros id. rewrite H3.
    rewrite list_elem_of_fmap. split.
    + intros ([k j] & -> & Hk%elem_of_map_to_list). eauto.
    + intros [j Hj]. exists (id, j). by rewrite elem_of_map_to_list.
  - intros now job. unfold TryStartJob. rewrite H1. destruct (Z.leb_spec (Z.max 1 n) (Z.of_nat (size (active t)))); cbn; split; intros; try done; lia.
Qed.

Definition sample_active (id : string) : ActiveJob := mkActiveJob id "op" "" "" "" "" "" 0 0 0 fzero 0 0.

Lemma tracker_bounds_running_witness :
  let t := (TryStartJob 7 (sample_active "b") (TryStartJob 5 (sample_active "a") (NewTracker 2)).2).2 in
  st_ActiveJobs (TrackerSnapshot t) = 2 /\ (TryStartJob 9 (sample_active "c") t).1 = false.
Proof.
  intros t. destruct (tracker_bounds_running 2 t ["b"; "a"]) as (H1 & _ & _ & _ & H2).
  - eapply rtc_l; [apply (step_start 5 (sample_active "a")); [apply not_elem_of_nil|vm_compute; reflexivity]|].
    eapply rtc_l; [apply (step_start 7 (sample_active "b")); [|vm_compute; reflexivity]|].
    + apply (bool_decide_unpack _). vm_compute. exact I.
    + apply rtc_refl.
  - split; [exact H1|]. apply H2. reflexivity.
Defined.

(** The side condition is needed: a job started again while it runs takes no
    further slot, so with two slots any number of executions of it can run. *)
Theorem duplicate_start_not_counted :
  let t1 := (TryStartJob 1 (sample_active "a") (NewTracker 2)).2 in
  let t2 := (TryStartJob 2 (sample_active "a") t1).2 in
  (TryStartJob 2 (sample_active "a") t1).1 = true /\ (TryStartJob 3 (sample_active "a") t2).1 = true /\
  size (active t2) = 1%nat.
Proof. split_and!; vm_compute; reflexivity. Qed.

(** ** Claiming *)

Lemma claim_answer_spec request answer :
  co_request (claim_answer request answer) = Some request /\
  forall job, co_started (claim_answer request answer) = Some job <-> exists response, answer = Ok response /\
    Success response = true /\ TrimSpace (UUID (ClaimedJob response)) <> "" /\ job = ClaimedJob response.
Proof.
  unfold claim_answer. destruct answer as [r|e]; [|split; [done|]; intros job; split; [done|by intros (? & ? & _)]].
  destruct (Success r) eqn:ES; cbn [negb orb];
    [destruct (String.eqb_spec (TrimSpace (UUID (ClaimedJob r))) "") as [E|E]|]; cbn [co_request co_started];
    (split; [done|]); intros job; split.
  all: try (intros (? & [= <-] & ? & ? & ?); congruence).
  all: intros [=]; subst; eauto.
Qed.

Lemma admitted_spec env manager stats gw : let s := claim_snapshot manager stats gw in
  st_ActiveJobs stats < st_MaxConcurrentJobs stats ->
  Allowed (match m_operations manager with Some runtime => CanClaim env runtime s | None => allow end) = true <->
  forall runtime, m_operations manager = Some runtime ->
    ~ draining env runtime /\ within_backpressure (cfg runtime) s /\ disk_healthy env (cfg runtime) s.
Proof.
  intros s Hfree. destruct (m_operations manager) as [runtime|]; [|done].
  assert (below (ActiveJobs s) (MaxConcurrentJobs s)) by
    (subst s; unfold claim_snapshot, below; destruct gw; cbn; lia).
  rewrite CanClaim_allowed. split; [intros (? & _ & ? & ?) ? [= <-]; done|].
  intros HA. destruct (HA runtime eq_refl) as (? & ? & ?). done.
Qed.

(** A claim is sent to the hub exactly when the node has credentials, a slot of
    the executor is free and the admission rules permit; the request reports the
    executor's true load, and a job is started exactly when the hub granted one
    with an identifier. *)
Theorem claimOnce_spec env manager state stats gw at_ client :
  let out := claimOnce env manager state stats gw at_ client in
  let s := claim_snapshot manager stats gw in
  (is_Some (co_request out) <->
     TrimSpace (NodeUUID state) <> "" /\ TrimSpace (NodeSecret state) <> "" /\
     st_ActiveJobs stats < st_MaxConcurrentJobs stats /\
     forall runtime, m_operations manager = Some runtime ->
       ~ draining env runtime /\ within_backpressure (cfg runtime) s /\ disk_healthy env (cfg runtime) s) /\
  (forall request, co_request out = Some request ->
     c_ActiveJobs (ReqCapacity request) = st_ActiveJobs stats /\
     c_MaxConcurrentJobs (ReqCapacity request) = st_MaxConcurrentJobs stats /\
     (forall job, co_started out = Some job <-> exists response, client request = Ok response /\
        Success response = true /\ TrimSpace (UUID (ClaimedJob response)) <> "" /\ job = ClaimedJob response)) /\
  (co_request out = None -> co_started out = None).
Proof.
  intros out s. subst out. unfold claimOnce. fold s.
  pose proof (admitted_spec env manager stats gw) as Hd. fold s in Hd. cbv zeta in Hd.
  set (d := match m_operations manager with Some _ => _ | None => _ end) in *. clearbody d.
  unfold NodeEmpty. rewrite <- !String.eqb_neq.
  destruct (String.eqb (TrimSpace (NodeUUID state)) ""), (String.eqb (TrimSpace (NodeSecret state)) "");
    cbn [orb]; try (split_and!; [split; [by intros []|naive_solver]|done|done]).
  destruct (Z.leb_spec (st_MaxConcurrentJobs stats) (st_ActiveJobs stats)) as [Hfull|Hfree].
  { split_and!; [|done|done]. split; [by intros []|lia]. }
  specialize (Hd Hfree). destruct (Allowed d) eqn:EA; cbn [negb].
  2:{ split_and!; [|done|done]. split; [by intros []|]. intros (_ & _ & _ & H). by apply Hd in H. }
  set (request := claim_request _ _ _ _ _). destruct (claim_answer_spec request (client request)) as [HR HJ].
  rewrite HR. split_and!; [|intros r [= <-]; split_and!; [done|done|exact HJ]|done].
  split; [|eauto]. intros _. split_and!; [done..|]. by apply Hd.
Qed.

(** ** State files *)
Lemma safe_rune_no_slash r : safe_rune r <> slash.
Proof.
  unfold safe_rune. destruct r as [|c [|d r]]; [discriminate| |discriminate]. cbv zeta.
  destruct (_ || _) eqn:E; [|discriminate]. intros ->. revert E. vm_compute. discriminate.
Qed.

Lemma safeName_no_slash v : no_slash (chars (safeName v)).
Proof.
  unfold safeName. destruct (String.eqb _ _); [literal_no_slash|]. rewrite chars_str. unfold no_slash.
  intros (r & E & _)%list_elem_of_fmap. by apply (safe_rune_no_slash r).
Qed.

Lemma state_name_plain uuid : plain (chars (safeName uuid +:+ ".json")).
Proof.
  rewrite chars_app. split_and!; [by destruct (chars (safeName uuid))| | |].
  1,2: intros E%(f_equal length); rewrite length_app in E; cbn in E; lia.
  rewrite elem_of_app. intros [H|H]; [by apply safeName_no_slash in H|literal_no_slash].
Qed.

(** The state of a job is saved in a file directly inside the store's directory,
    whatever the identifier; a save that reports success leaves the encoded state
    there, stamped with the clock, and no save touches another file, not even
    between its system calls. *)
Theorem SaveState_confined marshal mkdir open write now workDir store state fs err states :
  NewStateStore None workDir = Ok store ->
  SaveState marshal mkdir open write now store state fs = (err, states) ->
  let path := Path store (js_UUID state) in
  path_stack path = chars (safeName (js_UUID state) +:+ ".json") :: path_stack (store_root store) /\
  (err = None -> exists payload, marshal (touch now state) = Ok payload /\
     last states = Some (<[path := payload]> fs)) /\
  forall fs' p, fs' ∈ states -> p <> path -> fs' !! p = fs !! p.
Proof.
  intros HN HS path.
  assert (store_root store <> "") as Hr.
  { unfold NewStateStore in HN. destruct (String.eqb_spec (TrimSpace workDir) ""); [done|].
    injection HN as <-. cbn [store_root]. assert (plain (chars "jobs")) as Hp.
    { split_and!; [discriminate..|]. change (no_slash (chars "jobs")). literal_no_slash. }
    assert (Clean (TrimSpace workDir) <> "") as Hc.
    { intros E. pose proof (Clean_idemp (TrimSpace workDir)) as Ei. rewrite E in Ei. discriminate Ei. }
    pose proof (Join2_child (Clean (TrimSpace workDir)) _ Hc Hp) as [E _]. rewrite str_chars in E.
    intros E0. rewrite E0 in E. discriminate E. }
  split_and!.
  - pose proof (Join2_child (store_root store) _ Hr (state_name_plain (js_UUID state))) as [E _].
    by rewrite str_chars in E.
  - intros ->. unfold SaveState in HS. repeat case_match; simplify_eq. eauto.
  - intros fs' p Hf Hp. subst path. unfold SaveState in HS.
    repeat case_match; simplify_eq; set_unfold in Hf; destruct_or? Hf; subst; try done; by rewrite lookup_insert_ne.
Qed.

(** ** Worker jobs *)
Lemma transfer_issues_nil job : transfer_issues job = [] <->
  TrimSpace (UUID job) <> "" /\ TrimSpace (TOperation job) <> "" /\ TrimSpace (URL (Source job)) <> "" /\
  TrimSpace (Driver (Destination job)) <> "".
Proof. unfold transfer_issues. by rewrite !app_nil, !if_nil_neg, !String.eqb_neq. Qed.

(** Every job that passes the worker's validation passes the executor's: the
    conversion of the handler keeps identifier, source and destination, and the
    result is a supported terminal status matching the executor's answer. *)
Theorem HandleJob_contract execute now job : valid_job job ->
  ValidateTransferJob (handler_job job) = Ok tt /\
  UUID (handler_job job) = Job.ID job /\ URL (Source (handler_job job)) = SourceURL job /\
  ObjectPath (Destination (handler_job job)) = DestinationKey job /\
  let '(res, err) := HandleJob execute now job in
  err = execute (handler_job job) /\ IsTerminalJobStatus (h_Status res) = true /\
  (h_Status res = JobStatusSucceeded <-> err = None).
Proof.
  intros HV. split_and!; [|done..|].
  - unfold ValidateTransferJob.
    assert (transfer_issues (handler_job job) = []) as ->; [|done]. apply transfer_issues_nil. split_and!.
    + pose proof (vj_id _ HV) as H. cbn [handler_job UUID]. intros E. unfold Uuid.ValidateUUID in H. rewrite E in H.
      discriminate H.
    + cbn [handler_job TOperation]. set (op := firstNonEmpty _).
      destruct (String.eqb_spec (TrimSpace op) ""); [vm_compute; discriminate|done].
    + pose proof (vj_url _ HV) as H. cbn [handler_job Source URL]. intros E. unfold isValidAbsoluteURL in H.
      rewrite E in H. vm_compute in H. discriminate H.
    + vm_compute. discriminate.
  - unfold HandleJob. destruct (execute _); vm_compute; naive_solver.
Qed.

Lemma HandleJob_contract_witness :
  ValidateTransferJob (handler_job sample_job) = Ok tt /\
  h_Status (HandleJob (fun _ => None) 9 sample_job).1 = JobStatusSucceeded.
Proof.
  destruct (HandleJob_contract (fun _ => None) 9 sample_job sample_job_valid) as (H1 & _ & _ & _ & _ & _ & H2).
  split; [exact H1|]. apply H2. reflexivity.
Defined.

(** ** Examples *)
Definition sample_transfer : TransferJob := handler_job sample_job.
Definition sample_state : JobState :=
  mkJobState "../x" "op" StateStatusClaimed "claim" "" "" "" 0 0 "" "" 1 1 0 sample_transfer.
Definition sample_marshal_state (s : JobState) : result string := Ok (js_UUID s +:+ js_Status s).

Lemma SaveState_confined_witness :
  path_stack (Path (mkStateStore "work/jobs") "../x") = [chars ".._x.json"; chars "jobs"; chars "work"] /\
  exists payload, sample_marshal_state (touch 5 sample_state) = Ok payload.
Proof.
  destruct (SaveState_confined sample_marshal_state None None None 5 "./work/" (mkStateStore "work/jobs")
    sample_state ∅ None [∅; {["work/jobs/.._x.json" := ""]}; {["work/jobs/.._x.json" := "../xclaimed"]}])
    as (H1 & H2 & _).
  - vm_compute. reflexivity.
  - vm_compute. reflexivity.
  - split; [exact H1|]. destruct (H2 eq_refl) as (payload & H3 & _). exists payload. exact H3.
Defined.

(** Saving is not atomic: a crash between the truncation and the write loses the
    state that was saved before. *)
Theorem SaveState_crash_loses_state :
  let old : FS := {["work/jobs/.._x.json" := "old state"]} in
  exists fs', fs' ∈ (SaveState sample_marshal_state None None None 5 (mkStateStore "work/jobs") sample_state old).2 /\
    fs' !! "work/jobs/.._x.json" = Some "".
Proof.
  intros old. exists {["work/jobs/.._x.json" := ""]}. split; [|reflexivity].
  replace (SaveState _ _ _ _ _ _ _ _) with
    (@None error, [old; {["work/jobs/.._x.json" := ""]}; {["work/jobs/.._x.json" := "../xclaimed"]}])
    by (vm_compute; reflexivity).
  right. left.
Qed.

(** Different identifiers can share a state file. *)
Theorem state_files_collide :
  Path (mkStateStore "work/jobs") "a/b" = Path (mkStateStore "work/jobs") "a_b".
Proof. vm_compute. reflexivity. Qed.

Example csv_1 : normalizedCSV "Copy, move;copy  ; 	x" = ["copy"; "move"; "x"].
Proof. vm_compute. reflexivity. Qed.
