(* ===== verification/Download.v ===== *)
(** * Download support: headers, checksums and retries

    Models internal/download/headers.go, checksum.go and retry.go.  A set of headers
    is a map from canonical names to the one value the code sets; Go ranges over
    the input in any order, so the input is a list of entries in that order. *)
From S2P Require Import Prelude GoStrings GoCrypto GoTime GoFS.

(** ** headers.go *)

(** The bytes of an HTTP token. *)
Definition validHeaderFieldByte (c : ascii) : bool :=
  let n := code c in
  ((48 <=? n) && (n <=? 57)) || ((65 <=? n) && (n <=? 90)) || ((97 <=? n) && (n <=? 122)) ||
  bool_decide (c ∈ chars "!#$%&'*+-.^_`|~").

Fixpoint canonical_go (upper : bool) (l : list ascii) : list ascii :=
  match l with
  | [] => []
  | c :: r => (if upper then upper_char c else lower_char c) :: canonical_go (Ascii.eqb c "-") r
  end.

(** [textproto.CanonicalMIMEHeaderKey]. *)
Definition CanonicalMIMEHeaderKey (s : string) : string :=
  if forallb validHeaderFieldByte (chars s) then str (canonical_go true (chars s)) else s.

Definition HeaderRange : string := "Range".
Definition HeaderUserAgent : string := "User-Agent".

Definition newline_chars : string := str [ascii_of_nat 13; ascii_of_nat 10].
Definition name_stops : string :=
  str [" "%char; ascii_of_nat 9; ascii_of_nat 13; ascii_of_nat 10; ":"%char].

Definition NormalizeHeaderName (name : string) : result string :=
  let trimmed := TrimSpace name in
  if String.eqb trimmed "" then Err (Errorf "header name is required") else
  if ContainsAny trimmed name_stops then Err (Errorf ("header name " +:+ Quote name +:+ " is invalid")) else
  let canonical := CanonicalMIMEHeaderKey trimmed in
  if String.eqb canonical "" then Err (Errorf ("header name " +:+ Quote name +:+ " is invalid"))
  else Ok canonical.

Notation HeaderSet := (gmap string string).

(** [Header.Set] and [Header.Get]. *)
Definition header_set (name value : string) (h : HeaderSet) : HeaderSet := <[CanonicalMIMEHeaderKey name := value]> h.
Definition header_get (name : string) (h : HeaderSet) : string := default "" (h !! CanonicalMIMEHeaderKey name).

Lemma header_get_set name value h : header_get name (header_set name value h) = value.
Proof. unfold header_get, header_set. by rewrite lookup_insert_eq. Qed.

Lemma header_get_set_ne name name' value h : CanonicalMIMEHeaderKey name' <> CanonicalMIMEHeaderKey name ->
  header_get name (header_set name' value h) = header_get name h.
Proof. intros H. unfold header_get, header_set. by rewrite lookup_insert_ne. Qed.

Ltac header_simpl :=
  repeat (rewrite header_get_set || rewrite header_get_set_ne by (vm_compute; discriminate)).


(** One header checked and set. *)
Definition set_header (name value : string) (set : HeaderSet) : result HeaderSet :=
  canonical ← NormalizeHeaderName name;
  let trimmed := TrimSpace value in
  if ContainsAny trimmed newline_chars
  then Err (Errorf ("header " +:+ canonical +:+ " contains invalid newline"))
  else Ok (<[canonical := trimmed]> set).

Fixpoint set_headers (entries : list (string * string)) (set : HeaderSet) : result HeaderSet :=
  match entries with
  | [] => Ok set
  | (name, value) :: rest => set ← set_header name value set; set_headers rest set
  end.
Definition NewHeaderSet (entries : list (string * string)) : result HeaderSet := set_headers entries ∅.

Definition With (set : HeaderSet) (name value : string) : result HeaderSet := set_header name value set.

Definition HeaderGet (set : HeaderSet) (name : string) : string :=
  match NormalizeHeaderName name with
  | Err _ => ""
  | Ok canonical => default "" (set !! CanonicalMIMEHeaderKey canonical)
  end.

Definition HeaderLen (set : HeaderSet) : Z := Z.of_nat (size set).

(** [Apply]: the set replaces the headers of the same names. *)
Definition Apply (set request : HeaderSet) : HeaderSet := set ∪ request.

Record request_parts := mkRequestParts { r_Method : string; r_URL : string; r_Header : HeaderSet }.

(** [NewRequest]; [check] is what [http.NewRequestWithContext] says of method and URL. *)
Definition NewRequest (check : string -> string -> option error) (method url : string) (headers : HeaderSet)
  : result request_parts :=
  let method := ToUpper (TrimSpace method) in
  let method := if String.eqb method "" then "GET" else method in
  let url := TrimSpace url in
  if String.eqb url "" then Err (Errorf "request url is required") else
  match check method url with
  | Some e => Err e
  | None => Ok (mkRequestParts method url (Apply headers ∅))
  end.

(** [ApplyResume] of resume.go. *)
Definition ApplyResume (range : string) (request : request_parts) : request_parts :=
  if String.eqb range "" then request
  else mkRequestParts (r_Method request) (r_URL request) (<[HeaderRange := range]> (r_Header request)).

(** ** checksum.go *)
Definition SHA256ChecksumName : string := "sha256".
Record SHA256Result := mkSHA256Result { Algorithm : string; Hex : string; Bytes : Z; SumPath : string }.

(** [SHA256File]: [open] and [read] are the outcomes of opening and of reading. *)
Definition SHA256File (open read : option error) (path : string) (fs : FS) : result SHA256Result :=
  let trimmed := TrimSpace path in
  if String.eqb trimmed "" then Err (Errorf "sha256 file path is required") else
  content ← ReadFile open trimmed fs;
  match read with
  | Some e => Err e
  | None => Ok (mkSHA256Result SHA256ChecksumName (hex_string (sha256 (bytes_of content))) (slen content) trimmed)
  end.

Definition is_hex (c : ascii) : bool :=
  ((48 <=? code c) && (code c <=? 57)) || ((97 <=? code c) && (code c <=? 102)) ||
  ((65 <=? code c) && (code c <=? 70)).

Definition ValidateSHA256Hex (value : string) : result unit :=
  let trimmed := ToLower (TrimSpace value) in
  if negb (slen trimmed =? 64) then Err (Errorf "sha256 hex digest must have 64 characters") else
  if negb (forallb is_hex (chars trimmed)) then Err (Errorf "sha256 hex digest is invalid") else Ok tt.

Definition VerifySHA256File (open read : option error) (path expected : string) (fs : FS) : result SHA256Result :=
  _ ← ValidateSHA256Hex expected;
  result ← SHA256File open read path fs;
  let want := ToLower (TrimSpace expected) in
  if negb (String.eqb (Hex result) want)
  then Err (Errorf ("sha256 mismatch: expected " +:+ want +:+ " got " +:+ Hex result))
  else Ok result.

(** ** retry.go *)
Record RetryPolicy := mkRetryPolicy { maxRetries : Z; backoff : Duration }.
Record RetryAttempt := mkRetryAttempt { ra_Index : Z; ra_Error : string }.
Record RetryResult (A : Type) := mkRetryResult {
  rr_Value : A; rr_Attempts : Z; rr_Retries : Z; rr_Failed : list RetryAttempt; rr_FinalError : string
}.
Arguments mkRetryResult {A} _ _ _ _ _.
Arguments rr_Value {A} _.
Arguments rr_Attempts {A} _.
Arguments rr_Retries {A} _.
Arguments rr_Failed {A} _.
Arguments rr_FinalError {A} _.

Definition parseNonNegativeDuration (field value : string) : result Duration :=
  let trimmed := TrimSpace value in
  if String.eqb trimmed "" then Err (Errorf (field +:+ " is required")) else
  match ParseDuration trimmed with
  | None => Err (Errorf (field +:+ " must be a valid duration"))
  | Some d => if d <? 0 then Err (Errorf (field +:+ " must be zero or greater")) else Ok d
  end.

Definition NewRetryPolicy (max : Z) (backoff : string) : result RetryPolicy :=
  if max <? 0 then Err (Errorf "download max retries must be zero or greater") else
  d ← parseNonNegativeDuration "download retry backoff" backoff;
  Ok (mkRetryPolicy max d).

Section Retry.
Context {A : Type} (zero : A).
(** The answer of the operation on each attempt, and whether the context ended
    while sleeping after it. *)
Context (operation : Z -> A * option error) (cancelled : Z -> option error).

Definition sleepWithContext (duration : Duration) (attempt : Z) : option error :=
  if duration <=? 0 then None else cancelled attempt.

(** The loop from [attempt] on; [None] when the fuel is used up. *)
Fixpoint retry_attempts (fuel : nat) (policy : RetryPolicy) (maxAttempts attempt : Z) (failed : list RetryAttempt)
  : option (RetryResult A * option error) :=
  match fuel with
  | O => None
  | S fuel =>
    if maxAttempts <? attempt then Some (mkRetryResult zero 0 0 failed "", None) else
    let '(value, err) := operation attempt in
    match err with
    | None => Some (mkRetryResult value attempt (attempt - 1) failed "", None)
    | Some e =>
      let failed := failed ++ [mkRetryAttempt attempt (Error e)] in
      if attempt =? maxAttempts
      then Some (mkRetryResult value attempt (attempt - 1) failed (Error e), Some e) else
      match sleepWithContext (backoff policy) attempt with
      | Some e' => Some (mkRetryResult value attempt (attempt - 1) failed (Error e'), Some e')
      | None => retry_attempts fuel policy maxAttempts (attempt + 1) failed
      end
    end
  end.

(** [RunWithRetry]; the loop leaves in the round of the last attempt, so the result
    of the statement after the loop is that of a loop that never ran. *)
Definition RunWithRetry (policy : RetryPolicy) : option (RetryResult A * option error) :=
  let maxAttempts := wrap64 (maxRetries policy + 1) in
  retry_attempts (S (Z.to_nat maxAttempts)) policy maxAttempts 1 [].
End Retry.

(** ** Headers cannot smuggle lines *)
Definition clean_name (name : string) : Prop :=
  name <> "" /\ forall c, c ∈ chars name -> c ∉ chars name_stops.
Definition clean_value (value : string) : Prop :=
  TrimSpace value = value /\ forall c, c ∈ chars value -> c ∉ chars newline_chars.

Lemma ContainsAny_false s cs : ContainsAny s cs = false <-> forall c, c ∈ chars s -> c ∉ chars cs.
Proof.
  unfold ContainsAny. split.
  - intros H c Hc Hin. apply not_true_iff_false in H. apply H, existsb_exists. exists c.
    split; [by apply list_elem_of_In|]. apply existsb_exists. exists c. split; [by apply list_elem_of_In|].
    apply Ascii.eqb_refl.
  - intros H. apply not_true_iff_false. intros (c & Hc & (d & Hd & ->%Ascii.eqb_eq)%existsb_exists)%existsb_exists.
    by apply (H d); apply list_elem_of_In.
Qed.

Lemma canonical_go_length u l : length (canonical_go u l) = length l.
Proof. revert u. induction l; intros u; simpl; congruence. Qed.

(** Changing case neither makes nor unmakes one of the forbidden characters. *)
Lemma case_stops c : bool_decide (upper_char c ∈ chars name_stops) = bool_decide (c ∈ chars name_stops) /\
  bool_decide (lower_char c ∈ chars name_stops) = bool_decide (c ∈ chars name_stops).
Proof.
  assert (eqb (bool_decide (upper_char c ∈ chars name_stops)) (bool_decide (c ∈ chars name_stops)) &&
          eqb (bool_decide (lower_char c ∈ chars name_stops)) (bool_decide (c ∈ chars name_stops)) = true)
    as [H1%eqb_prop H2%eqb_prop]%andb_prop; [|done].
  revert c. apply char_forall. vm_compute. reflexivity.
Qed.

Lemma canonical_go_stops u l : (forall c, c ∈ l -> c ∉ chars name_stops) ->
  forall c, c ∈ canonical_go u l -> c ∉ chars name_stops.
Proof.
  revert u. induction l as [|d l IH]; intros u H c; cbn [canonical_go]; [by intros ?%not_elem_of_nil|].
  intros [->|Hc]%elem_of_cons; [|by eapply IH; [|exact Hc]; intros; apply H; right].
  specialize (H d ltac:(left)). apply (bool_decide_eq_false_2 _) in H. apply (bool_decide_eq_false_1 _).
  destruct (case_stops d) as [H1 H2]. destruct u; congruence.
Qed.

Lemma NormalizeHeaderName_clean name canonical : NormalizeHeaderName name = Ok canonical -> clean_name canonical.
Proof.
  unfold NormalizeHeaderName. destruct (String.eqb_spec (TrimSpace name) ""); [done|].
  destruct (ContainsAny _ _) eqn:E; [done|]. destruct (String.eqb_spec (CanonicalMIMEHeaderKey (TrimSpace name)) ""); [done|].
  intros [= <-]. split; [done|]. pose proof (proj1 (ContainsAny_false _ _) E) as HE.
  unfold CanonicalMIMEHeaderKey. destruct (forallb _ _); [|done]. rewrite chars_str. by apply canonical_go_stops.
Qed.

Lemma set_header_clean name value set set' : set_header name value set = Ok set' ->
  exists canonical, NormalizeHeaderName name = Ok canonical /\ clean_name canonical /\
    clean_value (TrimSpace value) /\ set' = <[canonical := TrimSpace value]> set.
Proof.
  unfold set_header. destruct (NormalizeHeaderName name) as [canonical|e] eqn:EN; [|done].
  cbn [mbind result_bind]. destruct (ContainsAny _ _) eqn:E; [done|]. intros [= <-]. exists canonical.
  split_and!; [done|by eapply NormalizeHeaderName_clean| |done].
  split; [apply TrimSpace_idemp|by apply ContainsAny_false].
Qed.

Definition clean_set (set : HeaderSet) : Prop :=
  forall name value, set !! name = Some value -> clean_name name /\ clean_value value.

Lemma set_headers_clean entries set set' : clean_set set -> set_headers entries set = Ok set' -> clean_set set'.
Proof.
  revert set. induction entries as [|[name value] entries IH]; intros set HS; cbn [set_headers]; [by intros [= <-]|].
  intros (s1 & H1 & H2)%bind_Ok. apply (IH s1); [|done].
  apply set_header_clean in H1 as (canonical & _ & Hn & Hv & ->). intros n v.
  rewrite lookup_insert_Some. intros [[<- <-]|[_ ?]]; [done|by apply HS].
Qed.

(** Whatever headers a job asks for, the request that is built carries only names
    without spaces, line breaks and colons and trimmed values without line breaks,
    so a header value cannot add lines to the request; a refused set sends nothing. *)
Theorem request_headers_clean entries set check method url range request :
  NewHeaderSet entries = Ok set -> NewRequest check method url set = Ok request ->
  clean_value range -> clean_set (r_Header (ApplyResume range request)) /\
  forall name, name <> HeaderRange -> r_Header (ApplyResume range request) !! name = set !! name.
Proof.
  intros HS HR Hr. assert (clean_set set) as HC by (by eapply set_headers_clean; [|exact HS]).
  assert (r_Header request = set) as HH.
  { unfold NewRequest, Apply in HR. rewrite (right_id_L ∅ (∪)) in HR. by repeat case_match; simplify_eq. }
  unfold ApplyResume. destruct (String.eqb range ""); cbn [r_Header]; rewrite HH; [done|].
  split; [|intros name Hn; by apply lookup_insert_ne].
  intros n v. rewrite lookup_insert_Some. intros [[<- <-]|[_ ?]]; [|by apply HC]. split; [|done].
  split; [discriminate|]. apply ContainsAny_false. vm_compute. reflexivity.
Qed.

Lemma request_headers_clean_witness :
  clean_set {["X-Token" := "abc"]} /\
  NewHeaderSet [("x-bad", str ["a"%char; ascii_of_nat 10; "b"%char])] =
    Err (Errorf "header X-Bad contains invalid newline").
Proof.
  destruct (request_headers_clean [(" x-token ", " abc ")] {["X-Token" := "abc"]} (fun _ _ => None) "get" "http://h/"
    "" (mkRequestParts "GET" "http://h/" {["X-Token" := "abc"]})) as [H _].
  - vm_compute. reflexivity.
  - vm_compute. reflexivity.
  - split; [reflexivity|]. intros c Hc. by apply not_elem_of_nil in Hc.
  - split; [exact H|]. vm_compute. reflexivity.
Defined.

(** ** Checksums *)

(** A checksum verification succeeds exactly when the expected digest is 64
    hexadecimal digits, the file can be read and the SHA-256 of its content is that
    digest, up to case and surrounding space; it then reports that digest and the
    length of the file. *)
Theorem VerifySHA256File_spec open read path expected fs r :
  VerifySHA256File open read path expected fs = Ok r <->
  open = None /\ read = None /\ TrimSpace path <> "" /\
  exists content, fs !! TrimSpace path = Some content /\
    canonical expected = hex_string (sha256 (bytes_of content)) /\
    r = mkSHA256Result SHA256ChecksumName (hex_string (sha256 (bytes_of content))) (slen content) (TrimSpace path).
Proof.
  unfold VerifySHA256File. rewrite bind_Ok. setoid_rewrite bind_Ok. fold (canonical expected).
  assert (forall content, canonical expected = hex_string (sha256 (bytes_of content)) ->
    ValidateSHA256Hex expected = Ok tt) as HV.
  { intros content E. unfold ValidateSHA256Hex. fold (canonical expected). rewrite E. unfold slen.
    destruct (hex_sha256_shape (bytes_of content)) as [HL HF].
    unfold zlen. rewrite HL. cbn [negb Z.eqb Z.of_nat]. replace (forallb is_hex _) with true; [done|].
    symmetry. apply forallb_forall. intros c Hc%list_elem_of_In. rewrite Forall_forall in HF. specialize (HF c Hc).
    unfold is_hex. unfold is_lower_hex in HF. by rewrite HF. }
  unfold SHA256File, ReadFile. split.
  - intros ([] & _ & res & H1 & H2). destruct (String.eqb_spec (TrimSpace path) ""); [done|].
    destruct open; [done|]. destruct (fs !! TrimSpace path) as [content|]; [|done]. cbn [mbind result_bind] in H1.
    destruct read; [done|]. injection H1 as <-. cbn [Hex] in H2.
    destruct (String.eqb_spec (hex_string (sha256 (bytes_of content))) (canonical expected)) as [E|]; [|done].
    injection H2 as <-. split_and!; [done..|]. exists content. by rewrite E.
  - intros (-> & -> & Hp & content & Hc & E & ->). exists tt. split; [by eapply HV|].
    rewrite (proj2 (String.eqb_neq _ _) Hp), Hc. cbn [mbind result_bind]. eexists. split; [reflexivity|].
    cbn [Hex]. rewrite <- E, String.eqb_refl. done.
Qed.

(** ** Retries *)
Section RetryTheorems.
Context {A : Type} (zero : A) (operation : Z -> A * option error) (cancelled : Z -> option error).

(** The failures among the attempts 1 to n, in order. *)
Definition failures (n : Z) : list RetryAttempt :=
  omap (fun k => (fun e => mkRetryAttempt k (Error e)) <$> (operation k).2) (seqZ 1 n).

Lemma failures_snoc n : 0 <= n -> failures (n + 1) =
  failures n ++ option_list ((fun e => mkRetryAttempt (n + 1) (Error e)) <$> (operation (n + 1)).2).
Proof.
  intros Hn. unfold failures. rewrite (seqZ_app 1 n 1) by lia. rewrite omap_app. f_equal.
  replace (1 + n) with (n + 1) by lia. change (seqZ (n + 1) 1) with [0 + (n + 1)]. rewrite Z.add_0_l.
  cbn [omap list_omap]. by destruct ((operation (n + 1)).2).
Qed.

Record retry_ok (policy : RetryPolicy) (res : RetryResult A) (err : option error) : Prop := {
  ro_bounds : 1 <= rr_Attempts res <= maxRetries policy + 1;
  ro_value : rr_Value res = (operation (rr_Attempts res)).1;
  ro_earlier : forall k, 1 <= k < rr_Attempts res -> is_Some (operation k).2;
  ro_retries : rr_Retries res = rr_Attempts res - 1;
  ro_failed : rr_Failed res = failures (rr_Attempts res);
  ro_success : err = None <-> (operation (rr_Attempts res)).2 = None;
  ro_stopped : err <> None -> rr_Attempts res = maxRetries policy + 1 \/
               (0 < backoff policy /\ err = cancelled (rr_Attempts res))
}.

Lemma retry_attempts_ok fuel policy attempt :
  1 <= attempt <= maxRetries policy + 1 -> (Z.to_nat (maxRetries policy + 1 - attempt) < fuel)%nat ->
  (forall k, 1 <= k < attempt -> is_Some (operation k).2) ->
  exists res err, retry_attempts zero operation cancelled fuel policy (maxRetries policy + 1) attempt
      (failures (attempt - 1)) = Some (res, err) /\ retry_ok policy res err.
Proof.
  revert attempt. induction fuel as [|fuel IH]; intros attempt Ha Hf Hk; [lia|]. cbn [retry_attempts].
  rewrite (proj2 (Z.ltb_ge _ _)) by lia.
  pose proof (failures_snoc (attempt - 1) ltac:(lia)) as HS. replace (attempt - 1 + 1) with attempt in HS by lia.
  destruct (operation attempt) as [value [e|]] eqn:EO; cbn in HS; rewrite <- ?HS.
  2:{ eexists _, _. split; [reflexivity|]. rewrite app_nil_r in HS.
      constructor; cbn; rewrite ?EO; try done. }
  destruct (Z.eqb_spec attempt (maxRetries policy + 1)) as [->|Hne].
  { eexists _, _. split; [reflexivity|]. constructor; cbn; rewrite ?EO; try done; auto. }
  assert (forall k, 1 <= k < attempt + 1 -> is_Some (operation k).2) as Hk'.
  { intros k ?. destruct (decide (k = attempt)) as [->|]; [by rewrite EO|apply Hk; lia]. }
  destruct (IH (attempt + 1) ltac:(lia) ltac:(lia) Hk') as (res & err & E & Hok).
  replace (attempt + 1 - 1) with attempt in E by lia.
  unfold sleepWithContext. destruct (Z.leb_spec (backoff policy) 0); [by exists res, err|].
  destruct (cancelled attempt) as [e'|] eqn:EC; [|by exists res, err].
  eexists _, _. split; [reflexivity|]. constructor; cbn; rewrite ?EO, ?EC; try done; auto.
Qed.
End RetryTheorems.

(** A retry loop always ends: it runs the operation at most one time more than the
    configured retries, stops at the first success, reports the value of the last
    attempt and the failures in order, and reports an error exactly when the last
    attempt failed, which is then the final one or followed by a cancelled wait. *)
Theorem RunWithRetry_spec {A} (zero : A) operation cancelled policy :
  0 <= maxRetries policy < int64_max ->
  exists res err, RunWithRetry zero operation cancelled policy = Some (res, err) /\
    retry_ok operation cancelled policy res err.
Proof.
  intros H. unfold RunWithRetry. rewrite wrap64_id by (unfold in_int64, int64_min, int64_max in *; lia).
  apply (retry_attempts_ok zero operation cancelled _ policy 1); lia.
Qed.

Lemma RunWithRetry_spec_witness :
  let op := fun k : Z => if k <? 3 then (0, Some (Errorf "reset")) else (42, None) in
  exists res err, RunWithRetry 0 op (fun _ => None) (mkRetryPolicy 5 second) = Some (res, err) /\
    1 <= rr_Attempts res <= 6.
Proof.
  intros op. destruct (RunWithRetry_spec 0 op (fun _ => None) (mkRetryPolicy 5 second)) as (res & err & H1 & H2).
  - split; vm_compute; [discriminate|reflexivity].
  - exists res, err. split; [exact H1|]. exact (ro_bounds _ _ _ _ _ H2).
Defined.

(** With the largest retry count the number of attempts overflows: the operation is
    never run and success is reported. *)
Theorem RunWithRetry_overflow {A} (zero : A) operation cancelled d :
  RunWithRetry zero operation cancelled (mkRetryPolicy int64_max d) = Some (mkRetryResult zero 0 0 [] "", None).
Proof. unfold RunWithRetry. reflexivity. Qed.
