(* ===== verification/GoSha1.v ===== *)
(** * crypto/sha1 and encoding/base64: StdEncoding

    SHA-1 (FIPS 180-4) on a list of bytes, with the padding and the word arithmetic of
    [GoCrypto], and the standard alphabet with padding, as the WebSocket handshake uses
    them. *)
From S2P Require Import Prelude GoStrings GoCrypto GoBase64.

Definition rotl (n x : Z) : Z := rotr (32 - n) x.
Record sha1_state := mkSha1 { s1a : Z; s1b : Z; s1c : Z; s1d : Z; s1e : Z }.
Definition sha1_init : sha1_state := mkSha1 0x67452301 0xefcdab89 0x98badcfe 0x10325476 0xc3d2e1f0.

Definition sha1_f (t : Z) (b c d : Z) : Z * Z :=
  if t <? 20 then (ch b c d, 0x5a827999)
  else if t <? 40 then (Z.lxor (Z.lxor b c) d, 0x6ed9eba1)
  else if t <? 60 then (maj b c d, 0x8f1bbcdc)
  else (Z.lxor (Z.lxor b c) d, 0xca62c1d6).
Definition sha1_round (s : sha1_state) (tw : Z * Z) : sha1_state :=
  let '(f, k) := sha1_f tw.1 (s1b s) (s1c s) (s1d s) in
  mkSha1 (w32 (rotl 5 (s1a s) + f + s1e s + k + tw.2)) (s1a s) (rotl 30 (s1b s)) (s1c s) (s1d s).

(** The schedule; [ws] holds the words so far, last first. *)
Fixpoint sha1_schedule (n : nat) (ws : list Z) : list Z :=
  match n with
  | O => reverse ws
  | S n =>
    let w i := default 0 (ws !! i) in
    sha1_schedule n (rotl 1 (Z.lxor (Z.lxor (w 2%nat) (w 7%nat)) (Z.lxor (w 13%nat) (w 15%nat))) :: ws)
  end.
Definition sha1_compress (s : sha1_state) (block : list Z) : sha1_state :=
  let t := fold_left sha1_round (zip (seqZ 0 80) (sha1_schedule 64 (reverse block))) s in
  mkSha1 (w32 (s1a s + s1a t)) (w32 (s1b s + s1b t)) (w32 (s1c s + s1c t)) (w32 (s1d s + s1d t)) (w32 (s1e s + s1e t)).
Fixpoint sha1_blocks (n : nat) (ws : list Z) (s : sha1_state) : sha1_state :=
  match n with
  | O => s
  | S n => sha1_blocks n (drop 16 ws) (sha1_compress s (take 16 ws))
  end.
Definition sha1 (msg : list Z) : list Z :=
  let ws := words_of (pad msg) in
  let s := sha1_blocks (length ws / 16) ws sha1_init in
  mbind (be_bytes 4) [s1a s; s1b s; s1c s; s1d s; s1e s].

Example sha1_abc : hex_string (sha1 (bytes_of "abc")) = "a9993e364706816aba3e25717850c26c9cd0d89d".
Proof. vm_compute. reflexivity. Qed.

Definition std_char (c : ascii) : ascii := if Ascii.eqb c "-" then "+" else if Ascii.eqb c "_" then "/" else c.
Definition StdEncodeToString (bs : list Z) : string :=
  let digits := map std_char (encode64 bs) in
  str (digits ++ replicate (Z.to_nat ((- zlen digits) `mod` 4)) "="%char).
