(* ===== verification/Router.v ===== *)
(** * HTTP handlers and the router: server/chicompat/chi.go, routes.go, middleware.go, router.go

    A handler is a function of the request, of what has been written to the response so
    far and of the state the handlers share; it may panic.  The response writer is the
    list of the calls it received; [response] is the response they make up and [sent] what
    net/http sends of it.  [Env] is what one request finds in the environment (clock, entropy,
    faults).  Informational statuses, which no handler of the agent writes, and a declared
    length smaller than the body are outside the model. *)
From S2P Require Import Prelude GoStrings Download.

Record Request := mkRequest {
  rq_Method : string; rq_Path : string; rq_Header : HeaderSet; rq_Body : string; rq_ContentLength : Z;
  rq_RemoteAddr : string
}.

Inductive rw_event :=
| SetHeader (name value : string)
| DelHeader (name : string)
| WriteHeader (status : Z)
| Write (payload : string).
Notation RW := (list rw_event).

Record Response := mkResponse { rs_Status : Z; rs_Header : HeaderSet; rs_Body : string }.

Fixpoint headers_of (h : HeaderSet) (w : RW) : HeaderSet :=
  match w with
  | [] => h
  | SetHeader name value :: w => headers_of (header_set name value h) w
  | DelHeader name :: w => headers_of (delete (CanonicalMIMEHeaderKey name) h) w
  | _ :: w => headers_of h w
  end.
(** The first call that sends the head of the response fixes status and headers. *)
Fixpoint head_of (h : HeaderSet) (w : RW) : Z * HeaderSet :=
  match w with
  | [] => (200, h)
  | SetHeader name value :: w => head_of (header_set name value h) w
  | DelHeader name :: w => head_of (delete (CanonicalMIMEHeaderKey name) h) w
  | WriteHeader status :: _ => (status, h)
  | Write _ :: _ => (200, h)
  end.
Fixpoint body_of (w : RW) : string :=
  match w with [] => "" | Write payload :: w => payload +:+ body_of w | _ :: w => body_of w end.
Definition response (w : RW) : Response := let '(status, h) := head_of ∅ w in mkResponse status h (body_of w).
(** Statuses without a body; the writes of a handler that set one fail. *)
Definition body_allowed (status : Z) : bool := negb ((100 <=? status) && (status <? 200) || (status =? 204) || (status =? 304)).
(** What the client receives: no body for such a status, nor in answer to HEAD. *)
Definition sent (request : Request) (w : RW) : Response :=
  let r := response w in
  mkResponse (rs_Status r) (rs_Header r)
    (if String.eqb (rq_Method request) "HEAD" || negb (body_allowed (rs_Status r)) then "" else rs_Body r).

(** [http.Error] and [http.NotFoundHandler]. *)
Definition http_Error (message : string) (code : Z) : RW :=
  [DelHeader "Content-Length"; SetHeader "Content-Type" "text/plain; charset=utf-8";
   SetHeader "X-Content-Type-Options" "nosniff"; WriteHeader code; Write (message +:+ newline)].

Section Router.
Context {Env State : Type}.

Definition Handler : Type := Env -> Request -> RW -> State -> RW * option string * State.
Definition Middleware : Type := Handler -> Handler.

(** A handler that writes and does not touch the state. *)
Definition writes (out : RW) : Handler := fun _ _ w s => (w ++ out, None, s).
Definition NotFoundHandler : Handler := writes (http_Error "404 page not found" 404).
(** Calling a nil function. *)
Definition nil_func : Handler := fun _ _ w s => (w, Some "runtime error: invalid memory address or nil pointer dereference", s).

(** ** chi *)
Record route := mkRoute { rt_method : string; rt_pattern : string; rt_handler : Handler }.
Record Mux := mkMux {
  mx_prefix : string; mx_routes : list route; mx_middlewares : list (option Middleware);
  mx_notFound : Handler; mx_methodNotAllowed : Handler
}.
Definition chi_NewRouter : Mux := mkMux "" [] [] NotFoundHandler (writes [WriteHeader 405]).

Definition joinPattern (prefix pattern : string) : string :=
  let cleanPrefix := TrimRightChar "/" (TrimSpace prefix) in
  let cleanPattern := TrimSpace pattern in
  let cleanPattern := if String.eqb cleanPattern "" then "/" else cleanPattern in
  let cleanPattern := if HasPrefix cleanPattern "/" then cleanPattern else "/" +:+ cleanPattern in
  if String.eqb cleanPrefix "" || String.eqb cleanPrefix "/" then cleanPattern
  else if String.eqb cleanPattern "/" then cleanPrefix
  else cleanPrefix +:+ cleanPattern.

Definition pathMatches (pattern path : string) : bool :=
  let pattern := if String.eqb pattern "" then "/" else pattern in
  if String.eqb pattern path then true
  else if HasSuffix pattern "/*" then HasPrefix path (TrimSuffix pattern "*")
  else false.

Definition Use (middlewares : list (option Middleware)) (mux : Mux) : Mux :=
  mkMux (mx_prefix mux) (mx_routes mux) (mx_middlewares mux ++ middlewares) (mx_notFound mux) (mx_methodNotAllowed mux).
Definition add_routes (routes : list route) (mux : Mux) : Mux :=
  mkMux (mx_prefix mux) (mx_routes mux ++ routes) (mx_middlewares mux) (mx_notFound mux) (mx_methodNotAllowed mux).
(** [clone] copies both slices, so that the child shares nothing with its parent. *)
Definition With (middlewares : list (option Middleware)) (mux : Mux) : Mux := Use middlewares mux.
Definition Group (fn : Mux -> Mux) (mux : Mux) : Mux * Mux :=
  let child := fn mux in (child, add_routes (mx_routes child) mux).
Definition Route (pattern : string) (fn : Mux -> Mux) (mux : Mux) : Mux * Mux :=
  let child := fn (mkMux (joinPattern (mx_prefix mux) pattern) [] (mx_middlewares mux) (mx_notFound mux) (mx_methodNotAllowed mux)) in
  (child, add_routes (mx_routes child) mux).
Definition Mount (pattern : string) (handler : option Handler) (mux : Mux) : Mux :=
  add_routes [mkRoute "" (joinPattern (mx_prefix mux) pattern) (default NotFoundHandler handler)] mux.
Definition Method (method pattern : string) (handler : option Handler) (mux : Mux) : Mux :=
  add_routes [mkRoute (ToUpper (TrimSpace method)) (joinPattern (mx_prefix mux) pattern) (default NotFoundHandler handler)] mux.
(** A nil function becomes an interface value that is not nil, and panics when called. *)
Definition MethodFunc (method pattern : string) (handler : option Handler) (mux : Mux) : Mux :=
  Method method pattern (Some (default nil_func handler)) mux.
Definition Handle (pattern : string) (handler : option Handler) (mux : Mux) : Mux := Method "" pattern handler mux.
Definition NotFound (handler : option Handler) (mux : Mux) : Mux :=
  match handler with
  | Some h => mkMux (mx_prefix mux) (mx_routes mux) (mx_middlewares mux) h (mx_methodNotAllowed mux)
  | None => mux
  end.
Definition MethodNotAllowed (handler : option Handler) (mux : Mux) : Mux :=
  match handler with
  | Some h => mkMux (mx_prefix mux) (mx_routes mux) (mx_middlewares mux) (mx_notFound mux) h
  | None => mux
  end.

(** The loop of [dispatch]; [seen] is the local variable methodNotAllowed. *)
Fixpoint dispatch_loop (mux : Mux) (routes : list route) (seen : bool) : Handler :=
  match routes with
  | [] => if seen then mx_methodNotAllowed mux else mx_notFound mux
  | candidate :: routes => fun e request =>
      if negb (pathMatches (rt_pattern candidate) (rq_Path request)) then dispatch_loop mux routes seen e request
      else if String.eqb (rt_method candidate) "" || String.eqb (rt_method candidate) (rq_Method request)
      then rt_handler candidate e request
      else dispatch_loop mux routes true e request
  end.
Definition dispatch (mux : Mux) : Handler := dispatch_loop mux (mx_routes mux) false.
Definition wrap_all (middlewares : list (option Middleware)) (handler : Handler) : Handler :=
  foldr (fun m h => match m with Some f => f h | None => h end) handler middlewares.
Definition ServeHTTP (mux : Mux) : Handler := wrap_all (mx_middlewares mux) (dispatch mux).

(** ** Routes *)
Record RouteDefinition := mkRouteDefinition { rd_Name : string; rd_Method : string; rd_Pattern : string; rd_Handler : option Handler }.
Record RouteInfo := mkRouteInfo { ri_Name : string; ri_Method : string; ri_Pattern : string }.

Definition NormalizeMethod (method : string) : string := ToUpper (TrimSpace method).
Definition NormalizePattern (pattern : string) : string :=
  let trimmed := TrimSpace pattern in
  if String.eqb trimmed "" then "" else if negb (HasPrefix trimmed "/") then "/" +:+ trimmed else trimmed.
Definition RouteName (method pattern : string) : string := NormalizeMethod method +:+ " " +:+ NormalizePattern pattern.
(** The keys of the map, in the order [SupportedHTTPMethods] returns them. *)
Definition supportedHTTPMethods : list string :=
  ["CONNECT"; "DELETE"; "GET"; "HEAD"; "OPTIONS"; "PATCH"; "POST"; "PUT"; "TRACE"].
Definition IsSupportedHTTPMethod (method : string) : bool :=
  existsb (String.eqb (NormalizeMethod method)) supportedHTTPMethods.

Definition NormalizeRouteDefinition (route : RouteDefinition) : result RouteDefinition :=
  let method := NormalizeMethod (rd_Method route) in
  if String.eqb method "" then Err (Errorf "route method cannot be empty")
  else if negb (IsSupportedHTTPMethod method) then Err (Errorf ("unsupported route method " +:+ Quote (rd_Method route)))
  else
    let pattern := NormalizePattern (rd_Pattern route) in
    if String.eqb pattern "" then Err (Errorf "route pattern cannot be empty")
    else if negb (HasPrefix pattern "/") then Err (Errorf ("route pattern " +:+ Quote (rd_Pattern route) +:+ " must start with /"))
    else match rd_Handler route with
         | None => Err (Errorf "route handler cannot be nil")
         | Some handler =>
             let name := TrimSpace (rd_Name route) in
             let name := if String.eqb name "" then RouteName method pattern else name in
             Ok (mkRouteDefinition name method pattern (Some handler))
         end.
Definition RouteDefinition_Info (route : RouteDefinition) : RouteInfo :=
  mkRouteInfo (rd_Name route) (rd_Method route) (rd_Pattern route).

Definition same_route (a b : RouteDefinition) : bool :=
  String.eqb (rd_Method a) (rd_Method b) && String.eqb (rd_Pattern a) (rd_Pattern b).
Definition RouteRegistry_Add (route : RouteDefinition) (registry : list RouteDefinition) : result (list RouteDefinition) :=
  normalized ← NormalizeRouteDefinition route;
  if existsb (fun existing => same_route existing normalized) registry
  then Err (Errorf ("route " +:+ rd_Method normalized +:+ " " +:+ rd_Pattern normalized +:+ " is already registered"))
  else Ok (registry ++ [normalized]).
Fixpoint add_all_routes (routes registry : list RouteDefinition) : result (list RouteDefinition) :=
  match routes with
  | [] => Ok registry
  | route :: routes => registry ← RouteRegistry_Add route registry; add_all_routes routes registry
  end.
Definition NewRouteRegistry (routes : list RouteDefinition) : result (list RouteDefinition) := add_all_routes routes [].
Definition RouteRegistry_Snapshot (registry : list RouteDefinition) : list RouteInfo := map RouteDefinition_Info registry.

Definition RegisterRouteDefinition (route : RouteDefinition) (router : Mux) : result Mux :=
  normalized ← NormalizeRouteDefinition route;
  Ok (MethodFunc (rd_Method normalized) (rd_Pattern normalized) (rd_Handler normalized) router).
Fixpoint RegisterRoutes (routes : list RouteDefinition) (router : Mux) : result Mux :=
  match routes with
  | [] => Ok router
  | route :: routes => router ← RegisterRouteDefinition route router; RegisterRoutes routes router
  end.

(** ** Middleware *)
Record MiddlewareDefinition := mkMiddlewareDefinition { md_Name : string; md_Handler : option Middleware }.
Definition NormalizeMiddlewareName (name : string) : string := ToLower (TrimSpace name).
Definition NormalizeMiddlewareDefinition (middleware : MiddlewareDefinition) : result MiddlewareDefinition :=
  let name := NormalizeMiddlewareName (md_Name middleware) in
  if String.eqb name "" then Err (Errorf "middleware name cannot be empty")
  else match md_Handler middleware with
       | None => Err (Errorf "middleware handler cannot be nil")
       | Some handler => Ok (mkMiddlewareDefinition name (Some handler))
       end.
Definition MiddlewareRegistry_Add (middleware : MiddlewareDefinition) (registry : list MiddlewareDefinition)
  : result (list MiddlewareDefinition) :=
  normalized ← NormalizeMiddlewareDefinition middleware;
  if existsb (fun existing => String.eqb (md_Name existing) (md_Name normalized)) registry
  then Err (Errorf ("middleware " +:+ md_Name normalized +:+ " is already registered"))
  else Ok (registry ++ [normalized]).
Fixpoint add_all_middlewares (middlewares registry : list MiddlewareDefinition) : result (list MiddlewareDefinition) :=
  match middlewares with
  | [] => Ok registry
  | m :: middlewares => registry ← MiddlewareRegistry_Add m registry; add_all_middlewares middlewares registry
  end.
Definition MiddlewareRegistry_Snapshot (registry : list MiddlewareDefinition) : list string := map md_Name registry.
Fixpoint RegisterMiddlewares (middlewares : list MiddlewareDefinition) (router : Mux) : result Mux :=
  match middlewares with
  | [] => Ok router
  | m :: middlewares =>
      normalized ← NormalizeMiddlewareDefinition m;
      RegisterMiddlewares middlewares (Use [md_Handler normalized] router)
  end.

(** *** Log lines

    The levels of zerolog; a line below the level of the logger or the global one is not
    written. *)
Definition InfoLevel : Z := 1.
Definition WarnLevel : Z := 2.
Definition ErrorLevel : Z := 3.
Record request_fields := mkRequestFields { rf_method : string; rf_path : string; rf_request_id : string }.
Record access_line := mkAccessLine {
  al_level : Z; al_request : request_fields; al_status : Z; al_duration : Z; al_bytes : Z; al_remote_addr : string; al_user_agent : string
}.
(** The line of a recovered panic has the fields of the request when the request logger runs
    outside the recoverer and has put its logger in the context. *)
Record panic_line := mkPanicLine { pl_request : option request_fields; pl_panic : string }.
Inductive log_line := Access (line : access_line) | Recovered (line : panic_line).
Definition line_level (l : log_line) : Z := match l with Access line => al_level line | Recovered _ => ErrorLevel end.
(** A logger: its level, where a line goes, and the time a request took, in milliseconds. *)
Record HttpLog := mkHttpLog { hl_level : Z; hl_emit : log_line -> State -> State; hl_elapsed : Env -> Z }.
Definition log_to (log : HttpLog) (l : log_line) (s : State) : State :=
  if hl_level log <=? line_level l then hl_emit log l s else s.
Definition fields_of (request : Request) : request_fields :=
  mkRequestFields (rq_Method request) (rq_Path request) (TrimSpace (header_get "X-Request-Id" (rq_Header request))).

(** [Recoverer]: a panic is logged and becomes an internal server error. *)
Definition Recoverer (log : HttpLog) (scoped : bool) : Middleware := fun next e request w s =>
  match next e request w s with
  | (w', Some v, s') =>
      (w' ++ http_Error "Internal Server Error" 500, None,
       log_to log (Recovered (mkPanicLine (if scoped then Some (fields_of request) else None) v)) s')
  | done => done
  end.

(** [logger.RequestLogger]: one line for a request that returns; [status] is the last one
    the handler set and [bytes] what its writes returned, which is nothing for a status without
    a body and the length of the body, which is not sent, for HEAD. *)
Definition observed_status (w : RW) : Z :=
  foldl (fun status event => match event with WriteHeader code => code | _ => status end) 200 w.
Definition bytes_written (w : RW) : Z := if body_allowed (rs_Status (response w)) then slen (body_of w) else 0.
Definition access_level (status : Z) : Z :=
  if 500 <=? status then ErrorLevel else if 400 <=? status then WarnLevel else InfoLevel.
Definition RequestLogger (log : HttpLog) : Middleware := fun next e request w s =>
  match next e request w s with
  | (w', None, s') =>
      let mine := drop (length w) w' in
      let durationMS := if hl_elapsed log e <? 0 then 0 else hl_elapsed log e in
      let status := observed_status mine in
      (w', None, log_to log (Access (mkAccessLine (access_level status) (fields_of request) status durationMS (bytes_written mine)
        (rq_RemoteAddr request) (header_get "User-Agent" (rq_Header request)))) s')
  | panicked => panicked
  end.

Definition DefaultMiddlewareRegistry (log : HttpLog) (requestLogging recoverPanics : bool) (extra : list MiddlewareDefinition)
  : result (list MiddlewareDefinition) :=
  registry ← (if requestLogging then MiddlewareRegistry_Add (mkMiddlewareDefinition "request_logger" (Some (RequestLogger log))) []
              else Ok []);
  registry ← (if recoverPanics then MiddlewareRegistry_Add (mkMiddlewareDefinition "recoverer" (Some (Recoverer log requestLogging))) registry
              else Ok registry);
  add_all_middlewares extra registry.

Definition BuildRouter (log : HttpLog) (requestLogging recoverPanics : bool) (middlewares : list MiddlewareDefinition)
  (routes : list RouteDefinition) : result Mux :=
  registry ← DefaultMiddlewareRegistry log requestLogging recoverPanics middlewares;
  router ← RegisterMiddlewares registry chi_NewRouter;
  RegisterRoutes routes router.

(** ** Which handler serves a request *)
Definition serves_path (request : Request) (r : route) : bool := pathMatches (rt_pattern r) (rq_Path request).
Definition serves (request : Request) (r : route) : bool :=
  serves_path request r && (String.eqb (rt_method r) "" || String.eqb (rt_method r) (rq_Method request)).

Lemma dispatch_loop_find mux e request routes seen :
  dispatch_loop mux routes seen e request =
  match List.find (serves request) routes with
  | Some r => rt_handler r e request
  | None => (if seen || existsb (serves_path request) routes then mx_methodNotAllowed mux else mx_notFound mux) e request
  end.
Proof.
  revert seen. induction routes as [|r routes IH]; intros seen; cbn; [by rewrite orb_false_r; destruct seen|].
  unfold serves, serves_path. destruct (pathMatches (rt_pattern r) (rq_Path request)); cbn; [|by rewrite IH].
  destruct (String.eqb (rt_method r) "" || _); [done|]. rewrite IH. by rewrite orb_true_r.
Qed.

(** The first registered route that accepts path and method serves the request; a known
    path with another method gets the handler for methods, any other path the one for
    unknown paths. *)
Theorem dispatch_spec mux e request :
  dispatch mux e request =
  match List.find (serves request) (mx_routes mux) with
  | Some r => rt_handler r e request
  | None => (if existsb (serves_path request) (mx_routes mux) then mx_methodNotAllowed mux else mx_notFound mux) e request
  end.
Proof. apply dispatch_loop_find. Qed.

(** ** Registered routes are normal *)
Definition normal_pattern (p : string) : Prop := p <> "" /\ HasPrefix p "/" = true /\ TrimSpace p = p.
Definition normal_route (d : RouteDefinition) : Prop :=
  rd_Method d ∈ supportedHTTPMethods /\ normal_pattern (rd_Pattern d) /\ is_Some (rd_Handler d).

Lemma NormalizePattern_normal p : NormalizePattern p <> "" -> normal_pattern (NormalizePattern p).
Proof.
  unfold NormalizePattern, normal_pattern. destruct (String.eqb_spec (TrimSpace p) ""); [done|]. intros _.
  destruct (HasPrefix (TrimSpace p) "/") eqn:E; cbn [negb]; [by rewrite TrimSpace_idemp|].
  split_and!; [done|apply (HasPrefix_app "/")|]. apply TrimSpace_cons; [done|apply TrimSpace_idemp].
Qed.

Lemma NormalizeRouteDefinition_Ok d n : NormalizeRouteDefinition d = Ok n ->
  normal_route n /\ rd_Method n = NormalizeMethod (rd_Method d) /\ rd_Pattern n = NormalizePattern (rd_Pattern d) /\
  rd_Handler n = rd_Handler d.
Proof.
  unfold NormalizeRouteDefinition, IsSupportedHTTPMethod. set (m := NormalizeMethod (rd_Method d)).
  destruct (String.eqb_spec m ""); [done|].
  destruct (existsb _ supportedHTTPMethods) eqn:EM; cbn [negb]; [|done].
  destruct (String.eqb_spec (NormalizePattern (rd_Pattern d)) "") as [|Hp]; [done|].
  destruct (HasPrefix (NormalizePattern (rd_Pattern d)) "/") eqn:EP; cbn [negb]; [|done].
  destruct (rd_Handler d) as [h|]; [|done]. intros [= <-]. unfold normal_route. cbn [rd_Method rd_Pattern rd_Handler].
  split_and!; try done; [|by apply NormalizePattern_normal].
  assert (forall l, existsb (String.eqb (NormalizeMethod m)) l = true -> NormalizeMethod m ∈ l) as HE.
  { intros l (x & Hx & ->%String.eqb_eq)%existsb_exists. by apply list_elem_of_In. }
  apply HE in EM. unfold m in *. unfold NormalizeMethod in *.
  assert (ToUpper (TrimSpace (ToUpper (TrimSpace (rd_Method d)))) = ToUpper (TrimSpace (rd_Method d))) as <-; [|done].
  rewrite TrimSpace_ToUpper, TrimSpace_idemp. apply ToUpper_idemp.
Qed.

Lemma RouteRegistry_Add_Ok d registry registry' : RouteRegistry_Add d registry = Ok registry' ->
  exists n, registry' = registry ++ [n] /\ NormalizeRouteDefinition d = Ok n /\
    forall x, x ∈ registry -> (rd_Method x, rd_Pattern x) <> (rd_Method n, rd_Pattern n).
Proof.
  unfold RouteRegistry_Add. intros (n & HN & H)%bind_Ok. destruct (existsb _ _) eqn:EX; [done|]. injection H as <-.
  exists n. split_and!; [done|done|]. intros x Hx [= HM HP].
  apply list_elem_of_In in Hx. assert (existsb (fun existing => same_route existing n) registry = true); [|congruence].
  apply existsb_exists. exists x. split; [done|]. unfold same_route. by rewrite HM, HP, !String.eqb_refl.
Qed.

Definition route_keys (registry : list RouteDefinition) : list (string * string) :=
  map (fun d => (rd_Method d, rd_Pattern d)) registry.

Lemma add_all_routes_Ok routes registry registry' : add_all_routes routes registry = Ok registry' ->
  exists added, registry' = registry ++ added /\ Forall2 (fun d n => NormalizeRouteDefinition d = Ok n) routes added /\
    (NoDup (route_keys registry) -> NoDup (route_keys registry')).
Proof.
  revert registry. induction routes as [|d routes IH]; intros registry; cbn [add_all_routes].
  { intros [= <-]. exists []. by rewrite app_nil_r. }
  intros (registry1 & (n & -> & HN & HD)%RouteRegistry_Add_Ok & (added & -> & HF & HK)%IH)%bind_Ok.
  exists (n :: added). rewrite <- app_assoc. split_and!; [done|by constructor|].
  intros HR. rewrite <- app_assoc in HK. apply HK. unfold route_keys in *. rewrite map_app. apply NoDup_app. split_and!; [done| |apply NoDup_singleton].
  intros k (x & Hx & Hin)%list_elem_of_fmap ->%list_elem_of_singleton. by apply (HD x).
Qed.

(** A registry holds the accepted definitions in order, in normal form, and no method and
    pattern twice. *)
Theorem route_registry_invariant routes registry : NewRouteRegistry routes = Ok registry ->
  Forall2 (fun d n => NormalizeRouteDefinition d = Ok n) routes registry /\ Forall normal_route registry /\
  NoDup (route_keys registry).
Proof.
  intros (added & -> & HF & HK)%add_all_routes_Ok. cbn [app]. split_and!; [done| |apply HK, NoDup_nil_2].
  clear HK. induction HF as [|d n routes added HN _ IH]; constructor; [by apply NormalizeRouteDefinition_Ok in HN as [? _]|done].
Qed.

(** Definitions with a known method, a path and a handler are accepted when no method and path
    occurs twice. *)
Definition routable (d : RouteDefinition) : Prop :=
  rd_Method d ∈ supportedHTTPMethods /\ HasPrefix (rd_Pattern d) "/" = true /\ is_Some (rd_Handler d).
Definition route_key (d : RouteDefinition) : string * string := (rd_Method d, NormalizePattern (rd_Pattern d)).

Lemma supported_normal m : m ∈ supportedHTTPMethods -> NormalizeMethod m = m.
Proof.
  intros H. assert (forallb (fun m => String.eqb (NormalizeMethod m) m) supportedHTTPMethods = true) as HF by (vm_compute; done).
  rewrite forallb_forall in HF. apply String.eqb_eq, HF. by apply list_elem_of_In.
Qed.

Lemma routable_normalizes d : routable d -> exists n, NormalizeRouteDefinition d = Ok n /\ (rd_Method n, rd_Pattern n) = route_key d.
Proof.
  intros (HM & HP & (h & Hh)). pose proof (supported_normal _ HM) as HU.
  assert (TrimSpace (rd_Pattern d) <> "") as HT.
  { destruct (rd_Pattern d) as [|c p]; [done|]. apply is_prefix_spec in HP as [k HP]. injection HP as -> _. by apply (TrimSpace_visible _ "/"%char); [left|]. }
  assert (NormalizePattern (rd_Pattern d) <> "") as HN.
  { unfold NormalizePattern. rewrite (proj2 (String.eqb_neq _ _) HT). destruct (negb _); [done|exact HT]. }
  destruct (NormalizePattern_normal _ HN) as (_ & HS & _). unfold NormalizeRouteDefinition, IsSupportedHTTPMethod. rewrite HU, HU.
  assert (existsb (String.eqb (rd_Method d)) supportedHTTPMethods = true) as ->.
  { apply existsb_exists. exists (rd_Method d). by rewrite String.eqb_refl, <- list_elem_of_In. }
  destruct (String.eqb_spec (rd_Method d) "") as [Hm|_]; [rewrite Hm in HM; by apply (bool_decide_pack _) in HM|]. cbn [negb].
  rewrite (proj2 (String.eqb_neq _ _) HN), HS, Hh. cbn [negb]. by eexists.
Qed.

Lemma add_all_routes_total routes registry : Forall routable routes -> NoDup (route_keys registry ++ map route_key routes) ->
  exists registry', add_all_routes routes registry = Ok registry'.
Proof.
  intros HF. revert registry. induction HF as [|d routes Hd _ IH]; intros registry HN; cbn [add_all_routes map] in *; [eauto|].
  destruct (routable_normalizes d Hd) as (n & EN & HK). unfold RouteRegistry_Add. rewrite EN. cbn [mbind result_bind].
  rewrite <- HK, cons_middle, app_assoc in HN.
  destruct (existsb _ _) eqn:EX.
  - exfalso. apply existsb_exists in EX as (x & Hx & [E1%String.eqb_eq E2%String.eqb_eq]%andb_true_iff).
    apply NoDup_app in HN as (HN & _ & _). apply NoDup_app in HN as (_ & HD & _). apply (HD (rd_Method n, rd_Pattern n)); [|by left].
    unfold route_keys. apply list_elem_of_In, in_map_iff. exists x. by rewrite E1, E2.
  - cbn [mbind result_bind]. apply IH. unfold route_keys in *. by rewrite map_app.
Qed.

(** ** Routers built from a registry *)
Definition to_route (d : RouteDefinition) : route := mkRoute (rd_Method d) (rd_Pattern d) (default nil_func (rd_Handler d)).

Lemma joinPattern_root p : normal_pattern p -> joinPattern "" p = p.
Proof.
  intros (HN & HP & HT). unfold joinPattern. rewrite HT, (proj2 (String.eqb_neq _ _) HN), HP. done.
Qed.

Lemma supported_method_normal m : m ∈ supportedHTTPMethods -> ToUpper (TrimSpace m) = m.
Proof.
  intros H. assert (forallb (fun m => String.eqb (ToUpper (TrimSpace m)) m) supportedHTTPMethods = true) as HF by (vm_compute; done).
  rewrite forallb_forall in HF. apply String.eqb_eq, HF. by apply list_elem_of_In.
Qed.

Lemma normal_route_normalizes d : normal_route d ->
  exists n, NormalizeRouteDefinition d = Ok n /\ to_route n = to_route d /\ normal_route n.
Proof.
  intros (HM & HP & (h & Hh)). pose proof (supported_method_normal _ HM) as HU.
  assert (NormalizePattern (rd_Pattern d) = rd_Pattern d) as HNP.
  { destruct HP as (H1 & H2 & H3). unfold NormalizePattern. by rewrite H3, (proj2 (String.eqb_neq _ _) H1), H2. }
  unfold NormalizeRouteDefinition, IsSupportedHTTPMethod, NormalizeMethod. rewrite HNP, HU, HU, Hh.
  destruct (String.eqb_spec (rd_Method d) "") as [Hm|_]; [rewrite Hm in HM; by apply (bool_decide_pack _) in HM|].
  assert (existsb (String.eqb (rd_Method d)) supportedHTTPMethods = true) as ->.
  { apply existsb_exists. exists (rd_Method d). by rewrite String.eqb_refl, <- list_elem_of_In. }
  destruct HP as (H1 & H2 & H3). rewrite (proj2 (String.eqb_neq _ _) H1), H2. cbn [negb].
  eexists. split; [done|]. unfold to_route. cbn. rewrite Hh. split; [done|]. unfold normal_route. cbn. split_and!; try done.
Qed.

Lemma RegisterRoutes_normal routes mux : Forall normal_route routes -> mx_prefix mux = "" ->
  RegisterRoutes routes mux = Ok (add_routes (map to_route routes) mux).
Proof.
  intros HF. revert mux. induction HF as [|d routes Hd _ IH]; intros mux Hmux; cbn [RegisterRoutes map].
  { unfold add_routes. rewrite app_nil_r. by destruct mux. }
  destruct (normal_route_normalizes d Hd) as (n & HN & HT & (HM & HP & _)). unfold RegisterRouteDefinition. rewrite HN. cbn [mbind result_bind].
  unfold MethodFunc, Method. rewrite Hmux, joinPattern_root, supported_method_normal by done.
  change (mkRoute (rd_Method n) (rd_Pattern n) (default NotFoundHandler (Some (default nil_func (rd_Handler n))))) with (to_route n).
  rewrite IH by done. unfold add_routes. cbn. by rewrite <- app_assoc, HT.
Qed.

Lemma RegisterMiddlewares_shape middlewares mux mux' : RegisterMiddlewares middlewares mux = Ok mux' ->
  mux' = Use (map md_Handler middlewares) mux.
Proof.
  revert mux. induction middlewares as [|m middlewares IH]; intros mux; cbn [RegisterMiddlewares map].
  { intros [= <-]. unfold Use. rewrite app_nil_r. by destruct mux. }
  intros (n & HN & ->%IH)%bind_Ok. unfold Use. cbn. rewrite <- app_assoc. cbn. f_equal. f_equal.
  unfold NormalizeMiddlewareDefinition in HN. destruct (String.eqb _ ""); [done|]. destruct m as [name [h|]]; [|done]. by injection HN as <-.
Qed.

Lemma BuildRouter_shape log logging recover middlewares registry mux : Forall normal_route registry ->
  BuildRouter log logging recover middlewares registry = Ok mux ->
  exists chain, DefaultMiddlewareRegistry log logging recover middlewares = Ok chain /\
    mx_routes mux = map to_route registry /\ mx_middlewares mux = map md_Handler chain /\
    mx_notFound mux = NotFoundHandler /\ mx_methodNotAllowed mux = writes [WriteHeader 405].
Proof.
  intros HF (chain & HD & (m & ->%RegisterMiddlewares_shape & HR)%bind_Ok)%bind_Ok.
  rewrite RegisterRoutes_normal in HR by done. injection HR as <-. exists chain. done.
Qed.

(** A registered route serves the requests for its method and path, in whatever order the
    routes were given, unless another route covers the path with a wildcard. *)
Theorem registered_route_is_served log logging recover middlewares routes registry mux d h e request :
  NewRouteRegistry routes = Ok registry -> BuildRouter log logging recover middlewares registry = Ok mux ->
  d ∈ routes -> rd_Handler d = Some h ->
  rq_Method request = NormalizeMethod (rd_Method d) -> rq_Path request = NormalizePattern (rd_Pattern d) ->
  (forall other, other ∈ routes -> pathMatches (NormalizePattern (rd_Pattern other)) (rq_Path request) = true ->
     NormalizePattern (rd_Pattern other) = rq_Path request) ->
  dispatch mux e request = h e request.
Proof.
  intros (HF & HN & HD)%route_registry_invariant HB Hd Hh HM HP HW.
  destruct (BuildRouter_shape _ _ _ _ _ _ HN HB) as (_ & _ & HR & _).
  assert (forall x, x ∈ registry -> exists o, o ∈ routes /\ NormalizeRouteDefinition o = Ok x) as Horigin.
  { intros x (i & Hi)%list_elem_of_lookup. destruct (Forall2_lookup_r _ _ _ _ _ HF Hi) as (o & Ho & HO).
    exists o. split; [by eapply list_elem_of_lookup_2|done]. }
  assert (exists n, n ∈ registry /\ NormalizeRouteDefinition d = Ok n) as (n & Hn & HO).
  { apply list_elem_of_lookup in Hd as (i & Hi). destruct (Forall2_lookup_l _ _ _ _ _ HF Hi) as (n & Hn & HO).
    exists n. split; [by eapply list_elem_of_lookup_2|done]. }
  apply NormalizeRouteDefinition_Ok in HO as (_ & Nm & Np & Nh).
  rewrite dispatch_spec, HR. destruct (List.find _ _) as [r|] eqn:EF.
  - apply find_some in EF as [HI HS]. apply in_map_iff in HI as (x & <- & Hx%list_elem_of_In).
    unfold serves, serves_path in HS. cbn [to_route rt_pattern rt_method] in HS.
    apply andb_true_iff in HS as [HPM HME]. destruct (Horigin x Hx) as (o & Ho & HOx).
    apply NormalizeRouteDefinition_Ok in HOx as ((XM & _) & Xm & Xp & _).
    assert (rd_Pattern x = rd_Pattern n) as EP by (rewrite Np, <- HP, Xp; apply HW; [done|by rewrite <- Xp]).
    assert (rd_Method x = rd_Method n) as EM.
    { apply orb_true_iff in HME as [HE%String.eqb_eq|HE%String.eqb_eq].
      - rewrite HE in XM. by apply (bool_decide_pack _) in XM.
      - by rewrite HE, HM, Nm. }
    assert (x = n) as ->.
    { apply list_elem_of_lookup in Hx as (i & Hi), Hn as (j & Hj).
      assert (i = j) as ->; [|congruence]. eapply NoDup_lookup; [exact HD|..]; unfold route_keys; rewrite list_lookup_fmap.
      - by rewrite Hi. - rewrite Hj. cbn. by rewrite EP, EM. }
    cbn. by rewrite Nh, Hh.
  - assert (serves request (to_route n) = true) as HS.
    { unfold serves, serves_path, pathMatches. cbn [to_route rt_pattern rt_method].
      assert (rd_Pattern n <> "") as Hne by (rewrite Forall_forall in HN; by apply HN in Hn as (_ & (? & _) & _)).
      rewrite (proj2 (String.eqb_neq _ _) Hne), Np, <- HP, String.eqb_refl, Nm, <- HM, String.eqb_refl. by rewrite orb_true_r. }
    rewrite (find_none _ _ EF (to_route n)) in HS; [done|]. apply in_map. by apply list_elem_of_In.
Qed.

(** ** Logger and recoverer around everything else *)
Lemma add_all_middlewares_handlers extra registry chain : add_all_middlewares extra registry = Ok chain ->
  map md_Handler chain = map md_Handler registry ++ map md_Handler extra.
Proof.
  revert registry. induction extra as [|m extra IH]; intros registry; cbn [add_all_middlewares map].
  { intros [= <-]. by rewrite app_nil_r. }
  intros (registry1 & HA & ->%IH)%bind_Ok. unfold MiddlewareRegistry_Add in HA. apply bind_Ok in HA as (n & HN & HA).
  destruct (existsb _ _); [done|]. injection HA as <-. rewrite map_app, <- app_assoc. cbn. f_equal. f_equal.
  unfold NormalizeMiddlewareDefinition in HN. destruct (String.eqb _ ""); [done|]. destruct m as [name [h|]]; [|done]. by injection HN as <-.
Qed.

Lemma default_chain log extra chain registry mux : DefaultMiddlewareRegistry log true true extra = Ok chain ->
  BuildRouter log false false chain registry = Ok mux ->
  mx_middlewares mux = Some (RequestLogger log) :: Some (Recoverer log true) :: map md_Handler extra.
Proof.
  intros HC%add_all_middlewares_handlers HB. cbn in HC. rewrite <- HC.
  unfold BuildRouter in HB. apply bind_Ok in HB as (chain' & HD%add_all_middlewares_handlers & HB).
  apply bind_Ok in HB as (m & ->%RegisterMiddlewares_shape & HR). cbn [map app] in HD.
  assert (forall routes m m', RegisterRoutes routes m = Ok m' -> mx_middlewares m' = mx_middlewares m) as Hkeep.
  { induction routes as [|d routes IH]; intros m m'; cbn; [by intros [= <-]|].
    intros (m1 & H1 & ->%IH)%bind_Ok. unfold RegisterRouteDefinition in H1. by apply bind_Ok in H1 as (n & _ & [= <-]). }
  rewrite (Hkeep _ _ _ HR). cbn. exact HD.
Qed.

(** Nothing has been sent yet. *)
Definition unsent (w : RW) : bool := forallb (fun event => match event with WriteHeader _ | Write _ => false | _ => true end) w.
(** The head of the response is sent once. *)
Fixpoint orderly (sent : bool) (w : RW) : bool :=
  match w with
  | [] => true
  | WriteHeader _ :: w => negb sent && orderly true w
  | Write _ :: w => orderly true w
  | _ :: w => orderly sent w
  end.

Lemma orderly_sent w status : orderly true w = true ->
  foldl (fun status event => match event with WriteHeader code => code | _ => status end) status w = status.
Proof. induction w as [|[]]; cbn; done || auto. Qed.
Lemma orderly_status w h : orderly false w = true -> (head_of h w).1 = observed_status w.
Proof.
  unfold observed_status. revert h. induction w as [|[] w IH]; intros h; cbn; try done; [apply IH|apply IH|..];
    intros HO; by rewrite orderly_sent.
Qed.

(** C10: behind the logger and the recoverer no request panics, whatever middlewares and handlers
    do.  A panic becomes an internal server error, also in the response when nothing had been
    sent, and is logged at error level with its text and the fields of the request; every
    request, also one that panicked, then leaves one access line with method, path and remote
    address, each of the two when its level is enabled.  The access line has the number of bytes
    the client received, HEAD apart, where it has those of the body that is not sent, and the
    status the client received when the head of the response was sent once; a handler that
    panics after it has sent its head is logged with 500 whatever the client has seen. *)
Theorem requests_are_answered log extra chain registry mux e request s :
  DefaultMiddlewareRegistry log true true extra = Ok chain ->
  BuildRouter log false false chain registry = Ok mux ->
  exists w panic s' out line,
    wrap_all (map md_Handler extra) (dispatch mux) e request [] s = (w, panic, s') /\
    ServeHTTP mux e request [] s = (out, None, log_to log (Access line)
      (match panic with Some v => log_to log (Recovered (mkPanicLine (Some (fields_of request)) v)) s' | None => s' end)) /\
    al_request line = fields_of request /\ al_remote_addr line = rq_RemoteAddr request /\
    (rq_Method request <> "HEAD" -> al_bytes line = slen (rs_Body (sent request out))) /\
    (panic = None -> out = w) /\
    (panic <> None -> al_status line = 500 /\ al_level line = ErrorLevel /\ (unsent w = true -> rs_Status (sent request out) = 500)) /\
    (orderly false out = true -> al_status line = rs_Status (sent request out)).
Proof.
  intros HC HB. unfold ServeHTTP. rewrite (default_chain _ _ _ _ _ HC HB). cbn [wrap_all foldr].
  fold (wrap_all (map md_Handler extra) (dispatch mux)).
  assert (forall out, rs_Body (response out) = body_of out /\ rs_Status (response out) = (head_of ∅ out).1) as HRS.
  { intros out. unfold response. by destruct (head_of ∅ out). }
  destruct (wrap_all (map md_Handler extra) (dispatch mux) e request [] s) as [[w panic] s'] eqn:EW.
  set (out := match panic with None => w | Some _ => w ++ http_Error "Internal Server Error" 500 end).
  exists w, panic, s', out. unfold RequestLogger, Recoverer. cbn [length drop]. rewrite EW.
  assert (rq_Method request <> "HEAD" -> bytes_written out = slen (rs_Body (sent request out))) as HBy.
  { intros HM%String.eqb_neq. unfold bytes_written, sent. cbn [rs_Body]. rewrite HM. cbn [orb]. rewrite (proj1 (HRS out)).
    by destruct (body_allowed _). }
  destruct panic as [v|]; cbn [drop length] in *; rewrite drop_0; fold out;
    (eexists; split_and!; [done|reflexivity|done|done|exact HBy|done|..|intros HO; unfold sent; cbn [rs_Status]; by rewrite (proj2 (HRS out)), orderly_status]).
  - intros _. cbn [al_status al_level]. assert (observed_status out = 500) as -> by (unfold out, observed_status; by rewrite foldl_app).
    split; [done|]. split; [done|]. intros HH. unfold sent. cbn [rs_Status]. rewrite (proj2 (HRS out)). unfold out. generalize (∅ : HeaderSet).
    clear -HH. induction w as [|[] w IH]; intros h; cbn in *; done || by apply IH.
  - done.
Qed.
End Router.

(** ** Witnesses and observations *)
Definition count_handler (text : string) : @Handler unit nat := fun _ _ w s => (w ++ [WriteHeader 202; Write text], None, S s).
Definition get_request (path : string) : Request := mkRequest "GET" path ∅ "" 0 "10.0.0.1:50000".
Definition quiet_log {E S} : @HttpLog E S := mkHttpLog 7 (fun _ s => s) (fun _ => 0).
Definition sample_definitions : list (@RouteDefinition unit nat) :=
  [mkRouteDefinition "" "get" "jobs " (Some (count_handler "list")); mkRouteDefinition "create" "POST" "/jobs" (Some (count_handler "create"));
   mkRouteDefinition "stream" "GET" "/media/*" (Some (count_handler "stream"))].

Lemma registered_route_is_served_witness :
  exists registry mux, NewRouteRegistry sample_definitions = Ok registry /\ BuildRouter quiet_log false false [] registry = Ok mux /\
    dispatch mux tt (get_request "/jobs") [] 0%nat = ([WriteHeader 202; Write "list"], None, 1%nat).
Proof.
  destruct (NewRouteRegistry sample_definitions) as [registry|] eqn:E1; [|vm_compute in E1; discriminate E1].
  exists registry. destruct (BuildRouter quiet_log false false [] registry) as [mux|] eqn:E2; [|vm_compute in E1; injection E1 as <-; vm_compute in E2; discriminate E2].
  exists mux. split; [done|]. split; [done|].
  rewrite (registered_route_is_served quiet_log false false [] sample_definitions _ _
    (mkRouteDefinition "" "get" "jobs " (Some (count_handler "list"))) (count_handler "list") tt (get_request "/jobs")
    E1 E2); [reflexivity|by left|reflexivity|vm_compute; reflexivity|vm_compute; reflexivity|].
  intros other Hother. unfold sample_definitions in Hother. rewrite !elem_of_cons, elem_of_nil in Hother.
  destruct Hother as [->|[->|[->|[]]]]; vm_compute; congruence.
Defined.

Definition sample_log : @HttpLog unit nat :=
  mkHttpLog InfoLevel (fun line s => match line with Access line => s + Z.to_nat (al_status line) | Recovered _ => S s end)%nat (fun _ => 3).
Definition broken_handler : @Handler unit nat := fun _ _ w s => (w, Some "boom", s).
Lemma requests_are_answered_witness :
  exists chain mux, DefaultMiddlewareRegistry sample_log true true [] = Ok chain /\
    BuildRouter sample_log false false chain [mkRouteDefinition "" "GET" "/boom" (Some broken_handler)] = Ok mux /\
    exists out line s, ServeHTTP mux tt (get_request "/boom") [] 0%nat = (out, None, log_to sample_log (Access line) s) /\
      al_status line = 500 /\ rs_Status (sent (get_request "/boom") out) = 500.
Proof.
  destruct (DefaultMiddlewareRegistry sample_log true true []) as [chain|] eqn:E1; [|vm_compute in E1; discriminate E1].
  exists chain. destruct (BuildRouter sample_log false false chain [mkRouteDefinition "" "GET" "/boom" (Some broken_handler)]) as [mux|] eqn:E2;
    [|vm_compute in E1; injection E1 as <-; vm_compute in E2; discriminate E2].
  exists mux. split; [done|]. split; [done|].
  destruct (requests_are_answered sample_log [] chain [mkRouteDefinition "" "GET" "/boom" (Some broken_handler)] mux
    tt (get_request "/boom") 0%nat E1 E2) as (w & panic & s' & out & line & H1 & H2 & _ & _ & _ & _ & H3 & _).
  vm_compute in E1. injection E1 as <-. vm_compute in E2. injection E2 as <-. vm_compute in H1. injection H1 as <- <- <-.
  exists out, line. eexists. split; [exact H2|]. destruct H3 as (H3 & _ & H4); [discriminate|]. split; [exact H3|by apply H4].
Defined.

(** A handler that has sent its head and then panics: the client has seen 200, the log says 500. *)
Definition late_panic : @Handler unit (list log_line) := fun _ _ w s => (w ++ [WriteHeader 200; Write "part"], Some "boom", s).
Definition list_log : @HttpLog unit (list log_line) := mkHttpLog InfoLevel (fun line s => s ++ [line]) (fun _ => 3).
Theorem late_panic_is_logged_500 :
  let '(out, _, lines) := RequestLogger list_log (Recoverer list_log true late_panic) tt (get_request "/x") [] [] in
  rs_Status (sent (get_request "/x") out) = 200 /\
  map (fun l => match l with Access line => al_status line | Recovered _ => 0 end) lines = [0; 500].
Proof. vm_compute. done. Qed.

(** A middleware added inside a group is forgotten when the routes of the group are added to
    the parent: the handler it was to protect runs without it. *)
Definition deny : @Middleware unit nat := fun _ => writes [WriteHeader 403].
Theorem group_middleware_is_dropped :
  let '(child, parent) := Group (fun r => MethodFunc "GET" "/admin" (Some (count_handler "secret")) (Use [Some deny] r)) chi_NewRouter in
  (ServeHTTP child tt (get_request "/admin") [] 0%nat).1.1 = [WriteHeader 403] /\
  ServeHTTP parent tt (get_request "/admin") [] 0%nat = ([WriteHeader 202; Write "secret"], None, 1%nat).
Proof. split; vm_compute; reflexivity. Qed.

(** Routes registered on the router that [With] returns are unknown to the router it came from. *)
Theorem with_routes_are_lost :
  let child := MethodFunc "GET" "/admin" (Some (count_handler "secret")) (With [Some deny] chi_NewRouter) in
  rs_Status (response (ServeHTTP child tt (get_request "/admin") [] 0%nat).1.1) = 403 /\
  rs_Status (response (ServeHTTP chi_NewRouter tt (get_request "/admin") [] 0%nat).1.1) = 404.
Proof. split; vm_compute; reflexivity. Qed.
