(* ===== verification/Callback.v ===== *)
(** * Upload callbacks: internal/upload/callback.go

    The sender that posts the outcome of an upload to a configured address.  The JSON encoder,
    the HTTP client and the order in which Go enumerates the configured headers are
    arguments. *)
From S2P Require Import Prelude GoStrings GoUrl Download Upload.

Definition CallbackEventUploadCompleted : string := "upload.completed".
Definition CallbackEventUploadFailed : string := "upload.failed".

Record CallbackPayload := mkCallbackPayload {
  cb_Event : string; cb_Status : string; cb_JobID : string; cb_Result : option Result;
  cb_Integrity : option IntegrityResult; cb_Error : string; cb_Metadata : gmap string string; cb_Timestamp : Time
}.
Record HTTPCallbackSender := mkCallbackSender { cs_endpoint : string; cs_headers : gmap string string; cs_timeout : Duration }.
Record HTTPCallbackOptions := mkCallbackOptions { co_Endpoint : string; co_Headers : gmap string string; co_Timeout : Duration }.

Definition NewHTTPCallbackSender (options : HTTPCallbackOptions) : result HTTPCallbackSender :=
  let endpoint := TrimSpace (co_Endpoint options) in
  if String.eqb endpoint "" then Err (Errorf "callback endpoint is required") else
  match url_Parse endpoint with
  | Err _ => Err (Errorf "callback endpoint must be an absolute URL")
  | Ok parsed =>
    if bool_decide (Scheme parsed = []) || bool_decide (Host parsed = [])
    then Err (Errorf "callback endpoint must be an absolute URL") else
    if negb (bool_decide (Scheme parsed = chars "http")) && negb (bool_decide (Scheme parsed = chars "https"))
    then Err (Errorf "callback endpoint scheme must be http or https") else
    Ok (mkCallbackSender endpoint (co_Headers options) (if co_Timeout options <=? 0 then 10 * second else co_Timeout options))
  end.

Record callback_request := mkCallbackRequest { cq_Method : string; cq_URL : string; cq_Header : HeaderSet; cq_Body : string }.
(** What one call meets: encoder, clock, request creation, the enumeration of the headers and
    the exchange, which ends with a status. *)
Record callback_env := mkCallbackEnv {
  ce_marshal : CallbackPayload -> result string; ce_now : Time; ce_newRequest : option error;
  ce_entries : list (string * string); ce_do : callback_request -> result Z
}.

Definition stamped (now : Time) (p : CallbackPayload) : CallbackPayload :=
  mkCallbackPayload (cb_Event p) (cb_Status p) (cb_JobID p) (cb_Result p) (cb_Integrity p) (cb_Error p) (cb_Metadata p)
    (or_now (cb_Timestamp p) now).
Definition callback_headers (entries : list (string * string)) : HeaderSet :=
  foldl (fun h kv => header_set kv.1 kv.2 h) (header_set "Content-Type" "application/json" ∅) entries.

(** [Send] on a live context: the error and the requests made. *)
Definition Send (sender : HTTPCallbackSender) (env : callback_env) (payload : CallbackPayload)
  : option error * list callback_request :=
  match ce_marshal env (stamped (ce_now env) payload) with
  | Err e => (Some e, [])
  | Ok body =>
    match ce_newRequest env with
    | Some e => (Some e, [])
    | None =>
      let request := mkCallbackRequest "POST" (cs_endpoint sender) (callback_headers (ce_entries env)) body in
      (match ce_do env request with
       | Err e => Some e
       | Ok status => if (status <? 200) || (299 <? status)
                      then Some (Errorf ("callback failed with status " +:+ Itoa status)) else None
       end, [request])
    end
  end.

(** ** What the receiver can rely on *)

Lemma sender_endpoint options sender : NewHTTPCallbackSender options = Ok sender ->
  cs_endpoint sender = TrimSpace (co_Endpoint options) /\ cs_endpoint sender <> "" /\ 0 < cs_timeout sender /\
  exists u, url_Parse (cs_endpoint sender) = Ok u /\ Host u <> [] /\ (Scheme u = chars "http" \/ Scheme u = chars "https").
Proof.
  unfold NewHTTPCallbackSender. cbv zeta. destruct (String.eqb_spec (TrimSpace (co_Endpoint options)) ""); [done|].
  destruct (url_Parse _) as [u|] eqn:EU; [|done]. case_bool_decide as H1; [done|]. case_bool_decide as H2; [done|]. cbn [orb].
  case_bool_decide as H3; cbn [negb andb]; [|case_bool_decide as H4; cbn [negb]; [|done]];
    (intros [= <-]; cbn [cs_endpoint cs_timeout]; split_and!; [done|done| |exists u; auto]);
    (destruct (Z.leb_spec (co_Timeout options) 0); unfold second; lia).
Qed.

(** A configured header reaches the receiver with its value when no other configured name is
    the same header. *)
Lemma callback_header entries name value : NoDup (map (fun kv => CanonicalMIMEHeaderKey kv.1) entries) ->
  (name, value) ∈ entries -> header_get name (callback_headers entries) = value.
Proof.
  unfold callback_headers. generalize (header_set "Content-Type" "application/json" ∅).
  assert (forall l h, CanonicalMIMEHeaderKey name ∉ map (fun kv => CanonicalMIMEHeaderKey kv.1) l ->
    header_get name (foldl (fun h kv => header_set kv.1 kv.2 h) h l) = header_get name h) as Hskip.
  { induction l as [|kv l IH]; intros h Hn; [done|]. cbn in Hn. apply not_elem_of_cons in Hn as [H1 H2]. cbn [foldl].
    rewrite IH by done. apply header_get_set_ne. congruence. }
  induction entries as [|[k v] entries IH]; intros h HN Hin; [by apply not_elem_of_nil in Hin|].
  cbn in HN. apply NoDup_cons in HN as [Hk HN]. cbn [foldl fst snd]. apply elem_of_cons in Hin as [[= -> ->]|Hin].
  - rewrite Hskip by done. apply header_get_set.
  - by apply IH.
Qed.

(** A callback succeeds exactly when its one request was answered with a status of 200 to
    299; the request is a POST of the encoded payload with a time stamp to the configured
    address.  Nothing is sent when encoding or creating the request fails. *)
Theorem Send_spec sender env payload : IsZero (ce_now env) = false ->
  let '(err, sent) := Send sender env payload in
  (sent = [] /\ err <> None) \/
  (exists request body, sent = [request] /\ cq_Method request = "POST" /\ cq_URL request = cs_endpoint sender /\
     ce_marshal env (stamped (ce_now env) payload) = Ok body /\ cq_Body request = body /\
     IsZero (cb_Timestamp (stamped (ce_now env) payload)) = false /\
     (err = None <-> exists status, ce_do env request = Ok status /\ 200 <= status <= 299)).
Proof.
  intros HN. unfold Send. destruct (ce_marshal _ _) as [body|] eqn:EM; [|by left].
  destruct (ce_newRequest env); [by left|]. right. eexists _, body. split; [reflexivity|].
  cbn [cq_Method cq_URL cq_Body]. split_and!; [done|done|done|done|by apply IsZero_or_now|].
  destruct (ce_do env _) as [status|]; [|split; [done|by intros (? & ? & _)]].
  destruct (Z.ltb_spec status 200), (Z.ltb_spec 299 status); cbn [orb]; split; try done; try (intros (s & [= <-] & ?); lia).
  intros _. exists status. split; [done|lia].
Qed.
