(* ===== verification/Fetch.v ===== *)
(** * The HTTP download engine

    internal/download: client.go (the client), redirect.go (the redirect policy inside
    net/http's loop), bandwidth.go (the limiter), stream.go (one transfer to a file),
    multipart.go (download in ranges and merge) and metrics.go.  The network is a function
    from requests to responses; a body may end early with an error, and copying may stop
    after some bytes because a write fails or a throttled wait is cancelled.  File names
    are compared as text, so the target path is taken to be clean. *)
From Stdlib Require Import SpecFloat.
From S2P Require Import Prelude GoStrings GoPath GoFloat GoTime GoJson GoRFC3339 GoFS Ranges Download.

(** ** client.go *)
Definition parsePositiveDuration (field value : string) : result Duration :=
  let trimmed := TrimSpace value in
  if String.eqb trimmed "" then Err (Errorf (field +:+ " is required")) else
  match ParseDuration trimmed with
  | None => Err (Errorf (field +:+ " must be a valid duration"))
  | Some d => if d <=? 0 then Err (Errorf (field +:+ " must be greater than zero")) else Ok d
  end.

Record RedirectEvent := mkRedirectEvent { ev_From : string; ev_To : string; ev_Method : string }.
Record RedirectEngine := mkRedirectEngine { follow : bool; maxRedirects : Z; events : list RedirectEvent }.
Record HTTPClient := mkHTTPClient {
  hc_userAgent : string; hc_redirects : RedirectEngine; hc_connect : Duration; hc_headers : Duration; hc_idle : Duration
}.

(** ** redirect.go *)
Definition NewRedirectEngine (follow : bool) (maxRedirects : Z) : result RedirectEngine :=
  if maxRedirects <? 0 then Err (Errorf "max redirects must be zero or greater")
  else Ok (mkRedirectEngine follow maxRedirects []).

Definition NewHTTPClient (userAgent connect headers idle : string) (follow : bool) (maxRedirects : Z) : result HTTPClient :=
  let userAgent := TrimSpace userAgent in
  if String.eqb userAgent "" then Err (Errorf "user agent is required") else
  connect ← parsePositiveDuration "connect timeout" connect;
  headers ← parsePositiveDuration "response header timeout" headers;
  idle ← parsePositiveDuration "idle timeout" idle;
  redirects ← NewRedirectEngine follow maxRedirects;
  Ok (mkHTTPClient userAgent redirects connect headers idle).

(** [Do] sets the canonical user agent where the request names none. *)
Definition with_user_agent (client : HTTPClient) (request : request_parts) : request_parts :=
  if String.eqb (TrimSpace (default "" (r_Header request !! HeaderUserAgent))) ""
  then mkRequestParts (r_Method request) (r_URL request) (<[HeaderUserAgent := hc_userAgent client]> (r_Header request))
  else request.

Definition ErrUseLastResponse : error := Sentinel "net/http: use last response".

Definition record_event (event : RedirectEvent) (engine : RedirectEngine) : RedirectEngine :=
  mkRedirectEngine (follow engine) (maxRedirects engine)
    (events engine ++ [mkRedirectEvent (TrimSpace (ev_From event)) (TrimSpace (ev_To event))
                         (ToUpper (TrimSpace (ev_Method event)))]).

(** [CheckRedirect] of the request for [url]; [via] are the URLs requested before, oldest
    first. *)
Definition CheckRedirect (method url : string) (via : list string) (engine : RedirectEngine)
  : option error * RedirectEngine :=
  let engine := match last via with
                | Some from => record_event (mkRedirectEvent from url method) engine
                | None => engine
                end in
  if negb (follow engine) then (Some ErrUseLastResponse, engine) else
  if maxRedirects engine <? zlen via
  then (Some (Errorf ("stopped after " +:+ Itoa (maxRedirects engine) +:+ " redirects")), engine)
  else (None, engine).

(** The loop of [http.Client.Do] around it: a server answers a URL with a redirection or
    with a final response.  The method is kept, as for GET and HEAD. *)
Inductive reply (A : Type) := Redirect (location : string) (response : A) | Final (response : A).
Arguments Redirect {A} _ _.
Arguments Final {A} _.

Fixpoint do_loop {A} (fuel : nat) (server : string -> result (reply A)) (method url : string) (via : list string)
  (engine : RedirectEngine) : option (result A * (list string * RedirectEngine)) :=
  match fuel with
  | O => None
  | S fuel =>
    let via := via ++ [url] in
    match server url with
    | Err e => Some (Err e, (via, engine))
    | Ok (Final response) => Some (Ok response, (via, engine))
    | Ok (Redirect location response) =>
      match CheckRedirect method location via engine with
      | (Some e, engine) =>
        if bool_decide (e = ErrUseLastResponse) then Some (Ok response, (via, engine))
        else Some (Err e, (via, engine))
      | (None, engine) => do_loop fuel server method location via engine
      end
    end
  end.

(** ** bandwidth.go *)
Definition NewBandwidthController (bytesPerSecond : Z) : result Z :=
  if bytesPerSecond <? 0 then Err (Errorf "download bandwidth limit must be zero or greater") else Ok bytesPerSecond.
Definition bandwidth_Enabled (bytesPerSecond : Z) : bool := 0 <? bytesPerSecond.

(** [DelayFor]; the quotient is computed in [float64]. *)
Definition expected_duration (bytesPerSecond bytes : Z) : Duration :=
  int64_of_float (fmul (fdiv (float64 bytes) (float64 bytesPerSecond)) (float64 second)).
Definition DelayFor (bytesPerSecond bytes : Z) (elapsed : Duration) : Duration :=
  if (bytesPerSecond <=? 0) || (bytes <=? 0) then 0 else
  let elapsed := if elapsed <? 0 then 0 else elapsed in
  let expected := expected_duration bytesPerSecond bytes in
  if expected <=? elapsed then 0 else wrap64 (expected - elapsed).

(** ** metrics.go *)
Record DownloadMetric := mkDownloadMetric {
  dm_Engine : string; dm_URL : string; dm_StatusCode : Z; dm_BytesWritten : Z; dm_ContentLength : Z;
  dm_Duration : Duration; dm_StartedAt : Time; dm_CompletedAt : Time; dm_Resumed : bool; dm_RangeHeader : string;
  dm_MultipartParts : Z; dm_BandwidthLimited : bool; dm_BandwidthBytesLimit : Z; dm_Error : string
}.
Record DownloadSummary := mkDownloadSummary { ds_Count : Z; ds_Succeeded : Z; ds_Failed : Z; ds_BytesWritten : Z }.

Definition ValidateDownloadMetric (metric : DownloadMetric) : result unit :=
  if String.eqb (dm_Engine metric) "" then Err (Errorf "download metric engine is required") else
  if dm_Duration metric <? 0 then Err (Errorf "download metric duration must be zero or greater") else
  if dm_BytesWritten metric <? 0 then Err (Errorf "download metric bytes written must be zero or greater") else
  if dm_ContentLength metric <? -1 then Err (Errorf "download metric content length must be -1 or greater") else
  if dm_BandwidthBytesLimit metric <? 0 then Err (Errorf "download metric bandwidth limit must be zero or greater")
  else Ok tt.

Definition RecordDownloadMetric (metric : DownloadMetric) (metrics : list DownloadMetric)
  : option error * list DownloadMetric :=
  match ValidateDownloadMetric metric with
  | Err e => (Some e, metrics)
  | Ok _ => (None, metrics ++ [metric])
  end.

(** The loop of [Summary], whose counters wrap around. *)
Definition add_metric (summary : DownloadSummary) (metric : DownloadMetric) : DownloadSummary :=
  let ok := String.eqb (dm_Error metric) "" in
  mkDownloadSummary (ds_Count summary)
    (if ok then wrap64 (ds_Succeeded summary + 1) else ds_Succeeded summary)
    (if ok then ds_Failed summary else wrap64 (ds_Failed summary + 1))
    (wrap64 (ds_BytesWritten summary + dm_BytesWritten metric)).
Definition MetricsSummary (metrics : list DownloadMetric) : DownloadSummary :=
  foldl add_metric (mkDownloadSummary (zlen metrics) 0 0 0) metrics.

(** ** stream.go *)
Record http_response := mkHttpResponse {
  hr_Status : Z; hr_ContentLength : Z; hr_Body : string; hr_BodyError : option error
}.

(** What one transfer meets: the check of the request, the directory and the file, the
    server, and where copying stops when a write or a throttled wait fails. *)
Record stream_env := mkStreamEnv {
  se_check : string -> string -> option error; se_mkdir : option error; se_open : option error;
  se_do : request_parts -> result http_response; se_stop : option (nat * error)
}.

Record StreamResult := mkStreamResult {
  sr_URL : string; sr_StatusCode : Z; sr_BytesWritten : Z; sr_ContentLength : Z; sr_Resumed : bool; sr_RangeHeader : string
}.

(** The bytes copied and the error [io.Copy] reports. *)
Definition copied (env : stream_env) (response : http_response) : list ascii * option error :=
  match se_stop env with
  | Some (k, e) => (take k (chars (hr_Body response)), Some e)
  | None => (chars (hr_Body response), hr_BodyError response)
  end.

(** [Stream] to a writer: the result, the error, and the bytes the writer got. *)
Definition Stream (client : HTTPClient) (env : stream_env) (method url : string) (headers : HeaderSet) (range : string)
  : StreamResult * option error * list ascii :=
  match NewRequest (se_check env) method url headers with
  | Err e => (mkStreamResult "" 0 0 0 false "", Some e, [])
  | Ok request =>
    let request := with_user_agent client (ApplyResume range request) in
    let resumed := negb (String.eqb range "") in
    match se_do env request with
    | Err e => (mkStreamResult (r_URL request) 0 0 0 resumed range, Some e, [])
    | Ok response =>
      let result n := mkStreamResult (r_URL request) (hr_Status response) n (hr_ContentLength response) resumed range in
      if (hr_Status response <? 200) || (300 <=? hr_Status response)
      then (result 0, Some (Errorf ("unexpected download status: " +:+ Itoa (hr_Status response))), []) else
      if resumed && negb (hr_Status response =? 206)
      then (result 0, Some (Errorf ("resume requested but server returned status " +:+ Itoa (hr_Status response))), []) else
      let '(bytes, err) := copied env response in
      (result (zlen bytes), err, bytes)
    end
  end.

(** [StreamToFile]: the file is created or truncated, or appended to. *)
Definition StreamToFile (client : HTTPClient) (env : stream_env) (url path : string) (headers : HeaderSet) (range : string)
  (append createDirs : bool) (fs : FS) : StreamResult * option error * FS :=
  let none e := (mkStreamResult "" 0 0 0 false "", Some e, fs) in
  let path := TrimSpace path in
  if String.eqb path "" then none (Errorf "stream file path is required") else
  match (if createDirs then se_mkdir env else None) with
  | Some e => none e
  | None =>
    match se_open env with
    | Some e => none e
    | None =>
      let old := if append then chars (default "" (fs !! path)) else [] in
      let '(result, err, bytes) := Stream client env "GET" url headers range in
      (result, err, <[path := str (old ++ bytes)]> fs)
    end
  end.

(** ** multipart.go *)
Definition partsDir (path : string) : string := path +:+ ".parts".
Definition part_name (index : Z) : string := "part-" +:+ str (GoTime.pad 6 index).
Definition partPath (path : string) (index : Z) : string := Join2 (partsDir path) (part_name index).

(** [os.RemoveAll] of a directory. *)
Definition in_dir (dir p : string) : Prop := p = dir \/ HasPrefix p (dir +:+ "/") = true.
#[global] Instance in_dir_dec dir p : Decision (in_dir dir p).
Proof. unfold in_dir. apply _. Defined.
Definition RemoveAll (dir : string) (fs : FS) : FS := filter (fun kv => ~ in_dir dir kv.1) fs.

Record multipart_env := mkMultipartEnv {
  me_dirs : option error; me_clear : option error; me_mkparts : option error;
  me_part : Z -> stream_env; me_open : option error; me_merge : Z -> option (nat * error);
  me_cleanup : bool   (* whether the final removal of the parts succeeds *)
}.

Record MultipartResult := mkMultipartResult {
  mr_URL : string; mr_Path : string; mr_TotalSize : Z; mr_PartSize : Z; mr_Parts : list Part; mr_BytesWritten : Z
}.

(** The loop over the parts: the parts done, the bytes counted, the error with whether a
    result goes with it, the files. *)
Fixpoint fetch_parts (client : HTTPClient) (env : multipart_env) (url path : string) (headers : HeaderSet)
  (parts : list Part) (total : Z) (fs : FS) : list Part * Z * option (error * bool) * FS :=
  match parts with
  | [] => ([], total, None, fs)
  | part :: rest =>
    match With headers HeaderRange (RangeHeader part) with
    | Err e => (part :: rest, total, Some (e, false), fs)
    | Ok headers' =>
      let '(result, err, fs) :=
        StreamToFile client (me_part env (Index part)) url (partPath path (Index part)) headers' (RangeHeader part) false true fs in
      let part' := mkPart (Index part) (Start part) (End_ part) (sr_BytesWritten result) in
      let total := wrap64 (total + sr_BytesWritten result) in
      match err with
      | Some e => (part' :: rest, total, Some (e, true), fs)
      | None =>
        if negb (sr_BytesWritten result =? wrap64 (wrap64 (End_ part - Start part) + 1))
        then (part' :: rest, total,
              Some (Errorf ("multipart part " +:+ Itoa (Index part) +:+ " wrote " +:+ Itoa (sr_BytesWritten result) +:+
                            " bytes, expected " +:+ Itoa (wrap64 (wrap64 (End_ part - Start part) + 1))), true), fs)
        else
          let '(done, total, err, fs) := fetch_parts client env url path headers rest total fs in
          (part' :: done, total, err, fs)
      end
    end
  end.

(** [mergeMultipartParts]: the contents so far are [merged]; opening a part, copying it or
    closing it may fail after some bytes. *)
Fixpoint merge_parts (env : multipart_env) (path : string) (parts : list Part) (merged : list ascii) (fs : FS)
  : option error * FS :=
  match parts with
  | [] => (None, <[path := str merged]> fs)
  | part :: rest =>
    match fs !! partPath path (Index part) with
    | None => (Some (path_error "open" (partPath path (Index part)) os_ErrNotExist), <[path := str merged]> fs)
    | Some content =>
      match me_merge env (Index part) with
      | Some (k, e) => (Some e, <[path := str (merged ++ take k (chars content))]> fs)
      | None => merge_parts env path rest (merged ++ chars content) fs
      end
    end
  end.

Definition MultipartToFile (client : HTTPClient) (env : multipart_env) (url path : string) (headers : HeaderSet)
  (totalSize partSize : Z) (createDirs : bool) (fs : FS) : MultipartResult * option error * FS :=
  let none e fs := (mkMultipartResult "" "" 0 0 [] 0, Some e, fs) in
  let path := TrimSpace path in
  if String.eqb path "" then none (Errorf "multipart file path is required") fs else
  match NewMultipartPlan totalSize partSize with
  | Err e => none e fs
  | Ok plan =>
    match (if createDirs then me_dirs env else None) with
    | Some e => none e fs
    | None =>
      match me_clear env with
      | Some e => none e fs
      | None =>
        let fs := RemoveAll (partsDir path) fs in
        match me_mkparts env with
        | Some e => none e fs
        | None =>
          let '(parts, total, err, fs) := fetch_parts client env url path headers (PartsSnapshot plan) 0 fs in
          let result := mkMultipartResult url path (PlanSize plan) (PartSize plan) parts total in
          let cleanup fs := if me_cleanup env then RemoveAll (partsDir path) fs else fs in
          match err with
          | Some (e, reported) => (if reported then result else mkMultipartResult "" "" 0 0 [] 0, Some e, cleanup fs)
          | None =>
            match me_open env with
            | Some e => (result, Some e, cleanup fs)
            | None =>
              let '(err, fs) := merge_parts env path parts [] fs in
              (result, err, cleanup fs)
            end
          end
        end
      end
    end
  end.

(** ** Redirects *)
Inductive reaches {A} (server : string -> result (reply A)) : string -> nat -> A -> Prop :=
| reaches_final url response : server url = Ok (Final response) -> reaches server url 0 response
| reaches_hop url next hops r response :
    server url = Ok (Redirect next r) -> reaches server next hops response -> reaches server url (S hops) response.

Lemma CheckRedirect_policy method url via engine err engine' :
  CheckRedirect method url via engine = (err, engine') ->
  follow engine' = follow engine /\ maxRedirects engine' = maxRedirects engine /\
  (via <> [] -> length (events engine') = S (length (events engine))) /\
  (err = None <-> follow engine = true /\ zlen via <= maxRedirects engine) /\
  (err = Some ErrUseLastResponse <-> follow engine = false).
Proof.
  unfold CheckRedirect. set (e1 := match last via with Some _ => _ | None => _ end).
  assert (follow e1 = follow engine /\ maxRedirects e1 = maxRedirects engine /\
    (via <> [] -> length (events e1) = S (length (events engine)))) as (E1 & E2 & E3).
  { unfold e1. destruct (last via) eqn:El.
    - cbn. split_and!; [done|done|]. intros _. rewrite length_app. simpl. lia.
    - apply last_None in El. done. }
  rewrite E1, E2. intros H. destruct (follow engine); cbn [negb] in H.
  - destruct (Z.ltb_spec (maxRedirects engine) (zlen via)); injection H as <- <-;
      (split_and!; [done|done|done| |]); split; intros ?; try done; lia.
  - injection H as <- <-. split_and!; [done|done|done| |]; split; intros ?; try done; naive_solver.
Qed.

Lemma do_loop_run {A} fuel (server : string -> result (reply A)) method url via engine :
  zlen via <= maxRedirects engine -> maxRedirects engine < zlen via + Z.of_nat fuel ->
  exists result via' engine', do_loop fuel server method url via engine = Some (result, (via', engine')) /\
    zlen via' <= maxRedirects engine + 1 /\ zlen via + 1 <= zlen via' /\
    (follow engine = false -> zlen via' = zlen via + 1) /\
    Z.of_nat (length (events engine')) <= Z.of_nat (length (events engine)) + (zlen via' - zlen via) /\
    forall hops response, reaches server url hops response -> follow engine = true ->
      zlen via + Z.of_nat hops <= maxRedirects engine -> result = Ok response /\ zlen via' = zlen via + 1 + Z.of_nat hops.
Proof.
  revert url via engine. induction fuel as [|fuel IH]; intros url via engine Hv Hf; [lia|]. cbn [do_loop].
  assert (zlen (via ++ [url]) = zlen via + 1) as HL by (rewrite zlen_app; done).
  destruct (server url) as [[location response|response]|e] eqn:ES.
  - destruct (CheckRedirect method location (via ++ [url]) engine) as [err engine1] eqn:EC.
    destruct (CheckRedirect_policy _ _ _ _ _ _ EC) as (F1 & F2 & F3 & F4 & F5).
    assert (length (events engine1) = S (length (events engine))) as F6 by (apply F3; by destruct via).
    destruct err as [e|].
    + assert (forall hops r, reaches server url hops r -> follow engine = true ->
        zlen via + Z.of_nat hops <= maxRedirects engine -> False) as Hno.
      { intros hops r HR Hfo Hh. inversion HR as [? ? E|? next hops' ? ? E HR']; subst; [congruence|].
        enough (@None error = Some e) by done. symmetry. apply F4. rewrite HL. split; [done|lia]. }
      destruct (bool_decide (e = ErrUseLastResponse)) eqn:EB; eexists _, _, _; (split; [done|]); rewrite HL;
        (split_and!; [lia|lia|lia|lia|]); intros hops r HR Hfo Hh; exfalso; by eapply Hno.
    + destruct (proj1 F4 eq_refl) as [Hfo Hle].
      destruct (IH location (via ++ [url]) engine1) as (result & via' & engine' & HD & H1 & H2 & H3 & H4 & H5);
        [lia|lia|]. rewrite HD. eexists _, _, _. split; [done|]. rewrite F2, F6, HL in *.
      split_and!; [lia|lia|by rewrite Hfo|lia|]. intros hops r HR _ Hh.
      inversion HR as [? ? E|? next hops' ? ? E HR']; subst; [congruence|].
      rewrite ES in E. injection E as <- <-. destruct (H5 _ _ HR') as [-> ->]; [congruence|lia|]. split; [done|lia].
  - eexists _, _, _. split; [done|]. rewrite HL. split_and!; [lia|lia|lia|lia|].
    intros hops r HR _ _. inversion HR as [? ? E|? ? ? ? ? E]; subst; rewrite ES in E; [|done]. injection E as <-. split; [done|lia].
  - eexists _, _, _. split; [done|]. rewrite HL. split_and!; [lia|lia|lia|lia|].
    intros hops r HR _ _. inversion HR as [? ? E|? ? ? ? ? E]; subst; congruence.
Qed.

(** C19: whatever the server does, redirect loops included, a request ends after at most one
    request more than the configured number of redirects, and one request when redirects
    are not followed; a chain that is short enough is followed to its final response. *)
Theorem redirects_bounded {A} (server : string -> result (reply A)) method url followed limit engine :
  NewRedirectEngine followed limit = Ok engine ->
  exists result via engine', do_loop (Z.to_nat limit + 1) server method url [] engine = Some (result, (via, engine')) /\
    1 <= zlen via <= limit + 1 /\ (followed = false -> zlen via = 1) /\
    Z.of_nat (length (events engine')) <= zlen via /\
    forall hops response, reaches server url hops response -> followed = true -> Z.of_nat hops <= limit ->
      result = Ok response /\ zlen via = 1 + Z.of_nat hops.
Proof.
  unfold NewRedirectEngine. destruct (Z.ltb_spec limit 0); [done|]. intros [= <-].
  destruct (do_loop_run (Z.to_nat limit + 1) server method url [] (mkRedirectEngine followed limit []))
    as (result & via & engine' & HD & H1 & H2 & H3 & H4 & H5); cbn [maxRedirects follow events] in *;
    change (zlen (@nil string)) with 0 in *; [lia|lia|]. exists result, via, engine'. split; [exact HD|].
  split_and!; [lia|lia|intros Hf; specialize (H3 Hf); lia|simpl length in H4; lia|].
  intros hops response HR Hf Hh. destruct (H5 hops response HR Hf) as [-> ->]; [lia|]. split; [done|lia].
Qed.

(** ** Metrics *)
Lemma add_metrics_spec metrics c s f b : 0 <= s -> 0 <= f -> s + f + zlen metrics <= int64_max ->
  let r := foldl add_metric (mkDownloadSummary c s f b) metrics in
  ds_Count r = c /\ s <= ds_Succeeded r /\ f <= ds_Failed r /\ ds_Succeeded r + ds_Failed r = s + f + zlen metrics /\
  ds_Failed r = f + zlen (List.filter (fun m => negb (String.eqb (dm_Error m) "")) metrics).
Proof.
  revert s f b. induction metrics as [|m metrics IH]; intros s f b Hs Hf HL; cbn [foldl List.filter].
  { cbn. unfold zlen in *. simpl in *. lia. }
  rewrite zlen_cons in HL. pose proof (zlen_nonneg metrics) as Hn.
  set (next := add_metric (mkDownloadSummary c s f b) m). unfold add_metric in next.
  cbn [ds_Count ds_Succeeded ds_Failed ds_BytesWritten] in next. subst next.
  destruct (String.eqb (dm_Error m) "") eqn:E; cbn [negb].
  - rewrite (wrap64_id (s + 1)) by (unfold in_int64, int64_min, int64_max in *; lia).
    pose proof (IH (s + 1) f (wrap64 (b + dm_BytesWritten m)) ltac:(lia) Hf ltac:(lia)) as H. cbv zeta in H |- *.
    rewrite zlen_cons. lia.
  - rewrite (wrap64_id (f + 1)) by (unfold in_int64, int64_min, int64_max in *; lia).
    pose proof (IH s (f + 1) (wrap64 (b + dm_BytesWritten m)) Hs ltac:(lia) ltac:(lia)) as H. cbv zeta in H |- *.
    rewrite !zlen_cons. lia.
Qed.

(** The summary counts every observation once, as a success or as a failure. *)
Theorem MetricsSummary_spec metrics : zlen metrics <= int64_max ->
  ds_Count (MetricsSummary metrics) = zlen metrics /\
  ds_Succeeded (MetricsSummary metrics) + ds_Failed (MetricsSummary metrics) = zlen metrics /\
  ds_Failed (MetricsSummary metrics) = zlen (List.filter (fun m => negb (String.eqb (dm_Error m) "")) metrics).
Proof.
  intros HL. destruct (add_metrics_spec metrics (zlen metrics) 0 0 0) as (H1 & _ & _ & H2 & H3); [lia|lia|lia|].
  unfold MetricsSummary. split_and!; [exact H1|lia|lia].
Qed.

(** ** Part files *)
Definition target_ok (path : string) : Prop :=
  TrimSpace path = path /\ Clean (partsDir path) = partsDir path /\
  exists c, head (chars path) = Some c /\ no_space c = true.

Lemma pad_digits w i : 0 <= i -> Forall (fun c => is_Some (digit c)) (GoTime.pad w i).
Proof. intros Hi. exact (digits_value_all _ _ _ (pad_value w i Hi)). Qed.

Lemma part_name_chars i : chars (part_name i) = chars "part-" ++ GoTime.pad 6 i.
Proof. unfold part_name. by rewrite chars_app, chars_str. Qed.

Lemma part_name_plain i : 0 <= i -> plain (chars (part_name i)).
Proof.
  intros Hi. rewrite part_name_chars. split_and!; try (by cbn).
  rewrite elem_of_app. intros [H|H].
  - apply list_elem_of_In in H. simpl in H. by repeat destruct H as [H|H].
  - pose proof (pad_digits 6 i Hi) as HF. rewrite Forall_forall in HF. apply HF in H as [d Hd]. by vm_compute in Hd.
Qed.

Lemma join_chars_snoc sep ls x : ls <> [] -> join_chars sep (ls ++ [x]) = join_chars sep ls ++ sep :: x.
Proof.
  induction ls as [|l ls IH]; [done|]. intros _. destruct ls as [|l' ls]; [done|].
  change (join_chars sep ((l :: l' :: ls) ++ [x])) with (l ++ sep :: join_chars sep ((l' :: ls) ++ [x])).
  rewrite IH by done. change (join_chars sep (l :: l' :: ls)) with (l ++ sep :: join_chars sep (l' :: ls)).
  by rewrite <- app_assoc.
Qed.

Lemma partPath_eq path i : Clean (partsDir path) = partsDir path -> 0 <= i ->
  partPath path i = partsDir path +:+ "/" +:+ part_name i.
Proof.
  intros HC Hi. set (d := partsDir path) in *.
  assert (d <> "" /\ d <> "/" /\ d <> ".") as (D1 & D2 & D3).
  { unfold d, partsDir. split_and!; intros E; apply (f_equal (fun s => length (chars s))) in E;
      rewrite chars_app, length_app in E; simpl in E; lia. }
  unfold partPath. fold d.
  destruct (Join2_child d (chars (part_name i)) D1 (part_name_plain i Hi)) as [HS HA]. rewrite str_chars in HS, HA.
  assert (Join2 d (part_name i) = Clean (Join2 d (part_name i))) as ->.
  { unfold Join2. rewrite (proj2 (String.eqb_neq _ _) D1). by rewrite Clean_idemp. }
  unfold Clean at 1. rewrite HS, HA. unfold Clean in HC. unfold render in HC |- *.
  assert (path_stack d <> []) as Hne.
  { intros E. rewrite E in HC. destruct (IsAbs d); [apply D2|apply D3]; rewrite <- HC; reflexivity. }
  assert (reverse (path_stack d) <> []) as Hre
    by (intros E; apply (f_equal reverse) in E; by rewrite reverse_involutive in E).
  assert (chars d = (if IsAbs d then [slash] else []) ++ join_chars slash (reverse (path_stack d))) as Hd.
  { apply (f_equal chars) in HC. rewrite <- HC. destruct (IsAbs d); [by rewrite chars_str|].
    destruct (path_stack d); [done|]. by rewrite chars_str. }
  apply chars_inj. rewrite !chars_app, Hd, reverse_cons. rewrite join_chars_snoc by done.
  destruct (IsAbs d); rewrite chars_str; rewrite <- !app_assoc; reflexivity.
Qed.

Lemma partPath_facts path i : target_ok path -> 0 <= i ->
  TrimSpace (partPath path i) = partPath path i /\ partPath path i <> "" /\ in_dir (partsDir path) (partPath path i).
Proof.
  intros (HT & HC & c & Hh & Hc) Hi. rewrite partPath_eq by done.
  assert (exists l d, GoTime.pad 6 i = l ++ [d] /\ is_Some (digit d)) as (l & d & Hl & Hd).
  { pose proof (pad_digits 6 i Hi) as HF. destruct (GoTime.pad 6 i) as [|x l _] eqn:E using rev_ind.
    - pose proof (pad_value 6 i Hi) as HV. rewrite E in HV. injection HV as <-. by vm_compute in E.
    - apply Forall_snoc in HF as [_ HF]. eauto. }
  assert (head (chars (partsDir path +:+ "/" +:+ part_name i)) = Some c) as Hhead.
  { unfold partsDir. rewrite !chars_app. by destruct (chars path). }
  split_and!.
  - apply (TrimSpace_ends _ c d); [exact Hhead| |done|by apply digit_no_space].
    rewrite !chars_app, part_name_chars, Hl, !app_assoc. apply last_snoc.
  - intros E. by rewrite E in Hhead.
  - right. replace (partsDir path +:+ "/" +:+ part_name i) with ((partsDir path +:+ "/") +:+ part_name i).
    + apply HasPrefix_app.
    + apply chars_inj. by rewrite !chars_app, app_assoc.
Qed.

Lemma partPath_inj path i j : target_ok path -> 0 <= i -> 0 <= j -> partPath path i = partPath path j -> i = j.
Proof.
  intros (_ & HC & _) Hi Hj E. rewrite !partPath_eq in E by done. apply (f_equal chars) in E.
  rewrite !chars_app in E. apply app_inv_head, app_inv_head in E. rewrite !part_name_chars in E.
  apply app_inv_head in E. by apply (pad_inj 6).
Qed.

Lemma path_not_in_parts path : ~ in_dir (partsDir path) path.
Proof.
  unfold in_dir, partsDir. intros [E|E].
  - apply (f_equal (fun s => length (chars s))) in E. rewrite chars_app, length_app in E. simpl in E. lia.
  - unfold HasPrefix in E. apply is_prefix_spec in E as [k E]. apply (f_equal length) in E.
    rewrite !length_app, !chars_app, !length_app in E. simpl in E. lia.
Qed.

Lemma RemoveAll_lookup dir fs p : RemoveAll dir fs !! p = if decide (in_dir dir p) then None else fs !! p.
Proof.
  unfold RemoveAll. rewrite map_lookup_filter. destruct (fs !! p) as [c|]; cbn; repeat case_decide; try done.
  - by rewrite option_guard_False by tauto.
  - by rewrite option_guard_True by tauto.
Qed.

(** ** Download in ranges *)
(** A server that, asked for a range of [content], sends no other bytes than those of the
    range, from its first on; it may refuse, fail or stop early. *)
Definition honest_ranges (content : string) (env : multipart_env) : Prop :=
  forall i request lo hi response, 0 <= lo <= hi ->
    se_do (me_part env i) request = Ok response ->
    r_Header request !! HeaderRange = Some ("bytes=" +:+ Itoa lo +:+ "-" +:+ Itoa hi) ->
    hr_Status response = 206 -> chars (hr_Body response) `prefix_of` slice content lo hi.

Lemma Stream_success client env method url headers range result bytes :
  range <> "" -> Stream client env method url headers range = (result, None, bytes) ->
  sr_BytesWritten result = zlen bytes /\
  exists request response, se_do env request = Ok response /\ r_Header request !! HeaderRange = Some range /\
    hr_Status response = 206 /\ bytes = chars (hr_Body response).
Proof.
  intros Hr. unfold Stream. destruct (NewRequest _ _ _ _) as [request|]; [|done].
  set (sent := with_user_agent client (ApplyResume range request)).
  assert (r_Header sent !! HeaderRange = Some range) as HR.
  { unfold sent, with_user_agent, ApplyResume. rewrite (proj2 (String.eqb_neq _ _) Hr).
    case_match; cbn [r_Header]; [rewrite lookup_insert_ne by done|]; by rewrite lookup_insert_eq. }
  destruct (se_do env sent) as [response|] eqn:ED; [|done].
  rewrite (proj2 (String.eqb_neq _ _) Hr). cbn [negb andb].
  destruct (_ || _); [done|]. destruct (Z.eqb_spec (hr_Status response) 206); [|done]. cbn [negb].
  unfold copied. destruct (se_stop env) as [[k e0]|]; [done|]. intros [= <- _ <-]. cbn [sr_BytesWritten]. split; [done|].
  exists sent, response. by split_and!.
Qed.

Lemma prefix_full {A} (l k : list A) : l `prefix_of` k -> (length k <= length l)%nat -> l = k.
Proof. intros [x ->] HL. rewrite length_app in HL. destruct x; [by rewrite app_nil_r|simpl in HL; lia]. Qed.

Lemma slice_prefix_full content lo hi l :
  0 <= lo <= hi -> l `prefix_of` slice content lo hi -> zlen l = hi - lo + 1 -> l = slice content lo hi.
Proof.
  intros Hlo HP HL. apply prefix_full; [done|]. unfold slice. rewrite length_take. unfold zlen in HL. lia.
Qed.

Lemma fetch_parts_cons client env url path headers part rest total fs done total' fs' :
  target_ok path -> 0 <= Index part ->
  fetch_parts client env url path headers (part :: rest) total fs = (done, total', None, fs') ->
  exists request response done0, se_do (me_part env (Index part)) request = Ok response /\
    r_Header request !! HeaderRange = Some (RangeHeader part) /\ hr_Status response = 206 /\
    zlen (chars (hr_Body response)) = wrap64 (wrap64 (End_ part - Start part) + 1) /\
    map Index done = Index part :: map Index done0 /\
    fetch_parts client env url path headers rest (wrap64 (total + zlen (chars (hr_Body response))))
      (<[partPath path (Index part) := str (chars (hr_Body response))]> fs) = (done0, total', None, fs').
Proof.
  intros HT Hi. cbn [fetch_parts]. destruct (With headers HeaderRange (RangeHeader part)) as [headers'|]; [|done].
  unfold StreamToFile. destruct (partPath_facts path (Index part) HT Hi) as (-> & Hne & _).
  rewrite (proj2 (String.eqb_neq _ _) Hne).
  destruct (se_mkdir _) as [e|]; [done|]. destruct (se_open _) as [e|]; [done|].
  destruct (Stream _ _ _ _ _ _) as [[result err] bytes] eqn:ES. destruct err as [e|]; [done|].
  assert (RangeHeader part <> "") as Hr by done.
  destruct (Stream_success _ _ _ _ _ _ _ _ Hr ES) as [-> (request & response & HD & HR & H206 & ->)].
  destruct (Z.eqb_spec (zlen (chars (hr_Body response))) (wrap64 (wrap64 (End_ part - Start part) + 1))) as [HL|]; [|done].
  cbn [negb app]. destruct (fetch_parts _ _ _ _ _ rest _ _) as [[[done0 total0] err0] fs0] eqn:EF.
  intros [= <- <- -> <-]. exists request, response, done0. by split_and!.
Qed.

Lemma fetch_parts_exact client env url path headers content size hi parts :
  target_ok path -> honest_ranges content env -> hi <= int64_max ->
  forall lo index total fs done total' fs', tiles size lo hi index parts -> 0 <= lo -> 0 <= index ->
  0 <= total -> total + (hi - lo) <= int64_max ->
  fetch_parts client env url path headers parts total fs = (done, total', None, fs') ->
  map Index done = map Index parts /\ total' = total + (hi - lo) /\
  (forall part, part ∈ parts -> fs' !! partPath path (Index part) = Some (str (slice content (Start part) (End_ part)))) /\
  (forall p, (forall i, index <= i -> p <> partPath path i) -> fs' !! p = fs !! p).
Proof.
  intros HT HH Hmax. induction parts as [|part rest IH]; intros lo index total fs done total' fs' Ht Hlo Hidx Htot Hsum HF.
  { cbn in HF. injection HF as <- <- <-. cbn in Ht. split_and!; [done|lia|by intros part ?%not_elem_of_nil|done]. }
  cbn [tiles] in Ht. destruct Ht as (HS & HI & HE & _ & Hrest).
  assert (0 <= Index part) as HIp by lia.
  destruct (fetch_parts_cons _ _ _ _ _ _ _ _ _ _ _ _ HT HIp HF)
    as (request & response & done0 & HD & HR & H206 & HL & HM & HF').
  rewrite (wrap64_id (End_ part - Start part)) in HL by (unfold in_int64, int64_min, int64_max in *; lia).
  rewrite wrap64_id in HL by (unfold in_int64, int64_min, int64_max in *; lia).
  assert (chars (hr_Body response) = slice content (Start part) (End_ part)) as HB.
  { apply slice_prefix_full; [lia| |done]. apply (HH (Index part) request); [lia|done|done|done]. }
  rewrite HL in HF'. rewrite wrap64_id in HF' by (unfold in_int64, int64_min, int64_max in *; lia). rewrite HB in HF'.
  eapply IH in HF' as (J1 & J2 & J3 & J4); [|exact Hrest|lia..].
  assert (forall i, index + 1 <= i -> partPath path (Index part) <> partPath path i) as Hpp.
  { intros i Hi E. apply partPath_inj in E; [lia|done|lia|lia]. }
  split_and!; [by rewrite HM, J1|lia| |].
  - intros p [->|Hp]%elem_of_cons; [|by apply J3]. rewrite J4 by done. by rewrite lookup_insert_eq.
  - intros p Hp. rewrite J4 by (intros i Hi; apply Hp; lia). apply lookup_insert_ne. intros E. by apply (Hp (Index part)); [lia|].
Qed.

Lemma merge_parts_exact env path parts fs0 : forall merged fs',
  (forall p, p ∈ parts -> exists c, fs0 !! partPath path (Index p) = Some c) ->
  merge_parts env path parts merged fs0 = (None, fs') ->
  fs' = <[path := str (merged ++ concat (map (fun p => chars (default "" (fs0 !! partPath path (Index p)))) parts))]> fs0.
Proof.
  induction parts as [|p rest IH]; intros merged fs' HP; cbn [merge_parts map concat].
  { intros [= <-]. by rewrite app_nil_r. }
  destruct (HP p) as [c Hc]; [by left|]. rewrite Hc. destruct (me_merge env (Index p)) as [[k e]|]; [done|].
  intros HM. rewrite (IH _ _ ltac:(intros q Hq; apply HP; by right) HM). by rewrite <- app_assoc.
Qed.

(** C18: when a download in ranges reports success, the target file holds the resource, byte for
    byte, the byte count is its length, and every other file outside the directory of the
    parts is as before; a server may refuse, cut bodies short or fail at any part. *)
Theorem multipart_download_exact client env url path headers part createDirs fs content result fs' :
  target_ok path -> honest_ranges content env -> 0 < part -> slen content + part - 1 <= int64_max ->
  MultipartToFile client env url path headers (slen content) part createDirs fs = (result, None, fs') ->
  fs' !! path = Some content /\ mr_BytesWritten result = slen content /\
  forall p, p <> path -> ~ in_dir (partsDir path) p -> fs' !! p = fs !! p.
Proof.
  intros HT HH Hp Hmax. unfold MultipartToFile. rewrite (proj1 HT).
  case_match; [done|]. unfold NewMultipartPlan.
  destruct (Z.leb_spec (slen content) 0); [done|]. destruct (Z.leb_spec part 0); [lia|].
  destruct (run_plan_ok (slen content) part) as (plan & -> & _ & _ & Htiles); [lia|lia|lia|].
  destruct (if createDirs then _ else _); [done|]. destruct (me_clear env); [done|]. destruct (me_mkparts env); [done|].
  unfold PartsSnapshot. set (fs1 := RemoveAll (partsDir path) fs).
  destruct (fetch_parts _ _ _ _ _ _ _ _) as [[[done total] err] fs2] eqn:EF.
  destruct err as [[e r]|]; [done|]. destruct (me_open env); [done|].
  eapply fetch_parts_exact in EF as (HM & -> & HF & Hframe); [|done|exact HH| |exact Htiles|lia..]; [|lia].
  destruct (merge_parts env path done [] fs2) as [err fs3] eqn:EM. intros [= <- -> <-].
  assert (forall q, q ∈ done -> exists q', q' ∈ Parts plan /\ Index q' = Index q) as Hin.
  { intros q Hq. assert (Index q ∈ map Index done) as HI by (apply list_elem_of_fmap; eauto).
    rewrite HM in HI. apply list_elem_of_fmap in HI as (q' & ? & ?). eauto. }
  apply merge_parts_exact in EM as ->.
  2:{ intros q Hq. destruct (Hin q Hq) as (q' & Hq' & <-). eauto. }
  assert (str ([] ++ concat (map (fun p => chars (default "" (fs2 !! partPath path (Index p)))) done)) = content) as ->.
  { cbn [app]. transitivity (str (chars content)); [|apply str_chars]. f_equal.
    transitivity (concat (map (fun i => chars (default "" (fs2 !! partPath path i))) (map Index done)));
      [by rewrite map_map|]. rewrite HM, map_map.
    transitivity (concat (map (fun p => slice content (Start p) (End_ p)) (Parts plan))).
    - f_equal. apply map_ext_in. intros q Hq%list_elem_of_In. rewrite (HF q Hq). exact (chars_str _).
    - rewrite (tiles_concat _ _ _ _ _ _ Htiles) by lia. change (Z.to_nat 0) with 0%nat. rewrite drop_0.
      apply take_ge. unfold slen, zlen. lia. }
  cbn [mr_BytesWritten]. split_and!; [|lia|].
  - case_match; [rewrite RemoveAll_lookup, decide_False by apply path_not_in_parts|]; by rewrite lookup_insert_eq.
  - intros p Hp1 Hp2. transitivity (fs2 !! p).
    + case_match; [rewrite RemoveAll_lookup, decide_False by done|]; by apply lookup_insert_ne.
    + rewrite Hframe. { unfold fs1. by rewrite RemoveAll_lookup, decide_False. }
      intros i Hi ->. apply Hp2. by apply partPath_facts.
Qed.

Lemma separator_inj {A} (c : A) a a' b b' : c ∉ a -> c ∉ a' -> a ++ c :: b = a' ++ c :: b' -> a = a' /\ b = b'.
Proof.
  revert a'. induction a as [|x a IH]; intros [|x' a'] H1 H2 E; simpl in E; simplify_eq; [done|set_solver..|].
  destruct (IH a') as [-> ->]; [set_solver|set_solver|done|done].
Qed.

Lemma Itoa_no_dash n : 0 <= n -> "-"%char ∉ chars (Itoa n).
Proof.
  intros Hn H. pose proof (digits_value_all _ _ _ (Itoa_value n Hn)) as HF. rewrite Forall_forall in HF.
  apply HF in H as [d Hd]. by vm_compute in Hd.
Qed.

Lemma range_inj lo hi lo' hi' : 0 <= lo -> 0 <= lo' ->
  "bytes=" +:+ Itoa lo +:+ "-" +:+ Itoa hi = "bytes=" +:+ Itoa lo' +:+ "-" +:+ Itoa hi' -> lo = lo' /\ hi = hi'.
Proof.
  intros H1 H2 E. apply (f_equal chars) in E. rewrite !chars_app in E. apply app_inv_head in E.
  apply separator_inj in E as [E1 E2]; [|by apply Itoa_no_dash..].
  split; apply (inj pretty); by apply chars_inj.
Qed.

(** ** Witnesses *)
Definition sample_client : HTTPClient :=
  mkHTTPClient "agent/1.0" (mkRedirectEngine true 5 []) second second second.

Lemma redirects_bounded_witness :
  let server url := Ok (if String.eqb url "a" then Redirect "b" 301 else if String.eqb url "b" then Redirect "c" 302 else Final 200) in
  exists result via engine, do_loop 6 server "GET" "a" [] (mkRedirectEngine true 5 []) = Some (result, (via, engine)) /\
    result = Ok 200 /\ zlen via = 3.
Proof.
  intros server. destruct (redirects_bounded server "GET" "a" true 5 (mkRedirectEngine true 5 []))
    as (result & via & engine & HD & _ & _ & _ & HR); [reflexivity|].
  exists result, via, engine. split; [exact HD|]. apply (HR 2%nat); [|reflexivity|lia].
  econstructor; [reflexivity|]. econstructor; [reflexivity|]. constructor. reflexivity.
Defined.

Lemma MetricsSummary_spec_witness :
  let metric e := mkDownloadMetric "streaming" "u" 200 3 3 1 0 0 false "" 0 false 0 e in
  ds_Failed (MetricsSummary [metric ""; metric "refused"]) = 1.
Proof. intros metric. apply (MetricsSummary_spec [metric ""; metric "refused"]). vm_compute. discriminate. Defined.

(** A server of [content] that knows the ranges between two numbers below its length. *)
Definition range_server (content : string) (request : request_parts) : result http_response :=
  let n := length (chars content) in
  match r_Header request !! HeaderRange with
  | None => Err (Errorf "no range")
  | Some header =>
    match find (fun '(lo, hi) => String.eqb header ("bytes=" +:+ Itoa (Z.of_nat lo) +:+ "-" +:+ Itoa (Z.of_nat hi)))
               (list_prod (seq 0 n) (seq 0 n)) with
    | Some (lo, hi) => Ok (mkHttpResponse 206 (-1) (str (slice content (Z.of_nat lo) (Z.of_nat hi))) None)
    | None => Ok (mkHttpResponse 416 0 "" None)
    end
  end.
Definition sample_multipart (content : string) : multipart_env :=
  mkMultipartEnv None None None
    (fun _ => mkStreamEnv (fun _ _ => None) None None (range_server content) None) None (fun _ => None) true.

Lemma range_server_honest content : honest_ranges content (sample_multipart content).
Proof.
  intros i request lo hi response [Hlo Hhi] HS HR H206. cbn in HS. unfold range_server in HS. rewrite HR in HS.
  destruct (find _ _) as [[a b]|] eqn:EF; injection HS as <-; [|done].
  apply find_some in EF as [_ E%String.eqb_eq]. apply range_inj in E as [-> ->]; [|lia|lia].
  cbn [hr_Body]. by rewrite chars_str.
Qed.

Lemma multipart_download_exact_witness :
  (MultipartToFile sample_client (sample_multipart "resource") "http://o/f" "/d/f" ∅ 8 3 true ∅).2 !! "/d/f" = Some "resource".
Proof.
  destruct (MultipartToFile sample_client (sample_multipart "resource") "http://o/f" "/d/f" ∅ 8 3 true ∅)
    as [[result err] fs'] eqn:E.
  assert (err = None) as ->.
  { change err with ((result, err, fs').1.2). rewrite <- E. vm_compute. reflexivity. }
  eapply (multipart_download_exact sample_client (sample_multipart "resource") "http://o/f" "/d/f" ∅ 3 true ∅ "resource");
    [|apply range_server_honest|lia|vm_compute; discriminate|exact E].
  split; [vm_compute; reflexivity|]. split; [vm_compute; reflexivity|]. exists "/"%char. split; vm_compute; reflexivity.
Defined.
