(* ===== verification/AurenStorage.v ===== *)
(** * The Auren Storage adapter

    internal/storage/auren.go: uploads to the Auren Storage HTTP API, directly as a form or
    in parts.  The service is a function of the requests sent so far and the request; the
    requests sent are the log an operation extends.  JSON payloads are the values that are
    encoded (maps of strings, numbers and lists, which always encode); decoding the answers
    is the parameter [decode], and an object is listed in the order in which its traversal
    enumerates it.  The progress callbacks, which ignore their result, are left out. *)
From Stdlib Require Import SpecFloat.
From S2P Require Import Prelude GoStrings GoUrl GoUrlEscape GoPath GoCrypto GoFloat GoTime GoJson GoFS Ranges Upload Storage Download.

Definition AurenStorageAdapterName : string := "auren_storage".
Definition defaultAurenPartSize : Z := 16 * 1024 * 1024.

Record AurenOptions := mkAurenOptions {
  ao_Endpoint : string; ao_Bucket : string; ao_BucketUUID : string; ao_Region : string; ao_TokenHeader : string;
  ao_APIKey : string; ao_MultipartEnabled : bool; ao_PartSize : Z
}.
Record AurenAdapter := mkAurenAdapter {
  au_endpoint : string; au_bucket : string; au_bucketUUID : string; au_region : string; au_tokenHeader : string;
  au_apiKey : string; au_multipartEnabled : bool; au_partSize : Z
}.

Definition AurenConfigured (endpoint bucket : string) : bool :=
  negb (String.eqb (TrimSpace endpoint) "") && negb (String.eqb (TrimSpace bucket) "").

Definition NewAurenStorageAdapter (options : AurenOptions) : result AurenAdapter :=
  let endpoint := TrimRightChar "/" (TrimSpace (ao_Endpoint options)) in
  let bucket := firstNonEmpty [ao_BucketUUID options; ao_Bucket options] in
  if String.eqb endpoint "" then Err (Errorf "auren storage endpoint is required") else
  let not_absolute := Err (Errorf "auren storage endpoint must be an absolute URL") in
  match url_Parse endpoint with
  | Err _ => not_absolute
  | Ok parsed =>
    if bool_decide (Scheme parsed = []) || bool_decide (Host parsed = []) then not_absolute else
    if negb (bool_decide (Scheme parsed = chars "http")) && negb (bool_decide (Scheme parsed = chars "https"))
    then Err (Errorf "auren storage endpoint scheme must be http or https") else
    if String.eqb bucket "" then Err (Errorf "auren storage bucket_uuid or bucket is required") else
    let tokenHeader := TrimSpace (ao_TokenHeader options) in
    Ok (mkAurenAdapter endpoint (TrimSpace (ao_Bucket options)) (TrimSpace (ao_BucketUUID options))
          (TrimSpace (ao_Region options)) (if String.eqb tokenHeader "" then "Authorization" else tokenHeader)
          (TrimSpace (ao_APIKey options)) (ao_MultipartEnabled options)
          (if ao_PartSize options <=? 0 then defaultAurenPartSize else ao_PartSize options))
  end.

(** ** Requests and answers *)
Inductive auren_body :=
| JSON (payload : any)
| Raw (bytes : list ascii)
| Form (fields : list (string * any)) (disposition contentType content : string)
(** A form that breaks off: some of the fields, perhaps the file and some of its bytes. *)
| CutForm (fields : list (string * any)) (file : option (string * string * list ascii)).
Record AurenRequest := mkAurenRequest { aq_Method : string; aq_URL : string; aq_Header : HeaderSet; aq_Body : auren_body }.
Record AurenResponse := mkAurenResponse { ap_Status : Z; ap_Header : HeaderSet; ap_Body : string; ap_readErr : option error }.

(** Where the goroutine that writes the form into the pipe may fail, beside opening the source:
    in a field, at the header of the file, while the bytes are copied, at the end. *)
Inductive pipe_fault :=
| FieldFault (written : nat) (e : error) | PartFault (e : error) | CopyFault (copied : nat) (e : error) | EndFault (e : error).

(** What an upload meets: the source, the creation of requests for a URL, reading the
    source for its digest and that of a part, writing the form, and the service. *)
Record auren_env := mkAurenEnv {
  ae_stat : option stat_result; ae_sum : option error; ae_open : option error; ae_check : string -> option error;
  ae_part : Z -> option error; ae_form : option pipe_fault;
  ae_do : list AurenRequest -> AurenRequest -> result AurenResponse
}.

(** [filepath.Base]. *)
Definition Base (path : string) : string :=
  if String.eqb path "" then "." else
  let trimmed := reverse (drop_char slash (reverse (chars path))) in
  if bool_decide (trimmed = []) then "/" else
  match LastIndexByte trimmed slash with
  | Some i => str (drop (S i) trimmed)
  | None => str trimmed
  end.

Definition double_quote : string := str ["034"%char].
Definition escapeQuotes (value : string) : string := ReplaceAll value double_quote ("\" +:+ double_quote).

(** The header of the file in a form. *)
Definition file_disposition (objectPath : string) : string :=
  "form-data; name=" +:+ double_quote +:+ "file" +:+ double_quote +:+ "; filename=" +:+ double_quote +:+
  escapeQuotes (Base objectPath) +:+ double_quote.

(** ** Reading answers *)
Definition anyToString (format_float : spec_float -> string) (value : any) : string :=
  match value with
  | AString s => TrimSpace s
  | AFloat f => if SFeqb f (float64 (int64_of_float f)) then Itoa (int64_of_float f) else format_float f
  | AInt z => Itoa z
  | _ => ""
  end.

Section Answers.
(** [strconv.FormatFloat(f, 'f', -1, 64)] of a number that is not an integer, and
    [json.Unmarshal] into a map. *)
Context (format_float : spec_float -> string) (decode : string -> result object).

Definition first_match (wanted : list string) (m : object) : string :=
  match find (fun kv => bool_decide (ToLower kv.1 ∈ wanted) && negb (String.eqb (anyToString format_float kv.2) "")) m with
  | Some kv => anyToString format_float kv.2
  | None => ""
  end.

Fixpoint first_found (found : list string) : string :=
  match found with
  | [] => ""
  | text :: r => if String.eqb text "" then first_found r else text
  end.

(** [walk]: the entries of a map before what is nested in it. *)
Fixpoint walk (wanted : list string) (value : any) : string :=
  match value with
  | AMap m =>
    let text := first_match wanted m in
    if String.eqb text "" then first_found (map (fun kv => walk wanted kv.2) m) else text
  | AList l => first_found (map (walk wanted) l)
  | _ => ""
  end.

Definition firstStringRecursive (input : object) (keys : list string) : string :=
  match input with [] => "" | _ => walk (map ToLower keys) (AMap input) end.

Definition firstInt64Recursive (input : object) (fallback : Z) (keys : list string) : Z :=
  let text := firstStringRecursive input keys in
  if String.eqb text "" then fallback else
  match ParseInt text with Ok n => n | Err _ => fallback end.

Definition answer_limit : Z := 4194304.
Definition readJSONResponse (response : AurenResponse) : result object :=
  let payload := if slen (ap_Body response) <=? answer_limit then ap_Body response
                 else str (take (Z.to_nat answer_limit) (chars (ap_Body response))) in
  match ap_readErr response with
  | Some e => Err e
  | None =>
    if (ap_Status response <? 200) || (300 <=? ap_Status response)
    then Err (Errorf ("auren storage returned HTTP " +:+ Itoa (ap_Status response) +:+ ": " +:+ TrimSpace payload)) else
    if String.eqb (TrimSpace payload) "" then Ok [] else decode payload
  end.

(** ** Requests of the adapter *)
Context (adapter : AurenAdapter) (env : auren_env).

Definition bucketID (request : UploadRequest) : string :=
  firstNonEmpty [sr_BucketUUID request; sr_Bucket request; au_bucketUUID adapter; au_bucket adapter].

Definition bucketURL (bucket : string) : string := au_endpoint adapter +:+ "/api/v1/buckets/" +:+ PathEscape bucket.
Definition objectURL (bucket : string) : string := bucketURL bucket +:+ "/objects".
Definition multipartURL (bucket : string) : string := bucketURL bucket +:+ "/multipart-uploads".
Definition multipartPartURL (bucket uploadID : string) (number : Z) : string :=
  multipartURL bucket +:+ "/" +:+ PathEscape uploadID +:+ "/parts/" +:+ Itoa number.
Definition multipartCompleteURL (bucket uploadID : string) : string :=
  multipartURL bucket +:+ "/" +:+ PathEscape uploadID +:+ "/complete".
Definition multipartAbortURL (bucket uploadID : string) : string :=
  multipartURL bucket +:+ "/" +:+ PathEscape uploadID +:+ "/abort".

Definition applyAuth (header : HeaderSet) : HeaderSet :=
  if String.eqb (au_apiKey adapter) "" then header else
  let value := au_apiKey adapter in
  header_set (au_tokenHeader adapter)
    (if EqualFold (au_tokenHeader adapter) "Authorization" && negb (HasPrefix (ToLower value) "bearer ")
     then "Bearer " +:+ value else value) header.

(** The operations answer and extend the log of requests. *)
Definition H (A : Type) : Type := list AurenRequest -> result A * list AurenRequest.

(** A request is created, given the credentials and sent. *)
Definition send (method url : string) (header : HeaderSet) (body : auren_body) : H AurenResponse := fun log =>
  match ae_check env url with
  | Some e => (Err e, log)
  | None =>
    let request := mkAurenRequest method url (applyAuth header) body in
    (ae_do env log request, log ++ [request])
  end.

Definition json_headers : HeaderSet := header_set "Accept" "application/json" (header_set "Content-Type" "application/json" ∅).

(** [doJSON]. *)
Definition auren_doJSON (method url : string) (payload : any) : H object := fun log =>
  match send method url json_headers (JSON payload) log with
  | (Err e, log) => (Err e, log)
  | (Ok response, log) => (readJSONResponse response, log)
  end.

Definition metadata_value (request : UploadRequest) : any := AStringMap (map_to_list (sr_Metadata request)).

Definition initiate_payload (request : UploadRequest) (size : Z) : any :=
  AMap [("path", AString (sr_ObjectPath request)); ("object_path", AString (sr_ObjectPath request));
        ("directory_path", AString (sr_DirectoryPath request)); ("relative_path", AString (sr_RelativePath request));
        ("visibility", AString (sr_Visibility request)); ("mime_type", AString (sr_MimeType request));
        ("checksum_algorithm", AString (sr_ChecksumAlgorithm request));
        ("checksum_sha256", AString (sr_ChecksumSHA256 request)); ("size", AInt size);
        ("metadata", metadata_value request)].

Definition upload_id_keys : list string := ["upload_id"; "multipart_upload_id"; "id"; "uuid"].

Definition initiateMultipart (request : UploadRequest) (size : Z) : H string := fun log =>
  match auren_doJSON "POST" (multipartURL (bucketID request)) (initiate_payload request size) log with
  | (Err e, log) => (Err e, log)
  | (Ok response, log) => (Ok (firstStringRecursive response upload_id_keys), log)
  end.

Definition part_checksum (bytes : list ascii) : string := hex_string (sha256 (bytes_of (str bytes))).

(** The headers of a part before the credentials. *)
Definition part_headers (number offset size totalSize : Z) (bytes : list ascii) : HeaderSet :=
  let h := header_set "Content-Type" "application/octet-stream" ∅ in
  let h := header_set "Accept" "application/json" h in
  let h := header_set "X-Auren-Part-Number" (Itoa number) h in
  let h := header_set "X-Auren-Part-SHA256" (part_checksum bytes) h in
  if 0 <? size
  then header_set "Content-Range" ("bytes " +:+ Itoa offset +:+ "-" +:+ Itoa (wrap64 (wrap64 (offset + size) - 1)) +:+ "/" +:+ Itoa totalSize) h
  else h.

(** The bytes of a section of the source. *)
Definition section (content : string) (offset size : Z) : list ascii :=
  take (Z.to_nat size) (drop (Z.to_nat offset) (chars content)).

Definition uploadPart (request : UploadRequest) (uploadID : string) (number : Z) (content : string)
  (offset size totalSize : Z) : H UploadPartResult := fun log =>
  let bytes := section content offset size in
  match ae_part env number with
  | Some e => (Err e, log)
  | None =>
    match send "PUT" (multipartPartURL (bucketID request) uploadID number) (part_headers number offset size totalSize bytes)
               (Raw bytes) log with
    | (Err e, log) => (Err e, log)
    | (Ok response, log) =>
      match readJSONResponse response with
      | Err e => (Err e, log)
      | Ok body =>
        let etag := header_get "ETag" (ap_Header response) in
        let etag := if String.eqb etag "" then firstStringRecursive body ["etag"; "e_tag"] else etag in
        (Ok (mkUploadPart number size (part_checksum bytes) (TrimChar "034" etag)), log)
      end
    end
  end.

(** [parseObjectResponse]. *)
Definition parseObjectResponse (response : AurenResponse) (request : UploadRequest) (size : Z) (multipart : bool)
  (parts : list UploadPartResult) : result UploadResult :=
  body ← readJSONResponse response;
  let first := firstStringRecursive body in
  let location := header_get "Location" (ap_Header response) in
  let location := if String.eqb (TrimSpace location) ""
                  then first ["url"; "signed_url"; "public_url"; "temporary_url"; "location"] else location in
  Ok (mkUploadResult AurenStorageAdapterName DriverAurenStorage
        (firstNonEmpty [first ["bucket_uuid"]; sr_BucketUUID request])
        (firstNonEmpty [first ["bucket"; "bucket_name"]; sr_Bucket request])
        (first ["object_uuid"; "uuid"; "id"])
        (firstNonEmpty [first ["path"; "object_path"; "relative_path"]; sr_ObjectPath request])
        location (firstInt64Recursive body size ["size"; "bytes"; "bytes_written"])
        (firstNonEmpty [first ["checksum_sha256"; "sha256"; "checksum"]; sr_ChecksumSHA256 request])
        (firstNonEmpty [first ["visibility"]; sr_Visibility request])
        (firstNonEmpty [first ["mime_type"; "content_type"]; sr_MimeType request])
        multipart parts (sr_Metadata request)).

(** An [UploadPartResult] as it is encoded; empty strings are left out. *)
Definition optional (key value : string) : object := if String.eqb value "" then [] else [(key, AString value)].
Definition part_value (part : UploadPartResult) : any :=
  AMap ([("number", AInt (up_Number part)); ("size", AInt (up_Size part))] ++
        optional "checksum_sha256" (up_ChecksumSHA256 part) ++ optional "etag" (up_ETag part)).

Definition complete_payload (request : UploadRequest) (uploadID : string) (size : Z) (parts : list UploadPartResult) : any :=
  AMap [("upload_id", AString uploadID); ("path", AString (sr_ObjectPath request));
        ("object_path", AString (sr_ObjectPath request)); ("size", AInt size);
        ("checksum_sha256", AString (sr_ChecksumSHA256 request)); ("parts", AList (map part_value parts));
        ("metadata", metadata_value request)].

Definition completeMultipart (request : UploadRequest) (uploadID : string) (size : Z) (parts : list UploadPartResult)
  : H UploadResult := fun log =>
  match send "POST" (multipartCompleteURL (bucketID request) uploadID) json_headers
             (JSON (complete_payload request uploadID size parts)) log with
  | (Err e, log) => (Err e, log)
  | (Ok response, log) => (parseObjectResponse response request size true parts, log)
  end.

Definition abort_payload (uploadID reason : string) : any :=
  AMap [("upload_id", AString uploadID); ("reason", AString reason)].

Definition abortMultipart (request : UploadRequest) (uploadID reason : string) (log : list AurenRequest) : list AurenRequest :=
  (auren_doJSON "POST" (multipartAbortURL (bucketID request) uploadID) (abort_payload uploadID reason) log).2.

(** The loop over the parts. *)
Fixpoint part_loop (fuel : nat) (request : UploadRequest) (uploadID content : string) (size number offset : Z)
  (parts : list UploadPartResult) : H (list UploadPartResult) := fun log =>
  if (offset <? size) || ((size =? 0) && (number =? 1)) then
    match fuel with
    | O => (Err out_of_fuel, log)
    | S fuel =>
      let partSize := au_partSize adapter in
      let partSize := if size <? wrap64 (offset + partSize) then wrap64 (size - offset) else partSize in
      let partSize := if size =? 0 then 0 else partSize in
      match uploadPart request uploadID number content offset partSize size log with
      | (Err e, log) => (Err e, log)
      | (Ok part, log) =>
        if size =? 0 then (Ok (parts ++ [part]), log)
        else part_loop fuel request uploadID content size (wrap64 (number + 1)) (wrap64 (offset + partSize)) (parts ++ [part]) log
      end
    end
  else (Ok parts, log).

(** [multipartUpload]; every failure after the upload has an identifier aborts it, except
    the panic of the allocation. *)
Definition multipartUpload (request : UploadRequest) (size : Z) (fs : FS) : H UploadResult := fun log =>
  match initiateMultipart request size log with
  | (Err e, log) => (Err e, log)
  | (Ok uploadID, log) =>
    if String.eqb uploadID "" then (Err (Errorf "auren storage multipart initiate response missing upload_id"), log) else
    if plan_cap size (au_partSize adapter) <? 0 then (Err panic_makeslice, log) else
    match ReadFile (ae_open env) (sr_SourcePath request) fs with
    | Err e => (Err e, abortMultipart request uploadID "open_source_failed" log)
    | Ok content =>
      match part_loop (Z.to_nat (size / au_partSize adapter) + 2) request uploadID content size 1 0 [] log with
      | (Err e, log) => (Err e, abortMultipart request uploadID (Error e) log)
      | (Ok parts, log) =>
        match completeMultipart request uploadID size parts log with
        | (Err e, log) => (Err e, abortMultipart request uploadID (Error e) log)
        | (Ok result, log) => (Ok result, log)
        end
      end
    end
  end.

(** ** Direct upload *)
Definition form_field (name value : string) : list (string * any) :=
  if String.eqb (TrimSpace value) "" then [] else [(name, AString value)].
Definition metadata_stops : string := str ["013"%char; "010"%char; "000"%char].
(** [writeAurenFormFields]; the two maps are written in the order of their traversal. *)
Definition form_fields (request : UploadRequest) (size : Z) : list (string * any) :=
  form_field "path" (sr_ObjectPath request) ++ form_field "object_path" (sr_ObjectPath request) ++
  form_field "directory_path" (sr_DirectoryPath request) ++ form_field "relative_path" (sr_RelativePath request) ++
  form_field "visibility" (sr_Visibility request) ++ form_field "mime_type" (sr_MimeType request) ++
  form_field "checksum_algorithm" (sr_ChecksumAlgorithm request) ++
  form_field "checksum_sha256" (sr_ChecksumSHA256 request) ++ form_field "size" (Itoa size) ++
  let entries := map_to_list (sr_Metadata request) in
  match entries with
  | [] => []
  | _ => ("metadata", AStringMap entries) ::
         omap (fun '(key, value) => if ContainsAny key metadata_stops then None
                                    else Some ("metadata[" +:+ key +:+ "]", AString value)) entries
  end.

(** What the goroutine writes into the pipe, and the error it hands over: the request reads the
    other end of the pipe from its start on, so that a source that cannot be opened or a write
    that fails breaks off a form that is already on its way. *)
Definition written_form (request : UploadRequest) (size : Z) (fs : FS) : auren_body * option error :=
  let fields := form_fields request size in
  let disposition := file_disposition (sr_ObjectPath request) in
  match ae_form env with
  | Some (FieldFault n e) => (CutForm (take n fields) None, Some e)
  | fault =>
    match ReadFile (ae_open env) (sr_SourcePath request) fs with
    | Err e => (CutForm fields None, Some e)
    | Ok content =>
      match fault with
      | Some (PartFault e) => (CutForm fields None, Some e)
      | Some (CopyFault n e) => (CutForm fields (Some (disposition, sr_MimeType request, take n (chars content))), Some e)
      | Some (EndFault e) => (CutForm fields (Some (disposition, sr_MimeType request, chars content)), Some e)
      | _ => (Form fields disposition (sr_MimeType request) content, None)
      end
    end
  end.

(** [directUpload]: the answer of the service counts only when the whole form was written. *)
Definition directUpload (request : UploadRequest) (size : Z) (fs : FS) : H UploadResult := fun log =>
  let '(body, writeErr) := written_form request size fs in
  let header := header_set "Accept" "application/json" (header_set "Content-Type" "multipart/form-data" ∅) in
  match send "POST" (objectURL (bucketID request)) header body log with
  | (Err e, log) => (Err e, log)
  | (Ok response, log) =>
    match writeErr with
    | Some e => (Err e, log)
    | None => (parseObjectResponse response request size false [], log)
    end
  end.

(** ** Upload *)
Definition sha256File (path : string) (fs : FS) : result string :=
  content ← ReadFile None path fs;
  match ae_sum env with Some e => Err e | None => Ok (hex_string (sha256 (bytes_of content))) end.

(** The request with the fields [Upload] fills in. *)
Definition filled (request : UploadRequest) (objectPath checksum : string) : UploadRequest :=
  mkUploadRequest (sr_SourcePath request) objectPath (firstNonEmpty [sr_BucketUUID request; au_bucketUUID adapter])
    (firstNonEmpty [sr_Bucket request; au_bucket adapter]) (sr_DirectoryPath request) (sr_RelativePath request)
    (if String.eqb (sr_Visibility request) "" then "private" else sr_Visibility request)
    (if String.eqb (sr_MimeType request) "" then "application/octet-stream" else sr_MimeType request)
    (firstNonEmpty [sr_ChecksumAlgorithm request; "sha256"]) checksum (sr_Metadata request).

Definition AurenUpload (request : UploadRequest) (fs : FS) : H UploadResult := fun log =>
  match ValidateUploadRequest request with
  | Err e => (Err e, log)
  | Ok _ =>
    match CanonicalObjectPath request with
    | Err e => (Err e, log)
    | Ok objectPath =>
      match Stat (ae_stat env) (sr_SourcePath request) fs with
      | StatMissing => (Err (path_error "stat" (sr_SourcePath request) os_ErrNotExist), log)
      | StatError e => (Err e, log)
      | StatDir => (Err (Errorf "storage source path must be a file"), log)
      | StatFile size =>
        let given := TrimSpace (sr_ChecksumSHA256 request) in
        match (if String.eqb given "" || EqualFold (sr_ChecksumAlgorithm request) "sha256"
               then sha256File (sr_SourcePath request) fs else Ok given) with
        | Err e => (Err e, log)
        | Ok checksum =>
          let request := filled request objectPath checksum in
          if au_multipartEnabled adapter && (au_partSize adapter <? size)
          then multipartUpload request size fs log else directUpload request size fs log
        end
      end
    end
  end.

(** ** The multipart protocol *)

(** The request for one planned part, its number counted from one. *)
Definition part_request (request : UploadRequest) (uploadID content : string) (total : Z) (p : Part) : AurenRequest :=
  let bytes := section content (Start p) (part_len p) in
  mkAurenRequest "PUT" (multipartPartURL (bucketID request) uploadID (Index p + 1))
    (applyAuth (part_headers (Index p + 1) (Start p) (part_len p) total bytes)) (Raw bytes).
Definition json_request (url : string) (payload : any) : AurenRequest :=
  mkAurenRequest "POST" url (applyAuth json_headers) (JSON payload).
Definition initiate_request request size := json_request (multipartURL (bucketID request)) (initiate_payload request size).
Definition complete_request request uploadID size parts :=
  json_request (multipartCompleteURL (bucketID request) uploadID) (complete_payload request uploadID size parts).
Definition abort_request request uploadID reason :=
  json_request (multipartAbortURL (bucketID request) uploadID) (abort_payload uploadID reason).

(** What the adapter remembers of a part is what it sent. *)
Definition describes (content : string) (p : Part) (r : UploadPartResult) : Prop :=
  up_Number r = Index p + 1 /\ up_Size r = part_len p /\
  up_ChecksumSHA256 r = part_checksum (section content (Start p) (part_len p)).

(** Requests can be created, and the service answers every request with a document. *)
Definition creates : Prop := forall url, ae_check env url = None.
Definition serves : Prop :=
  (forall n, ae_part env n = None) /\
  forall log r, exists response body, ae_do env log r = Ok response /\ readJSONResponse response = Ok body.

Lemma uploadPart_run request uploadID content p total log : creates ->
  let '(res, log') := uploadPart request uploadID (Index p + 1) content (Start p) (part_len p) total log in
  (log' = log ++ [part_request request uploadID content total p] \/ log' = log /\ exists e, res = Err e) /\
  (forall part, res = Ok part -> log' = log ++ [part_request request uploadID content total p] /\ describes content p part) /\
  (serves -> exists part, res = Ok part).
Proof.
  intros HC. unfold uploadPart. destruct (ae_part env (Index p + 1)) as [e|] eqn:EP.
  { split_and!; [by right; eauto|done|]. intros [HS _]. by rewrite HS in EP. }
  unfold send. rewrite HC. fold (part_request request uploadID content total p).
  set (sent := part_request request uploadID content total p).
  destruct (ae_do env log sent) as [response|e] eqn:ED.
  2:{ split_and!; [by left|done|]. intros [_ HS]. destruct (HS log sent) as (? & ? & ? & ?). congruence. }
  destruct (readJSONResponse response) as [body|e] eqn:ER.
  2:{ split_and!; [by left|done|]. intros [_ HS]. destruct (HS log sent) as (? & ? & ? & ?). congruence. }
  split_and!; [by left| |by eauto]. intros part [= <-]. split; [done|]. by split_and!.
Qed.

Lemma part_loop_run request uploadID content size : creates -> 0 < au_partSize adapter -> 0 < size ->
  size + au_partSize adapter <= int64_max ->
  forall fuel number offset parts log, 0 <= offset <= size -> 1 <= number <= offset + 1 ->
  size <= offset + au_partSize adapter * Z.of_nat fuel ->
  exists ps, tiles (au_partSize adapter) offset size (number - 1) ps /\
  let '(res, log') := part_loop fuel request uploadID content size number offset parts log in
  exists k, log' = log ++ map (part_request request uploadID content size) (take k ps) /\
    (forall done, res = Ok done -> k = length ps /\ exists new, done = parts ++ new /\ Forall2 (describes content) ps new) /\
    (serves -> exists done, res = Ok done).
Proof.
  intros HC Hps Hsize Hmax. induction fuel as [|fuel IH]; intros number offset parts log Hoff Hn Hf;
    cbn [part_loop]; (destruct (Z.eqb_spec size 0) as [|_]; [lia|]); cbn [andb]; rewrite orb_false_r;
    destruct (Z.ltb_spec offset size) as [Hlt|Hge]; [lia| | |].
  1, 3: exists []; (split; [cbn; lia|]); exists 0%nat; cbn; rewrite app_nil_r; (split_and!; [done| |by eauto]);
    intros fin [= <-]; (split; [reflexivity|]); exists []; by rewrite app_nil_r.
  rewrite (wrap64_id (offset + au_partSize adapter)) by (unfold in_int64, int64_min, int64_max in *; lia).
  rewrite (wrap64_id (size - offset)) by (unfold in_int64, int64_min, int64_max in *; lia).
  set (len := if size <? offset + au_partSize adapter then size - offset else au_partSize adapter).
  assert (0 < len <= au_partSize adapter /\ offset + len <= size /\ (len = au_partSize adapter \/ offset + len = size)) as (Hl1 & Hl2 & Hl3)
    by (unfold len; destruct (Z.ltb_spec size (offset + au_partSize adapter)); lia).
  set (p := mkPart (number - 1) offset (offset + len - 1) 0).
  assert (part_len p = len) as HL by (unfold part_len, p; cbn; lia).
  pose proof (uploadPart_run request uploadID content p size log HC) as HU. rewrite HL in HU.
  cbn [p Index Start] in HU. replace (number - 1 + 1) with number in HU by lia.
  destruct (uploadPart request uploadID number content offset len size log) as [[part|e] log1].
  - destruct HU as (_ & HU & _). destruct (HU part eq_refl) as [-> HD].
    rewrite (wrap64_id (number + 1)) by (unfold in_int64, int64_min, int64_max in *; lia).
    rewrite (wrap64_id (offset + len)) by (unfold in_int64, int64_min, int64_max in *; lia).
    destruct (IH (number + 1) (offset + len) (parts ++ [part]) (log ++ [part_request request uploadID content size p]))
      as (ps & HT & Hrun); [lia|lia| |].
    { unfold len. destruct (Z.ltb_spec size (offset + au_partSize adapter)); nia. }
    exists (p :: ps). split.
    + cbn [tiles]. rewrite HL. cbn [p Start Index End_]. replace (offset + len - 1 + 1) with (offset + len) by lia.
      replace (number + 1 - 1) with (number - 1 + 1) in HT by lia. split_and!; [done|done|lia|lia| |done].
      destruct Hl3 as [->|He]; [by left|]. right. split; [|lia]. destruct ps; [done|]. cbn in HT. lia.
    + destruct (part_loop fuel _ _ _ _ _ _ _ _) as [res log']. destruct Hrun as (k & -> & H1 & H2).
      exists (S k). cbn [take map]. rewrite <- app_assoc. split_and!; [done| |done].
      intros done Hd. destruct (H1 done Hd) as (-> & new & -> & HF). split; [done|]. exists (part :: new).
      rewrite <- app_assoc. split; [done|]. by constructor.
  - destruct HU as (HU & _ & HS).
    (* the remaining parts are planned but not sent *)
    destruct (plan_loop_tiles (Z.to_nat (size / au_partSize adapter) + 2) size (au_partSize adapter) offset (number - 1))
      as (ps & _ & HT & _); [lia|lia|lia|lia| |].
    { pose proof (Z.div_mod size (au_partSize adapter)). pose proof (Z.mod_pos_bound size (au_partSize adapter)). nia. }
    exists ps. specialize (HT Hlt). split; [exact HT|]. destruct ps as [|q ps]; [cbn in HT; lia|].
    assert (part_request request uploadID content size q = part_request request uploadID content size p) as HQ.
    { cbn [tiles] in HT. destruct HT as (HS1 & HI & HE & HLq & Hrest). unfold part_request.
      assert (part_len q = len) as ->.
      { unfold len, part_len in *. rewrite HS1 in *. destruct HLq as [HLq|[-> HLq]].
        - destruct (Z.ltb_spec size (offset + au_partSize adapter)); lia.
        - cbn in Hrest. destruct (Z.ltb_spec size (offset + au_partSize adapter)); lia. }
      rewrite HL, HS1, HI. done. }
    destruct HU as [->|[-> _]].
    + exists 1%nat. cbn [take map]. rewrite HQ. split_and!; [done|done|]. intros Hs. by destruct (HS Hs).
    + exists 0%nat. cbn [take map]. rewrite app_nil_r. split_and!; [done|done|]. intros Hs. by destruct (HS Hs).
Qed.

(** The service took a request. *)
Definition accepted (log : list AurenRequest) (r : AurenRequest) : Prop :=
  exists response, ae_do env log r = Ok response /\ 200 <= ap_Status response < 300.
Lemma json_accepted response body : readJSONResponse response = Ok body -> 200 <= ap_Status response < 300.
Proof.
  unfold readJSONResponse. destruct (ap_readErr response); [done|]. destruct (_ || _) eqn:E; [done|]. intros _.
  apply orb_false_iff in E as [?%Z.ltb_ge ?%Z.leb_gt]. lia.
Qed.

Lemma abort_run request uploadID reason log : creates ->
  abortMultipart request uploadID reason log = log ++ [abort_request request uploadID reason].
Proof. intros HC. unfold abortMultipart, auren_doJSON, send. rewrite HC. by destruct (ae_do _ _ _). Qed.

Lemma initiate_run request size log : creates ->
  let '(res, log') := initiateMultipart request size log in
  log' = log ++ [initiate_request request size] /\
  (serves -> exists response body, ae_do env log (initiate_request request size) = Ok response /\
     readJSONResponse response = Ok body /\ res = Ok (firstStringRecursive body upload_id_keys)).
Proof.
  intros HC. unfold initiateMultipart, auren_doJSON, send. rewrite HC. fold (json_request (multipartURL (bucketID request)) (initiate_payload request size)).
  fold (initiate_request request size). set (r := initiate_request request size).
  destruct (ae_do env log r) as [response|e] eqn:ED.
  - destruct (readJSONResponse response) as [body|e] eqn:ER; (split; [done|]); intros [_ HS];
      destruct (HS log r) as (r1 & b1 & ? & ?); exists response; [by exists body|congruence].
  - split; [done|]. intros [_ HS]. destruct (HS log r) as (? & ? & ? & ?). congruence.
Qed.

Lemma complete_run request uploadID size parts log : creates ->
  let '(res, log') := completeMultipart request uploadID size parts log in
  log' = log ++ [complete_request request uploadID size parts] /\
  (forall r, res = Ok r -> res_Parts r = parts /\ accepted log (complete_request request uploadID size parts)) /\
  (serves -> exists r, res = Ok r).
Proof.
  intros HC. unfold completeMultipart, send. rewrite HC.
  fold (json_request (multipartCompleteURL (bucketID request) uploadID) (complete_payload request uploadID size parts)).
  fold (complete_request request uploadID size parts). set (r := complete_request request uploadID size parts).
  destruct (ae_do env log r) as [response|e] eqn:ED.
  2:{ split_and!; [done|done|]. intros [_ HS]. destruct (HS log r) as (? & ? & ? & ?). congruence. }
  unfold parseObjectResponse. destruct (readJSONResponse response) as [body|e] eqn:ER; cbn [mbind result_bind].
  - split_and!; [done| |by eauto]. intros res [= <-]. split; [done|]. exists response. split; [done|]. by eapply json_accepted.
  - split_and!; [done|done|]. intros [_ HS]. destruct (HS log r) as (? & ? & ? & ?). congruence.
Qed.

(** What a multipart upload sends after its initiation, by its outcome. *)
Definition part_requests request uploadID content ps :=
  map (part_request request uploadID content (slen content)) ps.
Definition protocol (log : list AurenRequest) (request : UploadRequest) (content : string) (ps : list Part) (res : result UploadResult)
  (sent : list AurenRequest) : Prop :=
  let size := slen content in
  match res with
  | Ok r =>
    exists uploadID, uploadID <> "" /\ Forall2 (describes content) ps (res_Parts r) /\
      sent = part_requests request uploadID content ps ++ [complete_request request uploadID size (res_Parts r)] /\
      accepted (log ++ initiate_request request size :: part_requests request uploadID content ps)
        (complete_request request uploadID size (res_Parts r))
  | Err e =>
    sent = [] \/
    exists uploadID, uploadID <> "" /\
      ((exists k reason, sent = part_requests request uploadID content (take k ps) ++ [abort_request request uploadID reason]) \/
       exists parts, Forall2 (describes content) ps parts /\
         sent = part_requests request uploadID content ps ++
                [complete_request request uploadID size parts; abort_request request uploadID (Error e)])
  end.

(** A multipart upload initiates, sends the parts of the source in order, and completes with
    the list of exactly these parts; the bytes of the parts are the source.  When anything
    fails after the service named the upload, the upload is aborted, once and as the last
    request.  A service that answers is enough for success. *)
Lemma multipart_run request content fs log : creates -> 0 < au_partSize adapter ->
  slen content + au_partSize adapter <= int64_max -> content <> "" -> fs !! sr_SourcePath request = Some content ->
  let '(res, log') := multipartUpload request (slen content) fs log in
  exists ps sent, tiles (au_partSize adapter) 0 (slen content) 0 ps /\
    concat (map (fun p => section content (Start p) (part_len p)) ps) = chars content /\
    log' = log ++ initiate_request request (slen content) :: sent /\ protocol log request content ps res sent /\
    (serves -> ae_open env = None ->
     (forall response body, ae_do env log (initiate_request request (slen content)) = Ok response ->
        readJSONResponse response = Ok body -> firstStringRecursive body upload_id_keys <> "") ->
     exists r, res = Ok r).
Proof.
  intros HC Hps Hmax Hne Hfs. set (size := slen content) in *.
  assert (0 < size) as Hsize.
  { unfold size, slen, zlen. destruct (chars content) eqn:E; [|simpl; lia]. destruct Hne. apply chars_inj. by rewrite E. }
  assert (exists ps0, tiles (au_partSize adapter) 0 size 0 ps0) as [ps0 HT0].
  { destruct (run_plan_ok size (au_partSize adapter)) as (plan & _ & _ & _ & HT); [lia|lia|lia|]. eauto. }
  assert (forall ps, tiles (au_partSize adapter) 0 size 0 ps ->
    concat (map (fun p => section content (Start p) (part_len p)) ps) = chars content) as Hcat.
  { intros ps HT. pose proof (tiles_concat content _ _ _ _ _ HT ltac:(lia) ltac:(lia)) as HB.
    change (Z.to_nat 0) with 0%nat in HB. rewrite drop_0, take_ge in HB by (unfold size, slen, zlen in *; lia). exact HB. }
  unfold multipartUpload. pose proof (initiate_run request size log HC) as HI.
  destruct (initiateMultipart request size log) as [[uploadID|e] log1]; destruct HI as [-> HIs].
  2:{ exists ps0, []. split_and!; [done|by apply Hcat|done|by left|]. intros Hs. by destruct (HIs Hs) as (? & ? & ? & ? & ?). }
  destruct (String.eqb_spec uploadID "") as [->|Hid].
  { exists ps0, []. split_and!; [done|by apply Hcat|done|by left|]. intros Hs Ho Hn.
    destruct (HIs Hs) as (response & body & H1 & H2 & [= H3]). by destruct (Hn response body H1 H2). }
  assert (plan_cap size (au_partSize adapter) <? 0 = false) as ->.
  { apply Z.ltb_ge. unfold plan_cap. rewrite (wrap64_id (size + _)) by (unfold in_int64, int64_min, int64_max in *; lia).
    rewrite wrap64_id by (unfold in_int64, int64_min, int64_max in *; lia). apply Z.quot_pos; lia. }
  assert (ae_open env = None \/ exists e, ae_open env = Some e) as [Ho|[e Ho]] by (destruct (ae_open env); eauto).
  2:{ unfold ReadFile. rewrite Ho. rewrite abort_run by done. eexists ps0, _. rewrite <- app_assoc.
      split_and!; [done|by apply Hcat|done| |intros _ [=]]. right. exists uploadID. split; [done|]. left. by exists 0%nat, "open_source_failed". }
  unfold ReadFile. rewrite Ho, Hfs.
  set (fuel := (Z.to_nat (size / au_partSize adapter) + 2)%nat).
  destruct (part_loop_run request uploadID content size HC Hps Hsize Hmax fuel 1 0 [] (log ++ [initiate_request request size]))
    as (ps & HT & Hrun); [lia|lia| |].
  { unfold fuel. pose proof (Z.div_mod size (au_partSize adapter)). pose proof (Z.mod_pos_bound size (au_partSize adapter)).
    pose proof (Z.div_pos size (au_partSize adapter)). nia. }
  destruct (part_loop fuel _ _ _ _ _ _ _ _) as [[parts|e] log2]; destruct Hrun as (k & -> & Hok & Hsv).
  - destruct (Hok parts eq_refl) as (-> & new & -> & HF). rewrite firstn_all. cbn [app].
    pose proof (complete_run request uploadID size new
      ((log ++ [initiate_request request size]) ++ map (part_request request uploadID content size) ps) HC) as HCo.
    destruct (completeMultipart _ _ _ _ _) as [[r|e] log3]; destruct HCo as (-> & Hp & Hcs).
    + destruct (Hp r eq_refl) as [Hparts Hacc]. rewrite <- app_assoc in Hacc. eexists ps, _. rewrite <- !app_assoc. cbn [app] in *.
      split_and!; [done|by apply Hcat|done| |by eauto]. exists uploadID. rewrite Hparts. by split_and!.
    + rewrite abort_run by done. eexists ps, _. rewrite <- !app_assoc. cbn [app].
      split_and!; [done|by apply Hcat|done| |intros Hs _ _; by destruct (Hcs Hs)].
      right. exists uploadID. split; [done|]. right. exists new. by split.
  - rewrite abort_run by done. eexists ps, _. rewrite <- !app_assoc. cbn [app].
    split_and!; [done|by apply Hcat|done| |intros Hs _ _; by destruct (Hsv Hs)].
    right. exists uploadID. split; [done|]. left. by exists k, (Error e).
Qed.

(** ** The whole upload *)
Definition form_request (request : UploadRequest) (body : auren_body) : AurenRequest :=
  mkAurenRequest "POST" (objectURL (bucketID request))
    (applyAuth (header_set "Accept" "application/json" (header_set "Content-Type" "multipart/form-data" ∅))) body.
Definition direct_request (request : UploadRequest) (content : string) : AurenRequest :=
  form_request request (Form (form_fields request (slen content)) (file_disposition (sr_ObjectPath request)) (sr_MimeType request) content).
(** A form of the request that breaks off: a beginning of what the whole form holds. *)
Definition broken_form (request : UploadRequest) (content : string) (body : auren_body) : Prop :=
  match body with
  | CutForm fields None => fields `prefix_of` form_fields request (slen content)
  | CutForm fields (Some (disposition, mime, bytes)) =>
    fields = form_fields request (slen content) /\ disposition = file_disposition (sr_ObjectPath request) /\
    mime = sr_MimeType request /\ bytes `prefix_of` chars content
  | _ => False
  end.

Lemma written_form_spec request content fs : fs !! sr_SourcePath request = Some content ->
  let '(body, writeErr) := written_form request (slen content) fs in
  match writeErr with
  | None => form_request request body = direct_request request content
  | Some _ => broken_form request content body
  end.
Proof.
  intros Hfs. unfold written_form, ReadFile. rewrite Hfs. cbv zeta.
  destruct (ae_form env) as [[n e|e|n e|e]|], (ae_open env); cbn [broken_form]; try done; try apply prefix_take; by split_and!; [..|apply prefix_take].
Qed.

Lemma direct_run request content fs log : creates -> fs !! sr_SourcePath request = Some content ->
  let '(res, log') := directUpload request (slen content) fs log in
  (exists body, broken_form request content body /\ log' = log ++ [form_request request body] /\ is_ok res = false) \/
  (log' = log ++ [direct_request request content] /\ forall r, res = Ok r -> accepted log (direct_request request content)).
Proof.
  intros HC Hfs. unfold directUpload. pose proof (written_form_spec request content fs Hfs) as HW.
  destruct (written_form request (slen content) fs) as [body [e|]]; unfold send; rewrite HC; cbv zeta; fold (form_request request body).
  - destruct (ae_do env log (form_request request body)); left; by exists body.
  - rewrite HW. destruct (ae_do env log (direct_request request content)) as [response|e] eqn:ED; [|by right]. right. split; [done|]. intros r Hr. exists response. split; [done|].
    unfold parseObjectResponse in Hr. destruct (readJSONResponse response) as [answer|] eqn:EJ; [|done]. by eapply json_accepted.
Qed.

(** What an upload of a source with this content has sent, by its result. *)
Definition uploaded (request : UploadRequest) (content : string) (res : result UploadResult) (log log' : list AurenRequest) : Prop :=
  (log' = log /\ is_ok res = false) \/
  exists objectPath checksum, CanonicalObjectPath request = Ok objectPath /\
    checksum = (let given := TrimSpace (sr_ChecksumSHA256 request) in
      if String.eqb given "" || EqualFold (sr_ChecksumAlgorithm request) "sha256" then hex_string (sha256 (bytes_of content)) else given) /\
    let full := filled request objectPath checksum in
    if au_multipartEnabled adapter && (au_partSize adapter <? slen content) then
      exists ps sent, tiles (au_partSize adapter) 0 (slen content) 0 ps /\
        concat (map (fun p => section content (Start p) (part_len p)) ps) = chars content /\
        log' = log ++ initiate_request full (slen content) :: sent /\ protocol log full content ps res sent
    else
      (log' = log ++ [direct_request full content] /\ forall r, res = Ok r -> accepted log (direct_request full content)) \/
      (exists body, broken_form full content body /\ log' = log ++ [form_request full body] /\ is_ok res = false).

Lemma AurenUpload_spec request content fs log : creates -> 0 < au_partSize adapter ->
  slen content + au_partSize adapter <= int64_max -> ae_stat env = None -> fs !! sr_SourcePath request = Some content ->
  uploaded request content (AurenUpload request fs log).1 log (AurenUpload request fs log).2.
Proof.
  intros HC Hps Hmax HS Hfs. unfold AurenUpload. destruct (ValidateUploadRequest request); [|by left].
  destruct (CanonicalObjectPath request) as [objectPath|] eqn:EP; [|by left]. unfold Stat. rewrite HS, Hfs.
  set (sum := if _ || _ then _ else _). destruct sum as [checksum|] eqn:ES; [|by left]. subst sum.
  assert (checksum = let given := TrimSpace (sr_ChecksumSHA256 request) in
    if String.eqb given "" || EqualFold (sr_ChecksumAlgorithm request) "sha256" then hex_string (sha256 (bytes_of content)) else given) as HSum.
  { cbv zeta. destruct (_ || _); [|by injection ES].
    unfold sha256File, ReadFile in ES. rewrite Hfs in ES. cbn [mbind result_bind] in ES. destruct (ae_sum env); [done|]. by injection ES. }
  clear ES. set (full := filled request objectPath checksum). change (sr_SourcePath request) with (sr_SourcePath full) in Hfs.
  destruct (_ && _) eqn:EM.
  - pose proof EM as [_ HL%Z.ltb_lt]%andb_true_iff.
    pose proof (multipart_run full content fs log HC Hps Hmax) as HR. destruct (multipartUpload _ _ _ _) as [res log'].
    destruct HR as (ps & sent & H1 & H2 & H3 & H4 & _); [intros ->; change (slen "") with 0 in HL; lia|done|].
    right. exists objectPath, checksum. split_and!; [done|done|]. rewrite EM. by exists ps, sent.
  - pose proof (direct_run full content fs log HC Hfs) as HR. destruct (directUpload _ _ _ _) as [res log'].
    right. exists objectPath, checksum. split_and!; [done|done|]. rewrite EM. destruct HR as [HR|HR]; [by right|by left].
Qed.


(** ** Where requests go *)
Lemma append_assoc a b c : a +:+ b +:+ c = (a +:+ b) +:+ c.
Proof. apply chars_inj. by rewrite !chars_app, app_assoc. Qed.

Definition auth_value : string :=
  if EqualFold (au_tokenHeader adapter) "Authorization" && negb (HasPrefix (ToLower (au_apiKey adapter)) "bearer ")
  then "Bearer " +:+ au_apiKey adapter else au_apiKey adapter.

(** A request inside one bucket of the configured endpoint, with the credentials. *)
Definition authorized (bucket : string) (r : AurenRequest) : Prop :=
  HasPrefix (aq_URL r) (au_endpoint adapter +:+ "/api/v1/buckets/" +:+ PathEscape bucket +:+ "/") = true /\
  (au_apiKey adapter <> "" -> header_get (au_tokenHeader adapter) (aq_Header r) = auth_value).
Definition stays (bucket : string) (log log' : list AurenRequest) : Prop :=
  exists sent, log' = log ++ sent /\ Forall (authorized bucket) sent.

Lemma stays_refl bucket log : stays bucket log log.
Proof. exists []. by rewrite app_nil_r. Qed.
Lemma stays_trans bucket a b c : stays bucket a b -> stays bucket b c -> stays bucket a c.
Proof.
  intros (s1 & -> & H1) (s2 & -> & H2). exists (s1 ++ s2). rewrite app_assoc. split; [done|]. by apply Forall_app.
Qed.

Lemma send_stays bucket method rest header body log :
  stays bucket log (send method (au_endpoint adapter +:+ "/api/v1/buckets/" +:+ PathEscape bucket +:+ "/" +:+ rest) header body log).2.
Proof.
  unfold send. destruct (ae_check env _); [apply stays_refl|]. eexists. split; [done|]. repeat constructor.
  - cbn [aq_URL]. rewrite !append_assoc. apply HasPrefix_app.
  - cbn [aq_Header]. intros Hk. unfold applyAuth, header_get, header_set, auth_value.
    rewrite (proj2 (String.eqb_neq _ _) Hk). by rewrite lookup_insert_eq.
Qed.

Lemma json_stays bucket method rest payload log :
  stays bucket log (auren_doJSON method (au_endpoint adapter +:+ "/api/v1/buckets/" +:+ PathEscape bucket +:+ "/" +:+ rest) payload log).2.
Proof. unfold auren_doJSON. pose proof (send_stays bucket method rest json_headers (JSON payload) log). by destruct (send _ _ _ _ _) as [[]]. Qed.

(** The URLs of the operations, below their bucket. *)
Lemma operation_urls bucket uploadID number :
  objectURL bucket = au_endpoint adapter +:+ "/api/v1/buckets/" +:+ PathEscape bucket +:+ "/" +:+ "objects" /\
  multipartURL bucket = au_endpoint adapter +:+ "/api/v1/buckets/" +:+ PathEscape bucket +:+ "/" +:+ "multipart-uploads" /\
  multipartPartURL bucket uploadID number = au_endpoint adapter +:+ "/api/v1/buckets/" +:+ PathEscape bucket +:+ "/" +:+
    "multipart-uploads/" +:+ PathEscape uploadID +:+ "/parts/" +:+ Itoa number /\
  multipartCompleteURL bucket uploadID = au_endpoint adapter +:+ "/api/v1/buckets/" +:+ PathEscape bucket +:+ "/" +:+
    "multipart-uploads/" +:+ PathEscape uploadID +:+ "/complete" /\
  multipartAbortURL bucket uploadID = au_endpoint adapter +:+ "/api/v1/buckets/" +:+ PathEscape bucket +:+ "/" +:+
    "multipart-uploads/" +:+ PathEscape uploadID +:+ "/abort".
Proof.
  unfold multipartPartURL, multipartCompleteURL, multipartAbortURL, multipartURL, objectURL, bucketURL.
  split_and!; apply chars_inj; rewrite !chars_app, <- !app_assoc; reflexivity.
Qed.

Lemma part_loop_stays fuel request uploadID content size : forall number offset parts log,
  stays (bucketID request) log (part_loop fuel request uploadID content size number offset parts log).2.
Proof.
  induction fuel as [|fuel IH]; intros number offset parts log; cbn [part_loop]; (destruct (_ || _); [|apply stays_refl]);
    [apply stays_refl|].
  set (len := if size =? 0 then 0 else _).
  assert (stays (bucketID request) log (uploadPart request uploadID number content offset len size log).2) as HU.
  { unfold uploadPart. destruct (ae_part env number); [apply stays_refl|].
    destruct (operation_urls (bucketID request) uploadID number) as (_ & _ & -> & _).
    match goal with |- context [send ?m (_ +:+ _ +:+ _ +:+ _ +:+ ?rest) ?h ?b log] =>
      pose proof (send_stays (bucketID request) m rest h b log) as HS; destruct (send m _ h b log) as [[response|] log1] end;
      [|exact HS]. cbn [snd] in HS. by destruct (readJSONResponse response). }
  destruct (uploadPart _ _ _ _ _ _ _ _) as [[part|] log1]; [|exact HU]. cbn [snd] in HU.
  destruct (size =? 0); [exact HU|]. eapply stays_trans; [exact HU|]. apply IH.
Qed.

Lemma multipart_stays request size fs log : stays (bucketID request) log (multipartUpload request size fs log).2.
Proof.
  unfold multipartUpload, initiateMultipart.
  destruct (operation_urls (bucketID request) "" 0) as (_ & HM & _). rewrite HM.
  pose proof (json_stays (bucketID request) "POST" "multipart-uploads" (initiate_payload request size) log) as HI.
  destruct (auren_doJSON _ _ _ _) as [[response|] log1]; [|exact HI]. cbn [snd] in HI.
  set (uploadID := firstStringRecursive response upload_id_keys).
  destruct (operation_urls (bucketID request) uploadID 0) as (_ & _ & _ & HCo & HA).
  assert (forall reason l, stays (bucketID request) l (abortMultipart request uploadID reason l)) as Hab.
  { intros reason l. unfold abortMultipart. rewrite HA. apply json_stays. }
  destruct (String.eqb uploadID ""); [exact HI|]. destruct (_ <? 0); [exact HI|].
  destruct (ReadFile _ _ _) as [content|]; [|eapply stays_trans; [exact HI|apply Hab]].
  match goal with |- context [part_loop ?f _ _ _ _ _ _ _ _] =>
    pose proof (part_loop_stays f request uploadID content size 1 0 [] log1) as HP;
    destruct (part_loop f _ _ _ _ _ _ _ _) as [[parts|] log2] end;
    cbn [snd] in HP; pose proof (stays_trans _ _ _ _ HI HP) as HIP; [|eapply stays_trans; [exact HIP|apply Hab]].
  unfold completeMultipart. rewrite HCo.
  match goal with |- context [send ?m (_ +:+ _ +:+ _ +:+ _ +:+ ?rest) ?h ?b log2] =>
    pose proof (send_stays (bucketID request) m rest h b log2) as HS; destruct (send m _ h b log2) as [[answer|] log3] end;
    cbn [snd] in HS; pose proof (stays_trans _ _ _ _ HIP HS) as HIS; [|eapply stays_trans; [exact HIS|apply Hab]].
  destruct (parseObjectResponse _ _ _ _ _); [exact HIS|]. eapply stays_trans; [exact HIS|apply Hab].
Qed.

End Answers.

(** ** Examples and findings *)
Definition sample_auren : AurenAdapter :=
  mkAurenAdapter "https://s.example" "media" "" "" "Authorization" "key-1" true 4.
Definition sample_upload_request : UploadRequest :=
  mkUploadRequest "/d/movie.ts" "movies/movie.ts" "" "" "" "" "private" "video/mp2t" "sha256" "abc" ∅.
Definition sample_answers (text : string) : result object :=
  if String.eqb text "named" then Ok [("data", AMap [("upload_id", AString "u-1")])] else Ok [].
(** A service that names the upload and accepts everything. *)
Definition sample_service : auren_env :=
  mkAurenEnv None None None (fun _ => None) (fun _ => None) None
    (fun log _ => Ok (mkAurenResponse 200 ∅ (match log with [] => "named" | _ => "" end) None)).


(** An object in the answer that carries an identifier of its own beside the upload
    identifier: which of them becomes the upload identifier depends on the order in which
    the map is traversed, which Go leaves open. *)
Theorem upload_id_depends_on_order :
  firstStringRecursive (fun _ => "") [("upload_id", AString "u-1"); ("id", AString "row-7")] upload_id_keys = "u-1" /\
  firstStringRecursive (fun _ => "") [("id", AString "row-7"); ("upload_id", AString "u-1")] upload_id_keys = "row-7".
Proof. split; vm_compute; reflexivity. Qed.

(** A job that names its bucket is stored in the default bucket when that is configured by
    its UUID: [Upload] fills in the UUID first, and [bucketID] prefers it. *)
Theorem job_bucket_overridden :
  let adapter := mkAurenAdapter "https://s.example" "" "default-bucket" "" "Authorization" "" false 4 in
  let request := mkUploadRequest "/d/m" "m" "" "movies" "" "" "" "" "" "" ∅ in
  bucketID adapter request = "movies" /\ bucketID adapter (filled adapter request "m" "") = "default-bucket".
Proof. split; vm_compute; reflexivity. Qed.

(** A line break in an object path, which the path rules permit, ends the header of the file
    part of the form and starts another. *)
Theorem line_break_reaches_form :
  let path := "a" +:+ str ["013"%char; "010"%char] +:+ "X-Injected: 1" in
  NormalizeObjectPath path = Ok path /\ ContainsAny (file_disposition path) newline_chars = true.
Proof. split; vm_compute; reflexivity. Qed.

(** A service that refuses an upload before it has read the form: the transport closes the pipe,
    and the upload ends with the error of the pipe; the answer of the service is not looked at. *)
Definition ErrClosedPipe : error := Sentinel "io: read/write on closed pipe".
Theorem early_refusal_is_hidden decode :
  let service := mkAurenEnv None None None (fun _ => None) (fun _ => None) (Some (CopyFault 3 ErrClosedPipe))
                   (fun _ _ => Ok (mkAurenResponse 413 ∅ "object too large" None)) in
  let adapter := mkAurenAdapter "https://s.example" "media" "" "" "Authorization" "key-1" false 4 in
  (AurenUpload (fun _ => "") decode adapter service sample_upload_request {["/d/movie.ts" := "0123456789"]} []).1 = Err ErrClosedPipe.
Proof. vm_compute. reflexivity. Qed.
