(* ===== verification/S3.v ===== *)
(** * The S3 adapter: internal/storage/s3.go

    One signed PUT per upload.  The service is a function from the request to its answer; what
    the HTTP client makes of a redirect, requests without a body to other addresses, is another
    one ([client_Do]).  Clock readings and faults of system calls are arguments.
    The progress callback, whose result is ignored, is left out.  [aws_accepts] is what the
    service checks (Signature Version 4, as documented by AWS), from what it receives. *)
From S2P Require Import Prelude GoStrings GoUrl GoUrlEscape GoUrlText GoPath GoCrypto GoTime GoFS Ranges Upload Storage Download.

Definition S3AdapterName : string := "s3".
Definition s3Service : string := "s3".
Record S3Options := mkS3Options {
  so_Endpoint : string; so_Bucket : string; so_Region : string; so_AccessKeyID : string; so_SecretAccessKey : string;
  so_SessionToken : string; so_ForcePathStyle : bool
}.
Record S3Adapter := mkS3Adapter {
  s3_endpoint : string; s3_bucket : string; s3_region : string; s3_accessKeyID : string; s3_secretAccessKey : string;
  s3_sessionToken : string; s3_forcePathStyle : bool
}.

Definition NewS3Adapter (options : S3Options) : result S3Adapter :=
  let region := TrimSpace (so_Region options) in
  let region := if String.eqb region "" then "us-east-1" else region in
  let endpoint := TrimRightChar "/" (TrimSpace (so_Endpoint options)) in
  let endpoint := if String.eqb endpoint "" then "https://s3." +:+ region +:+ ".amazonaws.com" else endpoint in
  let not_absolute := Err (Errorf "s3 endpoint must be an absolute URL") in
  match full_Parse endpoint with
  | Err _ => not_absolute
  | Ok parsed =>
    if negb (nonempty (u_Scheme parsed)) || negb (nonempty (u_Host parsed)) then not_absolute
    else if String.eqb (TrimSpace (so_Bucket options)) "" then Err (Errorf "s3 bucket is required")
    else if String.eqb (TrimSpace (so_AccessKeyID options)) "" then Err (Errorf "s3 access_key_id is required")
    else if String.eqb (TrimSpace (so_SecretAccessKey options)) "" then Err (Errorf "s3 secret_access_key is required")
    else Ok (mkS3Adapter endpoint (TrimSpace (so_Bucket options)) region (TrimSpace (so_AccessKeyID options))
               (TrimSpace (so_SecretAccessKey options)) (TrimSpace (so_SessionToken options)) (so_ForcePathStyle options))
  end.
Definition S3Configured (bucket accessKeyID secretAccessKey : string) : bool :=
  negb (String.eqb (TrimSpace bucket) "") && negb (String.eqb (TrimSpace accessKeyID) "")
  && negb (String.eqb (TrimSpace secretAccessKey) "").

(** ** Addresses *)
Definition escapePath (value : string) : string := Join (map PathEscape (Split value slash)) "/".
Definition nil_pointer : error := Errorf "runtime error: invalid memory address or nil pointer dereference".
(** The path is assigned already escaped; the fields of the parsed endpoint stay. *)
Definition s3_objectURL (adapter : S3Adapter) (objectPath : string) : result string :=
  match full_Parse (s3_endpoint adapter) with
  | Err _ => Err nil_pointer
  | Ok parsed =>
    let key := Clean (TrimLeftChar slash objectPath) in
    let base := TrimRightChar slash (str (u_Path parsed)) in
    let host := str (u_Host parsed) in
    if s3_forcePathStyle adapter || Contains host ":" || HasPrefix host "localhost" || HasPrefix host "127." then
      Ok (URL_String (with_path (u_Host parsed) (chars (base +:+ "/" +:+ PathEscape (s3_bucket adapter) +:+ "/" +:+ escapePath key))
                        (u_RawPath parsed) parsed))
    else
      Ok (URL_String (with_path (chars (s3_bucket adapter +:+ "." +:+ host)) (chars (base +:+ "/" +:+ escapePath key))
                        (u_RawPath parsed) parsed))
  end.

(** ** Signing *)
Record S3Request := mkS3Request {
  s3q_Method : string; s3q_URL : FullURL; s3q_Host : string; s3q_Header : HeaderSet; s3q_Body : string; s3q_ContentLength : Z
}.
(** [http.NewRequest]: the address is parsed; an empty port is dropped from the host. *)
Definition removeEmptyPort (host : list ascii) : string :=
  match LastIndexByte host ":" with
  | None => str host
  | Some i =>
    let has_port := match LastIndexByte host "]" with Some j => (j <? i)%nat | None => true end in
    if has_port then TrimSuffix (str host) ":" else str host
  end.

Definition clock_text (t : Time) : string * string :=
  let secs := t / second in
  let '(y, m, d) := civil (secs / 86400) in
  let tod := secs `mod` 86400 in
  (str (pad 4 y ++ pad 2 m ++ pad 2 d), str (pad 2 (tod / 3600) ++ pad 2 (tod `mod` 3600 / 60) ++ pad 2 (tod `mod` 60))).

Definition hmacSHA256 (key : list Z) (data : string) : list Z := hmac_sha256 key (bytes_of data).
Definition hexSHA256 (data : string) : string := hex_string (sha256 (bytes_of data)).
Definition awsSigningKey (secret date region service : string) : list Z :=
  let kDate := hmacSHA256 (bytes_of ("AWS4" +:+ secret)) date in
  let kRegion := hmacSHA256 kDate region in
  let kService := hmacSHA256 kRegion service in
  hmacSHA256 kService "aws4_request".

(** The map of lower-case names; [sorted] are its keys in order. *)
Definition header_values (headers : HeaderSet) (host : string) : gmap string string :=
  foldl (fun values kv => <[ToLower kv.1 := kv.2]> values) {["host" := host]} (map_to_list headers).
Definition header_line (name value : string) : string := name +:+ ":" +:+ TrimSpace value +:+ newline.
Definition header_lines (value : string -> string) (names : list string) : string :=
  foldr (fun name text => header_line name (value name) +:+ text) "" names.
Definition canonicalHeaders (headers : HeaderSet) (host : string) : string * string :=
  let values := header_values headers host in
  let keys := sort_Strings (map_to_list values).*1 in
  (Join keys ";", header_lines (fun k => default "" (values !! k)) keys).

Definition canonicalQuery (q : Values) : string :=
  let keys := sort_Strings (map_to_list q).*1 in
  Join (mbind (fun k => map (fun v => QueryEscape k +:+ "=" +:+ QueryEscape v) (sort_Strings (default [] (q !! k)))) keys) "&".

Definition string_to_sign (amzDate scope canonicalRequest : string) : string :=
  Join ["AWS4-HMAC-SHA256"; amzDate; scope; hexSHA256 canonicalRequest] newline.
Definition authorization (accessKeyID scope signedHeaders signature : string) : string :=
  "AWS4-HMAC-SHA256 Credential=" +:+ accessKeyID +:+ "/" +:+ scope +:+ ", SignedHeaders=" +:+ signedHeaders +:+
  ", Signature=" +:+ signature.
Definition credential_scope (date region : string) : string := date +:+ "/" +:+ region +:+ "/" +:+ s3Service +:+ "/aws4_request".
Definition with_header (name value : string) (q : S3Request) : S3Request :=
  mkS3Request (s3q_Method q) (s3q_URL q) (s3q_Host q) (header_set name value (s3q_Header q)) (s3q_Body q) (s3q_ContentLength q).
(** The date and the session token are set first. *)
Definition dated (adapter : S3Adapter) (amzDate : string) (req : S3Request) : S3Request :=
  let req := with_header "X-Amz-Date" amzDate req in
  if String.eqb (s3_sessionToken adapter) "" then req
  else with_header "X-Amz-Security-Token" (s3_sessionToken adapter) req.
Definition canonical_uri (url : FullURL) : string :=
  let canonicalURI := str (EscapedPath (u_Path url) (u_RawPath url)) in
  if String.eqb canonicalURI "" then "/" else canonicalURI.
Definition canonical_request (req : S3Request) (payloadHash : string) : string :=
  Join [s3q_Method req; canonical_uri (s3q_URL req); canonicalQuery (Query (s3q_URL req));
        (canonicalHeaders (s3q_Header req) (s3q_Host req)).2; (canonicalHeaders (s3q_Header req) (s3q_Host req)).1; payloadHash] newline.
Definition signature (secret date region amzDate canonicalRequest : string) : string :=
  hex_string (hmacSHA256 (awsSigningKey secret date region s3Service)
    (string_to_sign amzDate (credential_scope date region) canonicalRequest)).
Definition sign (adapter : S3Adapter) (payloadHash : string) (now : Time) (req : S3Request) : S3Request :=
  let '(date, time) := clock_text now in
  let amzDate := date +:+ "T" +:+ (time +:+ "Z") in
  let req := dated adapter amzDate req in
  with_header "Authorization"
    (authorization (s3_accessKeyID adapter) (credential_scope date (s3_region adapter))
       (canonicalHeaders (s3q_Header req) (s3q_Host req)).1
       (signature (s3_secretAccessKey adapter) date (s3_region adapter) amzDate (canonical_request req payloadHash))) req.

(** ** Upload *)
Record S3Response := mkS3Response { s3p_Status : Z; s3p_Header : HeaderSet; s3p_Body : string }.
Record s3_env := mkS3Env {
  s3e_stat : option stat_result; s3e_open : option error; s3e_sum : option error; s3e_now : Time;
  s3e_trip : S3Request -> result S3Response; s3e_follow : S3Response -> result S3Response
}.
(** [http.Client.Do] of a PUT whose body cannot be read again: on 301, 302 and 303 with a
    location the client goes on with GET requests without a body, and the answer to the last
    one is what the caller gets; 307 and 308 are not followed. *)
Definition redirected (resp : S3Response) : bool :=
  bool_decide (s3p_Status resp ∈ [301; 302; 303]) && negb (String.eqb (header_get "Location" (s3p_Header resp)) "").
Definition client_Do (env : s3_env) (q : S3Request) : result S3Response :=
  resp ← s3e_trip env q; if redirected resp then s3e_follow env resp else Ok resp.
Definition meta_header (h : HeaderSet) (kv : string * string) : HeaderSet :=
  if String.eqb (TrimSpace kv.1) "" then h else header_set ("X-Amz-Meta-" +:+ ToLower (TrimSpace kv.1)) kv.2 h.
Definition put_headers (request : UploadRequest) (mimeType checksum : string) : HeaderSet :=
  let h := header_set "Content-Type" mimeType ∅ in
  let h := header_set "X-Amz-Content-Sha256" checksum h in
  let h := if negb (String.eqb (sr_Visibility request) "") && negb (String.eqb (sr_Visibility request) "private")
           then header_set "X-Amz-Acl" (sr_Visibility request) h else h in
  foldl meta_header h (map_to_list (sr_Metadata request)).
Definition s3_answer_limit : Z := 65536.

(** The answer and the request that was sent, if one was. *)
Definition S3Upload (adapter : S3Adapter) (env : s3_env) (request : UploadRequest) (fs : FS)
  : result UploadResult * option S3Request :=
  let stop {A} (r : result A) (k : A -> result UploadResult * option S3Request) := match r with Err e => (Err e, None) | Ok a => k a end in
  stop (ValidateUploadRequest request) (fun _ =>
  stop (CanonicalObjectPath request) (fun objectPath =>
  match Stat (s3e_stat env) (sr_SourcePath request) fs with
  | StatMissing => (Err (path_error "stat" (sr_SourcePath request) os_ErrNotExist), None)
  | StatError e => (Err e, None)
  | StatDir => (Err (Errorf "storage source path must be a file"), None)
  | StatFile size =>
    stop (ReadFile (s3e_open env) (sr_SourcePath request) fs) (fun content =>
    let given := TrimSpace (sr_ChecksumSHA256 request) in
    stop (if String.eqb given "" then match s3e_sum env with Some e => Err e | None => Ok (hexSHA256 content) end else Ok given)
      (fun checksum =>
    let mimeType := firstNonEmpty [sr_MimeType request; "application/octet-stream"] in
    stop (s3_objectURL adapter objectPath) (fun target =>
    stop (full_Parse target) (fun url =>
    let host := removeEmptyPort (u_Host url) in
    let url := with_path (chars host) (u_Path url) (u_RawPath url) url in
    let q := mkS3Request "PUT" url host (put_headers request mimeType checksum) content size in
    let q := sign adapter checksum (s3e_now env) q in
    match client_Do env q with
    | Err e => (Err e, Some q)
    | Ok resp =>
      if (s3p_Status resp <? 200) || (300 <=? s3p_Status resp) then
        let body := if slen (s3p_Body resp) <=? s3_answer_limit then s3p_Body resp
                    else str (take (Z.to_nat s3_answer_limit) (chars (s3p_Body resp))) in
        (Err (Errorf ("s3 upload returned HTTP " +:+ Itoa (s3p_Status resp) +:+ ": " +:+ TrimSpace body)), Some q)
      else
        let etag := TrimChar "034" (header_get "ETag" (s3p_Header resp)) in
        (Ok (mkUploadResult S3AdapterName DriverS3 "" (s3_bucket adapter) etag objectPath target size checksum
               (firstNonEmpty [sr_Visibility request; "private"]) mimeType false [] (sr_Metadata request)), Some q)
    end))))
  end)).

(** ** What the service checks *)
(** AWS escapes everything but letters, digits, [-_.~] and, in a path, the slash; inner
    spaces of a header value count as one. *)
Definition aws_keep (c : ascii) : bool := unreserved c || Ascii.eqb c "/".
Definition aws_uri (url : FullURL) : string :=
  let text := str (escape aws_keep (u_Path url)) in if String.eqb text "" then "/" else text.
Definition aws_encode (s : string) : string := str (escape unreserved (chars s)).
Definition aws_query (url : FullURL) : string :=
  let q := Query url in
  Join (mbind (fun k => map (fun v => aws_encode k +:+ "=" +:+ aws_encode v) (sort_Strings (default [] (q !! k))))
          (sort_Strings (map_to_list q).*1)) "&".
Fixpoint one_space (l : list ascii) : list ascii :=
  match l with
  | c :: r => if Ascii.eqb c " " && match r with d :: _ => Ascii.eqb d " " | [] => false end then one_space r else c :: one_space r
  | [] => []
  end.
(** Header names are compared without regard to case. *)
Definition received (q : S3Request) (name : string) : string :=
  if String.eqb name "host" then s3q_Host q
  else default "" (snd <$> find (fun kv => String.eqb (ToLower kv.1) name) (map_to_list (s3q_Header q))).
Definition aws_value (q : S3Request) (name : string) : string := str (one_space (chars (TrimSpace (received q name)))).
Definition aws_lines (q : S3Request) (names : list string) : string :=
  foldr (fun name text => name +:+ ":" +:+ aws_value q name +:+ newline +:+ text) "" names.
Definition aws_signature (secret region date : string) (names : list string) (q : S3Request) : string :=
  let request := Join [s3q_Method q; aws_uri (s3q_URL q); aws_query (s3q_URL q); aws_lines q names; Join names ";";
                       header_get "X-Amz-Content-Sha256" (s3q_Header q)] newline in
  signature secret date region (header_get "X-Amz-Date" (s3q_Header q)) request.
Definition aws_accepts (accessKeyID secret region : string) (q : S3Request) : Prop :=
  exists date time names,
    header_get "X-Amz-Date" (s3q_Header q) = date +:+ "T" +:+ time /\
    "host" ∈ names /\ (forall k v, s3q_Header q !! k = Some v -> k <> "Authorization" -> ToLower k ∈ names) /\
    header_get "Authorization" (s3q_Header q) =
      authorization accessKeyID (credential_scope date region) (Join names ";") (aws_signature secret region date names q).

(** ** Header names *)
Definition fixed_names : list string := ["Content-Type"; "X-Amz-Content-Sha256"; "X-Amz-Acl"; "X-Amz-Date"; "X-Amz-Security-Token"].
Definition own_name (a : string) : Prop := a ∈ fixed_names \/ exists t, a = "X-Amz-Meta-" +:+ ToLower t.
Definition own_headers (h : HeaderSet) : Prop := forall k v, h !! k = Some v -> exists a, k = CanonicalMIMEHeaderKey a /\ own_name a.

Lemma canonical_go_lower b l : canonical_go b l = canonical_go b (map lower_char l).
Proof.
  assert (forall c, Ascii.eqb (upper_char (lower_char c)) (upper_char c) && Bool.eqb (Ascii.eqb (lower_char c) "-") (Ascii.eqb c "-") = true) as H.
  { intros c. apply (char_forall (fun c => Ascii.eqb (upper_char (lower_char c)) (upper_char c) && Bool.eqb (Ascii.eqb (lower_char c) "-") (Ascii.eqb c "-"))).
    vm_compute. reflexivity. }
  revert b. induction l as [|c l IH]; intros b; [done|]. cbn [canonical_go map].
  specialize (H c). apply andb_true_iff in H as [->%Ascii.eqb_eq ->%Bool.eqb_prop]. by rewrite lower_char_idemp, IH.
Qed.
Lemma canonical_go_lowered b l : map lower_char (canonical_go b l) = map lower_char l.
Proof.
  assert (forall c, Ascii.eqb (lower_char (upper_char c)) (lower_char c) = true) as H.
  { intros c. apply (char_forall (fun c => Ascii.eqb (lower_char (upper_char c)) (lower_char c))). vm_compute. reflexivity. }
  revert b. induction l as [|c l IH]; intros b; [done|]. cbn [canonical_go map]. rewrite IH. f_equal.
  destruct b; [by apply Ascii.eqb_eq|apply lower_char_idemp].
Qed.
Lemma valid_lower l : forallb validHeaderFieldByte (map lower_char l) = forallb validHeaderFieldByte l.
Proof.
  assert (forall c, Bool.eqb (validHeaderFieldByte (lower_char c)) (validHeaderFieldByte c) = true) as H.
  { intros c. apply (char_forall (fun c => Bool.eqb (validHeaderFieldByte (lower_char c)) (validHeaderFieldByte c))). vm_compute. reflexivity. }
  induction l as [|c l IH]; [done|]. cbn [map forallb]. by rewrite IH, (Bool.eqb_prop _ _ (H c)).
Qed.
Lemma canonical_lower_eq a : ToLower (CanonicalMIMEHeaderKey a) = ToLower a.
Proof.
  unfold CanonicalMIMEHeaderKey, ToLower. destruct (forallb _ _); [|done]. by rewrite chars_str, canonical_go_lowered.
Qed.
Lemma canonical_same a b : forallb validHeaderFieldByte (chars a) = true -> ToLower a = ToLower b ->
  CanonicalMIMEHeaderKey a = CanonicalMIMEHeaderKey b.
Proof.
  intros Ha H. apply (f_equal chars) in H. unfold ToLower in H. rewrite !chars_str in H.
  unfold CanonicalMIMEHeaderKey. rewrite <- (valid_lower (chars b)), <- H, valid_lower, Ha.
  by rewrite (canonical_go_lower true (chars a)), (canonical_go_lower true (chars b)), H.
Qed.
Lemma ToLower_app a b : ToLower (a +:+ b) = ToLower a +:+ ToLower b.
Proof. apply chars_inj. unfold ToLower. rewrite !chars_app, !chars_str. by rewrite map_app. Qed.
Lemma string_app_inj a b c : a +:+ b = a +:+ c -> b = c.
Proof. intros H. apply (f_equal chars) in H. rewrite !chars_app in H. apply app_inv_head in H. by apply chars_inj. Qed.

Lemma own_name_inj a b : own_name a -> own_name b -> ToLower a = ToLower b -> CanonicalMIMEHeaderKey a = CanonicalMIMEHeaderKey b.
Proof.
  intros Ha Hb H. destruct (forallb validHeaderFieldByte (chars a)) eqn:E; [by apply canonical_same|].
  destruct Ha as [Ha|[t ->]].
  { exfalso. assert (forallb (fun n => forallb validHeaderFieldByte (chars n)) fixed_names = true) as HF by (vm_compute; reflexivity).
    rewrite forallb_forall in HF. rewrite HF in E; [done|]. by apply list_elem_of_In. }
  destruct Hb as [Hb|[t' ->]].
  { exfalso. assert (forallb (fun n => forallb validHeaderFieldByte (chars n)) fixed_names = true) as HF by (vm_compute; reflexivity).
    rewrite forallb_forall in HF. apply list_elem_of_In, HF in Hb. rewrite <- valid_lower in Hb.
    apply (f_equal chars) in H. unfold ToLower at 1 3 in H. rewrite !chars_str in H. rewrite <- H, valid_lower in Hb. congruence. }
  rewrite !ToLower_app, !ToLower_idemp in H. apply string_app_inj in H. by rewrite H.
Qed.

Lemma own_headers_set name value h : own_name name -> own_headers h -> own_headers (header_set name value h).
Proof.
  intros Hn H k v. unfold header_set. rewrite lookup_insert_Some. intros [[<- _]|[_ E]]; [by exists name|by apply (H k v)].
Qed.
Lemma own_headers_distinct h k k' v v' : own_headers h -> h !! k = Some v -> h !! k' = Some v' -> ToLower k = ToLower k' -> k = k'.
Proof.
  intros H E E'. destruct (H k v E) as (a & -> & Ha), (H k' v' E') as (b & -> & Hb). rewrite !canonical_lower_eq. by apply own_name_inj.
Qed.
Lemma own_name_other a s : own_name a -> ~ HasPrefix s "x-amz-" = true -> s <> "content-type" -> ToLower a <> s.
Proof.
  intros [Ha|[t ->]] Hp Hs <-.
  - assert (forallb (fun n => HasPrefix (ToLower n) "x-amz-" || String.eqb (ToLower n) "content-type") fixed_names = true) as HF by (vm_compute; reflexivity).
    rewrite forallb_forall in HF. apply list_elem_of_In, HF in Ha. apply orb_true_iff in Ha as [Ha|Ha%String.eqb_eq]; [done|congruence].
  - apply Hp. rewrite ToLower_app. change (HasPrefix ("x-amz-" +:+ ("meta-" +:+ ToLower (ToLower t))) "x-amz-" = true). apply HasPrefix_app.
Qed.

(** ** The signed headers are the received ones *)
Lemma header_values_other h host name : (forall k v, h !! k = Some v -> ToLower k <> name) ->
  header_values h host !! name = ({["host" := host]} : gmap string string) !! name.
Proof.
  intros H. unfold header_values. assert (forall k v, (k, v) ∈ map_to_list h -> ToLower k <> name) as HL.
  { intros k v E%elem_of_map_to_list. by apply (H k v). }
  revert HL. generalize ({["host" := host]} : gmap string string). induction (map_to_list h) as [|[k v] l IH]; intros m HL; [done|].
  cbn [foldl fst snd]. rewrite IH by (intros ? ? ?; eapply HL; by right). apply lookup_insert_ne. apply (HL k v). left.
Qed.
Lemma header_values_own h host k v : own_headers h -> h !! k = Some v -> header_values h host !! ToLower k = Some v.
Proof.
  intros HO E. unfold header_values. assert (forall k' v', (k', v') ∈ map_to_list h -> ToLower k' = ToLower k -> v' = v) as HL.
  { intros k' v' E'%elem_of_map_to_list H. assert (k' = k) as -> by (by eapply own_headers_distinct). congruence. }
  assert ((k, v) ∈ map_to_list h) as HI by (by apply elem_of_map_to_list).
  revert HL HI. generalize ({["host" := host]} : gmap string string). induction (map_to_list h) as [|[k' v'] l IH] using rev_ind; intros m HL HI.
  - by apply not_elem_of_nil in HI.
  - rewrite foldl_snoc. cbn [fst snd]. destruct (decide (ToLower k' = ToLower k)) as [H|H].
    + rewrite H, lookup_insert_eq. f_equal. eapply HL; [|done]. apply elem_of_app. right. by apply list_elem_of_singleton.
    + rewrite lookup_insert_ne by done. apply IH.
      * intros k1 v1 H1. apply HL. apply elem_of_app. by left.
      * apply elem_of_app in HI as [HI|HI%list_elem_of_singleton]; [done|]. congruence.
Qed.

(** The request before the signature is added. *)
Lemma received_own q auth k v : own_headers (s3q_Header q) -> s3q_Header q !! k = Some v ->
  received (with_header "Authorization" auth q) (ToLower k) = v.
Proof.
  intros HO E. unfold received. destruct (HO k v E) as (a & Ek & Ha).
  assert (ToLower k <> "host") as Hh by (rewrite Ek, canonical_lower_eq; apply own_name_other; [done|by vm_compute|done]).
  assert (ToLower k <> "authorization") as Hau by (rewrite Ek, canonical_lower_eq; apply own_name_other; [done|by vm_compute|done]).
  rewrite (proj2 (String.eqb_neq _ _) Hh). cbn [with_header s3q_Header]. unfold header_set.
  change (CanonicalMIMEHeaderKey "Authorization") with "Authorization".
  set (h := <["Authorization" := auth]> (s3q_Header q)).
  assert (forall k' v', (k', v') ∈ map_to_list h -> ToLower k' = ToLower k -> v' = v) as HL.
  { intros k' v' [[<- <-]|[Hne E']]%elem_of_map_to_list%lookup_insert_Some H.
    - by change (ToLower "Authorization") with "authorization" in H.
    - assert (k' = k) as -> by (by eapply own_headers_distinct). congruence. }
  assert ((k, v) ∈ map_to_list h) as HI.
  { apply elem_of_map_to_list. subst h. rewrite lookup_insert_ne; [done|]. intros <-. by change (ToLower "Authorization") with "authorization" in Hau. }
  destruct (find _ _) as [[k' v']|] eqn:EF.
  - apply find_some in EF as [HF He%String.eqb_eq]. cbn. by apply (HL k' v'); [apply list_elem_of_In|].
  - exfalso. eapply find_none in EF; [|by apply list_elem_of_In]. cbn [fst] in EF. by rewrite String.eqb_refl in EF.
Qed.

Lemma header_lines_ext f g names : (forall n, n ∈ names -> TrimSpace (f n) = g n) ->
  header_lines f names = foldr (fun name text => name +:+ ":" +:+ g name +:+ newline +:+ text) "" names.
Proof.
  induction names as [|n names IH]; intros H; [done|]. unfold header_lines in *. cbn [foldr]. rewrite IH by (intros; apply H; by right).
  unfold header_line. rewrite H by left. apply chars_inj. by rewrite !chars_app, <- !app_assoc.
Qed.

(** A value in which no two spaces follow each other is taken as it is. *)
Lemma one_space_id l : (forall i, l !! i = Some " "%char -> l !! S i = Some " "%char -> False) -> one_space l = l.
Proof.
  induction l as [|c l IH]; intros H; [done|]. cbn [one_space]. rewrite IH by (intros i; apply (H (S i))).
  destruct (Ascii.eqb_spec c " ") as [->|]; [|done]. destruct l as [|d l]; [done|]. destruct (Ascii.eqb_spec d " ") as [->|]; [|done].
  by destruct (H O).
Qed.

(** Header values and paths for which AWS and the adapter agree on the canonical form. *)
Definition single_spaced (s : string) : bool := bool_decide (one_space (chars (TrimSpace s)) = chars (TrimSpace s)).
Definition plain_values (q : S3Request) : Prop :=
  single_spaced (s3q_Host q) = true /\ forall k v, s3q_Header q !! k = Some v -> k <> "Authorization" -> single_spaced v = true.
Definition plain_address (url : FullURL) : Prop :=
  u_RawQuery url = [] /\ u_RawPath url = [] /\ u_Path url <> chars "*" /\ Forall (fun c => one_of "$&+,:;=@" c = false) (u_Path url).

Lemma plain_address_uri url : plain_address url ->
  str (EscapedPath (u_Path url) (u_RawPath url)) = str (escape aws_keep (u_Path url)) /\ canonicalQuery (Query url) = "" /\ aws_query url = "".
Proof.
  intros (HQ & HR & HS & HF). assert (Query url = ∅) as HE by (unfold Query; by rewrite HQ). split_and!.
  - rewrite HR, EscapedPath_default by done. f_equal. unfold escape. clear HS. induction HF as [|c l Hc HF IH]; [done|].
    cbn [flat_map]. rewrite IH. f_equal. unfold escape_char. replace (aws_keep c) with (keep_path c); [done|].
    apply (Bool.eqb_prop (keep_path c) (aws_keep c)).
    pose proof (char_forall (fun c => one_of "$&+,:;=@" c || Bool.eqb (keep_path c) (aws_keep c)) ltac:(vm_compute; reflexivity) c) as H.
    cbn beta in H. by rewrite Hc in H.
  - by rewrite HE.
  - unfold aws_query. by rewrite HE.
Qed.

Lemma header_get_own name h auth : CanonicalMIMEHeaderKey name <> "Authorization" ->
  header_get name (header_set "Authorization" auth h) = header_get name h.
Proof. intros H. unfold header_get, header_set. by rewrite lookup_insert_ne. Qed.
(** The names that are signed: the host and the headers the request has. *)
Lemma signed_names h host n : own_headers h -> n ∈ sort_Strings (map_to_list (header_values h host)).*1 ->
  (n = "host" /\ header_values h host !! n = Some host) \/
  exists k v, h !! k = Some v /\ n = ToLower k /\ header_values h host !! n = Some v.
Proof.
  intros HO. rewrite sort_Strings_perm, list_elem_of_fmap. intros ([n' v] & -> & E%elem_of_map_to_list). cbn [fst].
  destruct (existsb (fun kv => String.eqb (ToLower kv.1) n') (map_to_list h)) eqn:EX.
  - right. apply existsb_exists in EX as ([k w] & HI & He%String.eqb_eq). cbn [fst] in He.
    apply list_elem_of_In, elem_of_map_to_list in HI. exists k, w. rewrite <- He. split_and!; [done|done|by apply header_values_own].
  - left. rewrite header_values_other in *.
    + apply lookup_singleton_Some in E as [<- <-]. by rewrite lookup_singleton_eq.
    + intros k w HI He. apply not_true_iff_false in EX. apply EX, existsb_exists. exists (k, w).
      rewrite <- list_elem_of_In, elem_of_map_to_list. split; [done|]. by apply String.eqb_eq.
    + intros k w HI He. apply not_true_iff_false in EX. apply EX, existsb_exists. exists (k, w).
      rewrite <- list_elem_of_In, elem_of_map_to_list. split; [done|]. by apply String.eqb_eq.
Qed.
Lemma host_signed h host : own_headers h -> "host" ∈ sort_Strings (map_to_list (header_values h host)).*1.
Proof.
  intros HO. rewrite sort_Strings_perm, list_elem_of_fmap. exists ("host", host). split; [done|]. apply elem_of_map_to_list.
  rewrite header_values_other; [by rewrite lookup_singleton_eq|]. intros k v E. destruct (HO k v E) as (a & -> & Ha).
  rewrite canonical_lower_eq. apply own_name_other; [done|by vm_compute|done].
Qed.
Lemma own_signed h host k v : own_headers h -> h !! k = Some v -> ToLower k ∈ sort_Strings (map_to_list (header_values h host)).*1.
Proof.
  intros HO E. rewrite sort_Strings_perm, list_elem_of_fmap. exists (ToLower k, v). split; [done|]. apply elem_of_map_to_list.
  by apply header_values_own.
Qed.

(** The lines the service computes are the ones that were signed. *)
Lemma lines_agree q auth : own_headers (s3q_Header q) -> plain_values (with_header "Authorization" auth q) ->
  let values := header_values (s3q_Header q) (s3q_Host q) in
  let names := sort_Strings (map_to_list values).*1 in
  header_lines (fun k => default "" (values !! k)) names = aws_lines (with_header "Authorization" auth q) names.
Proof.
  intros HO [HH HV]. cbv zeta. apply header_lines_ext. intros n Hn. apply chars_inj. unfold aws_value. rewrite chars_str.
  destruct (signed_names _ _ _ HO Hn) as [[-> E]|(k & v & Ek & -> & E)]; rewrite E; cbn [default from_option id].
  - apply bool_decide_eq_true in HH. symmetry. exact HH.
  - rewrite received_own with (v := v) by done. assert (k <> "Authorization") as Hk.
    { destruct (HO k v Ek) as (a & -> & Ha). intros H. apply (f_equal ToLower) in H. rewrite canonical_lower_eq in H.
      revert H. apply own_name_other; [done|by vm_compute|done]. }
    assert (single_spaced v = true) as HS.
    { apply (HV k v); [|done]. cbn [with_header s3q_Header]. unfold header_set. change (CanonicalMIMEHeaderKey "Authorization") with "Authorization".
      by rewrite lookup_insert_ne. }
    apply bool_decide_eq_true in HS. by symmetry.
Qed.

(** A signed request is accepted. *)
Lemma dated_own adapter amzDate q : own_headers (s3q_Header q) -> own_headers (s3q_Header (dated adapter amzDate q)).
Proof.
  intros H. unfold dated.
  assert (forall n, n ∈ fixed_names -> own_name n) as HF by (intros; by left).
  destruct (String.eqb _ ""); cbn [with_header s3q_Header]; repeat apply own_headers_set; try done; apply HF, list_elem_of_In; cbn; tauto.
Qed.
Lemma dated_fields adapter amzDate q : let d := dated adapter amzDate q in
  header_get "X-Amz-Date" (s3q_Header d) = amzDate /\
  header_get "X-Amz-Content-Sha256" (s3q_Header d) = header_get "X-Amz-Content-Sha256" (s3q_Header q) /\
  s3q_URL d = s3q_URL q /\ s3q_Method d = s3q_Method q /\ s3q_Body d = s3q_Body q /\ s3q_ContentLength d = s3q_ContentLength q /\
  s3q_Host d = s3q_Host q.
Proof.
  unfold dated. destruct (String.eqb _ ""); cbv zeta; cbn [with_header s3q_Header s3q_URL s3q_Host s3q_Method s3q_Body s3q_ContentLength].
  - rewrite header_get_set, header_get_set_ne by by vm_compute. done.
  - rewrite (header_get_set_ne "X-Amz-Date" "X-Amz-Security-Token") by by vm_compute.
    rewrite !(header_get_set_ne "X-Amz-Content-Sha256") by by vm_compute. by rewrite header_get_set.
Qed.

Lemma sign_accepted adapter payloadHash now q : own_headers (s3q_Header q) ->
  header_get "X-Amz-Content-Sha256" (s3q_Header q) = payloadHash ->
  plain_address (s3q_URL q) -> plain_values (sign adapter payloadHash now q) ->
  aws_accepts (s3_accessKeyID adapter) (s3_secretAccessKey adapter) (s3_region adapter) (sign adapter payloadHash now q).
Proof.
  intros HO HP HA. unfold sign. destruct (clock_text now) as [date time]. set (amzDate := date +:+ "T" +:+ (time +:+ "Z")).
  pose proof (dated_own adapter amzDate q HO) as HD. destruct (dated_fields adapter amzDate q) as (HX & HS & HU & _). rewrite HP in HS.
  set (d := dated adapter amzDate q) in *. clearbody d.
  set (names := sort_Strings (map_to_list (header_values (s3q_Header d) (s3q_Host d))).*1).
  change (canonicalHeaders (s3q_Header d) (s3q_Host d)).1 with (Join names ";").
  set (auth := authorization _ _ _ _). intros HV. destruct (plain_address_uri _ HA) as (E1 & E2 & E3).
  exists date, (time +:+ "Z"), names. split_and!.
  - cbn [with_header s3q_Header]. rewrite header_get_own by by vm_compute. exact HX.
  - by apply host_signed.
  - intros k v. cbn [with_header s3q_Header]. unfold header_set. change (CanonicalMIMEHeaderKey "Authorization") with "Authorization".
    intros [[<- _]|[_ Ek]]%lookup_insert_Some Hk; [done|]. by eapply own_signed.
  - cbn [with_header s3q_Header]. rewrite header_get_set. unfold auth at 1. apply (f_equal (authorization _ _ _)).
    unfold aws_signature, canonical_request.
    cbn [with_header s3q_Header s3q_Method s3q_URL]. rewrite !header_get_own by by vm_compute. rewrite HX, HS, HU. apply (f_equal (signature _ _ _ _)).
    change (canonicalHeaders (s3q_Header d) (s3q_Host d)) with
      (Join names ";", header_lines (fun k => default "" (header_values (s3q_Header d) (s3q_Host d) !! k)) names). cbn [fst snd].
    pose proof (lines_agree d auth HD HV) as HL. cbv zeta in HL. fold names in HL. rewrite HL.
    unfold aws_uri, canonical_uri. rewrite E1, E2, E3. reflexivity.
Qed.

(** ** One upload *)
Lemma meta_name_other t name : HasPrefix (ToLower name) "x-amz-meta-" = false ->
  CanonicalMIMEHeaderKey ("X-Amz-Meta-" +:+ t) <> CanonicalMIMEHeaderKey name.
Proof.
  intros HP H. apply (f_equal ToLower) in H. rewrite !canonical_lower_eq, ToLower_app in H. rewrite <- H in HP.
  change (ToLower "X-Amz-Meta-") with "x-amz-meta-" in HP. by rewrite HasPrefix_app in HP.
Qed.
Lemma metas_own l h : own_headers h -> own_headers (foldl meta_header h l).
Proof.
  revert h. induction l as [|kv l IH]; intros h H; [done|]. cbn [foldl]. apply IH. unfold meta_header.
  destruct (String.eqb _ ""); [done|]. apply own_headers_set; [right; by eexists|done].
Qed.
Lemma metas_keep name l h : HasPrefix (ToLower name) "x-amz-meta-" = false -> header_get name (foldl meta_header h l) = header_get name h.
Proof.
  intros HP. revert h. induction l as [|kv l IH]; intros h; [done|]. cbn [foldl]. rewrite IH. unfold meta_header.
  destruct (String.eqb _ ""); [done|]. apply header_get_set_ne. by apply meta_name_other.
Qed.
Lemma put_headers_own request mimeType checksum : own_headers (put_headers request mimeType checksum).
Proof.
  unfold put_headers. apply metas_own. assert (forall n, n ∈ fixed_names -> own_name n) as HF by (intros; by left).
  assert (own_headers ∅) as H0 by (intros k v; by rewrite lookup_empty).
  destruct (_ && _); repeat apply own_headers_set; try done; apply HF, list_elem_of_In; cbn; tauto.
Qed.
Lemma put_headers_sum request mimeType checksum :
  header_get "X-Amz-Content-Sha256" (put_headers request mimeType checksum) = checksum.
Proof.
  unfold put_headers. rewrite metas_keep by (by vm_compute). destruct (_ && _).
  - rewrite header_get_set_ne by by vm_compute. apply header_get_set.
  - apply header_get_set.
Qed.
Lemma sign_keeps adapter payloadHash now q : let s := sign adapter payloadHash now q in
  s3q_Method s = s3q_Method q /\ s3q_URL s = s3q_URL q /\ s3q_Body s = s3q_Body q /\ s3q_ContentLength s = s3q_ContentLength q /\
  header_get "X-Amz-Content-Sha256" (s3q_Header s) = header_get "X-Amz-Content-Sha256" (s3q_Header q) /\ s3q_Host s = s3q_Host q.
Proof.
  cbv zeta. unfold sign. destruct (clock_text now) as [date time]. set (amzDate := _ +:+ _).
  destruct (dated_fields adapter amzDate q) as (_ & H1 & H2 & H3 & H4 & H5 & H6).
  set (auth := authorization _ _ _ _). clearbody auth. cbn [with_header s3q_Method s3q_URL s3q_Host s3q_Body s3q_ContentLength s3q_Header].
  rewrite header_get_own by by vm_compute. split_and!; assumption.
Qed.

(** ** The address of an object *)

(** An endpoint that is a scheme and a host, and a bucket and a key that need no escaping. *)
Definition plain_endpoint (adapter : S3Adapter) (scheme host : string) : Prop :=
  full_Parse (s3_endpoint adapter) = Ok (mkFullURL (chars scheme) [] None (chars host) [] [] false false [] [] []) /\
  scheme <> "" /\ host <> "" /\ Forall (fun c => keep_host c = true) (chars host).
Definition plain_name (s : string) : Prop := Forall (fun c => unreserved c = true) (chars s).
Definition plain_key (key : string) : Prop :=
  Clean key = key /\ HasPrefix key "/" = false /\ Forall (fun c => unreserved c = true \/ c = slash) (chars key).
Definition path_style (adapter : S3Adapter) (host : string) : bool :=
  s3_forcePathStyle adapter || Contains host ":" || HasPrefix host "localhost" || HasPrefix host "127.".
Definition plain_target (adapter : S3Adapter) (scheme host key : string) : string :=
  if path_style adapter host then scheme +:+ "://" +:+ host +:+ "/" +:+ s3_bucket adapter +:+ "/" +:+ key
  else scheme +:+ "://" +:+ s3_bucket adapter +:+ "." +:+ host +:+ "/" +:+ key.

Lemma unreserved_kept c : unreserved c = true ->
  keep_segment c = true /\ keep_path c = true /\ keep_host c = true.
Proof.
  intros H. assert (negb (unreserved c) || keep_segment c && keep_path c && keep_host c = true) as E.
  { apply (char_forall (fun c => negb (unreserved c) || keep_segment c && keep_path c && keep_host c)). vm_compute. reflexivity. }
  rewrite H in E. cbn [negb orb] in E. by apply andb_true_iff in E as [[? ?]%andb_true_iff ?].
Qed.
Lemma Join_pieces (ls : list (list ascii)) : chars (Join (map str ls) "/") = join_chars slash ls.
Proof.
  induction ls as [|l [|k ls] IH]; [done|apply chars_str|].
  change (chars (Join (map str (l :: k :: ls)) "/")) with (chars (str l +:+ "/" +:+ Join (map str (k :: ls)) "/")).
  by rewrite !chars_app, chars_str, IH.
Qed.
Lemma in_join c l (ls : list (list ascii)) : l ∈ ls -> c ∈ l -> c ∈ join_chars slash ls.
Proof.
  intros Hl Hc. induction ls as [|k [|k' ls] IH]; [by apply not_elem_of_nil in Hl|apply list_elem_of_singleton in Hl as ->; done|].
  cbn [join_chars]. apply elem_of_app. apply elem_of_cons in Hl as [->|Hl]; [by left|]. right. apply elem_of_cons. right. by apply IH.
Qed.
Lemma nonempty_cons a (l : list ascii) : nonempty (a :: l) = true.
Proof. reflexivity. Qed.
Lemma PathEscape_plain s : plain_name s -> PathEscape s = s.
Proof.
  intros H. unfold PathEscape. rewrite escape_id; [apply str_chars|]. eapply Forall_impl; [exact H|]. intros c Hc. by apply unreserved_kept.
Qed.
Lemma escapePath_plain key : Forall (fun c => unreserved c = true \/ c = slash) (chars key) -> escapePath key = key.
Proof.
  intros H. unfold escapePath. replace (map PathEscape (Split key slash)) with (Split key slash).
  - apply chars_inj. unfold Split. by rewrite Join_pieces, join_split.
  - symmetry. rewrite <- (map_id (Split key slash)) at 2. apply map_ext_in. intros part Hp%list_elem_of_In. apply PathEscape_plain.
    unfold Split in Hp. apply list_elem_of_fmap in Hp as (l & -> & Hl). unfold plain_name. rewrite chars_str.
    pose proof (split_chars_no_sep slash (chars key)) as HN. rewrite Forall_forall in HN. specialize (HN l Hl).
    apply Forall_forall. intros c Hc. rewrite Forall_forall in H. destruct (H c) as [| ->]; [|done|done].
    rewrite <- (join_split slash (chars key)). by eapply in_join.
Qed.

(** The address then is the plain concatenation. *)
Lemma plain_objectURL adapter scheme host key : plain_endpoint adapter scheme host -> plain_name (s3_bucket adapter) -> plain_key key ->
  s3_objectURL adapter key = Ok (plain_target adapter scheme host key).
Proof.
  intros (HP & HS & HH & HK) HB (HC & HR & HF). unfold s3_objectURL. rewrite HP. cbn [u_Path u_Host u_RawPath].
  rewrite TrimLeftChar_relative, HC, escapePath_plain, PathEscape_plain by done. rewrite str_chars.
  fold (path_style adapter host). unfold plain_target. change (TrimRightChar slash (str [])) with "".
  assert (forall h p, h <> "" -> Forall (fun c => keep_host c = true) (chars h) -> Forall (fun c => keep_path c = true) (chars p) ->
    URL_String (with_path (chars h) (chars ("/" +:+ p)) [] (mkFullURL (chars scheme) [] None (chars host) [] [] false false [] [] [])) =
    scheme +:+ "://" +:+ h +:+ "/" +:+ p) as HU.
  { intros h p Hh Fh Fp. unfold URL_String, with_path. cbn [u_User u_Scheme u_Opaque u_Host u_Path u_RawPath u_OmitHost u_ForceQuery u_RawQuery u_Fragment u_RawFragment].
    rewrite EscapedPath_default by (destruct p; discriminate).
    rewrite (escape_id keep_host), (escape_id keep_path); [|by rewrite chars_app; apply Forall_app; split; [repeat constructor|]|done].
    destruct scheme as [|a0 s0]; [done|]. destruct h as [|a1 h0]; [done|]. apply chars_inj. rewrite chars_str.
    change (chars ("/" +:+ p)) with ("/"%char :: chars p). cbn [chars app].
    rewrite !nonempty_cons. cbn [negb orb andb is_prefix app]. rewrite Ascii.eqb_refl. cbn [negb orb andb app].
    rewrite ?app_nil_r, ?nonempty_cons, ?chars_app. cbn [negb andb app]. rewrite ?app_nil_r.
    change (nonempty []) with false. cbn [app]. rewrite ?app_nil_r, <- ?app_assoc. reflexivity. }
  assert (Forall (fun c => keep_path c = true) (chars key)) as Fk.
  { eapply Forall_impl; [exact HF|]. intros c [Hc| ->]; [by apply unreserved_kept|reflexivity]. }
  assert (Forall (fun c => keep_path c = true) (chars (s3_bucket adapter))) as Fb.
  { eapply Forall_impl; [exact HB|]. intros c Hc. by apply unreserved_kept. }
  destruct (path_style adapter host); f_equal.
  - apply (HU host (s3_bucket adapter +:+ "/" +:+ key) HH HK). rewrite !chars_app. apply Forall_app. split; [done|].
    apply Forall_app. split; [repeat constructor|done].
  - etransitivity; [apply (HU (s3_bucket adapter +:+ "." +:+ host) key)|].
    + by destruct (s3_bucket adapter).
    + rewrite !chars_app. apply Forall_app. split; [eapply Forall_impl; [exact HB|]; intros c Hc; by apply unreserved_kept|].
      apply Forall_app. split; [repeat constructor|done].
    + done.
    + apply chars_inj. rewrite !chars_app. by rewrite <- !app_assoc.
Qed.

(** What one upload has sent, and what it says. *)
Definition s3_sent (adapter : S3Adapter) (env : s3_env) (request : UploadRequest) (fs : FS) (res : result UploadResult) (q : S3Request) : Prop :=
  exists objectPath content checksum target url,
    CanonicalObjectPath request = Ok objectPath /\ fs !! sr_SourcePath request = Some content /\
    s3q_Method q = "PUT" /\ s3q_Body q = content /\
    header_get "X-Amz-Content-Sha256" (s3q_Header q) = checksum /\
    checksum = (let given := TrimSpace (sr_ChecksumSHA256 request) in if String.eqb given "" then hexSHA256 content else given) /\
    (s3_objectURL adapter objectPath = Ok target /\ full_Parse target = Ok url /\
     s3q_Host q = removeEmptyPort (u_Host url) /\
     s3q_URL q = with_path (chars (removeEmptyPort (u_Host url))) (u_Path url) (u_RawPath url) url /\
     forall scheme host, plain_endpoint adapter scheme host -> plain_name (s3_bucket adapter) -> plain_key objectPath ->
       target = plain_target adapter scheme host objectPath) /\
    (plain_address (s3q_URL q) -> plain_values q ->
     aws_accepts (s3_accessKeyID adapter) (s3_secretAccessKey adapter) (s3_region adapter) q) /\
    (forall r, res = Ok r -> res_ObjectPath r = objectPath /\ res_Location r = target /\ res_ChecksumSHA256 r = checksum /\
       exists resp, s3e_trip env q = Ok resp /\ (redirected resp = false -> 200 <= s3p_Status resp < 300)).

(** Every upload that ends with a request has sent that one; the others fail. *)
Lemma S3Upload_spec adapter env request fs :
  match S3Upload adapter env request fs with
  | (res, Some q) => s3_sent adapter env request fs res q
  | (res, None) => is_ok res = false
  end.
Proof.
  unfold S3Upload. destruct (ValidateUploadRequest request) as [[]|]; [|done].
  destruct (CanonicalObjectPath request) as [objectPath|] eqn:EP; [|done].
  destruct (Stat _ _ _) as [size| | |]; [|done..]. unfold ReadFile. destruct (s3e_open env); [done|].
  destruct (fs !! sr_SourcePath request) as [content|] eqn:EF; [|done].
  set (sum := if String.eqb _ "" then _ else _). destruct sum as [checksum|] eqn:ES; [|done]. subst sum.
  assert (checksum = let given := TrimSpace (sr_ChecksumSHA256 request) in if String.eqb given "" then hexSHA256 content else given) as HSum.
  { cbv zeta. destruct (String.eqb _ ""); [destruct (s3e_sum env); [done|]|]; by injection ES. }
  clear ES. destruct (s3_objectURL adapter objectPath) as [target|] eqn:ET; [|done]. destruct (full_Parse target) as [url|] eqn:EU; [|done].
  assert (forall scheme host, plain_endpoint adapter scheme host -> plain_name (s3_bucket adapter) -> plain_key objectPath ->
    target = plain_target adapter scheme host objectPath) as HT.
  { intros scheme host H1 H2 H3. rewrite (plain_objectURL _ _ _ _ H1 H2 H3) in ET. by injection ET. }
  set (q0 := mkS3Request _ _ _ _ _ _).
  assert (own_headers (s3q_Header q0)) as HO by apply put_headers_own.
  assert (header_get "X-Amz-Content-Sha256" (s3q_Header q0) = checksum) as HC by apply put_headers_sum.
  destruct (sign_keeps adapter checksum (s3e_now env) q0) as (K1 & K2 & K3 & K4 & K5 & K6).
  pose proof (sign_accepted adapter checksum (s3e_now env) q0 HO HC) as HA. rewrite <- K2 in HA.
  set (q := sign _ _ _ _) in *. clearbody q. rewrite HC in K5.
  assert (forall e, s3_sent adapter env request fs (Err e) q) as HErr.
  { intros e. exists objectPath, content, checksum, target, url. split_and!; try assumption. discriminate. }
  unfold client_Do. destruct (s3e_trip env q) as [resp|e] eqn:ED; cbn [mbind result_bind]; [|apply HErr].
  destruct (if redirected resp then _ else _) as [final|e] eqn:EFi; [|apply HErr].
  destruct ((_ <? 200) || _) eqn:EB; [apply HErr|].
  exists objectPath, content, checksum, target, url. split_and!; try assumption. intros r Hr. injection Hr as <-.
  split_and!; [reflexivity..|]. exists resp. split; [assumption|]. intros HRd. rewrite HRd in EFi. injection EFi as ->.
  apply orb_false_iff in EB as [?%Z.ltb_ge ?%Z.leb_gt]. lia.
Qed.

Lemma S3Upload_sent adapter env request fs r : (S3Upload adapter env request fs).1 = Ok r ->
  exists q, (S3Upload adapter env request fs).2 = Some q /\ s3_sent adapter env request fs (Ok r) q.
Proof.
  pose proof (S3Upload_spec adapter env request fs) as H. destruct (S3Upload _ _ _ _) as [res [q|]]; cbn [fst snd]; intros ->; [by eauto|done].
Qed.

(** C37: what an upload to S3 sends is a PUT with the bytes of the source and their digest to the
    address of the object, which for an endpoint, a bucket and a key without characters to
    escape is endpoint, bucket and key put together; the service recomputes its signature, over
    the host and all other headers, from what it receives, provided the path has none of the
    characters [$&+,:;=@] and the header values no two spaces in a row ([plain_address],
    [plain_values]); success is only reported when the service answered with a status of 2xx or
    redirected the client; and an upload that sends nothing fails. *)
Theorem s3_requests_verify adapter env request fs :
  match S3Upload adapter env request fs with
  | (res, Some q) => s3_sent adapter env request fs res q
  | (res, None) => is_ok res = false
  end.
Proof. apply S3Upload_spec. Qed.

(** An adapter that was built has an address for every object. *)
Lemma built_adapter_addresses options adapter objectPath : NewS3Adapter options = Ok adapter ->
  exists target, s3_objectURL adapter objectPath = Ok target.
Proof.
  unfold NewS3Adapter. set (endpoint := if String.eqb (TrimRightChar _ _) "" then _ else _). clearbody endpoint.
  destruct (full_Parse endpoint) as [parsed|] eqn:EP; [|done]. repeat (destruct (_ || _) || destruct (String.eqb _ ""); [done|]).
  intros H. injection H as <-. unfold s3_objectURL. cbn [s3_endpoint]. rewrite EP. destruct (_ || _); eauto.
Qed.

Definition sample_s3 : S3Adapter := mkS3Adapter "https://s3.us-east-1.amazonaws.com" "media" "us-east-1" "AKID" "secret" "" false.
Definition sample_put : UploadRequest :=
  mkUploadRequest "/src" "films/a.mp4" "" "" "" "" "public-read" "video/mp4" "" "" {["Title" := "One film"]}.
Definition sample_answer : s3_env := mkS3Env None None None (86400 * second) (fun _ => Ok (mkS3Response 200 ∅ "")) (fun _ => Err (Errorf "no redirect expected")).
Definition sample_files : FS := {["/src" := "bytes"]}.
Example sample_address : plain_endpoint sample_s3 "https" "s3.us-east-1.amazonaws.com" /\ plain_key "films/a.mp4" /\
  plain_target sample_s3 "https" "s3.us-east-1.amazonaws.com" "films/a.mp4" = "https://media.s3.us-east-1.amazonaws.com/films/a.mp4".
Proof.
  split; [|split; [|vm_compute; reflexivity]].
  - split_and!; [vm_compute; reflexivity|done|done|]. apply (bool_decide_unpack _). vm_compute. exact I.
  - split_and!; [vm_compute; reflexivity|vm_compute; reflexivity|]. apply (bool_decide_unpack _). vm_compute. exact I.
Qed.
Lemma s3_requests_verify_witness :
  exists q, (S3Upload sample_s3 sample_answer sample_put sample_files).2 = Some q /\ s3q_Body q = "bytes" /\
    str (EscapedPath (u_Path (s3q_URL q)) (u_RawPath (s3q_URL q))) = "/films/a.mp4" /\ aws_accepts "AKID" "secret" "us-east-1" q.
Proof.
  pose proof (s3_requests_verify sample_s3 sample_answer sample_put sample_files) as H.
  destruct (S3Upload sample_s3 sample_answer sample_put sample_files) as [res [q|]] eqn:E.
  2:{ apply (f_equal (fun p => bool_decide (is_Some p.2))) in E. vm_compute in E. discriminate E. }
  destruct H as (o & c & sum & target & url & H1 & H2 & H3 & H4 & H5 & H6 & HTg & H7 & H8). exists q. split; [reflexivity|].
  assert ((fun p => match p.2 with
     | Some q => (s3q_Body q, s3q_URL q, s3q_Host q, map_to_list (delete "Authorization" (s3q_Header q)))
     | None => ("", mkFullURL [] [] None [] [] [] false false [] [] [], "", []) end)
    (S3Upload sample_s3 sample_answer sample_put sample_files) = (s3q_Body q, s3q_URL q, s3q_Host q, map_to_list (delete "Authorization" (s3q_Header q)))) as HQ.
  { rewrite E. reflexivity. }
  match type of HQ with _ = ?t => set (tuple := t) in HQ; assert (tuple = t) as HT by reflexivity; clearbody tuple end.
  vm_compute in HQ. rewrite HT in HQ. clear HT. apply pair_equal_spec in HQ as [HQ HM]. apply pair_equal_spec in HQ as [HQ HH]. apply pair_equal_spec in HQ as [HB HU].
  split; [symmetry; exact HB|]. rewrite <- HU in *. split; [vm_compute; reflexivity|]. apply H7.
  - split_and!; [done|done|done|]. cbn [u_Path]. repeat constructor.
  - split; [rewrite <- HH; vm_compute; reflexivity|]. intros k v Ek Hk.
    assert ((k, v) ∈ map_to_list (delete "Authorization" (s3q_Header q))) as HI.
    { apply elem_of_map_to_list. by rewrite lookup_delete_ne by congruence. }
    assert (Forall (fun kv => single_spaced kv.2 = true) (map_to_list (delete "Authorization" (s3q_Header q)))) as HF.
    { rewrite <- HM. repeat constructor; vm_compute; reflexivity. }
    rewrite Forall_forall in HF. by apply (HF (k, v)).
Defined.

(** The key derivation, on the example of the AWS documentation. *)
Example signing_key_vector :
  hex_string (awsSigningKey "wJalrXUtnFEMI/K7MDENG+bPxRfiCYEXAMPLEKEY" "20120215" "us-east-1" "iam") =
  "f4780e2d9f65fa895f9c67b32ce1baf0b0d8a43505a000a1a9e090d414db404d".
Proof. vm_compute. reflexivity. Qed.

(** ** Where the adapter and the service differ *)
(** The key is escaped before it is assigned to the path, and once more when the address is
    printed: the object is stored under another name. *)
Example key_is_escaped_twice :
  s3_objectURL sample_s3 "films/my film.mp4" = Ok "https://media.s3.us-east-1.amazonaws.com/films/my%2520film.mp4".
Proof. vm_compute. reflexivity. Qed.
(** A redirect of the PUT is followed by a GET without the bytes, and the answer to that one
    decides: an upload that stored nothing is reported as done. *)
Definition moved_answer : s3_env :=
  mkS3Env None None None (86400 * second) (fun _ => Ok (mkS3Response 301 {["Location" := "https://eu.example/"]} ""))
    (fun _ => Ok (mkS3Response 200 ∅ "<ListBucketResult/>")).
Theorem redirected_put_is_success :
  (r ← (S3Upload sample_s3 moved_answer sample_put sample_files).1; Ok (res_BytesWritten r)) = Ok 5.
Proof. vm_compute. reflexivity. Qed.
(** A plus sign stays in the signed path; the service escapes it. *)
Example plus_is_not_escaped :
  match s3_objectURL sample_s3 "a+b" with
  | Ok target => match full_Parse target with Ok url => (canonical_uri url, aws_uri url) | Err _ => ("", "") end
  | Err _ => ("", "")
  end = ("/a+b", "/a%2Bb").
Proof. vm_compute. reflexivity. Qed.
(** Two spaces in a metadata value stay two in the signed text. *)
Example spaces_are_not_joined :
  ((canonicalHeaders {["X-Amz-Meta-T" := "a  b"]} "h").2, aws_lines (mkS3Request "PUT" (mkFullURL [] [] None [] [] [] false false [] [] []) "h"
     {["X-Amz-Meta-T" := "a  b"]} "" 0) ["host"; "x-amz-meta-t"]) =
  ("host:h" +:+ newline +:+ "x-amz-meta-t:a  b" +:+ newline, "host:h" +:+ newline +:+ "x-amz-meta-t:a b" +:+ newline).
Proof. vm_compute. reflexivity. Qed.
