(* ===== verification/Resolver.v ===== *)
(** * Resolvers: internal/resolver

    The registry and the ten resolvers the agent registers.  [Resolver] is the interface of
    the package: a name, the test whether a request is meant for it and the resolution.  The
    HTTP client is a parameter: a function from a checked request to the final response of
    the redirect chain, or an error.  Maps of strings are finite maps. *)
From S2P Require Import Prelude GoStrings GoUrl GoUrlEscape GoUrlText GoPath GoFS Download AurenStorage.

Record ResolveRequest := mkResolveRequest {
  q_URL : string; q_Method : string; q_Headers : list (string * string); q_Metadata : gmap string string
}.
Record ResolveResult := mkResolveResult {
  x_Resolver : string; x_Type : string; x_OriginalURL : string; x_ResolvedURL : string; x_StatusCode : Z;
  x_ContentLength : Z; x_ContentType : string; x_Filename : string; x_Headers : gmap string string; x_Metadata : gmap string string
}.

(** ** The interface and the registry *)
Record Resolver := mkResolver {
  Name : string; CanResolve : ResolveRequest -> bool; Resolve : ResolveRequest -> result ResolveResult
}.
Fixpoint register (items : list (option Resolver)) (seen : gset string) : result (list Resolver) :=
  match items with
  | [] => Ok []
  | None :: _ => Err (Errorf "resolver cannot be nil")
  | Some item :: rest =>
    let name := TrimSpace (Name item) in
    if String.eqb name "" then Err (Errorf "resolver name is required")
    else if bool_decide (name ∈ seen) then Err (Errorf ("resolver " +:+ name +:+ " already registered"))
    else resolvers ← register rest ({[name]} ∪ seen); Ok (item :: resolvers)
  end.
Definition NewRegistry (items : list (option Resolver)) : result (list Resolver) := register items ∅.
Definition RegistryLen (registry : list Resolver) : Z := zlen registry.
Definition Names (registry : list Resolver) : list string := map Name registry.
Fixpoint try_resolvers (registry : list Resolver) (request : ResolveRequest) : result ResolveResult :=
  match registry with
  | [] => Err (Errorf "no resolver available for url")
  | item :: rest => if CanResolve item request then Resolve item request else try_resolvers rest request
  end.
Definition RegistryResolve (registry : list Resolver) (request : ResolveRequest) : result ResolveResult :=
  if String.eqb (TrimSpace (q_URL request)) "" then Err (Errorf "resolver request url is required")
  else try_resolvers registry request.

(** ** Helpers *)
Definition parseHTTPURL (raw : string) : result FullURL :=
  let trimmed := TrimSpace raw in
  if String.eqb trimmed "" then Err (Errorf "url is required") else
  parsed ← full_Parse trimmed;
  if negb (bool_decide (u_Scheme parsed = chars "http")) && negb (bool_decide (u_Scheme parsed = chars "https"))
  then Err (Errorf ("unsupported url scheme " +:+ Quote (str (u_Scheme parsed))))
  else if String.eqb (TrimSpace (str (u_Host parsed))) "" then Err (Errorf "url host is required")
  else Ok parsed.
Definition metadataWith (values : gmap string string) (key value : string) : gmap string string :=
  if String.eqb (TrimSpace value) "" then values else <[key := value]> values.
Definition maskSecret (value : string) : string :=
  let trimmed := TrimSpace value in
  if String.eqb trimmed "" then "" else
  if slen trimmed <=? 4 then "****" else
  str (take 2 (chars trimmed)) +:+ "..." +:+ str (drop (length (chars trimmed) - 2) (chars trimmed)).
Definition meta (request : ResolveRequest) (key : string) : string := default "" (q_Metadata request !! key).
Definition resolverRequested (request : ResolveRequest) (name : string) : bool :=
  let wanted := ToLower (TrimSpace (meta request "resolver")) in
  let wanted := if String.eqb wanted "" then ToLower (TrimSpace (meta request "engine")) else wanted in
  String.eqb wanted (ToLower (TrimSpace name)).
Definition truthyMetadata (request : ResolveRequest) (key : string) : bool :=
  existsb (String.eqb (ToLower (TrimSpace (meta request key)))) ["1"; "true"; "yes"; "on"].
Definition bool_text (b : bool) : string := if b then "true" else "false".

(** [path.Ext]. *)
Fixpoint ext_go (l acc : list ascii) : list ascii :=
  match l with
  | [] => []
  | c :: r => if Ascii.eqb c slash then [] else if Ascii.eqb c "." then c :: acc else ext_go r (c :: acc)
  end.
Definition Ext (path : string) : string := str (ext_go (reverse (chars path)) []).

(** [strings.Trim] with a cutset. *)
Fixpoint drop_set (set : string) (l : list ascii) : list ascii :=
  match l with c :: r => if one_of set c then drop_set set r else l | [] => [] end.
Definition TrimSet (set : string) (s : string) : string := str (reverse (drop_set set (reverse (drop_set set (chars s))))).

Definition splitPath (rawPath : string) : list string :=
  List.filter (fun piece => negb (String.eqb piece "")) (map TrimSpace (Split (TrimChar slash rawPath) slash)).
Definition path_of (u : FullURL) : string := str (u_Path u).

(** ** xtream.go *)
Record xtreamPathInfo := mkXtream { xt_Route : string; xt_MediaType : string; xt_Username : string; xt_Password : string;
  xt_ItemID : string; xt_Extension : string }.
Definition xtream_media (route : string) : option string :=
  if String.eqb route "live" then Some "live"
  else if String.eqb route "movie" || String.eqb route "vod" then Some "vod"
  else if String.eqb route "series" then Some "series" else None.
Definition parseXtreamPath (rawPath : string) : option xtreamPathInfo :=
  match Split (TrimChar slash rawPath) slash with
  | first :: username :: password :: (_ :: _) as parts =>
    let route := ToLower (TrimSpace first) in
    match xtream_media route with
    | None => None
    | Some mediaType =>
      let item := TrimSpace (default "" (last parts)) in
      Some (mkXtream route mediaType username password (TrimSuffix item (Ext item)) (TrimPrefix (Ext item) "."))
    end
  | _ => None
  end.
Definition is_player_api (u : FullURL) : bool :=
  String.eqb (ToLower (Base (path_of u))) "player_api.php" && negb (String.eqb (Values_Get "username" (Query u)) "")
  && negb (String.eqb (Values_Get "password" (Query u)) "").
Definition plain_result (name type : string) (u : FullURL) (resolved : string) (metadata : gmap string string) : ResolveResult :=
  mkResolveResult name type (URL_String u) resolved 0 0 "" "" ∅ metadata.
Definition xtream_path_metadata (base : gmap string string) (info : xtreamPathInfo) : gmap string string :=
  <["extension" := xt_Extension info]> (<["item_id" := xt_ItemID info]> (<["credential_mode" := "path"]>
  (<["password_present" := "true"]> (<["username_masked" := maskSecret (xt_Username info)]>
  (<["media_type" := xt_MediaType info]> (<["route" := xt_Route info]> (<["engine" := "xtream"]> base))))))).
Definition xtream_query_metadata (base : gmap string string) (query : Values) : gmap string string :=
  let action := TrimSpace (Values_Get "action" query) in
  <["action" := action]> (<["credential_mode" := "query"]> (<["password_present" := "true"]>
  (<["username_masked" := maskSecret (Values_Get "username" query)]> (<["media_type" := action]>
  (<["route" := "player_api"]> (<["engine" := "xtream"]> base)))))).
Definition XtreamResolver : Resolver := mkResolver "xtream"
  (fun request => match parseHTTPURL (q_URL request) with
    | Err _ => false
    | Ok u => match parseXtreamPath (path_of u) with Some _ => true | None => is_player_api u end
    end)
  (fun request =>
    u ← parseHTTPURL (q_URL request);
    match parseXtreamPath (path_of u) with
    | Some info => Ok (plain_result "xtream" "xtream" u (URL_String u) (xtream_path_metadata (q_Metadata request) info))
    | None =>
      if is_player_api u then Ok (plain_result "xtream" "xtream" u (URL_String u) (xtream_query_metadata (q_Metadata request) (Query u)))
      else Err (Errorf "url is not an xtream endpoint")
    end).

(** ** shui.go *)
Definition firstPathSegment (rawPath : string) : string := default "" (head (splitPath rawPath)).
Definition is_shui (u : FullURL) : bool :=
  negb (String.eqb (Values_Get "api_key" (Query u)) "") ||
  negb (String.eqb (firstPathSegment (path_of u)) "") && negb (String.eqb (Values_Get "action" (Query u)) "").
Definition shui_metadata (base : gmap string string) (u : FullURL) : gmap string string :=
  let key := Values_Get "api_key" (Query u) in
  let m := <["api_key_present" := bool_text (negb (String.eqb key ""))]> (<["action" := TrimSpace (Values_Get "action" (Query u))]>
           (<["access_code" := firstPathSegment (path_of u)]> (<["engine" := "shui"]> base))) in
  let m := if String.eqb key "" then m else <["api_key_masked" := maskSecret key]> m in
  <["credential_mode" := "query"]> m.
Definition ShuiResolver : Resolver := mkResolver "shui"
  (fun request => match parseHTTPURL (q_URL request) with Err _ => false | Ok u => is_shui u end)
  (fun request =>
    u ← parseHTTPURL (q_URL request);
    if negb (is_shui u) then Err (Errorf "url is not a shui endpoint")
    else Ok (plain_result "shui" "shui" u (URL_String u) (shui_metadata (q_Metadata request) u))).

(** ** cloud_storage.go *)
Definition host_text (host : string) : string := ToLower (TrimSpace host).
Definition isGoogleDriveHost (host : string) : bool :=
  let host := host_text host in
  String.eqb host "drive.google.com" || String.eqb host "docs.google.com" || HasSuffix host ".googleusercontent.com".
Definition isMEGAHost (host : string) : bool :=
  let host := host_text host in
  String.eqb host "mega.nz" || String.eqb host "mega.co.nz" || String.eqb host "mega.io" || HasSuffix host ".mega.nz" || HasSuffix host ".mega.co.nz".
Definition isOneDriveHost (host : string) : bool :=
  let host := host_text host in
  String.eqb host "1drv.ms" || HasSuffix host ".1drv.ms" || String.eqb host "onedrive.live.com" || HasSuffix host ".sharepoint.com"
  || Contains host "-my.sharepoint.com".

Record googleDriveInfo := mkDrive { gd_ID : string; gd_Kind : string; gd_Route : string; gd_DownloadURL : string }.
Definition googleDriveKind (rawPath : string) : string := if Contains (ToLower rawPath) "/folders/" then "folder" else "file".
Definition googleDriveDownloadURL (id : string) : string :=
  "https://drive.google.com/uc?" +:+ str (Values_Encode (Values_Set "id" id (Values_Set "export" "download" ∅))).
(** The loop over the path, with the part before. *)
Fixpoint drive_parts (before : string) (first : bool) (parts : list string) : option googleDriveInfo :=
  match parts with
  | [] => None
  | part :: rest =>
    let lower := ToLower part in
    if String.eqb lower "d" && negb first && EqualFold before "file" && negb (bool_decide (rest = [])) then
      let id := default "" (head rest) in Some (mkDrive id "file" "file/d" (googleDriveDownloadURL id))
    else if String.eqb lower "folders" && negb (bool_decide (rest = [])) then
      Some (mkDrive (default "" (head rest)) "folder" "folders" "")
    else drive_parts part false rest
  end.
Definition drive_route (u : FullURL) : string := TrimChar slash (Clean (path_of u)).
Definition parseGoogleDriveURL (u : FullURL) : googleDriveInfo :=
  let id := TrimSpace (Values_Get "id" (Query u)) in
  if negb (String.eqb id "") then mkDrive id (googleDriveKind (path_of u)) (drive_route u) (googleDriveDownloadURL id) else
  match drive_parts "" true (splitPath (path_of u)) with
  | Some info => info
  | None => mkDrive "" (googleDriveKind (path_of u)) (drive_route u) ""
  end.
Definition GoogleDriveResolver : Resolver := mkResolver "google_drive"
  (fun request => match parseHTTPURL (q_URL request) with
    | Err _ => false
    | Ok u => isGoogleDriveHost (Hostname u) &&
              (negb (String.eqb (gd_ID (parseGoogleDriveURL u)) "") || resolverRequested request "google_drive")
    end)
  (fun request =>
    u ← parseHTTPURL (q_URL request);
    if negb (isGoogleDriveHost (Hostname u)) then Err (Errorf "url is not a google drive endpoint") else
    let info := parseGoogleDriveURL u in
    if String.eqb (gd_ID info) "" then Err (Errorf "google drive file id is required") else
    let derived := negb (String.eqb (gd_DownloadURL info) "") in
    Ok (plain_result "google_drive" "google_drive" u (if derived then gd_DownloadURL info else URL_String u)
      (<["download_url_derived" := bool_text derived]> (<["route" := gd_Route info]> (<["resource_kind" := gd_Kind info]>
      (<["file_id" := gd_ID info]> (<["provider" := "google_drive"]> (<["engine" := "google_drive"]> (q_Metadata request))))))))).

Record megaInfo := mkMega { mg_Kind : string; mg_Handle : string; mg_Key : string }.
Definition megaFragmentKey (fragment : string) : string :=
  let trimmed := TrimLeftChar "!" (TrimSpace fragment) in
  if String.eqb trimmed "" then "" else
  if Contains trimmed "!" then default "" (last (Split trimmed "!")) else trimmed.
Definition parseMEGAURL (u : FullURL) : megaInfo :=
  let fragment := TrimSpace (str (u_Fragment u)) in
  let old :=
    match Split (TrimLeftChar "!" fragment) "!" with
    | first :: second :: more =>
      if String.eqb first "" then mkMega "unknown" "" "" else
      match more with
      | third :: _ => if EqualFold first "F" then mkMega "folder" second third else mkMega "file" first second
      | [] => mkMega "file" first second
      end
    | _ => mkMega "unknown" "" ""
    end in
  match splitPath (path_of u) with
  | kind :: handle :: _ =>
    let kind := ToLower kind in
    if String.eqb kind "file" || String.eqb kind "folder" || String.eqb kind "embed"
    then mkMega (if String.eqb kind "embed" then "file" else kind) handle (megaFragmentKey fragment) else old
  | _ => old
  end.
Definition MEGAResolver : Resolver := mkResolver "mega"
  (fun request => match parseHTTPURL (q_URL request) with
    | Err _ => false
    | Ok u => isMEGAHost (Hostname u) && (negb (String.eqb (mg_Handle (parseMEGAURL u)) "") || resolverRequested request "mega")
    end)
  (fun request =>
    u ← parseHTTPURL (q_URL request);
    if negb (isMEGAHost (Hostname u)) then Err (Errorf "url is not a mega endpoint") else
    let info := parseMEGAURL u in
    if String.eqb (mg_Handle info) "" then Err (Errorf "mega handle is required") else
    let present := negb (String.eqb (mg_Key info) "") in
    let m := <["key_present" := bool_text present]> (<["public_link" := "true"]> (<["handle" := mg_Handle info]>
             (<["node_type" := mg_Kind info]> (<["provider" := "mega"]> (<["engine" := "mega"]> (q_Metadata request)))))) in
    Ok (plain_result "mega" "mega" u (URL_String u) (if present then <["key_masked" := maskSecret (mg_Key info)]> m else m))).

Record oneDriveInfo := mkOneDrive { od_Provider : string; od_Route : string; od_SharePath : string; od_ResID : string;
  od_ItemID : string; od_CID : string; od_AuthKey : string; od_ShortLink : bool; od_DownloadURL : string }.
Definition oneDriveDownloadURL (resid authkey : string) : string :=
  let values := Values_Set "resid" resid ∅ in
  let values := if String.eqb authkey "" then values else Values_Set "authkey" authkey values in
  "https://onedrive.live.com/download?" +:+ str (Values_Encode values).
Definition parseOneDriveURL (u : FullURL) : oneDriveInfo :=
  let get key := TrimSpace (Values_Get key (Query u)) in
  let host := ToLower (Hostname u) in
  let route := TrimChar slash (Clean (path_of u)) in
  mkOneDrive (if Contains host "sharepoint.com" then "sharepoint" else "onedrive") (if String.eqb route "." then "" else route)
    (str (EscapedPath (u_Path u) (u_RawPath u))) (get "resid") (get "id") (get "cid") (get "authkey")
    (EqualFold host "1drv.ms" || HasSuffix host ".1drv.ms")
    (if String.eqb (get "resid") "" then "" else oneDriveDownloadURL (get "resid") (get "authkey")).
Definition set_if (key value : string) (m : gmap string string) : gmap string string := if String.eqb value "" then m else <[key := value]> m.
Definition OneDriveResolver : Resolver := mkResolver "onedrive"
  (fun request => match parseHTTPURL (q_URL request) with Err _ => false | Ok u => isOneDriveHost (Hostname u) end)
  (fun request =>
    u ← parseHTTPURL (q_URL request);
    if negb (isOneDriveHost (Hostname u)) then Err (Errorf "url is not a onedrive endpoint") else
    let info := parseOneDriveURL u in
    let m := <["authkey_present" := bool_text (negb (String.eqb (od_AuthKey info) ""))]> (<["short_link" := bool_text (od_ShortLink info)]>
             (<["share_path" := od_SharePath info]> (<["route" := od_Route info]> (<["provider" := od_Provider info]>
             (<["engine" := "onedrive"]> (q_Metadata request)))))) in
    let m := set_if "cid" (od_CID info) (set_if "item_id" (od_ItemID info) (set_if "resid" (od_ResID info) m)) in
    let m := if String.eqb (od_AuthKey info) "" then m else <["authkey_masked" := maskSecret (od_AuthKey info)]> m in
    Ok (plain_result "onedrive" "onedrive" u (if String.eqb (od_DownloadURL info) "" then URL_String u else od_DownloadURL info) m)).

(** ** m3u8.go: playlists *)
Definition DefaultManifestReadLimit : Z := 2 * 1024 * 1024.
Definition scan_limit : Z := 1024 * 1024.
Definition ErrTooLong : error := Sentinel "bufio.Scanner: token too long".
Record M3U8Manifest := mkManifest { mf_IsM3U8 : bool; mf_IsHLS : bool; mf_VariantCount : Z; mf_SegmentCount : Z; mf_KeyCount : Z;
  mf_TargetDuration : string; mf_MediaSequence : string; mf_PlaylistType : string; mf_FirstURI : string; mf_IndependentSegments : bool }.
Definition empty_manifest : M3U8Manifest := mkManifest false false 0 0 0 "" "" "" "" false.
Definition tag_value (tag line : string) : string := TrimSpace (TrimPrefix line tag).
(** One line that is neither blank nor the first tag. *)
Definition manifest_line (m : M3U8Manifest) (line : string) : M3U8Manifest :=
  let '(mkManifest is_m3u8 hls v s k td ms pt uri ind) := m in
  let hls := hls || HasPrefix line "#EXT-X-" in
  if HasPrefix line "#EXT-X-STREAM-INF" then mkManifest is_m3u8 hls (v + 1) s k td ms pt uri ind
  else if HasPrefix line "#EXTINF" then mkManifest is_m3u8 hls v (s + 1) k td ms pt uri ind
  else if HasPrefix line "#EXT-X-KEY" then mkManifest is_m3u8 hls v s (k + 1) td ms pt uri ind
  else if HasPrefix line "#EXT-X-TARGETDURATION:" then mkManifest is_m3u8 hls v s k (tag_value "#EXT-X-TARGETDURATION:" line) ms pt uri ind
  else if HasPrefix line "#EXT-X-MEDIA-SEQUENCE:" then mkManifest is_m3u8 hls v s k td (tag_value "#EXT-X-MEDIA-SEQUENCE:" line) pt uri ind
  else if HasPrefix line "#EXT-X-PLAYLIST-TYPE:" then mkManifest is_m3u8 hls v s k td ms (tag_value "#EXT-X-PLAYLIST-TYPE:" line) uri ind
  else if String.eqb line "#EXT-X-INDEPENDENT-SEGMENTS" then mkManifest is_m3u8 hls v s k td ms pt uri true
  else if negb (HasPrefix line "#") && String.eqb uri "" then mkManifest is_m3u8 hls v s k td ms pt line ind
  else mkManifest is_m3u8 hls v s k td ms pt uri ind.
Definition set_m3u8 (m : M3U8Manifest) : M3U8Manifest :=
  mkManifest true (mf_IsHLS m) (mf_VariantCount m) (mf_SegmentCount m) (mf_KeyCount m) (mf_TargetDuration m) (mf_MediaSequence m)
    (mf_PlaylistType m) (mf_FirstURI m) (mf_IndependentSegments m).
(** The loop of the scanner; a line that does not fit its buffer ends it with an error. *)
Fixpoint manifest_lines (first : bool) (m : M3U8Manifest) (lines : list (list ascii)) : result M3U8Manifest :=
  match lines with
  | [] => Ok m
  | raw :: rest =>
    if scan_limit <=? zlen raw then Err ErrTooLong else
    let line := TrimSpace (str raw) in
    if String.eqb line "" then manifest_lines false m rest
    else if first && negb (String.eqb line "#EXTM3U") then Err (Errorf "manifest does not start with #EXTM3U")
    else if String.eqb line "#EXTM3U" then manifest_lines false (set_m3u8 m) rest
    else manifest_lines false (manifest_line m line) rest
  end.
Definition ParseM3U8Manifest (body : string) : result M3U8Manifest :=
  manifest ← manifest_lines true empty_manifest (split_chars "010" (chars body));
  if mf_IsM3U8 manifest then Ok manifest else Err (Errorf "manifest does not contain #EXTM3U").
Definition m3u8Metadata (base : gmap string string) (m : M3U8Manifest) : gmap string string :=
  <["independent_segments" := bool_text (mf_IndependentSegments m)]> (<["first_uri" := mf_FirstURI m]>
  (<["playlist_type" := mf_PlaylistType m]> (<["media_sequence" := mf_MediaSequence m]> (<["target_duration" := mf_TargetDuration m]>
  (<["key_count" := Itoa (mf_KeyCount m)]> (<["segment_count" := Itoa (mf_SegmentCount m)]> (<["variant_count" := Itoa (mf_VariantCount m)]>
  (<["is_hls" := bool_text (mf_IsHLS m)]> (<["is_m3u8" := bool_text (mf_IsM3U8 m)]> base))))))))).
Definition hlsPlaylistKind (m : M3U8Manifest) : string :=
  if 0 <? mf_VariantCount m then "master" else if 0 <? mf_SegmentCount m then "media" else "unknown".

(** ** Resolvers that ask the server *)
Record HttpAnswer := mkHttpAnswer { ha_Status : Z; ha_Length : Z; ha_Header : HeaderSet; ha_Body : string; ha_readErr : option error;
  ha_FinalURL : string; ha_Redirects : list string }.
Record RedirectSettings := mkRedirectSettings { rd_Follow : bool; rd_Max : Z }.

Definition filenameFromHeaders (headers : HeaderSet) : string :=
  let disposition := header_get "Content-Disposition" headers in
  match find_sub (chars "filename=") (chars (ToLower disposition)) with
  | None => ""
  | Some index =>
    let value := TrimSpace (str (drop (index + length (chars "filename=")) (chars disposition))) in
    let value := TrimSet (str ["034"%char; "039"%char]) value in
    match IndexByte (chars value) ";" with Some i => TrimSpace (str (take i (chars value))) | None => value end
  end.
Definition isCloudflareResponse (headers : HeaderSet) : bool :=
  Contains (ToLower (header_get "Server" headers)) "cloudflare" || negb (String.eqb (header_get "CF-Ray" headers) "")
  || negb (String.eqb (header_get "CF-Cache-Status" headers) "").
Definition isCloudflareChallenge (status : Z) (headers : HeaderSet) : bool :=
  isCloudflareResponse headers && ((status =? 403) || (status =? 503) || (status =? 429)).

Section Network.
(** [http.NewRequest] on method and address, the client with its redirects, and its settings. *)
Context (check : string -> string -> option error) (client : request_parts -> result HttpAnswer) (settings : RedirectSettings).

Definition do_request (method url : string) (headers : HeaderSet) : result HttpAnswer :=
  request ← NewRequest check method url headers; client request.
(** The common start of the three resolvers: HEAD unless a method is given, and GET when the
    server does not allow HEAD.  The answer comes with the method of the last request. *)
Definition probe (request : ResolveRequest) : result (FullURL * string * string * HttpAnswer) :=
  u ← parseHTTPURL (q_URL request);
  headers ← NewHeaderSet (q_Headers request);
  let method := ToUpper (TrimSpace (q_Method request)) in
  let method := if String.eqb method "" then "HEAD" else method in
  response ← do_request method (URL_String u) headers;
  if (ha_Status response =? 405) && String.eqb method "HEAD" then
    response ← do_request "GET" (URL_String u) headers; Ok (u, method, "GET", response)
  else Ok (u, method, method, response).
Definition content_headers (h : HeaderSet) : gmap string string :=
  <["content_length" := header_get "Content-Length" h]> (<["content_type" := header_get "Content-Type" h]> ∅).
Definition answer_result (name type : string) (u : FullURL) (response : HttpAnswer) (filename : string)
    (headers metadata : gmap string string) : ResolveResult :=
  mkResolveResult name type (URL_String u) (ha_FinalURL response) (ha_Status response) (ha_Length response)
    (header_get "Content-Type" (ha_Header response)) filename headers metadata.
Definition is_http (request : ResolveRequest) : bool := is_ok (parseHTTPURL (q_URL request)).

(** http.go: the metadata names the method of the first request. *)
Definition HTTPResolver : Resolver := mkResolver "http" is_http
  (fun request =>
    '(u, method, _, response) ← probe request;
    Ok (answer_result "http" "http" u response (filenameFromHeaders (ha_Header response)) (content_headers (ha_Header response))
          (metadataWith (q_Metadata request) "method" method))).

Definition redirect_metadata (base : gmap string string) (u : FullURL) (method : string) (response : HttpAnswer) : gmap string string :=
  let events := ha_Redirects response in
  let m := <["max_redirects" := Itoa (rd_Max settings)]> (<["follow_redirects" := bool_text (rd_Follow settings)]>
           (<["redirected" := bool_text (negb (String.eqb (ha_FinalURL response) (URL_String u)))]>
           (<["redirect_count" := Itoa (zlen events)]> (<["engine" := "redirect"]> (metadataWith base "method" method))))) in
  match events, last events with
  | first :: _, Some final => <["last_redirect_to" := final]> (<["first_redirect_to" := first]> m)
  | _, _ => m
  end.
Definition RedirectResolver : Resolver := mkResolver "redirect" is_http
  (fun request =>
    '(u, _, method, response) ← probe request;
    Ok (answer_result "redirect" "redirect" u response (filenameFromHeaders (ha_Header response)) (content_headers (ha_Header response))
          (redirect_metadata (q_Metadata request) u method response))).

Definition cloudflare_metadata (base : gmap string string) (method : string) (response : HttpAnswer) : gmap string string :=
  let h := ha_Header response in
  <["cf_cache_status" := header_get "CF-Cache-Status" h]> (<["cf_ray_present" := bool_text (negb (String.eqb (header_get "CF-Ray" h) ""))]>
  (<["cf_bypass_attempted" := "false"]> (<["cf_challenge_detected" := bool_text (isCloudflareChallenge (ha_Status response) h)]>
  (<["cf_detected" := bool_text (isCloudflareResponse h)]> (<["engine" := "cloudflare"]> (metadataWith base "method" method)))))).
Definition CloudflareResolver : Resolver := mkResolver "cloudflare"
  (fun request => is_http request && (resolverRequested request "cloudflare" || truthyMetadata request "cloudflare"))
  (fun request =>
    '(u, _, method, response) ← probe request;
    Ok (answer_result "cloudflare" "cloudflare" u response ""
          (<["cf_cache_status" := header_get "CF-Cache-Status" (ha_Header response)]>
             (<["server" := header_get "Server" (ha_Header response)]> ∅))
          (cloudflare_metadata (q_Metadata request) method response))).

Definition fetchManifest (request : ResolveRequest) : result (M3U8Manifest * HttpAnswer) :=
  u ← parseHTTPURL (q_URL request);
  headers ← NewHeaderSet (q_Headers request);
  response ← do_request "GET" (URL_String u) headers;
  if (ha_Status response <? 200) || (300 <=? ha_Status response)
  then Err (Errorf ("manifest request returned status " +:+ Itoa (ha_Status response))) else
  (* the body as far as it arrives; the reader stops one byte past the limit *)
  if DefaultManifestReadLimit <? slen (ha_Body response)
  then Err (Errorf ("manifest exceeds read limit " +:+ Itoa DefaultManifestReadLimit)) else
  match ha_readErr response with
  | Some e => Err e
  | None => manifest ← ParseM3U8Manifest (ha_Body response); Ok (manifest, response)
  end.
Definition manifest_result (name : string) (request : ResolveRequest) (response : HttpAnswer) (metadata : gmap string string) : ResolveResult :=
  mkResolveResult name name (q_URL request) (ha_FinalURL response) (ha_Status response) (ha_Length response)
    (header_get "Content-Type" (ha_Header response)) "" (content_headers (ha_Header response)) metadata.
Definition M3U8Resolver : Resolver := mkResolver "m3u8"
  (fun request => match parseHTTPURL (q_URL request) with
    | Err _ => false
    | Ok u => resolverRequested request "m3u8" || EqualFold (Ext (path_of u)) ".m3u8"
    end)
  (fun request =>
    '(manifest, response) ← fetchManifest request;
    Ok (manifest_result "m3u8" request response (<["engine" := "m3u8"]> (m3u8Metadata (q_Metadata request) manifest)))).
Definition hls_metadata (base : gmap string string) (m : M3U8Manifest) : gmap string string :=
  <["master" := bool_text (0 <? mf_VariantCount m)]>
  (<["media_only" := bool_text ((0 <? mf_SegmentCount m) && (mf_VariantCount m =? 0))]>
  (<["encrypted" := bool_text (0 <? mf_KeyCount m)]> (<["playlist_kind" := hlsPlaylistKind m]>
  (<["engine" := "hls"]> (m3u8Metadata base m))))).
Definition HLSResolver : Resolver := mkResolver "hls"
  (fun request => match parseHTTPURL (q_URL request) with
    | Err _ => false
    | Ok u =>
      resolverRequested request "hls" || truthyMetadata request "hls" ||
      let lowerPath := ToLower (path_of u) in
      EqualFold (Ext lowerPath) ".m3u8" && (Contains lowerPath "/hls/" || Contains (Base lowerPath) "master")
    end)
  (fun request =>
    '(manifest, response) ← fetchManifest request;
    if negb (mf_IsHLS manifest) then Err (Errorf "manifest is not an HLS playlist")
    else Ok (manifest_result "hls" request response (hls_metadata (q_Metadata request) manifest))).

(** The order of bootstrap.go. *)
Definition agent_resolvers : list Resolver :=
  [XtreamResolver; ShuiResolver; CloudflareResolver; HLSResolver; M3U8Resolver; GoogleDriveResolver; MEGAResolver;
   OneDriveResolver; RedirectResolver; HTTPResolver].
End Network.

(** ** The registry takes the first resolver that fits *)
Lemma try_resolvers_app before r after request :
  Forall (fun b => CanResolve b request = false) before -> CanResolve r request = true ->
  try_resolvers (before ++ r :: after) request = Resolve r request.
Proof. induction 1 as [|b l Hb HF IH]; intros H; cbn; [by rewrite H|]. rewrite Hb. by apply IH. Qed.
Lemma try_resolvers_none l request : Forall (fun b => CanResolve b request = false) l ->
  try_resolvers l request = Err (Errorf "no resolver available for url").
Proof. induction 1 as [|b l Hb HF IH]; cbn; [done|]. by rewrite Hb. Qed.
(** Splitting a list at the first element that passes. *)
Lemma first_fit (l : list Resolver) request : existsb (fun r => CanResolve r request) l = true ->
  exists before r after, l = before ++ r :: after /\ Forall (fun b => CanResolve b request = false) before /\ CanResolve r request = true.
Proof.
  induction l as [|r l IH]; intros H; [done|]. cbn in H. destruct (CanResolve r request) eqn:E.
  - exists [], r, l. by split_and!.
  - destruct (IH H) as (before & r' & after & -> & HF & E'). exists (r :: before), r', after. split_and!; [done|by constructor|done].
Qed.

Lemma register_all (l : list Resolver) seen : NoDup (map (fun r => TrimSpace (Name r)) l) ->
  Forall (fun r => TrimSpace (Name r) <> "" /\ TrimSpace (Name r) ∉ seen) l -> register (map Some l) seen = Ok l.
Proof.
  revert seen. induction l as [|r l IH]; intros seen HD HF; [done|]. inv HF as [|? ? [H1 H2] HF']. cbn [map] in HD. apply NoDup_cons in HD as [Hn HD].
  cbn [map register]. rewrite (proj2 (String.eqb_neq _ _) H1), bool_decide_eq_false_2 by done. rewrite IH; [done|done|].
  rewrite Forall_forall in *. intros r' Hr'. destruct (HF' r' Hr') as [H3 H4]. split; [done|].
  rewrite elem_of_union, elem_of_singleton. intros [E|E]; [|done]. apply Hn. rewrite <- E.
  apply list_elem_of_In, in_map_iff. exists r'. split; [done|]. by apply list_elem_of_In.
Qed.

Lemma requires_http check client settings r request : r ∈ agent_resolvers check client settings ->
  CanResolve r request = true -> is_http request = true.
Proof.
  unfold is_http. intros Hr. unfold agent_resolvers in Hr. apply list_elem_of_In in Hr. cbn [In] in Hr.
  destruct (parseHTTPURL (q_URL request)) as [u|e] eqn:E; [done|]. destruct_or! Hr; subst r; cbn; unfold is_http; rewrite E; done.
Qed.
Lemma result_named check client settings r request result : r ∈ agent_resolvers check client settings ->
  Resolve r request = Ok result -> x_Resolver result = Name r.
Proof.
  intros Hr. unfold agent_resolvers in Hr. apply list_elem_of_In in Hr. cbn [In] in Hr.
  destruct_or! Hr; subst r; cbn [Resolve Name XtreamResolver ShuiResolver CloudflareResolver HLSResolver M3U8Resolver GoogleDriveResolver
    MEGAResolver OneDriveResolver RedirectResolver HTTPResolver];
  intros (x & _ & H)%bind_Ok; repeat case_match; (discriminate H || (injection H as <-; reflexivity)).
Qed.

Lemma resolvers_register check client settings :
  NewRegistry (map Some (agent_resolvers check client settings)) = Ok (agent_resolvers check client settings).
Proof.
  apply register_all.
  - apply (bool_decide_unpack _). vm_compute. exact I.
  - rewrite Forall_forall. intros r Hr. split; [|apply not_elem_of_empty]. apply list_elem_of_In in Hr. cbn [In agent_resolvers] in Hr.
    destruct_or! Hr; subst r; vm_compute; discriminate.
Qed.

(** An address of the web is resolved by exactly one resolver, the first of the ten that
    accepts it, and the result names it; it is never the last one, which the one before it
    hides.  Any other address is refused without asking a server. *)
Theorem registry_takes_first check client settings request (HB : TrimSpace (q_URL request) <> "") :
  NewRegistry (map Some (agent_resolvers check client settings)) = Ok (agent_resolvers check client settings) /\
  match parseHTTPURL (q_URL request) with
  | Err _ => RegistryResolve (agent_resolvers check client settings) request = Err (Errorf "no resolver available for url")
  | Ok _ =>
    exists before r after, agent_resolvers check client settings = before ++ r :: after /\ after <> [] /\
      Forall (fun b => CanResolve b request = false) before /\ CanResolve r request = true /\
      RegistryResolve (agent_resolvers check client settings) request = Resolve r request /\
      forall result, Resolve r request = Ok result -> x_Resolver result = Name r
  end.
Proof.
  split; [apply resolvers_register|].
  unfold RegistryResolve. rewrite (proj2 (String.eqb_neq _ _) HB).
  destruct (parseHTTPURL (q_URL request)) as [u|e] eqn:E.
  - set (front := take 9 (agent_resolvers check client settings)). assert (existsb (fun r => CanResolve r request) front = true) as HX.
    { apply existsb_exists. exists (RedirectResolver check client settings). split; [cbn; tauto|]. cbn. unfold is_http. by rewrite E. }
    destruct (first_fit front request HX) as (before & r & after & EF & HF & HC).
    assert (agent_resolvers check client settings = before ++ r :: (after ++ [HTTPResolver check client])) as HA.
    { change (agent_resolvers check client settings) with (front ++ [HTTPResolver check client]). by rewrite EF, <- app_assoc. }
    exists before, r, (after ++ [HTTPResolver check client]). split_and!; [done|by destruct after|done|done| |].
    + rewrite HA. by apply try_resolvers_app.
    + intros result. apply (result_named check client settings). rewrite HA. apply elem_of_app. right. left.
  - apply try_resolvers_none, Forall_forall. intros r Hr. destruct (CanResolve r request) eqn:EC; [|done].
    pose proof (requires_http check client settings r request Hr EC) as H. unfold is_http in H. by rewrite E in H.
Qed.
Definition sample_client (r : request_parts) : result HttpAnswer := Ok (mkHttpAnswer 200 5 ∅ "" None (r_URL r) []).
Definition sample_request (url : string) : ResolveRequest := mkResolveRequest url "" [] ∅.
Lemma registry_takes_first_witness :
  exists result, RegistryResolve (agent_resolvers (fun _ _ => None) sample_client (mkRedirectSettings true 10))
    (sample_request "https://drive.google.com/file/d/X1/view") = Ok result /\ x_Resolver result = "google_drive".
Proof.
  destruct (registry_takes_first (fun _ _ => None) sample_client (mkRedirectSettings true 10)
    (sample_request "https://drive.google.com/file/d/X1/view")) as [_ H]; [by vm_compute|].
  assert (is_ok (parseHTTPURL "https://drive.google.com/file/d/X1/view") = true) as [u Eu]%is_ok_true by (vm_compute; reflexivity).
  cbn [sample_request q_URL] in H. rewrite Eu in H. destruct H as (before & r & after & _ & _ & _ & _ & HR & HN).
  assert (is_ok (RegistryResolve (agent_resolvers (fun _ _ => None) sample_client (mkRedirectSettings true 10))
    (sample_request "https://drive.google.com/file/d/X1/view")) = true) as [result ER]%is_ok_true by (vm_compute; reflexivity).
  exists result. split; [done|]. apply (f_equal (fun r => match r with Ok x => x_Resolver x | Err _ => "" end)) in ER.
  vm_compute in ER. by symmetry.
Defined.

(** ** Derived download addresses name the file they are for *)
Definition query_text (c : ascii) : bool := query_safe c || Ascii.eqb c "=" || Ascii.eqb c "&".
Lemma Values_Encode_text m : Forall (fun c => query_text c = true) (Values_Encode m).
Proof.
  unfold Values_Encode. assert (forall k v, Forall (fun c => query_text c = true) (pair_text k v)) as HP.
  { intros k v. unfold pair_text, query_text. rewrite Forall_app, Forall_cons.
    split_and!; [|done|]; eapply Forall_impl; try apply QueryEscape_safe; intros c Hc; by rewrite Hc. }
  set (l := mbind _ _). assert (Forall (Forall (fun c => query_text c = true)) l) as HF.
  { subst l. rewrite Forall_forall. intros x. rewrite list_elem_of_bind. intros (k & Hx & _). apply list_elem_of_In, in_map_iff in Hx as (v & <- & _). apply HP. }
  clearbody l. induction HF as [|x l Hx HF IH]; [done|]. destruct l as [|y l]; [done|].
  change (join_chars "&" (x :: y :: l)) with (x ++ "&"%char :: join_chars "&" (y :: l)). rewrite Forall_app, Forall_cons. by split_and!.
Qed.

Lemma cut_none sep l : sep ∉ l -> cut sep l = (l, []).
Proof.
  induction l as [|c l IH]; intros H; [done|]. cbn [cut]. destruct (Ascii.eqb_spec c sep) as [->|]; [set_solver|]. by rewrite IH by set_solver.
Qed.
Lemma not_last c l : c ∉ l -> is_prefix [c] (reverse l) = false.
Proof.
  intros H. destruct (reverse l) as [|d r] eqn:E; [done|]. cbn. destruct (Ascii.eqb_spec c d) as [->|]; [|done].
  exfalso. apply H. rewrite <- (reverse_involutive l), E. apply elem_of_reverse. left.
Qed.
Definition plain_text (c : ascii) : bool := negb (one_of "#?" c) && negb ((code c <? 32) || (code c =? 127)).
Lemma plain_text_free c l : one_of "#?" c = true -> Forall (fun c => plain_text c = true) l -> c ∉ l.
Proof. intros Hc HF Hin. rewrite Forall_forall in HF. apply HF in Hin. unfold plain_text in Hin. by rewrite Hc in Hin. Qed.
Lemma query_text_plain c : query_text c = true -> plain_text c = true.
Proof.
  intros H. pose proof (char_forall (fun c => negb (query_text c) || plain_text c) ltac:(vm_compute; reflexivity) c) as HC.
  cbn beta in HC. by rewrite H in HC.
Qed.
Lemma ctl_free l : Forall (fun c => plain_text c = true) l -> stringContainsCTLByte l = false.
Proof.
  unfold stringContainsCTLByte. induction 1 as [|c l Hc HF IH]; [done|]. cbn [existsb]. rewrite IH.
  unfold plain_text in Hc. apply andb_true_iff in Hc as [_ Hc%negb_true_iff]. by rewrite Hc.
Qed.

(** An address with a query of this kind is read as its two parts. *)
Lemma https_query tail q : q <> [] -> Forall (fun c => query_text c = true) q -> Forall (fun c => plain_text c = true) tail ->
  full_Parse (str (chars "https://" ++ tail ++ "?"%char :: q)) =
  (u ← full_Parse (str (chars "https://" ++ tail)); Ok (with_query q u)).
Proof.
  intros Hne Hq Ht. assert (Forall (fun c => plain_text c = true) q) as Hq' by (eapply Forall_impl; [exact Hq|]; apply query_text_plain).
  assert (Forall (fun c => plain_text c = true) (chars "https://" ++ tail)) as Hb by (apply Forall_app; split; [repeat constructor|done]).
  unfold full_Parse. rewrite !chars_str. rewrite (cut_none "#" (chars "https://" ++ tail)) by (by apply plain_text_free).
  rewrite (cut_none "#" (chars "https://" ++ tail ++ "?"%char :: q)).
  2:{ rewrite !elem_of_app, elem_of_cons. intros [H|[H|[H|H]]]; [|by apply plain_text_free in H|done|by apply plain_text_free in H].
      revert H. apply plain_text_free; [done|repeat constructor]. }
  unfold full_parse. rewrite (ctl_free (chars "https://" ++ tail)) by done.
  assert (stringContainsCTLByte (chars "https://" ++ tail ++ "?"%char :: q) = false) as ->.
  { rewrite app_assoc. unfold stringContainsCTLByte. rewrite existsb_app. cbn [existsb].
    change (existsb _ (chars "https://" ++ tail)) with (stringContainsCTLByte (chars "https://" ++ tail)). rewrite ctl_free by done.
    change (existsb _ q) with (stringContainsCTLByte q). by rewrite ctl_free. }
  assert (forall t, getScheme (chars "https://" ++ t) = Ok (chars "https", chars "//" ++ t)) as HS by reflexivity.
  rewrite !(decide_False (P := _ = chars "*")) by done. rewrite !HS. cbn [mbind result_bind].
  assert ("?"%char ∉ chars "//" ++ tail) as Hn.
  { rewrite elem_of_app. intros [H|H]; [|by apply plain_text_free in H]. revert H. apply plain_text_free; [done|repeat constructor]. }
  rewrite (not_last "?" (chars "//" ++ tail)) by done. cbn [andb]. rewrite (cut_none "?" (chars "//" ++ tail)) by done.
  assert (is_prefix ["?"%char] (reverse (chars "//" ++ tail ++ "?"%char :: q)) = false) as ->.
  { destruct q as [|x q _] using rev_ind; [done|]. rewrite app_assoc. change ("?"%char :: q ++ [x]) with (("?"%char :: q) ++ [x]).
    rewrite app_assoc, reverse_snoc. cbn [is_prefix]. destruct (Ascii.eqb_spec "?" x) as [<-|]; [|done].
    apply Forall_app in Hq as [_ Hq]. by inv Hq. }
  cbn [andb]. rewrite app_assoc, cut_app by done.
  destruct (negb (is_prefix ["/"%char] _) && negb _); [done|]. destruct (negb (is_prefix ["/"%char] _) && existsb _ _); [done|].
  destruct ((_ || _) && is_prefix (chars "//") _).
  - destruct (match IndexByte _ "/" with Some _ => _ | None => _ end) as [authority path].
    destruct (full_authority authority) as [[user host]|e]; cbn [mbind result_bind]; [|done].
    destruct (setPath path) as [[p raw]|e]; done.
  - destruct (setPath _) as [[p raw]|e]; done.
Qed.

Lemma Values_Encode_nonempty m k v l : m !! k = Some (v :: l) -> no_empty_values m -> Values_Encode m <> [].
Proof.
  intros E HN H. pose proof (ParseQuery_Encode m HN) as HP. rewrite H in HP.
  change (ParseQuery []) with (∅ : Values) in HP. rewrite <- HP, lookup_empty in E. done.
Qed.
Definition drive_values (id : string) : Values := Values_Set "id" id (Values_Set "export" "download" ∅).
Definition onedrive_values (resid authkey : string) : Values :=
  let values := Values_Set "resid" resid ∅ in if String.eqb authkey "" then values else Values_Set "authkey" authkey values.
Lemma no_empty_set k v m : no_empty_values m -> no_empty_values (Values_Set k v m).
Proof. intros H. unfold Values_Set. by apply map_Forall_insert_2. Qed.
Lemma no_empty_empty : no_empty_values ∅.
Proof. apply map_Forall_empty. Qed.

Lemma derived_parse tail m k v l u : m !! k = Some (v :: l) -> no_empty_values m -> Forall (fun c => plain_text c = true) tail ->
  full_Parse (str (chars "https://" ++ tail)) = Ok u ->
  exists u', full_Parse (str (chars "https://" ++ tail ++ "?"%char :: Values_Encode m)) = Ok u' /\
    u_Scheme u' = u_Scheme u /\ u_Host u' = u_Host u /\ u_Path u' = u_Path u /\ Query u' = m.
Proof.
  intros E HN Ht EP. exists (with_query (Values_Encode m) u). rewrite https_query; [|by eapply Values_Encode_nonempty|apply Values_Encode_text|done].
  rewrite EP. split_and!; try done. by apply ParseQuery_Encode.
Qed.

Lemma drive_parse id : exists u, full_Parse (googleDriveDownloadURL id) = Ok u /\ u_Scheme u = chars "https" /\
  u_Host u = chars "drive.google.com" /\ u_Path u = chars "/uc" /\ Query u = drive_values id.
Proof.
  assert (googleDriveDownloadURL id = str (chars "https://" ++ chars "drive.google.com/uc" ++ "?"%char :: Values_Encode (drive_values id))) as ->.
  { apply chars_inj. unfold googleDriveDownloadURL. rewrite chars_app, !chars_str. done. }
  assert (is_ok (full_Parse (str (chars "https://" ++ chars "drive.google.com/uc"))) = true) as [u Eu]%is_ok_true by (vm_compute; reflexivity).
  destruct (derived_parse (chars "drive.google.com/uc") (drive_values id) "id" id [] u) as (u' & H1 & H2 & H3 & H4 & H5).
  - apply lookup_insert_eq.
  - apply no_empty_set, no_empty_set, no_empty_empty.
  - repeat constructor.
  - done.
  - exists u'. rewrite H2, H3, H4. vm_compute in Eu. injection Eu as <-. by split_and!.
Qed.
Lemma onedrive_parse resid authkey : exists u, full_Parse (oneDriveDownloadURL resid authkey) = Ok u /\ u_Scheme u = chars "https" /\
  u_Host u = chars "onedrive.live.com" /\ u_Path u = chars "/download" /\ Query u = onedrive_values resid authkey.
Proof.
  assert (oneDriveDownloadURL resid authkey =
    str (chars "https://" ++ chars "onedrive.live.com/download" ++ "?"%char :: Values_Encode (onedrive_values resid authkey))) as ->.
  { apply chars_inj. unfold oneDriveDownloadURL. rewrite chars_app, !chars_str. done. }
  assert (is_ok (full_Parse (str (chars "https://" ++ chars "onedrive.live.com/download"))) = true) as [u Eu]%is_ok_true by (vm_compute; reflexivity).
  assert (onedrive_values resid authkey !! "resid" = Some [resid]) as HL.
  { unfold onedrive_values, Values_Set. destruct (String.eqb authkey ""); [apply lookup_insert_eq|].
    rewrite lookup_insert_ne by done. apply lookup_insert_eq. }
  destruct (derived_parse (chars "onedrive.live.com/download") (onedrive_values resid authkey) "resid" resid [] u) as (u' & H1 & H2 & H3 & H4 & H5).
  - done.
  - unfold onedrive_values. destruct (String.eqb authkey ""); repeat apply no_empty_set; apply no_empty_empty.
  - repeat constructor.
  - done.
  - exists u'. rewrite H2, H3, H4. vm_compute in Eu. injection Eu as <-. by split_and!.
Qed.

Lemma drive_url_trimmed id : TrimSpace (googleDriveDownloadURL id) = googleDriveDownloadURL id.
Proof.
  apply TrimSpace_id. unfold googleDriveDownloadURL. rewrite chars_app, chars_str. apply Forall_app. split; [repeat constructor|].
  eapply Forall_impl; [apply Values_Encode_text|]. intros c Hc.
  pose proof (char_forall (fun c => negb (query_text c) || no_space c) ltac:(vm_compute; reflexivity) c) as HC. cbn beta in HC. by rewrite Hc in HC.
Qed.

(** The identifier found in a link is trimmed, and its download address is the one for it. *)
Lemma drive_parts_id before first parts info : Forall (fun p => TrimSpace p = p) parts -> drive_parts before first parts = Some info ->
  TrimSpace (gd_ID info) = gd_ID info /\ (gd_DownloadURL info = "" \/ gd_DownloadURL info = googleDriveDownloadURL (gd_ID info)).
Proof.
  intros HF. revert before first. induction HF as [|p l Hp HF IH]; intros before first; cbn [drive_parts]; [done|].
  assert (TrimSpace (default "" (head l)) = default "" (head l)) as HH by (destruct HF; [by vm_compute|done]).
  destruct (_ && _); [intros H; injection H as <-; auto|]. destruct (String.eqb _ "folders" && _); [intros H; injection H as <-; auto|]. apply IH.
Qed.
Lemma splitPath_trimmed p : Forall (fun x => TrimSpace x = x) (splitPath p).
Proof.
  unfold splitPath. rewrite Forall_forall. intros x Hx%list_elem_of_In. apply List.filter_In in Hx as [Hx _].
  apply in_map_iff in Hx as (y & <- & _). apply TrimSpace_idemp.
Qed.
Lemma parseGoogleDriveURL_id u : TrimSpace (gd_ID (parseGoogleDriveURL u)) = gd_ID (parseGoogleDriveURL u) /\
  (gd_DownloadURL (parseGoogleDriveURL u) = "" \/ gd_DownloadURL (parseGoogleDriveURL u) = googleDriveDownloadURL (gd_ID (parseGoogleDriveURL u))).
Proof.
  unfold parseGoogleDriveURL. set (id := TrimSpace (Values_Get "id" (Query u))).
  destruct (String.eqb id ""); cbn [negb].
  - destruct (drive_parts _ _ _) eqn:E; [|by split; [vm_compute|left]]. eapply drive_parts_id; [apply splitPath_trimmed|done].
  - cbn [gd_ID gd_DownloadURL]. split; [apply TrimSpace_idemp|by right].
Qed.

(** A link to a file on Google Drive is resolved to a download address from which the
    identifier is read back, whatever characters it has; resolving that address again gives
    the same address.  The address derived for OneDrive names its item in the same way. *)
Theorem derived_links_roundtrip request result (HR : Resolve GoogleDriveResolver request = Ok result)
    (HD : x_Metadata result !! "download_url_derived" = Some "true") :
  exists id u, x_ResolvedURL result = googleDriveDownloadURL id /\ x_Metadata result !! "file_id" = Some id /\
    full_Parse (x_ResolvedURL result) = Ok u /\ u_Host u = chars "drive.google.com" /\ Query u = drive_values id /\
    (exists again, Resolve GoogleDriveResolver (mkResolveRequest (x_ResolvedURL result) "" [] ∅) = Ok again /\
       x_ResolvedURL again = x_ResolvedURL result /\ x_Metadata again !! "file_id" = Some id) /\
    forall resid authkey, exists v, full_Parse (oneDriveDownloadURL resid authkey) = Ok v /\
      u_Host v = chars "onedrive.live.com" /\ Query v = onedrive_values resid authkey.
Proof.
  cbn [Resolve GoogleDriveResolver] in *. apply bind_Ok in HR as (u0 & _ & HR). destruct (negb (isGoogleDriveHost _)); [done|].
  destruct (parseGoogleDriveURL_id u0) as [HT HU]. destruct (parseGoogleDriveURL u0) as [id kind route dl]. cbn [gd_ID gd_DownloadURL gd_Kind gd_Route] in *.
  destruct (String.eqb_spec id "") as [|Hid]; [done|]. injection HR as <-. cbn [x_Metadata x_ResolvedURL plain_result] in *.
  rewrite lookup_insert_eq in HD. destruct (String.eqb_spec dl "") as [Edl|Hdl]; [by vm_compute in HD|]. destruct HU as [Edl|Edl]; [done|].
  rewrite Edl in *.
  cbn [negb]. destruct (drive_parse id) as (u & EP & ES & EH & EPa & EQ). exists id, u. rewrite EP.
  assert (forall base : gmap string string, (<["download_url_derived" := "true"]> (<["route" := drive_route u]> (<["resource_kind" := googleDriveKind (path_of u)]>
      (<["file_id" := id]> base)))) !! "file_id" = Some id) as HF.
  { intros base. do 3 (etransitivity; [apply lookup_insert_ne; discriminate|]). apply lookup_insert_eq. }
  split; [reflexivity|]. split; [do 3 (etransitivity; [apply lookup_insert_ne; discriminate|]); apply lookup_insert_eq|].
  split; [reflexivity|]. split; [exact EH|]. split; [exact EQ|]. split.
  - exists (plain_result "google_drive" "google_drive" u (googleDriveDownloadURL id)
      (<["download_url_derived" := "true"]> (<["route" := drive_route u]> (<["resource_kind" := googleDriveKind (path_of u)]>
      (<["file_id" := id]> (<["provider" := "google_drive"]> (<["engine" := "google_drive"]> ∅))))))).
    split; [|split; [reflexivity|apply HF]]. cbn [q_URL q_Metadata]. unfold parseHTTPURL. rewrite drive_url_trimmed.
    rewrite (proj2 (String.eqb_neq _ _) Hdl), EP. cbn [mbind result_bind]. rewrite ES, EH.
    rewrite (bool_decide_eq_true_2 (chars "https" = chars "https")) by done. rewrite andb_false_r.
    replace (String.eqb (TrimSpace (str (chars "drive.google.com"))) "") with false by (by vm_compute). cbn [mbind result_bind].
    assert (Hostname u = "drive.google.com") as -> by (unfold Hostname; rewrite EH; by vm_compute).
    replace (isGoogleDriveHost "drive.google.com") with true by (by vm_compute). cbn [negb].
    assert (Values_Get "id" (Query u) = id) as EI by (rewrite EQ; unfold Values_Get, drive_values, Values_Set; by rewrite lookup_insert_eq).
    unfold parseGoogleDriveURL. rewrite EI, HT. rewrite (proj2 (String.eqb_neq _ _) Hid). cbn [negb gd_ID gd_DownloadURL gd_Kind gd_Route].
    rewrite (proj2 (String.eqb_neq _ _) Hid), (proj2 (String.eqb_neq _ _) Hdl). reflexivity.
  - intros resid authkey. destruct (onedrive_parse resid authkey) as (v & H1 & _ & H3 & _ & H5). exists v. by split_and!.
Qed.
Lemma derived_links_roundtrip_witness : exists result,
  Resolve GoogleDriveResolver (sample_request "https://drive.google.com/file/d/A%26b=c/view") = Ok result /\
  x_ResolvedURL result = "https://drive.google.com/uc?export=download&id=A%26b%3Dc" /\
  exists u, full_Parse (x_ResolvedURL result) = Ok u /\ u_Host u = chars "drive.google.com".
Proof.
  assert (is_ok (Resolve GoogleDriveResolver (sample_request "https://drive.google.com/file/d/A%26b=c/view")) = true) as [result ER]%is_ok_true
    by (vm_compute; reflexivity).
  exists result. pose proof ER as ER'.
  apply (f_equal (fun r => match r with Ok x => (x_ResolvedURL x, x_Metadata x !! "download_url_derived") | Err _ => ("", None) end)) in ER'.
  vm_compute in ER'. apply pair_equal_spec in ER' as [E1 E2].
  destruct (derived_links_roundtrip _ result ER (eq_sym E2)) as (id & u & _ & _ & H3 & H4 & _).
  split; [exact ER|]. split; [by symmetry|]. exists u. split; [exact H3|exact H4].
Defined.

(** ** Playlists are counted line by line *)
Definition manifest_text (body : string) : list string :=
  List.filter (fun line => negb (String.eqb line "") && negb (String.eqb line "#EXTM3U")) (map (fun raw => TrimSpace (str raw)) (split_chars "010" (chars body))).
Definition lines_with (prefix : string) (lines : list string) : Z := zlen (List.filter (fun line => HasPrefix line prefix) lines).
Lemma prefix_excludes line a b : HasPrefix line a = true -> is_prefix (chars a) (chars b) = false -> is_prefix (chars b) (chars a) = false ->
  HasPrefix line b = false.
Proof.
  unfold HasPrefix. generalize (chars a) (chars b) (chars line). clear. intros a b l. revert b l.
  induction a as [|x a IH]; intros [|y b] [|z l]; cbn; try done. intros [->%Ascii.eqb_eq H1]%andb_true_iff.
  rewrite (Ascii.eqb_sym y z). destruct (Ascii.eqb z y); cbn; [|done]. eauto.
Qed.
Lemma lines_with_snoc p lines line : lines_with p (lines ++ [line]) = lines_with p lines + (if HasPrefix line p then 1 else 0).
Proof.
  unfold lines_with, zlen. rewrite List.filter_app, length_app. cbn. destruct (HasPrefix line p); cbn [length]; lia.
Qed.
(** What a manifest says of the lines it was read from. *)
Definition counts (lines : list string) (m : M3U8Manifest) : Prop :=
  mf_VariantCount m = lines_with "#EXT-X-STREAM-INF" lines /\ mf_SegmentCount m = lines_with "#EXTINF" lines /\
  mf_KeyCount m = lines_with "#EXT-X-KEY" lines /\ mf_IsHLS m = existsb (fun line => HasPrefix line "#EXT-X-") lines.
Lemma counts_step lines m line : counts lines m -> counts (lines ++ [line]) (manifest_line m line).
Proof.
  intros (H1 & H2 & H3 & H4). unfold counts. rewrite !lines_with_snoc, existsb_app, <- H1, <- H2, <- H3, <- H4. cbn [existsb]. rewrite orb_false_r.
  destruct m as [is_m3u8 hls v s k td ms pt uri ind]. unfold manifest_line. cbn [mf_VariantCount mf_SegmentCount mf_KeyCount mf_IsHLS].
  destruct (HasPrefix line "#EXT-X-STREAM-INF") eqn:E1.
  { rewrite (prefix_excludes line _ "#EXTINF" E1), (prefix_excludes line _ "#EXT-X-KEY" E1) by done.
    cbn [mf_VariantCount mf_SegmentCount mf_KeyCount mf_IsHLS]. split_and!; (reflexivity || lia). }
  destruct (HasPrefix line "#EXTINF") eqn:E2.
  { rewrite (prefix_excludes line _ "#EXT-X-KEY" E2) by done.
    cbn [mf_VariantCount mf_SegmentCount mf_KeyCount mf_IsHLS]. split_and!; (reflexivity || lia). }
  destruct (HasPrefix line "#EXT-X-KEY") eqn:E3; [cbn [mf_VariantCount mf_SegmentCount mf_KeyCount mf_IsHLS]; split_and!; (reflexivity || lia)|].
  repeat match goal with |- context [if ?b then mkManifest _ _ _ _ _ _ _ _ _ _ else _] => destruct b end;
    cbn [mf_VariantCount mf_SegmentCount mf_KeyCount mf_IsHLS]; split_and!; (reflexivity || lia).
Qed.
Lemma counts_set lines m : counts lines m -> counts lines (set_m3u8 m).
Proof. done. Qed.
Lemma manifest_lines_counts first done_lines m raws m' : counts done_lines m -> manifest_lines first m raws = Ok m' ->
  counts (done_lines ++ List.filter (fun line => negb (String.eqb line "") && negb (String.eqb line "#EXTM3U")) (map (fun raw => TrimSpace (str raw)) raws)) m'.
Proof.
  revert first done_lines m. induction raws as [|raw raws IH]; intros first lines m HC; cbn [manifest_lines map List.filter].
  - intros H. injection H as <-. by rewrite app_nil_r.
  - destruct (scan_limit <=? zlen raw); [done|]. set (line := TrimSpace (str raw)). clearbody line.
    destruct (String.eqb line "") eqn:E0; cbn [negb andb]; [by apply IH|].
    destruct (String.eqb line "#EXTM3U") eqn:E1; cbn [negb andb].
    + rewrite andb_false_r. apply IH. by apply counts_set.
    + rewrite andb_true_r. destruct first; [done|]. intros H. rewrite (cons_middle line), app_assoc. eapply IH; [|exact H]. by apply counts_step.
Qed.

(** A playlist that is accepted has the tag that makes it one, and its numbers of
    variants, segments and keys are the numbers of lines with their tags. *)
Theorem manifest_counts body m (H : ParseM3U8Manifest body = Ok m) : counts (manifest_text body) m /\ mf_IsM3U8 m = true.
Proof.
  unfold ParseM3U8Manifest in H. apply bind_Ok in H as (m' & E & H). destruct (mf_IsM3U8 m') eqn:EM; [|done]. injection H as <-.
  split; [|done]. eapply (manifest_lines_counts true [] empty_manifest); [done|exact E].
Qed.
Definition sample_playlist : string :=
  "#EXTM3U" +:+ newline +:+ "#EXT-X-KEY:METHOD=NONE" +:+ newline +:+ "#EXTINF:4," +:+ newline +:+ "a.ts" +:+ newline +:+ "#EXTINF:4," +:+ newline +:+ "b.ts".
Lemma manifest_counts_witness : exists m, ParseM3U8Manifest sample_playlist = Ok m /\ mf_SegmentCount m = 2.
Proof.
  assert (is_ok (ParseM3U8Manifest sample_playlist) = true) as [m E]%is_ok_true by (vm_compute; reflexivity).
  exists m. split; [done|]. destruct (proj1 (manifest_counts _ m E)) as (_ & H & _). rewrite H. vm_compute. reflexivity.
Defined.

(** ** What the resolvers get wrong *)
(** A first line that is blank ends the check that the playlist starts with its tag. *)
Example late_tag_is_accepted : is_ok (ParseM3U8Manifest (newline +:+ "<html>" +:+ newline +:+ "#EXTM3U")) = true.
Proof. vm_compute. reflexivity. Qed.
(** The mask of a secret of five characters shows four of them. *)
Example mask_shows_most : maskSecret "abcde" = "ab...de".
Proof. vm_compute. reflexivity. Qed.
(** A parameter named action makes every address one of the Shui panel. *)
Example action_hides_drive check client settings :
  x_Resolver <$> (match RegistryResolve (agent_resolvers check client settings)
     (sample_request "https://drive.google.com/file/d/X1/view?action=edit") with Ok r => Some r | Err _ => None end) = Some "shui".
Proof. vm_compute. reflexivity. Qed.
(** The result of the HTTP resolver names HEAD although it asked again with GET. *)
Definition no_head (r : request_parts) : result HttpAnswer :=
  Ok (mkHttpAnswer (if String.eqb (r_Method r) "HEAD" then 405 else 200) 5 ∅ "" None (r_URL r) []).
Example http_names_first_method :
  (match Resolve (HTTPResolver (fun _ _ => None) no_head) (sample_request "https://h/x") with
   | Ok r => (x_StatusCode r, x_Metadata r !! "method") | Err _ => (0, None) end) = (200, Some "HEAD").
Proof. vm_compute. reflexivity. Qed.
(** A host that only contains the name of a SharePoint site is taken for one. *)
Example foreign_sharepoint_host : isOneDriveHost "x-my.sharepoint.com.example.org" = true.
Proof. vm_compute. reflexivity. Qed.
