(* ===== verification/HubClient.v ===== *)
(** * internal/mediahub: the signed client of the Media Hub

    hmac.go (canonical string, signature, authentication headers), client.go (the
    endpoints and the one function that performs every call) and the tolerant readers
    of payloads.go.  A call is a function of what the outside answers: the clock, the
    random source and the HTTP exchange; it returns its result and the requests it
    sent.  The JSON codec is a parameter.  Trace callbacks only observe and are left
    out. *)
From Stdlib Require Import SpecFloat.
From S2P Require Import Prelude GoStrings GoUrl GoUrlEscape GoCrypto GoFloat GoTime GoJson GoRFC3339 NodeState Download.

(** ** hmac.go *)
Definition HeaderNodeUUID : string := "X-Auren-Node-UUID".
Definition HeaderNodeSecret : string := "X-Auren-Node-Secret".
Definition HeaderAgentTimestamp : string := "X-Auren-Agent-Timestamp".
Definition HeaderAgentNonce : string := "X-Auren-Agent-Nonce".
Definition HeaderAgentSignature : string := "X-Auren-Agent-Signature".
Definition HeaderAgentSignatureVersion : string := "X-Auren-Agent-Signature-Version".
Definition SignatureVersion : string := "v1".

Record SignatureInput := mkSignatureInput {
  si_Method : string; si_PathQuery : string; si_Timestamp : string; si_Nonce : string; si_Body : string
}.

Definition BodySHA256 (body : string) : string := hex_string (sha256 (bytes_of body)).

Definition lf : ascii := "010".
Definition CanonicalString (input : SignatureInput) : string :=
  ToUpper (TrimSpace (si_Method input)) +:+ str [lf] +:+
  TrimSpace (si_PathQuery input) +:+ str [lf] +:+
  TrimSpace (si_Timestamp input) +:+ str [lf] +:+
  TrimSpace (si_Nonce input) +:+ str [lf] +:+
  BodySHA256 (si_Body input).

Definition HubSign (secret : string) (input : SignatureInput) : string :=
  hex_string (hmac_sha256 (bytes_of (TrimSpace secret)) (bytes_of (CanonicalString input))).

(** An outgoing request; the path is the text that goes over the wire. *)
Record HubRequest := mkHubRequest {
  hq_Method : string; hq_PathText : list ascii; hq_RawQuery : string; hq_Header : HeaderSet; hq_Body : string
}.

(** [request.URL.EscapedPath()] of a request made for a wire path. *)
Definition request_path (text : list ascii) : list ascii :=
  match setPath text with Ok (path, raw) => EscapedPath path raw | Err _ => text end.
Definition path_query (text : list ascii) (query : string) : string :=
  str (request_path text) +:+ (if String.eqb query "" then "" else "?" +:+ query).

Definition NewNonce (random : result (list Z)) : result string :=
  match random with
  | Ok bytes => Ok (hex_string bytes)
  | Err e => Err (Wrapf ("generate media hub nonce: " +:+ Error e) e)
  end.

Definition ApplyNodeAuthentication (request : HubRequest) (state : NodeState) (hmacEnabled : bool)
  (now clock : Time) (nonce : string) (random : result (list Z)) : result HubRequest :=
  if NodeEmpty state then Err (Errorf "media hub node credentials are required") else
  let with_headers h := mkHubRequest (hq_Method request) (hq_PathText request) (hq_RawQuery request) h (hq_Body request) in
  let h := header_set HeaderNodeUUID (TrimSpace (NodeUUID state)) (hq_Header request) in
  let h := header_set HeaderNodeSecret (TrimSpace (NodeSecret state)) h in
  if negb hmacEnabled then Ok (with_headers h) else
  let now := or_now now clock in
  nonce ← (if String.eqb (TrimSpace nonce) "" then NewNonce random else Ok nonce);
  let timestamp := FormatRFC3339 now in
  let pathQuery := path_query (hq_PathText request) (hq_RawQuery request) in
  let h := header_set HeaderAgentTimestamp timestamp h in
  let h := header_set HeaderAgentNonce nonce h in
  let h := header_set HeaderAgentSignatureVersion SignatureVersion h in
  let h := header_set HeaderAgentSignature
             (HubSign (NodeSecret state) (mkSignatureInput (hq_Method request) pathQuery timestamp nonce (hq_Body request))) h in
  Ok (with_headers h).

(** ** client.go *)
Record EndpointPaths := mkEndpointPaths {
  p_Register : string; p_Config : string; p_Heartbeat : string; p_Metrics : string; p_Events : string
}.
Definition defaultPath (value fallback : string) : string :=
  let value := TrimSpace value in
  "/" +:+ TrimLeftChar "/" (if String.eqb value "" then fallback else value).
Definition normalized_paths (p : EndpointPaths) : EndpointPaths :=
  mkEndpointPaths (defaultPath (p_Register p) "/api/internal/nodes/register")
    (defaultPath (p_Config p) "/api/internal/nodes/config")
    (defaultPath (p_Heartbeat p) "/api/internal/nodes/heartbeat")
    (defaultPath (p_Metrics p) "/api/internal/nodes/metrics")
    (defaultPath (p_Events p) "/api/internal/nodes/events").

Record HubClient := mkHubClient {
  c_Path : list ascii;      (* of the base URL, decoded *)
  c_RawPath : list ascii;   (* of the base URL, when its encoding is not the default *)
  c_hmacEnabled : bool; c_userAgent : string; c_paths : EndpointPaths
}.

Definition NewClient (baseURL userAgent : string) (hmacEnabled : bool) (paths : EndpointPaths) : result HubClient :=
  let trimmed := TrimRightChar "/" (TrimSpace baseURL) in
  if String.eqb trimmed "" then Err (Errorf "media hub base_url is required") else
  match url_Parse trimmed with
  | Err e => Err (Wrapf ("parse media hub base_url: " +:+ Error e) e)
  | Ok parsed =>
    if negb (bool_decide (Scheme parsed = chars "http") || bool_decide (Scheme parsed = chars "https"))
    then Err (Errorf "media hub base_url must use http or https") else
    if bool_decide (Host parsed = []) then Err (Errorf "media hub base_url host is required") else
    '(path, raw) ← setPath (PathText parsed);
    let agent := TrimSpace userAgent in
    Ok (mkHubClient path raw hmacEnabled (if String.eqb agent "" then "AurenTransferAgent" else agent)
          (normalized_paths paths))
  end.

(** [resolve]: the wire path of an endpoint; the query of the base URL is dropped. *)
Definition resolve (client : HubClient) (path : string) : list ascii :=
  let basePath := chars (TrimRightChar "/" (str (c_Path client))) in
  EscapedPath (basePath ++ "/"%char :: chars (TrimLeftChar "/" path)) (c_RawPath client).

Definition transferJobPath (jobUUID action : string) : string :=
  "/api/internal/transfer-agent/jobs/" +:+ PathEscape (TrimSpace jobUUID) +:+ "/" +:+ TrimChar "/" (TrimSpace action).

Record HubResponse := mkHubResponse { rs_Status : Z; rs_Body : string; rs_readErr : option error }.

(** What one call meets outside. *)
Record hub_env := mkHubEnv {
  h_newRequest : option error;                   (* http.NewRequestWithContext *)
  h_now : Time; h_clock : Time;                  (* client.now(), time.Now() *)
  h_random : result (list Z);
  h_do : HubRequest -> result HubResponse
}.

(** [io.LimitReader] at 4 MiB. *)
Definition response_limit : Z := 4194304.
Definition limit_body (body : string) : string :=
  if slen body <=? response_limit then body else str (take (Z.to_nat response_limit) (chars body)).

Section Calls.
Context (decode : string -> result (option object)).

(** [doJSON]: [input] is the encoded body, [None] when there is none.  The result is the
    decoded response, [None] for a nil map; the second component are the requests sent. *)
Definition doJSON (client : HubClient) (env : hub_env) (method path : string) (input : option (result string))
  (state : NodeState) (authenticate : bool) : result (option object) * list HubRequest :=
  match input with
  | Some (Err e) => (Err (Wrapf ("encode media hub request: " +:+ Error e) e), [])
  | _ =>
    let body := match input with Some (Ok b) => b | _ => "" end in
    match h_newRequest env with
    | Some e => (Err (Wrapf ("create media hub request: " +:+ Error e) e), [])
    | None =>
      let h := header_set "User-Agent" (c_userAgent client) (header_set "Accept" "application/json" ∅) in
      let h := match input with Some _ => header_set "Content-Type" "application/json" h | None => h end in
      let plain := mkHubRequest method (resolve client path) "" h body in
      match (if authenticate
             then ApplyNodeAuthentication plain state (c_hmacEnabled client) (h_now env) (h_clock env) "" (h_random env)
             else Ok plain) with
      | Err e => (Err e, [])
      | Ok request =>
        (match h_do env request with
         | Err e => Err (Wrapf ("media hub " +:+ method +:+ " " +:+ path +:+ " failed: " +:+ Error e) e)
         | Ok response =>
           let payload := limit_body (rs_Body response) in
           match rs_readErr response with
           | Some e => Err (Wrapf ("read media hub response: " +:+ Error e) e)
           | None =>
             if (rs_Status response <? 200) || (300 <=? rs_Status response)
             then Err (Errorf ("media hub " +:+ method +:+ " " +:+ path +:+ " returned HTTP " +:+
                               Itoa (rs_Status response) +:+ ": " +:+ TrimSpace payload))
             else if String.eqb (TrimSpace payload) "" then Ok None
             else match decode payload with
                  | Err e => Err (Wrapf ("decode media hub response: " +:+ Error e) e)
                  | Ok response => Ok response
                  end
           end
         end, [request])
      end
    end
  end.

(** The calls that only report: heartbeat, metrics, events, drain, transfer progress and
    results, releases, gateway heartbeats, closes and events all have this form. *)
Definition post (client : HubClient) (env : hub_env) (path : string) (body : result string) (state : NodeState)
  : option error * list HubRequest :=
  let '(r, sent) := doJSON client env "POST" path (Some body) state true in
  (match r with Ok _ => None | Err e => Some e end, sent).

(** ** payloads.go *)
Definition text_of (v : any) : option string :=
  match v with
  | AString s => if String.eqb (TrimSpace s) "" then None else Some (TrimSpace s)
  | AFloat f => Some (Itoa (int64_of_float f))
  | AInt z => Some (Itoa z)
  | _ => None
  end.
Fixpoint firstString (values : object) (keys : list string) : string :=
  match keys with
  | [] => ""
  | key :: r => match assoc key values ≫= text_of with Some s => s | None => firstString values r end
  end.

Record RegistrationResult := mkRegistrationResult { rr_NodeUUID : string; rr_NodeSecret : string; rr_ConfigVersion : string }.
Record ConfigResult := mkConfigResult { cr_ConfigVersion : string; cr_Raw : object }.

Definition uuid_keys : list string := ["node_uuid"; "uuid"; "id"].
Definition secret_keys : list string := ["node_secret"; "agent_secret"; "secret"].

Definition or_else (value fallback : string) : string := if String.eqb value "" then fallback else value.

(** One round of the loop over the containers. *)
Definition fill_from (response : object) (acc : string * string * string) (container : string) : string * string * string :=
  let '(uuid, secret, version) := acc in
  match assoc container response with
  | Some (AMap nested) =>
    (or_else uuid (firstString nested uuid_keys), or_else secret (firstString nested secret_keys),
     or_else version (firstString nested ["config_version"]))
  | _ => acc
  end.

Definition ParseRegistrationResult (response : option object) : result RegistrationResult :=
  match response with
  | None => Err (Errorf "media hub registration response is empty")
  | Some response =>
    let '(uuid, secret, version) :=
      foldl (fill_from response)
        (firstString response uuid_keys, firstString response secret_keys, firstString response ["config_version"])
        ["node"; "data"; "edge_node"] in
    if String.eqb (TrimSpace uuid) "" then Err (Errorf "media hub registration response did not include node_uuid") else
    if String.eqb (TrimSpace secret) "" then Err (Errorf "media hub registration response did not include node_secret") else
    Ok (mkRegistrationResult (TrimSpace uuid) (TrimSpace secret) (TrimSpace version))
  end.

Fixpoint version_in (response : object) (containers : list string) : string :=
  match containers with
  | [] => ""
  | c :: r =>
    match assoc c response with
    | Some (AMap nested) => or_else (firstString nested ["config_version"; "version"]) (version_in response r)
    | _ => version_in response r
    end
  end.
Definition ParseConfigResult (response : option object) : ConfigResult :=
  let response := default [] response in
  mkConfigResult (TrimSpace (or_else (firstString response ["config_version"; "version"])
                                     (version_in response ["config"; "data"]))) response.

(** [Register] and [FetchConfig]. *)
Definition RegisterNode (client : HubClient) (env : hub_env) (token : string) (body : result string)
  : result RegistrationResult * list HubRequest :=
  if String.eqb (TrimSpace token) "" then (Err (Errorf "media hub registration_token is required"), []) else
  let '(r, sent) := doJSON client env "POST" (p_Register (c_paths client)) (Some body) empty_state false in
  (match r with Err e => Err e | Ok response => ParseRegistrationResult response end, sent).

Definition FetchConfig (client : HubClient) (env : hub_env) (state : NodeState) : result ConfigResult * list HubRequest :=
  let '(r, sent) := doJSON client env "GET" (p_Config (c_paths client)) None state true in
  (match r with Err e => Err e | Ok response => Ok (ParseConfigResult response) end, sent).

(** [FetchTransferControl]. *)
Record TransferControlResult := mkTransferControlResult { tc_Action : string; tc_Reason : string }.
Definition parse_control (response : object) : TransferControlResult :=
  let action := firstString response ["action"; "command"] in
  let reason := firstString response ["reason"; "message"] in
  match assoc "control" response with
  | Some (AMap nested) =>
    mkTransferControlResult (or_else action (firstString nested ["action"; "command"]))
      (or_else reason (firstString nested ["reason"; "message"]))
  | _ => mkTransferControlResult action reason
  end.
Definition FetchTransferControl (client : HubClient) (env : hub_env) (state : NodeState) (jobUUID : string)
  : result TransferControlResult * list HubRequest :=
  let '(r, sent) := doJSON client env "GET" (transferJobPath jobUUID "control") None state true in
  (match r with Err e => Err e | Ok response => Ok (parse_control (default [] response)) end, sent).
End Calls.

(** ** What the hub can check

    The hub recomputes the signature from the request it received and the secret it
    issued. *)
Definition hub_verifies (uuid secret : string) (request : HubRequest) : Prop :=
  header_get HeaderNodeUUID (hq_Header request) = uuid /\
  header_get HeaderAgentSignatureVersion (hq_Header request) = SignatureVersion /\
  header_get HeaderAgentSignature (hq_Header request) =
    HubSign secret (mkSignatureInput (hq_Method request) (path_query (hq_PathText request) (hq_RawQuery request))
      (header_get HeaderAgentTimestamp (hq_Header request)) (header_get HeaderAgentNonce (hq_Header request))
      (hq_Body request)).

(** What authentication does to a request. *)
Lemma authenticated request state hmac now clock nonce random request' :
  ApplyNodeAuthentication request state hmac now clock nonce random = Ok request' ->
  NodeEmpty state = false /\
  hq_Method request' = hq_Method request /\ hq_PathText request' = hq_PathText request /\
  hq_Body request' = hq_Body request /\
  header_get HeaderNodeUUID (hq_Header request') = TrimSpace (NodeUUID state) /\
  (hmac = true -> hub_verifies (TrimSpace (NodeUUID state)) (NodeSecret state) request').
Proof.
  unfold ApplyNodeAuthentication. destruct (NodeEmpty state); [done|]. destruct hmac; cbn [negb].
  - intros H. apply bind_Ok in H as (n & _ & [= <-]). cbn [hq_Method hq_PathText hq_Body hq_Header].
    split_and!; [done..| |intros _]; [by header_simpl|]. unfold hub_verifies. cbn [hq_Method hq_PathText hq_Body hq_Header hq_RawQuery].
    split_and!; by header_simpl.
  - intros [= <-]. cbn [hq_Method hq_PathText hq_Body hq_Header]. split_and!; [done..| |done]. by header_simpl.
Qed.

Section CallTheorems.
Context (decode : string -> result (option object)).

(** The shape of every call: nothing is sent when encoding, request creation or
    authentication fails; otherwise exactly one request is sent. *)
Lemma doJSON_sent client env method path input state authenticate result sent :
  doJSON decode client env method path input state authenticate = (result, sent) ->
  (sent = [] /\ is_ok result = false) \/
  exists plain request, sent = [request] /\
    hq_Method plain = method /\ hq_PathText plain = resolve client path /\
    hq_Body plain = match input with Some (Ok b) => b | _ => "" end /\
    (if authenticate
     then ApplyNodeAuthentication plain state (c_hmacEnabled client) (h_now env) (h_clock env) "" (h_random env) = Ok request
     else request = plain).
Proof.
  unfold doJSON. intros H. destruct input as [[b|e]|]; [|by left; simplify_eq|];
    (destruct (h_newRequest env); [by left; simplify_eq|]; cbv zeta in H;
     set (plain := mkHubRequest _ _ _ _ _) in H;
     destruct authenticate;
       [destruct (ApplyNodeAuthentication _ _ _ _ _ _ _) as [request|] eqn:EA; [|by left; simplify_eq]|];
     right; injection H as _ <-; eexists plain, _; split_and!; done).
Qed.

(** C12: every request of a call that authenticates carries the node's identifier, and with
    signing on a signature the hub can verify from what it receives: method, path as it
    goes over the wire, time stamp, nonce and body.  Without credentials nothing is
    sent. *)
Theorem doJSON_signed client env method path input state result sent :
  doJSON decode client env method path input state true = (result, sent) ->
  (length sent <= 1)%nat /\ (NodeEmpty state = true -> sent = [] /\ is_ok result = false) /\
  forall request, request ∈ sent ->
    hq_Method request = method /\ hq_PathText request = resolve client path /\
    hq_Body request = match input with Some (Ok b) => b | _ => "" end /\
    header_get HeaderNodeUUID (hq_Header request) = TrimSpace (NodeUUID state) /\
    (c_hmacEnabled client = true -> hub_verifies (TrimSpace (NodeUUID state)) (NodeSecret state) request).
Proof.
  intros H. destruct (doJSON_sent _ _ _ _ _ _ _ _ _ H) as [[-> Hr]|(plain & request & -> & H1 & H2 & H3 & HA)].
  - split; [simpl; lia|]. split; [done|]. intros request Hin. by apply not_elem_of_nil in Hin.
  - apply authenticated in HA as (HE & E1 & E2 & E3 & E4 & E5). split; [simpl; lia|].
    split; [by rewrite HE|]. intros r ->%list_elem_of_singleton. rewrite E1, E2, E3. by split_and!.
Qed.

(** A call succeeds exactly when its one exchange ended with a 2xx status and a body that
    is blank or decodes; the result is what was decoded. *)
Theorem doJSON_ok client env method path input state authenticate result sent :
  doJSON decode client env method path input state authenticate = (Ok result, sent) <->
  exists request response, sent = [request] /\
    (doJSON decode client env method path input state authenticate).2 = [request] /\
    h_do env request = Ok response /\ rs_readErr response = None /\ 200 <= rs_Status response < 300 /\
    let payload := limit_body (rs_Body response) in
    (if String.eqb (TrimSpace payload) "" then result = None else decode payload = Ok result).
Proof.
  split.
  - intros H. destruct (doJSON_sent _ _ _ _ _ _ _ _ _ H) as [[-> Hr]|(plain & request & -> & _)]; [done|].
    exists request. rewrite H. unfold doJSON in H.
    destruct input as [[b|e]|]; [|done|]; (destruct (h_newRequest env); [done|]); cbv zeta in H;
      (destruct (if authenticate then _ else _) as [req|] eqn:EA; [|done]); injection H as H <-;
      (destruct (h_do env req) as [response|] eqn:ED; [|done]); exists response;
      (destruct (rs_readErr response); [done|]);
      (destruct ((rs_Status response <? 200) || (300 <=? rs_Status response)) eqn:ES; [done|]);
      (split_and!; [done|done|done|done|lia|lia|]); cbv zeta;
      (destruct (String.eqb (TrimSpace (limit_body (rs_Body response))) ""); [by simplify_eq|]);
      (destruct (decode _); [by simplify_eq|done]).
  - intros (request & response & -> & HS & HD & HR & Hst & Hres).
    destruct (doJSON decode client env method path input state authenticate) as [r s] eqn:H. cbn [snd] in HS. subst s.
    f_equal. unfold doJSON in H.
    destruct input as [[b|e]|]; [|done|]; (destruct (h_newRequest env); [done|]); cbv zeta in H;
      (destruct (if authenticate then _ else _) as [req|] eqn:EA; [|done]); injection H as H <-;
      rewrite HD, HR in H; replace ((rs_Status response <? 200) || (300 <=? rs_Status response)) with false in H by lia;
      cbv zeta in Hres; (destruct (String.eqb (TrimSpace (limit_body (rs_Body response))) ""); [by simplify_eq|]);
      by rewrite Hres in H.
Qed.
End CallTheorems.

(** ** The canonical string is unambiguous *)
Definition no_newline (s : string) : Prop := lf ∉ chars s.

Lemma BodySHA256_plain body : no_newline (BodySHA256 body).
Proof.
  unfold no_newline, BodySHA256. destruct (hex_sha256_shape (bytes_of body)) as [_ HF].
  intros Hin. rewrite Forall_forall in HF. by apply HF in Hin.
Qed.

Lemma CanonicalString_chars input : chars (CanonicalString input) =
  join_chars lf (map chars [ToUpper (TrimSpace (si_Method input)); TrimSpace (si_PathQuery input);
    TrimSpace (si_Timestamp input); TrimSpace (si_Nonce input); BodySHA256 (si_Body input)]).
Proof. unfold CanonicalString. rewrite !chars_app, !chars_str. done. Qed.

Lemma five_inj {A} (a b c d e a' b' c' d' e' : A) : [a; b; c; d; e] = [a'; b'; c'; d'; e'] ->
  a = a' /\ b = b' /\ c = c' /\ d = d' /\ e = e'.
Proof. naive_solver. Qed.

(** C13: two requests whose signed fields contain no line break have the same canonical string
    only if they agree in every signed field: method, path with query, time stamp, nonce
    and digest of the body.  A signature therefore cannot be moved to another request. *)
Theorem CanonicalString_unambiguous a b :
  (forall i, i = a \/ i = b -> no_newline (ToUpper (TrimSpace (si_Method i))) /\ no_newline (TrimSpace (si_PathQuery i)) /\
     no_newline (TrimSpace (si_Timestamp i)) /\ no_newline (TrimSpace (si_Nonce i))) ->
  CanonicalString a = CanonicalString b ->
  ToUpper (TrimSpace (si_Method a)) = ToUpper (TrimSpace (si_Method b)) /\
  TrimSpace (si_PathQuery a) = TrimSpace (si_PathQuery b) /\
  TrimSpace (si_Timestamp a) = TrimSpace (si_Timestamp b) /\
  TrimSpace (si_Nonce a) = TrimSpace (si_Nonce b) /\ BodySHA256 (si_Body a) = BodySHA256 (si_Body b).
Proof.
  intros HP E. apply (f_equal (fun s => split_chars lf (chars s))) in E. rewrite !CanonicalString_chars in E.
  destruct (HP a (or_introl eq_refl)) as (A1 & A2 & A3 & A4), (HP b (or_intror eq_refl)) as (B1 & B2 & B3 & B4).
  pose proof (BodySHA256_plain (si_Body a)) as A5. pose proof (BodySHA256_plain (si_Body b)) as B5.
  rewrite !split_join_plain in E by (done || (cbn [map]; rewrite !Forall_cons, Forall_nil; by split_and!)).
  cbn [map] in E. apply five_inj in E as (E1 & E2 & E3 & E4 & E5).
  apply chars_inj in E1, E2, E3, E4, E5. by split_and!.
Qed.

(** ** Paths *)

(** What a request for an endpoint carries is what [resolve] wrote, so the path that is
    signed is the path on the wire. *)
Lemma request_path_resolve client path : c_RawPath client = [] ->
  request_path (resolve client path) = resolve client path.
Proof.
  intros HR. unfold request_path, resolve. rewrite HR.
  set (p := chars (TrimRightChar "/" (str (c_Path client))) ++ "/"%char :: _).
  assert (p <> chars "*") as Hs.
  { unfold p. intros E. apply (f_equal (fun l => "/"%char ∈ l)) in E.
    assert ("/"%char ∈ chars "*") as Hin by (rewrite <- E; apply elem_of_app; right; left).
    apply list_elem_of_In in Hin. simpl in Hin. by destruct Hin as [|[]]. }
  rewrite (EscapedPath_default p Hs). destruct (EscapedPath_stable p Hs) as (q & raw & -> & -> & ->). done.
Qed.

(** The path of a job's endpoint, for a job identifier of unreserved characters, as
    UUIDs are, and a base URL that needs no escaping. *)
Theorem transfer_path_exact client uuid action :
  c_RawPath client = [] -> c_Path client = [] -> TrimSpace uuid = uuid ->
  Forall (fun c => unreserved c = true) (chars uuid) ->
  action ∈ ["started"; "progress"; "completed"; "failed"; "events"; "release"; "control"] ->
  str (resolve client (transferJobPath uuid action)) =
    "/api/internal/transfer-agent/jobs/" +:+ uuid +:+ "/" +:+ action.
Proof.
  intros HR HP HT HF Ha.
  assert (forall l, Forall (fun c => unreserved c = true) l -> Forall (fun c => keep_segment c = true) l /\
    Forall (fun c => keep_path c = true) l) as HK.
  { intros l Hl. split; eapply Forall_impl; try exact Hl; intros c Hc; unfold keep_segment, keep_path; by rewrite Hc. }
  destruct (HK _ HF) as [HS HPa].
  assert (Forall (fun c => keep_path c = true) (chars action) /\ TrimChar "/" (TrimSpace action) = action) as [HA HA'].
  { rewrite !elem_of_cons, elem_of_nil in Ha. destruct_or! Ha; subst; try done;
      (split; [apply Forall_forall; intros c Hc; apply list_elem_of_In in Hc; simpl in Hc;
               repeat destruct Hc as [<-|Hc]; done|vm_compute; reflexivity]). }
  assert (chars (transferJobPath uuid action) = chars "/api/internal/transfer-agent/jobs/" ++ chars uuid ++ chars "/" ++ chars action) as E.
  { unfold transferJobPath, PathEscape. rewrite HT, HA', !chars_app, chars_str, escape_id by done. done. }
  unfold resolve, TrimLeftChar. rewrite HR, HP, E, chars_str. cbn [chars app drop_char Ascii.eqb Bool.eqb].
  change (chars (TrimRightChar "/" (str []))) with (@nil ascii). cbn [app].
  rewrite EscapedPath_default by done. rewrite escape_id.
  - apply chars_inj. rewrite chars_str, !chars_app. done.
  - repeat (apply Forall_cons; split; [reflexivity|]). apply Forall_app. split; [done|].
    apply Forall_cons. split; [reflexivity|done].
Qed.

(** ** Registration answers *)
Lemma ParseRegistrationResult_trimmed response r : ParseRegistrationResult response = Ok r ->
  TrimSpace (rr_NodeUUID r) = rr_NodeUUID r /\ rr_NodeUUID r <> "" /\
  TrimSpace (rr_NodeSecret r) = rr_NodeSecret r /\ rr_NodeSecret r <> "".
Proof.
  unfold ParseRegistrationResult. destruct response as [response|]; [|done].
  destruct (foldl _ _ _) as [[uuid secret] version].
  destruct (String.eqb_spec (TrimSpace uuid) ""); [done|]. destruct (String.eqb_spec (TrimSpace secret) ""); [done|].
  intros [= <-]. cbn [rr_NodeUUID rr_NodeSecret]. by rewrite !TrimSpace_idemp.
Qed.

(** ** Examples *)
Definition sample_client : HubClient :=
  match NewClient "https://hub.example.com/base/" "" true (mkEndpointPaths "" "" "" "" "") with
  | Ok c => c
  | Err _ => mkHubClient [] [] false "" (mkEndpointPaths "" "" "" "" "")
  end.
Definition sample_node : NodeState := mkNodeState 1 "node-7" "s3cret" "" 5 5 0.
Definition sample_hub : hub_env :=
  mkHubEnv None (63900000000 * second) 1 (Ok (seqZ 0 16)) (fun _ => Ok (mkHubResponse 200 "{}" None)).
Definition sample_decode (s : string) : result (option object) :=
  if String.eqb s "{}" then Ok (Some []) else Err (Errorf "unexpected end of JSON input").

Example heartbeat_url : str (resolve sample_client (p_Heartbeat (c_paths sample_client))) =
  "/base/api/internal/nodes/heartbeat".
Proof. vm_compute. reflexivity. Qed.

Lemma doJSON_signed_witness : exists request,
  doJSON sample_decode sample_client sample_hub "POST" "/x" (Some (Ok "body")) sample_node true = (Ok (Some []), [request]) /\
  hub_verifies "node-7" "s3cret" request.
Proof.
  pose proof (doJSON_signed sample_decode sample_client sample_hub "POST" "/x" (Some (Ok "body")) sample_node) as T.
  assert (let p := doJSON sample_decode sample_client sample_hub "POST" "/x" (Some (Ok "body")) sample_node true in
          p.1 = Ok (Some []) /\ length p.2 = 1%nat) as [Hr Hs] by (vm_compute; split; reflexivity).
  destruct (doJSON sample_decode sample_client sample_hub "POST" "/x" (Some (Ok "body")) sample_node true) as [r s].
  cbn [fst snd] in Hr, Hs.
  subst r. destruct s as [|request [|]]; [discriminate Hs| |discriminate Hs].
  exists request. split; [done|]. destruct (T _ _ eq_refl) as (_ & _ & H).
  destruct (H request) as (_ & _ & _ & _ & HV); [left|]. exact (HV eq_refl).
Defined.

Definition input_of (method path : string) : SignatureInput := mkSignatureInput method path "2025-11-29T08:00:00Z" "00ff" "body".

Lemma CanonicalString_unambiguous_witness :
  TrimSpace (si_PathQuery (input_of "get" "/a?x=1 ")) = TrimSpace (si_PathQuery (input_of "GET" "/a?x=1")).
Proof.
  refine (proj1 (proj2 (CanonicalString_unambiguous (input_of "get" "/a?x=1 ") (input_of "GET" "/a?x=1") _ _))).
  - intros i [-> | ->]; unfold no_newline;
      repeat split; apply (bool_decide_unpack _); vm_compute; exact I.
  - vm_compute. reflexivity.
Defined.

Definition plain_client : HubClient :=
  mkHubClient [] [] true "AurenTransferAgent" (normalized_paths (mkEndpointPaths "" "" "" "" "")).

Lemma transfer_path_exact_witness :
  str (resolve plain_client (transferJobPath "3f2504e0-4f89-41d3-9a0c-0305e82c3301" "progress")) =
    "/api/internal/transfer-agent/jobs/3f2504e0-4f89-41d3-9a0c-0305e82c3301/progress".
Proof.
  apply (transfer_path_exact plain_client "3f2504e0-4f89-41d3-9a0c-0305e82c3301" "progress"); try (vm_compute; reflexivity).
  - apply Forall_forall. intros c Hc. apply list_elem_of_In in Hc. simpl in Hc.
    repeat destruct Hc as [<-|Hc]; [reflexivity..|destruct Hc].
  - right. left.
Defined.

(** ** Observations *)

(** The node secret itself goes with every signed request, so a signature adds nothing
    against someone who can read the traffic. *)
Theorem secret_sent_with_signature request state now clock nonce random request' :
  ApplyNodeAuthentication request state true now clock nonce random = Ok request' ->
  header_get HeaderNodeSecret (hq_Header request') = TrimSpace (NodeSecret state).
Proof.
  unfold ApplyNodeAuthentication. destruct (NodeEmpty state); [done|]. cbn [negb].
  intros H. apply bind_Ok in H as (n & _ & [= <-]). cbn [hq_Header]. by header_simpl.
Qed.

(** A job identifier is escaped for the path and then escaped again as part of it: the
    hub receives another identifier. *)
Theorem transfer_path_double_escaped :
  str (resolve plain_client (transferJobPath "job 1" "progress")) =
    "/api/internal/transfer-agent/jobs/job%25201/progress".
Proof. vm_compute. reflexivity. Qed.
