(* ===== verification/Connector.v ===== *)
(** * internal/mediahub/connector.go: registration and telemetry of the node

    The connector keeps the node's state in memory and in the state file (NodeState.v)
    and talks to the hub through the client (HubClient.v).  [Bootstrap] obtains
    credentials once; [PullConfig] follows the configuration version; the flushes send
    telemetry.  A world holds the memory, the files and the calls made so far.  Every
    operation is given what it meets outside: clock readings, file faults and the hub's
    answers.  The JSON codecs are parameters. *)
From Stdlib Require Import SpecFloat.
From S2P Require Import Prelude GoStrings GoTime GoJson GoFS DocStore IdentityStore NodeState Ops Transfer Download HubClient Heartbeat.

(** ** Payloads (payloads.go) *)
Record HubConfig := mkHubConfig {
  k_NodeUUID : string; k_NodeSecret : string; k_RegistrationToken : string; k_Role : string; k_Provider : string;
  k_Region : string; k_AvailabilityZone : string; k_PublicBaseURL : string; k_HealthURL : string;
  k_MaxSessions : Z; k_MaxConcurrentJobs : Z; k_MaxEgressMbps : Z; k_Capabilities : string; k_StatePath : string
}.

Record RegistrationPayload := mkRegistrationPayload {
  rp_RegistrationToken : string; rp_AgentID : string; rp_Fingerprint : string; rp_Hostname : string;
  rp_HostnameSource : string; rp_Version : string; rp_RuntimeStatus : string; rp_Role : string; rp_Provider : string;
  rp_Region : string; rp_AvailabilityZone : string; rp_PublicBaseURL : string; rp_HealthURL : string;
  rp_MaxSessions : Z; rp_MaxEgressMbps : Z; rp_Capabilities : list string; rp_Metadata : object
}.
Record HeartbeatPayload := mkHeartbeatPayload {
  hp_NodeUUID : string; hp_AgentID : string; hp_Fingerprint : string; hp_Hostname : string; hp_Version : string;
  hp_RuntimeStatus : string; hp_Status : string; hp_Role : string; hp_Provider : string; hp_Region : string;
  hp_AvailabilityZone : string; hp_PublicBaseURL : string; hp_HealthURL : string; hp_Capabilities : list string;
  hp_Capacity : Capacity; hp_Heartbeat : any; hp_GeneratedAt : Time; hp_Metadata : object
}.
Record MetricsPayload := mkMetricsPayload {
  mp_NodeUUID : string; mp_Runtime : VersionInfo; mp_Heartbeat : any; mp_Queue : any; mp_Download : any;
  mp_Capacity : Capacity; mp_Capabilities : list string; mp_GeneratedAt : Time; mp_Metadata : object
}.
Record EventsPayload := mkEventsPayload {
  ep_NodeUUID : string; ep_Events : list any; ep_GeneratedAt : Time; ep_Metadata : object
}.

(** The connector: configuration, identity, build, client, and the snapshot functions the
    bootstrap wires ([None] when it wires none). *)
Record Connector := mkConnector {
  k_cfg : HubConfig; k_identity : IdentitySnapshot; k_runtime : VersionInfo; k_client : HubClient;
  k_heartbeatSnapshot : option any; k_queueSnapshot : option any; k_downloadSnapshot : option any;
  k_eventsSnapshot : option (list any); k_capacitySnapshot : option Capacity
}.

Definition normalizedCapabilities (values : string) : list string := normalizedCSV values.
Definition snapshot (fn : option any) : any := default (AMap []) fn.
Definition connector_metadata : object := [("connector", AString "media_hub_v1")].

Definition capacity (k : Connector) : Capacity :=
  let cfg := k_cfg k in
  match k_capacitySnapshot k with
  | None => mkCapacity (k_MaxConcurrentJobs cfg) 0 (k_MaxSessions cfg) 0 (k_MaxEgressMbps cfg) 0
  | Some o =>
    mkCapacity (if 0 <? c_MaxConcurrentJobs o then c_MaxConcurrentJobs o else k_MaxConcurrentJobs cfg) (c_ActiveJobs o)
      (if 0 <? c_MaxSessions o then c_MaxSessions o else k_MaxSessions cfg) (c_ActiveSessions o)
      (if 0 <? c_MaxEgressMbps o then c_MaxEgressMbps o else k_MaxEgressMbps cfg) (c_CurrentEgressMbps o)
  end.

Definition registrationPayload (k : Connector) : RegistrationPayload :=
  let cfg := k_cfg k in let id := k_identity k in
  mkRegistrationPayload (TrimSpace (k_RegistrationToken cfg)) (id_AgentID id) (id_Fingerprint id) (id_Hostname id)
    (id_HostnameSource id) (v_Version (k_runtime k)) (v_Status (k_runtime k)) (k_Role cfg) (k_Provider cfg) (k_Region cfg)
    (k_AvailabilityZone cfg) (k_PublicBaseURL cfg) (k_HealthURL cfg) (k_MaxSessions cfg) (k_MaxEgressMbps cfg)
    (normalizedCapabilities (k_Capabilities cfg)) [("connector", AString "media_hub_v1"); ("agent_id", AString (id_AgentID id))].

Definition heartbeatPayload (k : Connector) (state : NodeState) (now : Time) : HeartbeatPayload :=
  let cfg := k_cfg k in let id := k_identity k in
  mkHeartbeatPayload (NodeUUID state) (id_AgentID id) (id_Fingerprint id) (id_Hostname id) (v_Version (k_runtime k))
    (v_Status (k_runtime k)) "ready" (k_Role cfg) (k_Provider cfg) (k_Region cfg) (k_AvailabilityZone cfg)
    (k_PublicBaseURL cfg) (k_HealthURL cfg) (normalizedCapabilities (k_Capabilities cfg)) (capacity k)
    (snapshot (k_heartbeatSnapshot k)) now connector_metadata.

Definition metricsPayload (k : Connector) (state : NodeState) (now : Time) : MetricsPayload :=
  mkMetricsPayload (NodeUUID state) (k_runtime k) (snapshot (k_heartbeatSnapshot k)) (snapshot (k_queueSnapshot k))
    (snapshot (k_downloadSnapshot k)) (capacity k) (normalizedCapabilities (k_Capabilities (k_cfg k))) now connector_metadata.

Definition eventsPayload (k : Connector) (state : NodeState) (now : Time) : EventsPayload :=
  mkEventsPayload (NodeUUID state) (default [] (k_eventsSnapshot k)) now connector_metadata.

(** ** Operations *)
Inductive call := CRegister | CConfig | CHeartbeat | CMetrics | CEvents.

Record kworld := mkWorld {
  w_state : NodeState; w_lastConfig : ConfigResult; w_fs : FS; w_sent : list (call * HubRequest)
}.

Definition note_sent (c : call) (requests : list HubRequest) (w : kworld) : kworld :=
  mkWorld (w_state w) (w_lastConfig w) (w_fs w) (w_sent w ++ map (pair c) requests).
Definition set_files (fs : FS) (w : kworld) : kworld := mkWorld (w_state w) (w_lastConfig w) fs (w_sent w).
Definition setState (state : NodeState) (w : kworld) : kworld := mkWorld state (w_lastConfig w) (w_fs w) (w_sent w).

Section Connector.
Context (marshal : NodeState -> result string) (unmarshal : string -> result NodeState)
        (decode : string -> result (option object))
        (encode_registration : RegistrationPayload -> result string)
        (encode_heartbeat : HeartbeatPayload -> result string)
        (encode_metrics : MetricsPayload -> result string)
        (encode_events : EventsPayload -> result string).

(** One save: the clock of the store, the faults and the temporary name. *)
Record save_env := mkSaveEnv { s_clock : Time; s_faults : write_faults; s_tmp : string }.

Definition save_state (k : Connector) (env : save_env) (state : NodeState) (w : kworld) : option error * kworld :=
  let '(err, states) := SaveNodeState marshal (k_StatePath (k_cfg k)) state (s_clock env) (s_faults env) (s_tmp env) (w_fs w) in
  (err, set_files (final_fs (w_fs w) states) w).

Record pull_env := mkPullEnv { pe_hub : hub_env; pe_now1 : Time; pe_now2 : Time; pe_save : save_env }.

(** The state a pull stores. *)
Definition pulled_state (env : pull_env) (result : ConfigResult) (state : NodeState) : NodeState :=
  mkNodeState (ns_SchemaVersion state) (NodeUUID state) (NodeSecret state)
    (if String.eqb (TrimSpace (cr_ConfigVersion result)) "" then ns_ConfigVersion state else TrimSpace (cr_ConfigVersion result))
    (ns_RegisteredAt state) (pe_now2 env) (pe_now1 env).

Definition PullConfig (k : Connector) (env : pull_env) (w : kworld) : option error * kworld :=
  let state := w_state w in
  if NodeEmpty state then (Some (Errorf "media hub node state is not initialized"), w) else
  let '(fetched, sent) := FetchConfig decode (k_client k) (pe_hub env) state in
  let w := note_sent CConfig sent w in
  match fetched with
  | Err e => (Some e, w)
  | Ok result =>
    let state := pulled_state env result state in
    let '(err, w) := save_state k (pe_save env) state w in
    match err with
    | Some e => (Some e, w)
    | None => (None, mkWorld state result (w_fs w) (w_sent w))
    end
  end.

Record flush_env := mkFlushEnv { fe_hub : hub_env; fe_now : Time }.

Definition flush (c : call) (k : Connector) (env : flush_env) (path : string) (body : result string) (w : kworld)
  : option error * kworld :=
  let '(err, sent) := post decode (k_client k) (fe_hub env) path body (w_state w) in
  (err, note_sent c sent w).
Definition FlushHeartbeat (k : Connector) (env : flush_env) (w : kworld) : option error * kworld :=
  flush CHeartbeat k env (p_Heartbeat (c_paths (k_client k))) (encode_heartbeat (heartbeatPayload k (w_state w) (fe_now env))) w.
Definition FlushMetrics (k : Connector) (env : flush_env) (w : kworld) : option error * kworld :=
  flush CMetrics k env (p_Metrics (c_paths (k_client k))) (encode_metrics (metricsPayload k (w_state w) (fe_now env))) w.
Definition FlushEvents (k : Connector) (env : flush_env) (w : kworld) : option error * kworld :=
  flush CEvents k env (p_Events (c_paths (k_client k))) (encode_events (eventsPayload k (w_state w) (fe_now env))) w.

Record bootstrap_env := mkBootstrapEnv {
  be_read : option error; be_now : Time; be_clock : Time; be_register : hub_env; be_save : save_env;
  be_pull : pull_env; be_heartbeat : flush_env; be_metrics : flush_env; be_events : flush_env
}.

(** The first half of [Bootstrap]: the state file, the configured credentials, or one
    registration. *)
Definition obtain_state (k : Connector) (env : bootstrap_env) (w : kworld) : result NodeState * kworld :=
  match LoadOrEmpty unmarshal (k_StatePath (k_cfg k)) (be_read env) (w_fs w) with
  | Err e => (Err e, w)
  | Ok (state, _) =>
    if negb (NodeEmpty state) then (Ok state, w) else
    let cfg := k_cfg k in
    let keep (fresh : result NodeState) (w : kworld) :=
      match fresh with
      | Err e => (Err e, w)
      | Ok state =>
        let '(err, w) := save_state k (be_save env) state w in
        match err with Some e => (Err e, w) | None => (Ok state, w) end
      end in
    if negb (String.eqb (TrimSpace (k_NodeUUID cfg)) "") && negb (String.eqb (TrimSpace (k_NodeSecret cfg)) "")
    then keep (NewNodeState (k_NodeUUID cfg) (k_NodeSecret cfg) "" (be_now env) (be_clock env)) w
    else
      let '(registered, sent) := RegisterNode decode (k_client k) (be_register env)
        (rp_RegistrationToken (registrationPayload k)) (encode_registration (registrationPayload k)) in
      let w := note_sent CRegister sent w in
      match registered with
      | Err e => (Err e, w)
      | Ok r => keep (NewNodeState (rr_NodeUUID r) (rr_NodeSecret r) (rr_ConfigVersion r) (be_now env) (be_clock env)) w
      end
  end.

(** [Bootstrap]: the state it returns, its error, and the world. *)
Definition Bootstrap (k : Connector) (env : bootstrap_env) (w : kworld) : (NodeState * option error) * kworld :=
  match obtain_state k env w with
  | (Err e, w) => ((empty_state, Some e), w)
  | (Ok state, w) =>
    let w := setState state w in
    match PullConfig k (be_pull env) w with
    | (Some e, w) => ((state, Some e), w)
    | (None, w) =>
      match FlushHeartbeat k (be_heartbeat env) w with
      | (Some e, w) => ((state, Some e), w)
      | (None, w) =>
        match FlushMetrics k (be_metrics env) w with
        | (Some e, w) => ((state, Some e), w)
        | (None, w) =>
          match FlushEvents k (be_events env) w with
          | (Some e, w) => ((state, Some e), w)
          | (None, w) => ((w_state w, None), w)
          end
        end
      end
    end
  end.

(** ** The credentials are obtained once *)

(** The codec reads back a state it wrote. *)
Definition codec (state : NodeState) : Prop :=
  forall payload, marshal state = Ok payload -> unmarshal (payload +:+ newline) = Ok state.

Definition same_node (a b : NodeState) : Prop :=
  NodeUUID a = NodeUUID b /\ NodeSecret a = NodeSecret b /\ ns_RegisteredAt a = ns_RegisteredAt b.

(** The state file holds a state of the node [s], and the memory is empty or equal to it. *)
Definition holds (k : Connector) (s : NodeState) (w : kworld) : Prop :=
  exists state, LoadOrEmpty unmarshal (k_StatePath (k_cfg k)) None (w_fs w) = Ok (state, true) /\
    same_node s state /\ (w_state w = empty_state \/ w_state w = state).

Definition registrations (w : kworld) : nat :=
  length (List.filter (fun p => match p.1 with CRegister => true | _ => false end) (w_sent w)).

(** A temporary name no file has. *)
Definition fresh (k : Connector) (env : save_env) (fs : FS) : Prop :=
  s_tmp env <> k_StatePath (k_cfg k) /\ fs !! s_tmp env = None.

Lemma registrations_note c sent w : c <> CRegister -> registrations (note_sent c sent w) = registrations w.
Proof.
  intros Hc. unfold registrations, note_sent. cbn [w_sent]. rewrite List.filter_app, length_app.
  assert (List.filter (fun p : call * HubRequest => match p.1 with CRegister => true | _ => false end) (map (pair c) sent) = []) as ->.
  { induction sent as [|r sent IH]; [done|]. cbn. destruct c; done. }
  simpl. lia.
Qed.

Lemma save_state_spec k env state w err w' : save_state k env state w = (err, w') -> fresh k env (w_fs w) ->
  w_state w' = w_state w /\ w_lastConfig w' = w_lastConfig w /\ w_sent w' = w_sent w /\
  match err with
  | Some _ => w_fs w' = w_fs w
  | None => IsZero (ns_UpdatedAt state) = false -> codec state ->
            LoadOrEmpty unmarshal (k_StatePath (k_cfg k)) None (w_fs w') = Ok (state, true) /\
            forall p, p <> k_StatePath (k_cfg k) -> w_fs w' !! p = w_fs w !! p
  end.
Proof.
  unfold save_state. intros H [Hne Ht].
  destruct (SaveNodeState _ _ _ _ _ _ _) as [e states] eqn:HS. injection H as <- <-. cbn.
  split_and!; [done..|]. pose proof HS as HS'. unfold SaveNodeState in HS'.
  set (st := if IsZero _ then _ else _) in HS'.
  pose proof (save_document_final marshal (k_StatePath (k_cfg k)) st (s_faults env) (s_tmp env) (w_fs w) Hne Ht) as HF.
  rewrite HS' in HF. destruct e as [e|]; [exact HF|]. intros Hz Hc.
  split; [by apply (LoadOrEmpty_saved marshal unmarshal _ _ _ _ _ _ _ HS Hz Hne Ht)|].
  destruct HF as (_ & _ & payload & _ & ->). intros p Hp. by rewrite lookup_insert_ne.
Qed.

Lemma flush_spec c k env path body w err w' : flush c k env path body w = (err, w') -> c <> CRegister ->
  w_state w' = w_state w /\ w_fs w' = w_fs w /\ registrations w' = registrations w.
Proof.
  unfold flush. intros H Hc. destruct (post _ _ _ _ _ _) as [e sent]. injection H as <- <-.
  split_and!; [done..|by apply registrations_note].
Qed.

(** A pull that fails changes neither memory nor files; one that succeeds leaves the same
    node, the answered version, and memory equal to the file. *)
Theorem PullConfig_spec k env w err w' : PullConfig k env w = (err, w') ->
  fresh k (pe_save env) (w_fs w) -> pe_now2 env <> 0 ->
  (forall result, codec (pulled_state env result (w_state w))) ->
  registrations w' = registrations w /\
  match err with
  | Some _ => w_state w' = w_state w /\ w_fs w' = w_fs w
  | None => same_node (w_state w) (w_state w') /\ NodeEmpty (w_state w') = false /\
            LoadOrEmpty unmarshal (k_StatePath (k_cfg k)) None (w_fs w') = Ok (w_state w', true) /\
            (TrimSpace (cr_ConfigVersion (w_lastConfig w')) <> "" ->
             ns_ConfigVersion (w_state w') = TrimSpace (cr_ConfigVersion (w_lastConfig w'))) /\
            forall p, p <> k_StatePath (k_cfg k) -> w_fs w' !! p = w_fs w !! p
  end.
Proof.
  unfold PullConfig. intros H Hf Hn Hc. destruct (NodeEmpty (w_state w)) eqn:HE; [by simplify_eq|].
  destruct (FetchConfig _ _ _ _) as [[result|e] sent]; [|injection H as <- <-; by rewrite registrations_note].
  destruct (save_state k (pe_save env) (pulled_state env result (w_state w)) (note_sent CConfig sent w)) as [e w1] eqn:HS.
  destruct (save_state_spec _ _ _ _ _ _ HS Hf) as (H1 & H2 & H3 & H4).
  assert (registrations w1 = registrations w) as HR.
  { rewrite <- (registrations_note CConfig sent w) by done. unfold registrations. by rewrite H3. }
  destruct e as [e|]; injection H as <- <-; [by rewrite HR, H1, H4|].
  destruct H4 as [H4 H5]; [unfold IsZero, pulled_state; cbn [ns_UpdatedAt]; lia|apply Hc|].
  cbn [w_state w_fs w_sent w_lastConfig]. split; [exact HR|]. split_and!; [done..| |exact H4| |exact H5].
  - exact HE.
  - intros Hv. cbn. by destruct (String.eqb_spec (TrimSpace (cr_ConfigVersion result)) "").
Qed.

(** One step in the life of a node that has its credentials: a pull or a flush of the
    running process, or a restart of the process on the files it finds. *)
Inductive life (k : Connector) (w : kworld) : kworld -> Prop :=
| life_pull env : fresh k (pe_save env) (w_fs w) -> pe_now2 env <> 0 ->
    (forall result, codec (pulled_state env result (w_state w))) ->
    life k w (PullConfig k env w).2
| life_heartbeat env : life k w (FlushHeartbeat k env w).2
| life_metrics env : life k w (FlushMetrics k env w).2
| life_events env : life k w (FlushEvents k env w).2
| life_restart env :
    from_option (fun e => negb (IsNotExist e)) true (be_read env) = true ->
    fresh k (pe_save (be_pull env)) (w_fs w) -> pe_now2 (be_pull env) <> 0 ->
    (forall result state, codec (pulled_state (be_pull env) result state)) ->
    life k w (Bootstrap k env (setState empty_state w)).2.

Lemma holds_pull k s w env : holds k s w -> fresh k (pe_save env) (w_fs w) -> pe_now2 env <> 0 ->
  (forall result, codec (pulled_state env result (w_state w))) ->
  holds k s (PullConfig k env w).2 /\ registrations (PullConfig k env w).2 = registrations w.
Proof.
  intros (state & HL & HS & HM) Hf Hn Hc. destruct (PullConfig k env w) as [err w'] eqn:HP.
  destruct (PullConfig_spec _ _ _ _ _ HP Hf Hn Hc) as [HR H]. split; [|exact HR]. cbn [snd].
  destruct err as [e|].
  - destruct H as [H1 H2]. exists state. by rewrite H1, H2.
  - destruct H as (H1 & H2 & H3 & _). exists (w_state w'). split; [exact H3|]. split; [|by right].
    destruct HM as [HM|HM].
    + unfold PullConfig in HP. rewrite HM in HP. by simplify_eq.
    + rewrite HM in H1. unfold same_node in *. intuition congruence.
Qed.

Lemma holds_same k s w w' : holds k s w -> w_state w' = w_state w -> w_fs w' = w_fs w -> holds k s w'.
Proof. intros (state & ? & ? & ?) E1 E2. exists state. by rewrite E1, E2. Qed.

(** With the state file in place a restart asks the hub for no credentials. *)
Lemma obtain_stored k s w env : holds k s w ->
  from_option (fun e => negb (IsNotExist e)) true (be_read env) = true ->
  (exists e, obtain_state k env (setState empty_state w) = (Err e, setState empty_state w)) \/
  exists state, obtain_state k env (setState empty_state w) = (Ok state, setState empty_state w) /\ holds k s (setState state w).
Proof.
  intros (state & HL & HS & HM) Hr. unfold obtain_state. cbn [w_fs setState].
  destruct (be_read env) as [e|].
  - left. unfold LoadOrEmpty, LoadState, load_document in HL |- *.
    destruct (String.eqb (TrimSpace _) ""); [by eexists|]. cbn [ReadFile].
    assert (errors_Is (Wrapf ("load " +:+ doc_kind (A := NodeState) +:+ " " +:+ k_StatePath (k_cfg k) +:+ ": " +:+
      Error (path_error "open" (k_StatePath (k_cfg k)) e)) (path_error "open" (k_StatePath (k_cfg k)) e)) os_ErrNotExist = false) as ->.
    { cbn [errors_Is path_error]. rewrite !bool_decide_false by done. cbn [orb]. apply negb_true_iff. exact Hr. }
    by eexists.
  - right. rewrite HL. pose proof (LoadOrEmpty_valid _ _ _ _ _ HL) as HV. apply ValidateState_ok in HV as (_ & HE & _).
    rewrite HE. exists state. split; [done|]. exists state. by split_and!; [|done|right].
Qed.

Lemma life_step k s w w' : holds k s w -> life k w w' -> holds k s w' /\ registrations w' = registrations w.
Proof.
  intros HH HL. destruct HL as [env Hf Hn Hc|env|env|env|env Hr Hf Hn Hc]; [by apply holds_pull|..].
  1-3: unfold FlushHeartbeat, FlushMetrics, FlushEvents;
    match goal with |- context [flush ?c ?k ?e ?p ?b ?v] => destruct (flush c k e p b v) as [err w1] eqn:HF end;
    apply flush_spec in HF as (H1 & H2 & H3); [|done]; (split; [by eapply holds_same|done]).
  unfold Bootstrap. destruct (obtain_stored k s w env HH Hr) as [[e ->]|(state & -> & HH1)]; cbn [snd].
  { destruct HH as (state & ? & ? & ?). split; [|done]. exists state. by split_and!; [..|left]. }
  set (w1 := setState state (setState empty_state w)).
  assert (holds k s w1) as HH1' by (eapply holds_same; [exact HH1|done..]).
  destruct (holds_pull k s w1 (be_pull env) HH1' Hf Hn (fun r => Hc r _)) as [HH2 HR2].
  destruct (PullConfig k (be_pull env) w1) as [[e|] w2]; cbn [snd] in *; [by split|].
  destruct (FlushHeartbeat k (be_heartbeat env) w2) as [[e|] w3] eqn:F1; apply flush_spec in F1 as (A1 & A2 & A3); try done;
    cbn [snd]; (assert (holds k s w3) as HH3 by (by eapply holds_same)); [by split; [|rewrite A3]|].
  destruct (FlushMetrics k (be_metrics env) w3) as [[e|] w4] eqn:F2; apply flush_spec in F2 as (B1 & B2 & B3); try done;
    cbn [snd]; (assert (holds k s w4) as HH4 by (by eapply holds_same)); [by split; [|rewrite B3, A3]|].
  destruct (FlushEvents k (be_events env) w4) as [[e|] w5] eqn:F3; apply flush_spec in F3 as (C1 & C2 & C3); try done;
    cbn [snd]; (assert (holds k s w5) as HH5 by (by eapply holds_same)); split; try done; by rewrite C3, B3, A3.
Qed.

(** The first half of a bootstrap leaves the state it found or obtained in the file. *)
Lemma obtain_holds k env w state w' : obtain_state k env w = (Ok state, w') ->
  fresh k (be_save env) (w_fs w) -> or_now (be_now env) (be_clock env) <> 0 ->
  (forall uuid secret version s, NewNodeState uuid secret version (be_now env) (be_clock env) = Ok s -> codec s) ->
  NodeEmpty state = false /\ LoadOrEmpty unmarshal (k_StatePath (k_cfg k)) None (w_fs w') = Ok (state, true) /\
  (registrations w' <= registrations w + 1)%nat /\
  forall p, p <> k_StatePath (k_cfg k) -> w_fs w' !! p = w_fs w !! p.
Proof.
  unfold obtain_state. intros H Hf Hn Hc.
  assert (forall fresh_state w1 w2, fresh_state = Ok state ->
    (forall s, fresh_state = Ok s -> exists uuid secret version, NewNodeState uuid secret version (be_now env) (be_clock env) = Ok s) ->
    save_state k (be_save env) state w1 = (None, w2) -> w_fs w1 = w_fs w ->
    NodeEmpty state = false /\ LoadOrEmpty unmarshal (k_StatePath (k_cfg k)) None (w_fs w2) = Ok (state, true) /\
    registrations w2 = registrations w1 /\ forall p, p <> k_StatePath (k_cfg k) -> w_fs w2 !! p = w_fs w !! p) as HK.
  { intros fs0 w1 w2 -> HN HS Hw. destruct (HN state eq_refl) as (u & se & v & HNew).
    pose proof (NewNodeState_valid _ _ _ _ _ _ HNew) as HV. apply ValidateState_ok in HV as (_ & HE & _ & HU & _).
    assert (fresh k (be_save env) (w_fs w1)) as Hf1 by (by rewrite Hw).
    destruct (save_state_spec _ _ _ _ _ _ HS Hf1) as (_ & _ & H3 & H4).
    destruct H4 as [H4 H5]; [unfold IsZero; lia|by eapply Hc|].
    split_and!; [done|done|unfold registrations; by rewrite H3|]. intros p Hp. by rewrite H5, Hw. }
  destruct (LoadOrEmpty unmarshal (k_StatePath (k_cfg k)) (be_read env) (w_fs w)) as [[found b]|e] eqn:HL; [|done].
  destruct (NodeEmpty found) eqn:HE; cbn [negb] in H.
  2: { injection H as -> ->. assert (b = true /\ be_read env = None) as [-> Hr].
       { unfold LoadOrEmpty, LoadState, load_document in HL. destruct (String.eqb _ ""); [done|].
         destruct (be_read env) as [e|]; cbn [ReadFile] in HL.
         - destruct (errors_Is _ _); [|done]. injection HL as <- <-. done.
         - split; [|done]. destruct (_ : result NodeState) as [s0|e0]; [by injection HL|].
           destruct (errors_Is _ _); [|done]. injection HL as <- <-. done. }
       rewrite Hr in HL. split_and!; [done|done|lia|done]. }
  destruct (negb _ && negb _).
  - destruct (NewNodeState _ _ _ _ _) as [s0|] eqn:HN; [|done].
    destruct (save_state k (be_save env) s0 w) as [[e|] w2] eqn:HS; [done|]. injection H as -> ->.
    destruct (HK (Ok state) w w' eq_refl) as (K1 & K2 & K3 & K4); [|done|done|].
    { intros s1 [= <-]. eauto. }
    split_and!; [done|done|lia|done].
  - destruct (RegisterNode _ _ _ _ _) as [[r|e] sent] eqn:HR; [|done].
    destruct (NewNodeState (rr_NodeUUID r) _ _ _ _) as [s0|] eqn:HN; [|done].
    destruct (save_state k (be_save env) s0 (note_sent CRegister sent w)) as [[e|] w2] eqn:HS; [done|]. injection H as -> ->.
    destruct (HK (Ok state) (note_sent CRegister sent w) w' eq_refl) as (K1 & K2 & K3 & K4); [|done|done|].
    { intros s1 [= <-]. eauto. }
    split_and!; [done|done| |done]. rewrite K3. unfold registrations, note_sent. cbn [w_sent].
    rewrite List.filter_app, length_app.
    assert (length sent <= 1)%nat as Hs.
    { unfold RegisterNode in HR. destruct (String.eqb _ ""); [done|].
      destruct (doJSON _ _ _ _ _ _ _ _) as [r0 s1] eqn:HD. injection HR as _ <-.
      destruct (doJSON_sent _ _ _ _ _ _ _ _ _ _ HD) as [[-> _]|(? & ? & -> & _)]; simpl; lia. }
    pose proof (List.filter_length_le (fun p : call * HubRequest => match p.1 with CRegister => true | _ => false end)
      (map (pair CRegister) sent)) as HB. rewrite length_map in HB. lia.
Qed.

(** A bootstrap that reports a node leaves it in the file, after at most one registration. *)
Lemma bootstrap_holds k env w state err w1 :
  Bootstrap k env (setState empty_state w) = ((state, err), w1) -> NodeEmpty state = false ->
  fresh k (be_save env) (w_fs w) -> fresh k (pe_save (be_pull env)) (w_fs w) ->
  or_now (be_now env) (be_clock env) <> 0 -> pe_now2 (be_pull env) <> 0 ->
  (forall uuid secret version s, NewNodeState uuid secret version (be_now env) (be_clock env) = Ok s -> codec s) ->
  (forall result s, codec (pulled_state (be_pull env) result s)) ->
  holds k state w1 /\ (registrations w1 <= registrations w + 1)%nat.
Proof.
  intros HB HE Hf1 Hf2 Hn1 Hn2 Hc1 Hc2.
  unfold Bootstrap in HB. destruct (obtain_state k env (setState empty_state w)) as [[s0|e] w0] eqn:HO; [|by injection HB as <- <- <-].
  destruct (obtain_holds _ _ _ _ _ HO Hf1 Hn1 Hc1) as (K1 & K2 & K3 & K4).
  change (registrations (setState empty_state w)) with (registrations w) in K3.
  set (wa := setState s0 w0) in HB.
  assert (holds k s0 wa) as Ha by (exists s0; by split_and!; [|done|right]).
  assert (fresh k (pe_save (be_pull env)) (w_fs wa)) as Hfa.
  { destruct Hf2 as [F1 F2]. split; [done|]. unfold wa. cbn [w_fs setState]. rewrite K4 by done. exact F2. }
  change (registrations w0) with (registrations wa) in K3.
  destruct (PullConfig k (be_pull env) wa) as [e wb] eqn:HP.
  destruct (PullConfig_spec _ _ _ _ _ HP Hfa Hn2 (fun r => Hc2 r _)) as [RP SP].
  pose proof (holds_pull k s0 wa (be_pull env) Ha Hfa Hn2 (fun r => Hc2 r _)) as [Hb _]. rewrite HP in Hb. cbn [snd] in Hb.
  assert (forall s', holds k s0 s' -> same_node s0 state -> holds k state s') as Hmove.
  { intros s' (st & X1 & X2 & X3) Hsm. exists st. split_and!; [done| |done]. unfold same_node in *. intuition congruence. }
  destruct e as [e|]; [injection HB as <- <- <-; split; [done|lia]|].
  destruct SP as (SP1 & SP2 & _).
  destruct (FlushHeartbeat k (be_heartbeat env) wb) as [e wc] eqn:F1. apply flush_spec in F1 as (A1 & A2 & A3); [|done].
  assert (holds k s0 wc) as HC by (by eapply holds_same).
  destruct e as [e|]; [injection HB as <- <- <-; split; [done|lia]|].
  destruct (FlushMetrics k (be_metrics env) wc) as [e wd] eqn:F2. apply flush_spec in F2 as (B1 & B2 & B3); [|done].
  assert (holds k s0 wd) as HD by (by eapply holds_same).
  destruct e as [e|]; [injection HB as <- <- <-; split; [done|lia]|].
  destruct (FlushEvents k (be_events env) wd) as [e we] eqn:F3. apply flush_spec in F3 as (C1 & C2 & C3); [|done].
  assert (holds k s0 we) as HEe by (by eapply holds_same).
  destruct e as [e|]; injection HB as <- <- <-; [split; [done|lia]|].
  split; [|lia]. apply Hmove; [done|]. by rewrite C1, B1, A1.
Qed.

(** C11: once a bootstrap has reported a node, the node keeps its credentials: through any
    number of pulls, flushes and restarts, with any answers of the hub and any failing
    system calls, the state file holds the same identifier and secret, and the hub is
    never asked to register the agent again. *)
Theorem node_keeps_credentials k env w state err w1 w2 :
  Bootstrap k env (setState empty_state w) = ((state, err), w1) -> NodeEmpty state = false ->
  fresh k (be_save env) (w_fs w) -> fresh k (pe_save (be_pull env)) (w_fs w) ->
  or_now (be_now env) (be_clock env) <> 0 -> pe_now2 (be_pull env) <> 0 ->
  (forall uuid secret version s, NewNodeState uuid secret version (be_now env) (be_clock env) = Ok s -> codec s) ->
  (forall result s, codec (pulled_state (be_pull env) result s)) ->
  rtc (life k) w1 w2 ->
  (exists stored, LoadOrEmpty unmarshal (k_StatePath (k_cfg k)) None (w_fs w2) = Ok (stored, true) /\ same_node state stored) /\
  registrations w2 = registrations w1 /\ (registrations w1 <= registrations w + 1)%nat.
Proof.
  intros HB HE Hf1 Hf2 Hn1 Hn2 Hc1 Hc2 HL.
  destruct (bootstrap_holds _ _ _ _ _ _ HB HE Hf1 Hf2 Hn1 Hn2 Hc1 Hc2) as [HH HR].
  clear HB. assert (holds k state w2 /\ registrations w2 = registrations w1) as [HH2 HR2].
  { induction HL as [|x y z Hs _ IH]; [done|]. destruct (life_step k state x y HH Hs) as [Hy Ry].
    destruct IH as [Hz Rz]; [done|lia|]. split; [done|lia]. }
  split_and!; [|done|done]. destruct HH2 as (st & X1 & X2 & _). by exists st.
Qed.
End Connector.

(** ** Example: a registration, a pull and a restart *)
#[global] Instance NodeState_eq_dec : EqDecision NodeState.
Proof. solve_decision. Defined.

Definition cfg0 : HubConfig := mkHubConfig "" "" "token" "edge" "aws" "sa" "" "" "" 10 2 100 "Transfer, gateway transfer" "data/media-hub/node.json".
Definition connector0 : Connector :=
  mkConnector cfg0 (mkIdentitySnapshot "" "" "" "" "" "" "" "") runtime_Info plain_client None None None None None.
Definition answer (body : string) : hub_env := mkHubEnv None 9 9 (Ok []) (fun _ => Ok (mkHubResponse 200 body None)).
Definition decode0 (s : string) : result (option object) :=
  if String.eqb s "reg" then Ok (Some [("node", AMap [("uuid", AString "node-7"); ("secret", AString "s3cret")])])
  else Ok (Some [("config_version", AString "v2")]).
Definition pull0 : pull_env := mkPullEnv (answer "cfg") 8 9 (mkSaveEnv 1 no_faults "data/media-hub/.2.tmp").
Definition boot0 : bootstrap_env :=
  mkBootstrapEnv None 7 7 (answer "reg") (mkSaveEnv 1 no_faults "data/media-hub/.1.tmp") pull0
    (mkFlushEnv (answer "ok") 9) (mkFlushEnv (answer "ok") 9) (mkFlushEnv (answer "ok") 9).
Definition state1 : NodeState := mkNodeState 1 "node-7" "s3cret" "" 7 7 0.
Definition state2 : NodeState := mkNodeState 1 "node-7" "s3cret" "v2" 7 9 8.
Definition marshal0 (s : NodeState) : result string :=
  if decide (s = state1) then Ok "1" else if decide (s = state2) then Ok "2" else Err (Errorf "unsupported value").
Definition unmarshal0 (s : string) : result NodeState :=
  if String.eqb s ("1" +:+ newline) then Ok state1 else if String.eqb s ("2" +:+ newline) then Ok state2
  else Err (Errorf "unexpected end of JSON input").
Definition body0 {A} (_ : A) : result string := Ok "{}".
Definition world0 : kworld := mkWorld empty_state (mkConfigResult "" []) ∅ [].
Definition boot_run (w : kworld) : (NodeState * option error) * kworld :=
  Bootstrap marshal0 unmarshal0 decode0 body0 body0 body0 body0 connector0 boot0 w.

Lemma codec0 s : codec marshal0 unmarshal0 s.
Proof.
  intros payload. unfold marshal0. case_decide as E1; [by intros [= <-]; subst|].
  case_decide as E2; [by intros [= <-]; subst|done].
Qed.

Lemma node_keeps_credentials_witness :
  let w1 := (boot_run (setState empty_state world0)).2 in
  let w2 := (boot_run (setState empty_state w1)).2 in
  registrations w1 = 1%nat /\ registrations w2 = 1%nat.
Proof.
  intros w1 w2. assert (registrations w1 = 1%nat) as H1 by (vm_compute; reflexivity). split; [exact H1|].
  destruct (boot_run (setState empty_state world0)) as [[st err] wa] eqn:E. cbn [snd] in w1.
  assert (NodeEmpty st = false) as HE.
  { change st with (st, err, wa).1.1. rewrite <- E. vm_compute. reflexivity. }
  assert (w_fs w1 !! s_tmp (pe_save pull0) = None) as Hn.
  { change w1 with (st, err, wa).2. rewrite <- E. vm_compute. reflexivity. }
  destruct (node_keeps_credentials marshal0 unmarshal0 decode0 body0 body0 body0 body0 connector0 boot0 world0 st err w1 w2 E HE)
    as (_ & HR & _).
  - split; [discriminate|reflexivity].
  - split; [discriminate|reflexivity].
  - discriminate.
  - discriminate.
  - intros. apply codec0.
  - intros. apply codec0.
  - apply rtc_once. apply (life_restart _ _ _ _ _ _ _ _ _ boot0).
    + reflexivity.
    + split; [discriminate|exact Hn].
    + discriminate.
    + intros. apply codec0.
  - rewrite HR. exact H1.
Defined.

Lemma PullConfig_spec_witness :
  let w := mkWorld state1 (mkConfigResult "" []) ∅ [] in
  let '(err, w') := PullConfig marshal0 decode0 connector0 pull0 w in
  err = None /\ ns_ConfigVersion (w_state w') = "v2".
Proof.
  intros w. destruct (PullConfig marshal0 decode0 connector0 pull0 w) as [err w'] eqn:E.
  assert (err = None) as ->.
  { change err with (err, w').1. rewrite <- E. vm_compute. reflexivity. }
  split; [reflexivity|].
  assert (cr_ConfigVersion (w_lastConfig w') = "v2") as HV.
  { change w' with (@None error, w').2. rewrite <- E. vm_compute. reflexivity. }
  destruct (PullConfig_spec marshal0 unmarshal0 decode0 connector0 pull0 w None w' E) as (_ & _ & _ & _ & H & _).
  - split; [discriminate|reflexivity].
  - discriminate.
  - intros. apply codec0.
  - rewrite HV in H. rewrite H by discriminate. vm_compute. reflexivity.
Defined.

(** ** Observation

    A registration whose credentials cannot be stored is lost: the bootstrap reports an
    error and keeps nothing, so the next start needs another registration. *)
Definition full_disk : write_faults := mkFaults None None (Some (Errorf "no space left on device")) 0 None None None.
Definition unlucky_boot : bootstrap_env :=
  mkBootstrapEnv None 7 7 (answer "reg") (mkSaveEnv 1 full_disk "data/media-hub/.1.tmp") pull0
    (mkFlushEnv (answer "ok") 9) (mkFlushEnv (answer "ok") 9) (mkFlushEnv (answer "ok") 9).

Theorem unsaved_registration_is_lost :
  let '((state, err), w) := Bootstrap marshal0 unmarshal0 decode0 body0 body0 body0 body0 connector0 unlucky_boot world0 in
  NodeEmpty state = true /\ is_Some err /\ registrations w = 1%nat /\ NodeEmpty (w_state w) = true /\ w_fs w = ∅.
Proof. vm_compute. split_and!; try reflexivity. eexists. reflexivity. Qed.
