(* ===== verification/Executor.v ===== *)
(** * The transfer executor

    Models internal/transfer/executor.go: one Media Hub job from its admission to
    the final callback.  The environment record holds what the outside world
    answers: clock readings, system calls, the HTTP server, the adapters that talk
    to remote stores, and the callbacks.  The executor's own effects are a state
    monad over the files, the tracker, the job's local state and the callbacks
    sent.  The two goroutines beside it are in Background.v; here the one that polls
    for operator control appears as the error it leaves in its channel. *)
From Stdlib Require Import SpecFloat.
From S2P Require Import Prelude GoStrings GoPath GoMime GoCrypto GoFloat GoTime GoFS Ranges Upload Storage Download Ops Transfer.

(** ** Helpers *)
Definition objectPath (d : TransferDestination) : string :=
  if negb (String.eqb (TrimSpace (ObjectPath d)) "")
  then TrimLeftChar slash (slashes (TrimSpace (ObjectPath d))) else
  let dir := TrimChar slash (slashes (DirectoryPath d)) in
  let relative := TrimChar slash (slashes (RelativePath d)) in
  let relative := if String.eqb relative "" then "payload.bin" else relative in
  if String.eqb dir "" then relative else Join2 dir relative.

Definition shouldBlockHTML (job : TransferJob) (defaultBlock : bool) (contentType : string) : bool :=
  if negb (defaultBlock || BlockHTML (Source job)) then false else
  let mediaType := match ParseMediaType contentType with
                   | Some m => m
                   | None => ToLower (TrimSpace contentType)
                   end in
  String.eqb mediaType "text/html" || String.eqb mediaType "application/xhtml+xml".

Definition minBytes (job : TransferJob) (fallback : Z) : Z :=
  if 0 <? MinBytes (Source job) then MinBytes (Source job) else fallback.

Definition contentTotal (contentLength existing : Z) : Z :=
  if contentLength <=? 0 then 0 else wrap64 (contentLength + existing).

Definition progressPercent (current total : Z) : spec_float :=
  if total <=? 0 then fzero else fmul (fdiv (float64 current) (float64 total)) (float64 100).

Definition leaseRenewalInterval (job : TransferJob) (fallback : string) : Duration :=
  let d := Z.quot (wrap64 (HeartbeatSeconds (Control job) * second)) 2 in
  if (0 <? HeartbeatSeconds (Control job)) && (0 <? d) then d else parseDurationOr fallback (30 * second).

Definition progressInterval (job : TransferJob) (fallback : string) : Duration :=
  if 0 <? ProgressEventSeconds (Control job) then wrap64 (ProgressEventSeconds (Control job) * second)
  else parseDurationOr fallback (5 * second).

Definition uploadPartSizeBytes (value : string) : Z :=
  match ParsePartSize value with
  | Ok parsed => if parsed <=? 0 then 16 * 1024 * 1024 else parsed
  | Err _ => 16 * 1024 * 1024
  end.

Definition preferControlError (err : error) (control : option error) : error := default err control.

(** ** The world *)
Record TransferObjectResult := mkObject {
  ob_Driver : string; ob_BucketUUID : string; ob_Bucket : string; ob_ObjectUUID : string; ob_Path : string;
  ob_URL : string; ob_Size : Z; ob_ChecksumSHA256 : string; ob_Visibility : string; ob_MimeType : string;
  ob_Multipart : bool; ob_Metadata : gmap string string
}.

(** The callbacks to the hub, with the fields the properties speak about. *)
Inductive callback :=
| CbStarted
| CbProgress (stage : string) (current total : Z)
| CbCompleted (bytes : Z) (checksum : string) (destination : TransferObjectResult)
| CbFailed (stage : string) (err : string)
| CbReleased (reason message : string).

Record response := mkResponse {
  StatusCode : Z; ContentType : string; ContentLength : Z; Body : string; EffectiveURL : option string
}.

(** What the outside world answers during one download. *)
Record download_env := mkDownloadEnv {
  d_resolver : option (result string);
  d_mkdir : option error;
  d_stat : option stat_result;
  d_check : string -> string -> option error;
  d_server : request_parts -> result response;
  d_open : option error;
  d_copy : copy_fault;
  d_ticks : list (Z * Z);
  d_close : option error;
  d_rename : option error;
  d_sum_open : option error;
  d_sum_read : option error
}.

Record save_fault := mkSaveFault { s_mkdir : option error; s_open : option error; s_write : option (nat * error) }.

(** What an adapter tells the executor while it works. *)
Record UploadProgress := mkUploadProgress {
  pg_Stage : string; pg_CurrentBytes : Z; pg_TotalBytes : Z; pg_SpeedBps : Z; pg_Percent : spec_float; pg_Message : string
}.

(** The request to a signed address. *)
Record SignedRequest := mkSignedRequest {
  sg_URL : string; sg_Header : HeaderSet; sg_ContentLength : Z; sg_Body : string
}.

(** [e_remote] is an upload to S3 or to Auren Storage: what it reports and its result, from
    the files and the request.  [e_signed] are the errors of opening and measuring the source
    and of creating the request, and the answer: its status and Location. *)
Record exec_env := mkExecEnv {
  e_clock : nat -> Time;
  e_save : nat -> save_fault;
  e_marshal : JobState -> result string;
  e_send : callback -> option error;
  e_ops : ops_env;
  e_control : option error;
  e_download : download_env;
  e_upload : upload_env;
  e_remote : FS -> UploadRequest -> list UploadProgress * result UploadResult;
  e_signed : option error * option error * option error * (SignedRequest -> result (Z * string));
  e_letter_marshal : DeadLetter string -> result string;
  e_letter : option error * option error * option (nat * error);
  e_rand : string
}.

(** The executor: its settings and its parts. *)
Record Executor := mkExecutor {
  x_WorkDir : string; x_BlockHTML : bool; x_MinBytes : Z; x_ResumeEnabled : bool; x_Bucket : string; x_TokenHeader : string;
  x_localAdapter : LocalUploader; x_stateStore : StateStore; x_operations : option Runtime;
  x_callbacks : bool
}.

Record world := mkWorld {
  w_fs : FS; w_tracker : Tracker; w_state : JobState; w_sent : list callback; w_reads : nat; w_saves : nat
}.

Definition set_fs (fs : FS) (w : world) : world :=
  mkWorld fs (w_tracker w) (w_state w) (w_sent w) (w_reads w) (w_saves w).
Definition set_tracker (t : Tracker) (w : world) : world :=
  mkWorld (w_fs w) t (w_state w) (w_sent w) (w_reads w) (w_saves w).
Definition set_state (s : JobState) (w : world) : world :=
  mkWorld (w_fs w) (w_tracker w) s (w_sent w) (w_reads w) (w_saves w).

(** ** The monads

    [M] threads the world; [E] also stops at the first error. *)
Definition M (A : Type) : Type := world -> A * world.
Definition E (A : Type) : Type := world -> result A * world.
#[global] Instance M_ret : MRet M := fun A a w => (a, w).
#[global] Instance M_bind : MBind M := fun A B f m w => let '(a, w) := m w in f a w.
#[global] Instance E_ret : MRet E := fun A a w => (Ok a, w).
#[global] Instance E_bind : MBind E := fun A B f m w =>
  match m w with (Ok a, w) => f a w | (Err e, w) => (Err e, w) end.

Definition lift {A} (m : M A) : E A := fun w => let '(a, w) := m w in (Ok a, w).
Definition fail {A} (e : error) : E A := fun w => (Err e, w).
Definition of_result {A} (r : result A) : E A := fun w => (r, w).
(** Stop on an error the outside world reports. *)
Definition check (o : option error) : E unit := fun w => (match o with Some e => Err e | None => Ok tt end, w).
Definition gets {A} (f : world -> A) : E A := fun w => (Ok (f w), w).
Definition modify (f : world -> world) : M unit := fun w => (tt, f w).

Section Exec.
Context (x : Executor) (env : exec_env) (job : TransferJob).

Definition now : M Time := fun w =>
  (e_clock env (w_reads w),
   mkWorld (w_fs w) (w_tracker w) (w_state w) (w_sent w) (S (w_reads w)) (w_saves w)).

Definition change_state (f : JobState -> JobState) : M unit :=
  modify (fun w => set_state (f (w_state w)) w).

(** [stateStore.Save] of the current state, its error ignored. *)
Definition save_at (t : Time) : M unit := modify (fun w =>
  let f := e_save env (w_saves w) in
  let states := (SaveState (e_marshal env) (s_mkdir f) (s_open f) (s_write f) t (x_stateStore x)
                   (w_state w) (w_fs w)).2 in
  mkWorld (final_fs (w_fs w) states) (w_tracker w) (w_state w) (w_sent w) (w_reads w) (S (w_saves w))).
Definition save : M unit := t ← now; save_at t.

(** A callback, sent only when the hub is configured. *)
Definition send (c : callback) : M (option error) := fun w =>
  if x_callbacks x
  then (e_send env c, mkWorld (w_fs w) (w_tracker w) (w_state w) (w_sent w ++ [c]) (w_reads w) (w_saves w))
  else (None, w).

Definition update_job (stage message : string) (current total speed : Z) (percent : spec_float) : ActiveJob :=
  mkActiveJob "" (TOperation job) stage message (URL (Source job)) (Driver (Destination job))
    (objectPath (Destination job)) current total speed percent 0 0.

Definition updateActiveJob (stage message : string) (current total speed : Z) (percent : spec_float) : M unit :=
  t ← now;
  modify (fun w => set_tracker (UpdateJob t (UUID job)
    (update_job stage message current total speed percent) (w_tracker w)) w).

Definition progress (stage : string) (current total speed : Z) (percent : spec_float) (message : string) : M unit :=
  if x_callbacks x then
    updateActiveJob stage message current total speed percent;;
    send (CbProgress stage current total);;
    mret tt
  else mret tt.

(** ** Download *)
Record downloadResult := mkDownloadResult {
  dr_Path : string; dr_EffectiveURL : string; dr_StatusCode : Z; dr_ContentType : string;
  dr_Bytes : Z; dr_ChecksumSHA256 : string
}.

(** [filepath.Join]: leading empty elements are dropped. *)
Fixpoint JoinAll (elems : list string) : string :=
  match elems with
  | [] => ""
  | e :: rest => if String.eqb e "" then JoinAll rest else Clean (Join elems "/")
  end.

Definition jobDir : string := JoinAll [x_WorkDir x; "downloads"; safeName (UUID job)].
Definition partialPath : string := Join2 jobDir "payload.part".
Definition finalPath : string := Join2 jobDir "payload.bin".

(** The URL to fetch: the resolver's answer when there is one. *)
Definition resolved_url (d : download_env) : string :=
  match d_resolver d with
  | Some (Ok url) => if String.eqb (TrimSpace url) "" then TrimSpace (URL (Source job)) else url
  | _ => TrimSpace (URL (Source job))
  end.

Definition set_running (s : JobState) : JobState :=
  mkJobState (js_UUID s) (js_Operation s) StateStatusRunning "download" (js_SourceURL s) (js_ObjectPath s)
    partialPath (js_CurrentBytes s) (js_TotalBytes s) (js_ChecksumSHA256 s) (js_LastError s)
    (js_StartedAt s) (js_UpdatedAt s) (js_CompletedAt s) (js_Job s).
Definition set_bytes (current total : Z) (s : JobState) : JobState :=
  mkJobState (js_UUID s) (js_Operation s) (js_Status s) (js_Stage s) (js_SourceURL s) (js_ObjectPath s)
    (js_TempPath s) current total (js_ChecksumSHA256 s) (js_LastError s)
    (js_StartedAt s) (js_UpdatedAt s) (js_CompletedAt s) (js_Job s).
Definition set_checksum (sum : string) (s : JobState) : JobState :=
  mkJobState (js_UUID s) (js_Operation s) (js_Status s) (js_Stage s) (js_SourceURL s) (js_ObjectPath s)
    (js_TempPath s) (js_CurrentBytes s) (js_TotalBytes s) sum (js_LastError s)
    (js_StartedAt s) (js_UpdatedAt s) (js_CompletedAt s) (js_Job s).

(** The reports of the progress writer: how far the copy was, and the speed. *)
Fixpoint report (existing total : Z) (ticks : list (Z * Z)) : M unit :=
  match ticks with
  | [] => mret tt
  | (written, speed) :: rest =>
    let current := wrap64 (existing + written) in
    change_state (set_bytes current total);;
    save;;
    progress "download" current total speed (progressPercent current total) "Download em andamento.";;
    report existing total rest
  end.

(** The request with its range, and what may be kept of the partial file. *)
Definition prepare (d : download_env) : E (ResumeState * request_parts) :=
  fs ← gets w_fs;
  resume ← of_result (ResumeFromFile partialPath (Stat (d_stat d) partialPath fs)
                        (ResumeEnabled (Source job) || x_ResumeEnabled x) 0);
  headers ← of_result (NewHeaderSet (map_to_list (Headers (Source job))));
  request ← of_result (NewRequest (d_check d) "GET" (resolved_url d) headers);
  mret (resume, ApplyResume (rs_RangeHeader resume) request).

(** Checks on the response. *)
Definition accept (resume : ResumeState) (r : response) : result unit :=
  if (StatusCode r <? 200) || (300 <=? StatusCode r)
  then Err (Errorf ("download returned HTTP " +:+ Itoa (StatusCode r))) else
  if negb (String.eqb (rs_RangeHeader resume) "") && negb (StatusCode r =? 206)
  then Err (Errorf ("resume requested but server returned HTTP " +:+ Itoa (StatusCode r))) else
  if shouldBlockHTML job (x_BlockHTML x) (ContentType r)
  then Err (Errorf ("download returned blocked HTML content type " +:+ Quote (ContentType r)))
  else Ok tt.

(** Copying the body into the partial file, appending when a range was asked for. *)
Definition fetch (d : download_env) (resume : ResumeState) (r : response) : E Z :=
  check (d_open d);;
  let appending := negb (String.eqb (rs_RangeHeader resume) "") in
  lift (modify (fun w =>
    let kept := if appending then default "" (w_fs w !! partialPath) else "" in
    set_fs (<[partialPath := kept +:+ copied (d_copy d) (Body r)]> (w_fs w)) w));;
  lift (report (rs_ExistingBytes resume) (contentTotal (ContentLength r) (rs_ExistingBytes resume)) (d_ticks d));;
  check (snd <$> d_copy d);;
  check (d_close d);;
  mret (wrap64 (rs_ExistingBytes resume + slen (Body r))).

(** Renaming the complete file and checking its digest. *)
Definition settle (d : download_env) (bytesOnDisk : Z) : E string :=
  (let min := minBytes job (x_MinBytes x) in
   check (if (0 <? min) && (bytesOnDisk <? min)
          then Some (Errorf ("downloaded file is too small: got " +:+ Itoa bytesOnDisk +:+ " bytes, minimum " +:+ Itoa min))
          else None));;
  check (d_rename d);;
  lift (modify (fun w =>
    set_fs (<[finalPath := default "" (w_fs w !! partialPath)]> (delete partialPath (w_fs w))) w));;
  fs ← gets w_fs;
  sum ← of_result (SHA256File (d_sum_open d) (d_sum_read d) finalPath fs);
  let expected := ExpectedSHA256 (Source job) in
  check (if negb (String.eqb (TrimSpace expected) "") && negb (EqualFold (Hex sum) (TrimSpace expected))
         then Some (Errorf ("sha256 mismatch: expected " +:+ expected +:+ " got " +:+ Hex sum)) else None);;
  mret (Hex sum).

Definition download (d : download_env) : E downloadResult :=
  check (d_mkdir d);;
  lift (change_state set_running);;
  lift save;;
  '(resume, request) ← prepare d;
  lift now;;
  r ← of_result (d_server d request);
  of_result (accept resume r);;
  bytesOnDisk ← fetch d resume r;
  sum ← settle d bytesOnDisk;
  lift (change_state (fun s => set_checksum sum (set_bytes bytesOnDisk bytesOnDisk s)));;
  lift save;;
  mret (mkDownloadResult finalPath (default (resolved_url d) (EffectiveURL r)) (StatusCode r) (ContentType r)
          bytesOnDisk sum).
(** ** Upload *)
Definition storageUploadRequest (dr : downloadResult) : UploadRequest :=
  let d := Destination job in
  mkUploadRequest (dr_Path dr) (objectPath d) (BucketUUID d) (Bucket d) (DirectoryPath d) (RelativePath d)
    (Visibility d) (firstNonEmpty [MimeType d; dr_ContentType dr; "application/octet-stream"])
    (firstNonEmpty [ChecksumAlgorithm d; "sha256"]) (dr_ChecksumSHA256 dr) (DestMetadata d).

Definition to_object (bucketUUID bucket : string) (r : UploadResult) : TransferObjectResult :=
  mkObject (res_Driver r) bucketUUID bucket (res_ObjectUUID r) (res_ObjectPath r) (res_Location r)
    (res_BytesWritten r) (res_ChecksumSHA256 r) (res_Visibility r) (res_MimeType r) (res_Multipart r)
    (res_Metadata r).

Definition upload_done (n : Z) (message : string) : M unit :=
  progress "upload" n n 0 (float64 100) message.

Definition uploadLocal (dr : downloadResult) : E TransferObjectResult :=
  r ← (fun w => let '(r, fs) := AdapterUpload (x_localAdapter x) (e_upload env) (storageUploadRequest dr) (w_fs w)
                in (r, set_fs fs w));
  lift (upload_done (res_BytesWritten r) "Upload local concluído.");;
  lift (upload_done (res_BytesWritten r) "Upload local concluído.");;
  mret (to_object (res_BucketUUID r) (res_Bucket r) r).

(** [Progress] of the request: what the adapter reports goes to the hub. *)
Definition adapter_progress (p : UploadProgress) : M unit :=
  progress (firstNonEmpty [pg_Stage p; "upload"]) (pg_CurrentBytes p) (pg_TotalBytes p) (pg_SpeedBps p) (pg_Percent p)
    (firstNonEmpty [pg_Message p; "Upload em andamento."]).
Fixpoint adapter_reports (ps : list UploadProgress) : M unit :=
  match ps with [] => mret tt | p :: rest => adapter_progress p;; adapter_reports rest end.

Definition remote_upload (dr : downloadResult) : E UploadResult :=
  fs ← gets w_fs;
  let '(reports, r) := e_remote env fs (storageUploadRequest dr) in
  lift (adapter_reports reports);;
  of_result r.

(** The headers of a signed upload: the type, and the token when the job has one. *)
Definition signed_headers : HeaderSet :=
  let d := Destination job in
  let h := header_set "Content-Type"
             (if String.eqb (TrimSpace (MimeType d)) "" then "application/octet-stream" else MimeType d) ∅ in
  if String.eqb (TrimSpace (Token d)) "" then h else
  let name := firstNonEmpty [TokenHeader d; x_TokenHeader x] in
  header_set name
    (if EqualFold name "Authorization" && negb (HasPrefix (ToLower (Token d)) "bearer ")
     then "Bearer " +:+ Token d else Token d) h.
Definition signed_request (content : string) : SignedRequest :=
  mkSignedRequest (UploadURL (Destination job)) signed_headers (slen content) content.

Definition uploadToSignedURL (dr : downloadResult) : E TransferObjectResult :=
  let '(open, stat, create, answer) := e_signed env in
  fs ← gets w_fs;
  content ← of_result (ReadFile open (dr_Path dr) fs);
  check stat;;
  check create;;
  '(status, location) ← of_result (answer (signed_request content));
  check (if (status <? 200) || (300 <=? status)
         then Some (Errorf ("signed upload returned HTTP " +:+ Itoa status)) else None);;
  let d := Destination job in
  lift (upload_done (slen content) "Upload assinado concluído.");;
  mret (mkObject DriverAurenStorage (BucketUUID d) (firstNonEmpty [Bucket d; BucketUUID d]) "" (objectPath d)
          (if String.eqb location "" then UploadURL d else location) (slen content) (dr_ChecksumSHA256 dr)
          (Visibility d) (firstNonEmpty [MimeType d; "application/octet-stream"]) false (DestMetadata d)).

Definition upload (dr : downloadResult) : E TransferObjectResult :=
  lift (progress "upload" 0 0 0 fzero "Upload iniciado.");;
  let d := Destination job in
  let driver := ToLower (TrimSpace (Driver d)) in
  if String.eqb driver "" || String.eqb driver DriverLocal then uploadLocal dr else
  if String.eqb driver DriverS3 then
    r ← remote_upload dr;
    lift (upload_done (res_BytesWritten r) "Upload direto para S3 concluído.");;
    mret (to_object "" (res_Bucket r) r)
  else if String.eqb driver DriverAurenStorage then
    if negb (String.eqb (TrimSpace (UploadURL d)) "") then uploadToSignedURL dr else
    r ← remote_upload dr;
    lift (upload_done (res_BytesWritten r) "Upload para Auren Storage concluído.");;
    mret (to_object (firstNonEmpty [res_BucketUUID r; BucketUUID d])
            (firstNonEmpty [res_Bucket r; firstNonEmpty [BucketUUID d; Bucket d; x_Bucket x]]) r)
  else fail (Errorf ("unsupported destination driver " +:+ Quote (Driver d))).

(** ** Execute *)
Definition admissionDecision (w : world) : AdmissionDecision :=
  match x_operations x with
  | None => allow
  | Some runtime =>
    let stats := TrackerSnapshot (w_tracker w) in
    CanClaim (e_ops env) runtime
      (mkClaimSnapshot (st_ActiveJobs stats) (st_MaxConcurrentJobs stats) 0 0 0 0 (x_WorkDir x))
  end.

Definition deadLetter (stage : string) (err : error) (temp_path : string) : M unit :=
  match x_operations x with
  | None => mret tt
  | Some runtime =>
    t ← now;
    t' ← now;
    modify (fun w =>
      let '(mkdir, open, write) := e_letter env in
      set_fs (StoreDeadLetter (e_letter_marshal env) runtime mkdir (e_rand env) t' open write
                (mkDeadLetter "" (UUID job) (TOperation job) stage (Error err) true temp_path t) (w_fs w)).2 w)
  end.

Definition claimed_state (started updated : Time) : JobState :=
  mkJobState (UUID job) (TOperation job) StateStatusClaimed "claim" (URL (Source job))
    (objectPath (Destination job)) "" 0 0 "" "" started updated 0 job.

Definition set_failed (stage : string) (err : error) (s : JobState) : JobState :=
  mkJobState (js_UUID s) (js_Operation s) StateStatusFailed
    (if String.eqb stage "upload" then "upload" else js_Stage s) (js_SourceURL s) (js_ObjectPath s)
    (js_TempPath s) (js_CurrentBytes s) (js_TotalBytes s) (js_ChecksumSHA256 s) (Error err)
    (js_StartedAt s) (js_UpdatedAt s) (js_CompletedAt s) (js_Job s).

Definition set_completed (dr : downloadResult) (t : Time) (s : JobState) : JobState :=
  mkJobState (js_UUID s) (js_Operation s) StateStatusCompleted "completed" (js_SourceURL s) (js_ObjectPath s)
    (js_TempPath s) (dr_Bytes dr) (dr_Bytes dr) (dr_ChecksumSHA256 dr) (js_LastError s)
    (js_StartedAt s) (js_UpdatedAt s) t (js_Job s).

(** A failed stage: recorded locally, in the dead letters and at the hub. *)
Definition fail_job (stage : string) (err : error) (temp_path : world -> string) : M (option error) :=
  let err := preferControlError err (e_control env) in
  change_state (set_failed stage err);;
  save;;
  temp ← ((fun w => (temp_path w, w)) : M string);
  deadLetter stage err temp;;
  send (CbFailed stage (Error err));;
  mret (Some err).

Definition finish_job (dr : downloadResult) (ob : TransferObjectResult) : M (option error) :=
  updateActiveJob "completed" "Upload concluído." (ob_Size ob) (ob_Size ob) 0 (float64 100);;
  t ← now;
  change_state (set_completed dr t);;
  save;;
  send (CbCompleted (dr_Bytes dr) (dr_ChecksumSHA256 dr) ob).

(** Up to the download: the state is set up and the hub told. *)
Definition announce : M unit :=
  t1 ← now;
  t2 ← now;
  change_state (fun _ => claimed_state t1 t2);;
  updateActiveJob "claim" "Job reivindicado pelo Agent." 0 0 0 fzero;;
  save;;
  send CbStarted;;
  now;;
  updateActiveJob "download" "Download iniciado." 0 0 0 fzero.

Definition begin_upload (dr : downloadResult) : M unit :=
  now;;
  updateActiveJob "upload" "Upload iniciado." (dr_Bytes dr) (dr_Bytes dr) 0 (float64 100).

Definition transfer_body : M (option error) :=
  announce;;
  got ← (download (e_download env) : M (result downloadResult));
  match got with
  | Err err => fail_job "download" err (fun w => js_TempPath (w_state w))
  | Ok dr =>
    begin_upload dr;;
    put ← (upload dr : M (result TransferObjectResult));
    match put with
    | Err err => fail_job "upload" err (fun _ => dr_Path dr)
    | Ok ob => finish_job dr ob
    end
  end.

Definition start_at (t1 t2 t3 : Time) : M bool := fun w =>
  let '(ok, t) := TryStartJob t3 (mkActiveJob (UUID job) (TOperation job) "claim" "Job reivindicado pelo Agent."
    (URL (Source job)) (Driver (Destination job)) (objectPath (Destination job)) 0 0 0 fzero t1 t2)
    (w_tracker w) in
  (ok, set_tracker t w).
Definition try_start : M bool :=
  t1 ← now;
  t2 ← now;
  t3 ← now;
  start_at t1 t2 t3.

Definition Execute : M (option error) :=
  match ValidateTransferJob job with
  | Err e => mret (Some e)
  | Ok _ =>
    decision ← ((fun w => (admissionDecision w, w)) : M AdmissionDecision);
    if negb (Allowed decision) then
      send (CbReleased (Reason decision) (Message decision));;
      mret (Some (Errorf ("transfer job rejected by hardening policy: " +:+
                          firstNonEmpty [Message decision; Reason decision])))
    else
      ok ← try_start;
      if negb ok then mret (Some (Errorf "transfer executor capacity exhausted")) else
      err ← transfer_body;
      modify (fun w => set_tracker (Finish (UUID job) (bool_decide (err = None)) (w_tracker w)) w);;
      mret err
  end.
End Exec.

(** ** Reasoning about the monads

    [steps R m]: whatever the world, running [m] relates it to the world after. *)
Definition steps {A} (R : relation world) (m : M A) : Prop := forall w, R w (m w).2.

Section Steps.
Context (R : relation world) `{!PreOrder R}.

Lemma steps_ret {A} (a : A) : steps R (mret a : M A).
Proof. intros w. reflexivity. Qed.
Lemma steps_bind {A B} (m : M A) (f : A -> M B) : steps R m -> (forall a, steps R (f a)) -> steps R (m ≫= f).
Proof.
  intros Hm Hf w. unfold mbind, M_bind. specialize (Hm w). destruct (m w) as [a w1]. etrans; [exact Hm|apply Hf].
Qed.
Lemma steps_retE {A} (a : A) : steps R ((mret a : E A) : M (result A)).
Proof. intros w. reflexivity. Qed.
Lemma steps_bindE {A B} (m : E A) (f : A -> E B) : steps R (m : M (result A)) ->
  (forall a, steps R (f a : M (result B))) -> steps R ((m ≫= f : E B) : M (result B)).
Proof.
  intros Hm Hf w. unfold mbind, E_bind. specialize (Hm w). destruct (m w) as [[a|e] w1]; [|done].
  etrans; [exact Hm|apply Hf].
Qed.
Lemma steps_lift {A} (m : M A) : steps R m -> steps R (lift m : M (result A)).
Proof. intros Hm w. unfold lift. specialize (Hm w). by destruct (m w). Qed.
Lemma steps_pure {A} (m : M A) : (forall w, (m w).2 = w) -> steps R m.
Proof. intros H w. by rewrite H. Qed.
Lemma steps_modify f : (forall w, R w (f w)) -> steps R (modify f).
Proof. done. Qed.
End Steps.


Create HintDb exec.

(** Walk through a computation: sequencing, pure steps, branches. *)
Ltac walk1 :=
  match goal with
  | |- steps _ (mret _) => first [apply steps_ret | apply steps_retE]; apply _
  | |- steps _ (mbind _ _) => first [apply steps_bindE | apply steps_bind]; [apply _| |intros]
  | |- steps _ (lift _) => apply steps_lift
  | |- steps _ (of_result _) => apply steps_pure; [apply _|done]
  | |- steps _ (check _) => apply steps_pure; [apply _|done]
  | |- steps _ (gets _) => apply steps_pure; [apply _|done]
  | |- steps _ (fail _) => apply steps_pure; [apply _|done]
  | |- steps _ (if _ then _ else _) => case_match
  | |- steps _ (match _ with _ => _ end) => case_match
  | |- steps _ (let _ := _ in _) => cbv zeta
  end.
Ltac walk := repeat (walk1; try assumption).

(** ** Accounting and callbacks *)
Definition terminal (c : callback) : bool :=
  match c with CbCompleted _ _ _ | CbFailed _ _ => true | _ => false end.

Section Accounting.
Context (x : Executor) (env : exec_env) (job : TransferJob).

(** The tracker changes at most the entry of the job. *)
Definition tracker_frame (t t' : Tracker) : Prop :=
  maxConcurrentJobs t' = maxConcurrentJobs t /\ completed t' = completed t /\ failed t' = failed t /\
  delete (UUID job) (active t') = delete (UUID job) (active t).

(** Nothing final happens: only intermediate callbacks, and none without a hub. *)
Definition calm (w w' : world) : Prop :=
  tracker_frame (w_tracker w) (w_tracker w') /\
  exists l, w_sent w' = w_sent w ++ l /\ Forall (fun c => terminal c = false) l /\ (x_callbacks x = false -> l = []).

#[global] Instance tracker_frame_pre : PreOrder tracker_frame.
Proof.
  split; [done|]. intros t1 t2 t3 (H1 & H2 & H3 & H4) (K1 & K2 & K3 & K4). split_and!; congruence.
Qed.

#[global] Instance calm_pre : PreOrder calm.
Proof.
  split.
  - intros w. split; [done|]. exists []. by rewrite app_nil_r.
  - intros w1 w2 w3 (T & l & E1 & F1 & C1) (T' & k & E2 & F2 & C2). split; [by etrans|].
    exists (l ++ k). rewrite E2, E1, app_assoc. split_and!; [done|by apply Forall_app|].
    intros Hc. by rewrite C1, C2.
Qed.

(** A step that leaves tracker and callbacks alone is calm. *)
Lemma calm_quiet (f : world -> world) : (forall w, w_tracker (f w) = w_tracker w) ->
  (forall w, w_sent (f w) = w_sent w) -> forall w, calm w (f w).
Proof. intros H1 H2 w. split; [by rewrite H1|]. exists []. by rewrite H2, app_nil_r. Qed.

Lemma now_calm : steps calm (now env).
Proof. intros w. apply (calm_quiet (fun w => (now env w).2)); done. Qed.
Lemma change_state_calm f : steps calm (change_state f).
Proof. apply steps_modify, calm_quiet; done. Qed.
Lemma save_calm : steps calm (save x env).
Proof. unfold save. apply steps_bind; [apply _|apply now_calm|]. intros t. apply steps_modify, calm_quiet; done. Qed.
Lemma set_fs_calm f : steps calm (modify (fun w => set_fs (f w) w)).
Proof. apply steps_modify, calm_quiet; done. Qed.

Lemma update_frame t u tr : tracker_frame tr (UpdateJob t (UUID job) u tr).
Proof.
  unfold UpdateJob, tracker_frame. destruct (String.eqb _ _); [done|]. destruct (active tr !! _); [|done].
  cbn. split_and!; try done. by rewrite delete_insert_eq.
Qed.

Lemma updateActiveJob_calm stage message c t s p : steps calm (updateActiveJob env job stage message c t s p).
Proof.
  unfold updateActiveJob. apply steps_bind; [apply _|apply now_calm|]. intros t'. apply steps_modify. intros w.
  split; [apply update_frame|]. exists []. by rewrite app_nil_r.
Qed.

Lemma send_calm c : terminal c = false -> steps calm (send x env c).
Proof.
  intros Hc w. unfold send. destruct (x_callbacks x) eqn:E; [|done]. split; [done|]. exists [c].
  cbn. split_and!; [done|by constructor|congruence].
Qed.

Hint Resolve now_calm change_state_calm save_calm set_fs_calm updateActiveJob_calm send_calm : exec.
Ltac calmly := walk; auto with exec; try (apply steps_pure; [apply _|done]).

Lemma progress_calm stage c t s p message : steps calm (progress x env job stage c t s p message).
Proof. unfold progress. calmly. Qed.
Hint Resolve progress_calm : exec.

Lemma report_calm existing total ticks : steps calm (report x env job existing total ticks).
Proof. induction ticks as [|[n s] ticks IH]; cbn [report]; calmly. Qed.
Hint Resolve report_calm : exec.

Lemma download_calm d : steps calm (download x env job d : M (result downloadResult)).
Proof.
  unfold download. walk; auto with exec; unfold prepare, fetch, settle; calmly.
Qed.

Lemma reports_calm ps : steps calm (adapter_reports x env job ps).
Proof. induction ps as [|p ps IH]; cbn [adapter_reports]; unfold adapter_progress; calmly. Qed.
Hint Resolve reports_calm : exec.

Lemma upload_calm dr : steps calm (upload x env job dr : M (result TransferObjectResult)).
Proof.
  unfold upload, uploadLocal, uploadToSignedURL, remote_upload, upload_done. walk; auto with exec.
  intros w. destruct (AdapterUpload _ _ _ _) as [r fs].
  exact (calm_quiet (set_fs fs) (fun _ => eq_refl) (fun _ => eq_refl) w).
Qed.

Lemma deadLetter_calm stage err temp : steps calm (deadLetter x env job stage err temp).
Proof.
  unfold deadLetter. walk; auto with exec. apply steps_modify, calm_quiet; intros w; by destruct (e_letter env) as [[? ?] ?].
Qed.
Hint Resolve download_calm upload_calm deadLetter_calm : exec.

(** How a started job ends: with exactly one final callback when there is a hub,
    which says what [Execute] returns. *)
Definition final_says (err : option error) (c : callback) : Prop :=
  match c with
  | CbCompleted _ _ _ => err = e_send env c
  | CbFailed _ m => exists e, err = Some e /\ m = Error e
  | _ => False
  end.
Definition ends (err : option error) (w w' : world) : Prop :=
  tracker_frame (w_tracker w) (w_tracker w') /\
  if x_callbacks x
  then exists l c, w_sent w' = w_sent w ++ l ++ [c] /\ Forall (fun c => terminal c = false) l /\ final_says err c
  else w_sent w' = w_sent w.

Lemma calm_ends err w1 w2 w3 : calm w1 w2 -> ends err w2 w3 -> ends err w1 w3.
Proof.
  intros (T & l & E1 & F1 & C1) (T' & H). split; [by etrans|]. destruct (x_callbacks x).
  - destruct H as (k & c & E2 & F2 & HC). exists (l ++ k), c. rewrite E2, E1, !app_assoc.
    split_and!; [done|by apply Forall_app|done].
  - by rewrite H, E1, C1, app_nil_r.
Qed.

Lemma ends_bind {A} (m : M A) (f : A -> M (option error)) : steps calm m ->
  (forall a w, ends (f a w).1 w (f a w).2) -> forall w, ends ((m ≫= f) w).1 w ((m ≫= f) w).2.
Proof.
  intros Hm Hf w. unfold mbind, M_bind. specialize (Hm w). destruct (m w) as [a w1].
  eapply calm_ends; [exact Hm|apply Hf].
Qed.

Lemma fail_job_ends stage err temp w :
  ends (fail_job x env job stage err temp w).1 w (fail_job x env job stage err temp w).2.
Proof.
  revert w. unfold fail_job. cbv zeta. repeat (apply ends_bind; [solve [calmly]|intros ?]).
  intros w. unfold mbind, M_bind, send, ends. destruct (x_callbacks x) eqn:E; cbn; split; try done.
  eexists [], _. split_and!; [done|done|]. cbn. eauto.
Qed.

Lemma finish_job_ends dr ob w : ends (finish_job x env job dr ob w).1 w (finish_job x env job dr ob w).2.
Proof.
  revert w. unfold finish_job. repeat (apply ends_bind; [solve [calmly]|intros ?]).
  intros w. unfold send, ends. destruct (x_callbacks x) eqn:E; cbn; split; try done.
  eexists [], _. split_and!; done.
Qed.

Lemma transfer_body_ends w : ends (transfer_body x env job w).1 w (transfer_body x env job w).2.
Proof.
  revert w. unfold transfer_body, announce, begin_upload. repeat (apply ends_bind; [solve [calmly]|intros ?]).
  case_match; [|intros w; apply fail_job_ends]. repeat (apply ends_bind; [solve [calmly]|intros ?]).
  case_match; intros w; [apply finish_job_ends|apply fail_job_ends].
Qed.

(** The job is valid, admitted and there is a free slot. *)
Definition starts (w : world) : Prop :=
  ValidateTransferJob job = Ok tt /\ Allowed (admissionDecision x env w) = true /\
  Z.of_nat (size (active (w_tracker w))) < maxConcurrentJobs (w_tracker w).
End Accounting.


(** ** What a download leaves on disk *)
Section Files.
Context (x : Executor) (env : exec_env) (job : TransferJob).

(** Only the state file of the job changes. *)
Definition state_path (w : world) : string := Path (x_stateStore x) (js_UUID (w_state w)).
Definition saves (w w' : world) : Prop :=
  js_UUID (w_state w') = js_UUID (w_state w) /\
  forall p, p <> state_path w -> w_fs w' !! p = w_fs w !! p.

#[global] Instance saves_pre : PreOrder saves.
Proof.
  split; [done|]. intros w1 w2 w3 [U1 F1] [U2 F2]. split; [congruence|]. intros p Hp.
  rewrite F2; [by apply F1|]. unfold state_path in *. by rewrite U1.
Qed.

Lemma save_saves : steps saves (save x env).
Proof.
  unfold save. apply steps_bind; [apply _|by intros w|]. intros t. apply steps_modify. intros w. split; [done|].
  intros p Hp. unfold save_at. cbn [w_fs modify snd]. unfold final_fs, SaveState.
  repeat case_match; cbn; try done; by rewrite lookup_insert_ne.
Qed.
Lemma now_saves : steps saves (now env).
Proof. by intros w. Qed.
Lemma change_state_saves f : (forall s, js_UUID (f s) = js_UUID s) -> steps saves (change_state f).
Proof. intros H. apply steps_modify. intros w. split; [apply H|done]. Qed.
Lemma updateActiveJob_saves stage message c t s p : steps saves (updateActiveJob env job stage message c t s p).
Proof. unfold updateActiveJob. apply steps_bind; [apply _|apply now_saves|]. intros. by apply steps_modify. Qed.
Lemma send_saves c : steps saves (send x env c).
Proof. intros w. unfold send. by destruct (x_callbacks x). Qed.
Hint Resolve save_saves now_saves change_state_saves updateActiveJob_saves send_saves : exec.

Lemma progress_saves stage c t s p message : steps saves (progress x env job stage c t s p message).
Proof. unfold progress. walk; auto with exec. Qed.
Hint Resolve progress_saves : exec.
Lemma report_saves existing total ticks : steps saves (report x env job existing total ticks).
Proof. induction ticks as [|[n s] ticks IH]; cbn [report]; walk; auto with exec. Qed.
End Files.

(** *** Paths *)
Lemma Clean_nonempty p : Clean p <> "".
Proof. intros H. pose proof (Clean_idemp p) as Hi. rewrite H in Hi. discriminate Hi. Qed.

Lemma jobDir_nonempty x job : jobDir x job <> "".
Proof. unfold jobDir. cbn [JoinAll]. destruct (String.eqb (x_WorkDir x) ""); apply Clean_nonempty. Qed.

Lemma payload_plain name : name ∈ ["payload.part"; "payload.bin"] -> plain (chars name).
Proof.
  intros [->|[->|?%not_elem_of_nil]%elem_of_cons]%elem_of_cons; [..|done];
    (split_and!; [discriminate..|]); match goal with |- slash ∉ ?l => change (no_slash l) end; literal_no_slash.
Qed.

Lemma payload_stack x job name : name ∈ ["payload.part"; "payload.bin"] ->
  path_stack (Join2 (jobDir x job) name) = chars name :: path_stack (jobDir x job).
Proof.
  intros H%payload_plain. pose proof (Join2_child (jobDir x job) _ (jobDir_nonempty x job) H) as [E _].
  by rewrite str_chars in E.
Qed.

Lemma part_not_final x job : partialPath x job <> finalPath x job.
Proof.
  intros E. apply (f_equal path_stack) in E. unfold partialPath, finalPath in E.
  rewrite !payload_stack in E by set_solver. discriminate E.
Qed.

(** The state file is neither of the payload files. *)
Lemma state_not_payload x job w name : name ∈ ["payload.part"; "payload.bin"] -> store_root (x_stateStore x) <> "" ->
  Join2 (jobDir x job) name <> state_path x w.
Proof.
  intros Hn Hr E. apply (f_equal path_stack) in E. rewrite payload_stack in E by done.
  unfold state_path, Path in E.
  pose proof (Join2_child (store_root (x_stateStore x)) _ Hr (state_name_plain (js_UUID (w_state w)))) as [K _].
  rewrite str_chars in K. rewrite K in E. injection E as E _.
  assert (HasSuffix name ".json" = true) as Hs.
  { apply HasSuffix_spec. exists (chars (safeName (js_UUID (w_state w)))). by rewrite E, chars_app. }
  revert Hs. apply elem_of_cons in Hn as [->|[->|?%not_elem_of_nil]%elem_of_cons]; [..|done]; vm_compute; discriminate.
Qed.

Lemma partial_nonempty x job : partialPath x job <> "".
Proof.
  intros E. apply (f_equal path_stack) in E. unfold partialPath in E. rewrite payload_stack in E by set_solver.
  discriminate E.
Qed.

(** *** The phases of a download *)
Section Phases.
Context (x : Executor) (env : exec_env) (job : TransferJob) (d : download_env).
Notation part := (partialPath x job).
Notation final := (finalPath x job).

Definition resuming : bool := ResumeEnabled (Source job) || x_ResumeEnabled x.
Definition range_from (size : Z) : string := "bytes=" +:+ Itoa size +:+ "-".
Definition on_disk (w : world) : string := default "" (w_fs w !! part).

Lemma prepare_run w : d_stat d = None ->
  let '(res, w') := prepare x job d w in w' = w /\
  forall resume request, res = Ok (resume, request) ->
    let size := slen (on_disk w) in
    rs_ExistingBytes resume = size /\
    rs_RangeHeader resume = (if resuming && (0 <? size) then range_from size else "") /\
    exists set, NewHeaderSet (map_to_list (Headers (Source job))) = Ok set /\
      r_Header request = if resuming && (0 <? size) then <[HeaderRange := range_from size]> set else set.
Proof.
  intros Hs. unfold prepare, on_disk. unfold mbind, E_bind, gets, of_result. rewrite Hs. fold resuming.
  unfold ResumeFromFile, Stat. rewrite (proj2 (String.eqb_neq _ _) (partial_nonempty x job)).
  set (st := match w_fs w !! part with Some _ => _ | None => _ end).
  assert (match st with StatFile size => NewResumeState resuming size 0 | StatMissing => NewResumeState resuming 0 0
          | StatDir => Err (Errorf ("resume path is a directory: " +:+ part)) | StatError e => Err e end =
          NewResumeState resuming (slen (default "" (w_fs w !! part))) 0) as ->.
  { subst st. by destruct (w_fs w !! part). }
  set (size := slen (default "" (w_fs w !! part))).
  assert (0 <= size) as Hz by (unfold size, slen; apply zlen_nonneg).
  assert (NewResumeState resuming size 0 = Ok (mkResumeState resuming size 0
    (if resuming && (0 <? size) then range_from size else "") false)) as ->.
  { unfold NewResumeState, range_from. rewrite (proj2 (Z.ltb_ge size 0)) by done. cbn [Z.ltb Z.compare].
    destruct resuming; cbn [negb orb andb]; [|done].
    destruct (Z.eqb_spec size 0) as [->|]; [done|]. by rewrite (proj2 (Z.ltb_lt 0 size)) by lia. }
  destruct (NewHeaderSet _) as [set|]; [|done]. destruct (NewRequest _ _ _ _) as [req|] eqn:ER; [|done].
  split; [done|]. intros resume request [= <- <-]. cbn [rs_ExistingBytes rs_RangeHeader]. split_and!; [done|done|].
  exists set. split; [done|]. assert (r_Header req = set) as <-.
  { unfold NewRequest, Apply in ER. rewrite (right_id_L ∅ (∪)) in ER. by repeat case_match; simplify_eq. }
  unfold ApplyResume. destruct (resuming && _); [|done]. unfold range_from.
  destruct (String.eqb_spec ("bytes=" +:+ Itoa size +:+ "-") ""); done.
Qed.

Lemma fetch_run resume r w : store_root (x_stateStore x) <> "" ->
  let '(res, w') := fetch x env job d resume r w in
  let kept := if String.eqb (rs_RangeHeader resume) "" then "" else on_disk w in
  js_UUID (w_state w') = js_UUID (w_state w) /\
  (w' = w \/ w_fs w' !! part = Some (kept +:+ copied (d_copy d) (Body r))) /\
  forall n, res = Ok n -> w_fs w' !! part = Some (kept +:+ Body r) /\
    n = wrap64 (rs_ExistingBytes resume + slen (Body r)).
Proof.
  intros Hroot. unfold fetch. unfold mbind, E_bind, check. destruct (d_open d); [by split_and!; [|left|]|].
  unfold lift at 1, modify. cbn [negb].
  set (w1 := set_fs _ w). set (total := contentTotal _ _).
  pose proof (report_saves x env job (rs_ExistingBytes resume) total (d_ticks d) w1) as [HU HF].
  unfold lift. destruct (report _ _ _ _ _ _ w1) as [[] w2]. cbn [snd] in HU, HF.
  assert (w_fs w2 !! part = Some ((if String.eqb (rs_RangeHeader resume) "" then "" else on_disk w) +:+ copied (d_copy d) (Body r))) as HP.
  { rewrite HF by (apply state_not_payload; [set_solver|done]). unfold w1, on_disk. cbn [w_fs set_fs].
    rewrite lookup_insert_eq. by destruct (String.eqb _ _). }
  assert (js_UUID (w_state w2) = js_UUID (w_state w)) by done.
  destruct (d_copy d) as [[k e]|]; cbn [fmap option_fmap option_map snd]; [by split_and!; [|right|]|].
  destruct (d_close d); [by split_and!; [|right|]|]. split_and!; [done|by right|]. by intros n [= <-].
Qed.

Lemma settle_run n w content : w_fs w !! part = Some content -> TrimSpace final = final ->
  let '(res, w') := settle x job d n w in
  (w_fs w' !! part = Some content \/ w_fs w' !! part = None) /\ w_state w' = w_state w /\
  forall sum, res = Ok sum -> w_fs w' !! final = Some content /\ w_fs w' !! part = None /\
    sum = hex_string (sha256 (bytes_of content)) /\
    (TrimSpace (ExpectedSHA256 (Source job)) <> "" -> EqualFold sum (TrimSpace (ExpectedSHA256 (Source job))) = true) /\
    (0 < minBytes job (x_MinBytes x) -> minBytes job (x_MinBytes x) <= n).
Proof.
  intros HP HT. unfold settle. unfold mbind, E_bind, check, lift, modify, gets, of_result. cbv zeta.
  destruct ((0 <? minBytes job (x_MinBytes x)) && (n <? minBytes job (x_MinBytes x))) eqn:EM; [by split_and!; [left| |]|].
  destruct (d_rename d); [by split_and!; [left| |]|]. rewrite HP. cbn [default w_fs set_fs w_state id].
  pose proof (part_not_final x job) as Hne.
  set (fs1 := <[final := content]> (delete part (w_fs w))).
  assert (fs1 !! final = Some content) as H1 by apply lookup_insert_eq.
  assert (fs1 !! part = None) as H2 by (unfold fs1; rewrite lookup_insert_ne by done; apply lookup_delete_eq).
  unfold SHA256File, ReadFile. rewrite HT. destruct (String.eqb final ""); [by split_and!; [right| |]|].
  destruct (d_sum_open d); [by split_and!; [right| |]|]. rewrite H1. cbn [mbind result_bind].
  destruct (d_sum_read d); [by split_and!; [right| |]|]. cbn [Hex].
  destruct (negb _ && negb _) eqn:EE; [by split_and!; [right| |]|]. split_and!; [by right|done|].
  intros sum [= <-]. split_and!; [done|done|done| |].
  - intros Hx. rewrite (proj2 (String.eqb_neq _ _) Hx) in EE. cbn in EE. by apply negb_false_iff in EE.
  - intros. lia.
Qed.
End Phases.

(** *** Resuming *)

(** A server that serves one resource: an accepted answer to a request without a
    range is the whole content, partial content is what follows the offset.  It may
    fail, refuse ranges or answer anything it likes otherwise. *)
Definition honest (content : string) (d : download_env) : Prop :=
  forall request r, d_server d request = Ok r ->
    (r_Header request !! HeaderRange = None -> 200 <= StatusCode r < 300 -> Body r = content) /\
    (forall k : nat, r_Header request !! HeaderRange = Some (range_from (Z.of_nat k)) -> StatusCode r = 206 ->
       Body r = str (drop k (chars content))).

Definition prefix_of (content p : string) : Prop := exists k, chars p = take k (chars content).
Definition partial_ok (x : Executor) (job : TransferJob) (content : string) (w : world) : Prop :=
  forall p, w_fs w !! partialPath x job = Some p -> prefix_of content p.

(** A download that succeeded. *)
Record fetched (x : Executor) (job : TransferJob) (content : string) (dr : downloadResult) (w : world) : Prop := {
  ft_path : dr_Path dr = finalPath x job;
  ft_file : w_fs w !! dr_Path dr = Some content;
  ft_sum : dr_ChecksumSHA256 dr = hex_string (sha256 (bytes_of content));
  ft_expected : TrimSpace (ExpectedSHA256 (Source job)) <> "" ->
    EqualFold (dr_ChecksumSHA256 dr) (TrimSpace (ExpectedSHA256 (Source job))) = true;
  ft_partial : w_fs w !! partialPath x job = None
}.

Lemma accept_status x job resume r : accept x job resume r = Ok tt ->
  200 <= StatusCode r < 300 /\ (rs_RangeHeader resume <> "" -> StatusCode r = 206).
Proof.
  unfold accept. destruct (_ || _) eqn:E1; [done|].
  destruct (String.eqb_spec (rs_RangeHeader resume) ""); cbn [negb andb]; [intros; split; [lia|done]|].
  destruct (Z.eqb_spec (StatusCode r) 206); cbn [negb]; [|done]. intros. split; [lia|done].
Qed.

Lemma prefix_drop content p : prefix_of content p -> chars p ++ drop (length (chars p)) (chars content) = chars content.
Proof.
  intros [k Hk]. rewrite Hk. destruct (decide (length (chars content) <= k)%nat).
  - rewrite take_ge, drop_all, app_nil_r by lia. done.
  - rewrite length_take_le by lia. apply take_drop.
Qed.

Lemma prefix_take content p b k : chars content = chars p ++ chars b -> prefix_of content (p +:+ str (take k (chars b))).
Proof.
  intros E. exists (length (chars p) + k)%nat. by rewrite chars_app, chars_str, E, take_app_add.
Qed.

(** What is kept of the partial file and the body make up the content. *)
Lemma honest_body x job content d w resume request r set :
  honest content d -> resuming x job = true -> partial_ok x job content w ->
  rs_ExistingBytes resume = slen (on_disk x job w) ->
  rs_RangeHeader resume = (if resuming x job && (0 <? slen (on_disk x job w))
                           then range_from (slen (on_disk x job w)) else "") ->
  set !! HeaderRange = None ->
  r_Header request = (if resuming x job && (0 <? slen (on_disk x job w))
                      then <[HeaderRange := range_from (slen (on_disk x job w))]> set else set) ->
  d_server d request = Ok r -> 200 <= StatusCode r < 300 -> (rs_RangeHeader resume <> "" -> StatusCode r = 206) ->
  chars content = chars (if String.eqb (rs_RangeHeader resume) "" then "" else on_disk x job w) ++ chars (Body r) /\
  rs_ExistingBytes resume + slen (Body r) = slen content.
Proof.
  intros HH He HP HX HG HR HQ ED Hst H206. destruct (HH request r ED) as [H1 H2].
  rewrite He in HG, HQ. cbn [andb] in HG, HQ. rewrite HG, HX in *. rewrite HQ in *.
  assert (prefix_of content (on_disk x job w)) as Hpre.
  { unfold on_disk. destruct (w_fs w !! partialPath x job) as [p|] eqn:Ep; [by apply HP|by exists 0%nat]. }
  destruct (Z.ltb_spec 0 (slen (on_disk x job w))) as [Hlt|Hge].
  - rewrite (proj2 (String.eqb_neq _ _)) by done. unfold slen in *. unfold zlen in H2.
    rewrite (H2 (length (chars (on_disk x job w)))); [|apply lookup_insert_eq|by apply H206].
    rewrite chars_str, prefix_drop by done. split; [done|].
    rewrite <- (prefix_drop content (on_disk x job w) Hpre) at 2. by rewrite zlen_app.
  - rewrite (H1 HR Hst). pose proof (zlen_nonneg (chars (on_disk x job w))). unfold slen in *. split; [done|lia].
Qed.

Lemma download_run x env job content d w :
  store_root (x_stateStore x) <> "" -> TrimSpace (finalPath x job) = finalPath x job -> d_stat d = None ->
  honest content d -> resuming x job = true ->
  (forall set, NewHeaderSet (map_to_list (Headers (Source job))) = Ok set -> set !! HeaderRange = None) ->
  partial_ok x job content w ->
  let '(res, w') := download x env job d w in
  partial_ok x job content w' /\
  forall dr, res = Ok dr -> fetched x job content dr w' /\ dr_Bytes dr = wrap64 (slen content) /\
    (0 < minBytes job (x_MinBytes x) -> minBytes job (x_MinBytes x) <= wrap64 (slen content)).
Proof.
  intros Hroot HT Hs HH He HR HP. unfold download. unfold mbind, E_bind. unfold check at 1.
  destruct (d_mkdir d); [done|].
  unfold lift at 1, change_state, modify. set (w1 := set_state _ w).
  assert (saves x w w1) as S1 by done.
  pose proof (save_saves x env w1) as S2. unfold lift at 1. destruct (save x env w1) as [[] w2]. cbn [snd] in S2.
  assert (w_fs w2 !! partialPath x job = w_fs w !! partialPath x job) as P2.
  { destruct S1 as [_ F1], S2 as [_ F2].
    rewrite F2, F1 by (apply state_not_payload; [set_solver|done]). done. }
  pose proof (prepare_run x job d w2 Hs) as Hprep. destruct (prepare x job d w2) as [[[resume request]|e] w3];
    destruct Hprep as [-> Hprep]; [|intros; split; [intros p; rewrite P2; apply HP|done]].
  destruct (Hprep resume request eq_refl) as (HX & HG & set & HN & HQ). cbv zeta in *. unfold lift at 1, now. set (w4 := mkWorld _ _ _ _ _ _). unfold of_result.
  assert (partial_ok x job content w4) as P4 by (intros p; cbn; rewrite P2; apply HP).
  destruct (d_server d request) as [r|e] eqn:ED; [|done].
  destruct (accept x job resume r) as [[]|e] eqn:EA; [|done]. apply accept_status in EA as [Hst H206].
  destruct (honest_body x job content d w4 resume request r set HH He P4 HX HG (HR set HN) HQ ED Hst H206) as [HC HL].
  set (kept := if String.eqb (rs_RangeHeader resume) "" then "" else on_disk x job w4) in *.
  pose proof (fetch_run x env job d resume r w4 Hroot) as Hf. cbv zeta in Hf. fold kept in Hf.
  destruct (fetch x env job d resume r w4) as [res w5]. destruct Hf as (_ & H5 & H5ok).
  assert (partial_ok x job content w5) as P5.
  { destruct H5 as [->|H5]; [done|]. intros p Hp. rewrite H5 in Hp. injection Hp as <-.
    unfold copied. destruct (d_copy d) as [[k e]|]; [by apply prefix_take|].
    exists (length (chars content)). by rewrite chars_app, take_ge. }
  destruct res as [n|e]; [|done]. destruct (H5ok n eq_refl) as [H5f ->].
  assert (kept +:+ Body r = content) as Ec by (apply chars_inj; by rewrite chars_app).
  rewrite Ec in H5f. rewrite HL in *.
  pose proof (settle_run x job d (wrap64 (slen content)) w5 content H5f HT) as Hse.
  destruct (settle x job d (wrap64 (slen content)) w5) as [[sum|e] w6]; destruct Hse as (H6 & _ & H6ok).
  2:{ split; [|done]. intros p Hp. apply P5. destruct H6; congruence. }
  destruct (H6ok sum eq_refl) as (K1 & K2 & K3 & K4 & K5).
  unfold lift at 1, change_state, modify. set (w7 := set_state _ w6).
  pose proof (save_saves x env w7) as [_ S8]. unfold lift. destruct (save x env w7) as [[] w8]. cbn [snd] in S8.
  assert (w_fs w8 !! partialPath x job = None) as K8.
  { rewrite S8 by (apply state_not_payload; [set_solver|done]). done. }
  split; [intros p; by rewrite K8|]. intros dr [= <-]. split_and!; [|done|done].
  constructor; try done. cbn. rewrite S8 by (apply state_not_payload; [set_solver|done]). done.
Qed.

(** A job tried again and again: each attempt in its own circumstances, until one
    succeeds. *)
Fixpoint attempts (x : Executor) (job : TransferJob) (envs : list exec_env) (w : world)
  : option downloadResult * world :=
  match envs with
  | [] => (None, w)
  | env :: rest =>
    match download x env job (e_download env) w with
    | (Ok dr, w) => (Some dr, w)
    | (Err _, w) => attempts x job rest w
    end
  end.

(** The circumstances under which resuming is exact. *)
Record resumable (x : Executor) (job : TransferJob) (content : string) (envs : list exec_env) : Prop := {
  rz_root : store_root (x_stateStore x) <> "";
  rz_path : TrimSpace (finalPath x job) = finalPath x job;
  rz_resume : resuming x job = true;
  rz_range : forall set, NewHeaderSet (map_to_list (Headers (Source job))) = Ok set -> set !! HeaderRange = None;
  rz_size : in_int64 (slen content);
  rz_envs : Forall (fun env => d_stat (e_download env) = None /\ honest content (e_download env)) envs
}.

(** C2: interrupted downloads add up.  For a job with resume enabled and no Range header of its
    own, over any number of attempts against a server of one resource, cut off anywhere by any
    failure, the partial file is always a prefix of the resource; an attempt that reports success
    leaves exactly the resource, reports its length and its SHA-256, which is the one the job
    expects, and at least the minimum size the job asks for.  With resume disabled the
    reported length can be wrong ([disabled_resume_miscounts]). *)
Theorem download_attempts_exact x job content envs w :
  resumable x job content envs -> partial_ok x job content w ->
  let '(res, w') := attempts x job envs w in
  partial_ok x job content w' /\
  forall dr, res = Some dr -> fetched x job content dr w' /\ dr_Bytes dr = slen content /\
    (0 < minBytes job (x_MinBytes x) -> minBytes job (x_MinBytes x) <= slen content).
Proof.
  intros [H1 H2 H3 H4 H5 HF]. revert w. induction HF as [|env envs [Hs Hh] _ IH]; intros w HP; cbn [attempts]; [done|].
  pose proof (download_run x env job content (e_download env) w H1 H2 Hs Hh H3 H4 HP) as HD.
  rewrite !(wrap64_id (slen content) H5) in HD.
  destruct (download x env job (e_download env) w) as [[dr|e] w1]; destruct HD as [HP1 HD1].
  - split; [done|]. intros ? [= <-]. by apply HD1.
  - by apply IH.
Qed.

(** *** A concrete node *)
Definition sample_executor : Executor :=
  mkExecutor "data/transfer" true 0 true "" "" (mkLocalUploader "data/storage") (mkStateStore "data/transfer/jobs")
    None true.
Definition movie : string := "0123456789".
Definition sample_exec_job : TransferJob :=
  mkTransferJob "job-1" "remote_download"
    (mkTransferSource "http://origin/movie" ∅ "" true 0 true 4 true "")
    (mkTransferDestination "local" "" "" "" "" "" "" "" false "" "" "movies" "a.ts" "" "" "" "" ∅)
    (mkTransferControl 0 0 0 0) ∅ ∅.

(** A server that honours ranges inside the resource. *)
Definition movie_server (request : request_parts) : result response :=
  match r_Header request !! HeaderRange with
  | None => Ok (mkResponse 200 "video/mp2t" 10 movie None)
  | Some h =>
    match find (fun k => String.eqb h (range_from (Z.of_nat k))) (seq 0 10) with
    | Some k => Ok (mkResponse 206 "video/mp2t" 0 (str (drop k (chars movie))) None)
    | None => Ok (mkResponse 416 "" 0 "" None)
    end
  end.

(** A copy that breaks off after [k] bytes, or goes through. *)
Definition attempt_env (server : request_parts -> result response) (k : option nat) : exec_env :=
  mkExecEnv (fun n => 1 + Z.of_nat n) (fun _ => mkSaveFault None None None) (fun s => Ok (js_Status s))
    (fun _ => None) sample_ops_env None
    (mkDownloadEnv None None None (fun _ _ => None) server None
       ((fun n => (n, Errorf "connection reset")) <$> k) [(2, 100)] None None None None)
    upload_ok (fun _ _ => ([], Err (Errorf "no remote"))) (None, None, None, fun _ => Err (Errorf "no url")) (fun l => Ok (JobUUID l))
    (None, None, None) "ab".
Definition empty_world : world :=
  mkWorld ∅ (NewTracker 2) (claimed_state sample_exec_job 1 1) [] 0 0.

Lemma range_from_inj a b : range_from a = range_from b -> a = b.
Proof.
  unfold range_from, Itoa. intros E. apply (f_equal chars) in E. rewrite !chars_app in E.
  apply app_inj_1 in E as [_ E]; [|done]. apply app_inj_2 in E as [E _]; [|done].
  apply chars_inj in E. by apply (inj pretty).
Qed.

Lemma movie_honest k : honest movie (e_download (attempt_env movie_server k)).
Proof.
  intros request r. cbn [e_download attempt_env d_server]. unfold movie_server.
  destruct (r_Header request !! HeaderRange) as [h|]; [|intros [= <-]; split; [done|intros ? [=]]].
  intros Hr. split; [done|]. intros n [= ->] H206.
  destruct (find _ _) as [m|] eqn:EO; [|by injection Hr as <-]. injection Hr as <-. cbn [Body].
  apply find_some in EO as [_ E%String.eqb_eq]. apply range_from_inj, Nat2Z.inj in E. by subst.
Qed.

(** Three attempts, the first two cut off: the third completes the file. *)
Lemma download_attempts_exact_witness :
  let envs := [attempt_env movie_server (Some 3%nat); attempt_env movie_server (Some 5%nat);
               attempt_env movie_server None] in
  (attempts sample_executor sample_exec_job envs empty_world).2.(w_fs) !! finalPath sample_executor sample_exec_job
    = Some movie.
Proof.
  intros envs.
  pose proof (download_attempts_exact sample_executor sample_exec_job movie envs empty_world) as H.
  destruct (attempts sample_executor sample_exec_job envs empty_world) as [res w'] eqn:EA.
  assert (is_Some res) as [dr Hdr].
  { apply (f_equal fst) in EA. cbn [fst] in EA. rewrite <- EA. apply (bool_decide_unpack _). vm_compute. exact I. }
  destruct H as [_ H].
  - constructor.
    + discriminate.
    + vm_compute. reflexivity.
    + reflexivity.
    + intros set [= <-]. reflexivity.
    + split; vm_compute; discriminate.
    + do 3 (constructor; [split; [reflexivity|apply movie_honest]|]). constructor.
  - intros p Hp. discriminate Hp.
  - destruct (H dr Hdr) as [[H1 H2 _ _ _] _]. cbn [snd]. rewrite <- H1. exact H2.
Defined.

(** ** Where resuming gets stuck *)

(** With something on disk and resuming on, an answer other than 206 fails the job and
    leaves the partial file as it is. *)
Lemma resume_refused x env job d w :
  store_root (x_stateStore x) <> "" -> d_stat d = None -> resuming x job = true -> on_disk x job w <> "" ->
  (forall request r, d_server d request = Ok r -> StatusCode r <> 206) ->
  let '(res, w') := download x env job d w in
  is_ok res = false /\ w_fs w' !! partialPath x job = w_fs w !! partialPath x job.
Proof.
  intros Hroot Hs He Hne H206. unfold download. unfold mbind, E_bind. unfold check at 1.
  destruct (d_mkdir d); [done|].
  unfold lift at 1, change_state, modify. set (w1 := set_state _ w).
  pose proof (save_saves x env w1) as [_ S2]. unfold lift at 1. destruct (save x env w1) as [[] w2]. cbn [snd] in S2.
  assert (w_fs w2 !! partialPath x job = w_fs w !! partialPath x job) as P2.
  { rewrite S2 by (apply state_not_payload; [set_solver|done]). done. }
  pose proof (prepare_run x job d w2 Hs) as Hprep. destruct (prepare x job d w2) as [[[resume request]|e] w3];
    destruct Hprep as [-> Hprep]; [|done].
  destruct (Hprep resume request eq_refl) as (_ & HG & _). cbv zeta in HG.
  assert (on_disk x job w2 = on_disk x job w) as Eo by (unfold on_disk; by rewrite P2).
  assert (0 < slen (on_disk x job w)) as Hpos.
  { unfold slen, zlen. destruct (chars (on_disk x job w)) eqn:E; [by apply chars_nil in E|cbn; lia]. }
  rewrite He, Eo, (proj2 (Z.ltb_lt _ _) Hpos) in HG. cbn [andb] in HG.
  unfold lift at 1, now, of_result. destruct (d_server d request) as [r|e] eqn:ED; [|done].
  destruct (accept x job resume r) as [[]|e] eqn:EA; [|done]. apply accept_status in EA as [_ EA].
  exfalso. apply (H206 request r ED), EA. rewrite HG. discriminate.
Qed.

(** Once something is on disk, a server that ignores ranges, or answers 416 because
    the file on disk is already complete, makes every further attempt fail. *)
Theorem refused_resume_never_completes x job envs w :
  store_root (x_stateStore x) <> "" -> resuming x job = true -> on_disk x job w <> "" ->
  Forall (fun env => d_stat (e_download env) = None /\
    forall request r, d_server (e_download env) request = Ok r -> StatusCode r <> 206) envs ->
  (attempts x job envs w).1 = None.
Proof.
  intros Hroot He Hne HF. revert w Hne. induction HF as [|env envs [Hs H206] _ IH]; intros w Hne; [done|].
  cbn [attempts]. pose proof (resume_refused x env job (e_download env) w Hroot Hs He Hne H206) as HD.
  destruct (download x env job (e_download env) w) as [[dr|e] w1]; destruct HD as [H1 H2]; [done|].
  apply IH. unfold on_disk in *. by rewrite H2.
Qed.

(** ** End to end: what a completed local transfer delivers *)

(** The local state stays that of the same job. *)
Definition same_job (w w' : world) : Prop := js_UUID (w_state w') = js_UUID (w_state w).
#[global] Instance same_job_pre : PreOrder same_job.
Proof. split; [done|]. intros w1 w2 w3. unfold same_job. congruence. Qed.

Lemma saves_same_job {A} x (m : M A) : steps (saves x) m -> steps same_job m.
Proof. intros H w. apply H. Qed.

Lemma download_same_job x env job d : steps same_job (download x env job d : M (result downloadResult)).
Proof.
  unfold download, prepare, fetch, settle. walk;
    try (apply (saves_same_job x); auto using save_saves, now_saves, report_saves with exec; fail);
    by apply steps_modify.
Qed.

(** Whatever the server sent: a successful download reports the digest of the file it
    leaves. *)
Lemma download_digest x env job d w dr w' :
  store_root (x_stateStore x) <> "" -> TrimSpace (finalPath x job) = finalPath x job ->
  download x env job d w = (Ok dr, w') -> exists content,
    dr_Path dr = finalPath x job /\ w_fs w' !! finalPath x job = Some content /\
    dr_ChecksumSHA256 dr = hex_string (sha256 (bytes_of content)) /\
    (TrimSpace (ExpectedSHA256 (Source job)) <> "" ->
       EqualFold (dr_ChecksumSHA256 dr) (TrimSpace (ExpectedSHA256 (Source job))) = true).
Proof.
  intros Hroot HT. unfold download. unfold mbind, E_bind. unfold check at 1.
  destruct (d_mkdir d); [done|]. unfold lift at 1, change_state, modify.
  unfold lift at 1. destruct (save x env _) as [[] w2].
  destruct (prepare x job d w2) as [[[resume request]|e] w3]; [|done].
  unfold lift at 1, now, of_result. destruct (d_server d request) as [r|e]; [|done].
  destruct (accept x job resume r) as [[]|e]; [|done].
  set (w4 := mkWorld _ _ _ _ _ _). pose proof (fetch_run x env job d resume r w4 Hroot) as Hf. cbv zeta in Hf.
  destruct (fetch x env job d resume r w4) as [[n|e] w5]; [|done]. destruct Hf as (_ & _ & Hf).
  destruct (Hf n eq_refl) as [Hp _]. pose proof (settle_run x job d n w5 _ Hp HT) as Hse.
  destruct (settle x job d n w5) as [[sum|e] w6]; [|done]. destruct Hse as (_ & _ & Hse).
  destruct (Hse sum eq_refl) as (K1 & _ & K3 & K4 & _).
  unfold lift at 1, change_state, modify. set (w7 := set_state _ w6).
  pose proof (save_saves x env w7) as [_ S8]. unfold lift. destruct (save x env w7) as [[] w8]. cbn [snd] in S8.
  intros [= <- <-]. eexists. split_and!; [done| |done|done].
  rewrite S8 by (apply state_not_payload; [set_solver|done]). done.
Qed.

(** The store of objects and the files of the executor do not overlap. *)
Record disjoint_dirs (x : Executor) (job : TransferJob) (localPath : string) : Prop := {
  dd_adapter : NewLocalAdapter localPath = Ok (x_localAdapter x);
  dd_root : store_root (x_stateStore x) <> "";
  dd_trim : TrimSpace (finalPath x job) = finalPath x job;
  dd_final : ~ path_stack (root (x_localAdapter x)) `suffix_of` path_stack (finalPath x job);
  dd_state : ~ path_stack (root (x_localAdapter x)) `suffix_of` path_stack (Path (x_stateStore x) (UUID job))
}.

Lemma resolved_disjoint x job localPath op dst : disjoint_dirs x job localPath ->
  ResolveDestination (x_localAdapter x) op = Ok dst ->
  dst <> finalPath x job /\ dst <> Path (x_stateStore x) (UUID job) /\
  exists added, added <> [] /\ Forall plain added /\ path_stack dst = added ++ path_stack (root (x_localAdapter x)).
Proof.
  intros [H1 _ _ H4 H5] HR. destruct (resolved_inside localPath _ op dst H1 HR) as (added & K1 & K2 & _ & K3).
  split_and!; [|intros ->|by exists added].
  - intros ->. apply H4. rewrite K3. by exists added.
  - apply H5. rewrite K3. by exists added.
Qed.

(** The object path of a job: what the storage layer makes of the destination. *)
Definition job_key (job : TransferJob) : result string :=
  let d := Destination job in
  CanonicalObjectPath (mkUploadRequest "" (objectPath d) "" "" (DirectoryPath d) (RelativePath d) "" "" "" "" ∅).
Lemma request_key job dr : CanonicalObjectPath (storageUploadRequest job dr) = job_key job.
Proof. reflexivity. Qed.

(** A path that needs no cleaning is the key as it stands. *)
Definition ordinary_path (p : string) : bool :=
  bool_decide (TrimSpace p = p /\ slashes p = p /\ Clean p = p /\ p ∉ [""; "."; ".."]) &&
  negb (HasPrefix p "../") && negb (HasPrefix p "/").
Lemma ordinary_key job : ordinary_path (ObjectPath (Destination job)) = true -> job_key job = Ok (ObjectPath (Destination job)).
Proof.
  unfold ordinary_path. intros [[(H1 & H2 & H3 & H4)%bool_decide_eq_true H5%negb_true_iff]%andb_true_iff H6%negb_true_iff]%andb_true_iff.
  assert (TrimLeftChar slash (ObjectPath (Destination job)) = ObjectPath (Destination job)) as HT by (by apply TrimLeftChar_relative).
  unfold job_key, CanonicalObjectPath, objectPath, NormalizeObjectPath. cbn [sr_ObjectPath]. rewrite H1.
  assert (String.eqb (ObjectPath (Destination job)) "" = false) as N1 by (apply String.eqb_neq; intros E; apply H4; rewrite E; in_list).
  assert (String.eqb (ObjectPath (Destination job)) "." = false) as N2 by (apply String.eqb_neq; intros E; apply H4; rewrite E; in_list).
  assert (String.eqb (ObjectPath (Destination job)) ".." = false) as N3 by (apply String.eqb_neq; intros E; apply H4; rewrite E; in_list).
  rewrite N1. cbn [negb]. rewrite H2, HT, H1, N1. cbn [negb]. by rewrite H2, H1, N1, H6, H3, N2, N3, H5.
Qed.

(** An object that was delivered and is described by its result. *)
Record delivered (x : Executor) (job : TransferJob) (dr : downloadResult) (ob : TransferObjectResult)
  (content : string) (w : world) : Prop := {
  de_file : w_fs w !! ob_URL ob = Some content;
  de_size : ob_Size ob = slen content;
  de_sum : ob_ChecksumSHA256 ob = dr_ChecksumSHA256 dr;
  de_inside : exists added, added <> [] /\ Forall plain added /\
    path_stack (ob_URL ob) = added ++ path_stack (root (x_localAdapter x));
  de_not_state : ob_URL ob <> Path (x_stateStore x) (UUID job);
  de_where : job_key job = Ok (ob_Path ob) /\ ResolveDestination (x_localAdapter x) (ob_Path ob) = Ok (ob_URL ob)
}.

Lemma saves_delivered x job dr ob content w w' : js_UUID (w_state w) = UUID job -> saves x w w' ->
  delivered x job dr ob content w -> delivered x job dr ob content w'.
Proof.
  intros HU [_ HF] [H1 H2 H3 H4 H5 H6]. constructor; try done. rewrite HF; [done|]. unfold state_path. by rewrite HU.
Qed.

Lemma upload_delivers x env job localPath dr content w ob w' :
  disjoint_dirs x job localPath -> js_UUID (w_state w) = UUID job -> dr_Path dr = finalPath x job ->
  w_fs w !! finalPath x job = Some content ->
  ToLower (TrimSpace (Driver (Destination job))) ∈ [""; "local"] ->
  upload x env job dr w = (Ok ob, w') ->
  delivered x job dr ob content w' /\ js_UUID (w_state w') = UUID job.
Proof.
  intros HD HU Hp Hc Hdrv. unfold upload. unfold mbind, E_bind. unfold lift at 1.
  pose proof (progress_saves x env job "upload" 0 0 0 fzero "Upload iniciado." w) as [U1 F1].
  destruct (progress _ _ _ _ _ _ _ _ _ w) as [[] w1]. cbn [snd] in U1, F1. cbv zeta.
  replace (String.eqb _ _ || _) with true by (set_unfold in Hdrv; destruct_or! Hdrv; by rewrite Hdrv).
  unfold uploadLocal. unfold mbind, E_bind.
  destruct (AdapterUpload _ _ _ (w_fs w1)) as [[r|e] fs2] eqn:EU; [|done]. unfold AdapterUpload in EU.
  rewrite request_key in EU. destruct (job_key job) as [op|] eqn:EK; [|done].
  destruct (Upload.Upload _ _ _ _) as [[res|] fs3] eqn:EUp; [|done]. injection EU as <- <-.
  assert (ResolveDestination (x_localAdapter x) op = Ok (ResDestinationPath res)) as HR
    by exact (Upload_resolves _ _ _ _ _ _ EUp).
  destruct (resolved_disjoint x job localPath op _ HD HR) as (N1 & N2 & HA).
  assert (ResDestinationPath res <> dr_Path dr) as Hne by (by rewrite Hp).
  destruct (Upload_stores _ _ _ _ _ _ EUp Hne) as (_ & (c & C1 & C2 & C3) & _).
  assert (c = content) as ->.
  { cbn in C1. rewrite Hp in C1. rewrite F1 in C1 by (apply state_not_payload; [set_solver|apply HD]). congruence. }
  set (w2 := set_fs fs3 w1).
  set (obj := to_object _ _ _).
  assert (delivered x job dr obj content w2) as D2 by (by constructor).
  assert (js_UUID (w_state w2) = UUID job) as U2 by (cbn; congruence).
  unfold lift, upload_done. cbn [res_BytesWritten].
  pose proof (progress_saves x env job "upload" (ResBytesWritten res) (ResBytesWritten res) 0 (float64 100) "Upload local concluído." w2) as S3.
  destruct (progress _ _ _ _ _ _ _ _ _ w2) as [[] w3].
  pose proof (progress_saves x env job "upload" (ResBytesWritten res) (ResBytesWritten res) 0 (float64 100) "Upload local concluído." w3) as S4.
  destruct (progress _ _ _ _ _ _ _ _ _ w3) as [[] w4]. cbn [snd] in S3, S4.
  intros [= <- <-]. assert (js_UUID (w_state w3) = UUID job) as U3 by (rewrite <- U2; apply S3).
  split; [|rewrite <- U3; apply S4]. eapply saves_delivered; [exact U3|exact S4|].
  by eapply saves_delivered; [exact U2|exact S3|].
Qed.

Lemma announce_run x env job w : js_UUID (w_state (announce x env job w).2) = UUID job /\
  forall p, p <> Path (x_stateStore x) (UUID job) -> w_fs (announce x env job w).2 !! p = w_fs w !! p.
Proof.
  assert (forall t1 t2, steps (fun w w' => js_UUID (w_state w') = UUID job /\
      forall p, p <> Path (x_stateStore x) (UUID job) -> w_fs w' !! p = w_fs w !! p)
    (change_state (fun _ => claimed_state job t1 t2);;
     updateActiveJob env job "claim" "Job reivindicado pelo Agent." 0 0 0 fzero;;
     save x env;; send x env CbStarted;; now env;;
     updateActiveJob env job "download" "Download iniciado." 0 0 0 fzero)) as H.
  2: exact (H _ _ (mkWorld (w_fs w) (w_tracker w) (w_state w) (w_sent w) (S (S (w_reads w))) (w_saves w))).
  intros t1 t2 w0. unfold mbind at 1, M_bind at 1. unfold change_state, modify. cbv beta. set (w1 := set_state _ w0).
  change (w_fs w0) with (w_fs w1). change (UUID job) with (js_UUID (w_state w1)).
  match goal with |- context [w_state (?m w1).2] => enough (steps (saves x) m) as Hs by exact (Hs w1) end.
  walk; auto using save_saves, now_saves, updateActiveJob_saves, send_saves, saves_pre.
Qed.

Lemma finish_job_run x env job dr ob w :
  saves x w (finish_job x env job dr ob w).2 /\
  (x_callbacks x = true -> last (w_sent (finish_job x env job dr ob w).2) =
     Some (CbCompleted (dr_Bytes dr) (dr_ChecksumSHA256 dr) ob)).
Proof.
  split.
  - enough (steps (saves x) (finish_job x env job dr ob)) as Hs by apply Hs. unfold finish_job.
    walk; auto using save_saves, now_saves, updateActiveJob_saves, send_saves, change_state_saves, saves_pre.
  - unfold finish_job, mbind, M_bind. intros HC. destruct (updateActiveJob _ _ _ _ _ _ _ _ w) as [[] w1].
    destruct (now env w1) as [t w2]. destruct (change_state _ w2) as [[] w3]. destruct (save x env w3) as [[] w4].
    unfold send. rewrite HC. cbn. by rewrite last_snoc.
Qed.

Lemma fail_job_error x env job stage err temp w : (fail_job x env job stage err temp w).1 <> None.
Proof.
  unfold fail_job, mbind, M_bind. cbv zeta. destruct (change_state _ w) as [[] w1]. destruct (save x env w1) as [[] w2].
  destruct (deadLetter _ _ _ _ _ _ w2) as [[] w3]. by destruct (send _ _ _ w3).
Qed.

(** What a successful job has done, whatever its destination: it downloaded a file, which is the
    resource of an honest server, uploaded it with success and, when there is a hub, reported
    it. *)
Record succeeded (x : Executor) (env : exec_env) (job : TransferJob) (dr : downloadResult) (ob : TransferObjectResult)
  (content : string) (w before after w' : world) : Prop := {
  su_source : forall resource, d_stat (e_download env) = None -> honest resource (e_download env) -> resuming x job = true ->
    (forall set, NewHeaderSet (map_to_list (Headers (Source job))) = Ok set -> set !! HeaderRange = None) ->
    partial_ok x job resource w -> content = resource /\ dr_Bytes dr = wrap64 (slen content);
  su_path : dr_Path dr = finalPath x job;
  su_file : w_fs before !! finalPath x job = Some content;
  su_sum : dr_ChecksumSHA256 dr = hex_string (sha256 (bytes_of content));
  su_expected : TrimSpace (ExpectedSHA256 (Source job)) <> "" ->
    EqualFold (dr_ChecksumSHA256 dr) (TrimSpace (ExpectedSHA256 (Source job))) = true;
  su_uuid : js_UUID (w_state before) = UUID job;
  su_upload : upload x env job dr before = (Ok ob, after);
  su_saves : saves x after w';
  su_last : x_callbacks x = true -> last (w_sent w') = Some (CbCompleted (dr_Bytes dr) (dr_ChecksumSHA256 dr) ob)
}.

Lemma transfer_body_success x env job w w' :
  store_root (x_stateStore x) <> "" -> TrimSpace (finalPath x job) = finalPath x job ->
  transfer_body x env job w = (None, w') -> exists dr ob content before after, succeeded x env job dr ob content w before after w'.
Proof.
  intros Hroot HT. unfold transfer_body. unfold mbind, M_bind.
  destruct (announce_run x env job w) as [U1 F1]. destruct (announce x env job w) as [[] w1]. cbn [snd] in U1, F1.
  pose proof (download_same_job x env job (e_download env) w1) as U2. unfold same_job in U2.
  destruct (download x env job (e_download env) w1) as [[dr|e] w2] eqn:ED; cbn [snd] in U2.
  2:{ intros HF. apply (f_equal fst) in HF. by apply fail_job_error in HF. }
  destruct (download_digest x env job _ w1 dr w2 Hroot HT ED) as (content & D1 & D2 & D3 & D4).
  assert (steps (saves x) (begin_upload env job dr)) as S3.
  { unfold begin_upload. walk; auto using now_saves, updateActiveJob_saves, saves_pre. }
  specialize (S3 w2). destruct (begin_upload env job dr w2) as [[] w3]. destruct S3 as [U3 F3]. cbn [snd] in U3, F3.
  assert (w_fs w3 !! finalPath x job = Some content) as D5.
  { rewrite F3 by (apply state_not_payload; [set_solver|done]). done. }
  destruct (upload x env job dr w3) as [[ob|e] w4] eqn:EU.
  2:{ intros HF. apply (f_equal fst) in HF. by apply fail_job_error in HF. }
  destruct (finish_job_run x env job dr ob w4) as [S5 L5]. destruct (finish_job x env job dr ob w4) as [err w5].
  cbn [snd] in S5, L5. intros [= -> ->]. exists dr, ob, content, w3, w4.
  split; [|done|done|done|done|congruence|done|done|done]. intros resource HS HH HR HN HP.
  pose proof (download_run x env job resource (e_download env) w1 Hroot HT HS HH HR HN) as HD. rewrite ED in HD.
  destruct HD as [_ HD]; [|destruct (HD dr eq_refl) as ([_ HF _ _ _] & HB & _); rewrite D1 in HF; split; congruence].
  intros p Hp. apply HP. rewrite <- F1; [done|]. intros E. apply (state_not_payload x job w1 "payload.part"); [set_solver|done|].
  unfold state_path. by rewrite U1.
Qed.

Lemma Execute_success x env job w w' :
  store_root (x_stateStore x) <> "" -> TrimSpace (finalPath x job) = finalPath x job ->
  Execute x env job w = (None, w') -> exists dr ob content before after, succeeded x env job dr ob content w before after w'.
Proof.
  intros Hroot HT. unfold Execute. destruct (ValidateTransferJob job) as [[]|e]; [|done].
  unfold mbind, M_bind. destruct (negb _).
  { by destruct (send _ _ _ w). }
  assert (w_fs (try_start env job w).2 = w_fs w) as HF.
  { unfold try_start, mbind, M_bind, start_at. cbn [now]. by destruct (TryStartJob _ _ _). }
  destruct (try_start env job w) as [[] w1]; cbn [negb]; [|done]. cbn [snd] in HF.
  destruct (transfer_body x env job w1) as [err w2] eqn:EB. unfold modify. intros [= -> <-].
  destruct (transfer_body_success x env job w1 w2 Hroot HT EB) as (dr & ob & content & w3 & w4 & [HS]).
  exists dr, ob, content, w3, w4. split; [|done..]. intros resource. unfold partial_ok in *. rewrite <- HF. apply HS.
Qed.

(** A local transfer that [Execute] reports as successful has delivered: the object
    lies strictly inside the local store, holds exactly the bytes whose SHA-256 was
    computed, has the length the result says, matches the digest the job expects, and
    the last callback is the completion that reports this digest and this object. *)
Theorem Execute_delivers x env job localPath w w' :
  disjoint_dirs x job localPath -> ToLower (TrimSpace (Driver (Destination job))) ∈ [""; "local"] ->
  Execute x env job w = (None, w') -> exists dr ob content,
    delivered x job dr ob content w' /\
    dr_ChecksumSHA256 dr = hex_string (sha256 (bytes_of content)) /\
    (TrimSpace (ExpectedSHA256 (Source job)) <> "" ->
       EqualFold (dr_ChecksumSHA256 dr) (TrimSpace (ExpectedSHA256 (Source job))) = true) /\
    (x_callbacks x = true -> last (w_sent w') = Some (CbCompleted (dr_Bytes dr) (dr_ChecksumSHA256 dr) ob)).
Proof.
  intros HD Hdrv HE.
  destruct (Execute_success x env job w w' (dd_root _ _ _ HD) (dd_trim _ _ _ HD) HE) as (dr & ob & content & w3 & w4 & []).
  destruct (upload_delivers x env job localPath dr content w3 ob w4 HD) as [DE U4]; [done..|].
  exists dr, ob, content. split_and!; [|done..]. by eapply saves_delivered; [exact U4| |].
Qed.

Lemma sample_disjoint : disjoint_dirs sample_executor sample_exec_job "data/storage".
Proof.
  constructor.
  - vm_compute. reflexivity.
  - discriminate.
  - vm_compute. reflexivity.
  - apply (bool_decide_unpack _). vm_compute. exact I.
  - apply (bool_decide_unpack _). vm_compute. exact I.
Qed.

Lemma Execute_delivers_witness :
  let w' := (Execute sample_executor (attempt_env movie_server None) sample_exec_job empty_world).2 in
  exists dr ob content, delivered sample_executor sample_exec_job dr ob content w' /\
    last (w_sent w') = Some (CbCompleted (dr_Bytes dr) (dr_ChecksumSHA256 dr) ob).
Proof.
  intros w'.
  assert ((Execute sample_executor (attempt_env movie_server None) sample_exec_job empty_world).1 = None) as E1
    by (vm_compute; reflexivity).
  destruct (Execute_delivers sample_executor (attempt_env movie_server None) sample_exec_job "data/storage"
    empty_world w') as (dr & ob & content & H1 & _ & _ & H2).
  - exact sample_disjoint.
  - apply (bool_decide_unpack _). vm_compute. exact I.
  - subst w'. generalize E1. clear. intros E1.
    destruct (Execute sample_executor (attempt_env movie_server None) sample_exec_job empty_world) as [err w1].
    cbn [fst snd] in *. by rewrite E1.
  - exists dr, ob, content. split; [exact H1|]. apply H2. reflexivity.
Defined.

Example sample_delivered :
  let w' := (Execute sample_executor (attempt_env movie_server None) sample_exec_job empty_world).2 in
  w_fs w' !! "data/storage/movies/a.ts" = Some movie /\ completed (w_tracker w') = 1.
Proof. vm_compute. split; reflexivity. Qed.

(** ** Observations *)

(** With resuming switched off the old partial file is overwritten but still counted. *)
Definition no_resume_executor : Executor :=
  mkExecutor "data/transfer" true 0 false "" "" (mkLocalUploader "data/storage") (mkStateStore "data/transfer/jobs")
    None true.
Definition no_resume_job : TransferJob :=
  mkTransferJob "job-1" "remote_download" (mkTransferSource "http://origin/movie" ∅ "" true 0 false 15 true "")
    (Destination sample_exec_job) (Control sample_exec_job) ∅ ∅.
Definition leftover_world : world :=
  set_fs {["data/transfer/downloads/job-1/payload.part" := "xxxxxxxx"]} empty_world.

Theorem disabled_resume_miscounts :
  let env := attempt_env movie_server None in
  let '(res, w') := download no_resume_executor env no_resume_job (e_download env) leftover_world in
  w_fs w' !! "data/transfer/downloads/job-1/payload.bin" = Some movie /\
  match res with Ok dr => dr_Bytes dr = 18 | Err _ => False end /\ minBytes no_resume_job 0 = 15.
Proof. vm_compute. split_and!; reflexivity. Qed.

(** The identifier ".." passes validation and places the job's files in the work
    directory itself. *)
Theorem dotdot_job_leaves_downloads :
  let job := mkTransferJob ".." "op" (Source sample_exec_job) (Destination sample_exec_job) (Control sample_exec_job) ∅ ∅ in
  ValidateTransferJob job = Ok tt /\ partialPath sample_executor job = "data/transfer/payload.part".
Proof. vm_compute. split; reflexivity. Qed.

(** A malformed parameter hides an HTML page from the filter. *)
Theorem malformed_html_not_blocked :
  shouldBlockHTML sample_exec_job true "text/html; charset=utf-8" = true /\
  shouldBlockHTML sample_exec_job true "text/html; charset" = false.
Proof. vm_compute. split; reflexivity. Qed.
