(* ===== verification/Meter.v ===== *)
(** * Writers and readers that measure

    The throttled writer of download/bandwidth.go, the progress writer of
    transfer/executor.go and the progress reader of storage/auren.go.  Clock readings are
    arguments; a call that reports or waits tells so in its result. *)
From Stdlib Require Import SpecFloat.
From S2P Require Import Prelude GoFloat GoTime GoJson Transfer Fetch Executor.

(** ** Speed and percentage *)

(** [Duration.Seconds] *)
Definition Seconds (d : Duration) : spec_float :=
  SFadd prec emax (float64 (Z.quot d second)) (fdiv (float64 (Z.rem d second)) (float64 second)).
Definition speed_of (current : Z) (elapsed : Duration) : Z :=
  let seconds := Seconds elapsed in
  if SFltb fzero seconds then int64_of_float (fdiv (float64 current) seconds) else 0.

Record meter := mkMeter { mt_current : Z; mt_total : Z; mt_interval : Duration; mt_last : Z }.
Record report := mkReport { rp_at : Z; rp_current : Z; rp_total : Z; rp_speed : Z; rp_percent : spec_float }.

(** One call: the bytes it moved, the clock, and the time since the start. *)
Record reading := mkReading { rd_bytes : Z; rd_now : Z; rd_elapsed : Duration }.
Definition make_report (m : meter) (current : Z) (r : reading) : report :=
  mkReport (rd_now r) current (mt_total m) (speed_of current (rd_elapsed r)) (progressPercent current (mt_total m)).

(** [progressWriter.Write]: the clock is [UnixNano]. *)
Definition progress_Write (r : reading) (m : meter) : meter * option report :=
  if rd_bytes r <=? 0 then (m, None) else
  let current := wrap64 (mt_current m + rd_bytes r) in
  if (mt_last m =? 0) || (mt_interval m <=? wrap64 (rd_now r - mt_last m))
  then (mkMeter current (mt_total m) (mt_interval m) (rd_now r), Some (make_report m current r))
  else (mkMeter current (mt_total m) (mt_interval m) (mt_last m), None).

(** [progressReader.Read]: it also reports when the total is reached. *)
Definition progress_Read (r : reading) (m : meter) : meter * option report :=
  if rd_bytes r <=? 0 then (m, None) else
  let current := wrap64 (mt_current m + rd_bytes r) in
  if IsZero (mt_last m) || (mt_interval m <=? time_Sub (rd_now r) (mt_last m)) || (current =? mt_total m)
  then (mkMeter current (mt_total m) (mt_interval m) (rd_now r), Some (make_report m current r))
  else (mkMeter current (mt_total m) (mt_interval m) (mt_last m), None).

Section Runs.
Context (call : reading -> meter -> meter * option report).
Fixpoint measure (readings : list reading) (m : meter) : meter * list report :=
  match readings with
  | [] => (m, [])
  | r :: rest =>
    let '(m, sent) := call r m in
    let '(m', reports) := measure rest m in
    (m', match sent with Some report => report :: reports | None => reports end)
  end.
End Runs.

(** ** What the reports say *)
Definition moved (readings : list reading) : Z := zsum (fun r => Z.max 0 (rd_bytes r)) readings.

(** Reports in order: the counts rise above [low] and do not pass [high]. *)
Fixpoint rising (low high : Z) (reports : list report) : Prop :=
  match reports with
  | [] => True
  | r :: rest => low < rp_current r <= high /\ rising (rp_current r) high rest
  end.
Lemma rising_weaken low low' high reports : low <= low' -> rising low' high reports -> rising low high reports.
Proof. destruct reports; cbn; [done|]. intros ? [? ?]. split; [lia|done]. Qed.

(** A call of a meter either only counts, or counts and reports the new count. *)
Definition counts (call : reading -> meter -> meter * option report) : Prop := forall r m,
  (rd_bytes r <= 0 /\ call r m = (m, None)) \/
  (0 < rd_bytes r /\ exists last sent,
     call r m = (mkMeter (wrap64 (mt_current m + rd_bytes r)) (mt_total m) (mt_interval m) last, sent) /\
     (sent = None \/ sent = Some (make_report m (wrap64 (mt_current m + rd_bytes r)) r))).
Lemma write_counts : counts progress_Write.
Proof.
  intros r m. unfold progress_Write. destruct (Z.leb_spec (rd_bytes r) 0); [by left|right]. split; [done|]. cbv zeta.
  destruct (_ || _); eexists _, _; (split; [reflexivity|]); tauto.
Qed.
Lemma read_counts : counts progress_Read.
Proof.
  intros r m. unfold progress_Read. destruct (Z.leb_spec (rd_bytes r) 0); [by left|right]. split; [done|]. cbv zeta.
  destruct (_ || _); eexists _, _; (split; [reflexivity|]); tauto.
Qed.

Lemma moved_cons r rest : moved (r :: rest) = Z.max 0 (rd_bytes r) + moved rest.
Proof. done. Qed.
Lemma moved_nonneg l : 0 <= moved l.
Proof. apply zsum_nonneg, Forall_forall. intros. lia. Qed.

Lemma measure_counts call readings m : counts call -> 0 <= mt_current m -> mt_current m + moved readings <= int64_max ->
  let '(m', reports) := measure call readings m in
  mt_current m' = mt_current m + moved readings /\ mt_total m' = mt_total m /\ rising (mt_current m) (mt_current m') reports /\
  Forall (fun rp => rp_total rp = mt_total m) reports.
Proof.
  intros HC. revert m. induction readings as [|r rest IH]; intros m H0 Hm; cbn [measure]; [cbn; split_and!; [lia|done|done|constructor]|].
  rewrite moved_cons in Hm. pose proof (moved_nonneg rest) as Hr.
  destruct (HC r m) as [[Hle ->]|(Hlt & last & sent & -> & Hs)].
  - specialize (IH m H0). destruct (measure call rest m) as [m' reports]. rewrite moved_cons, Z.max_l in * by lia.
    destruct IH as (I1 & I2 & I3 & I4); [lia|]. split_and!; [lia|done|done|done].
  - rewrite Z.max_r in Hm by lia. assert (wrap64 (mt_current m + rd_bytes r) = mt_current m + rd_bytes r) as HW.
    { apply wrap64_id. unfold in_int64, int64_min. lia. }
    rewrite HW in *. set (m1 := mkMeter _ _ _ _).
    specialize (IH m1). assert (mt_current m1 = mt_current m + rd_bytes r) as E1 by done.
    assert (mt_total m1 = mt_total m) as E2 by done. rewrite E1, E2 in IH.
    destruct (measure call rest m1) as [m' reports]. destruct IH as (I1 & I2 & I3 & I4); [lia..|].
    rewrite moved_cons, Z.max_r by lia. destruct Hs as [-> | ->]; cbn [make_report].
    + split_and!; [lia|done|eapply rising_weaken; [|done]; lia|done].
    + split_and!; [lia|done| |by constructor]. cbn [rising rp_current make_report]. split; [lia|done].
Qed.

(** The progress of an upload.  Whatever sizes the reads have and however fast they come, the
    counts the hub is told rise, never pass the bytes read, and all name the size of the
    source; when the source has been read to its end the last report says so. *)
Theorem upload_progress_complete readings total interval :
  moved readings <= int64_max ->
  let '(m, reports) := measure progress_Read readings (mkMeter 0 total interval 0) in
  mt_current m = moved readings /\ rising 0 (moved readings) reports /\ Forall (fun rp => rp_total rp = total) reports /\
  (moved readings = total -> 0 < total -> exists rp, last reports = Some rp /\ rp_current rp = total).
Proof.
  intros Hm. pose proof (measure_counts progress_Read readings (mkMeter 0 total interval 0) read_counts) as HC.
  cbn [mt_current mt_total] in HC. specialize (HC ltac:(lia) Hm).
  assert (forall l m, 0 <= mt_current m -> mt_current m + moved l <= int64_max -> mt_current m + moved l = mt_total m -> 0 < moved l ->
    exists rp, last (measure progress_Read l m).2 = Some rp /\ rp_current rp = mt_total m) as HL.
  { clear. induction l as [|r rest IH]; intros m H0 Hm HT Hp; [cbn in Hp; lia|]. rewrite moved_cons in *. pose proof (moved_nonneg rest) as Hr.
    cbn [measure]. destruct (Z.leb_spec (rd_bytes r) 0) as [Hle|Hlt].
    { unfold progress_Read at 1. rewrite (proj2 (Z.leb_le _ _) Hle). rewrite Z.max_l in * by lia.
      destruct (IH m) as (rp & H1 & H2); [lia..|]. destruct (measure progress_Read rest m). by exists rp. }
    rewrite Z.max_r in * by lia.
    assert (wrap64 (mt_current m + rd_bytes r) = mt_current m + rd_bytes r) as HW by (apply wrap64_id; unfold in_int64, int64_min; lia).
    destruct (decide (moved rest = 0)) as [Hz|Hz].
    - pose proof (measure_counts progress_Read rest) as HC. unfold progress_Read at 1. rewrite (proj2 (Z.leb_gt _ _) Hlt). cbv zeta. rewrite HW.
      rewrite (proj2 (Z.eqb_eq (mt_current m + rd_bytes r) (mt_total m))) by lia. rewrite orb_true_r. set (m1 := mkMeter _ _ _ _).
      specialize (HC m1 read_counts). assert (mt_current m1 = mt_current m + rd_bytes r) as E1 by done. rewrite E1, Hz in HC.
      destruct (measure progress_Read rest m1) as [m' reports]. destruct HC as (I1 & _ & I3 & _); [lia..|].
      destruct reports as [|rp reports]; [|cbn in I3; lia]. eexists. split; [reflexivity|]. cbn. lia.
    - destruct (read_counts r m) as [[? _]|(_ & last & sent & -> & _)]; [lia|]. rewrite HW. set (m1 := mkMeter _ _ _ _).
      destruct (IH m1) as (rp & H1 & H2); [cbn; lia..|]. destruct (measure progress_Read rest m1) as [m' reports]. exists rp.
      split; [|done]. destruct sent; [|done]. destruct reports; [done|exact H1]. }
  destruct (measure progress_Read readings _) as [m reports] eqn:EM. destruct HC as (I1 & I2 & I3 & I4).
  split_and!; [lia|by rewrite I1 in I3|done|]. intros HT Hp.
  destruct (HL readings (mkMeter 0 total interval 0)) as (rp & H1 & H2); [cbn; lia..|]. rewrite EM in H1. by exists rp.
Qed.

Lemma upload_progress_complete_witness : exists m reports,
  measure progress_Read [mkReading 400 (5 * second) second; mkReading 100 (6 * second) (2 * second); mkReading 500 (6 * second) (2 * second)]
    (mkMeter 0 1000 (2 * second) 0) = (m, reports) /\
  map rp_current reports = [400; 1000] /\ (exists rp, last reports = Some rp /\ rp_current rp = 1000).
Proof.
  set (readings := [mkReading 400 (5 * second) second; mkReading 100 (6 * second) (2 * second); mkReading 500 (6 * second) (2 * second)]).
  pose proof (upload_progress_complete readings 1000 (2 * second)) as H.
  destruct (measure progress_Read readings (mkMeter 0 1000 (2 * second) 0)) as [m reports] eqn:E.
  exists m, reports. destruct H as (_ & _ & _ & H); [vm_compute; discriminate|]. split; [reflexivity|]. split.
  - change reports with (m, reports).2. rewrite <- E. vm_compute. reflexivity.
  - apply H; vm_compute; reflexivity.
Defined.

(** ** The throttled writer *)

(** [Wait]: the time it asks the timer for, and its error when the context ends first. *)
Definition Wait (bytesPerSecond bytes : Z) (started now : Time) (cancelled : option error) : option error * Duration :=
  if negb (bandwidth_Enabled bytesPerSecond) then (None, 0) else
  let delay := DelayFor bytesPerSecond bytes (time_Sub now started) in
  if delay <=? 0 then (None, 0) else (cancelled, delay).

Record throttle := mkThrottle { th_started : Time; th_written : Z }.
(** [bandwidthWriter.Write] after the underlying writer took [written] bytes. *)
Definition throttle_Write (bytesPerSecond written : Z) (err : option error) (now : Time) (cancelled : option error) (t : throttle)
  : (Z * option error) * Duration * throttle :=
  let t := if 0 <? written then mkThrottle (th_started t) (wrap64 (th_written t + written)) else t in
  match err with
  | Some e => (written, Some e, 0, t)
  | None =>
    if written <=? 0 then (written, None, 0, t) else
    let '(waited, delay) := Wait bytesPerSecond (th_written t) (th_started t) now cancelled in
    (written, waited, delay, t)
  end.

(** A throttled writer keeps its rate: a write that took bytes and returns without error,
    after a timer that is not early, does not return before the time all bytes so far need at
    the configured rate. *)
Theorem throttle_keeps_rate bytesPerSecond written now cancelled t n delay t' returned :
  0 < bytesPerSecond -> 0 < written -> th_started t <= now -> 0 < wrap64 (th_written t + written) ->
  throttle_Write bytesPerSecond written None now cancelled t = (n, None, delay, t') -> now + delay <= returned ->
  n = written /\ th_written t' = wrap64 (th_written t + written) /\
  th_started t + expected_duration bytesPerSecond (th_written t') <= returned.
Proof.
  intros HB Hw Hs Hp. unfold throttle_Write. rewrite (proj2 (Z.ltb_lt _ _)), (proj2 (Z.leb_gt _ _)) by done. cbn [th_started th_written].
  unfold Wait, bandwidth_Enabled. rewrite (proj2 (Z.ltb_lt _ _)) by done. cbn [negb]. cbv zeta. unfold DelayFor.
  rewrite (proj2 (Z.leb_gt _ _) HB), (proj2 (Z.leb_gt _ _) Hp). cbn [orb]. pose proof (int64_of_float_range
    (fmul (fdiv (float64 (wrap64 (th_written t + written))) (float64 bytesPerSecond)) (float64 second))) as HR.
  fold (expected_duration bytesPerSecond (wrap64 (th_written t + written))) in HR. set (expected := expected_duration _ _) in *.
  pose proof (time_Sub_range now (th_started t)) as HE. assert (0 <= time_Sub now (th_started t) <= now - th_started t) as HT.
  { unfold time_Sub, int64_min, int64_max. lia. }
  rewrite (proj2 (Z.ltb_ge _ _)) by lia. destruct (Z.leb_spec expected (time_Sub now (th_started t))) as [Hle|Hlt].
  { intros [= <- <- <-] Hret. cbn [th_written]. split_and!; [done|done|lia]. }
  rewrite wrap64_id by (unfold in_int64, int64_min, int64_max in *; lia). rewrite (proj2 (Z.leb_gt _ _)) by lia.
  intros [= <- _ <- <-] Hret. cbn [th_written]. split_and!; [done|done|lia].
Qed.
Lemma throttle_keeps_rate_witness : let t' := mkThrottle 0 5000 in
  throttle_Write 1000 4000 None second None (mkThrottle 0 1000) = (4000, None, 4 * second, t') /\
  expected_duration 1000 5000 = 5 * second /\ 0 + expected_duration 1000 (th_written t') <= 5 * second.
Proof.
  split; [vm_compute; reflexivity|]. split; [vm_compute; reflexivity|].
  destruct (throttle_keeps_rate 1000 4000 second None (mkThrottle 0 1000) 4000 (4 * second) (mkThrottle 0 5000) (5 * second)) as (_ & _ & H).
  - lia.
  - lia.
  - vm_compute. discriminate.
  - vm_compute. reflexivity.
  - vm_compute. reflexivity.
  - vm_compute. discriminate.
  - exact H.
Defined.

(** ** Observation: the speed of a resumed download

    The count of a resumed download starts with the bytes already there, and the speed divides
    it by the time of this attempt: ten bytes in one second on top of a megabyte are reported
    as a megabyte per second.  Unlike the reader, the writer makes no last report. *)
Theorem resumed_speed_is_too_high :
  measure progress_Write [mkReading 10 (9 * second) second; mkReading 10 (9 * second + 1) second] (mkMeter 1000000 1000020 (5 * second) 0) =
    (mkMeter 1000020 1000020 (5 * second) (9 * second),
     [mkReport (9 * second) 1000010 1000020 1000010 (progressPercent 1000010 1000020)]).
Proof. vm_compute. reflexivity. Qed.
