(* ===== verification/Delivery.v ===== *)
(** * From the source to the destination

    The executor (Executor.v) with the stores it uploads to: the options of the S3 and the
    Auren Storage adapters that [upload] of internal/transfer/executor.go takes from the job
    and the settings, and [NewExecutor].  The theorem puts the parts together: a transfer that
    is reported as completed has copied the resource of its source, byte for byte, to where
    the job wanted it. *)
From Stdlib Require Import SpecFloat.
From S2P Require Import Prelude GoStrings GoUrl GoUrlText GoPath GoCrypto GoFloat GoTime GoJson GoFS Ranges Upload Storage Download S3 AurenStorage Ops Transfer Executor ConfigData.

(** ** The adapters of a job *)
Definition s3_options (cfg : Config) (job : TransferJob) : S3Options :=
  let d := Destination job in let s := cfg_Storage cfg in
  mkS3Options (firstNonEmpty [Endpoint d; Storage_Endpoint s]) (firstNonEmpty [Bucket d; Storage_Bucket s]) (Storage_Region s)
    (firstNonEmpty [AccessKeyID d; Storage_AccessKeyID s]) (firstNonEmpty [SecretAccessKey d; Storage_SecretAccessKey s])
    (firstNonEmpty [SessionToken d; Storage_SessionToken s])
    (ForcePathStyle d || Storage_S3ForcePathStyle s || Storage_UsePathStyle s).

Definition auren_options (cfg : Config) (job : TransferJob) : AurenOptions :=
  let d := Destination job in let s := cfg_Storage cfg in
  mkAurenOptions (firstNonEmpty [Endpoint d; Storage_Endpoint s]) (firstNonEmpty [BucketUUID d; Bucket d; Storage_Bucket s]) ""
    (Storage_Region s) (firstNonEmpty [TokenHeader d; Security_TokenHeader (cfg_Security cfg)])
    (firstNonEmpty [Token d; Storage_APIKey s]) (Upload_MultipartEnabled (cfg_Upload cfg))
    (uploadPartSizeBytes (Upload_PartSize (cfg_Upload cfg))).

Definition driver (job : TransferJob) : string := ToLower (TrimSpace (Driver (Destination job))).

Section Delivery.
Context (format_float : spec_float -> string) (decode : string -> result object).

(** The upload to a remote store: the adapter is built and asked. *)
Definition remote (cfg : Config) (job : TransferJob) (se : s3_env) (ae : auren_env) (fs : FS) (request : UploadRequest)
  : result UploadResult :=
  if String.eqb (driver job) DriverS3
  then adapter ← NewS3Adapter (s3_options cfg job); (S3Upload adapter se request fs).1
  else adapter ← NewAurenStorageAdapter (auren_options cfg job); (AurenUpload format_float decode adapter ae request fs []).1.

(** [NewExecutor]; [hasCallbacks] is decided by the hub client and the registered node. *)
Definition NewExecutor (cfg : Config) (httpClient : bool) (localAdapter : option LocalUploader) (stateStore : option StateStore)
  (operations : option Runtime) (callbacks : bool) (tracker : option Tracker) : result (Executor * Tracker) :=
  if negb httpClient then Err (Errorf "transfer executor download client cannot be nil") else
  match localAdapter, stateStore with
  | None, _ => Err (Errorf "transfer executor local adapter cannot be nil")
  | _, None => Err (Errorf "transfer executor state store cannot be nil")
  | Some local, Some store =>
    let h := cfg_MediaHub cfg in
    Ok (mkExecutor (MediaHub_WorkDir h) (MediaHub_BlockHTML h) (MediaHub_MinBytes h) (Download_ResumeEnabled (cfg_Download cfg))
          (Storage_Bucket (cfg_Storage cfg)) (Security_TokenHeader (cfg_Security cfg)) local store operations callbacks,
        default (NewTracker (MediaHub_MaxConcurrentJobs h)) tracker)
  end.

(** ** What arrives *)

(** The object path [key] of a job whose destination names a path that needs no cleaning is that
    path. *)
Definition named (job : TransferJob) (key : string) : Prop :=
  job_key job = Ok key /\ (ordinary_path (ObjectPath (Destination job)) = true -> key = ObjectPath (Destination job)).

(** The bytes [content] are at the destination of the job: in the file of the local store its
    object path names, strictly inside the store; or in what the remote store accepted, sent to
    the address of the object in the bucket, to the signed address, or to Auren Storage under
    the object path. *)
Definition arrived (cfg : Config) (x : Executor) (env : exec_env) (job : TransferJob) (se : s3_env) (ae : auren_env)
  (ob : TransferObjectResult) (content : string) (w' : world) : Prop :=
  if String.eqb (driver job) "" || String.eqb (driver job) DriverLocal then
    named job (ob_Path ob) /\ ob_URL ob = Join2 (root (x_localAdapter x)) (Clean (TrimSpace (ob_Path ob))) /\
    w_fs w' !! ob_URL ob = Some content /\
    exists added, added <> [] /\ Forall plain added /\ path_stack (ob_URL ob) = added ++ path_stack (root (x_localAdapter x))
  else if String.eqb (driver job) DriverS3 then
    exists adapter request fs r q answer, NewS3Adapter (s3_options cfg job) = Ok adapter /\
      S3Upload adapter se request fs = (Ok r, Some q) /\ s3_sent adapter se request fs (Ok r) q /\
      named job (ob_Path ob) /\ s3_objectURL adapter (ob_Path ob) = Ok (ob_URL ob) /\
      (exists url, full_Parse (ob_URL ob) = Ok url /\ s3q_Host q = removeEmptyPort (u_Host url) /\
         s3q_URL q = with_path (chars (removeEmptyPort (u_Host url))) (u_Path url) (u_RawPath url) url) /\
      (forall scheme host, plain_endpoint adapter scheme host -> plain_name (s3_bucket adapter) -> plain_key (ob_Path ob) ->
         ob_URL ob = plain_target adapter scheme host (ob_Path ob)) /\
      s3q_Body q = content /\ header_get "X-Amz-Content-Sha256" (s3q_Header q) = hexSHA256 content /\
      s3e_trip se q = Ok answer /\ 200 <= s3p_Status answer < 300
  else if String.eqb (driver job) DriverAurenStorage then
    if negb (String.eqb (TrimSpace (UploadURL (Destination job))) "") then
      exists q status location, (e_signed env).2 q = Ok (status, location) /\ 200 <= status < 300 /\
        sg_URL q = UploadURL (Destination job) /\ sg_Body q = content /\ sg_ContentLength q = slen content
    else
      exists adapter request fs r log, NewAurenStorageAdapter (auren_options cfg job) = Ok adapter /\
        AurenUpload format_float decode adapter ae request fs [] = (Ok r, log) /\
        uploaded adapter ae request content (Ok r) [] log /\ sr_ObjectPath request = objectPath (Destination job)
  else False.

(** A source that serves the resource, a partial file of it at most, a store that does not
    redirect, and the parts put together as the agent does. *)
Record transfers (cfg : Config) (x : Executor) (env : exec_env) (job : TransferJob) (localPath : string) (se : s3_env) (ae : auren_env)
  (resource : string) (w : world) : Prop := mkTransfers {
  tr_built : exists tracker t,
    NewExecutor cfg true (Some (x_localAdapter x)) (Some (x_stateStore x)) (x_operations x) (x_callbacks x) tracker = Ok (x, t);
  tr_local : disjoint_dirs x job localPath;
  tr_resumable : resumable x job resource [env];
  tr_partial : partial_ok x job resource w;
  tr_remote : forall fs request, (e_remote env fs request).2 = remote cfg job se ae fs request;
  tr_direct : forall q answer, s3e_trip se q = Ok answer -> redirected answer = false;
  tr_creates : creates ae;
  tr_stat : ae_stat ae = None;
  tr_size : slen resource + Z.max defaultAurenPartSize (ao_PartSize (auren_options cfg job)) <= int64_max
}.

Lemma part_size options adapter : NewAurenStorageAdapter options = Ok adapter ->
  0 < au_partSize adapter <= Z.max defaultAurenPartSize (ao_PartSize options).
Proof.
  unfold NewAurenStorageAdapter. destruct (String.eqb _ ""); [done|]. destruct (url_Parse _) as [parsed|]; [|done].
  do 3 (case_match; [done|]). intros [= <-]. cbn [au_partSize]. destruct (Z.leb_spec (ao_PartSize options) 0); unfold defaultAurenPartSize; lia.
Qed.

Lemma digest_trimmed content : TrimSpace (hexSHA256 content) = hexSHA256 content /\ String.eqb (hexSHA256 content) "" = false.
Proof.
  unfold hexSHA256. destruct (hex_sha256_shape (bytes_of content)) as [HL HF]. generalize dependent (hex_string (sha256 (bytes_of content))).
  intros h HL HF. split.
  - apply TrimSpace_id. eapply Forall_impl; [exact HF|]. apply lower_hex_no_space.
  - apply String.eqb_neq. intros ->. discriminate HL.
Qed.

(** [upload] to a remote store: what it reads is the downloaded file. *)
Lemma remote_upload_run x env job dr w r w' : remote_upload x env job dr w = (Ok r, w') ->
  (e_remote env (w_fs w) (storageUploadRequest job dr)).2 = Ok r.
Proof.
  unfold remote_upload, mbind, E_bind, gets, lift, of_result. destruct (e_remote env (w_fs w) _) as [reports res].
  destruct (adapter_reports _ _ _ _ _) as [[] w1]. by intros [= -> _].
Qed.

Lemma s3_arrives cfg job se ae fs request content r : driver job = DriverS3 -> remote cfg job se ae fs request = Ok r ->
  fs !! sr_SourcePath request = Some content -> sr_ChecksumSHA256 request = hexSHA256 content ->
  (forall q answer, s3e_trip se q = Ok answer -> redirected answer = false) -> CanonicalObjectPath request = job_key job ->
  exists adapter q answer, NewS3Adapter (s3_options cfg job) = Ok adapter /\ S3Upload adapter se request fs = (Ok r, Some q) /\
    s3_sent adapter se request fs (Ok r) q /\ job_key job = Ok (res_ObjectPath r) /\
    s3_objectURL adapter (res_ObjectPath r) = Ok (res_Location r) /\
    (exists url, full_Parse (res_Location r) = Ok url /\ s3q_Host q = removeEmptyPort (u_Host url) /\
       s3q_URL q = with_path (chars (removeEmptyPort (u_Host url))) (u_Path url) (u_RawPath url) url) /\
    s3q_Body q = content /\ header_get "X-Amz-Content-Sha256" (s3q_Header q) = hexSHA256 content /\
    s3e_trip se q = Ok answer /\ 200 <= s3p_Status answer < 300.
Proof.
  intros HD HR Hfs Hsum Hdir HK. unfold remote in HR. rewrite HD in HR. cbn [String.eqb DriverS3] in HR.
  apply bind_Ok in HR as (adapter & HA & HR). destruct (S3Upload_sent _ _ _ _ _ HR) as (q & HQ & HS).
  pose proof HS as (op & c & sum & target & url & Hop & Hc & _ & HB & HC & HSum & (T1 & T2 & T3 & T4 & _) & _ & Hok).
  destruct (Hok r eq_refl) as (<- & <- & _ & answer & Ha & H2). exists adapter, q, answer. split_and!.
  - done.
  - by rewrite (surjective_pairing (S3Upload _ _ _ _)), HR, HQ.
  - done.
  - by rewrite <- HK.
  - done.
  - by exists url.
  - congruence.
  - rewrite HC, HSum, Hsum. destruct (digest_trimmed content) as [T N]. cbv zeta. by rewrite T, N.
  - done.
  - apply H2, (Hdir q answer Ha).
  - apply H2, (Hdir q answer Ha).
Qed.

Lemma auren_arrives cfg job se ae fs request content r : driver job <> DriverS3 -> remote cfg job se ae fs request = Ok r ->
  fs !! sr_SourcePath request = Some content -> creates ae -> ae_stat ae = None ->
  slen content + Z.max defaultAurenPartSize (ao_PartSize (auren_options cfg job)) <= int64_max ->
  exists adapter log, NewAurenStorageAdapter (auren_options cfg job) = Ok adapter /\
    AurenUpload format_float decode adapter ae request fs [] = (Ok r, log) /\ uploaded adapter ae request content (Ok r) [] log.
Proof.
  intros HD HR Hfs HC HS HZ. unfold remote in HR. rewrite (proj2 (String.eqb_neq _ _) HD) in HR.
  apply bind_Ok in HR as (adapter & HA & HR). pose proof (part_size _ _ HA) as HP.
  pose proof (AurenUpload_spec format_float decode adapter ae request content fs [] HC) as HU.
  destruct (AurenUpload _ _ _ _ _ _ _) as [res log] eqn:EU. cbn [fst snd] in *. subst res.
  exists adapter, log. split_and!; [done..|]. apply HU; [lia|lia|done|done].
Qed.

Lemma key_named job key : job_key job = Ok key -> named job key.
Proof. intros H. split; [done|]. intros HO. rewrite (ordinary_key job HO) in H. by injection H. Qed.
Lemma resolved_path u key p : ResolveDestination u key = Ok p -> p = Join2 (root u) (Clean (TrimSpace key)).
Proof. unfold ResolveDestination. repeat (case_match; [done|]). by intros [= <-]. Qed.

(** A successful upload of the downloaded file has brought its bytes to the destination. *)
Lemma upload_arrives cfg x env job se ae dr content w ob w' localPath after :
  (forall fs request, (e_remote env fs request).2 = remote cfg job se ae fs request) ->
  (forall q answer, s3e_trip se q = Ok answer -> redirected answer = false) -> creates ae -> ae_stat ae = None ->
  slen content + Z.max defaultAurenPartSize (ao_PartSize (auren_options cfg job)) <= int64_max -> disjoint_dirs x job localPath ->
  dr_Path dr = finalPath x job -> dr_ChecksumSHA256 dr = hexSHA256 content -> w_fs w !! finalPath x job = Some content ->
  js_UUID (w_state w) = UUID job -> upload x env job dr w = (Ok ob, w') -> saves x w' after ->
  arrived cfg x env job se ae ob content after.
Proof.
  intros HR Hdir HC HS HZ HD HP Hsum Hc HU Hup Hsv. unfold arrived. destruct (String.eqb (driver job) "" || _) eqn:EL.
  { destruct (upload_delivers x env job localPath dr content w ob w' HD HU HP Hc) as [HDe HU']; [|exact Hup|].
    - apply orb_true_iff in EL as [E%String.eqb_eq|E%String.eqb_eq]; unfold driver in E; rewrite E; in_list.
    - apply (saves_delivered _ _ _ _ _ _ _ HU' Hsv) in HDe as [H1 _ _ H2 _ [H3 H4]]. split_and!; [|by apply resolved_path|done|done].
      by apply key_named. }
  revert Hup. unfold upload. unfold mbind, E_bind. unfold lift at 1.
  pose proof (progress_saves x env job "upload" 0 0 0 fzero "Upload iniciado." w) as [U1 F1].
  destruct (progress _ _ _ _ _ _ _ _ _ w) as [[] w1]. cbn [snd] in U1, F1. cbv zeta. fold (driver job). rewrite EL.
  assert (w_fs w1 !! sr_SourcePath (storageUploadRequest job dr) = Some content) as Hfs.
  { cbn [storageUploadRequest sr_SourcePath]. rewrite HP, F1; [done|]. apply state_not_payload; [in_list|apply HD]. }
  destruct (String.eqb_spec (driver job) DriverS3) as [ES|NS].
  { destruct (remote_upload x env job dr w1) as [[r|e] w2] eqn:EU; [|done]. unfold lift, upload_done.
    destruct (progress _ _ _ _ _ _ _ _ _ w2) as [[] w3]. intros [= <- _]. apply remote_upload_run in EU. rewrite HR in EU.
    destruct (s3_arrives _ _ _ _ _ _ content _ ES EU Hfs Hsum Hdir eq_refl) as (adapter & q & answer & H1 & H2 & H3 & H4 & H5 & H6 & H7 & H8 & H9 & H10).
    exists adapter, (storageUploadRequest job dr), (w_fs w1), r, q, answer. cbn [to_object ob_Path ob_URL].
    refine (conj H1 (conj H2 (conj H3 (conj (key_named _ _ H4) (conj H5 (conj H6 (conj _ (conj H7 (conj H8 (conj H9 H10)))))))))). intros scheme host P1 P2 P3.
    rewrite (plain_objectURL _ _ _ _ P1 P2 P3) in H5. by injection H5. }
  destruct (String.eqb (driver job) DriverAurenStorage); [|done]. destruct (String.eqb (TrimSpace (UploadURL _)) ""); cbn [negb].
  - destruct (remote_upload x env job dr w1) as [[r|e] w2] eqn:EU; [|done]. intros _. apply remote_upload_run in EU. rewrite HR in EU.
    destruct (auren_arrives _ _ _ _ _ _ content _ NS EU Hfs HC HS HZ) as (adapter & log & H1 & H2 & H3).
    exists adapter, (storageUploadRequest job dr), (w_fs w1), r, log. by split_and!.
  - unfold uploadToSignedURL. destruct (e_signed env) as [[[open stat] create] answer]. unfold mbind, E_bind, gets, of_result, check.
    cbn [storageUploadRequest sr_SourcePath] in Hfs. unfold ReadFile. destruct open; [done|]. rewrite Hfs. destruct stat; [done|].
    destruct create; [done|]. cbn [snd]. destruct (answer _) as [[status location]|e] eqn:EA; [|done].
    destruct ((status <? 200) || _) eqn:EB; [done|]. intros _. exists (signed_request x job content), status, location. split; [done|].
    apply orb_false_iff in EB as [?%Z.ltb_ge ?%Z.leb_gt]. split; [lia|]. split_and!; reflexivity.
Qed.

(** C1: a transfer that is reported as completed has copied its source.  For a job with resume
    enabled and no Range header of its own, a source that serves the resource and keeps to the
    protocol, and stores whose answers come from them and not from a redirect: whatever failed
    before and whatever the partial file holds of the resource, the bytes at the destination of
    the job are those of the resource, in the file of the local store the object path of the job
    names, in the one PUT S3 accepted at the address of the object, in the request to the
    signed address, or in the form or the parts Auren Storage accepted; length and SHA-256 of
    the resource are what the last callback reports, and the digest is the one the job
    expects. *)
Theorem transfer_end_to_end cfg x env job localPath se ae resource w w' :
  transfers cfg x env job localPath se ae resource w -> Execute x env job w = (None, w') -> exists ob,
    arrived cfg x env job se ae ob resource w' /\
    (TrimSpace (ExpectedSHA256 (Source job)) <> "" ->
       EqualFold (hexSHA256 resource) (TrimSpace (ExpectedSHA256 (Source job))) = true) /\
    (x_callbacks x = true -> last (w_sent w') = Some (CbCompleted (slen resource) (hexSHA256 resource) ob)).
Proof.
  intros [_ HD [Z1 Z2 Z3 Z4 Z5 Z6] HP HR Hdir HC HS HZ] HE. apply Forall_cons in Z6 as [[E1 E2] _].
  destruct (Execute_success x env job w w' Z1 Z2 HE) as (dr & ob & content & w3 & w4 & []).
  destruct (su_source resource E1 E2 Z3 Z4 HP) as [-> HB]. rewrite wrap64_id in HB by done. fold (hexSHA256 resource) in su_sum.
  exists ob. rewrite <- su_sum, <- HB. split_and!; [|done|done].
  eapply (upload_arrives cfg x env job se ae dr resource w3 ob w4 localPath w'); done.
Qed.
End Delivery.

(** ** Example: a film goes to S3 *)
Definition delivery_executor : Executor :=
  mkExecutor (MediaHub_WorkDir (cfg_MediaHub DefaultConfig)) (MediaHub_BlockHTML (cfg_MediaHub DefaultConfig))
    (MediaHub_MinBytes (cfg_MediaHub DefaultConfig)) (Download_ResumeEnabled (cfg_Download DefaultConfig))
    (Storage_Bucket (cfg_Storage DefaultConfig)) (Security_TokenHeader (cfg_Security DefaultConfig))
    (mkLocalUploader "data/storage") (mkStateStore "data/transfer/jobs") None true.
Definition delivery_job : TransferJob :=
  mkTransferJob "job-1" "remote_download"
    (mkTransferSource "http://origin/movie" ∅ "" true 0 true 4 true "")
    (mkTransferDestination "S3" "" "" "" "" "AKID" "secret" "" false "" "media" "movies" "a.ts" "" "" "" "" ∅)
    (mkTransferControl 0 0 0 0) ∅ ∅.
Definition delivery_env : exec_env :=
  let e := attempt_env movie_server None in
  mkExecEnv (e_clock e) (e_save e) (e_marshal e) (e_send e) (e_ops e) (e_control e) (e_download e) (e_upload e)
    (fun fs request => ([], remote (fun _ => "") sample_answers DefaultConfig delivery_job sample_answer sample_service fs request))
    (e_signed e) (e_letter_marshal e) (e_letter e) (e_rand e).

Lemma transfer_end_to_end_witness :
  let w' := (Execute delivery_executor delivery_env delivery_job empty_world).2 in
  exists ob, arrived (fun _ => "") sample_answers DefaultConfig delivery_executor delivery_env delivery_job sample_answer sample_service ob movie w' /\
    last (w_sent w') = Some (CbCompleted 10 (hexSHA256 movie) ob).
Proof.
  intros w'.
  assert ((Execute delivery_executor delivery_env delivery_job empty_world).1 = None) as E1 by (vm_compute; reflexivity).
  destruct (transfer_end_to_end (fun _ => "") sample_answers DefaultConfig delivery_executor delivery_env delivery_job "data/storage"
    sample_answer sample_service movie empty_world w') as (ob & H1 & _ & H2).
  - split.
    + eexists None, _. reflexivity.
    + constructor; [vm_compute; reflexivity|discriminate|vm_compute; reflexivity|..]; apply (bool_decide_unpack _); vm_compute; exact I.
    + constructor; [discriminate|vm_compute; reflexivity|reflexivity| |vm_compute; split; discriminate|].
      * intros set. vm_compute. intros H. injection H as <-. reflexivity.
      * apply Forall_singleton. split; [reflexivity|apply (movie_honest None)].
    + intros p. vm_compute. discriminate.
    + intros fs request. reflexivity.
    + intros q answer. cbn. by intros [= <-].
    + intros url. reflexivity.
    + reflexivity.
    + vm_compute. discriminate.
  - subst w'. generalize E1. clear. intros E1.
    destruct (Execute delivery_executor delivery_env delivery_job empty_world) as [err w1]. cbn [fst snd] in *. by rewrite E1.
  - exists ob. split; [exact H1|]. exact (H2 eq_refl).
Defined.
