(* ===== verification/Background.v ===== *)
(** * The goroutines of a transfer

    [Execute] of internal/transfer/executor.go runs beside two goroutines: the one that asks
    the hub for operator control and cancels the context of the job, and the one that renews
    the lease.  They share the context, which is also cancelled when the context [Execute] was
    given is, the channel of the control error, the channel that stops the renewals and the
    local state of the job.  [act] is one step of one of them or of the parent context;
    an execution is any sequence of steps, so every interleaving is covered.  What the job does
    between two points of interest is any change of its state and any intermediate callbacks:
    Executor.v shows that download and upload send no others ([download_calm],
    [upload_calm]). *)
From Stdlib Require Import SpecFloat.
From S2P Require Import Prelude GoStrings GoFloat GoTime GoFS Storage Ops Transfer HubClient Executor.

(** ** Control *)
Definition stop_actions : list string := ["cancel"; "cancelled"; "canceled"; "pause"; "release"; "drain"].
Definition control_action (c : TransferControlResult) : string := ToLower (TrimSpace (tc_Action c)).
Definition stops (c : TransferControlResult) : bool := bool_decide (control_action c ∈ stop_actions).
Definition control_error (c : TransferControlResult) : error :=
  Errorf ("transfer control requested " +:+ control_action c +:+ ": " +:+ firstNonEmpty [tc_Reason c; "operator request"]).

(** What a renewal reports. *)
Definition lease_report (s : JobState) : callback :=
  CbProgress (firstNonEmpty [js_Stage s; "lease"]) (js_CurrentBytes s) (js_TotalBytes s).

(** ** Where the goroutines are *)
Inductive main_pc :=
| MWork                                   (* up to the end of the upload *)
| MFailed (stage : string) (e : error)    (* download or upload returned *)
| MSettled (stage : string) (e : error)   (* after preferControlError *)
| MCompleting (bytes : Z) (checksum : string) (ob : TransferObjectResult)   (* the object is stored, [completed] is next *)
| MAwaiting (sent : bool)                 (* in [SendTransferCompleted]: whether the request went out *)
| MEnding (r : option error)              (* no callback of the job is left to send *)
| MClosing (r : option error)             (* leaseStop is closed *)
| MReturned (r : option error).           (* the context is cancelled *)
Inductive watch_pc := WSelect | WPut (e : error) | WCancel | WStopped.
Inductive lease_pc := LSelect | LSend (c : callback) | LStopped.

(** [t_callbacks] is [hasCallbacks], taken to be the same throughout the job; [t_parent] tells
    that the context was cancelled by its parent, the context [Execute] was given. *)
Record threads := mkThreads {
  t_callbacks : bool; t_parent : bool;
  t_cancelled : bool; t_control : option error; t_leaseStop : bool; t_state : JobState; t_sent : list callback;
  t_main : main_pc; t_watch : watch_pc; t_lease : lease_pc;
  t_answers : list TransferControlResult   (* what the hub has answered so far *)
}.

(** [startControlWatcher] and [startLeaseRenewal]: the goroutines that are started. *)
Definition started (callbacks leaseEnabled : bool) (controlInterval : string) (state : JobState) (sent : list callback) : threads :=
  mkThreads callbacks false false None false state sent MWork
    (if callbacks && negb (String.eqb (TrimSpace controlInterval) "") then WSelect else WStopped)
    (if leaseEnabled && callbacks then LSelect else LStopped) [].

Definition set_main (m : main_pc) (s : threads) : threads :=
  mkThreads (t_callbacks s) (t_parent s) (t_cancelled s) (t_control s) (t_leaseStop s) (t_state s) (t_sent s) m (t_watch s) (t_lease s) (t_answers s).
Definition set_watch (p : watch_pc) (s : threads) : threads :=
  mkThreads (t_callbacks s) (t_parent s) (t_cancelled s) (t_control s) (t_leaseStop s) (t_state s) (t_sent s) (t_main s) p (t_lease s) (t_answers s).
Definition set_lease (p : lease_pc) (s : threads) : threads :=
  mkThreads (t_callbacks s) (t_parent s) (t_cancelled s) (t_control s) (t_leaseStop s) (t_state s) (t_sent s) (t_main s) (t_watch s) p (t_answers s).
Definition set_control (c : option error) (s : threads) : threads :=
  mkThreads (t_callbacks s) (t_parent s) (t_cancelled s) c (t_leaseStop s) (t_state s) (t_sent s) (t_main s) (t_watch s) (t_lease s) (t_answers s).
Definition set_stop (s : threads) : threads :=
  mkThreads (t_callbacks s) (t_parent s) (t_cancelled s) (t_control s) true (t_state s) (t_sent s) (t_main s) (t_watch s) (t_lease s) (t_answers s).
Definition cancel (s : threads) : threads :=
  mkThreads (t_callbacks s) (t_parent s) true (t_control s) (t_leaseStop s) (t_state s) (t_sent s) (t_main s) (t_watch s) (t_lease s) (t_answers s).
Definition cancel_parent (s : threads) : threads :=
  mkThreads (t_callbacks s) true true (t_control s) (t_leaseStop s) (t_state s) (t_sent s) (t_main s) (t_watch s) (t_lease s) (t_answers s).
Definition post (cs : list callback) (s : threads) : threads :=
  mkThreads (t_callbacks s) (t_parent s) (t_cancelled s) (t_control s) (t_leaseStop s) (t_state s) (t_sent s ++ cs) (t_main s) (t_watch s) (t_lease s) (t_answers s).
Definition store_state (state : JobState) (s : threads) : threads :=
  mkThreads (t_callbacks s) (t_parent s) (t_cancelled s) (t_control s) (t_leaseStop s) state (t_sent s) (t_main s) (t_watch s) (t_lease s) (t_answers s).
Definition answered (c : TransferControlResult) (s : threads) : threads :=
  mkThreads (t_callbacks s) (t_parent s) (t_cancelled s) (t_control s) (t_leaseStop s) (t_state s) (t_sent s) (t_main s) (t_watch s) (t_lease s) (t_answers s ++ [c]).

(** ** Steps *)
Inductive label :=
| Work (state : JobState) (cs : list callback)
| Fail (stage : string) (e : error)
| Complete (bytes : Z) (checksum : string) (ob : TransferObjectResult)
| Answer (answer : option error)
| Main
| Parent
| WatchTick (answer : result TransferControlResult) | WatchDone | Watch
| LeaseTick | LeaseDone | Lease.

(** The job.  Its callbacks are sent with the context of the job, so under a cancelled context
    no request goes out and the caller gets the error of the context; only [failed] is sent
    with a context of its own.  An operation fails with the error of a cancelled context only
    when the context is cancelled. *)
Definition act_main (l : label) (s : threads) : option threads :=
  match l, t_main s with
  | Work state cs, MWork =>
    if forallb (fun c => negb (terminal c)) cs && (bool_decide (cs = []) || t_callbacks s && negb (t_cancelled s))
    then Some (post cs (store_state state s)) else None
  | Fail stage e, MWork =>
    if errors_Is e context_Canceled && negb (t_cancelled s) then None else Some (set_main (MFailed stage e) s)
  | Complete bytes checksum ob, MWork => Some (set_main (MCompleting bytes checksum ob) s)
  | Main, MCompleting bytes checksum ob =>
    Some (if negb (t_callbacks s) then set_main (MEnding None) s
          else if t_cancelled s then set_main (MAwaiting false) s
          else set_main (MAwaiting true) (post [CbCompleted bytes checksum ob] s))
  | Answer None, MAwaiting true => Some (set_main (MEnding None) s)
  | Answer (Some e), MAwaiting true =>
    if errors_Is e context_Canceled && negb (t_cancelled s) then None else Some (set_main (MEnding (Some e)) s)
  | Answer (Some e), MAwaiting false => if errors_Is e context_Canceled then Some (set_main (MEnding (Some e)) s) else None
  | Main, MFailed stage e => Some (set_main (MSettled stage (preferControlError e (t_control s))) (set_control None s))
  | Main, MSettled stage e =>
    Some (set_main (MEnding (Some e)) (if t_callbacks s then post [CbFailed stage (Error e)] s else s))
  | Main, MEnding r => Some (set_main (MClosing r) (set_stop s))
  | Main, MClosing r => Some (set_main (MReturned r) (cancel s))
  | _, _ => None
  end.

(** The cancellation of the parent context reaches the context of the job, which
    [context.WithCancel] derives from it; a context that is cancelled already stays as it is. *)
Definition act_parent (s : threads) : option threads := if t_cancelled s then None else Some (cancel_parent s).

(** The goroutine of [startControlWatcher]. *)
Definition act_watch (l : label) (s : threads) : option threads :=
  match l, t_watch s with
  | WatchTick (Err _), WSelect => Some s
  | WatchTick (Ok c), WSelect => Some (set_watch (if stops c then WPut (control_error c) else WSelect) (answered c s))
  | WatchDone, WSelect => if t_cancelled s then Some (set_watch WStopped s) else None
  | Watch, WPut e => Some (set_watch WCancel (match t_control s with None => set_control (Some e) s | Some _ => s end))
  | Watch, WCancel => Some (set_watch WStopped (cancel s))
  | _, _ => None
  end.

(** The goroutine of [startLeaseRenewal]. *)
Definition act_lease (l : label) (s : threads) : option threads :=
  match l, t_lease s with
  | LeaseTick, LSelect => Some (set_lease (LSend (lease_report (t_state s))) s)
  | Lease, LSend c => Some (set_lease LSelect (post [c] s))
  | LeaseDone, LSelect => if t_cancelled s || t_leaseStop s then Some (set_lease LStopped s) else None
  | _, _ => None
  end.

Definition act (l : label) (s : threads) : option threads :=
  match l with
  | Work _ _ | Fail _ _ | Complete _ _ _ | Answer _ | Main => act_main l s
  | Parent => act_parent s
  | WatchTick _ | WatchDone | Watch => act_watch l s
  | LeaseTick | LeaseDone | Lease => act_lease l s
  end.
Fixpoint run (ls : list label) (s : threads) : option threads :=
  match ls with [] => Some s | l :: rest => s ← act l s; run rest s end.

(** ** The invariant *)
Definition main_open (m : main_pc) : bool := match m with MWork | MFailed _ _ => true | _ => false end.
Definition is_returned (m : main_pc) : bool := match m with MReturned _ => true | _ => false end.
Definition ended_with (m : main_pc) : option (option error) :=
  match m with MEnding r | MClosing r | MReturned r => Some r | _ => None end.
(** An error that stands for an answer of the hub. *)
Definition asked (s : threads) (e : error) : Prop := exists c, c ∈ t_answers s /\ stops c = true /\ e = control_error c.
Definition terminals (cs : list callback) : nat := length (filter (fun c => terminal c = true) cs).
Definition stop_answers (cs : list TransferControlResult) : nat := length (filter (fun c => stops c = true) cs).

(** What can have cancelled the context of a job that still runs. *)
Definition cause (s : threads) : Prop := (exists e, asked s e) \/ t_parent s = true.
(** The final callback when the job is over with [r]: one, unless the object was stored and the
    context was cancelled by then. *)
Definition final_ok (s : threads) (r : option error) : Prop :=
  if t_callbacks s
  then terminals (t_sent s) = 1%nat \/
       terminals (t_sent s) = 0%nat /\ cause s /\ exists e, r = Some e /\ errors_Is e context_Canceled = true
  else terminals (t_sent s) = 0%nat.
Definition once (s : threads) : Prop :=
  match t_main s with
  | MAwaiting true => terminals (t_sent s) = 1%nat /\ t_callbacks s = true
  | MAwaiting false => terminals (t_sent s) = 0%nat /\ t_callbacks s = true /\ cause s
  | MEnding r | MClosing r | MReturned r => final_ok s r
  | _ => terminals (t_sent s) = 0%nat
  end.

Record sound (s : threads) : Prop := mkSound {
  so_control : forall e, t_control s = Some e -> asked s e;
  so_put : forall e, t_watch s = WPut e -> asked s e;
  so_filled : t_watch s = WCancel \/ t_cancelled s = true -> main_open (t_main s) = true ->
              t_control s <> None \/ t_parent s = true;
  so_cancelled : t_cancelled s = true -> is_returned (t_main s) = true \/ cause s;
  so_cancel : t_watch s = WCancel -> exists e, asked s e;
  so_returned : is_returned (t_main s) = true -> t_cancelled s = true;
  so_failed : forall stage e, t_main s = MFailed stage e -> errors_Is e context_Canceled = true -> t_cancelled s = true;
  so_settled : forall stage e, t_main s = MSettled stage e -> errors_Is e context_Canceled = true -> t_parent s = true;
  so_once : once s;
  so_lease : forall c, t_lease s = LSend c -> terminal c = false;
  so_stops : stop_answers (t_answers s) = match t_watch s with WSelect => 0%nat | _ => stop_answers (t_answers s) end /\
             (stop_answers (t_answers s) <= 1)%nat
}.

Lemma terminals_app a b : terminals (a ++ b) = (terminals a + terminals b)%nat.
Proof. unfold terminals. by rewrite filter_app, length_app. Qed.
Lemma stop_answers_app a b : stop_answers (a ++ b) = (stop_answers a + stop_answers b)%nat.
Proof. unfold stop_answers. by rewrite filter_app, length_app. Qed.
Lemma stop_answers_one c : stop_answers [c] = if stops c then 1%nat else 0%nat.
Proof. unfold stop_answers. cbn. destruct (decide (stops c = true)) as [->|H]; [done|]. by apply not_true_is_false in H as ->. Qed.
Lemma no_terminals cs : forallb (fun c => negb (terminal c)) cs = true -> terminals cs = 0%nat.
Proof.
  unfold terminals. induction cs as [|c cs IH]; [done|]. cbn [forallb]. intros [H1%negb_true_iff H2]%andb_true_iff.
  rewrite filter_cons_False by congruence. by apply IH.
Qed.
Lemma control_error_own c : errors_Is (control_error c) context_Canceled = false.
Proof. reflexivity. Qed.
Lemma asked_answered s e c : asked s e -> asked (answered c s) e.
Proof. intros (c' & H1 & H2 & H3). exists c'. split_and!; [|done..]. cbn. apply elem_of_app. by left. Qed.

Lemma started_sound callbacks lease interval state sent : terminals sent = 0%nat ->
  sound (started callbacks lease interval state sent).
Proof.
  intros H. unfold started. split; cbn; try done; try (intros [?|?]; repeat case_match; done); try (repeat case_match; done).
  split; [|apply Nat.le_0_l]. by case_match.
Qed.

Ltac in_sound := cbn [set_main set_watch set_lease set_control set_stop cancel cancel_parent post store_state answered t_callbacks t_parent
  t_cancelled t_control t_leaseStop t_state t_sent t_main t_watch t_lease t_answers main_open is_returned once] in *.
Ltac open_threads s := destruct s as [cbs par can con stop st sent main watch lease ans].

(** Steps of the other goroutines keep what is known about the final callback. *)
Lemma once_mono s s' : t_main s' = t_main s -> terminals (t_sent s') = terminals (t_sent s) -> t_callbacks s' = t_callbacks s ->
  (cause s -> cause s') -> once s -> once s'.
Proof.
  intros H1 H2 H3 HC. unfold once, final_ok. rewrite H1, H2, H3.
  destruct (t_main s) as [| | | |[]|r|r|r]; try done; [naive_solver|destruct (t_callbacks s); naive_solver..].
Qed.
Lemma cause_same s s' : t_answers s' = t_answers s -> t_parent s' = t_parent s -> cause s -> cause s'.
Proof. unfold cause, asked. by intros -> ->. Qed.

Lemma settled_cancelled e con s : sound s -> (exists stage, t_main s = MFailed stage e) -> t_control s = con ->
  errors_Is (preferControlError e con) context_Canceled = true -> t_parent s = true.
Proof.
  intros HS [stage HM] <-. unfold preferControlError. destruct (t_control s) as [c|] eqn:EC; cbn [default]; intros HE.
  - destruct (so_control s HS c EC) as (k & _ & _ & ->). change (errors_Is (control_error k) context_Canceled = true) in HE. by rewrite control_error_own in HE.
  - destruct (so_filled s HS) as [|]; [right; by eapply so_failed|by rewrite HM|done..].
Qed.

Lemma act_main_sound l s s' : sound s -> act_main l s = Some s' -> sound s'.
Proof.
  intros HS. pose proof HS as [H1 H2 H3 H4 H5 H6 H7 H8 H9 H10 H11]. unfold act_main. open_threads s. in_sound.
  destruct l as [state cs|stage e|bytes checksum ob|[e|]| | | | | | | |]; try done; destruct main as [| | | |[]| | |]; try done; in_sound.
  - destruct (_ && _) eqn:E; [|done]. apply andb_true_iff in E as [E _]. intros [= <-]. split; in_sound; try done.
    by rewrite terminals_app, H9, (no_terminals cs).
  - destruct (_ && _) eqn:E; [done|]. intros [= <-]. split; in_sound; try done. intros stage' e' [= -> ->] He. rewrite He in E.
    by destruct can.
  - intros [= <-]. split; in_sound; done.
  - destruct (_ && _) eqn:E; [done|]. intros [= <-]. split; in_sound; try done. unfold final_ok. in_sound. destruct H9 as [H9 ->]. by left.
  - destruct (errors_Is e context_Canceled) eqn:E; [|done]. intros [= <-]. split; in_sound; try done.
    unfold final_ok. in_sound. destruct H9 as (H9 & -> & HC). right. split_and!; [done..|by exists e].
  - intros [= <-]. split; in_sound; try done. unfold final_ok. in_sound. destruct H9 as [H9 ->]. by left.
  - intros [= <-]. split; in_sound; try done. intros stage' e' [= <- <-] HE. by eapply (settled_cancelled e con _ HS); [eexists|..].
  - intros [= <-]. destruct cbs; split; in_sound; try done. unfold final_ok. in_sound. left. by rewrite terminals_app, H9.
  - intros [= <-]. destruct cbs; [destruct can|]; cbn [negb]; split; in_sound; try done.
    + split_and!; [done..|]. by destruct (H4 eq_refl).
    + rewrite terminals_app, H9. split; done.
  - intros [= <-]. split; in_sound; done.
  - intros [= <-]. split; in_sound; try done. by left.
Qed.

Lemma act_parent_sound s s' : sound s -> act_parent s = Some s' -> sound s'.
Proof.
  intros [H1 H2 H3 H4 H5 H6 H7 H8 H9 H10 H11]. unfold act_parent. destruct (t_cancelled s) eqn:EC; [done|]. intros [= <-].
  split; try done; try (by right); [intros _; right; by right|]. eapply once_mono; [..|exact H9]; [done..|]. intros _. by right.
Qed.

Lemma act_watch_sound l s s' : sound s -> act_watch l s = Some s' -> sound s'.
Proof.
  intros HS. pose proof HS as [H1 H2 H3 H4 H5 H6 H7 H8 H9 H10 H11]. unfold act_watch.
  destruct l as [| | | | | |[c|e]| | | | |]; try done; destruct (t_watch s) eqn:EW; try done.
  - intros [= <-]. assert (forall w e, asked s e -> asked (set_watch w (answered c s)) e) as HA.
    { intros w e (c' & K1 & K2 & K3). exists c'. split_and!; [|done..]. cbn. apply elem_of_app. by left. }
    assert (forall w, cause s -> cause (set_watch w (answered c s))) as HC.
    { intros w [[e He]|K]; [left; exists e; by apply HA|by right]. }
    split; try done.
    + intros e He. by apply HA, H1.
    + in_sound. destruct (stops c) eqn:ES; [|done]. intros e [= <-]. exists c. split_and!; [|done..]. cbn. apply elem_of_app. right. in_list.
    + intros [K|K]; [in_sound; by destruct (stops c)|]. by apply H3; right.
    + intros K. destruct (H4 K) as [K'|K']; [by left|]. right. by apply HC.
    + in_sound. by destruct (stops c).
    + eapply once_mono; [..|exact H9]; [done..|]. apply HC.
    + in_sound. rewrite stop_answers_app, stop_answers_one. destruct H11 as [-> _]. destruct (stops c); cbn; split; (done || lia).
  - intros [= <-]. exact HS.
  - destruct (t_cancelled s) eqn:EC; [|done]. intros [= <-]. split; in_sound; try done; try (split; [done|apply H11]); intros _; [|by apply H4].
    apply H3. by right.
  - intros [= <-]. destruct (H2 e eq_refl) as (c0 & K). open_threads s. in_sound. destruct con as [c|]; in_sound;
      (split; in_sound; try first [done|(split; [done|apply H11])]); try (intros _; exists e; by exists c0).
    + intros _ _. by left.
    + intros e' [= <-]. by exists c0.
    + intros _ _. by left.
  - intros [= <-]. split; in_sound; try first [done|(split; [done|apply H11])]; [intros _; apply H3; by left|].
    intros _. right. left. by apply H5.
Qed.

Lemma act_lease_sound l s s' : sound s -> act_lease l s = Some s' -> sound s'.
Proof.
  intros [H1 H2 H3 H4 H5 H6 H7 H8 H9 H10 H11]. unfold act_lease.
  destruct l; try done; destruct (t_lease s) as [|c|] eqn:EL; try done.
  - intros [= <-]. split; in_sound; try done. by intros c [= <-].
  - destruct (_ || _); [|done]. intros [= <-]. split; in_sound; done.
  - intros [= <-]. split; try done. eapply once_mono; [..|exact H9]; [done| |done|done]. in_sound. rewrite terminals_app. unfold terminals at 2.
    rewrite filter_cons_False by (rewrite (H10 c eq_refl); done). cbn. lia.
Qed.

Lemma act_sound l s s' : sound s -> act l s = Some s' -> sound s'.
Proof. destruct l; cbn [act]; eauto using act_main_sound, act_parent_sound, act_watch_sound, act_lease_sound. Qed.
Lemma run_sound ls : forall s s', sound s -> run ls s = Some s' -> sound s'.
Proof.
  induction ls as [|l ls IH]; intros s s' HS; cbn [run]; [by intros [= <-]|].
  destruct (act l s) as [s1|] eqn:E; [|done]. cbn. apply IH. by eapply act_sound.
Qed.

Lemma act_callbacks l s s' : act l s = Some s' -> t_callbacks s' = t_callbacks s.
Proof.
  destruct l; cbn [act]; unfold act_main, act_parent, act_watch, act_lease; intros H; repeat case_match; try done;
    by injection H as <-.
Qed.
Lemma run_callbacks ls : forall s s', run ls s = Some s' -> t_callbacks s' = t_callbacks s.
Proof.
  induction ls as [|l ls IH]; intros s s'; cbn [run]; [by intros [= <-]|].
  destruct (act l s) as [s1|] eqn:E; [|done]. cbn. intros H%IH. by rewrite H, (act_callbacks _ _ _ E).
Qed.
Lemma cause_answers s : cause s -> (exists c, c ∈ t_answers s /\ stops c = true) \/ t_parent s = true.
Proof. intros [(e & c & K1 & K2 & _)|K]; [left; by exists c|by right]. Qed.

(** ** Control and callbacks *)

(** C4: however the goroutines and the cancellation of the context [Execute] was given
    interleave, the context of a running job is cancelled only after the hub asked for it or
    the parent was cancelled; a job that fails on the cancelled context is reported with what
    the hub asked for, because the control error is in its channel before the context is
    cancelled, and is reported as a cancelled context only when the parent was cancelled; the
    hub is asked no further after such an answer; no final callback is sent before the job is
    over, and when it is over exactly one was sent, except when the object was stored and the
    context was cancelled before [completed] was called: then none is sent and [Execute] returns
    the error of the context.  Without callbacks none is sent. *)
Theorem control_is_reported callbacks lease interval state sent ls s : terminals sent = 0%nat ->
  run ls (started callbacks lease interval state sent) = Some s ->
  (t_cancelled s = true -> is_returned (t_main s) = false ->
     (exists c, c ∈ t_answers s /\ stops c = true) \/ t_parent s = true) /\
  (forall stage e, t_main s = MFailed stage e -> errors_Is e context_Canceled = true ->
     (exists c, c ∈ t_answers s /\ stops c = true /\ t_main <$> act Main s = Some (MSettled stage (control_error c))) \/
     t_parent s = true) /\
  (forall stage e, t_main s = MSettled stage e -> errors_Is e context_Canceled = true -> t_parent s = true) /\
  (stop_answers (t_answers s) <= 1)%nat /\
  (main_open (t_main s) = true -> terminals (t_sent s) = 0%nat) /\
  (forall r, ended_with (t_main s) = Some r ->
     terminals (t_sent s) = (if callbacks then 1 else 0)%nat \/
     terminals (t_sent s) = 0%nat /\ ((exists c, c ∈ t_answers s /\ stops c = true) \/ t_parent s = true) /\
       exists e, r = Some e /\ errors_Is e context_Canceled = true).
Proof.
  intros HT HR. assert (t_callbacks s = callbacks) as HB by (by rewrite (run_callbacks _ _ _ HR)).
  destruct (run_sound _ _ _ (started_sound callbacks lease interval state sent HT) HR) as [H1 H2 H3 H4 H5 H6 H7 H8 H9 H10 H11].
  split_and!; [|..|exact H8|apply H11| |].
  - intros HC HN. destruct (H4 HC) as [K|K]; [congruence|]. by apply cause_answers.
  - intros stage e HM HE. destruct (t_control s) as [c|] eqn:EC.
    + left. destruct (H1 c eq_refl) as (r & K1 & K2 & ->). exists r. split_and!; [done..|]. cbn [act act_main]. rewrite HM, EC. done.
    + destruct H3; [right; by eapply H7|by rewrite HM|done|by right].
  - unfold once in H9. by destruct (t_main s).
  - intros r Hr. unfold once, final_ok in H9. rewrite HB in H9. destruct (t_main s); try done; injection Hr as ->;
      (destruct callbacks; [|by left]); (destruct H9 as [H9|(H9 & HC & HE)]; [by left|right; auto using cause_answers]).
Qed.

(** ** The goroutines end with the job *)
Definition tick (l : label) : bool := match l with WatchTick _ | LeaseTick => true | _ => false end.
Definition watch_left (p : watch_pc) : nat := match p with WPut _ => 2 | WCancel => 1 | WSelect => 1 | WStopped => 0 end.
Definition lease_left (p : lease_pc) : nat := match p with LSend _ => 2 | LSelect => 1 | LStopped => 0 end.
Definition left_over (s : threads) : nat := (watch_left (t_watch s) + lease_left (t_lease s))%nat.

Lemma act_after_return l s s' : sound s -> is_returned (t_main s) = true -> tick l = false -> act l s = Some s' ->
  is_returned (t_main s') = true /\ (left_over s' < left_over s)%nat.
Proof.
  intros HS HR HT. pose proof (so_returned s HS HR) as HC. unfold left_over. open_threads s. in_sound. subst can. destruct main; try done. clear HS.
  destruct l as [| | |[]| | | | | | | |]; try done; cbn [act act_main act_parent act_watch act_lease]; in_sound; try done.
  - destruct watch; try done. intros [= <-]. in_sound. split; [done|]. cbn. lia.
  - destruct watch as [|e| |]; try done; intros [= <-]; [destruct con|]; in_sound; (split; [done|]); cbn; lia.
  - destruct lease; try done. intros [= <-]. in_sound. split; [done|]. cbn. lia.
  - destruct lease; try done. intros [= <-]. in_sound. split; [done|]. cbn. lia.
Qed.

Lemma quiet_run ls : forall s s', sound s -> is_returned (t_main s) = true -> Forall (fun l => tick l = false) ls -> run ls s = Some s' ->
  is_returned (t_main s') = true /\ (length ls + left_over s' <= left_over s)%nat.
Proof.
  induction ls as [|l ls IH]; intros s s' HS HR HF; cbn [run length]; [intros [= <-]; split; [done|lia]|].
  apply Forall_cons in HF as [HT HF]. destruct (act l s) as [s1|] eqn:E; [|done]. cbn. intros H.
  destruct (act_after_return _ _ _ HS HR HT E) as [HR1 HL]. destruct (IH _ _ (act_sound _ _ _ HS E) HR1 HF H) as [HR2 HL2]. split; [done|lia].
Qed.

(** C5: the goroutines of a job end with it: once [Execute] has returned and no ticker fires,
    at most four steps are left in whatever order, none of them blocks, and when nothing is
    left to do both goroutines have stopped. *)
Theorem goroutines_end callbacks lease interval state sent ls s ls' s' : terminals sent = 0%nat ->
  run ls (started callbacks lease interval state sent) = Some s -> is_returned (t_main s) = true ->
  Forall (fun l => tick l = false) ls' -> run ls' s = Some s' ->
  (length ls' <= 4)%nat /\
  ((t_watch s' = WStopped /\ t_lease s' = LStopped) \/ exists l s'', tick l = false /\ act l s' = Some s'').
Proof.
  intros HT HR HM HF HR'. pose proof (run_sound _ _ _ (started_sound callbacks lease interval state sent HT) HR) as HS.
  pose proof (run_sound _ _ _ HS HR') as HS'. destruct (quiet_run _ _ _ HS HM HF HR') as [HM' HL]. split.
  - assert (left_over s <= 4)%nat by (unfold left_over; destruct (t_watch s), (t_lease s); cbn; lia). lia.
  - apply so_returned in HS'; [|done]. destruct (t_watch s') eqn:EW; [right; exists WatchDone|right; exists Watch|right; exists Watch|];
      try (cbn [act act_watch]; rewrite EW, ?HS'; eexists; done).
    destruct (t_lease s') eqn:EL; [right; exists LeaseDone|right; exists Lease|by left];
      cbn [act act_lease]; rewrite EL, ?HS'; eexists; done.
Qed.

(** ** Examples *)
Definition cancel_answer : TransferControlResult := mkTransferControlResult " Cancel " "maintenance".
Definition state0 : JobState := claimed_state sample_exec_job 1 1.
Definition cancelled_download : error := Wrapf "Get: context canceled" context_Canceled.
Definition cancel_run : list label :=
  [Work state0 [CbProgress "download" 4 10]; WatchTick (Err (Errorf "timeout")); LeaseTick; WatchTick (Ok cancel_answer); Watch; Lease;
   Watch; Fail "download" cancelled_download].

Lemma control_is_reported_witness : exists s, run cancel_run (started true true "10s" state0 [CbStarted]) = Some s /\
  exists c, c ∈ t_answers s /\ stops c = true /\ t_main <$> act Main s = Some (MSettled "download" (control_error c)).
Proof.
  assert (is_Some (run cancel_run (started true true "10s" state0 [CbStarted]))) as [s Hs] by (vm_compute; by eexists).
  exists s. split; [exact Hs|].
  destruct (control_is_reported true true "10s" state0 [CbStarted] cancel_run s) as (_ & H & _); [reflexivity|exact Hs|].
  assert ((fun s => (t_main s, t_parent s)) <$> run cancel_run (started true true "10s" state0 [CbStarted]) =
    Some (MFailed "download" cancelled_download, false)) as E by (vm_compute; reflexivity).
  rewrite Hs in E. injection E as EM EP. destruct (H "download" cancelled_download EM) as [K|K]; [reflexivity|exact K|congruence].
Defined.

Definition returned_run : list label := cancel_run ++ [Main; Main; Main; LeaseTick; Main].
Lemma goroutines_end_witness : exists s s', run returned_run (started true true "10s" state0 []) = Some s /\
  run [Lease] s = Some s' /\
  ((t_watch s' = WStopped /\ t_lease s' = LStopped) \/ exists l s'', tick l = false /\ act l s' = Some s'').
Proof.
  assert (is_Some (run returned_run (started true true "10s" state0 []))) as [s Hs] by (vm_compute; by eexists).
  assert ((fun s => is_returned (t_main s)) <$> run returned_run (started true true "10s" state0 []) = Some true) as HM by (vm_compute; reflexivity).
  assert (is_Some (run returned_run (started true true "10s" state0 []) ≫= run [Lease])) as [s' Hs'] by (vm_compute; by eexists).
  rewrite Hs in HM, Hs'. injection HM as HM. exists s, s'. split; [exact Hs|]. split; [exact Hs'|].
  apply (goroutines_end true true "10s" state0 [] returned_run s [Lease] s');
    [reflexivity|exact Hs|exact HM|by repeat constructor|exact Hs'].
Defined.

(** ** Observations *)

(** A renewal that was under way reaches the hub after the final callback: the job is reported
    as running again. *)
Definition stored_object : TransferObjectResult := mkObject "" "" "" "" "" "" 10 "" "" "" false ∅.
Theorem lease_renewed_after_the_end :
  t_sent <$> run [Work state0 [CbStarted]; LeaseTick; Complete 10 "sum" stored_object; Main; Answer None; Lease; Main; Main]
    (started true true "10s" state0 []) =
  Some [CbStarted; CbCompleted 10 "sum" stored_object; CbProgress "claim" 0 0].
Proof. vm_compute. reflexivity. Qed.

(** When the hub asks for a stop while the last bytes are uploaded, or the node shuts down then,
    the object is stored but no final callback is sent, neither completed nor failed: the hub
    learns nothing until the lease expires. *)
Definition late_cancel (stop : list label) : list label :=
  [Work state0 [CbStarted]] ++ stop ++
  [Complete 10 "sum" stored_object; Main; Answer (Some cancelled_download); Main; Main].
Theorem stored_but_silent : Forall (fun stop =>
  (fun s => (t_sent s, t_main s)) <$> run (late_cancel stop) (started true true "10s" state0 []) =
  Some ([CbStarted], MReturned (Some cancelled_download))) [[WatchTick (Ok cancel_answer); Watch; Watch]; [Parent]].
Proof. repeat constructor; vm_compute; reflexivity. Qed.

(** A claimed job that finds no free slot is given up without telling the hub. *)
Theorem refused_claim_is_silent x env job w : ValidateTransferJob job = Ok tt -> Allowed (admissionDecision x env w) = true ->
  maxConcurrentJobs (w_tracker w) <= Z.of_nat (size (active (w_tracker w))) ->
  exists w', Execute x env job w = (Some (Errorf "transfer executor capacity exhausted"), w') /\ w_sent w' = w_sent w.
Proof.
  intros HV HA HF. unfold Execute. rewrite HV. unfold mbind, M_bind. rewrite HA. cbn [negb].
  unfold try_start, mbind, M_bind, start_at, TryStartJob. cbn [now w_tracker].
  rewrite (proj2 (Z.leb_le _ _) HF). eexists. split; reflexivity.
Qed.
