(* ===== verification/Gateway.v ===== *)
(** * The public gateway

    Models internal/gateway: tracker.go (the sessions and byte counters),
    runtime.go (handoff paths, admission and the request handler), proxy.go (the
    proxied stream) and telemetry.go (what is told to the hub), with the resolve
    contract of internal/mediahub/gateway_payloads.go.  One request is handled by
    [handle]; requests that run at the same time are the steps of [gw_step].  The
    heartbeat goroutine, the headers and the contents of the messages are in Handoff.v. *)
From Stdlib Require Import SpecFloat.
From S2P Require Import Prelude GoStrings GoFloat GoTime Ops NodeState Transfer.

(** ** tracker.go *)
Record SessionInput := mkSessionInput {
  in_SessionID : string; in_Token : string; in_Kind : string; in_ID : string; in_Extension : string;
  in_Mode : string
}.
Record SessionRecord := mkSessionRecord {
  SessionID : string; RToken : string; RKind : string; RID : string; RExtension : string; RMode : string;
  RStartedAt : Time; LastSeenAt : Time; BytesSent : Z
}.
Definition zero_record : SessionRecord := mkSessionRecord "" "" "" "" "" "" 0 0 0.
Record GwStats := mkGwStats { gs_ActiveSessions : Z; gs_BytesSent : Z; gs_CurrentEgressBps : Z }.
Record GwTracker := mkGwTracker {
  sessions : gmap string SessionRecord; bytesSent : Z; windowBytes : Z; windowStartedAt : Time
}.

Definition NewGwTracker (now : Time) : GwTracker := mkGwTracker ∅ 0 0 now.

Definition set_sessions (s : gmap string SessionRecord) (t : GwTracker) : GwTracker :=
  mkGwTracker s (bytesSent t) (windowBytes t) (windowStartedAt t).

(** [rand] is what [randomID] yields. *)
Definition Start (rand : string) (now : Time) (input : SessionInput) (t : GwTracker) : SessionRecord * GwTracker :=
  let id := if String.eqb (in_SessionID input) "" then rand else in_SessionID input in
  let record := mkSessionRecord id (in_Token input) (in_Kind input) (in_ID input) (in_Extension input)
                  (in_Mode input) now now 0 in
  (record, set_sessions (<[id := record]> (sessions t)) t).

Definition add_bytes (amount : Z) (now : Time) (r : SessionRecord) : SessionRecord :=
  mkSessionRecord (SessionID r) (RToken r) (RKind r) (RID r) (RExtension r) (RMode r) (RStartedAt r) now
    (wrap64 (BytesSent r + amount)).

Definition SessionSnapshot (id : string) (t : GwTracker) : SessionRecord := default zero_record (sessions t !! id).

Definition AddBytes (now : Time) (id : string) (amount : Z) (t : GwTracker) : GwTracker :=
  if amount <=? 0 then t else
  mkGwTracker (<[id := add_bytes amount now (SessionSnapshot id t)]> (sessions t))
    (wrap64 (bytesSent t + amount)) (wrap64 (windowBytes t + amount)) (windowStartedAt t).

Definition Close (id : string) (t : GwTracker) : SessionRecord * GwTracker :=
  (SessionSnapshot id t, set_sessions (delete id (sessions t)) t).

(** [Duration.Seconds]. *)
Definition Seconds (d : Duration) : spec_float :=
  SFadd prec emax (float64 (Z.quot d second)) (fdiv (float64 (Z.rem d second)) (float64 second)).

Definition currentEgressBps (now : Time) (t : GwTracker) : Z :=
  let elapsed := Seconds (time_Sub now (windowStartedAt t)) in
  if negb (SFltb fzero elapsed) then 0 else ftrunc (fdiv (float64 (windowBytes t)) elapsed).

Definition GwTrackerStats (now : Time) (t : GwTracker) : GwStats :=
  mkGwStats (Z.of_nat (size (sessions t))) (bytesSent t) (currentEgressBps now t).

(** ** gateway_payloads.go *)
Record GatewayResolveResult := mkResolve {
  g_Success : bool; g_Mode : string; g_UpstreamURL : string; g_RedirectURL : string; g_Headers : gmap string string;
  g_SessionID : string; g_HeartbeatSeconds : Z; g_StatusCode : Z
}.
Definition NormalizedMode (r : GatewayResolveResult) : string :=
  let mode := ToLower (TrimSpace (g_Mode r)) in if String.eqb mode "" then "proxy" else mode.
Definition ValidateResolve (r : GatewayResolveResult) : result unit :=
  let mode := NormalizedMode r in
  if String.eqb mode "" then Err (Errorf "gateway resolve mode is required") else
  if negb (String.eqb mode "proxy") && negb (String.eqb mode "redirect")
  then Err (Errorf ("unsupported gateway mode " +:+ Quote (g_Mode r))) else
  if String.eqb (TrimSpace (g_UpstreamURL r)) "" then Err (Errorf "gateway upstream_url is required") else Ok tt.
Definition HeartbeatInterval (r : GatewayResolveResult) : Duration :=
  if g_HeartbeatSeconds r <=? 0 then 0 else wrap64 (g_HeartbeatSeconds r * second).
Definition SessionIDOr (r : GatewayResolveResult) (fallback : string) : string :=
  if String.eqb (TrimSpace (g_SessionID r)) "" then fallback else TrimSpace (g_SessionID r).

(** ** runtime.go: handoff paths *)
Definition handoff_prefix : string := "/_auren/gateway/".

Definition parseHandoffPath (path : string) : string * string * string * string :=
  let trimmed := TrimChar "/" (TrimPrefix path handoff_prefix) in
  match Split trimmed "/" with
  | [p0; p1; p2] =>
    let token := TrimSpace p0 in
    let kind := TrimSpace p1 in
    let leaf := TrimSpace p2 in
    match LastIndexByte (chars leaf) "." with
    | Some dot =>
      if (dot =? 0)%nat || (length (chars leaf) - 1 <=? dot)%nat then ("", "", "", "") else
      let id := TrimSpace (str (take dot (chars leaf))) in
      let ext := TrimChar "." (TrimSpace (str (drop (S dot) (chars leaf)))) in
      (token, kind, id, ext)
    | None => ("", "", "", "")
    end
  | _ => ("", "", "", "")
  end.

Definition captured_headers : list string :=
  ["Range"; "User-Agent"; "Accept"; "Accept-Encoding"; "If-Range"; "If-None-Match"; "If-Modified-Since"].
(** [get] is [http.Header.Get] of the request. *)
Definition captureHeaders (get : string -> string) : gmap string string :=
  list_to_map (omap (fun key => let v := TrimSpace (get key) in
                                if String.eqb v "" then None else Some (key, v)) captured_headers).

Definition gatewayAdmissionDecision (env : ops_env) (operations : option Runtime) (now : Time)
  (maxSessions maxEgress : Z) (t : GwTracker) : AdmissionDecision :=
  match operations with
  | None => allow
  | Some runtime =>
    let stats := GwTrackerStats now t in
    CanAcceptGatewaySession env runtime
      (mkClaimSnapshot 0 0 (gs_ActiveSessions stats) maxSessions (Z.quot (gs_CurrentEgressBps stats) 125000) maxEgress "")
  end.

(** ** One request *)

(** What the hub is told, with the fields the properties speak about. *)
Inductive gw_call :=
| GwHeartbeat (session : string) (status bytes : Z) (message : string)
| GwClose (session : string) (status bytes : Z) (reason : string)
| GwEvent (type : string).

(** The response of the upstream: the sizes of the pieces that reached the client,
    with the time of each, and the error that ended the copy. *)
Record upstream := mkUpstream { up_status : Z; up_writes : list (Time * Z); up_error : option error }.

Record gw_env := mkGwEnv {
  q_path : string; q_method : string;
  q_state : NodeState;
  q_decision : GwTracker -> AdmissionDecision;
  q_resolve : result GatewayResolveResult;
  q_now : Time;
  q_rand : string;
  q_request_error : option error;
  q_upstream : result upstream
}.

Definition closeSession (resolved : GatewayResolveResult) (record : SessionRecord) (status : Z) (reason : string)
  : gw_call :=
  GwClose (SessionIDOr resolved (SessionID record)) (if status =? 0 then 200 else status) (BytesSent record) reason.
Definition sendHeartbeat (resolved : GatewayResolveResult) (record : SessionRecord) (status : Z) (message : string)
  : gw_call :=
  GwHeartbeat (SessionIDOr resolved (SessionID record)) status (BytesSent record) message.

(** [countingResponseWriter] over the pieces. *)
Fixpoint write_all (id : string) (writes : list (Time * Z)) (t : GwTracker) : GwTracker :=
  match writes with
  | [] => t
  | (now, n) :: rest => write_all id rest (if 0 <? n then AddBytes now id n t else t)
  end.

(** Status, calls to the hub and tracker after proxying. *)
Definition proxy (env : gw_env) (resolved : GatewayResolveResult) (record : SessionRecord) (t : GwTracker)
  : Z * list gw_call * GwTracker :=
  match q_request_error env with
  | Some _ => (502, [closeSession resolved record 502 "create_request_failed"], t)
  | None =>
    match q_upstream env with
    | Err _ => (502, [GwEvent "gateway.proxy_failed"; closeSession resolved record 502 "upstream_request_failed"], t)
    | Ok up =>
      let status := up_status up in
      let snapshot t := SessionSnapshot (SessionID record) t in
      if String.eqb (q_method env) "HEAD" then
        (status, [sendHeartbeat resolved (snapshot t) status "head"; closeSession resolved (snapshot t) status "head"], t)
      else
        let t' := write_all (SessionID record) (up_writes up) t in
        let started := sendHeartbeat resolved (snapshot t) status "started" in
        match up_error up with
        | Some _ => (status, [started; GwEvent "gateway.copy_failed"; closeSession resolved (snapshot t') status "copy_failed"], t')
        | None => (status, [started; closeSession resolved (snapshot t') status "completed"], t')
        end
    end
  end.

Definition handle (env : gw_env) (t : GwTracker) : Z * list gw_call * GwTracker :=
  let '(token, kind, id, ext) := parseHandoffPath (q_path env) in
  if String.eqb token "" || String.eqb kind "" || String.eqb id "" || String.eqb ext "" then (400, [], t) else
  if negb (Allowed (q_decision env t)) then (503, [], t) else
  if NodeEmpty (q_state env) then (503, [], t) else
  match q_resolve env with
  | Err _ => (502, [GwEvent "gateway.resolve_failed"], t)
  | Ok resolved =>
    match ValidateResolve resolved with
    | Err _ => (502, [GwEvent "gateway.resolve_invalid"], t)
    | Ok _ =>
      let sid := if String.eqb (g_SessionID resolved) "" then token else g_SessionID resolved in
      let '(record, t) := Start (q_rand env) (q_now env) (mkSessionInput sid token kind id ext (g_Mode resolved)) t in
      let '(status, calls, t) :=
        let mode := NormalizedMode resolved in
        if String.eqb mode "redirect" then
          (302, [sendHeartbeat resolved record 302 "redirect"; closeSession resolved record 302 "redirect"], t)
        else if String.eqb mode "proxy" then proxy env resolved record t
        else (502, [closeSession resolved record 502 "unsupported_mode"], t) in
      (status, calls, (Close (SessionID record) t).2)
    end
  end.

(** ** One request opens and closes its session *)
Definition sent_total (writes : list (Time * Z)) : Z := zsum (fun w => Z.max 0 w.2) writes.
Definition is_close (c : gw_call) : bool := match c with GwClose _ _ _ _ => true | _ => false end.

Lemma sent_total_nonneg writes : 0 <= sent_total writes.
Proof. apply zsum_nonneg, Forall_forall. lia. Qed.

Lemma wrap64_add a b : wrap64 (wrap64 a + b) = wrap64 (a + b).
Proof.
  unfold wrap64. replace ((a + 2 ^ 63) `mod` 2 ^ 64 - 2 ^ 63 + b + 2 ^ 63) with ((a + 2 ^ 63) `mod` 2 ^ 64 + b) by lia.
  replace (a + b + 2 ^ 63) with ((a + 2 ^ 63) + b) by lia. f_equal. apply Zplus_mod_idemp_l.
Qed.

Lemma write_all_run id writes t r : sessions t !! id = Some r ->
  let t' := write_all id writes t in
  (exists r', sessions t' = <[id := r']> (sessions t) /\ wrap64 (BytesSent r') = wrap64 (BytesSent r + sent_total writes) /\
     (r' = r \/ in_int64 (BytesSent r')) /\ SessionID r' = SessionID r) /\
  wrap64 (bytesSent t') = wrap64 (bytesSent t + sent_total writes) /\
  (bytesSent t' = bytesSent t \/ in_int64 (bytesSent t')) /\ windowStartedAt t' = windowStartedAt t.
Proof.
  revert t r. induction writes as [|[now n] writes IH]; intros t r Hr; cbn [write_all].
  { unfold sent_total. cbn. rewrite !Z.add_0_r. split_and!; auto. exists r. split_and!; auto. by rewrite insert_id. }
  unfold sent_total. cbn [zsum foldr snd]. fold (sent_total writes).
  change (foldr _ 0 writes) with (sent_total writes).
  destruct (Z.ltb_spec 0 n) as [Hn|Hn]; [|rewrite (Z.max_l 0 n) by lia; by apply IH].
  rewrite (Z.max_r 0 n) by lia. unfold AddBytes. rewrite (proj2 (Z.leb_gt n 0)) by lia.
  unfold SessionSnapshot. rewrite Hr. change (default zero_record (Some r)) with r. set (r1 := add_bytes n now r). set (t1 := mkGwTracker _ _ _ _).
  destruct (IH t1 r1) as ((r' & E1 & E2 & E3 & E4) & E5 & E6 & E7); [apply lookup_insert_eq|]. split_and!.
  - exists r'. split_and!.
    + rewrite E1. cbn. by rewrite insert_insert_eq.
    + rewrite E2. cbn [BytesSent r1 add_bytes]. rewrite wrap64_add. f_equal. lia.
    + right. destruct E3 as [->|?]; [apply wrap64_range|done].
    + done.
  - rewrite E5. cbn [bytesSent t1]. rewrite wrap64_add. f_equal. lia.
  - right. destruct E6 as [->|?]; [apply wrap64_range|done].
  - done.
Qed.

Lemma wrap64_inv z a : (z = 0 \/ in_int64 z) -> in_int64 a -> wrap64 z = wrap64 a -> z = a.
Proof.
  intros Hz Ha. rewrite (wrap64_id a Ha). destruct Hz as [->|Hz]; [by intros <-|]. by rewrite wrap64_id.
Qed.

(** The bytes the client received through the proxy. *)
Definition proxied (env : gw_env) (resolved : GatewayResolveResult) : Z :=
  if String.eqb (NormalizedMode resolved) "redirect" then 0 else
  match q_request_error env, q_upstream env with
  | None, Ok up => if String.eqb (q_method env) "HEAD" then 0 else sent_total (up_writes up)
  | _, _ => 0
  end.

Lemma proxied_nonneg env resolved : 0 <= proxied env resolved.
Proof. unfold proxied. repeat case_match; try lia. apply sent_total_nonneg. Qed.

(** The stage between start and close. *)
Lemma serve_run env resolved record t : ValidateResolve resolved = Ok tt -> BytesSent record = 0 ->
  sessions t !! SessionID record = Some record -> in_int64 (bytesSent t) ->
  in_int64 (proxied env resolved) -> in_int64 (bytesSent t + proxied env resolved) ->
  let '(status, calls, t') :=
    let mode := NormalizedMode resolved in
    if String.eqb mode "redirect" then
      (302, [sendHeartbeat resolved record 302 "redirect"; closeSession resolved record 302 "redirect"], t)
    else if String.eqb mode "proxy" then proxy env resolved record t
    else (502, [closeSession resolved record 502 "unsupported_mode"], t) in
  (exists r', sessions t' = <[SessionID record := r']> (sessions t)) /\
  bytesSent t' = bytesSent t + proxied env resolved /\ windowStartedAt t' = windowStartedAt t /\
  exists before st reason, calls = before ++ [GwClose (SessionIDOr resolved (SessionID record)) st (proxied env resolved) reason] /\
    Forall (fun c => is_close c = false) before.
Proof.
  intros HV H0 Hs Hb Hp Ht. cbv zeta. unfold proxied in *.
  assert (exists r', sessions t = <[SessionID record := r']> (sessions t)) as Hsame by (exists record; by rewrite insert_id).
  destruct (String.eqb_spec (NormalizedMode resolved) "redirect") as [|Hr].
  { split_and!; [done|lia|done|]. eexists [_], _, _. unfold closeSession. rewrite H0. split; [reflexivity|by repeat constructor]. }
  destruct (String.eqb_spec (NormalizedMode resolved) "proxy") as [|Hpx].
  2:{ exfalso. unfold ValidateResolve in HV. rewrite (proj2 (String.eqb_neq _ _) Hr), (proj2 (String.eqb_neq _ _) Hpx) in HV.
      by destruct (String.eqb _ ""). }
  unfold proxy. destruct (q_request_error env).
  { split_and!; [done|lia|done|]. eexists [], _, _. unfold closeSession. rewrite H0. split; [reflexivity|constructor]. }
  destruct (q_upstream env) as [up|].
  2:{ split_and!; [done|lia|done|]. eexists [_], _, _. unfold closeSession. rewrite H0. split; [reflexivity|by repeat constructor]. }
  unfold SessionSnapshot. rewrite Hs. cbn [default id].
  destruct (String.eqb (q_method env) "HEAD").
  { split_and!; [done|lia|done|]. eexists [_], _, _. unfold closeSession. rewrite H0. split; [reflexivity|by repeat constructor]. }
  destruct (write_all_run (SessionID record) (up_writes up) t record Hs) as ((r' & E1 & E2 & E3 & E4) & E5 & E6 & E7).
  set (t' := write_all _ _ _) in *. rewrite E1, lookup_insert_eq. cbn [default id].
  rewrite H0, Z.add_0_l in E2. assert (BytesSent r' = sent_total (up_writes up)) as EB.
  { apply wrap64_inv; [|done|done]. destruct E3 as [->|?]; auto. }
  assert (bytesSent t' = bytesSent t + sent_total (up_writes up)) as EG.
  { destruct E6 as [E6|E6]; [rewrite E6 in E5 |- *; by rewrite !wrap64_id in E5|]. by rewrite !wrap64_id in E5. }
  destruct (up_error up); (split_and!; [by exists r'|done|done|]).
  - eexists [_; _], _, _. unfold closeSession. rewrite EB, E4. split; [reflexivity|by repeat constructor].
  - eexists [_], _, _. unfold closeSession. rewrite EB, E4. split; [reflexivity|by repeat constructor].
Qed.

(** The session a request opens: the request is well formed, admitted, the node is
    registered and the hub resolved it. *)
Definition opens (env : gw_env) (t : GwTracker) (sid : string) (resolved : GatewayResolveResult) : Prop :=
  let '(token, kind, id, ext) := parseHandoffPath (q_path env) in
  token <> "" /\ kind <> "" /\ id <> "" /\ ext <> "" /\ Allowed (q_decision env t) = true /\
  NodeEmpty (q_state env) = false /\ q_resolve env = Ok resolved /\ ValidateResolve resolved = Ok tt /\
  sid = (if String.eqb (g_SessionID resolved) "" then token else g_SessionID resolved).

Lemma handle_opens env t sid resolved : opens env t sid resolved -> exists record,
  SessionID record = sid /\ BytesSent record = 0 /\
  let t1 := set_sessions (<[sid := record]> (sessions t)) t in
  handle env t =
    (let '(status, calls, t') :=
       let mode := NormalizedMode resolved in
       if String.eqb mode "redirect" then
         (302, [sendHeartbeat resolved record 302 "redirect"; closeSession resolved record 302 "redirect"], t1)
       else if String.eqb mode "proxy" then proxy env resolved record t1
       else (502, [closeSession resolved record 502 "unsupported_mode"], t1) in
     (status, calls, (Close sid t').2)) /\
  exists input, Start (q_rand env) (q_now env) input t = (record, t1).
Proof.
  unfold opens, handle. destruct (parseHandoffPath (q_path env)) as [[[token kind] id] ext].
  intros (H1 & H2 & H3 & H4 & HA & HE & HR & HV & ->).
  rewrite (proj2 (String.eqb_neq _ _) H1), (proj2 (String.eqb_neq _ _) H2), (proj2 (String.eqb_neq _ _) H3),
    (proj2 (String.eqb_neq _ _) H4), HA, HE, HR, HV. cbn [orb negb].
  set (sid := if String.eqb (g_SessionID resolved) "" then token else g_SessionID resolved).
  assert (sid <> "") as Hsid by (subst sid; by destruct (String.eqb_spec (g_SessionID resolved) "")).
  unfold Start. cbn [in_SessionID in_Token in_Kind in_ID in_Extension in_Mode].
  rewrite (proj2 (String.eqb_neq _ _) Hsid). exists (mkSessionRecord sid token kind id ext (g_Mode resolved) (q_now env) (q_now env) 0). split_and!; [reflexivity..|].
  exists (mkSessionInput sid token kind id ext (g_Mode resolved)). unfold Start. cbn [in_SessionID]. by rewrite (proj2 (String.eqb_neq _ _) Hsid).
Qed.

Lemma handle_refuses env t : (forall sid resolved, ~ opens env t sid resolved) ->
  (handle env t).2 = t /\ Forall (fun c => is_close c = false) (handle env t).1.2.
Proof.
  unfold opens, handle. destruct (parseHandoffPath (q_path env)) as [[[token kind] id] ext]. intros H.
  destruct (String.eqb_spec token ""); [by split|]. destruct (String.eqb_spec kind ""); [by split|].
  destruct (String.eqb_spec id ""); [by split|]. destruct (String.eqb_spec ext ""); [by split|]. cbn [orb].
  destruct (Allowed (q_decision env t)); [|by split]. cbn [negb]. destruct (NodeEmpty (q_state env)); [by split|].
  destruct (q_resolve env) as [resolved|]; [|by split; [|repeat constructor]].
  destruct (ValidateResolve resolved) as [[]|] eqn:EV; [|by split; [|repeat constructor]].
  exfalso. by eapply H.
Qed.

(** A gateway request that is not well formed, not admitted or not resolved changes
    nothing and reports no closed session.  One that opens a new session leaves the
    set of sessions as it found it when it is done, adds exactly the bytes the client
    received to the counter, and ends with exactly one close report, which names the
    session and these bytes. *)
Theorem handle_lifecycle env t :
  ((forall sid resolved, ~ opens env t sid resolved) ->
     (handle env t).2 = t /\ Forall (fun c => is_close c = false) (handle env t).1.2) /\
  (forall sid resolved, opens env t sid resolved -> sessions t !! sid = None ->
     in_int64 (bytesSent t) -> in_int64 (proxied env resolved) -> in_int64 (bytesSent t + proxied env resolved) ->
     let '(status, calls, t') := handle env t in
     sessions t' = sessions t /\ bytesSent t' = bytesSent t + proxied env resolved /\
     exists before st reason,
       calls = before ++ [GwClose (SessionIDOr resolved sid) st (proxied env resolved) reason] /\
       Forall (fun c => is_close c = false) before).
Proof.
  split; [apply handle_refuses|]. intros sid resolved HO HN Hb Hp Ht.
  assert (ValidateResolve resolved = Ok tt) as HV.
  { unfold opens in HO. destruct (parseHandoffPath _) as [[[? ?] ?] ?]. tauto. }
  destruct (handle_opens env t sid resolved HO) as (record & <- & H0 & -> & _). cbv zeta.
  set (t1 := set_sessions _ t).
  pose proof (serve_run env resolved record t1 HV H0 (lookup_insert_eq _ _ _) Hb Hp Ht) as HS. cbv zeta in HS.
  destruct (if String.eqb (NormalizedMode resolved) "redirect" then _ else _) as [[status calls] t2].
  destruct HS as ([r' E1] & E2 & _ & E3). split_and!; [|done|done].
  cbn. rewrite E1. cbn. by rewrite insert_insert_eq, delete_insert_id.
Qed.

(** ** Requests that run at the same time *)

(** The ledger: the requests that are served, each with the identifier of its session, the
    bytes it has sent and whether no other request had this identifier meanwhile; and the
    bytes of all requests so far. *)
Record live := mkLive { lv_id : string; lv_sent : Z; lv_alone : bool }.
Record ledger := mkLedger { requests : gmap nat live; total_bytes : Z }.

Definition share (id : string) (r : live) : live :=
  mkLive (lv_id r) (lv_sent r) (lv_alone r && negb (String.eqb (lv_id r) id)).
Definition unused (id : string) (l : ledger) : bool :=
  bool_decide (map_Forall (fun _ r => lv_id r <> id) (requests l)).
Definition enter (q : nat) (id : string) (l : ledger) : ledger :=
  mkLedger (<[q := mkLive id 0 (unused id l)]> (share id <$> requests l)) (total_bytes l).
Definition send (q : nat) (r : live) (n : Z) (l : ledger) : ledger :=
  mkLedger (<[q := mkLive (lv_id r) (lv_sent r + Z.max 0 n) (lv_alone r)]> (requests l)) (total_bytes l + Z.max 0 n).
Definition leave (q : nat) (l : ledger) : ledger := mkLedger (delete q (requests l)) (total_bytes l).

(** Interleaved requests: a request opens its session, whether or not another request has
    the identifier, sends bytes and closes the session; the tracker does as its methods do. *)
Inductive gw_step : GwTracker * ledger -> GwTracker * ledger -> Prop :=
| gw_open q rand now input t l :
    requests l !! q = None ->
    gw_step (t, l) ((Start rand now input t).2, enter q (SessionID (Start rand now input t).1) l)
| gw_send q r now n t l :
    requests l !! q = Some r ->
    gw_step (t, l) (AddBytes now (lv_id r) n t, send q r n l)
| gw_close q r t l :
    requests l !! q = Some r ->
    gw_step (t, l) ((Close (lv_id r) t).2, leave q l).

(** The tracker shows the ledger, at the width of its counters: it has no session that no
    request serves, and the bytes of every request that is alone with its identifier. *)
Record shows (t : GwTracker) (l : ledger) : Prop := {
  sh_served : forall id, is_Some (sessions t !! id) -> exists q r, requests l !! q = Some r /\ lv_id r = id;
  sh_alone : forall q r, requests l !! q = Some r -> lv_alone r = true ->
    (exists record, sessions t !! lv_id r = Some record /\ BytesSent record = wrap64 (lv_sent r)) /\
    forall q' r', requests l !! q' = Some r' -> lv_id r' = lv_id r -> q' = q;
  sh_total : bytesSent t = wrap64 (total_bytes l)
}.

Lemma open_shows q id record t l : shows t l -> requests l !! q = None -> BytesSent record = 0 ->
  shows (set_sessions (<[id := record]> (sessions t)) t) (enter q id l).
Proof.
  intros [H1 H2 H3] Hq H0. constructor; cbn [set_sessions sessions enter requests bytesSent total_bytes]; [| |done].
  - intros id' Hs. destruct (decide (id' = id)) as [->|Hne].
    + eexists q, _. by rewrite lookup_insert_eq.
    + rewrite lookup_insert_ne in Hs by done. destruct (H1 _ Hs) as (q' & r & Hr & <-). exists q', (share id r).
      rewrite lookup_insert_ne, lookup_fmap, Hr by congruence. done.
  - intros q1 r1 Hr1 Ha. destruct (decide (q1 = q)) as [->|Hne].
    + rewrite lookup_insert_eq in Hr1. injection Hr1 as <-. cbn [lv_id lv_sent lv_alone] in *.
      apply bool_decide_eq_true in Ha. split; [exists record; by rewrite lookup_insert_eq, H0|].
      intros q' r' Hr' E. destruct (decide (q' = q)) as [|Hne]; [done|]. rewrite lookup_insert_ne, lookup_fmap in Hr' by done.
      destruct (requests l !! q') as [r0|] eqn:E0; [|done]. injection Hr' as <-. by destruct (Ha q' r0 E0).
    + rewrite lookup_insert_ne, lookup_fmap in Hr1 by done. destruct (requests l !! q1) as [r0|] eqn:E0; [|done].
      injection Hr1 as <-. cbn [share lv_id lv_sent lv_alone] in *. apply andb_true_iff in Ha as [Ha Hid%negb_true_iff%String.eqb_neq].
      destruct (H2 _ _ E0 Ha) as [HR HU]. split; [by rewrite lookup_insert_ne|].
      intros q' r' Hr' E. destruct (decide (q' = q)) as [->|Hn'].
      * rewrite lookup_insert_eq in Hr'. by injection Hr' as <-.
      * rewrite lookup_insert_ne, lookup_fmap in Hr' by done. destruct (requests l !! q') as [r2|] eqn:E2; [|done].
        injection Hr' as <-. by eapply HU.
Qed.

Lemma send_shows q r now n t l : shows t l -> requests l !! q = Some r -> shows (AddBytes now (lv_id r) n t) (send q r n l).
Proof.
  intros [H1 H2 H3] Hq. unfold AddBytes, send. destruct (Z.leb_spec n 0) as [Hn|Hn].
  { rewrite Z.max_l by done. rewrite !Z.add_0_r. rewrite insert_id by (by destruct r). by constructor. }
  rewrite Z.max_r by lia. constructor; cbn [sessions requests bytesSent total_bytes].
  - intros id Hs. destruct (decide (id = lv_id r)) as [->|Hne].
    + eexists q, _. by rewrite lookup_insert_eq.
    + rewrite lookup_insert_ne in Hs by done. destruct (H1 _ Hs) as (q' & r' & Hr & <-). exists q', r'.
      rewrite lookup_insert_ne by congruence. done.
  - intros q1 r1 Hr1 Ha.
    assert (forall q' r', <[q := mkLive (lv_id r) (lv_sent r + n) (lv_alone r)]> (requests l) !! q' = Some r' ->
      exists r0, requests l !! q' = Some r0 /\ lv_id r0 = lv_id r' /\ lv_alone r0 = lv_alone r') as HB.
    { intros q' r' [[<- <-]|[_ E]]%lookup_insert_Some; [by exists r|by exists r']. }
    destruct (HB _ _ Hr1) as (r0 & E0 & Ei & El). destruct (H2 q1 r0 E0) as [(record & ER & EB) HU]; [congruence|]. split.
    + destruct (decide (q1 = q)) as [->|Hne].
      * rewrite lookup_insert_eq in Hr1. injection Hr1 as <-. assert (r0 = r) as -> by congruence. cbn [lv_id lv_sent].
        rewrite lookup_insert_eq. eexists. split; [done|]. unfold SessionSnapshot. rewrite ER. cbn. by rewrite EB, wrap64_add.
      * rewrite lookup_insert_ne in Hr1 by done. assert (r0 = r1) as -> by congruence. exists record. split; [|done].
        rewrite lookup_insert_ne; [done|]. intros E. by destruct Hne; symmetry; eapply HU.
    + intros q' r' Hr' E. destruct (HB _ _ Hr') as (r2 & E2 & Ei2 & _). eapply HU; [exact E2|congruence].
  - by rewrite H3, wrap64_add.
Qed.

Lemma close_shows q r t l : shows t l -> requests l !! q = Some r -> shows (Close (lv_id r) t).2 (leave q l).
Proof.
  intros [H1 H2 H3] Hq. constructor; cbn [Close snd set_sessions sessions leave requests bytesSent total_bytes]; [| |done].
  - intros id Hs. destruct (decide (id = lv_id r)) as [->|Hne]; [rewrite lookup_delete_eq in Hs; by destruct Hs|].
    rewrite lookup_delete_ne in Hs by done. destruct (H1 _ Hs) as (q' & r' & Hr & <-). exists q', r'.
    rewrite lookup_delete_ne by congruence. done.
  - intros q1 r1 [Hne E1]%lookup_delete_Some Ha. destruct (H2 _ _ E1 Ha) as [HR HU]. split.
    + rewrite lookup_delete_ne; [done|]. intros E. by destruct Hne; eapply HU.
    + intros q' r' [_ E']%lookup_delete_Some. by apply HU.
Qed.

Lemma gw_step_shows s s' : shows s.1 s.2 -> gw_step s s' -> shows s'.1 s'.2.
Proof.
  intros H HS. destruct HS as [q rand now input t l Hq|q r now n t l Hq|q r t l Hq]; cbn [fst snd] in *; [|by apply send_shows|by apply close_shows].
  unfold Start. cbn [fst snd SessionID]. by apply open_shows.
Qed.

(** The identifiers of the requests that are served. *)
Definition served_ids (l : ledger) : list string := (fun e => lv_id e.2) <$> map_to_list (requests l).

Lemma served_ids_elem id l : id ∈ served_ids l <-> exists q r, requests l !! q = Some r /\ lv_id r = id.
Proof.
  unfold served_ids. rewrite list_elem_of_fmap. split.
  - intros ([q r] & -> & H%elem_of_map_to_list). by exists q, r.
  - intros (q & r & H & <-). exists (q, r). by rewrite elem_of_map_to_list.
Qed.

Lemma served_count t l : shows t l -> (size (sessions t) <= size (requests l))%nat /\
  (map_Forall (fun _ r => lv_alone r = true) (requests l) -> size (sessions t) = size (requests l)).
Proof.
  intros [H1 H2 _]. assert (length (served_ids l) = size (requests l)) as EL by (unfold served_ids; rewrite length_fmap; apply length_map_to_list).
  assert (dom (sessions t) ⊆ (list_to_set (served_ids l) : gset string)) as HS.
  { intros id Hid%elem_of_dom. apply elem_of_list_to_set, served_ids_elem. by apply H1. }
  rewrite <- (size_dom (sessions t)), <- EL. split.
  - etrans; [by apply subseteq_size|]. clear. induction (served_ids l) as [|x xs IH]; [done|]. cbn [list_to_set length].
    rewrite size_union_alt, size_singleton.
    pose proof (subseteq_size (list_to_set xs ∖ {[x]}) (list_to_set xs : gset string) ltac:(set_solver)). lia.
  - intros HA. assert (NoDup (served_ids l)) as HN.
    { unfold served_ids. apply NoDup_fmap_2_strong; [|apply NoDup_map_to_list].
      intros [q r] [q' r'] E%elem_of_map_to_list E'%elem_of_map_to_list. cbn [snd]. intros Hid.
      destruct (H2 _ _ E' (HA _ _ E')) as [_ HU]. assert (q = q') as -> by (by eapply HU). congruence. }
    rewrite <- (size_list_to_set (C := gset string) _ HN). f_equal. apply set_eq. intros id. split; [apply HS|].
    intros (q & r & E & <-)%elem_of_list_to_set%served_ids_elem. apply elem_of_dom. destruct (H2 _ _ E (HA _ _ E)) as [(record & -> & _) _]. done.
Qed.

(** C36: however gateway requests interleave, those that use the same session identifier
    included, the tracker reports as total the bytes of all requests so far (modulo the 64
    bits of its counters), for each request that has been alone with its identifier the bytes
    it has sent, at most as many active sessions as requests are served, so none when all are
    done, and exactly as many when no two of them shared an identifier.  (Two that share one
    are counted as one: [shared_session_undercounted].) *)
Theorem tracker_shows_ledger now0 t l now :
  rtc gw_step (NewGwTracker now0, mkLedger ∅ 0) (t, l) ->
  gs_BytesSent (GwTrackerStats now t) = wrap64 (total_bytes l) /\
  (forall q r, requests l !! q = Some r -> lv_alone r = true -> BytesSent (SessionSnapshot (lv_id r) t) = wrap64 (lv_sent r)) /\
  gs_ActiveSessions (GwTrackerStats now t) <= Z.of_nat (size (requests l)) /\
  (map_Forall (fun _ r => lv_alone r = true) (requests l) ->
     gs_ActiveSessions (GwTrackerStats now t) = Z.of_nat (size (requests l))).
Proof.
  intros H. assert (shows t l) as HS.
  { change (shows (t, l).1 (t, l).2). revert H. generalize (t, l). apply rtc_ind_r; [|intros; by eapply gw_step_shows].
    constructor; cbn; [|done|done]. intros id [r Hr]. by rewrite lookup_empty in Hr. }
  destruct (served_count t l HS) as [HC1 HC2]. split_and!.
  - apply HS.
  - intros q r Hr Ha. destruct (sh_alone _ _ HS q r Hr Ha) as [(record & E & EB) _]. unfold SessionSnapshot. by rewrite E.
  - cbn. lia.
  - intros HA. cbn. by rewrite HC2.
Qed.

(** The requests of [handle] make these steps: one that opens a session enters the ledger,
    sends the bytes its client receives and leaves it. *)
Lemma write_all_steps q id writes : forall t l r, requests l !! q = Some r -> lv_id r = id ->
  exists r' l', rtc gw_step (t, l) (write_all id writes t, l') /\ requests l' !! q = Some r' /\ lv_id r' = id /\
    lv_sent r' = lv_sent r + sent_total writes /\ total_bytes l' = total_bytes l + sent_total writes.
Proof.
  induction writes as [|[now n] writes IH]; intros t l r Hr Hid; cbn [write_all].
  { exists r, l. unfold sent_total. cbn. rewrite !Z.add_0_r. split_and!; [apply rtc_refl|done..]. }
  assert (gw_step (t, l) (AddBytes now id n t, send q r n l)) as Hstep by (rewrite <- Hid; by constructor).
  assert ((if 0 <? n then AddBytes now id n t else t) = AddBytes now id n t) as ->.
  { unfold AddBytes. destruct (Z.ltb_spec 0 n); [done|]. by rewrite (proj2 (Z.leb_le n 0)) by lia. }
  destruct (IH (AddBytes now id n t) (send q r n l) (mkLive (lv_id r) (lv_sent r + Z.max 0 n) (lv_alone r))) as (r' & l' & HR & E1 & E2 & E3 & E4);
    [apply lookup_insert_eq|done|].
  exists r', l'. cbn [send total_bytes lv_sent] in *. unfold sent_total in *. cbn [zsum foldr snd] in *. 
  split_and!; [by eapply rtc_l|done|done| |].
  - rewrite E3. unfold zsum. lia.
  - rewrite E4. unfold zsum. lia.
Qed.

Lemma stage_writes env resolved record t : ValidateResolve resolved = Ok tt ->
  exists writes, sent_total writes = proxied env resolved /\
  (let mode := NormalizedMode resolved in
   if String.eqb mode "redirect" then
     (302, [sendHeartbeat resolved record 302 "redirect"; closeSession resolved record 302 "redirect"], t)
   else if String.eqb mode "proxy" then proxy env resolved record t
   else (502, [closeSession resolved record 502 "unsupported_mode"], t)).2 = write_all (SessionID record) writes t.
Proof.
  intros HV. cbv zeta. unfold proxied. destruct (String.eqb_spec (NormalizedMode resolved) "redirect") as [|Hr]; [by exists []|].
  destruct (String.eqb_spec (NormalizedMode resolved) "proxy") as [|Hpx].
  2:{ exfalso. unfold ValidateResolve in HV. rewrite (proj2 (String.eqb_neq _ _) Hr), (proj2 (String.eqb_neq _ _) Hpx) in HV.
      by destruct (String.eqb _ ""). }
  unfold proxy. destruct (q_request_error env); [by exists []|]. destruct (q_upstream env) as [up|]; [|by exists []].
  destruct (String.eqb (q_method env) "HEAD"); [by exists []|]. exists (up_writes up). by destruct (up_error up).
Qed.

Lemma handle_steps env t l q sid resolved : opens env t sid resolved -> requests l !! q = None ->
  exists l', rtc gw_step (t, l) ((handle env t).2, l') /\ total_bytes l' = total_bytes l + proxied env resolved /\
    requests l' !! q = None.
Proof.
  intros HO Hq. assert (ValidateResolve resolved = Ok tt) as HV.
  { unfold opens in HO. destruct (parseHandoffPath _) as [[[? ?] ?] ?]. tauto. }
  destruct (handle_opens env t sid resolved HO) as (record & <- & _ & -> & input & ES). cbv zeta.
  set (t1 := set_sessions _ t) in *. destruct (stage_writes env resolved record t1 HV) as (writes & E1 & E2). cbv zeta in E2.
  destruct (if String.eqb (NormalizedMode resolved) "redirect" then _ else _) as [[status calls] t2]. cbn [snd] in *. subst t2.
  pose proof (gw_open q (q_rand env) (q_now env) input t l Hq) as Hopen. rewrite ES in Hopen. cbn [fst snd] in Hopen.
  destruct (write_all_steps q (SessionID record) writes t1 (enter q (SessionID record) l) (mkLive (SessionID record) 0 (unused (SessionID record) l)))
    as (r' & l' & HR & F1 & F2 & _ & F4); [apply lookup_insert_eq|done|].
  exists (leave q l'). split_and!; [|by rewrite <- E1|apply lookup_delete_eq].
  eapply rtc_l; [exact Hopen|]. eapply rtc_r; [exact HR|]. rewrite <- F2. by apply gw_close.
Qed.

Definition sample_input (id : string) : SessionInput := mkSessionInput id "tok" "live" "1" "ts" "proxy".
Definition two_sessions : GwTracker :=
  AddBytes 9 "s1" 700 (Start "r" 8 (sample_input "s2") (Start "r" 7 (sample_input "s1") (NewGwTracker 5)).2).2.

Lemma tracker_shows_ledger_witness :
  gs_ActiveSessions (GwTrackerStats 10 two_sessions) = 2 /\ BytesSent (SessionSnapshot "s1" two_sessions) = 700.
Proof.
  destruct (tracker_shows_ledger 5 two_sessions
    (send 0 (mkLive "s1" 0 true) 700 (enter 1 "s2" (enter 0 "s1" (mkLedger ∅ 0)))) 10) as (_ & H1 & _ & H2).
  - eapply rtc_l; [apply (gw_open 0 "r" 7 (sample_input "s1")); reflexivity|].
    eapply rtc_l; [apply (gw_open 1 "r" 8 (sample_input "s2")); reflexivity|].
    eapply rtc_l; [apply (gw_send 0 (mkLive "s1" 0 true) 9 700); reflexivity|]. apply rtc_refl.
  - split; [apply H2; by apply (bool_decide_unpack _)|]. apply (H1 0%nat (mkLive "s1" 700 true)); reflexivity.
Defined.

(** ** Handoff paths *)

(** A component that survives the parser: printable, without slash. *)
Definition path_word (s : string) : Prop :=
  s <> "" /\ Forall (fun c => no_space c = true /\ c <> "/"%char) (chars s).

Lemma drop_char_word c l : head l <> Some c -> drop_char c l = l.
Proof.
  destruct l as [|d l]; [done|]. intros H. cbn [drop_char]. destruct (Ascii.eqb_spec c d) as [<-|]; [|done].
  by destruct H.
Qed.

Lemma TrimChar_word c s : head (chars s) <> Some c -> last (chars s) <> Some c -> TrimChar c s = s.
Proof.
  intros H1 H2. unfold TrimChar. rewrite (drop_char_word c (chars s)) by done.
  rewrite drop_char_word by (by rewrite <- last_reverse, reverse_involutive).
  by rewrite reverse_involutive, str_chars.
Qed.

Lemma find_char_skip c l r : c ∉ l -> find_char (Ascii.eqb c) (l ++ c :: r) = Some (length l).
Proof.
  induction l as [|d l IH]; intros H; cbn; [by rewrite Ascii.eqb_refl|].
  destruct (Ascii.eqb_spec c d) as [->|]; [by destruct H; left|]. rewrite IH by (intros ?; apply H; by right). done.
Qed.

Lemma LastIndexByte_last c l r : c ∉ r -> LastIndexByte (l ++ c :: r) c = Some (length l).
Proof.
  intros H. unfold LastIndexByte. rewrite reverse_app, reverse_cons, <- app_assoc. cbn [app].
  rewrite find_char_skip by (by rewrite elem_of_reverse). cbn. f_equal. rewrite length_app, length_reverse. cbn. lia.
Qed.

Lemma word_space s : path_word s -> TrimSpace s = s.
Proof. intros [_ H]. apply TrimSpace_id. eapply Forall_impl; [exact H|]. by intros c [? _]. Qed.

Lemma word_slash s : path_word s -> "/"%char ∉ chars s.
Proof. intros [_ H] Hs. rewrite Forall_forall in H. by destruct (H _ Hs). Qed.

Lemma word_head s : path_word s -> head (chars s) <> Some "/"%char.
Proof. intros H%word_slash E. destruct (chars s); [done|]. injection E as ->. apply H. left. Qed.

(** A handoff path is read as it was composed: token, kind and identifier come back
    unchanged together with the extension, also when the identifier contains dots. *)
Theorem parseHandoffPath_roundtrip token kind id ext :
  path_word token -> path_word kind -> path_word id -> path_word ext -> "."%char ∉ chars ext ->
  parseHandoffPath (handoff_prefix +:+ token +:+ "/" +:+ kind +:+ "/" +:+ id +:+ "." +:+ ext) = (token, kind, id, ext).
Proof.
  intros Ht Hk Hi He Hdot. unfold parseHandoffPath. rewrite TrimPrefix_app.
  set (leaf := id +:+ "." +:+ ext).
  assert (path_word leaf) as Hl.
  { split; [unfold leaf; destruct Hi as [? _]; by destruct id|]. unfold leaf. rewrite !chars_app, !Forall_app.
    split_and!; [apply Hi|by repeat constructor|apply He]. }
  rewrite TrimChar_word.
  2:{ rewrite chars_app. pose proof (word_head token Ht) as Hh. destruct Ht as [Hne _].
      destruct (chars token) eqn:E; [by apply chars_nil in E|exact Hh]. }
  2:{ rewrite !chars_app. unfold leaf. rewrite !chars_app, !app_assoc, last_app. intros E.
      destruct (last (chars ext)) as [c|] eqn:El.
      - injection E as ->. apply last_Some_elem_of in El. by apply (word_slash ext He).
      - apply last_None in El. destruct He as [Hne _]. by apply chars_nil in El. }
  unfold Split. rewrite !chars_app. change (chars "/") with ["/"%char]. cbn [app].
  rewrite split_chars_app, (split_chars_plain _ (chars token)) by (by apply word_slash).
  rewrite split_chars_app, (split_chars_plain _ (chars kind)) by (by apply word_slash).
  rewrite (split_chars_plain _ (chars leaf)) by (by apply word_slash).
  cbn [app map]. rewrite !str_chars, !word_space by done.
  unfold leaf at 1. rewrite !chars_app. change (chars ".") with ["."%char]. cbn [app].
  rewrite LastIndexByte_last by done.
  assert (length (chars id) <> 0%nat) as Ni by (intros E; apply nil_length_inv, chars_nil in E; by destruct Hi).
  assert (length (chars ext) <> 0%nat) as Ne by (intros E; apply nil_length_inv, chars_nil in E; by destruct He).
  assert (chars leaf = chars id ++ "."%char :: chars ext) as El by (unfold leaf; by rewrite !chars_app).
  rewrite El, length_app. cbn [length]. rewrite (proj2 (Nat.eqb_neq _ _) Ni), (proj2 (Nat.leb_gt _ _)) by lia. cbn [orb].
  rewrite take_app_length. rewrite drop_app_ge by lia. replace (S (length (chars id)) - length (chars id))%nat with 1%nat by lia.
  cbn [drop]. rewrite drop_0, !str_chars, !word_space by done. rewrite TrimChar_word; [done| |].
  - intros E. destruct (chars ext); [done|]. injection E as ->. apply Hdot. left.
  - intros E%last_Some_elem_of. by apply Hdot.
Qed.

Lemma parseHandoffPath_roundtrip_witness :
  parseHandoffPath "/_auren/gateway/tok/live/ch.1/x" = ("", "", "", "") /\
  parseHandoffPath "/_auren/gateway/tok/live/ch.1.ts" = ("tok", "live", "ch.1", "ts").
Proof.
  split; [vm_compute; reflexivity|].
  apply (parseHandoffPath_roundtrip "tok" "live" "ch.1" "ts").
  - split; [discriminate|]. repeat constructor; discriminate.
  - split; [discriminate|]. repeat constructor; discriminate.
  - split; [discriminate|]. repeat constructor; discriminate.
  - split; [discriminate|]. repeat constructor; discriminate.
  - apply (bool_decide_unpack _). vm_compute. exact I.
Defined.

(** ** Observations *)

(** Two requests that share a session identifier (the token when the hub names none)
    count as one, and the end of the first hides the second. *)
Theorem shared_session_undercounted :
  let t1 := (Start "r" 7 (sample_input "tok") (NewGwTracker 5)).2 in
  let t2 := (Start "r" 8 (sample_input "tok") t1).2 in
  gs_ActiveSessions (GwTrackerStats 9 t2) = 1 /\ gs_ActiveSessions (GwTrackerStats 9 (Close "tok" t2).2) = 0.
Proof. vm_compute. split; reflexivity. Qed.

(** The window of the egress rate is never restarted: a burst of a gigabyte within a
    second counts as a kilobyte per second on a node that was idle before. *)
Theorem egress_is_lifetime_average :
  let t := AddBytes (1000000 * second) "s" 1000000000 (NewGwTracker 0) in
  currentEgressBps (1000000 * second) t = 1000.
Proof. vm_compute. reflexivity. Qed.

(** The admission check and the start of the session are separate: two requests that
    are both checked before either starts exceed a limit of one session. *)
Theorem concurrent_admissions_exceed_limit :
  let ops := mkOpsConfig false "" true 1 0 false 0 "" false "" false false in
  let decide t := gatewayAdmissionDecision sample_ops_env (Some (NewRuntime ops)) 9 0 0 t in
  let t0 := NewGwTracker 5 in
  let t2 := (Start "r" 8 (sample_input "s2") (Start "r" 7 (sample_input "s1") t0).2).2 in
  Allowed (decide t0) = true /\ Allowed (decide t2) = false /\ gs_ActiveSessions (GwTrackerStats 9 t2) = 2.
Proof. vm_compute. split_and!; reflexivity. Qed.
