(* ===== verification/Wire.v ===== *)
(** * The messages of the Media Hub

    The JSON side of internal/mediahub: client.go (the calls the transfer and gateway parts
    make), transfer_payloads.go and gateway_payloads.go (what is sent and how answers are
    read), json_helpers.go.  An answer is the object [doJSON] decoded; the agent encodes it
    again and decodes it into its own types, which is what the instances below describe.
    [Raw] fields only keep the answer for logs and are left out. *)
From Stdlib Require Import SpecFloat.
From S2P Require Import Prelude GoStrings GoFloat GoTime GoRFC3339 GoJson GoJsonStruct NodeState Ops Download Transfer Executor Gateway HubClient.

#[local] Obligation Tactic := idtac.

(** ** Transfer jobs as the hub writes them *)
Definition zero_source : TransferSource := mkTransferSource "" ∅ "" false 0 false 0 false "".
Definition source_entries (s : TransferSource) : list (string * option any) :=
  [ entry false "url" (URL s); entry true "headers" (Headers s); entry true "resolver_strategy" (ResolverStrategy s);
    entry false "follow_redirects" (FollowRedirects s); entry true "max_redirects" (MaxRedirects s);
    entry false "resume_enabled" (ResumeEnabled s); entry true "min_bytes" (MinBytes s);
    entry false "block_html" (BlockHTML s); entry true "expected_sha256" (ExpectedSHA256 s) ].
Definition source_names : list string := map fst (source_entries zero_source).
Definition source_fields (old : TransferSource) (m : object) : option TransferSource :=
  f1 ← field source_names "url" m (URL old);
  f2 ← field source_names "headers" m (Headers old);
  f3 ← field source_names "resolver_strategy" m (ResolverStrategy old);
  f4 ← field source_names "follow_redirects" m (FollowRedirects old);
  f5 ← field source_names "max_redirects" m (MaxRedirects old);
  f6 ← field source_names "resume_enabled" m (ResumeEnabled old);
  f7 ← field source_names "min_bytes" m (MinBytes old);
  f8 ← field source_names "block_html" m (BlockHTML old);
  f9 ← field source_names "expected_sha256" m (ExpectedSHA256 old);
  Some (mkTransferSource f1 f2 f3 f4 f5 f6 f7 f8 f9).
Definition source_fits (s : TransferSource) : Prop := Z.abs (MaxRedirects s) < 2 ^ 53 /\ Z.abs (MinBytes s) < 2 ^ 53.

Lemma source_read s m : carries source_names (source_entries s) m -> source_fits s ->
  source_fields zero_source m = Some s.
Proof. intros HC [H1 H2]. unfold source_fields. by read_entries HC; [..|destruct s]. Qed.

#[export] Program Instance json_source : Json TransferSource := {|
  json_zero := zero_source; json_empty _ := false; json_dec v old := struct (source_fields old) v old;
  json_enc s := AMap (present (source_entries s)); json_fits := source_fits
|}.
Next Obligation. done. Qed.
Next Obligation. intros s H. by apply source_read; [apply carries_present; [|apply (bool_decide_unpack _)]|]. Qed.

Definition zero_destination : TransferDestination :=
  mkTransferDestination "" "" "" "" "" "" "" "" false "" "" "" "" "" "" "" "" ∅.
Definition destination_entries (s : TransferDestination) : list (string * option any) :=
  [ entry false "driver" (Driver s); entry true "endpoint" (Endpoint s); entry true "upload_url" (UploadURL s);
    entry true "token" (Token s); entry true "token_header" (TokenHeader s); entry true "access_key_id"
    (AccessKeyID s); entry true "secret_access_key" (SecretAccessKey s); entry true "session_token"
    (SessionToken s); entry true "force_path_style" (ForcePathStyle s); entry true "bucket_uuid" (BucketUUID s);
    entry true "bucket" (Bucket s); entry true "directory_path" (DirectoryPath s); entry true "relative_path"
    (RelativePath s); entry true "object_path" (ObjectPath s); entry true "visibility" (Visibility s); entry
    true "mime_type" (MimeType s); entry true "checksum_algorithm" (ChecksumAlgorithm s); entry true "metadata"
    (DestMetadata s) ].
Definition destination_names : list string := map fst (destination_entries zero_destination).
Definition destination_fields (old : TransferDestination) (m : object) : option TransferDestination :=
  f1 ← field destination_names "driver" m (Driver old);
  f2 ← field destination_names "endpoint" m (Endpoint old);
  f3 ← field destination_names "upload_url" m (UploadURL old);
  f4 ← field destination_names "token" m (Token old);
  f5 ← field destination_names "token_header" m (TokenHeader old);
  f6 ← field destination_names "access_key_id" m (AccessKeyID old);
  f7 ← field destination_names "secret_access_key" m (SecretAccessKey old);
  f8 ← field destination_names "session_token" m (SessionToken old);
  f9 ← field destination_names "force_path_style" m (ForcePathStyle old);
  f10 ← field destination_names "bucket_uuid" m (BucketUUID old);
  f11 ← field destination_names "bucket" m (Bucket old);
  f12 ← field destination_names "directory_path" m (DirectoryPath old);
  f13 ← field destination_names "relative_path" m (RelativePath old);
  f14 ← field destination_names "object_path" m (ObjectPath old);
  f15 ← field destination_names "visibility" m (Visibility old);
  f16 ← field destination_names "mime_type" m (MimeType old);
  f17 ← field destination_names "checksum_algorithm" m (ChecksumAlgorithm old);
  f18 ← field destination_names "metadata" m (DestMetadata old);
  Some (mkTransferDestination f1 f2 f3 f4 f5 f6 f7 f8 f9 f10 f11 f12 f13 f14 f15 f16 f17 f18).
Definition destination_fits (s : TransferDestination) : Prop := True.

Lemma destination_read s m : carries destination_names (destination_entries s) m -> destination_fits s ->
  destination_fields zero_destination m = Some s.
Proof. intros HC _. unfold destination_fields. by read_entries HC; [..|destruct s]. Qed.

#[export] Program Instance json_destination : Json TransferDestination := {|
  json_zero := zero_destination; json_empty _ := false; json_dec v old := struct (destination_fields old) v old;
  json_enc s := AMap (present (destination_entries s)); json_fits := destination_fits
|}.
Next Obligation. done. Qed.
Next Obligation. intros s H. by apply destination_read; [apply carries_present; [|apply (bool_decide_unpack _)]|]. Qed.

Definition zero_control : TransferControl := mkTransferControl 0 0 0 0.
Definition control_entries (s : TransferControl) : list (string * option any) :=
  [ entry true "heartbeat_seconds" (HeartbeatSeconds s); entry true "progress_event_seconds"
    (ProgressEventSeconds s); entry true "lease_seconds" (LeaseSeconds s); entry true "max_attempts"
    (CtlMaxAttempts s) ].
Definition control_names : list string := map fst (control_entries zero_control).
Definition control_fields (old : TransferControl) (m : object) : option TransferControl :=
  f1 ← field control_names "heartbeat_seconds" m (HeartbeatSeconds old);
  f2 ← field control_names "progress_event_seconds" m (ProgressEventSeconds old);
  f3 ← field control_names "lease_seconds" m (LeaseSeconds old);
  f4 ← field control_names "max_attempts" m (CtlMaxAttempts old);
  Some (mkTransferControl f1 f2 f3 f4).
Definition control_fits (s : TransferControl) : Prop := Z.abs (HeartbeatSeconds s) < 2 ^ 53 /\ Z.abs (ProgressEventSeconds s) < 2 ^ 53 /\
  Z.abs (LeaseSeconds s) < 2 ^ 53 /\ Z.abs (CtlMaxAttempts s) < 2 ^ 53.

Lemma control_read s m : carries control_names (control_entries s) m -> control_fits s ->
  control_fields zero_control m = Some s.
Proof. intros HC (H1 & H2 & H3 & H4). unfold control_fields. by read_entries HC; [..|destruct s]. Qed.

#[export] Program Instance json_control : Json TransferControl := {|
  json_zero := zero_control; json_empty _ := false; json_dec v old := struct (control_fields old) v old;
  json_enc s := AMap (present (control_entries s)); json_fits := control_fits
|}.
Next Obligation. done. Qed.
Next Obligation. intros s H. by apply control_read; [apply carries_present; [|apply (bool_decide_unpack _)]|]. Qed.

Definition zero_job : TransferJob := mkTransferJob "" "" zero_source zero_destination zero_control ∅ ∅.
Definition job_entries (s : TransferJob) : list (string * option any) :=
  [ entry false "uuid" (UUID s); entry false "operation" (TOperation s); entry false "source" (Source s); entry
    false "destination" (Destination s); entry false "control" (Control s); entry true "context" (JobContext s);
    entry true "metadata" (TMetadata s) ].
Definition job_names : list string := map fst (job_entries zero_job).
Definition job_fields (old : TransferJob) (m : object) : option TransferJob :=
  f1 ← field job_names "uuid" m (UUID old);
  f2 ← field job_names "operation" m (TOperation old);
  f3 ← field job_names "source" m (Source old);
  f4 ← field job_names "destination" m (Destination old);
  f5 ← field job_names "control" m (Control old);
  f6 ← field job_names "context" m (JobContext old);
  f7 ← field job_names "metadata" m (TMetadata old);
  Some (mkTransferJob f1 f2 f3 f4 f5 f6 f7).
Definition job_fits (s : TransferJob) : Prop := source_fits (Source s) /\ control_fits (Control s).

Lemma job_read s m : carries job_names (job_entries s) m -> job_fits s ->
  job_fields zero_job m = Some s.
Proof. intros HC [H1 H2]. unfold job_fields. by read_entries HC; [..|destruct s]. Qed.

#[export] Program Instance json_job : Json TransferJob := {|
  json_zero := zero_job; json_empty _ := false; json_dec v old := struct (job_fields old) v old;
  json_enc s := AMap (present (job_entries s)); json_fits := job_fits
|}.
Next Obligation. done. Qed.
Next Obligation. intros s H. by apply job_read; [apply carries_present; [|apply (bool_decide_unpack _)]|]. Qed.

(** The answer to a claim. *)
Definition zero_claim : ClaimResponse := mkClaimResponse false zero_job.
Definition claim_entries (s : ClaimResponse) : list (string * option any) :=
  [ entry false "success" (Success s); entry true "job" (ClaimedJob s) ].
Definition claim_names : list string := map fst (claim_entries zero_claim).
Definition claim_fields (old : ClaimResponse) (m : object) : option ClaimResponse :=
  f1 ← field claim_names "success" m (Success old);
  f2 ← field claim_names "job" m (ClaimedJob old);
  Some (mkClaimResponse f1 f2).
Definition claim_fits (s : ClaimResponse) : Prop := job_fits (ClaimedJob s).

Lemma claim_read s m : carries claim_names (claim_entries s) m -> claim_fits s ->
  claim_fields zero_claim m = Some s.
Proof. intros HC H. unfold claim_fields. by read_entries HC; [..|destruct s]. Qed.

(** ** Gateway sessions as the hub writes them *)
Definition zero_resolve : GatewayResolveResult := mkResolve false "" "" "" ∅ "" 0 0.
Definition resolve_entries (s : GatewayResolveResult) : list (string * option any) :=
  [ entry false "success" (g_Success s); entry false "mode" (g_Mode s); entry false "upstream_url"
    (g_UpstreamURL s); entry true "redirect_url" (g_RedirectURL s); entry true "headers" (g_Headers s); entry
    true "session_id" (g_SessionID s); entry true "heartbeat_seconds" (g_HeartbeatSeconds s); entry true
    "status_code" (g_StatusCode s) ].
Definition resolve_names : list string := map fst (resolve_entries zero_resolve).
Definition resolve_fields (old : GatewayResolveResult) (m : object) : option GatewayResolveResult :=
  f1 ← field resolve_names "success" m (g_Success old);
  f2 ← field resolve_names "mode" m (g_Mode old);
  f3 ← field resolve_names "upstream_url" m (g_UpstreamURL old);
  f4 ← field resolve_names "redirect_url" m (g_RedirectURL old);
  f5 ← field resolve_names "headers" m (g_Headers old);
  f6 ← field resolve_names "session_id" m (g_SessionID old);
  f7 ← field resolve_names "heartbeat_seconds" m (g_HeartbeatSeconds old);
  f8 ← field resolve_names "status_code" m (g_StatusCode old);
  Some (mkResolve f1 f2 f3 f4 f5 f6 f7 f8).
Definition resolve_fits (s : GatewayResolveResult) : Prop := Z.abs (g_HeartbeatSeconds s) < 2 ^ 53 /\ Z.abs (g_StatusCode s) < 2 ^ 53.

Lemma resolve_read s m : carries resolve_names (resolve_entries s) m -> resolve_fits s ->
  resolve_fields zero_resolve m = Some s.
Proof. intros HC [H1 H2]. unfold resolve_fields. by read_entries HC; [..|destruct s]. Qed.

(** ** Reading answers

    [json_error] is what [json.Unmarshal] reports for an object that does not fit; its text
    names the field and the types and is only logged. *)
Section Answers.
Context (json_error : object -> error).

Definition checked_claim (r : ClaimResponse) : result ClaimResponse :=
  if String.eqb (TrimSpace (UUID (ClaimedJob r))) "" then Ok r else
  match ValidateTransferJob (ClaimedJob r) with Err e => Err e | Ok _ => Ok r end.

(** [ParseClaimResponse] of an object, and of the nil map. *)
Fixpoint parse_claim (v : any) : result ClaimResponse :=
  match v with
  | AMap response =>
    match claim_fields zero_claim response with
    | None => Err (json_error response)
    | Some r =>
      let nested :=
        (fix data (m : object) : option (result ClaimResponse) :=
           match m with
           | [] => None
           | (k, x) :: rest =>
             if String.eqb k "data" then match x with AMap _ => Some (parse_claim x) | _ => None end else data rest
           end) response in
      match (if Success r then None else nested) with
      | Some answer => answer
      | None => checked_claim r
      end
    end
  | _ => Ok zero_claim
  end.
Definition ParseClaimResponse (response : option object) : result ClaimResponse :=
  match response with None => Ok zero_claim | Some m => parse_claim (AMap m) end.

(** [ParseGatewayResolveResult]: first the redirect address, then the envelopes, then the
    other names of the fields. *)
Definition with_redirect (r : GatewayResolveResult) : GatewayResolveResult :=
  if String.eqb (g_UpstreamURL r) "" && negb (String.eqb (g_RedirectURL r) "")
  then mkResolve (g_Success r) (g_Mode r) (g_RedirectURL r) (g_RedirectURL r) (g_Headers r) (g_SessionID r)
         (g_HeartbeatSeconds r) (g_StatusCode r) else r.
Definition with_other_names (response : object) (r : GatewayResolveResult) : GatewayResolveResult :=
  mkResolve (g_Success r) (or_else (g_Mode r) (firstString response ["delivery_mode"; "proxy_mode"]))
    (or_else (g_UpstreamURL r) (firstString response ["url"; "source_url"; "effective_url"]))
    (g_RedirectURL r) (g_Headers r)
    (or_else (g_SessionID r) (firstString response ["session_uuid"; "stream_session_id"; "session"]))
    (g_HeartbeatSeconds r) (g_StatusCode r).
Definition checked_resolve (r : GatewayResolveResult) : result GatewayResolveResult :=
  match ValidateResolve r with Err e => Err e | Ok _ => Ok r end.
Definition envelopes : list string := ["data"; "resolve"; "gateway"].
Fixpoint first_some {A} (l : list (option A)) : option A :=
  match l with [] => None | Some a :: _ => Some a | None :: r => first_some r end.

Fixpoint parse_resolve (v : any) : result GatewayResolveResult :=
  match v with
  | AMap response =>
    match resolve_fields zero_resolve response with
    | None => Err (json_error response)
    | Some r =>
      let r := with_redirect r in
      let nested key :=
        (fix at_key (m : object) : option GatewayResolveResult :=
           match m with
           | [] => None
           | (k, x) :: rest =>
             if String.eqb k key
             then match x with
                  | AMap _ => match parse_resolve x with Ok r => Some r | Err _ => None end
                  | _ => None
                  end
             else at_key rest
           end) response in
      match (if String.eqb (g_UpstreamURL r) "" then first_some (map nested envelopes) else None) with
      | Some answer => Ok answer
      | None => checked_resolve (with_other_names response r)
      end
    end
  | _ => Err (Errorf "gateway resolve response is empty")
  end.
Definition ParseGatewayResolveResult (response : option object) : result GatewayResolveResult :=
  match response with None => Err (Errorf "gateway resolve response is empty") | Some m => parse_resolve (AMap m) end.

(** ** The equations of the two readers *)
Definition inside {A} (parse : any -> A) (key : string) (m : object) : option A :=
  match assoc key m with Some (AMap n) => Some (parse (AMap n)) | _ => None end.

Lemma parse_claim_eq m : parse_claim (AMap m) =
  match claim_fields zero_claim m with
  | None => Err (json_error m)
  | Some r => match (if Success r then None else inside parse_claim "data" m) with
              | Some answer => answer
              | None => checked_claim r
              end
  end.
Proof.
  cbn [parse_claim]. destruct (claim_fields zero_claim m) as [r|]; [|done]. cbv zeta.
  destruct (Success r); [done|]. f_equal.
  set (go := fix data (l : object) := _). assert (forall l, go l = inside parse_claim "data" l) as ->; [|done].
  induction l as [|[k x] l IH]; [done|]. unfold inside. cbn. destruct (String.eqb k "data"); [by destruct x|done].
Qed.

Lemma parse_resolve_eq m : parse_resolve (AMap m) =
  match resolve_fields zero_resolve m with
  | None => Err (json_error m)
  | Some r =>
    let r := with_redirect r in
    match (if String.eqb (g_UpstreamURL r) ""
           then first_some (map (fun key => inside parse_resolve key m ≫=
                                   (fun a => match a with Ok r => Some r | Err _ => None end)) envelopes)
           else None) with
    | Some answer => Ok answer
    | None => checked_resolve (with_other_names m r)
    end
  end.
Proof.
  cbn [parse_resolve]. destruct (resolve_fields zero_resolve m) as [r|]; [|done]. cbv zeta.
  destruct (String.eqb _ ""); [|done].
  match goal with |- match first_some ?a with _ => _ end = match first_some ?b with _ => _ end =>
    assert (a = b) as ->; [|done] end.
  apply map_ext. intros key.
  set (go := fix at_key (l : object) := _).
  assert (forall l, go l = inside parse_resolve key l ≫= (fun a => match a with Ok r => Some r | Err _ => None end)) as ->; [|done].
  induction l as [|[k x] l IH]; [done|]. unfold inside. cbn. destruct (String.eqb k key); [by destruct x|done].
Qed.
End Answers.

(** ** What the agent sends

    An integer of the agent is written as it is, a time as RFC 3339 with fraction. *)
Definition num (omitempty : bool) (name : string) (z : Z) : string * option any :=
  (name, if omitempty && (z =? 0) then None else Some (AInt z)).
Definition real (omitempty : bool) (name : string) (f : spec_float) : string * option any :=
  (name, if omitempty && SFeqb f fzero then None else Some (AFloat f)).
Definition moment (name : string) (t : Time) : string * option any := (name, Some (AString (FormatRFC3339Nano t))).
Definition texts (name : string) (l : list string) : string * option any := (name, Some (AList (AString <$> l))).

Definition capacity_json (c : Capacity) : any :=
  AMap (present
    [ num false "max_sessions" (c_MaxSessions c); num false "active_sessions" (c_ActiveSessions c);
      num false "max_concurrent_jobs" (c_MaxConcurrentJobs c); num false "active_jobs" (c_ActiveJobs c);
      num false "max_egress_mbps" (c_MaxEgressMbps c); num false "current_egress_mbps" (c_CurrentEgressMbps c) ]).
Definition claim_request_json (r : ClaimRequest) : any :=
  AMap (present
    [ texts "capabilities" (Capabilities r); ("capacity", Some (capacity_json (ReqCapacity r)));
      texts "accepted_operations" (AcceptedOperations r); entry false "region" (ReqRegion r);
      entry true "metadata" (ClaimMetadata r) ]).

Record TransferProgressPayload := mkProgress {
  pp_Status : string; pp_Stage : string; pp_CurrentBytes : Z; pp_TotalBytes : Z; pp_SpeedBps : Z;
  pp_Percent : spec_float; pp_Message : string; pp_Metrics : metadata; pp_GeneratedAt : Time
}.
Definition progress_json (p : TransferProgressPayload) : any :=
  AMap (present
    [ entry false "status" (pp_Status p); entry false "stage" (pp_Stage p); num false "current_bytes" (pp_CurrentBytes p);
      num true "total_bytes" (pp_TotalBytes p); num true "speed_bps" (pp_SpeedBps p); real true "percent" (pp_Percent p);
      entry false "message" (pp_Message p); entry true "metrics" (pp_Metrics p); moment "generated_at" (pp_GeneratedAt p) ]).

Definition object_json (o : TransferObjectResult) : any :=
  AMap (present
    [ entry false "driver" (ob_Driver o); entry true "bucket_uuid" (ob_BucketUUID o); entry true "bucket" (ob_Bucket o);
      entry true "object_uuid" (ob_ObjectUUID o); entry false "path" (ob_Path o); entry true "url" (ob_URL o);
      num true "size" (ob_Size o); entry true "checksum_sha256" (ob_ChecksumSHA256 o);
      entry true "visibility" (ob_Visibility o); entry true "mime_type" (ob_MimeType o);
      entry true "multipart" (ob_Multipart o); entry true "metadata" (ob_Metadata o) ]).
Record TransferCompletedPayload := mkCompleted {
  cp_Status : string; cp_Stage : string; cp_Bytes : Z; cp_ChecksumSHA256 : string; cp_Destination : TransferObjectResult;
  cp_Timing : gmap string spec_float; cp_Metrics : metadata; cp_GeneratedAt : Time
}.
Definition completed_json (p : TransferCompletedPayload) : any :=
  AMap (present
    [ entry false "status" (cp_Status p); entry false "stage" (cp_Stage p); num false "bytes" (cp_Bytes p);
      entry true "checksum_sha256" (cp_ChecksumSHA256 p); ("destination", Some (object_json (cp_Destination p)));
      ("timing", if decide (size (cp_Timing p) = 0%nat) then None
                 else Some (AMap (prod_map id AFloat <$> map_to_list (cp_Timing p))));
      entry true "metrics" (cp_Metrics p); moment "generated_at" (cp_GeneratedAt p) ]).

Record TransferFailedPayload := mkFailed {
  fp_Status : string; fp_Stage : string; fp_Message : string; fp_Error : string; fp_Retryable : bool;
  fp_Metrics : metadata; fp_GeneratedAt : Time
}.
Definition failed_json (p : TransferFailedPayload) : any :=
  AMap (present
    [ entry false "status" (fp_Status p); entry false "stage" (fp_Stage p); entry false "message" (fp_Message p);
      entry false "error" (fp_Error p); entry false "retryable" (fp_Retryable p); entry true "metrics" (fp_Metrics p);
      moment "generated_at" (fp_GeneratedAt p) ]).

Record EventPayload := mkEventPayload {
  ev_ID : string; ev_Level : string; ev_Type : string; ev_Message : string; ev_Metadata : gmap string string;
  ev_CreatedAt : Time
}.
Definition event_json (e : EventPayload) : any :=
  AMap (present
    [ entry true "id" (ev_ID e); entry false "level" (ev_Level e); entry false "type" (ev_Type e);
      entry false "message" (ev_Message e); entry true "metadata" (ev_Metadata e); moment "created_at" (ev_CreatedAt e) ]).
(** [TransferEventsPayload] and [GatewayEventsPayload] have the same fields. *)
Record EventBatch := mkEventBatch { eb_Events : list EventPayload; eb_GeneratedAt : Time; eb_Metadata : metadata }.
Definition event_batch_json (b : EventBatch) : any :=
  AMap (present
    [ ("events", Some (AList (event_json <$> eb_Events b))); moment "generated_at" (eb_GeneratedAt b);
      entry true "metadata" (eb_Metadata b) ]).

Record DrainPayload := mkDrainPayload {
  dp_NodeUUID : string; dp_Reason : string; dp_ActiveJobs : Z; dp_ActiveSessions : Z; dp_Forced : bool;
  dp_GeneratedAt : Time; dp_Metadata : metadata
}.
Definition drain_json (p : DrainPayload) : any :=
  AMap (present
    [ entry true "node_uuid" (dp_NodeUUID p); entry true "reason" (dp_Reason p); num false "active_jobs" (dp_ActiveJobs p);
      num false "active_sessions" (dp_ActiveSessions p); entry true "forced" (dp_Forced p);
      moment "generated_at" (dp_GeneratedAt p); entry true "metadata" (dp_Metadata p) ]).

Record GatewayResolveRequest := mkResolveReq {
  gr_Token : string; gr_Kind : string; gr_ID : string; gr_Extension : string; gr_Method : string; gr_Range : string;
  gr_UserAgent : string; gr_RemoteAddr : string; gr_Headers : gmap string string; gr_GeneratedAt : Time
}.
Definition resolve_request_json (r : GatewayResolveRequest) : any :=
  AMap (present
    [ entry false "token" (gr_Token r); entry false "kind" (gr_Kind r); entry false "id" (gr_ID r);
      entry false "ext" (gr_Extension r); entry false "method" (gr_Method r); entry true "range" (gr_Range r);
      entry true "user_agent" (gr_UserAgent r); entry true "remote_addr" (gr_RemoteAddr r);
      entry true "headers" (gr_Headers r); moment "generated_at" (gr_GeneratedAt r) ]).

Record GatewaySessionHeartbeatPayload := mkSessionHeartbeat {
  sh_SessionID : string; sh_Token : string; sh_Kind : string; sh_ID : string; sh_Extension : string; sh_Mode : string;
  sh_Status : string; sh_HTTPStatus : Z; sh_BytesSent : Z; sh_CurrentEgressBps : Z; sh_Message : string; sh_GeneratedAt : Time
}.
Definition session_heartbeat_json (p : GatewaySessionHeartbeatPayload) : any :=
  AMap (present
    [ entry false "session_id" (sh_SessionID p); entry true "token" (sh_Token p); entry true "kind" (sh_Kind p);
      entry true "id" (sh_ID p); entry true "ext" (sh_Extension p); entry false "mode" (sh_Mode p);
      entry false "status" (sh_Status p); num true "http_status" (sh_HTTPStatus p); num false "bytes_sent" (sh_BytesSent p);
      num true "current_egress_bps" (sh_CurrentEgressBps p); entry true "message" (sh_Message p);
      moment "generated_at" (sh_GeneratedAt p) ]).

Record GatewaySessionClosePayload := mkSessionClose {
  sc_SessionID : string; sc_Token : string; sc_Kind : string; sc_ID : string; sc_Extension : string; sc_Mode : string;
  sc_Status : string; sc_HTTPStatus : Z; sc_BytesSent : Z; sc_DurationSeconds : spec_float; sc_Reason : string;
  sc_GeneratedAt : Time
}.
Definition session_close_json (p : GatewaySessionClosePayload) : any :=
  AMap (present
    [ entry false "session_id" (sc_SessionID p); entry true "token" (sc_Token p); entry true "kind" (sc_Kind p);
      entry true "id" (sc_ID p); entry true "ext" (sc_Extension p); entry false "mode" (sc_Mode p);
      entry false "status" (sc_Status p); num true "http_status" (sc_HTTPStatus p); num false "bytes_sent" (sc_BytesSent p);
      real true "duration_seconds" (sc_DurationSeconds p); entry true "reason" (sc_Reason p);
      moment "generated_at" (sc_GeneratedAt p) ]).

(** ** The calls of client.go *)
Definition TransferClaimPath : string := "/api/internal/transfer-agent/jobs/claim".
Definition GatewayResolvePath : string := "/api/internal/gateway/resolve".
Definition GatewaySessionHeartbeatPath : string := "/api/internal/gateway/sessions/heartbeat".
Definition GatewaySessionClosePath : string := "/api/internal/gateway/sessions/close".
Definition GatewayEventsPath : string := "/api/internal/gateway/events".

(** [marshal] is [json.Marshal] and [decode] the decoder of answers. *)
Section HubCalls.
Context (decode : string -> result (option object)) (json_error : object -> error) (marshal : any -> result string).
Context (client : HubClient) (env : hub_env) (state : NodeState).

Definition ClaimTransferJob (payload : ClaimRequest) : result ClaimResponse * list HubRequest :=
  let '(r, sent) := doJSON decode client env "POST" TransferClaimPath (Some (marshal (claim_request_json payload))) state true in
  (match r with Err e => Err e | Ok response => ParseClaimResponse json_error response end, sent).
Definition ResolveGateway (payload : GatewayResolveRequest) : result GatewayResolveResult * list HubRequest :=
  let '(r, sent) := doJSON decode client env "POST" GatewayResolvePath (Some (marshal (resolve_request_json payload))) state true in
  (match r with Err e => Err e | Ok response => ParseGatewayResolveResult json_error response end, sent).

Definition report (path : string) (payload : any) : option error * list HubRequest :=
  post decode client env path (marshal payload) state.
Definition SendDrainStarted (p : DrainPayload) := report "/api/internal/nodes/drain/started" (drain_json p).
Definition SendDrainCompleted (p : DrainPayload) := report "/api/internal/nodes/drain/completed" (drain_json p).
Definition SendTransferStarted (uuid : string) (p : TransferProgressPayload) :=
  report (transferJobPath uuid "started") (progress_json p).
Definition SendTransferProgress (uuid : string) (p : TransferProgressPayload) :=
  report (transferJobPath uuid "progress") (progress_json p).
Definition SendTransferCompleted (uuid : string) (p : TransferCompletedPayload) :=
  report (transferJobPath uuid "completed") (completed_json p).
Definition SendTransferFailed (uuid : string) (p : TransferFailedPayload) :=
  report (transferJobPath uuid "failed") (failed_json p).
Definition SendTransferEvents (uuid : string) (p : EventBatch) :=
  report (transferJobPath uuid "events") (event_batch_json p).
Definition ReleaseTransferJob (uuid : string) (p : metadata) :=
  report (transferJobPath uuid "release") (json_enc p).
Definition SendGatewaySessionHeartbeat (p : GatewaySessionHeartbeatPayload) :=
  report GatewaySessionHeartbeatPath (session_heartbeat_json p).
Definition CloseGatewaySession (p : GatewaySessionClosePayload) := report GatewaySessionClosePath (session_close_json p).
Definition SendGatewayEvents (p : EventBatch) := report GatewayEventsPath (event_batch_json p).

(** ** What the hub receives *)

(** One request that the hub can check and read. *)
Definition received (path : string) (payload : any) (sent : list HubRequest) : Prop :=
  exists request body, sent = [request] /\ marshal payload = Ok body /\ hq_Method request = "POST" /\
    hq_PathText request = resolve client path /\ hq_Body request = body /\
    header_get HeaderNodeUUID (hq_Header request) = TrimSpace (NodeUUID state) /\
    (c_hmacEnabled client = true -> hub_verifies (TrimSpace (NodeUUID state)) (NodeSecret state) request).

Lemma call_received path payload r sent :
  doJSON decode client env "POST" path (Some (marshal payload)) state true = (r, sent) ->
  (sent = [] /\ is_ok r = false) \/ received path payload sent.
Proof.
  intros H. pose proof (doJSON_sent decode client env "POST" path _ state true r sent H) as
    [?|(plain & request & -> & H1 & H2 & H3 & HA)]; [by left|right].
  apply authenticated in HA as (_ & E1 & E2 & E3 & E4 & E5).
  destruct (marshal payload) as [body|e] eqn:EM.
  - exists request, body. split_and!; [done..|congruence|congruence|congruence|done|done].
  - unfold doJSON in H. done.
Qed.

(** A report succeeds only when the hub received it. *)
Lemma report_received path payload err sent : report path payload = (err, sent) ->
  (sent = [] /\ err <> None) \/ received path payload sent.
Proof.
  unfold report, post. destruct (doJSON _ _ _ _ _ _ _ _) as [r s] eqn:E. intros [= <- <-].
  destruct (call_received _ _ _ _ E) as [[-> Hr]|Hs]; [left|by right]. by destruct r.
Qed.

Lemma authentication_succeeds request hmac : NodeEmpty state = false -> is_ok (h_random env) = true ->
  exists request', ApplyNodeAuthentication request state hmac (h_now env) (h_clock env) "" (h_random env) = Ok request'.
Proof.
  unfold ApplyNodeAuthentication. intros -> HR. destruct hmac; cbn [negb]; [|by eexists].
  change (String.eqb (TrimSpace "") "") with true. cbv beta iota. destruct (h_random env); [|done].
  cbn [NewNonce mbind result_bind]. by eexists.
Qed.

(** The hub's answer to whatever the node asks. *)
Definition hub_answers (response : object) : Prop :=
  h_newRequest env = None /\ is_ok (h_random env) = true /\ NodeEmpty state = false /\
  exists status body, (forall request, h_do env request = Ok (mkHubResponse status body None)) /\ 200 <= status < 300 /\
    TrimSpace (limit_body body) <> "" /\ decode (limit_body body) = Ok (Some response).

Lemma doJSON_answered path payload response : hub_answers response -> is_ok (marshal payload) = true ->
  exists sent, doJSON decode client env "POST" path (Some (marshal payload)) state true = (Ok (Some response), sent) /\
    received path payload sent.
Proof.
  intros (HN & HR & HE & status & body & HD & HS & HB & HC) HM.
  destruct (doJSON decode client env "POST" path (Some (marshal payload)) state true) as [r sent] eqn:E.
  exists sent. pose proof (call_received _ _ _ _ E) as HX.
  assert (r = Ok (Some response)) as ->; [|destruct HX as [[_ ?]|?]; done].
  clear HX. unfold doJSON in E. destruct (marshal payload) as [b|]; [|done]. rewrite HN in E.
  destruct (authentication_succeeds (mkHubRequest "POST" (resolve client path) ""
    (header_set "Content-Type" "application/json" (header_set "User-Agent" (c_userAgent client)
       (header_set "Accept" "application/json" ∅))) b) (c_hmacEnabled client) HE HR) as [request EA].
  cbv zeta in E. rewrite EA, HD in E. cbn [rs_Body rs_readErr rs_Status] in E.
  rewrite (proj2 (Z.ltb_ge _ _)), (proj2 (Z.leb_gt _ _)) in E by lia. cbn [orb] in E.
  rewrite (proj2 (String.eqb_neq _ _) HB), HC in E. by injection E as <- _.
Qed.
End HubCalls.

(** ** Claims

    The shapes in which an answer may carry another: itself, or in the field data of an
    answer that does not report success itself, at any depth. *)
Inductive claim_shape (m : object) : object -> Prop :=
| shape_itself : claim_shape m m
| shape_data outer inner r :
    claim_fields zero_claim outer = Some r -> Success r = false -> assoc "data" outer = Some (AMap inner) ->
    claim_shape m inner -> claim_shape m outer.

Lemma claim_shape_read json_error m outer answer : parse_claim json_error (AMap m) = answer ->
  claim_shape m outer -> parse_claim json_error (AMap outer) = answer.
Proof.
  intros <-. induction 1 as [|outer inner r E1 E2 E3 _ IH]; [done|].
  rewrite parse_claim_eq, E1, E2. unfold inside. by rewrite E3.
Qed.

Lemma claim_read_back json_error job m : carries claim_names (claim_entries (mkClaimResponse true job)) m ->
  job_fits job -> ValidateTransferJob job = Ok tt -> parse_claim json_error (AMap m) = Ok (mkClaimResponse true job).
Proof.
  intros HC HF HV. rewrite parse_claim_eq, (claim_read _ _ HC HF). cbn [Success]. unfold checked_claim.
  cbn [ClaimedJob]. rewrite HV. by destruct (String.eqb _ "").
Qed.

Lemma valid_job_named job : ValidateTransferJob job = Ok tt -> TrimSpace (UUID job) <> "".
Proof.
  unfold ValidateTransferJob, transfer_issues. destruct (String.eqb_spec (TrimSpace (UUID job)) ""); [done|done].
Qed.

Section ClaimTheorems.
Context (decode : string -> result (option object)) (json_error : object -> error) (marshal : any -> result string).
Context (client : HubClient) (env : hub_env) (state : NodeState).

(** One claim of the manager over the client. *)
Definition claim_over_hub (ops : ops_env) (manager : Manager) (stats : Stats) (gw : option ClaimSnapshot) (claimed_at : string)
  : claim_outcome :=
  claimOnce ops manager state stats gw claimed_at
    (fun request => (ClaimTransferJob decode json_error marshal client env state request).1).

(** A claim that is sent ends as its answer says. *)
Lemma claim_over_hub_sent ops manager stats gw claimed_at request :
  co_request (claim_over_hub ops manager stats gw claimed_at) = Some request ->
  claim_over_hub ops manager stats gw claimed_at =
    claim_answer request (ClaimTransferJob decode json_error marshal client env state request).1.
Proof.
  unfold claim_over_hub, claimOnce. destruct (NodeEmpty state); [done|]. destruct (_ <=? _); [done|].
  cbv zeta. destruct (negb _); [done|]. set (rq := claim_request _ _ _ _ _).
  unfold claim_answer at 1. intros HR. assert (rq = request) as <-; [|done].
  destruct (ClaimTransferJob _ _ _ _ _ _ rq).1; [destruct (_ || _)|]; by injection HR.
Qed.

End ClaimTheorems.

(** ** Gateway sessions *)

(** An answer is only accepted with a mode the gateway has and an address. *)
Lemma checked_resolve_valid r r' : checked_resolve r = Ok r' -> r' = r /\ ValidateResolve r' = Ok tt.
Proof. unfold checked_resolve. destruct (ValidateResolve r) as [[]|] eqn:E; [|done]. by intros [= <-]. Qed.

Lemma first_some_elem {A} (l : list (option A)) a : first_some l = Some a -> Some a ∈ l.
Proof. induction l as [|[x|] l IH]; cbn; [done| |]; [intros [= ->]; left|intros H; right; by apply IH]. Qed.

(** What the client hands to the gateway passes the check the gateway repeats. *)
Theorem parse_resolve_valid json_error v r : parse_resolve json_error v = Ok r -> ValidateResolve r = Ok tt.
Proof.
  revert r. induction v as [| | | | |l IH|m IH|m|s] using any_deep_ind; intros r; try done.
  rewrite parse_resolve_eq. destruct (resolve_fields zero_resolve m) as [r0|]; [|done]. cbv zeta.
  destruct (if String.eqb _ "" then _ else None) as [answer|] eqn:E; [|by intros [_ ?]%checked_resolve_valid].
  intros [= <-]. destruct (String.eqb _ ""); [|done]. apply first_some_elem, list_elem_of_fmap in E as (key & E & _).
  unfold inside in E. destruct (assoc key m) as [x|] eqn:EA; [|done].
  apply assoc_elem in EA. rewrite Forall_forall in IH. specialize (IH _ EA). cbn in IH.
  destruct x as [| | | | | |n| |]; cbn [mbind option_bind] in E; try done.
  destruct (parse_resolve json_error (AMap n)) as [r'|] eqn:EP; [|done]. injection E as ->. by apply IH.
Qed.

(** The shapes in which an answer may carry a resolved session. *)
Inductive resolve_shape (m : object) : object -> Prop :=
| resolve_itself : resolve_shape m m
| resolve_inside outer inner r key :
    resolve_fields zero_resolve outer = Some r -> g_UpstreamURL r = "" -> g_RedirectURL r = "" ->
    key ∈ envelopes -> assoc key outer = Some (AMap inner) ->
    (forall key', key' ∈ envelopes -> key' <> key -> assoc key' outer = None) ->
    resolve_shape m inner -> resolve_shape m outer.

Lemma resolve_shape_read json_error m outer r : parse_resolve json_error (AMap m) = Ok r ->
  resolve_shape m outer -> parse_resolve json_error (AMap outer) = Ok r.
Proof.
  intros HM. induction 1 as [|outer inner r' key E1 E2 E3 Hk E4 HO _ IH]; [done|].
  rewrite parse_resolve_eq, E1. cbv zeta. unfold with_redirect. rewrite E2, E3. cbn [String.eqb negb andb]. rewrite E2.
  cbn [String.eqb]. unfold inside.
  assert (first_some (map (fun key0 =>
     match assoc key0 outer with Some (AMap n) => Some (parse_resolve json_error (AMap n)) | _ => None end ≫=
     (fun a => match a with Ok r => Some r | Err _ => None end)) envelopes) = Some r) as ->; [|done].
  unfold envelopes in *. cbn [map first_some].
  apply elem_of_cons in Hk as [->|[->| ->%list_elem_of_singleton]%elem_of_cons];
    rewrite ?(HO "data"), ?(HO "resolve"), E4 by (done || in_list); cbn [mbind option_bind]; by rewrite IH.
Qed.

Lemma valid_resolve_url r : ValidateResolve r = Ok tt -> g_UpstreamURL r <> "".
Proof.
  unfold ValidateResolve. cbv zeta. intros H E. rewrite E in H. revert H.
  destruct (String.eqb _ ""); [done|]. destruct (_ && _); done.
Qed.

Lemma resolve_read_back json_error r m : carries resolve_names (resolve_entries r) m -> resolve_fits r ->
  ValidateResolve r = Ok tt -> g_Mode r <> "" -> g_SessionID r <> "" -> parse_resolve json_error (AMap m) = Ok r.
Proof.
  intros HC HF HV HM HI. rewrite parse_resolve_eq, (resolve_read _ _ HC HF). cbv zeta.
  pose proof (valid_resolve_url r HV) as HU. unfold with_redirect.
  rewrite (proj2 (String.eqb_neq _ _) HU). cbn [andb]. rewrite (proj2 (String.eqb_neq _ _) HU).
  unfold checked_resolve, with_other_names, or_else.
  rewrite (proj2 (String.eqb_neq _ _) HU), (proj2 (String.eqb_neq _ _) HM), (proj2 (String.eqb_neq _ _) HI).
  destruct r. cbn in *. by rewrite HV.
Qed.

(** ** Examples *)
Definition wire_job : TransferJob :=
  mkTransferJob "job-1" "remote_download"
    (mkTransferSource "https://origin.example/film.mkv" {[ "Referer" := "https://origin.example/" ]} "" true 3 true 1024 true "")
    (mkTransferDestination "local" "" "" "" "" "" "" "" false "" "films" "" "" "film.mkv" "" "video/x-matroska" "" ∅)
    (mkTransferControl 30 5 0 2) ∅ {[ "origin" := AString "catalogue" ]}.
Definition wire_flat : object :=
  ("trace", AString "t-1") :: present (claim_entries (mkClaimResponse true wire_job)).
Definition wire_outer : object := [("message", AString "ok"); ("data", AMap wire_flat)].
Definition wire_decode (s : string) : result (option object) :=
  if String.eqb s "claimed" then Ok (Some wire_outer) else Err (Errorf "unexpected end of JSON input").
Definition wire_error (m : object) : error := Errorf "json: cannot unmarshal".
Definition wire_marshal (v : any) : result string := Ok "{}".
Definition wire_env : hub_env :=
  mkHubEnv None (63900000000 * second) 1 (Ok (seqZ 0 16)) (fun _ => Ok (mkHubResponse 200 "claimed" None)).
Definition wire_manager : Manager := mkManager "/work" "remote_download" "eu" ["transfer"] None.
Definition wire_stats : Stats := mkStats 2 1 0 0 [].
Definition wire_request : ClaimRequest :=
  claim_request wire_manager wire_stats (claim_snapshot wire_manager wire_stats None) DecisionAllowed "2025-11-29T08:00:00Z".

Lemma wire_flat_carries : carries claim_names (claim_entries (mkClaimResponse true wire_job)) wire_flat.
Proof.
  constructor; [done|by apply (bool_decide_unpack _)|]. exists [("trace", AString "t-1")].
  split; [unfold wire_flat; apply Permutation_cons_append|]. by repeat constructor.
Qed.
Lemma wire_flat_shape : claim_shape wire_flat wire_outer.
Proof. eapply shape_data; [vm_compute; reflexivity|reflexivity|reflexivity|constructor]. Qed.


(** ** Observations *)

(** The two shapes do not combine: an answer that reports success and carries the job in an
    envelope is read as an answer without a job, and the job stays claimed at the hub. *)
Theorem success_hides_data :
  parse_claim wire_error (AMap (("success", ABool true) :: wire_outer)) = Ok (mkClaimResponse true zero_job) /\
  claim_answer wire_request (Ok (mkClaimResponse true zero_job)) = mkClaimOutcome None (Some wire_request) None.
Proof. split; vm_compute; reflexivity. Qed.

(** A claimed job that fails validation is neither started nor given back: the claim was the
    only request, and its error is all that is left of the job. *)
Theorem invalid_job_is_dropped decode json_error marshal client env state ops manager stats gw claimed_at e request :
  (ClaimTransferJob decode json_error marshal client env state request).1 = Err e ->
  co_request (claim_over_hub decode json_error marshal client env state ops manager stats gw claimed_at) = Some request ->
  claim_over_hub decode json_error marshal client env state ops manager stats gw claimed_at =
    mkClaimOutcome (Some e) (Some request) None /\
  (length (ClaimTransferJob decode json_error marshal client env state request).2 <= 1)%nat.
Proof.
  intros HE HR. split.
  - by rewrite (claim_over_hub_sent _ _ _ _ _ _ _ _ _ _ _ _ HR), HE.
  - unfold ClaimTransferJob. destruct (doJSON _ _ _ _ _ _ _ _) as [r sent] eqn:E. cbn [snd].
    destruct (call_received _ _ _ _ _ _ _ _ _ E) as [[-> _]|(? & ? & -> & _)]; cbn; lia.
Qed.

(** Sizes from 2^53 on change on the way, because the answer passes through [float64]. *)
Example large_min_bytes_change :
  field source_names "min_bytes" [("min_bytes", AFloat (float64 (2 ^ 60 + 1)))] 0 = Some 1152921504606847000.
Proof. vm_compute. reflexivity. Qed.
