(* ===== verification/Handoff.v ===== *)
(** * The gateway's requests in full

    internal/gateway again, with the messages, headers and goroutines Gateway.v leaves out:
    [handle] of runtime.go with the requests to the hub and to the upstream and what the
    client sees, [proxy], [copyResponseHeaders] and [heartbeatLoop] of proxy.go, the payloads
    of telemetry.go.  A stream is served by two goroutines, the copy and the heartbeats; they
    are interleaved by [act], with whatever other requests do to the tracker in between. *)
From Stdlib Require Import SpecFloat.
From S2P Require Import Prelude GoStrings GoUrl GoPath GoFloat GoTime GoJson GoJsonStruct NodeState Ops Download Transfer Gateway HubClient Wire Router.

(** ** net/http: redirects and multi-valued headers *)
Notation Header := (gmap string (list string)).
Definition hValues (key : string) (h : Header) : list string := default [] (h !! CanonicalMIMEHeaderKey key).
Definition hGet (key : string) (h : Header) : string := default "" (head (hValues key h)).
Definition hSet (key value : string) (h : Header) : Header := <[CanonicalMIMEHeaderKey key := [value]]> h.
Definition hAdd (key value : string) (h : Header) : Header := <[CanonicalMIMEHeaderKey key := hValues key h ++ [value]]> h.

Definition hexEscapeNonASCII (s : string) : string :=
  str (mbind (fun c => if code c <? 128 then [c] else "%"%char :: hex2 c) (chars s)).
Definition html_char (c : ascii) : list ascii :=
  if Ascii.eqb c "&" then chars "&amp;" else if Ascii.eqb c "<" then chars "&lt;" else
  if Ascii.eqb c ">" then chars "&gt;" else if Ascii.eqb c "034" then chars "&#34;" else
  if Ascii.eqb c "'" then chars "&#39;" else [c].
Definition htmlEscape (s : string) : string := str (mbind html_char (chars s)).
Definition dquote : string := str ["034"%char].

(** The address of [http.Redirect]: one without scheme and host is made absolute. *)
Definition redirect_target (path target : string) : string :=
  match url_Parse target with
  | Ok u =>
    if negb (bool_decide (Scheme u = [])) || negb (bool_decide (Host u = [])) then target else
    let oldpath := if String.eqb path "" then "/" else path in
    let dir := match LastIndexByte (chars oldpath) "/" with Some i => take (S i) (chars oldpath) | None => [] end in
    let target := if HasPrefix target "/" then target else str dir +:+ target in
    let '(front, query) := match IndexByte (chars target) "?" with
                           | Some i => (str (take i (chars target)), str (drop i (chars target)))
                           | None => (target, "")
                           end in
    let cleaned := Clean front in
    (if HasSuffix front "/" && negb (HasSuffix cleaned "/") then cleaned +:+ "/" else cleaned) +:+ query
  | Err _ => target
  end.
Definition http_Redirect (request : Request) (target : string) : RW :=
  let url := redirect_target (rq_Path request) target in
  [SetHeader "Location" (hexEscapeNonASCII url)] ++
  (if String.eqb (rq_Method request) "GET" || String.eqb (rq_Method request) "HEAD"
   then [SetHeader "Content-Type" "text/html; charset=utf-8"] else []) ++ [WriteHeader 302] ++
  (if String.eqb (rq_Method request) "GET"
   then [Write ("<a href=" +:+ dquote +:+ htmlEscape url +:+ dquote +:+ ">Found</a>." +:+ newline +:+ newline)] else []).

(** ** telemetry.go

    [at_] holds two clock readings: the tracker's and the runtime's. *)
Definition RuntimeName : string := "auren_gateway_runtime_v1".
Inductive message :=
| MHeartbeat (p : GatewaySessionHeartbeatPayload)
| MClose (p : GatewaySessionClosePayload)
| MEvent (p : EventBatch).

Definition heartbeat_message (resolved : GatewayResolveResult) (record : SessionRecord) (status : Z) (text : string)
  (at_ : Time * Time) (t : GwTracker) : message :=
  MHeartbeat (mkSessionHeartbeat (SessionIDOr resolved (SessionID record)) (RToken record) (RKind record) (RID record)
    (RExtension record) (NormalizedMode resolved) "active" status (BytesSent record) (currentEgressBps at_.1 t) text at_.2).
Definition close_message (resolved : GatewayResolveResult) (record : SessionRecord) (status : Z) (reason : string)
  (at_ : Time * Time) : message :=
  MClose (mkSessionClose (SessionIDOr resolved (SessionID record)) (RToken record) (RKind record) (RID record)
    (RExtension record) (NormalizedMode resolved) "closed" (if status =? 0 then 200 else status) (BytesSent record)
    (Seconds (time_Sub at_.1 (RStartedAt record))) reason at_.2).
Definition event_message (type text : string) (meta : gmap string string) (at_ : Time * Time) : message :=
  MEvent (mkEventBatch [mkEventPayload "" "warning" type text meta at_.1] at_.2 {[ "runtime" := AString RuntimeName ]}).

(** ** proxy.go: headers *)
Definition blank (s : string) : bool := String.eqb (TrimSpace s) "".
(** [entries] are the headers of the hub as Go enumerates the map. *)
Definition upstream_headers (entries : list (string * string)) (h : HeaderSet) : HeaderSet :=
  let up := foldl (fun up kv => if blank kv.1 || blank kv.2 then up else header_set kv.1 kv.2 up) ∅ entries in
  let pass name up := if negb (String.eqb (header_get name h) "") && String.eqb (header_get name up) ""
                      then header_set name (header_get name h) up else up in
  pass "User-Agent" (pass "Range" up).
Definition hop_headers : list string :=
  ["Connection"; "Keep-Alive"; "Proxy-Authenticate"; "Proxy-Authorization"; "Te"; "Trailer"; "Transfer-Encoding"; "Upgrade"].
Definition copy_header (dst : Header) (kv : string * list string) : Header :=
  if bool_decide (CanonicalMIMEHeaderKey kv.1 ∈ hop_headers) then dst
  else foldl (fun dst value => hAdd (CanonicalMIMEHeaderKey kv.1) value dst) dst kv.2.
Definition copyResponseHeaders (dst : Header) (src : list (string * list string)) : Header := foldl copy_header dst src.

Record up_response := mkUpResponse { ur_Status : Z; ur_Header : list (string * list string); ur_ContentLength : Z }.
Definition response_headers (up : up_response) : Header :=
  let h := copyResponseHeaders ∅ (ur_Header up) in
  if 0 <=? ur_ContentLength up
  then hSet "Content-Length" (default "" (list_find (fun kv => kv.1 = "Content-Length") (ur_Header up) ≫= (fun x => head x.2.2))) h
  else h.

(** ** runtime.go *)
Record GwRuntime := mkGwRuntime {
  gw_Enabled : bool; gw_MaxSessions : Z; gw_MaxEgressMbps : Z; gw_HeartbeatInterval : string; gw_operations : option Runtime
}.
Definition GatewayPathPattern : string := "/_auren/gateway/*".
Definition gateway_routes {Env State} (runtime : GwRuntime) (handler : @Handler Env State) : list RouteDefinition :=
  if negb (gw_Enabled runtime) then [] else
  [mkRouteDefinition "gateway.stream.get" "GET" GatewayPathPattern (Some handler);
   mkRouteDefinition "gateway.stream.head" "HEAD" GatewayPathPattern (Some handler)].

(** What one request meets: the clock before each message, the disk and drain file behind
    the admission, the node state, the client's address, the hub behind the resolve call, the
    order in which Go enumerates the hub's headers, and the upstream. *)
Record handoff_env := mkHandoffEnv {
  ho_clock : nat -> Time * Time; ho_ops : ops_env; ho_state : NodeState; ho_RemoteAddr : string;
  ho_resolve : GatewayResolveRequest -> result GatewayResolveResult; ho_rand : string;
  ho_entries : gmap string string -> list (string * string);
  ho_newRequest : option error; ho_do : string -> string -> HeaderSet -> result up_response
}.

Definition resolve_request (env : handoff_env) (request : Request) (token kind id ext : string) : GatewayResolveRequest :=
  mkResolveReq token kind id ext (rq_Method request) (header_get "Range" (rq_Header request))
    (header_get "User-Agent" (rq_Header request)) (ho_RemoteAddr env)
    (captureHeaders (fun key => header_get key (rq_Header request))) (ho_clock env 0).2.

(** The first half of [handle]: a refusal, or a session. *)
Inductive opening :=
| Refuse (out : RW) (sent : list message)
| Open (resolved : GatewayResolveResult) (record : SessionRecord) (t : GwTracker).

Definition resolve_failure (env : handoff_env) (type text kind id : string) (e : error) : list message :=
  [event_message type text (list_to_map [("kind", kind); ("id", id); ("error", Error e)]) (ho_clock env 1)].

Definition open_session (runtime : GwRuntime) (env : handoff_env) (request : Request) (t : GwTracker) : opening :=
  let '(token, kind, id, ext) := parseHandoffPath (rq_Path request) in
  if String.eqb token "" || String.eqb kind "" || String.eqb id "" || String.eqb ext ""
  then Refuse (http_Error "invalid gateway handoff path" 400) [] else
  let decision := gatewayAdmissionDecision (ho_ops env) (gw_operations runtime) (ho_clock env 0).1
                    (gw_MaxSessions runtime) (gw_MaxEgressMbps runtime) t in
  if negb (Allowed decision)
  then Refuse (http_Error (firstNonEmpty [Message decision; "gateway node is not accepting new sessions"]) 503) [] else
  if NodeEmpty (ho_state env) then Refuse (http_Error "gateway node is not registered" 503) [] else
  match ho_resolve env (resolve_request env request token kind id ext) with
  | Err e => Refuse (http_Error "gateway resolve failed" 502)
               (resolve_failure env "gateway.resolve_failed" "Gateway resolve failed" kind id e)
  | Ok resolved =>
    match ValidateResolve resolved with
    | Err e => Refuse (http_Error "invalid gateway resolve response" 502)
                 (resolve_failure env "gateway.resolve_invalid" "Gateway resolve response is invalid" kind id e)
    | Ok _ =>
      let sid := if String.eqb (g_SessionID resolved) "" then token else g_SessionID resolved in
      let '(record, t) := Start (ho_rand env) (ho_clock env 1).1 (mkSessionInput sid token kind id ext (g_Mode resolved)) t in
      Open resolved record t
    end
  end.

(** What follows: a complete answer, or a stream whose head has been sent. *)
Inductive serving :=
| Answered (out : RW) (sent : list message)
| Headed (status : Z) (head : Header) (sent : list message)
| Streaming (status : Z) (head : Header).

Definition proxy_open (env : handoff_env) (request : Request) (resolved : GatewayResolveResult) (record : SessionRecord)
  (t : GwTracker) : serving :=
  let method := if String.eqb (rq_Method request) "" then "GET" else rq_Method request in
  match ho_newRequest env with
  | Some _ => Answered (http_Error "create upstream request failed" 502)
                [close_message resolved record 502 "create_request_failed" (ho_clock env 2)]
  | None =>
    match ho_do env method (g_UpstreamURL resolved)
            (upstream_headers (ho_entries env (g_Headers resolved)) (rq_Header request)) with
    | Err e => Answered (http_Error "upstream request failed" 502)
        [event_message "gateway.proxy_failed" "Gateway upstream request failed"
           (list_to_map [("session_id", SessionID record); ("error", Error e)]) (ho_clock env 2);
         close_message resolved record 502 "upstream_request_failed" (ho_clock env 3)]
    | Ok up =>
      let status := ur_Status up in
      let current := SessionSnapshot (SessionID record) t in
      if String.eqb (rq_Method request) "HEAD"
      then Headed status (response_headers up)
             [heartbeat_message resolved current status "head" (ho_clock env 2) t;
              close_message resolved current status "head" (ho_clock env 3)]
      else Streaming status (response_headers up)
    end
  end.

Definition serve_session (env : handoff_env) (request : Request) (resolved : GatewayResolveResult) (record : SessionRecord)
  (t : GwTracker) : serving :=
  let mode := NormalizedMode resolved in
  if String.eqb mode "redirect" then
    Answered (if String.eqb (rq_Method request) "HEAD"
              then [SetHeader "Location" (g_UpstreamURL resolved); WriteHeader 302]
              else http_Redirect request (g_UpstreamURL resolved))
      [heartbeat_message resolved record 302 "redirect" (ho_clock env 2) t;
       close_message resolved record 302 "redirect" (ho_clock env 3)]
  else if String.eqb mode "proxy" then proxy_open env request resolved record t
  else Answered (http_Error "unsupported gateway mode" 502) [close_message resolved record 502 "unsupported_mode" (ho_clock env 2)].

#[local] Instance record_eq_dec : EqDecision SessionRecord.
Proof. solve_decision. Defined.

(** ** The stream

    The copy reads a piece, writes it to the client and counts what was taken; when it ends it
    closes the channel that stops the heartbeats, takes the last snapshot, reports, and removes
    the session.  The heartbeats take a snapshot and then send it.  [s_shared] tells that another
    request has touched the session: identifiers come from the hub or are the token, and the
    tracker keeps one record for each. *)
Inductive main_pc :=
| Copying
| Wrote (n : nat) (err : option error)             (* written, not counted yet *)
| Ending (err : option error)                      (* the channel is closed *)
| Ended (final : SessionRecord) (err : option error)
| Noted (final : SessionRecord)                    (* the event of a failed copy is sent *)
| Reported | Gone.
Inductive beat_pc := Fresh | Looping | Sending (record : SessionRecord) (text : string) | Stopped.
Record stream := mkStream {
  s_tracker : GwTracker; s_sent : list message; s_body : string; s_main : main_pc; s_beat : beat_pc; s_shared : bool
}.

Inductive label :=
| Piece (bytes : string) (n : nat) (err : option error)   (* one read, and what the write accepted *)
| Count (now : Time)
| BodyEnd (err : option error)                            (* the read ended, or failed *)
| Final | Report (at_ : Time * Time) | Leave
| Beat                                                    (* the snapshot of the first heartbeat, or of a tick *)
| BeatSend (at_ : Time * Time)
| BeatStop (cancelled : bool)                             (* the channel, or the client's context *)
| Elsewhere (t : GwTracker).                              (* other requests *)

Definition io_ErrShortWrite : error := Sentinel "short write".

Section Stream.
Context (resolved : GatewayResolveResult) (sid : string) (status : Z).

Definition snapshot (s : stream) : SessionRecord := SessionSnapshot sid (s_tracker s).
Definition set_main (m : main_pc) (s : stream) : stream :=
  mkStream (s_tracker s) (s_sent s) (s_body s) m (s_beat s) (s_shared s).
Definition say (m : list message) (s : stream) : stream :=
  mkStream (s_tracker s) (s_sent s ++ m) (s_body s) (s_main s) (s_beat s) (s_shared s).
Definition set_beat (b : beat_pc) (s : stream) : stream :=
  mkStream (s_tracker s) (s_sent s) (s_body s) (s_main s) b (s_shared s).

(** [io.Copy]: a write that fails or takes less ends the copy. *)
Definition write_error (bytes : string) (n : nat) (err : option error) : option error :=
  match err with
  | Some e => Some e
  | None => if (n <? length (chars bytes))%nat then Some io_ErrShortWrite else None
  end.
Definition copy_piece (bytes : string) (n : nat) (err : option error) (s : stream) : stream :=
  mkStream (s_tracker s) (s_sent s) (s_body s +:+ str (take n (chars bytes))) (Wrote n (write_error bytes n err)) (s_beat s) (s_shared s).
(** The rest of [countingResponseWriter.Write]. *)
Definition count_piece (now : Time) (n : nat) (err : option error) (s : stream) : stream :=
  mkStream (if (0 <? n)%nat then AddBytes now sid (Z.of_nat n) (s_tracker s) else s_tracker s) (s_sent s) (s_body s)
    (match err with Some e => Ending (Some e) | None => Copying end) (s_beat s) (s_shared s).
Definition copy_failed_event (e : error) (at_ : Time * Time) : message :=
  event_message "gateway.copy_failed" "Gateway proxy body copy failed" (list_to_map [("session_id", sid); ("error", Error e)]) at_.

Definition act (l : label) (s : stream) : option stream :=
  match l, s_main s with
  | Piece bytes n err, Copying => if (length (chars bytes) <? n)%nat then None else Some (copy_piece bytes n err s)
  | Count now, Wrote n err => Some (count_piece now n err s)
  | BodyEnd err, Copying => Some (set_main (Ending err) s)
  | Final, Ending err => Some (set_main (Ended (snapshot s) err) s)
  | Report at_, Ended final None => Some (set_main Reported (say [close_message resolved final status "completed" at_] s))
  | Report at_, Ended final (Some e) => Some (set_main (Noted final) (say [copy_failed_event e at_] s))
  | Report at_, Noted final => Some (set_main Reported (say [close_message resolved final status "copy_failed" at_] s))
  | Leave, Reported => Some (mkStream (Close sid (s_tracker s)).2 (s_sent s) (s_body s) Gone (s_beat s) (s_shared s))
  | Beat, _ =>
    match s_beat s with
    | Fresh => Some (set_beat (Sending (snapshot s) "started") s)
    | Looping => Some (set_beat (Sending (snapshot s) "streaming") s)
    | _ => None
    end
  | BeatSend at_, _ =>
    match s_beat s with
    | Sending record text => Some (set_beat Looping (say [heartbeat_message resolved record status text at_ (s_tracker s)] s))
    | _ => None
    end
  | BeatStop cancelled, m =>
    match s_beat s, m with
    | Looping, Copying | Looping, Wrote _ _ => if cancelled then Some (set_beat Stopped s) else None
    | Looping, _ => Some (set_beat Stopped s)
    | _, _ => None
    end
  | Elsewhere t, _ =>
    Some (mkStream t (s_sent s) (s_body s) (s_main s) (s_beat s)
            (s_shared s || negb (bool_decide (sessions t !! sid = sessions (s_tracker s) !! sid))))
  | _, _ => None
  end.

Fixpoint run (labels : list label) (s : stream) : option stream :=
  match labels with [] => Some s | l :: rest => act l s ≫= run rest end.
Definition stream_start (t : GwTracker) : stream := mkStream t [] "" Copying Fresh false.
End Stream.

(** ** Headers *)
Lemma canonical_char c : Ascii.eqb (upper_char c) "-" = Ascii.eqb c "-" /\ Ascii.eqb (lower_char c) "-" = Ascii.eqb c "-" /\
  upper_char (upper_char c) = upper_char c /\ lower_char (lower_char c) = lower_char c /\
  validHeaderFieldByte (upper_char c) = validHeaderFieldByte c /\ validHeaderFieldByte (lower_char c) = validHeaderFieldByte c.
Proof. destruct c as [[] [] [] [] [] [] [] []]; repeat split; reflexivity. Qed.

Lemma canonical_go_idem u l : canonical_go u (canonical_go u l) = canonical_go u l /\
  forallb validHeaderFieldByte (canonical_go u l) = forallb validHeaderFieldByte l.
Proof.
  revert u. induction l as [|c l IH]; intros u; [done|]. cbn [canonical_go forallb].
  destruct (canonical_char c) as (H1 & H2 & H3 & H4 & H5 & H6).
  destruct u; rewrite ?H1, ?H2, ?H3, ?H4, ?H5, ?H6; destruct (IH (Ascii.eqb c "-")) as [E1 E2]; by rewrite E1, E2.
Qed.

Lemma CanonicalMIMEHeaderKey_idem s : CanonicalMIMEHeaderKey (CanonicalMIMEHeaderKey s) = CanonicalMIMEHeaderKey s.
Proof.
  unfold CanonicalMIMEHeaderKey at 2 3. destruct (forallb _ (chars s)) eqn:E.
  - unfold CanonicalMIMEHeaderKey. rewrite chars_str. destruct (canonical_go_idem true (chars s)) as [E1 E2]. by rewrite E2, E, E1.
  - unfold CanonicalMIMEHeaderKey. by rewrite E.
Qed.

(** Connection-level headers of the upstream stop at the gateway. *)
Lemma copy_no_hop src dst name : name ∈ hop_headers -> copyResponseHeaders dst src !! name = dst !! name.
Proof.
  intros Hn. revert dst. unfold copyResponseHeaders. induction src as [|[k vs] src IH]; intros dst; [done|]. cbn [foldl].
  rewrite IH. unfold copy_header. cbn [fst snd]. case_bool_decide as Hk; [done|]. clear IH.
  revert dst. induction vs as [|v vs IHv]; intros dst; [done|]. cbn [foldl]. rewrite IHv. unfold hAdd.
  rewrite CanonicalMIMEHeaderKey_idem. apply lookup_insert_ne. by intros <-.
Qed.

(** All other headers arrive with their values, in order. *)
Lemma hAdd_values name vs dst : CanonicalMIMEHeaderKey name = name ->
  foldl (fun dst value => hAdd name value dst) dst vs !! name =
    if decide (vs = []) then dst !! name else Some (hValues name dst ++ vs).
Proof.
  intros HC. revert dst. induction vs as [|v vs IH]; intros dst; [done|]. cbn [foldl]. rewrite IH.
  unfold hAdd, hValues. rewrite !HC, lookup_insert_eq. destruct (decide (vs = [])) as [->|];
    [by rewrite decide_False|]. rewrite decide_False by done. cbn. by rewrite <- app_assoc.
Qed.
Lemma hAdd_values_ne key name vs dst : CanonicalMIMEHeaderKey key <> name ->
  foldl (fun dst value => hAdd key value dst) dst vs !! name = dst !! name.
Proof.
  intros HC. revert dst. induction vs as [|v vs IH]; intros dst; [done|]. cbn [foldl]. rewrite IH.
  unfold hAdd. by rewrite lookup_insert_ne.
Qed.

Lemma copy_end_to_end src name values : NoDup (map fst src) -> Forall (fun kv => CanonicalMIMEHeaderKey kv.1 = kv.1) src ->
  name ∉ hop_headers -> values <> [] -> (name, values) ∈ src -> copyResponseHeaders ∅ src !! name = Some values.
Proof.
  intros HN HC Hn Hv Hin.
  assert (forall l dst, name ∉ map fst l -> Forall (fun kv => CanonicalMIMEHeaderKey kv.1 = kv.1) l ->
    copyResponseHeaders dst l !! name = dst !! name) as Hskip.
  { induction l as [|[k vs] l IH]; intros dst Hnl HF; [done|]. cbn in Hnl. apply not_elem_of_cons in Hnl as [Hk Hnl].
    apply Forall_cons in HF as [Hc HF]. cbn in Hc. unfold copyResponseHeaders in *. cbn [foldl]. rewrite IH by done.
    unfold copy_header. cbn [fst snd]. case_bool_decide; [done|]. apply hAdd_values_ne.
    rewrite CanonicalMIMEHeaderKey_idem. congruence. }
  cut (forall dst, dst !! name = None -> copyResponseHeaders dst src !! name = Some values); [intros H; by apply H|].
  induction src as [|[k vs] src IH]; intros dst Hd; [by apply not_elem_of_nil in Hin|].
  cbn in HN. apply NoDup_cons in HN as [Hk HN]. apply Forall_cons in HC as [Hc HC]. cbn in Hc.
  apply elem_of_cons in Hin as [[= -> ->]|Hin].
  - unfold copyResponseHeaders in *. cbn [foldl]. rewrite Hskip by done. unfold copy_header. cbn [fst snd]. rewrite Hc.
    rewrite bool_decide_eq_false_2, hAdd_values by done. rewrite decide_False by done. unfold hValues. by rewrite Hc, Hd.
  - unfold copyResponseHeaders in *. cbn [foldl]. apply IH; try done. unfold copy_header. cbn [fst snd].
    case_bool_decide; [done|]. rewrite hAdd_values_ne; [done|]. rewrite CanonicalMIMEHeaderKey_idem, Hc.
    intros ->. apply Hk. apply list_elem_of_fmap. by exists (name, values).
Qed.

Lemma response_no_hop up name : name ∈ hop_headers -> response_headers up !! name = None.
Proof.
  intros Hn. unfold response_headers. destruct (0 <=? _); [|by rewrite copy_no_hop].
  unfold hSet. rewrite lookup_insert_ne; [by rewrite copy_no_hop|].
  change (CanonicalMIMEHeaderKey "Content-Length") with "Content-Length". intros <-. revert Hn. by apply (bool_decide_unpack _).
Qed.

(** ** What a stream reports *)
Definition is_close_message (m : message) : bool := match m with MClose _ => true | _ => false end.
(** The bytes the heartbeats tell, in the order they arrive. *)
Definition beat_bytes (m : message) : option Z := match m with MHeartbeat p => Some (sh_BytesSent p) | _ => None end.
(** What a record keeps from its start. *)
Definition static (r : SessionRecord) : string * string * string * string * string * string * Time :=
  (SessionID r, RToken r, RKind r, RID r, RExtension r, RMode r, RStartedAt r).
Definition settled (m : main_pc) : bool := match m with Reported | Gone => true | _ => false end.
Definition is_gone (m : main_pc) : bool := match m with Gone => true | _ => false end.

(** The report of a session that served these bytes. *)
Definition close_of (resolved : GatewayResolveResult) (record : SessionRecord) (status bytes : Z)
  (p : GatewaySessionClosePayload) : Prop :=
  sc_SessionID p = SessionIDOr resolved (SessionID record) /\ sc_Token p = RToken record /\ sc_Kind p = RKind record /\
  sc_ID p = RID record /\ sc_Extension p = RExtension record /\ sc_Status p = "closed" /\ sc_BytesSent p = bytes /\
  sc_HTTPStatus p = (if status =? 0 then 200 else status).

(** Figures that never fall and never exceed the bytes, then, once the session is gone, zeros. *)
Definition rising (bytes : Z) (gone : bool) (figures : list Z) : Prop :=
  exists early late, figures = early ++ late /\ StronglySorted Z.le early /\ Forall (fun b => 0 <= b <= bytes) early /\
    (gone = false -> late = []) /\ Forall (fun b => b = 0) late.

(** The messages of a stream: heartbeats with such figures and at most one close, with all bytes. *)
Record told (resolved : GatewayResolveResult) (record : SessionRecord) (status bytes : Z) (m : main_pc)
  (sent : list message) : Prop := {
  told_figures : rising bytes (is_gone m) (omap beat_bytes sent);
  told_close : if settled m
    then exists p, List.filter is_close_message sent = [MClose p] /\ close_of resolved record status bytes p
    else List.filter is_close_message sent = []
}.

(** With the snapshot that is on its way. *)
Definition on_its_way (b : beat_pc) : list Z := match b with Sending r _ => [BytesSent r] | _ => [] end.
Definition uncounted (m : main_pc) : Z := match m with Wrote n _ => Z.of_nat n | _ => 0 end.
Definition final_of (m : main_pc) : option SessionRecord := match m with Ended final _ | Noted final => Some final | _ => None end.
Record stream_ok (resolved : GatewayResolveResult) (sid : string) (status : Z) (record : SessionRecord) (s : stream) : Prop := {
  ok_session : if is_gone (s_main s) then sessions (s_tracker s) !! sid = None
               else exists r, sessions (s_tracker s) !! sid = Some r /\ static r = static record /\
                      0 <= BytesSent r /\ BytesSent r + uncounted (s_main s) = slen (s_body s);
  ok_final : forall final, final_of (s_main s) = Some final -> static final = static record /\ BytesSent final = slen (s_body s);
  ok_figures : rising (slen (s_body s)) (is_gone (s_main s)) (omap beat_bytes (s_sent s) ++ on_its_way (s_beat s));
  ok_counted : is_gone (s_main s) = false -> Forall (fun b => b + uncounted (s_main s) <= slen (s_body s)) (omap beat_bytes (s_sent s) ++ on_its_way (s_beat s));
  ok_close : if settled (s_main s)
    then exists p, List.filter is_close_message (s_sent s) = [MClose p] /\ close_of resolved record status (slen (s_body s)) p
    else List.filter is_close_message (s_sent s) = []
}.

Lemma StronglySorted_snoc {A} (R : relation A) l x :
  StronglySorted R l -> Forall (fun y => R y x) l -> StronglySorted R (l ++ [x]).
Proof.
  induction 1 as [|y l HS IH HF]; intros HX; cbn; [repeat constructor|].
  apply Forall_cons in HX as [Hy HX]. constructor; [by apply IH|]. apply Forall_app. split; [done|by constructor].
Qed.
Lemma StronglySorted_prefix {A} (R : relation A) l k : StronglySorted R (l ++ k) -> StronglySorted R l.
Proof.
  induction l as [|x l IH]; cbn; intros H; [constructor|]. inversion H as [|? ? HS HF]; subst. constructor; [by apply IH|].
  by apply Forall_app in HF as [HF _].
Qed.

Lemma rising_grow bytes bytes' gone l : rising bytes gone l -> bytes <= bytes' -> rising bytes' gone l.
Proof.
  intros (early & late & E & HS & HF & HL & HZ) Hle. exists early, late. split_and!; try done. eapply Forall_impl; [exact HF|]. cbn. lia.
Qed.
Lemma rising_gone bytes l : rising bytes false l -> rising bytes true l.
Proof. intros (early & late & E & HS & HF & HL & HZ). exists early, late. by split_and!. Qed.
Lemma rising_prefix bytes gone l x : rising bytes gone (l ++ x) -> (length x <= 1)%nat -> rising bytes gone l.
Proof.
  intros (early & late & E & HS & HF & HL & HZ) Hx. destruct x as [|x [|]]; [rewrite app_nil_r in E; by exists early, late| |cbn in Hx; lia].
  destruct late as [|y late _] using rev_ind.
  - rewrite app_nil_r in E. subst early. exists l, []. rewrite app_nil_r. apply Forall_app in HF as [HF _].
    split_and!; [done|by eapply StronglySorted_prefix|done|done|done].
  - rewrite app_assoc in E. apply app_inj_tail in E as [-> ->]. apply Forall_app in HZ as [HZ _]. exists early, late.
    split_and!; try done. intros H. specialize (HL H). by destruct late.
Qed.
(** The next snapshot: the count of a session that is open, or zero. *)
Lemma rising_next bytes l b : rising bytes false l -> Forall (fun x => x <= b) l -> 0 <= b <= bytes -> rising bytes false (l ++ [b]).
Proof.
  intros (early & late & -> & HS & HF & HL & HZ) HB Hb. rewrite (HL eq_refl), app_nil_r in *. exists (early ++ [b]), []. rewrite app_nil_r.
  split_and!; [done|by apply StronglySorted_snoc| |done|done]. apply Forall_app. split; [done|by apply Forall_singleton].
Qed.
Lemma rising_zero bytes l : rising bytes true l -> rising bytes true (l ++ [0]).
Proof.
  intros (early & late & -> & HS & HF & HL & HZ). exists early, (late ++ [0]). rewrite app_assoc. split_and!; try done.
  apply Forall_app. split; [done|by repeat constructor].
Qed.

Section StreamTheorems.
Context (resolved : GatewayResolveResult) (sid : string) (status : Z) (record : SessionRecord).
Notation ok := (stream_ok resolved sid status record).

Lemma slen_nonneg s : 0 <= slen s.
Proof. apply zlen_nonneg. Qed.
Lemma close_app sent m : List.filter is_close_message (sent ++ [m]) = List.filter is_close_message sent ++ (if is_close_message m then [m] else []).
Proof. rewrite List.filter_app. cbn. by destruct (is_close_message m). Qed.

Lemma piece_length bytes n err s : (n <= length (chars bytes))%nat ->
  slen (s_body (copy_piece bytes n err s)) = slen (s_body s) + Z.of_nat n.
Proof.
  intros Hn. cbn. unfold slen. rewrite chars_app, chars_str, zlen_app. unfold zlen at 2. rewrite length_take. lia.
Qed.
Lemma piece_ok bytes n err s : ok s -> s_main s = Copying -> (n <= length (chars bytes))%nat -> ok (copy_piece bytes n err s).
Proof.
  intros [H1 H2 H3 H4 H5] Hm Hn. pose proof (piece_length bytes n err s Hn) as EL. rewrite Hm in *. cbn [is_gone uncounted settled] in *.
  constructor; rewrite ?EL; cbn [copy_piece s_main s_tracker s_sent s_beat is_gone uncounted settled final_of].
  - destruct H1 as (r & E & Hs & H0 & Hr). exists r. split_and!; try done. lia.
  - done.
  - eapply rising_grow; [exact H3|lia].
  - intros _. eapply Forall_impl; [exact (H4 eq_refl)|]. cbn. lia.
  - done.
Qed.
Lemma count_ok now n err s : ok s -> s_main s = Wrote n err -> in_int64 (slen (s_body s)) -> ok (count_piece sid now n err s).
Proof.
  intros [H1 H2 H3 H4 H5] Hm Hb. rewrite Hm in *. cbn [is_gone uncounted settled] in *. destruct H1 as (r & E & Hs & H0 & Hr).
  assert (exists r', sessions (s_tracker (count_piece sid now n err s)) !! sid = Some r' /\ static r' = static record /\
    0 <= BytesSent r' /\ BytesSent r' = slen (s_body s)) as (r' & E' & Hs' & H0' & Hr').
  { cbn [count_piece s_tracker]. destruct (Nat.ltb_spec 0 n); [|exists r; split_and!; [done..|lia]].
    unfold AddBytes. rewrite (proj2 (Z.leb_gt _ _)) by lia. cbn [sessions]. rewrite lookup_insert_eq.
    unfold SessionSnapshot. rewrite E. eexists. split; [reflexivity|]. cbn [default from_option]. split; [done|].
    cbn. rewrite Hr, wrap64_id by done. split; [apply slen_nonneg|done]. }
  pose proof (H4 eq_refl) as H4'. constructor; cbn [count_piece s_main s_body s_sent s_beat].
  - destruct err; cbn [is_gone uncounted]; exists r'; split_and!; try done; lia.
  - by destruct err.
  - by destruct err.
  - intros _. eapply Forall_impl; [exact H4'|]. cbn. destruct err; cbn [uncounted]; lia.
  - by destruct err.
Qed.
(** A step of the copy that sends nothing. *)
Lemma move_ok m s : ok s -> is_gone m = false -> is_gone (s_main s) = false -> uncounted m = uncounted (s_main s) -> settled m = settled (s_main s) ->
  (forall final, final_of m = Some final -> static final = static record /\ BytesSent final = slen (s_body s)) -> ok (set_main m s).
Proof.
  intros [H1 H2 H3 H4 H5] Eg Eg' Eu Es Hf. rewrite Eg' in *. constructor; cbn [set_main s_main s_body s_sent s_beat s_tracker]; rewrite ?Eg, ?Eu, ?Es; done.
Qed.
Lemma event_ok e at_ final s : ok s -> s_main s = Ended final (Some e) -> ok (set_main (Noted final) (say [copy_failed_event sid e at_] s)).
Proof.
  intros [H1 H2 H3 H4 H5] Hm. rewrite Hm in *. cbn [is_gone uncounted settled final_of] in *.
  constructor; cbn [set_main say s_main s_body s_sent s_beat s_tracker is_gone uncounted settled final_of]; [done|done|..].
  - rewrite omap_app. cbn [omap list_omap copy_failed_event event_message beat_bytes]. by rewrite app_nil_r.
  - rewrite omap_app. cbn [omap list_omap copy_failed_event event_message beat_bytes]. by rewrite app_nil_r.
  - rewrite close_app. cbn [copy_failed_event event_message is_close_message]. by rewrite app_nil_r.
Qed.
Lemma report_ok reason at_ final s : ok s -> final_of (s_main s) = Some final -> is_gone (s_main s) = false -> settled (s_main s) = false ->
  uncounted (s_main s) = 0 -> ok (set_main Reported (say [close_message resolved final status reason at_] s)).
Proof.
  intros [H1 H2 H3 H4 H5] Hf Hg Hs Hu. destruct (H2 final Hf) as [E1 E2]. unfold static in E1. injection E1 as I1 I2 I3 I4 I5 I6 I7.
  rewrite Hg in *. rewrite Hs in *. rewrite Hu in *.
  constructor; cbn [set_main say s_main s_body s_sent s_beat s_tracker is_gone uncounted settled final_of]; [done|done|..].
  - rewrite omap_app. cbn [omap list_omap close_message beat_bytes]. by rewrite app_nil_r.
  - rewrite omap_app. cbn [omap list_omap close_message beat_bytes]. by rewrite app_nil_r.
  - rewrite close_app, H5. cbn [close_message is_close_message app]. eexists. split; [reflexivity|].
    unfold close_of. cbn. by rewrite I1, I2, I3, I4, I5, E2.
Qed.
Lemma leave_ok s : ok s -> s_main s = Reported ->
  ok (mkStream (Close sid (s_tracker s)).2 (s_sent s) (s_body s) Gone (s_beat s) (s_shared s)).
Proof.
  intros [H1 H2 H3 H4 H5] Hm. rewrite Hm in *. cbn [is_gone settled] in *.
  constructor; cbn [s_main s_body s_sent s_beat s_tracker is_gone settled final_of]; [apply lookup_delete_eq|done|by apply rising_gone|done|done].
Qed.
Lemma beat_ok text s : ok s -> on_its_way (s_beat s) = [] -> ok (set_beat (Sending (snapshot sid s) text) s).
Proof.
  intros [H1 H2 H3 H4 H5] Hb. rewrite Hb, app_nil_r in *. unfold snapshot, SessionSnapshot.
  constructor; cbn [set_beat s_main s_body s_sent s_beat s_tracker on_its_way]; [done|done|..|done].
  - destruct (is_gone (s_main s)) eqn:Eg; [rewrite H1; by apply rising_zero|]. destruct H1 as (r & E & _ & H0 & Hr). rewrite E. cbn [default from_option id].
    pose proof (H4 eq_refl) as HF. apply rising_next; [done| |].
    + eapply Forall_impl; [exact HF|]. cbn. lia.
    + split; [done|]. assert (0 <= uncounted (s_main s)) by (destruct (s_main s); cbn; lia). unfold id. lia.
  - intros Eg. rewrite Eg in *. destruct H1 as (r & E & _ & H0 & Hr). rewrite E. cbn [default from_option id]. apply Forall_app. split; [by apply H4|].
    repeat constructor. lia.
Qed.
Lemma send_ok r text at_ s : ok s -> s_beat s = Sending r text ->
  ok (set_beat Looping (say [heartbeat_message resolved r status text at_ (s_tracker s)] s)).
Proof.
  intros [H1 H2 H3 H4 H5] Hb. rewrite Hb in *. cbn [on_its_way] in *.
  constructor; cbn [set_beat say s_main s_body s_sent s_beat s_tracker on_its_way]; [done|done|..].
  - rewrite omap_app. cbn [omap list_omap heartbeat_message beat_bytes sh_BytesSent]. by rewrite app_nil_r.
  - rewrite omap_app. cbn [omap list_omap heartbeat_message beat_bytes sh_BytesSent]. by rewrite app_nil_r.
  - rewrite close_app. cbn [heartbeat_message is_close_message]. by rewrite app_nil_r.
Qed.
Lemma idle_beat_ok b s : ok s -> on_its_way (s_beat s) = [] -> on_its_way b = [] -> ok (set_beat b s).
Proof. intros [H1 H2 H3 H4 H5] E1 E2. constructor; cbn [set_beat s_main s_body s_sent s_beat s_tracker]; rewrite ?E2, ?E1 in *; done. Qed.

Lemma act_stop cancelled s s' : act resolved sid status (BeatStop cancelled) s = Some s' -> s' = set_beat Stopped s /\ s_beat s = Looping.
Proof. cbn [act]. destruct (s_beat s), (s_main s), cancelled; by intros [= <-]. Qed.

Lemma act_beat s s' : act resolved sid status Beat s = Some s' ->
  exists text, s' = set_beat (Sending (snapshot sid s) text) s /\ on_its_way (s_beat s) = [].
Proof. cbn [act]. destruct (s_main s), (s_beat s); try done; intros [= <-]; by eexists. Qed.
Lemma act_send at_ s s' : act resolved sid status (BeatSend at_) s = Some s' ->
  exists r text, s_beat s = Sending r text /\ s' = set_beat Looping (say [heartbeat_message resolved r status text at_ (s_tracker s)] s).
Proof. cbn [act]. destruct (s_main s), (s_beat s) as [| |r text|]; try done; intros [= <-]; by exists r, text. Qed.
Lemma act_elsewhere t s s' : act resolved sid status (Elsewhere t) s = Some s' ->
  s' = mkStream t (s_sent s) (s_body s) (s_main s) (s_beat s)
         (s_shared s || negb (bool_decide (sessions t !! sid = sessions (s_tracker s) !! sid))).
Proof. cbn [act]. by destruct (s_main s); intros [= <-]. Qed.

Lemma act_ok l s s' : ok s -> act resolved sid status l s = Some s' -> in_int64 (slen (s_body s)) -> s_shared s' = false -> ok s'.
Proof.
  intros HO HA Hb Hsh. destruct l as [bytes n err|now|err| |at_| | |at_|cancelled|t].
  - cbn [act] in HA. destruct (s_main s) eqn:Hm; try done. destruct (Nat.ltb_spec (length (chars bytes)) n) as [|Hn]; [done|]. injection HA as <-. by apply piece_ok.
  - cbn [act] in HA. destruct (s_main s) eqn:Hm; try done. injection HA as <-. by apply count_ok.
  - cbn [act] in HA. destruct (s_main s) eqn:Hm; try done. injection HA as <-. apply move_ok; try done; by rewrite Hm.
  - cbn [act] in HA. destruct (s_main s) as [|n err|err|final err|final| |] eqn:Hm; try done. injection HA as <-. apply move_ok; try done; try (by rewrite Hm).
    intros final [= <-]. pose proof (ok_session _ _ _ _ s HO) as HX. rewrite Hm in HX. destruct HX as (r & E & H2 & _ & H3). cbn [uncounted] in H3.
    unfold snapshot, SessionSnapshot. rewrite E. cbn [default from_option id]. split; [done|lia].
  - cbn [act] in HA. destruct (s_main s) as [|n err|err|final [e|]|final| |] eqn:Hm; try done; injection HA as <-; [by apply event_ok|..];
      apply report_ok; try done; by rewrite Hm.
  - cbn [act] in HA. destruct (s_main s) eqn:Hm; try done. injection HA as <-. by apply leave_ok.
  - apply act_beat in HA as (text & -> & Eb). by apply beat_ok.
  - apply act_send in HA as (r & text & Eb & ->). by apply send_ok.
  - apply act_stop in HA as [-> Hl]. apply idle_beat_ok; [done|by rewrite Hl|done].
  - apply act_elsewhere in HA as ->. cbn [s_shared] in Hsh. apply orb_false_iff in Hsh as [_ HE%negb_false_iff%bool_decide_eq_true].
    destruct HO as [H1 H2 H3 H4 H5]. constructor; cbn [s_main s_body s_sent s_beat s_tracker]; rewrite ?HE; done.
Qed.

Lemma act_body l s s' : act resolved sid status l s = Some s' -> slen (s_body s) <= slen (s_body s') /\ (s_shared s' = false -> s_shared s = false).
Proof.
  destruct l as [bytes n err|now|err| |at_| | |at_|cancelled|t]; [..|intros [-> _]%act_stop; done|]; cbn [act]; intros HA;
    destruct (s_main s) as [|? ?|?|? [|]|?| |]; try done; try (injection HA as <-; done);
    try (destruct (s_beat s); try done; injection HA as <-; done).
  1:{ destruct (Nat.ltb_spec (length (chars bytes)) n); [done|]. injection HA as <-. rewrite piece_length by done. cbn [s_shared]. split; [lia|done]. }
  all: injection HA as <-; cbn [s_body s_shared]; split; [lia|by intros [? _]%orb_false_iff].
Qed.

Lemma run_body labels s s' : run resolved sid status labels s = Some s' ->
  slen (s_body s) <= slen (s_body s') /\ (s_shared s' = false -> s_shared s = false).
Proof.
  revert s. induction labels as [|l labels IH]; intros s; cbn; [intros [= ->]; split; [lia|done]|].
  intros (s1 & E1 & E2)%bind_Some. destruct (act_body _ _ _ E1) as [? ?], (IH _ E2) as [? ?]. split; [lia|auto].
Qed.
Lemma small_body labels s s' : run resolved sid status labels s = Some s' -> in_int64 (slen (s_body s')) -> in_int64 (slen (s_body s)).
Proof. intros [H _]%run_body. pose proof (slen_nonneg (s_body s)). unfold in_int64, int64_min in *. lia. Qed.

Lemma run_ok labels s s' : ok s -> run resolved sid status labels s = Some s' -> in_int64 (slen (s_body s')) -> s_shared s' = false -> ok s'.
Proof.
  revert s. induction labels as [|l labels IH]; intros s HO; cbn; [by intros [= ->]|].
  intros (s1 & E1 & E2)%bind_Some Hb Hs. apply (IH s1); [|done..]. pose proof (small_body _ _ _ E2 Hb) as Hb1.
  eapply act_ok; [done|done| |by apply (run_body _ _ _ E2)]. destruct (act_body _ _ _ E1) as [? _]. pose proof (slen_nonneg (s_body s)).
  unfold in_int64, int64_min in *. lia.
Qed.
End StreamTheorems.

(** ** What the client receives *)
Definition piece_of (l : label) : string := match l with Piece bytes _ _ => bytes | _ => "" end.
Definition pieces (labels : list label) : string := foldr (fun l acc => piece_of l +:+ acc) "" labels.

(** The upstream sent [total] so far: the client has a prefix, and all of it unless the copy
    failed. *)
Definition failing (m : main_pc) : bool :=
  match m with Wrote _ (Some _) | Ending (Some _) | Ended _ (Some _) | Noted _ => true | _ => false end.
Definition copied (total : string) (s : stream) : Prop :=
  exists rest, total = s_body s +:+ rest /\
  if settled (s_main s) then forall p, MClose p ∈ s_sent s -> sc_Reason p = "completed" -> rest = ""
  else failing (s_main s) = false -> rest = "".

Lemma app_empty s : s +:+ "" = s.
Proof. apply chars_inj. by rewrite chars_app, app_nil_r. Qed.

Lemma copied_idle total s s' : copied total s -> s_body s' = s_body s -> settled (s_main s') = settled (s_main s) ->
  (failing (s_main s') = false -> failing (s_main s) = false) ->
  (forall p, MClose p ∈ s_sent s' -> MClose p ∈ s_sent s) -> copied total s'.
Proof.
  intros (rest & E & H) Eb Em Ef Hs. exists rest. rewrite Eb, Em. split; [done|]. destruct (settled (s_main s)); [intros p Hp; apply H; by apply Hs|auto].
Qed.

Section Copied.
Context (resolved : GatewayResolveResult) (sid : string) (status : Z).

Lemma piece_copied bytes n err s s' total : copied total s ->
  act resolved sid status (Piece bytes n err) s = Some s' -> copied (total +:+ bytes) s'.
Proof.
  intros (rest & -> & H) HA. cbn [act] in HA. destruct (s_main s) eqn:Hm; try done. rewrite (H eq_refl), app_empty.
  destruct (Nat.ltb_spec (length (chars bytes)) n) as [|Hn]; [done|]. injection HA as <-.
  exists (str (drop n (chars bytes))). cbn [copy_piece s_body s_main settled failing]. split.
  - apply chars_inj. by rewrite !chars_app, !chars_str, <- app_assoc, take_drop.
  - unfold write_error. destruct err; [done|]. destruct (Nat.ltb_spec n (length (chars bytes))); [done|]. intros _. by rewrite drop_ge by lia.
Qed.

(** The close report of a copy that failed does not say completed. *)
Lemma report_copied at_ s s' total : copied total s -> (settled (s_main s) = false -> List.filter is_close_message (s_sent s) = []) ->
  act resolved sid status (Report at_) s = Some s' -> copied total s'.
Proof.
  intros (rest & -> & H) HF HA. cbn [act] in HA. destruct (s_main s) as [|n err|err|final [e|]|final| |] eqn:Hm; try done; injection HA as <-.
  - exists rest. split; [done|]. done.
  - exists rest. split; [done|]. intros p _ _. by apply H.
  - exists rest. split; [done|]. intros p Hp Hr. exfalso. cbn [set_main say s_sent] in Hp. apply elem_of_app in Hp as [Hp|Hp].
    + assert (MClose p ∈ List.filter is_close_message (s_sent s)) as Hin.
      { apply list_elem_of_In, List.filter_In. split; [by apply list_elem_of_In|done]. }
      rewrite HF in Hin by done. by apply not_elem_of_nil in Hin.
    + apply list_elem_of_singleton in Hp. injection Hp as ->. done.
Qed.

Lemma act_copied record l s s' total : stream_ok resolved sid status record s -> copied total s ->
  act resolved sid status l s = Some s' -> copied (total +:+ piece_of l) s'.
Proof.
  intros HO HC HA. destruct l as [bytes n err|now|err| |at_| | |at_|cancelled|t]; cbn [piece_of]; [by eapply piece_copied|..]; rewrite app_empty.
  - cbn [act] in HA. destruct (s_main s) as [|n err|err|final err|final| |] eqn:Hm; try done. injection HA as <-.
    apply (copied_idle total s); rewrite ?Hm; try done; by destruct err.
  - cbn [act] in HA. destruct (s_main s) eqn:Hm; try done. injection HA as <-. apply (copied_idle total s); rewrite ?Hm; try done.
  - cbn [act] in HA. destruct (s_main s) as [|n err|err|final err|final| |] eqn:Hm; try done. injection HA as <-.
    apply (copied_idle total s); rewrite ?Hm; try done; by destruct err.
  - eapply report_copied; [done| |done]. destruct HO as [_ _ _ _ HF]. intros E. by rewrite E in HF.
  - cbn [act] in HA. destruct (s_main s) eqn:Hm; try done. injection HA as <-. apply (copied_idle total s); rewrite ?Hm; done.
  - apply act_beat in HA as (text & -> & _). by apply (copied_idle total s).
  - apply act_send in HA as (r & text & _ & ->). apply (copied_idle total s); [done|done|done|done|].
    cbn [set_beat say s_sent]. intros p [Hp|Hp%list_elem_of_singleton]%elem_of_app; done.
  - apply act_stop in HA as [-> _]. by apply (copied_idle total s).
  - apply act_elsewhere in HA as ->. by apply (copied_idle total s).
Qed.

Lemma run_copied record labels s s' total : stream_ok resolved sid status record s -> copied total s ->
  run resolved sid status labels s = Some s' -> in_int64 (slen (s_body s')) -> s_shared s' = false -> copied (total +:+ pieces labels) s'.
Proof.
  intros HO HC HR Hb Hs. revert s total HO HC HR. induction labels as [|l labels IH]; intros s total HO HC; cbn [run].
  { intros [= <-]. by rewrite app_empty. }
  change (pieces (l :: labels)) with (piece_of l +:+ pieces labels). intros (s1 & E1 & E2)%bind_Some.
  assert (stream_ok resolved sid status record s1) as HO1.
  { eapply act_ok; [done|done| |by apply (run_body _ _ _ _ _ _ E2)].
    apply (small_body resolved sid status (l :: labels) s s'); [|done]. cbn [run]. by rewrite E1. }
  assert (copied ((total +:+ piece_of l) +:+ pieces labels) s') as HX
    by exact (IH s1 _ HO1 (act_copied record l s s1 total HO HC E1) E2).
  assert ((total +:+ piece_of l) +:+ pieces labels = total +:+ (piece_of l +:+ pieces labels)) as <-; [|exact HX].
  apply chars_inj. by rewrite !chars_app, app_assoc.
Qed.
End Copied.

(** ** The whole of a handoff *)
Lemma open_session_start runtime env request t resolved record t1 :
  open_session runtime env request t = Open resolved record t1 ->
  sessions t1 !! SessionID record = Some record /\ BytesSent record = 0 /\ ValidateResolve resolved = Ok tt.
Proof.
  unfold open_session. destruct (parseHandoffPath (rq_Path request)) as [[[token kind] id] ext].
  destruct (_ || _ || _ || _); [done|]. cbv zeta. destruct (negb _); [done|]. destruct (NodeEmpty _); [done|].
  destruct (ho_resolve _ _) as [r|]; [|done]. destruct (ValidateResolve r) as [[]|] eqn:EV; [|done].
  unfold Start. intros [= <- <- <-]. cbn [SessionID BytesSent set_sessions sessions]. by rewrite lookup_insert_eq.
Qed.

Lemma streaming_head env request resolved record t status head : serve_session env request resolved record t = Streaming status head ->
  exists up, head = response_headers up /\ status = ur_Status up.
Proof.
  unfold serve_session. cbv zeta. destruct (String.eqb _ "redirect"); [done|]. destruct (String.eqb _ "proxy"); [|done].
  unfold proxy_open. destruct (ho_newRequest env); [done|]. destruct (ho_do _ _ _ _) as [up|]; [|done]. cbv zeta.
  destruct (String.eqb _ "HEAD"); [done|]. intros [= <- <-]. by exists up.
Qed.

(** C15: a proxied stream in every interleaving of the copy, the heartbeats and other requests, as
    long as no other request uses its session identifier.  The head carries no connection-level
    header of the upstream.  The body is a prefix of what the upstream sent, and all of it when
    the session closes as completed.  The figures of the heartbeats that are taken while the
    session is open never fall and never exceed the bytes the client took; heartbeats taken
    when the session is gone tell zero.  At most one close report is sent, exactly one once the
    copy has reported, and it names the session and exactly these bytes; heartbeats may
    arrive after it ([heartbeat_after_close]).  When the handler has returned the session is
    gone. *)
Theorem handoff_reports runtime env request t resolved record t1 status head labels s :
  open_session runtime env request t = Open resolved record t1 ->
  serve_session env request resolved record t1 = Streaming status head ->
  run resolved (SessionID record) status labels (stream_start t1) = Some s -> in_int64 (slen (s_body s)) ->
  (* no other request has touched the session *)
  s_shared s = false ->
  (forall name, name ∈ hop_headers -> head !! name = None) /\
  (exists rest, pieces labels = s_body s +:+ rest /\
     forall p, MClose p ∈ s_sent s -> sc_Reason p = "completed" -> settled (s_main s) = true -> rest = "") /\
  told resolved record status (slen (s_body s)) (s_main s) (s_sent s) /\
  (s_main s = Gone -> sessions (s_tracker s) !! SessionID record = None).
Proof.
  intros HO HS HR Hb Hsh. destruct (open_session_start _ _ _ _ _ _ _ HO) as (H1 & H2 & _).
  destruct (streaming_head _ _ _ _ _ _ _ HS) as (up & -> & _).
  assert (stream_ok resolved (SessionID record) status record (stream_start t1)) as H0.
  { constructor; cbn; [exists record; rewrite H2; by split_and!|done| |done|done]. exists [], []. by repeat constructor. }
  pose proof (run_ok _ _ _ _ _ _ _ H0 HR Hb Hsh) as HF.
  assert (copied "" (stream_start t1)) as HC by (by exists "").
  destruct (run_copied _ _ _ _ _ _ _ _ H0 HC HR Hb Hsh) as (rest & E & Hrest).
  split_and!; [intros name; apply response_no_hop| | |].
  - exists rest. split; [done|]. intros p Hp Hr Hm. rewrite Hm in Hrest. by apply (Hrest p).
  - destruct HF as [_ _ F3 _ F5]. split; [|done]. eapply rising_prefix; [exact F3|]. by destruct (s_beat s); cbn; lia.
  - intros Hm. destruct HF as [HF _ _ _ _]. by rewrite Hm in HF.
Qed.

(** ** Resolved by the hub *)
Section OverHub.
Context (decode : string -> result (option object)) (json_error : object -> error) (marshal : any -> result string).
Context (client : HubClient) (hub : hub_env).

Definition over_hub (env : handoff_env) : handoff_env :=
  mkHandoffEnv (ho_clock env) (ho_ops env) (ho_state env) (ho_RemoteAddr env)
    (fun request => (ResolveGateway decode json_error marshal client hub (ho_state env) request).1)
    (ho_rand env) (ho_entries env) (ho_newRequest env) (ho_do env).

(** C14: the session a client gets is the one the hub granted.  For a well-formed handoff path
    that is admitted on a registered node, when the hub answers with a valid session in its
    JSON form, in any order of the fields, beside unknown ones and inside envelopes data,
    resolve or gateway at any depth, the gateway opens a session with exactly the hub's mode,
    address, headers and identifier, recorded under the token, kind and file of the path; and
    the hub received one signed request that names them. *)
Theorem handoff_resolved runtime env request t token kind id ext r m outer :
  parseHandoffPath (rq_Path request) = (token, kind, id, ext) ->
  token <> "" -> kind <> "" -> id <> "" -> ext <> "" ->
  Allowed (gatewayAdmissionDecision (ho_ops env) (gw_operations runtime) (ho_clock env 0).1
             (gw_MaxSessions runtime) (gw_MaxEgressMbps runtime) t) = true ->
  carries resolve_names (resolve_entries r) m -> resolve_fits r -> ValidateResolve r = Ok tt ->
  g_Mode r <> "" -> g_SessionID r <> "" -> resolve_shape m outer ->
  hub_answers decode hub (ho_state env) outer ->
  is_ok (marshal (resolve_request_json (resolve_request env request token kind id ext))) = true ->
  (exists record t1, open_session runtime (over_hub env) request t = Open r record t1 /\
     SessionID record = g_SessionID r /\ RToken record = token /\ RKind record = kind /\ RID record = id /\
     RExtension record = ext /\ RMode record = g_Mode r /\ sessions t1 = <[g_SessionID r := record]> (sessions t)) /\
  received marshal client (ho_state env) GatewayResolvePath (resolve_request_json (resolve_request env request token kind id ext))
    (ResolveGateway decode json_error marshal client hub (ho_state env) (resolve_request env request token kind id ext)).2.
Proof.
  intros HP H1 H2 H3 H4 HA HC HF HV HM HI HS HH HJ.
  destruct (doJSON_answered decode marshal client hub (ho_state env) GatewayResolvePath
    (resolve_request_json (resolve_request env request token kind id ext)) outer HH HJ) as (sent & E & Hrec).
  assert (ResolveGateway decode json_error marshal client hub (ho_state env) (resolve_request env request token kind id ext) =
    (Ok r, sent)) as ER.
  { unfold ResolveGateway. rewrite E. cbn [ParseGatewayResolveResult].
    by rewrite (resolve_shape_read _ _ _ _ (resolve_read_back json_error r m HC HF HV HM HI) HS). }
  split; [|by rewrite ER]. unfold open_session. rewrite HP.
  rewrite (proj2 (String.eqb_neq _ _) H1), (proj2 (String.eqb_neq _ _) H2), (proj2 (String.eqb_neq _ _) H3),
    (proj2 (String.eqb_neq _ _) H4). cbn [orb over_hub ho_ops ho_clock ho_state ho_resolve ho_rand]. cbv zeta. rewrite HA. cbn [negb].
  assert (NodeEmpty (ho_state env) = false) as -> by apply HH.
  change (resolve_request (over_hub env) request token kind id ext) with (resolve_request env request token kind id ext).
  rewrite ER. cbn [fst]. rewrite HV. unfold Start. cbn [in_SessionID in_Token in_Kind in_ID in_Extension in_Mode].
  rewrite (proj2 (String.eqb_neq _ _) HI). cbv iota. rewrite (proj2 (String.eqb_neq _ _) HI). cbv iota.
  eexists _, _. split; [reflexivity|]. by split_and!.
Qed.
End OverHub.

(** ** Examples *)
Definition film_resolve : GatewayResolveResult :=
  mkResolve true "proxy" "https://origin.example/film.mkv" "" {[ "Authorization" := "Bearer x" ]} "sess-9" 10 0.
Definition film_flat : object := present (resolve_entries film_resolve) ++ [("trace", AString "t-2")].
Definition film_outer : object := [("ok", ABool true); ("gateway", AMap film_flat)].
Definition film_request : Request :=
  mkRequest "GET" "/_auren/gateway/tok-1/movie/42.mkv" (header_set "Range" "bytes=0-" ∅) "" 0 "10.0.0.1:50000".
Definition film_runtime : GwRuntime := mkGwRuntime true 10 100 "10s" None.
Definition film_up : up_response :=
  mkUpResponse 206 [("Content-Type", ["video/x-matroska"]); ("Connection", ["keep-alive"]); ("Content-Length", ["6"])] 6.
Definition film_env : handoff_env :=
  mkHandoffEnv (fun n => (63900000000 * second + Z.of_nat n, 63900000000 * second + Z.of_nat n)) sample_ops_env sample_node
    "203.0.113.9:5000" (fun _ => Ok film_resolve) "rand" map_to_list None (fun _ _ _ => Ok film_up).
Definition film_decode (s : string) : result (option object) :=
  if String.eqb s "claimed" then Ok (Some film_outer) else Err (Errorf "unexpected end of JSON input").
Definition film_tracker : GwTracker := NewGwTracker (63900000000 * second).

Lemma handoff_resolved_witness : exists record t1,
  open_session film_runtime (over_hub film_decode wire_error wire_marshal sample_client wire_env film_env) film_request film_tracker
    = Open film_resolve record t1 /\ SessionID record = "sess-9".
Proof.
  destruct (handoff_resolved film_decode wire_error wire_marshal sample_client wire_env film_runtime film_env film_request
    film_tracker "tok-1" "movie" "42" "mkv" film_resolve film_flat film_outer) as [(record & t1 & E & E' & _) _].
  - vm_compute. reflexivity.
  - discriminate.
  - discriminate.
  - discriminate.
  - discriminate.
  - reflexivity.
  - constructor; [done|by apply (bool_decide_unpack _)|]. exists [("trace", AString "t-2")]. split; [done|by repeat constructor].
  - split; reflexivity.
  - reflexivity.
  - discriminate.
  - discriminate.
  - eapply (resolve_inside _ _ film_flat _ "gateway"); [vm_compute; reflexivity|reflexivity|reflexivity|in_list|reflexivity| |constructor].
    intros key' Hk Hne. unfold envelopes in Hk.
    apply elem_of_cons in Hk as [->|[->| ->%list_elem_of_singleton]%elem_of_cons]; [reflexivity|reflexivity|done].
  - split_and!; [reflexivity..|]. exists 200, "claimed". split_and!; [reflexivity|lia|lia|discriminate|reflexivity].
  - reflexivity.
  - exists record, t1. split; assumption.
Defined.

(** A stream of two pieces with heartbeats in between. *)
Definition film_time (n : Z) : Time * Time := (63900000000 * second + n, 63900000000 * second + n).
Definition film_labels : list label :=
  [Beat; BeatSend (film_time 5); Piece "abcd" 4 None; Count 1; Beat; Piece "ef" 2 None; Count 2; BodyEnd None; Final;
   BeatSend (film_time 6); Report (film_time 8); BeatStop false; Leave].
Definition film_record : SessionRecord :=
  mkSessionRecord "sess-9" "tok-1" "movie" "42" "mkv" "proxy" (63900000000 * second + 1) (63900000000 * second + 1) 0.
Definition film_opened : GwTracker := set_sessions {[ "sess-9" := film_record ]} film_tracker.

Lemma handoff_reports_witness : exists s p,
  run film_resolve (SessionID film_record) 206 film_labels (stream_start film_opened) = Some s /\ s_body s = "abcdef" /\ s_main s = Gone /\
  List.filter is_close_message (s_sent s) = [MClose p] /\ sc_BytesSent p = 6 /\ sc_SessionID p = "sess-9".
Proof.
  assert (exists s, run film_resolve (SessionID film_record) 206 film_labels (stream_start film_opened) = Some s /\
    s_body s = "abcdef" /\ s_main s = Gone /\ s_shared s = false) as (s & E & Eb & Em & Esh) by (vm_compute; eexists; repeat split).
  destruct (handoff_reports film_runtime film_env film_request film_tracker film_resolve film_record film_opened 206
    (response_headers film_up) film_labels s) as (_ & _ & [_ HT] & _).
  - vm_compute. reflexivity.
  - vm_compute. reflexivity.
  - exact E.
  - rewrite Eb. split; vm_compute; discriminate.
  - exact Esh.
  - rewrite Em, Eb in HT. destruct HT as (p & E1 & (E2 & _ & _ & _ & _ & _ & E3 & _)).
    exists s, p. split_and!; [assumption..|exact E3|exact E2].
Defined.

(** ** Observation: heartbeats after the end

    The heartbeat goroutine sends its first message without looking at the channel that stops
    it, and [select] may choose a tick when both are ready.  A short stream can therefore be
    announced as active after it was closed, by then with an empty record: no token and no
    bytes. *)
Theorem heartbeat_after_close : exists s p,
  run film_resolve "sess-9" 206
    [Piece "abcd" 4 None; Count 1; BodyEnd None; Final; Report (film_time 8); Leave; Beat; BeatSend (film_time 9)]
    (stream_start film_opened) = Some s /\
  last (s_sent s) = Some (MHeartbeat p) /\ sh_SessionID p = "sess-9" /\ sh_Status p = "active" /\ sh_BytesSent p = 0 /\ sh_Token p = "".
Proof. vm_compute. eexists _, _. repeat split. Qed.
