(* ===== verification/Observability.v ===== *)
(** * Observability: internal/observability and server/telemetry.go

    The four bounded recorders (events, audit events, trace spans, central logs) have the
    same store and differ in how an input becomes a record.  [Recordable] is that
    difference; the theorem on the store is proved once against it.  A recorder is used
    under its mutex, so that its operations are atomic; nil and empty maps are the same. *)
From S2P Require Import Prelude GoStrings GoCrypto GoTime GoRFC3339 Queue QueueStore Heartbeat Fetch.

(** ** Records *)
Definition stableID (prefix seed : string) (now : Time) : string :=
  prefix +:+ "_" +:+ str (take 24 (chars (hex_string (sha256 (bytes_of (prefix +:+ ":" +:+ seed +:+ ":" +:+ FormatRFC3339Nano now)))))).

Class Recordable (I R : Type) := {
  make : I -> Time -> Time -> result R    (* the input, the recorder's clock and a second reading *)
}.

(** server/telemetry.go *)
Record EventInput := mkEventInput {
  ei_ID : string; ei_Level : string; ei_Type : string; ei_Message : string; ei_Metadata : gmap string string
}.
Record Event := mkEvent {
  ev_ID : string; ev_Level : string; ev_Type : string; ev_Message : string; ev_Metadata : gmap string string; ev_CreatedAt : Time
}.
Definition isSupportedEventLevel (level : string) : bool :=
  existsb (String.eqb (ToLower (TrimSpace level))) ["debug"; "info"; "warn"; "error"].
Definition NewEvent (input : EventInput) (now clock : Time) : result Event :=
  let level := ToLower (TrimSpace (ei_Level input)) in
  let level := if String.eqb level "" then "info" else level in
  if negb (isSupportedEventLevel level) then Err (Errorf "event level must be debug, info, warn or error") else
  let typeName := TrimSpace (ei_Type input) in
  if String.eqb typeName "" then Err (Errorf "event type is required") else
  let message := TrimSpace (ei_Message input) in
  if String.eqb message "" then Err (Errorf "event message is required") else
  Ok (mkEvent (TrimSpace (ei_ID input)) level typeName message (ei_Metadata input) (or_now now clock)).
#[export] Instance event_recordable : Recordable EventInput Event := { make := NewEvent }.

(** observability/audit.go *)
Record AuditInput := mkAuditInput {
  ai_ID : string; ai_Actor : string; ai_Action : string; ai_Resource : string; ai_Outcome : string; ai_Metadata : gmap string string
}.
Record AuditEvent := mkAuditEvent {
  au_ID : string; au_Actor : string; au_Action : string; au_Resource : string; au_Outcome : string;
  au_Metadata : gmap string string; au_CreatedAt : Time
}.
Definition NewAuditEvent (input : AuditInput) (now clock : Time) : result AuditEvent :=
  let action := TrimSpace (ai_Action input) in
  if String.eqb action "" then Err (Errorf "audit action is required") else
  let resource := TrimSpace (ai_Resource input) in
  if String.eqb resource "" then Err (Errorf "audit resource is required") else
  let actor := TrimSpace (ai_Actor input) in
  let actor := if String.eqb actor "" then "system" else actor in
  let outcome := ToLower (TrimSpace (ai_Outcome input)) in
  let outcome := if String.eqb outcome "" then "success" else outcome in
  let now := or_now now clock in
  let id := TrimSpace (ai_ID input) in
  let id := if String.eqb id "" then stableID "audit" (actor +:+ ":" +:+ action +:+ ":" +:+ resource) now else id in
  Ok (mkAuditEvent id actor action resource outcome (ai_Metadata input) now).
#[export] Instance audit_recordable : Recordable AuditInput AuditEvent := { make := NewAuditEvent }.

(** observability/logs.go *)
Record LogInput := mkLogInput {
  li_ID : string; li_Level : string; li_Component : string; li_Message : string; li_Metadata : gmap string string
}.
Record LogRecord := mkLogRecord {
  lr_ID : string; lr_Level : string; lr_Component : string; lr_Message : string; lr_Metadata : gmap string string; lr_CreatedAt : Time
}.
Definition NewLogRecord (input : LogInput) (now clock : Time) : result LogRecord :=
  let message := TrimSpace (li_Message input) in
  if String.eqb message "" then Err (Errorf "log message is required") else
  let component := TrimSpace (li_Component input) in
  let component := if String.eqb component "" then "agent" else component in
  let level := ToLower (TrimSpace (li_Level input)) in
  let level := if String.eqb level "" then "info" else level in
  let now := or_now now clock in
  let id := TrimSpace (li_ID input) in
  let id := if String.eqb id "" then stableID "log" (component +:+ ":" +:+ message) now else id in
  Ok (mkLogRecord id level component message (li_Metadata input) now).
#[export] Instance log_recordable : Recordable LogInput LogRecord := { make := NewLogRecord }.

(** observability/tracing.go *)
Record SpanInput := mkSpanInput {
  si_ID : string; si_TraceID : string; si_ParentID : string; si_Name : string; si_Kind : string; si_Status : string;
  si_StartedAt : Time; si_EndedAt : Time; si_Attributes : gmap string string
}.
Record Span := mkSpan {
  sp_ID : string; sp_TraceID : string; sp_ParentID : string; sp_Name : string; sp_Kind : string; sp_Status : string;
  sp_StartedAt : Time; sp_EndedAt : Time; sp_DurationMS : Z; sp_Attributes : gmap string string
}.
Definition Milliseconds (d : Duration) : Z := Z.quot d 1000000.
Definition NewSpan (input : SpanInput) (now _clock : Time) : result Span :=
  let name := TrimSpace (si_Name input) in
  if String.eqb name "" then Err (Errorf "span name is required") else
  let id := TrimSpace (si_ID input) in
  let id := if String.eqb id "" then stableID "span" name now else id in
  let traceID := TrimSpace (si_TraceID input) in
  let traceID := if String.eqb traceID "" then id else traceID in
  let kind := ToLower (TrimSpace (si_Kind input)) in
  let kind := if String.eqb kind "" then "internal" else kind in
  let status := ToLower (TrimSpace (si_Status input)) in
  let status := if String.eqb status "" then "ok" else status in
  let started := if IsZero (si_StartedAt input) then now else si_StartedAt input in
  let ended := if IsZero (si_EndedAt input) || (si_EndedAt input <? started) then started else si_EndedAt input in
  Ok (mkSpan id traceID (TrimSpace (si_ParentID input)) name kind status started ended
        (Milliseconds (time_Sub ended started)) (si_Attributes input)).
#[export] Instance span_recordable : Recordable SpanInput Span := { make := NewSpan }.

(** ** The bounded store *)
Section Recorder.
Context {I R : Type} `{!Recordable I R}.

Record Recorder := mkRecorder { rc_limit : Z; rc_records : list R }.
Definition NewRecorder (limit : Z) : Recorder := mkRecorder (if limit <=? 0 then 100 else limit) [].
(** The sequence [append], then the re-slice to the last [limit] entries. *)
Definition keep (limit : Z) (records : list R) : list R :=
  if limit <? zlen records then drop (Z.to_nat (zlen records - limit)) records else records.
Definition RecordEntry (input : I) (now clock : Time) (recorder : Recorder) : result R * Recorder :=
  match make input now clock with
  | Err e => (Err e, recorder)
  | Ok record => (Ok record, mkRecorder (rc_limit recorder) (keep (rc_limit recorder) (rc_records recorder ++ [record])))
  end.
Definition RecorderSnapshot (recorder : Recorder) : list R := rc_records recorder.
Definition RecorderCount (recorder : Recorder) : Z := zlen (rc_records recorder).

(** A run of calls, each with its clock readings, and the records they accepted. *)
Definition record_all (calls : list (I * Time * Time)) (recorder : Recorder) : Recorder :=
  foldl (fun r '(input, now, clock) => (RecordEntry input now clock r).2) recorder calls.
Definition accepted (calls : list (I * Time * Time)) : list R :=
  omap (fun '(input, now, clock) => match make input now clock with Ok r => Some r | Err _ => None end) calls.
Definition last_n (limit : Z) (l : list R) : list R := drop (Z.to_nat (zlen l - limit)) l.

Lemma keep_last limit l : keep limit l = last_n limit l.
Proof.
  unfold keep, last_n. destruct (Z.ltb_spec limit (zlen l)); [done|]. by rewrite Z2Nat.nonpos by lia.
Qed.

Lemma last_n_snoc limit l x : 0 < limit -> last_n limit (last_n limit l ++ [x]) = last_n limit (l ++ [x]).
Proof.
  intros HL. unfold last_n, zlen. rewrite !length_app, length_drop. cbn [length].
  destruct (decide (Z.of_nat (length l) <= limit)) as [Hs|Hs].
  - rewrite (Z2Nat.nonpos (Z.of_nat (length l) - limit)) by lia. rewrite drop_0. f_equal. lia.
  - rewrite !drop_app_le by (rewrite ?length_drop; lia). rewrite drop_drop. f_equal. f_equal. lia.
Qed.

(** After any calls a recorder holds exactly the last accepted records, in order, at most as
    many as its limit; a refused input changes nothing and an accepted one is the newest. *)
Theorem recorder_keeps_newest limit calls :
  let recorder := record_all calls (NewRecorder limit) in
  rc_limit recorder = rc_limit (NewRecorder limit) /\
  RecorderSnapshot recorder = last_n (rc_limit recorder) (accepted calls) /\
  0 <= RecorderCount recorder <= rc_limit recorder /\
  forall input now clock, match RecordEntry input now clock recorder with
    | (Ok record, recorder') => last (RecorderSnapshot recorder') = Some record
    | (Err _, recorder') => recorder' = recorder
    end.
Proof.
  assert (0 < rc_limit (NewRecorder limit)) as HL by (cbn; destruct (Z.leb_spec limit 0); lia).
  assert (rc_limit (record_all calls (NewRecorder limit)) = rc_limit (NewRecorder limit) /\
    rc_records (record_all calls (NewRecorder limit)) = last_n (rc_limit (NewRecorder limit)) (accepted calls)) as [H1 H2].
  { induction calls as [|[[input now] clock] calls [IH1 IH2]] using rev_ind.
    { split; [done|]. cbn. unfold last_n. by rewrite drop_nil. }
    unfold record_all, accepted in *. rewrite foldl_app, omap_app. cbn [foldl]. revert IH1 IH2.
    generalize (foldl (fun r '(input, now, clock) => (RecordEntry input now clock r).2) (NewRecorder limit) calls).
    intros r IH1 IH2. unfold RecordEntry. cbn [omap list_omap].
    destruct (make input now clock) as [x|e]; cbn [snd rc_limit rc_records]; [|by rewrite app_nil_r]. split; [done|].
    by rewrite keep_last, IH1, IH2, last_n_snoc. }
  cbn zeta. split_and!; [done|by unfold RecorderSnapshot; rewrite H1, H2|unfold RecorderCount; apply zlen_nonneg| |].
  - unfold RecorderCount. rewrite H1, H2. unfold last_n, zlen. rewrite length_drop. lia.
  - intros input now clock. unfold RecordEntry. destruct (make input now clock) as [r|e]; [|done].
    unfold RecorderSnapshot. cbn [rc_records]. rewrite keep_last, H1. unfold last_n. set (l := rc_records _).
    rewrite drop_app_le; [by rewrite last_snoc|]. unfold zlen. rewrite length_app. cbn [length]. lia.
Qed.
End Recorder.
Arguments Recorder R : clear implicits.

(** The four recorders of the agent. *)
Definition EventRecorder_Record : EventInput -> Time -> Time -> Recorder Event -> result Event * Recorder Event := RecordEntry.
Definition TraceRecorder_Record : SpanInput -> Time -> Time -> Recorder Span -> result Span * Recorder Span := RecordEntry.
Definition AuditRecorder_Record : AuditInput -> Time -> Time -> Recorder AuditEvent -> result AuditEvent * Recorder AuditEvent := RecordEntry.
Definition CentralLogSink_Record : LogInput -> Time -> Time -> Recorder LogRecord -> result LogRecord * Recorder LogRecord := RecordEntry.

(** ** Alerts: observability/alerts.go *)
Record SnapshotInput := mkSnapshotInput {
  sn_Info : VersionInfo; sn_Heartbeat : HeartbeatRecord; sn_Queue : Adapters.Info; sn_Download : DownloadSummary;
  sn_EventsCount : Z; sn_AuditCount : Z; sn_TraceCount : Z; sn_AlertCount : Z; sn_CentralLogCount : Z; sn_GeneratedAt : Time
}.
Record Alert := mkAlert { alert_Name : string; alert_Severity : string; alert_Active : bool; alert_Message : string; alert_EvaluatedAt : Time }.

Definition EvaluateAlerts (input : SnapshotInput) (clock : Time) : list Alert :=
  let evaluatedAt := or_now (sn_GeneratedAt input) clock in
  let queue := sn_Queue input in
  let alerts :=
    [mkAlert "queue_capacity_exhausted" "critical"
       ((0 <? Adapters.info_Capacity queue) && (Adapters.info_Capacity queue <=? Adapters.info_Length queue))
       "local queue capacity is exhausted" evaluatedAt;
     mkAlert "download_failures_present" "warning" (0 <? ds_Failed (sn_Download input))
       "retained download metrics include failures" evaluatedAt;
     mkAlert "heartbeat_missing" "critical" (String.eqb (hb_AgentID (sn_Heartbeat input)) "")
       "heartbeat identity is missing" evaluatedAt] in
  sort_Slice (fun a b => String.ltb (alert_Name a) (alert_Name b)) (List.filter alert_Active alerts).

(** observability/dashboard.go *)
Definition Capabilities : list string :=
  ["prometheus"; "grafana"; "tracing"; "audit"; "alerts"; "dashboard"; "centralized_logs"].
Record Dashboard := mkDashboard {
  db_Status : string; db_Capabilities : list string; db_Snapshot : SnapshotInput; db_Alerts : list Alert; db_GeneratedAt : Time
}.
Definition at_time (input : SnapshotInput) (t : Time) : SnapshotInput :=
  mkSnapshotInput (sn_Info input) (sn_Heartbeat input) (sn_Queue input) (sn_Download input) (sn_EventsCount input)
    (sn_AuditCount input) (sn_TraceCount input) (sn_AlertCount input) (sn_CentralLogCount input) t.
Definition NewDashboard (input : SnapshotInput) (clock : Time) : Dashboard :=
  let generatedAt := or_now (sn_GeneratedAt input) clock in
  let input := at_time input generatedAt in
  mkDashboard "ok" Capabilities input (EvaluateAlerts input clock) generatedAt.

(** ** Prometheus text: observability/prometheus.go *)
Definition quote_char : ascii := "034".
Definition backslash : ascii := "\".
Definition line_feed : ascii := "010".
Definition escape_char (c : ascii) : list ascii :=
  if Ascii.eqb c backslash then [backslash; backslash]
  else if Ascii.eqb c line_feed then [backslash; "n"%char]
  else if Ascii.eqb c quote_char then [backslash; quote_char]
  else [c].
Definition escapeLabel (value : string) : string := str (mbind escape_char (chars value)).

Definition label_text (key value : string) : string :=
  key +:+ "=" +:+ str [quote_char] +:+ escapeLabel value +:+ str [quote_char].
Definition labels (values : gmap string string) : string :=
  if bool_decide (values = ∅) then "" else
  let keys := sort_Strings (List.filter (fun key => negb (String.eqb (TrimSpace key) "")) (map_to_list values).*1) in
  let parts := map (fun key => label_text key (default "" (values !! key))) keys in
  "{" +:+ str (join_chars "," (map chars parts)) +:+ "}".

Definition metric_header (name help metricType : string) : string :=
  "# HELP " +:+ name +:+ " " +:+ help +:+ newline +:+ "# TYPE " +:+ name +:+ " " +:+ metricType +:+ newline.
Definition sample (name labels : string) (value : Z) : string := name +:+ labels +:+ " " +:+ Itoa value +:+ newline.
Definition unix_seconds (t : Time) : Z := t / second - 62135596800.

Definition Prometheus (input : SnapshotInput) (clock : Time) : string :=
  let generatedAt := or_now (sn_GeneratedAt input) clock in
  let info := sn_Info input in let hb := sn_Heartbeat input in let queue := sn_Queue input in let dl := sn_Download input in
  let result_label (r : string) := "{result=" +:+ str [quote_char] +:+ r +:+ str [quote_char] +:+ "}" in
  let queue_labels := labels (<["driver" := Adapters.info_Driver queue]> {["mode" := Adapters.info_Mode queue]}) in
  metric_header "auren_agent_info" "Auren Transfer Agent build and runtime information." "gauge" +:+
  sample "auren_agent_info" (labels (<["name" := v_Name info]> (<["version" := v_Version info]> {["status" := v_Status info]}))) 1 +:+
  metric_header "auren_heartbeat_info" "Auren Transfer Agent heartbeat state." "gauge" +:+
  sample "auren_heartbeat_info" (labels (<["agent_id" := hb_AgentID hb]> (<["hostname" := hb_Hostname hb]> {["status" := hb_Status hb]}))) 1 +:+
  metric_header "auren_queue_length" "Current local queue length." "gauge" +:+
  sample "auren_queue_length" queue_labels (Adapters.info_Length queue) +:+
  metric_header "auren_queue_capacity" "Current local queue capacity." "gauge" +:+
  sample "auren_queue_capacity" queue_labels (Adapters.info_Capacity queue) +:+
  metric_header "auren_download_total" "Download observations retained by the local metrics recorder." "counter" +:+
  sample "auren_download_total" (result_label "succeeded") (ds_Succeeded dl) +:+
  sample "auren_download_total" (result_label "failed") (ds_Failed dl) +:+
  metric_header "auren_download_bytes_written_total" "Bytes written by retained download observations." "counter" +:+
  sample "auren_download_bytes_written_total" "" (ds_BytesWritten dl) +:+
  metric_header "auren_events_total" "Retained local communication events." "gauge" +:+
  sample "auren_events_total" "" (sn_EventsCount input) +:+
  metric_header "auren_audit_events_total" "Retained local audit events." "gauge" +:+
  sample "auren_audit_events_total" "" (sn_AuditCount input) +:+
  metric_header "auren_traces_total" "Retained local trace spans." "gauge" +:+
  sample "auren_traces_total" "" (sn_TraceCount input) +:+
  metric_header "auren_alerts_active" "Currently active foundation alerts." "gauge" +:+
  sample "auren_alerts_active" "" (sn_AlertCount input) +:+
  metric_header "auren_central_logs_total" "Retained centralized log records." "gauge" +:+
  sample "auren_central_logs_total" "" (sn_CentralLogCount input) +:+
  metric_header "auren_observability_snapshot_timestamp_seconds" "Unix timestamp for the rendered observability snapshot." "gauge" +:+
  sample "auren_observability_snapshot_timestamp_seconds" "" (unix_seconds generatedAt).

(** ** A reader of label sets *)
Fixpoint read_value (l : list ascii) : option (list ascii * list ascii) :=
  match l with
  | [] => None
  | c :: r =>
      if Ascii.eqb c quote_char then Some ([], r)
      else if Ascii.eqb c backslash then
        match r with
        | d :: r => '(v, rest) ← read_value r; Some ((if Ascii.eqb d "n" then line_feed else d) :: v, rest)
        | [] => None
        end
      else '(v, rest) ← read_value r; Some (c :: v, rest)
  end.
Fixpoint read_key (l : list ascii) : option (list ascii * list ascii) :=
  match l with
  | [] => None
  | c :: r => if Ascii.eqb c "=" then Some ([], r) else '(k, rest) ← read_key r; Some (c :: k, rest)
  end.
Fixpoint read_pairs (fuel : nat) (l : list ascii) : option (list (string * string) * list ascii) :=
  match fuel with
  | O => None
  | S fuel =>
      '(k, l) ← read_key l;
      match l with
      | q :: l =>
          if negb (Ascii.eqb q quote_char) then None else
          '(v, l) ← read_value l;
          match l with
          | c :: l =>
              if Ascii.eqb c "," then '(pairs, rest) ← read_pairs fuel l; Some ((str k, str v) :: pairs, rest)
              else if Ascii.eqb c "}" then Some ([(str k, str v)], l) else None
          | [] => None
          end
      | [] => None
      end
  end.
Definition read_labels (l : list ascii) : option (list (string * string) * list ascii) :=
  match l with "{"%char :: l => read_pairs (length l) l | _ => None end.

Lemma read_value_escape v rest : read_value (mbind escape_char v ++ quote_char :: rest) = Some (v, rest).
Proof.
  induction v as [|c v IH]; [done|]. cbn [mbind list_bind]. rewrite <- app_assoc. unfold escape_char at 1.
  destruct (Ascii.eqb_spec c backslash) as [->|H1]; [cbn; by rewrite IH|].
  destruct (Ascii.eqb_spec c line_feed) as [->|H2]; [cbn; by rewrite IH|].
  destruct (Ascii.eqb_spec c quote_char) as [->|H3]; [cbn; by rewrite IH|].
  cbn [app read_value]. rewrite (proj2 (Ascii.eqb_neq _ _) H1), (proj2 (Ascii.eqb_neq _ _) H3), IH. done.
Qed.

Lemma read_key_plain k rest : "="%char ∉ k -> read_key (k ++ "="%char :: rest) = Some (k, rest).
Proof.
  induction k as [|c k IH]; [done|]. intros [Hc Hk]%not_elem_of_cons. cbn [app read_key].
  rewrite (proj2 (Ascii.eqb_neq _ _)) by done. by rewrite IH.
Qed.

Definition render (pairs : list (string * string)) : list ascii :=
  join_chars "," (map (fun '(k, v) => chars (label_text k v)) pairs).

Lemma label_chars k v : chars (label_text k v) = chars k ++ "="%char :: quote_char :: mbind escape_char (chars v) ++ [quote_char].
Proof. unfold label_text, escapeLabel. by rewrite !chars_app, !chars_str. Qed.

Lemma read_pairs_render pairs rest fuel : pairs <> [] -> (length pairs <= fuel)%nat ->
  Forall (fun kv => "="%char ∉ chars kv.1) pairs ->
  read_pairs fuel (render pairs ++ "}"%char :: rest) = Some (pairs, rest).
Proof.
  revert fuel. induction pairs as [|[k v] pairs IH]; intros fuel Hne Hf HF; [done|].
  apply Forall_cons in HF as [Hk HF]. destruct fuel as [|fuel]; [cbn in Hf; lia|].
  assert (forall tail, read_key (chars (label_text k v) ++ tail) =
    Some (chars k, quote_char :: mbind escape_char (chars v) ++ quote_char :: tail)) as HK.
  { intros tail. rewrite label_chars, <- app_assoc. cbn [app]. rewrite read_key_plain by done. by rewrite <- app_assoc. }
  destruct pairs as [|p pairs].
  - unfold render. cbn [map join_chars read_pairs]. rewrite HK. cbn [mbind option_bind]. rewrite (Ascii.eqb_refl quote_char). cbn [negb]. rewrite read_value_escape. cbn [mbind option_bind]. by rewrite !str_chars.
  - assert (render ((k, v) :: p :: pairs) = chars (label_text k v) ++ ","%char :: render (p :: pairs)) as -> by done.
    cbn [read_pairs]. rewrite <- app_assoc, HK. cbn [mbind option_bind]. rewrite (Ascii.eqb_refl quote_char). cbn [negb].
    rewrite read_value_escape. cbn [mbind option_bind app]. rewrite (proj2 (Ascii.eqb_eq _ _)) by done.
    rewrite IH; [|done|cbn in *; lia|done]. cbn [mbind option_bind]. by rewrite !str_chars.
Qed.

(** A rendered label set can be read back whatever the values are: no value can end its
    quotes, its line or its set, so that a sample line always names the labels it was
    rendered from. *)
Theorem labels_roundtrip (values : gmap string string) rest : values <> ∅ ->
  (forall k, is_Some (values !! k) -> "="%char ∉ chars k /\ TrimSpace k <> "") ->
  exists pairs, read_labels (chars (labels values) ++ rest) = Some (pairs, rest) /\
    (list_to_map pairs : gmap string string) = values /\ StronglySorted String.le pairs.*1.
Proof.
  intros Hne HK. unfold labels. rewrite bool_decide_false by done.
  assert (List.filter (fun key => negb (String.eqb (TrimSpace key) "")) (map_to_list values).*1 = (map_to_list values).*1) as ->.
  { assert (forall k, k ∈ (map_to_list values).*1 -> negb (String.eqb (TrimSpace k) "") = true) as HF.
    { intros k ([k' v] & -> & Hin)%list_elem_of_fmap. cbn. apply elem_of_map_to_list in Hin.
      rewrite (proj2 (String.eqb_neq _ _)); [done|]. apply HK. by exists v. }
    revert HF. generalize (map_to_list values).*1. induction l as [|k l IH]; intros HF; [done|]. cbn.
    rewrite HF by left. by rewrite IH by (intros; apply HF; by right). }
  set (keys := sort_Strings (map_to_list values).*1).
  assert (keys ≡ₚ (map_to_list values).*1) as HP by apply sort_Strings_perm.
  set (pairs := map (fun key => (key, default "" (values !! key))) keys). exists pairs.
  assert (pairs.*1 = keys) as Hfst.
  { unfold pairs. clear. induction keys as [|k keys IH]; [done|]. cbn. by f_equal. }
  assert (Permutation pairs (map_to_list values)) as HPP.
  { unfold pairs. rewrite HP. clear. assert (forall l, (forall kv, kv ∈ l -> values !! kv.1 = Some kv.2) ->
      map (fun key => (key, default "" (values !! key))) l.*1 = l) as H.
    { induction l as [|[k v] l IH]; intros Hl; [done|]. pose proof (Hl (k, v) (list_elem_of_here _ _)) as Hkv. cbn in *. rewrite Hkv. cbn.
      f_equal. apply IH. intros kv' Hin. apply Hl. by right. }
    rewrite H; [done|]. intros [k v] Hin. by apply elem_of_map_to_list. }
  split_and!; [|symmetry; apply list_to_map_flip; by symmetry|rewrite Hfst; apply sort_Strings_sorted].
  rewrite !chars_app, chars_str, map_map.
  assert (map (fun key => chars (label_text key (default "" (values !! key)))) keys = map (fun '(k, v) => chars (label_text k v)) pairs) as ->.
  { unfold pairs. by rewrite map_map. }
  fold (render pairs). change (chars "{") with ["{"%char]. change (chars "}") with ["}"%char]. cbn [app read_labels].
  rewrite <- app_assoc. cbn [app].
  assert (pairs <> []) as Hpn.
  { intros E. rewrite E in HPP. apply Permutation_nil_l in HPP. by apply Hne, map_to_list_empty_iff. }
  apply read_pairs_render; [done| |].
  - rewrite length_app. enough (length pairs <= length (render pairs))%nat by lia. clear. unfold render.
    induction pairs as [|[k v] [|p pairs] IH]; [done|cbn; rewrite label_chars, length_app; cbn; lia|].
    change (join_chars "," (map (fun '(k, v) => chars (label_text k v)) ((k, v) :: p :: pairs)))
      with (chars (label_text k v) ++ ","%char :: join_chars "," (map (fun '(k, v) => chars (label_text k v)) (p :: pairs))).
    rewrite length_app. cbn [length] in *. lia.
  - rewrite Forall_forall. intros [k v] Hin. rewrite HPP in Hin. apply elem_of_map_to_list in Hin. by apply HK.
Qed.

Lemma labels_roundtrip_witness :
  exists pairs, read_labels (chars (labels (<["name" := str ["a"; quote_char; backslash; line_feed]%char]> {["mode" := "}"]})) ++ []) = Some (pairs, []) /\
    (list_to_map pairs : gmap string string) = <["name" := str ["a"; quote_char; backslash; line_feed]%char]> {["mode" := "}"]}.
Proof.
  destruct (labels_roundtrip (<["name" := str ["a"; quote_char; backslash; line_feed]%char]> {["mode" := "}"]}) []) as (pairs & H1 & H2 & _).
  - by apply insert_non_empty.
  - intros k Hk. rewrite lookup_insert_is_Some, lookup_singleton_is_Some in Hk.
    destruct Hk as [<-|[_ <-]]; (split; [apply (bool_decide_unpack _); vm_compute; exact I|vm_compute; discriminate]).
  - exists pairs. split; [exact H1|exact H2].
Defined.

(** An alert is reported exactly when its condition holds, with the time of the snapshot;
    the report is sorted by name and names no alert twice. *)
Theorem EvaluateAlerts_spec input clock :
  let names := map alert_Name (EvaluateAlerts input clock) in
  ("queue_capacity_exhausted" ∈ names <->
     0 < Adapters.info_Capacity (sn_Queue input) <= Adapters.info_Length (sn_Queue input)) /\
  ("download_failures_present" ∈ names <-> 0 < ds_Failed (sn_Download input)) /\
  ("heartbeat_missing" ∈ names <-> hb_AgentID (sn_Heartbeat input) = "") /\
  NoDup names /\ StronglySorted String.le names /\
  Forall (fun a => alert_EvaluatedAt a = or_now (sn_GeneratedAt input) clock) (EvaluateAlerts input clock).
Proof.
  unfold EvaluateAlerts. cbn [List.filter alert_Active].
  set (b1 := (0 <? _) && _). set (b2 := 0 <? ds_Failed _). set (b3 := String.eqb _ "").
  assert (0 < Adapters.info_Capacity (sn_Queue input) <= Adapters.info_Length (sn_Queue input) <-> b1 = true) as -> by (unfold b1; lia).
  assert (0 < ds_Failed (sn_Download input) <-> b2 = true) as -> by (unfold b2; lia).
  assert (hb_AgentID (sn_Heartbeat input) = "" <-> b3 = true) as -> by (unfold b3; by rewrite String.eqb_eq).
  generalize b1 b2 b3 (or_now (sn_GeneratedAt input) clock). clear. intros b1 b2 b3 t.
  destruct b1, b2, b3; cbn; rewrite ?elem_of_cons, ?elem_of_nil; split_and!;
    first [intuition congruence | apply (bool_decide_unpack _); vm_compute; exact I
          | repeat constructor; apply (bool_decide_unpack _); vm_compute; exact I | repeat constructor].
Qed.
