(* ===== verification/DevSummary.v ===== *)
(** * The overview of the developer console: internal/devui/summary.go

    [Summary] walks the newest records once and groups them by endpoint, function, event and
    job.  A Go map of pointers is a finite map of the records they point to; the order in
    which the maps are enumerated at the end is an argument.  [Grouping] is what the four
    groupings have in common. *)
From Stdlib Require Import SpecFloat.
From S2P Require Import Prelude GoStrings GoFloat GoUrl GoUrlText GoJson DevUI.

(** ** Data *)
Record EndpointSummary := mkEndpointSummary {
  es_Key : string; es_Direction : string; es_Method : string; es_Path : string; es_Count : Z; es_Errors : Z;
  es_LastStatus : Z; es_TotalBytes : Z; es_AvgDurationMS : Z; es_MaxDurationMS : Z; es_LastFinishedAt : Time
}.
Record FunctionSummary := mkFunctionSummary {
  fs_Name : string; fs_Count : Z; fs_Errors : Z; fs_LastStatus : Z; fs_LastPath : string; fs_LastFinishedAt : Time
}.
Record EventSummary := mkEventSummary {
  vs_Stage : string; vs_Operation : string; vs_Count : Z; vs_Errors : Z; vs_LastJobUUID : string; vs_LastMessage : string;
  vs_LastFinishedAt : Time
}.
Record JobSummary := mkJobSummary {
  js_UUID : string; js_Operation : string; js_CurrentStage : string; js_SourceURL : string; js_Destination : string;
  js_ObjectPath : string; js_Events : Z; js_Requests : Z; js_Errors : Z; js_CurrentBytes : Z; js_TotalBytes : Z;
  js_SpeedBps : Z; js_Percent : spec_float; js_LastMessage : string; js_LastFinishedAt : Time;
  js_RecentActivities : list RequestRecord
}.
Record Summary := mkSummary {
  sm_GeneratedAt : Time; sm_WindowRecords : Z; sm_Endpoints : list EndpointSummary; sm_Functions : list FunctionSummary;
  sm_Events : list EventSummary; sm_Jobs : list JobSummary; sm_ActiveDownloads : Z; sm_ActiveUploads : Z;
  sm_ActiveTransfers : Z; sm_QueueLikeCalls : Z; sm_NoisyCalls : Z; sm_Errors : list RequestRecord
}.

(** ** Names of records *)
(** [uuidPathPattern.ReplaceAllString]: 8, 4, 4, 4 and 12 hexadecimal digits. *)
Fixpoint match_uuid (groups : list nat) (l : list ascii) : bool :=
  match groups with
  | [] => true
  | n :: rest => Nat.eqb (length (take n l)) n && forallb ishex (take n l) &&
                 match rest with [] => true | _ => is_prefix ["-"%char] (drop n l) && match_uuid rest (drop (S n) l) end
  end.
Fixpoint replace_uuids (skip : nat) (l : list ascii) : list ascii :=
  match l with
  | [] => []
  | c :: r =>
    match skip with
    | S skip => replace_uuids skip r
    | O => if match_uuid [8; 4; 4; 4; 12]%nat l then chars "{uuid}" ++ replace_uuids 35 r else c :: replace_uuids 0 r
    end
  end.
Definition normalizePathForGroup (raw : string) : string :=
  if String.eqb raw "" then "" else
  let path := match full_Parse raw with Ok parsed => if nonempty (u_Path parsed) then str (u_Path parsed) else raw | Err _ => raw end in
  str (replace_uuids 0 (chars path)).

(** The cases of [classifyFunction] in their order: all parts have to occur. *)
Definition function_table : list (list string * string) :=
  [(["/nodes/register"], "media_hub.node.register"); (["/nodes/config"], "media_hub.node.config");
   (["/nodes/heartbeat"], "media_hub.node.heartbeat"); (["/nodes/metrics"], "media_hub.node.metrics");
   (["/nodes/events"], "media_hub.node.events"); (["/transfer-agent/jobs/claim"], "transfer.claim");
   (["/transfer-agent/jobs/"; "/started"], "transfer.started"); (["/transfer-agent/jobs/"; "/progress"], "transfer.progress");
   (["/transfer-agent/jobs/"; "/completed"], "transfer.completed"); (["/transfer-agent/jobs/"; "/failed"], "transfer.failed");
   (["/transfer-agent/jobs/"; "/control"], "transfer.control"); (["/gateway/resolve"], "gateway.resolve");
   (["/gateway/sessions/heartbeat"], "gateway.session.heartbeat"); (["/gateway/sessions/close"], "gateway.session.close");
   (["s3"], "storage.s3"); (["amazonaws.com"], "storage.s3"); (["/_auren/dev"], "dev_console")].
Fixpoint classify_path (table : list (list string * string)) (p other : string) : string :=
  match table with
  | [] => other
  | (parts, name) :: rest => if forallb (Contains p) parts then name else classify_path rest p other
  end.
Definition classifyFunction (record : RequestRecord) : string :=
  let p := ToLower (firstNonBlank [r_Path record; r_URL record]) in
  let stage := ToLower (r_Stage record) in
  if String.eqb (r_Kind record) "transfer" then
    if String.eqb stage "" then "transfer.event" else "transfer." +:+ TrimChar "/" stage
  else classify_path function_table p ("http." +:+ ToLower (firstNonBlank [r_Method record; "event"])).
Definition isNoisyRecord (record : RequestRecord) : bool :=
  existsb (String.eqb (classifyFunction record))
    ["media_hub.node.heartbeat"; "media_hub.node.metrics"; "media_hub.node.events"; "transfer.control"; "dev_console"].

Definition int64FromAny (value : option any) : option Z :=
  match value with Some (AInt z) => Some z | Some (AFloat f) => Some (int64_of_float f) | _ => None end.
Definition floatFromAny (value : option any) : option spec_float :=
  match value with Some (AFloat f) => Some f | Some (AInt z) => Some (float64 z) | _ => None end.

(** ** One record joins its groups *)
Definition err_bit (r : RequestRecord) : Z := if is_error r then 1 else 0.
Definition endpoint_key (r : RequestRecord) : string :=
  ToLower (r_Direction r) +:+ " " +:+ ToUpper (r_Method r) +:+ " " +:+ normalizePathForGroup (firstNonBlank [r_Path r; r_URL r]).
Definition new_endpoint (r : RequestRecord) : EndpointSummary :=
  mkEndpointSummary (endpoint_key r) (r_Direction r) (r_Method r) (normalizePathForGroup (firstNonBlank [r_Path r; r_URL r]))
    0 0 0 0 0 0 zero_time.
Definition add_endpoint (r : RequestRecord) (e : EndpointSummary) : EndpointSummary :=
  let later := es_LastFinishedAt e <? r_FinishedAt r in
  mkEndpointSummary (es_Key e) (es_Direction e) (es_Method e) (es_Path e) (wrap64 (es_Count e + 1)) (wrap64 (es_Errors e + err_bit r))
    (if later then r_Status r else es_LastStatus e) (wrap64 (es_TotalBytes e + r_Bytes r)) (wrap64 (es_AvgDurationMS e + r_DurationMS r))
    (if es_MaxDurationMS e <? r_DurationMS r then r_DurationMS r else es_MaxDurationMS e)
    (if later then r_FinishedAt r else es_LastFinishedAt e).
Definition add_function (r : RequestRecord) (f : FunctionSummary) : FunctionSummary :=
  let later := fs_LastFinishedAt f <? r_FinishedAt r in
  mkFunctionSummary (fs_Name f) (wrap64 (fs_Count f + 1)) (wrap64 (fs_Errors f + err_bit r))
    (if later then r_Status r else fs_LastStatus f) (if later then firstNonBlank [r_Path r; r_URL r] else fs_LastPath f)
    (if later then r_FinishedAt r else fs_LastFinishedAt f).
Definition event_stage (r : RequestRecord) : string := firstNonBlank [r_Stage r; r_Path r].
Definition event_key (r : RequestRecord) : string := r_Operation r +:+ "::" +:+ event_stage r.
Definition has_event (r : RequestRecord) : bool :=
  String.eqb (r_Kind r) "transfer" || negb (String.eqb (r_JobUUID r) "") || negb (String.eqb (event_stage r) "").
Definition add_event (r : RequestRecord) (v : EventSummary) : EventSummary :=
  let later := vs_LastFinishedAt v <? r_FinishedAt r in
  mkEventSummary (vs_Stage v) (vs_Operation v) (wrap64 (vs_Count v + 1)) (wrap64 (vs_Errors v + err_bit r))
    (if later then r_JobUUID r else vs_LastJobUUID v)
    (if later then firstNonBlank [r_Message r; r_Error r] else vs_LastMessage v)
    (if later then r_FinishedAt r else vs_LastFinishedAt v).

Definition set_progress (candidate : option any) (job : JobSummary) : JobSummary :=
  match candidate with
  | Some (AMap m) =>
    mkJobSummary (js_UUID job) (js_Operation job) (js_CurrentStage job) (js_SourceURL job) (js_Destination job) (js_ObjectPath job)
      (js_Events job) (js_Requests job) (js_Errors job) (default (js_CurrentBytes job) (int64FromAny (assoc "current_bytes" m)))
      (default (js_TotalBytes job) (int64FromAny (assoc "total_bytes" m))) (default (js_SpeedBps job) (int64FromAny (assoc "speed_bps" m)))
      (default (js_Percent job) (floatFromAny (assoc "percent" m))) (js_LastMessage job) (js_LastFinishedAt job) (js_RecentActivities job)
  | _ => job
  end.
Definition mergeProgressFromRecord (job : JobSummary) (record : RequestRecord) : JobSummary :=
  set_progress (r_RequestBody record ≫= bp_JSON) (set_progress (Some (AMap (r_Metadata record))) job).
Definition if_set (value old : string) : string := if String.eqb value "" then old else value.
Definition new_job (uuid : string) : JobSummary :=
  mkJobSummary uuid "" "" "" "" "" 0 0 0 0 0 0 (float64 0) "" zero_time [].
Definition add_job (r : RequestRecord) (job : JobSummary) : JobSummary :=
  let transfer := String.eqb (r_Kind r) "transfer" in
  let job := mkJobSummary (js_UUID job) (if_set (r_Operation r) (js_Operation job)) (if_set (r_Stage r) (js_CurrentStage job))
    (if_set (r_SourceURL r) (js_SourceURL job)) (if_set (r_Destination r) (js_Destination job))
    (if_set (r_ObjectPath r) (js_ObjectPath job)) (if transfer then wrap64 (js_Events job + 1) else js_Events job)
    (if transfer then js_Requests job else wrap64 (js_Requests job + 1)) (wrap64 (js_Errors job + err_bit r))
    (js_CurrentBytes job) (js_TotalBytes job) (js_SpeedBps job) (js_Percent job)
    (if negb (String.eqb (r_Message r) "") || negb (String.eqb (r_Error r) "") then firstNonBlank [r_Message r; r_Error r]
     else js_LastMessage job) (js_LastFinishedAt job) (js_RecentActivities job) in
  let job := mergeProgressFromRecord job r in
  mkJobSummary (js_UUID job) (js_Operation job) (js_CurrentStage job) (js_SourceURL job) (js_Destination job) (js_ObjectPath job)
    (js_Events job) (js_Requests job) (js_Errors job) (js_CurrentBytes job) (js_TotalBytes job) (js_SpeedBps job) (js_Percent job)
    (js_LastMessage job) (if js_LastFinishedAt job <? r_FinishedAt r then r_FinishedAt r else js_LastFinishedAt job)
    (if zlen (js_RecentActivities job) <? 10 then js_RecentActivities job ++ [r] else js_RecentActivities job).

(** ** Grouping *)
(** A grouping names the group of a record, if it has one, the empty group and how a record
    joins it. *)
Class Grouping (G : Type) := {
  group_of : RequestRecord -> option string;
  new_group : RequestRecord -> G;
  join_group : RequestRecord -> G -> G
}.
#[export] Instance by_endpoint : Grouping EndpointSummary :=
  { group_of r := Some (endpoint_key r); new_group := new_endpoint; join_group := add_endpoint }.
#[export] Instance by_function : Grouping FunctionSummary :=
  { group_of r := Some (classifyFunction r); new_group r := mkFunctionSummary (classifyFunction r) 0 0 0 "" zero_time;
    join_group := add_function }.
#[export] Instance by_event : Grouping EventSummary :=
  { group_of r := if has_event r then Some (event_key r) else None;
    new_group r := mkEventSummary (event_stage r) (r_Operation r) 0 0 "" "" zero_time; join_group := add_event }.
#[export] Instance by_job : Grouping JobSummary :=
  { group_of r := if String.eqb (r_JobUUID r) "" then None else Some (r_JobUUID r);
    new_group r := new_job (r_JobUUID r); join_group := add_job }.

Definition add_to_group `{Grouping G} (groups : gmap string G) (r : RequestRecord) : gmap string G :=
  match group_of (G := G) r with
  | None => groups
  | Some key => <[key := join_group r (default (new_group r) (groups !! key))]> groups
  end.

(** The variables of the loop; the four maps are independent of each other. *)
Record Walk := mkWalk {
  wk_endpoints : gmap string EndpointSummary; wk_functions : gmap string FunctionSummary;
  wk_events : gmap string EventSummary; wk_jobs : gmap string JobSummary;
  wk_noisy : Z; wk_queue : Z; wk_errors : list RequestRecord
}.
Definition queue_like (r : RequestRecord) : bool := Contains (classifyFunction r) "claim" || Contains (r_Path r) "/jobs/claim".
Definition walk_step (w : Walk) (r : RequestRecord) : Walk :=
  mkWalk (add_to_group (wk_endpoints w) r) (add_to_group (wk_functions w) r) (add_to_group (wk_events w) r)
    (add_to_group (wk_jobs w) r) (if isNoisyRecord r then wk_noisy w + 1 else wk_noisy w)
    (if queue_like r then wk_queue w + 1 else wk_queue w)
    (if is_error r && (zlen (wk_errors w) <? 25) then wk_errors w ++ [r] else wk_errors w).
Definition walk (records : list RequestRecord) : Walk := foldl walk_step (mkWalk ∅ ∅ ∅ ∅ 0 0 []) records.

(** The enumerations of the four maps. *)
Record Orders := mkOrders {
  or_endpoints : list EndpointSummary; or_functions : list FunctionSummary; or_events : list EventSummary; or_jobs : list JobSummary
}.
Definition average (e : EndpointSummary) : EndpointSummary :=
  mkEndpointSummary (es_Key e) (es_Direction e) (es_Method e) (es_Path e) (es_Count e) (es_Errors e) (es_LastStatus e) (es_TotalBytes e)
    (if 0 <? es_Count e then Z.quot (es_AvgDurationMS e) (es_Count e) else es_AvgDurationMS e) (es_MaxDurationMS e) (es_LastFinishedAt e).
Definition active (word : string) (v : EventSummary) : bool :=
  Contains (ToLower (vs_Stage v)) word && negb (Contains (ToLower (vs_Stage v)) "completed").
Definition cut_to {A} (n : nat) (l : list A) : list A := if (n <? length l)%nat then take n l else l.
Definition build_summary (records : list RequestRecord) (now : Time) (orders : Orders) : Summary :=
  let w := walk records in
  let endpoints := sort_Slice (fun a b => es_Count b <? es_Count a) (map average (or_endpoints orders)) in
  let functions := sort_Slice (fun a b => fs_Count b <? fs_Count a) (or_functions orders) in
  let events := sort_Slice (fun a b => vs_LastFinishedAt b <? vs_LastFinishedAt a) (or_events orders) in
  let jobs := sort_Slice (fun a b => js_LastFinishedAt b <? js_LastFinishedAt a) (or_jobs orders) in
  mkSummary now (zlen records) (cut_to 30 endpoints) (cut_to 30 functions) (cut_to 40 events) (cut_to 25 jobs)
    (zlen (List.filter (active "download") (or_events orders))) (zlen (List.filter (active "upload") (or_events orders)))
    (zlen jobs) (wk_queue w) (wk_noisy w) (wk_errors w).
Definition TraceSummary (limit : Z) (now : Time) (orders : Orders) (recorder : TraceRecorder) : Summary :=
  build_summary (TraceSnapshot limit recorder) now orders.
Definition enumerates (orders : Orders) (w : Walk) : Prop :=
  or_endpoints orders ≡ₚ (map_to_list (wk_endpoints w)).*2 /\ or_functions orders ≡ₚ (map_to_list (wk_functions w)).*2 /\
  or_events orders ≡ₚ (map_to_list (wk_events w)).*2 /\ or_jobs orders ≡ₚ (map_to_list (wk_jobs w)).*2.

(** ** Groups are what they should be *)
Section Groups.
Context {G : Type} `{!Grouping G}.

Definition members (key : string) (records : list RequestRecord) : list RequestRecord :=
  List.filter (fun r => bool_decide (group_of (G := G) r = Some key)) records.
(** The group of a list of members, in their order. *)
Definition group_from (l : list RequestRecord) : option G :=
  match l with [] => None | r :: _ => Some (foldl (fun g r => join_group r g) (new_group r) l) end.

Lemma group_from_snoc l r : group_from (l ++ [r]) = Some (join_group r (default (new_group r) (group_from l))).
Proof. destruct l as [|r0 l]; [done|]. cbn [app group_from default]. change (r0 :: l ++ [r]) with ((r0 :: l) ++ [r]). by rewrite foldl_snoc. Qed.
Lemma members_snoc key records r : members key (records ++ [r]) =
  members key records ++ (if bool_decide (group_of (G := G) r = Some key) then [r] else []).
Proof. unfold members. rewrite List.filter_app. cbn. by destruct (bool_decide _). Qed.

Lemma grouping_spec records key : foldl add_to_group ∅ records !! key = group_from (members key records).
Proof.
  induction records as [|r records IH] using rev_ind; [apply lookup_empty|]. rewrite foldl_snoc, members_snoc.
  unfold add_to_group at 1. destruct (group_of r) as [k|] eqn:E.
  - destruct (decide (k = key)) as [->|Hk].
    + rewrite lookup_insert_eq, bool_decide_eq_true_2 by done. by rewrite group_from_snoc, IH.
    + rewrite lookup_insert_ne by done. rewrite bool_decide_eq_false_2 by congruence. by rewrite app_nil_r.
  - rewrite bool_decide_eq_false_2 by done. by rewrite app_nil_r.
Qed.
End Groups.

Lemma walk_groups records :
  wk_endpoints (walk records) = foldl add_to_group ∅ records /\ wk_functions (walk records) = foldl add_to_group ∅ records /\
  wk_events (walk records) = foldl add_to_group ∅ records /\ wk_jobs (walk records) = foldl add_to_group ∅ records.
Proof.
  unfold walk. induction records as [|r records IH] using rev_ind; [done|]. rewrite !foldl_snoc.
  destruct IH as (H1 & H2 & H3 & H4). rewrite <- H1, <- H2, <- H3, <- H4. done.
Qed.

(** What an endpoint says of the records it stands for. *)
Definition describes (l : list RequestRecord) (e : EndpointSummary) : Prop :=
  es_Count e = zlen l /\ es_Errors e = count_of is_error l /\
  (forall r, r ∈ l -> r_DurationMS r <= es_MaxDurationMS e /\ r_FinishedAt r <= es_LastFinishedAt e) /\
  (zero_time < es_LastFinishedAt e ->
   exists r, r ∈ l /\ r_FinishedAt r = es_LastFinishedAt e /\ r_Status r = es_LastStatus e).

Lemma endpoint_describes l r0 : zlen l <= int64_max ->
  describes l (foldl (fun e r => add_endpoint r e) (new_endpoint r0) l) /\
  es_Key (foldl (fun e r => add_endpoint r e) (new_endpoint r0) l) = endpoint_key r0.
Proof.
  induction l as [|r l IH] using rev_ind; intros HN.
  - split; [|done]. split_and!; [done|done|intros ? []%not_elem_of_nil|intros H; by apply Z.lt_irrefl in H].
  - rewrite zlen_snoc in HN. destruct IH as [(H1 & H2 & H3 & H4) H5]; [lia|]. rewrite foldl_snoc. set (e := foldl _ _ _) in *. clearbody e.
    assert (forall n, n <= zlen l -> 0 <= n -> in_int64 (n + 1)) as HW by (unfold in_int64, int64_min, int64_max in *; lia).
    assert (0 <= zlen l) by (unfold zlen; lia). pose proof (count_of_bound is_error l) as HC.
    split; [|done]. unfold describes, add_endpoint. cbn [es_Count es_Errors es_MaxDurationMS es_LastFinishedAt es_LastStatus].
    rewrite H1, H2, zlen_snoc, count_of_snoc. split_and!.
    + apply wrap64_id, HW; lia.
    + unfold err_bit. destruct (is_error r).
      * apply wrap64_id, HW; lia.
      * rewrite wrap64_id; [done|]. unfold in_int64, int64_min, int64_max in *. lia.
    + intros r' [Hr| ->%list_elem_of_singleton]%elem_of_app; [destruct (H3 r' Hr)|];
        destruct (Z.ltb_spec (es_MaxDurationMS e) (r_DurationMS r)), (Z.ltb_spec (es_LastFinishedAt e) (r_FinishedAt r)); lia.
    + destruct (Z.ltb_spec (es_LastFinishedAt e) (r_FinishedAt r)).
      * intros _. exists r. split; [|done]. apply elem_of_app. right. by apply list_elem_of_singleton.
      * intros HZ. destruct (H4 HZ) as (r' & Hr & E). exists r'. split; [|done]. apply elem_of_app. by left.
Qed.

Notation endpoint_members := (members (G := EndpointSummary)).
Lemma walk_endpoint records key e : zlen records <= int64_max -> wk_endpoints (walk records) !! key = Some e ->
  describes (endpoint_members key records) e /\ es_Key e = key.
Proof.
  intros HN. rewrite (proj1 (walk_groups records)), grouping_spec. unfold group_from.
  destruct (endpoint_members key records) as [|r l] eqn:E; [done|]. intros H. injection H as <-.
  destruct (endpoint_describes (r :: l) r) as [HD HK].
  { unfold zlen in *. rewrite <- E. unfold members. pose proof (List.filter_length_le (fun r => bool_decide (group_of (G := EndpointSummary) r = Some key)) records). lia. }
  split; [exact HD|]. etransitivity; [exact HK|].
  assert (r ∈ endpoint_members key records) as Hr by (rewrite E; left).
  apply list_elem_of_In, List.filter_In in Hr as [_ Hr%bool_decide_eq_true]. by injection Hr.
Qed.

Lemma average_describes l e : describes l e -> describes l (average e).
Proof. done. Qed.
Lemma cut_to_take {A} n (l : list A) : cut_to n l = take n l.
Proof. unfold cut_to. destruct (Nat.ltb_spec n (length l)); [done|]. symmetry. by apply take_ge. Qed.

#[export] Instance endpoint_order : WeakOrder (fun a b => es_Count b <? es_Count a).
Proof. split; intros; repeat match goal with H : context [_ <? _] |- _ => revert H end; rewrite ?Z.ltb_lt, ?Z.ltb_ge; lia. Qed.

(** The endpoints that are shown are the sorted front of the enumeration. *)
Lemma shown_endpoints records now orders :
  exists rest, sm_Endpoints (build_summary records now orders) ++ rest ≡ₚ map average (or_endpoints orders) /\
  (zlen (sm_Endpoints (build_summary records now orders)) <= 30) /\
  forall shown other, shown ∈ sm_Endpoints (build_summary records now orders) -> other ∈ rest -> es_Count other <= es_Count shown.
Proof.
  unfold build_summary. cbn [sm_Endpoints]. rewrite cut_to_take. set (less := fun a b => es_Count b <? es_Count a).
  set (l := map average (or_endpoints orders)). exists (drop 30 (sort_Slice less l)). split_and!.
  - rewrite take_drop. apply sort_Slice_perm.
  - unfold zlen. rewrite length_take. lia.
  - intros shown other Hs Ho. pose proof (sort_Slice_sorted less l) as HS.
    rewrite <- (take_drop 30 (sort_Slice less l)) in HS. apply StronglySorted_app in HS as (HS & _ & _).
    specialize (HS shown other Hs Ho). unfold slice_le, less in HS. by apply Z.ltb_ge.
Qed.

(** In the overview each endpoint stands for the records of its group: it counts them and
    the failed ones, its duration and time are the largest, and its status is the one of the
    record that finished last; at most 30 are shown, the busiest first, and none that is left
    out is busier; together the groups have all records of the window. *)
Theorem summary_describes_window records now orders (HO : enumerates orders (walk records)) (HN : zlen records <= int64_max) :
  let s := build_summary records now orders in
  sm_WindowRecords s = zlen records /\ zlen (sm_Endpoints s) <= 30 /\
  (forall e, e ∈ sm_Endpoints s -> describes (endpoint_members (es_Key e) records) e /\ endpoint_members (es_Key e) records <> []) /\
  (forall r, r ∈ records -> exists e, e ∈ map average (or_endpoints orders) /\ es_Key e = endpoint_key r /\
     (e ∈ sm_Endpoints s \/ forall shown, shown ∈ sm_Endpoints s -> es_Count e <= es_Count shown)).
Proof.
  cbv zeta. destruct (shown_endpoints records now orders) as (rest & HP & HL & HS).
  assert (forall e, e ∈ map average (or_endpoints orders) <-> exists key e0, wk_endpoints (walk records) !! key = Some e0 /\ e = average e0) as HE.
  { intros e. rewrite list_elem_of_In, in_map_iff. setoid_rewrite <- list_elem_of_In. setoid_rewrite (proj1 HO).
    setoid_rewrite list_elem_of_fmap. split.
    - intros (e0 & <- & [k ?] & -> & H%elem_of_map_to_list). eauto.
    - intros (k & e0 & H & ->). exists e0. split; [done|]. exists (k, e0). by rewrite elem_of_map_to_list. }
  split_and!; [done|exact HL| |].
  - intros e He. assert (e ∈ map average (or_endpoints orders)) as (k & e0 & H & ->)%HE by (rewrite <- HP; apply elem_of_app; by left).
    destruct (walk_endpoint records k e0 HN H) as [HD HK]. change (es_Key (average e0)) with (es_Key e0). rewrite HK.
    split; [by apply average_describes|]. intros E. rewrite (proj1 (walk_groups records)), grouping_spec, E in H. done.
  - intros r Hr. destruct (wk_endpoints (walk records) !! endpoint_key r) as [e0|] eqn:E.
    + destruct (walk_endpoint records _ e0 HN E) as [_ HK]. exists (average e0).
      assert (average e0 ∈ map average (or_endpoints orders)) as HI by (apply HE; eauto).
      split_and!; [done|done|]. rewrite <- HP in HI. apply elem_of_app in HI as [HI|HI]; [by left|right; eauto].
    + rewrite (proj1 (walk_groups records)), grouping_spec in E.
      assert (r ∈ endpoint_members (endpoint_key r) records) as Hm.
      { apply list_elem_of_In, List.filter_In. split; [by apply list_elem_of_In|]. by apply bool_decide_eq_true_2. }
      destruct (endpoint_members (endpoint_key r) records); [by apply not_elem_of_nil in Hm|done].
Qed.

Definition stage_record (id : Z) (stage : string) (finished : Time) : RequestRecord :=
  mkRequestRecord id "event" "transfer" "EVENT" "" stage "" 0 0 0 "" "" "" "" "" "job-1" "copy" stage "" "" "" "" finished finished ∅ ∅ None None [].
Definition stage_records : list RequestRecord := [stage_record 2 "upload" 9; stage_record 1 "download" 5].
Definition stage_orders : Orders :=
  let w := walk stage_records in
  mkOrders (map_to_list (wk_endpoints w)).*2 (map_to_list (wk_functions w)).*2 (map_to_list (wk_events w)).*2 (map_to_list (wk_jobs w)).*2.
Lemma summary_describes_window_witness :
  let s := build_summary stage_records 10 stage_orders in
  sm_WindowRecords s = 2 /\ forall e, e ∈ sm_Endpoints s -> es_Count e = 1.
Proof.
  assert (enumerates stage_orders (walk stage_records)) as HO by done.
  assert (zlen stage_records <= int64_max) as HN by (by vm_compute).
  destruct (summary_describes_window stage_records 10 stage_orders HO HN) as (H1 & _ & H3 & _).
  split; [done|]. intros e He. destruct (H3 e He) as [(H & _) _]. rewrite H. revert He. clear. intros He%(list_elem_of_fmap_2 es_Key).
  match type of He with _ ∈ ?l => replace l with [endpoint_key (stage_record 2 "upload" 9); endpoint_key (stage_record 1 "download" 5)] in He
    by (vm_compute; reflexivity) end.
  apply elem_of_cons in He as [->|He]; [vm_compute; reflexivity|]. apply list_elem_of_singleton in He as ->. vm_compute. reflexivity.
Defined.

(** ** Jobs show their oldest stage *)
Lemma progress_keeps_stage c job : js_CurrentStage (set_progress c job) = js_CurrentStage job.
Proof. by destruct c as [[]|]. Qed.
Lemma job_stage r job : js_CurrentStage (add_job r job) = if_set (r_Stage r) (js_CurrentStage job).
Proof.
  unfold add_job. set (job' := mkJobSummary _ _ (if_set _ _) _ _ _ _ _ _ _ _ _ _ _ _ _). cbv zeta. cbn [js_CurrentStage].
  unfold mergeProgressFromRecord. rewrite !progress_keeps_stage. reflexivity.
Qed.
(** The records come newest first and each one overwrites the stage: the stage shown as current
    is the one of the oldest record in the window that has one. *)
Lemma job_shows_oldest_stage l r : r_Stage r <> "" ->
  forall job, js_CurrentStage (foldl (fun g r => add_job r g) job (l ++ [r])) = r_Stage r.
Proof. intros H job. rewrite foldl_snoc, job_stage. unfold if_set. by rewrite (proj2 (String.eqb_neq _ _) H). Qed.
Example finished_download_is_current :
  map js_CurrentStage (sm_Jobs (build_summary stage_records 10 stage_orders)) = ["download"].
Proof. vm_compute. reflexivity. Qed.
