(* ===== verification/DevRoutes.v ===== *)
(** * The routes of the developer console: internal/devui/routes.go

    The handlers read the recorder and the settings and change nothing.  The page itself (the
    HTML template) and the JSON encoder are parameters. *)
From Stdlib Require Import SpecFloat.
From S2P Require Import Prelude GoStrings GoUrl GoTime GoJson Download Observability Router Handoff DevUI DevSummary.

Definition DefaultPath : string := "/_auren/dev".
Record DevConfig := mkDevConfig {
  dc_Enabled : bool; dc_Path : string; dc_Retention : Z; dc_RefreshInterval : string; dc_CaptureBodies : bool;
  dc_BodyLimitBytes : Z
}.

(** The [any] fields are filled by the bootstrap. *)
Record MetricsSnapshot := mkMetricsSnapshot {
  ms_GeneratedAt : Time; ms_Runtime : any; ms_MediaHub : any; ms_Transfer : any; ms_Gateway : any; ms_Queue : any;
  ms_Download : any; ms_Storage : any; ms_Hardening : any; ms_DevUI : any; ms_RequestCounters : Counters;
  ms_RecentRequests : list RequestRecord; ms_Summary : Summary
}.
Definition zero_counters : Counters := mkCounters 0 0 0 0 0 0 0.
Definition empty_summary (now : Time) : Summary := mkSummary now 0 [] [] [] [] 0 0 0 0 0 [].
Definition empty_snapshot (now : Time) : MetricsSnapshot :=
  mkMetricsSnapshot now ANil ANil ANil ANil ANil ANil ANil ANil ANil zero_counters [] (empty_summary 0).

Definition normalizeBasePath (path : string) : string :=
  let path := TrimSpace path in
  let path := if String.eqb path "" then DefaultPath else path in
  "/" +:+ TrimChar "/" path.
Definition refreshMilliseconds (value : string) : Z :=
  match ParseDuration (TrimSpace value) with
  | Some d => if d <=? 0 then 2000 else Milliseconds d
  | None => 2000
  end.

Inductive console_payload :=
| CSnapshot (s : MetricsSnapshot) | CRecords (l : list RequestRecord) | CSummary (s : Summary) | CObject (o : object).

Section Console.
Context {Env State : Type} (get_recorder : State -> option TraceRecorder) (now_of : Env -> Time) (orders_of : Env -> Orders).
Context (encode : console_payload -> string) (page : string -> string -> Z -> string -> string) (version : string).
Context (cfg : DevConfig) (snapshot_fn : option (Env -> State -> MetricsSnapshot)).

Definition console_json (status : Z) (payload : console_payload) : RW :=
  [SetHeader "Content-Type" "application/json; charset=utf-8"; SetHeader "X-Content-Type-Options" "nosniff";
   WriteHeader status; Write (encode payload)].

(** A handler that only reads. *)
Definition answers (out : Env -> Request -> State -> RW) : @Handler Env State := fun env request w s => (w ++ out env request s, None, s).

Definition redirectTo (target : string) : @Handler Env State := answers (fun _ request _ => http_Redirect request target).
Definition htmlHandler (name : string) : @Handler Env State := answers (fun _ _ _ =>
  [SetHeader "Content-Type" "text/html; charset=utf-8";
   Write (page (normalizeBasePath (dc_Path cfg)) name (refreshMilliseconds (dc_RefreshInterval cfg)) version)]).

Definition dev_ui_fields : object :=
  [("path", AString (normalizeBasePath (dc_Path cfg))); ("refresh_interval", AString (dc_RefreshInterval cfg));
   ("retention", AInt (dc_Retention cfg)); ("capture_bodies", ABool (dc_CaptureBodies cfg));
   ("body_limit_bytes", AInt (dc_BodyLimitBytes cfg))].
Definition buildSnapshot (env : Env) (s : State) : MetricsSnapshot :=
  let base := match snapshot_fn with Some f => f env s | None => empty_snapshot (now_of env) end in
  let '(counters, recent, summary) :=
    match get_recorder s with
    | Some r => (TraceCounters r, TraceSnapshot 50 r, TraceSummary 500 (now_of env) (orders_of env) r)
    | None => (ms_RequestCounters base, ms_RecentRequests base, ms_Summary base)
    end in
  mkMetricsSnapshot (ms_GeneratedAt base) (ms_Runtime base) (ms_MediaHub base) (ms_Transfer base) (ms_Gateway base)
    (ms_Queue base) (ms_Download base) (ms_Storage base) (ms_Hardening base) (AMap dev_ui_fields) counters recent summary.
Definition snapshotHandler : @Handler Env State := answers (fun env _ s => console_json 200 (CSnapshot (buildSnapshot env s))).
Definition requestsHandler : @Handler Env State := answers (fun _ _ s =>
  console_json 200 (CRecords (match get_recorder s with None => [] | Some r => TraceSnapshot 500 r end))).
Definition overviewHandler : @Handler Env State := answers (fun env _ s =>
  console_json 200 (CSummary (match get_recorder s with
                              | None => empty_summary (now_of env)
                              | Some r => TraceSummary 500 (now_of env) (orders_of env) r
                              end))).
Definition config_note : string := str (map ascii_of_nat
  [65; 115; 32; 112; 114; 101; 102; 101; 114; 195; 170; 110; 99; 105; 97; 115; 32; 118; 105; 115; 117; 97; 105; 115; 32;
   100; 101; 115; 116; 97; 32; 116; 101; 108; 97; 32; 115; 195; 163; 111; 32; 115; 97; 108; 118; 97; 115; 32; 110; 111;
   32; 110; 97; 118; 101; 103; 97; 100; 111; 114; 46]%nat) +:+ " Configura" +:+ str (map ascii_of_nat [195; 167; 195; 163]%nat) +:+
  "o persistente do Agent continua no agent.yaml.".
Definition configHandler : @Handler Env State := answers (fun _ _ _ => console_json 200 (CObject
  [("dev_ui", AMap (("enabled", ABool (dc_Enabled cfg)) :: dev_ui_fields));
   ("pages", AList [AString "metrics"; AString "requests"; AString "settings"]); ("note", AString config_note)])).
Definition apiNotFoundHandler (basePath : string) : @Handler Env State := answers (fun _ request _ => console_json 404 (CObject
  [("error", AString "dev_ui_api_route_not_found");
   ("message", AString ("Endpoint JSON do Dev Console n" +:+ str (map ascii_of_nat [195; 163]%nat) +:+ "o encontrado."));
   ("path", AString (rq_Path request));
   ("expected", AList (map (fun suffix => AString (normalizeBasePath basePath +:+ suffix))
                         ["/api/snapshot"; "/api/overview"; "/api/requests"; "/api/config"]))])).

Definition console_table : list (string * string * @Handler Env State) :=
  let path := normalizeBasePath (dc_Path cfg) in
  [("devui.metrics", "/metrics", htmlHandler "metrics"); ("devui.requests", "/requests", htmlHandler "requests");
   ("devui.settings", "/settings", htmlHandler "settings"); ("devui.api.snapshot", "/api/snapshot", snapshotHandler);
   ("devui.api.snapshot.trailing", "/api/snapshot/", snapshotHandler); ("devui.api.requests", "/api/requests", requestsHandler);
   ("devui.api.requests.trailing", "/api/requests/", requestsHandler); ("devui.api.overview", "/api/overview", overviewHandler);
   ("devui.api.config", "/api/config", configHandler); ("devui.api.fallback", "/api/*", apiNotFoundHandler path)].
Definition Routes : list (@RouteDefinition Env State) :=
  let path := normalizeBasePath (dc_Path cfg) in
  mkRouteDefinition "devui.index" "GET" path (Some (redirectTo (path +:+ "/metrics"))) ::
  map (fun '(name, suffix, handler) => mkRouteDefinition name "GET" (path +:+ suffix) (Some handler)) console_table.

(** ** The console only looks *)

(** Every route of the console answers without changing the state: pages and documents with
    200, the index with a redirect, unknown documents with 404. *)
Theorem console_reads d env request w s : d ∈ Routes -> exists h out,
  rd_Handler d = Some h /\ h env request w s = (w ++ out, None, s) /\
  rs_Status (response out) ∈ [200; 302; 404].
Proof.
  intros Hd. unfold Routes, console_table in Hd. cbn [map] in Hd.
  repeat (apply elem_of_cons in Hd as [->|Hd];
    [eexists _, _; split; [reflexivity|]; split; [reflexivity|]; unfold http_Redirect; cbn;
     try (destruct (String.eqb _ "GET"), (String.eqb _ "HEAD")); cbn; in_list|]).
  by apply not_elem_of_nil in Hd.
Qed.

(** What it shows depends on the recorder, the clock and the settings alone: two states whose
    recorders hold the same records get the same answer. *)
Theorem console_shows_recorder d env request s s' : snapshot_fn = None -> get_recorder s = get_recorder s' -> d ∈ Routes ->
  exists h, rd_Handler d = Some h /\ (h env request [] s).1 = (h env request [] s').1.
Proof.
  intros Hf Hr Hd. unfold Routes, console_table in Hd. cbn [map] in Hd.
  repeat (apply elem_of_cons in Hd as [->|Hd];
    [eexists; split; [reflexivity|];
     unfold snapshotHandler, requestsHandler, overviewHandler, answers, buildSnapshot; cbn [fst app]; rewrite ?Hf, ?Hr; reflexivity|]).
  by apply not_elem_of_nil in Hd.
Qed.
End Console.

(** The base path starts with a slash and, unless it is the root, does not end with one. *)
Lemma normalizeBasePath_slash path : HasPrefix (normalizeBasePath path) "/" = true /\ normalizeBasePath path <> "".
Proof. unfold normalizeBasePath. cbv zeta. destruct (String.eqb (TrimSpace path) ""); by split. Qed.

(** ** Observations *)

(** With the base path "/" the index sends the browser to another host: the target becomes
    "//metrics", which is an address without scheme. *)
Theorem root_console_redirects_away {Env State} :
  exists u, normalizeBasePath "/" = "/" /\
  http_Redirect (mkRequest "GET" "/" ∅ "" 0 "10.0.0.1:50000") (normalizeBasePath "/" +:+ "/metrics") =
    [SetHeader "Location" "//metrics"; SetHeader "Content-Type" "text/html; charset=utf-8"; WriteHeader 302;
     Write ("<a href=" +:+ Handoff.dquote +:+ "//metrics" +:+ Handoff.dquote +:+ ">Found</a>." +:+ newline +:+ newline)] /\
  url_Parse "//metrics" = Ok u /\ str (Host u) = "metrics" /\
  forall (h : @Handler Env State), rd_Pattern (mkRouteDefinition "devui.metrics" "GET" (normalizeBasePath "/" +:+ "/metrics") (Some h)) = "//metrics".
Proof. vm_compute. eexists. repeat split. Qed.

(** A refresh interval below a millisecond is positive for the validation and zero for the
    page. *)
Theorem fast_refresh_is_zero : ParseDuration "500us" = Some 500000 /\ refreshMilliseconds "500us" = 0.
Proof. split; vm_compute; reflexivity. Qed.
