(* ===== verification/Server.v ===== *)
(** * The HTTP interface of the agent: internal/server

    Authentication, the worker interface over queue and queue file, the communication,
    telemetry and observability interfaces, and the routes of all of them.  The handlers
    share [ServerState]; what one request finds around it is [ServerEnv].  Encoding of
    responses and decoding of request bodies (encoding/json) are parameters. *)
From S2P Require Import Prelude GoStrings GoCrypto GoSha1 GoTime GoRFC3339 GoFS Job Queue QueueStore IdentityStore Heartbeat Download Router Fetch Observability.

(** ** Data of the responses *)
Record HealthResponse := mkHealthResponse {
  hr_Status : string; hr_Name : string; hr_Version : string; hr_RuntimeStatus : string; hr_Router : string
}.
Record VersionResponse := mkVersionResponse { vr_Name : string; vr_Version : string; vr_RuntimeStatus : string; vr_Router : string }.
Record ReadyResponse := mkReadyResponse {
  rr_Status : string; rr_Ready : bool; rr_Name : string; rr_Version : string; rr_RuntimeStatus : string; rr_Router : string
}.
Record IdentityResponse := mkIdentityResponse {
  ir_Status : string; ir_Name : string; ir_Version : string; ir_RuntimeStatus : string; ir_Router : string;
  ir_AgentID : string; ir_Fingerprint : string; ir_FingerprintAlgorithm : string; ir_Hostname : string;
  ir_HostnameSource : string; ir_Persistence : string; ir_StoreSource : string; ir_StorePath : string
}.
Record ErrorResponse := mkErrorResponse { er_Status : string; er_Message : string }.
Record WorkerQueueStats := mkWorkerQueueStats { wq_Driver : string; wq_Length : Z; wq_Capacity : Z }.
Record WorkerResponse := mkWorkerResponse {
  wr_Status : string; wr_Name : string; wr_Version : string; wr_RuntimeStatus : string; wr_Router : string; wr_Heartbeat : HeartbeatRecord;
  wr_Queue : WorkerQueueStats; wr_GeneratedAt : Time
}.
Record WorkerJobsResponse := mkWorkerJobsResponse { wj_Status : string; wj_Queue : WorkerQueueStats; wj_Jobs : list Job }.
Record CreateJobResponse := mkCreateJobResponse {
  cj_Status : string; cj_Accepted : bool; cj_Job : Job; cj_Queue : WorkerQueueStats; cj_Persistence : option Persistence.StoreResult
}.
Record RESTStatusResponse := mkRESTStatusResponse {
  re_Status : string; re_Name : string; re_Version : string; re_RuntimeStatus : string; re_Router : string; re_RESTAPI : bool; re_WebSocket : bool; re_Registration : bool;
  re_Heartbeat : bool; re_Authentication : string; re_Routes : list string; re_GeneratedAt : Time
}.
Record RegistrationRequest := mkRegistrationRequest {
  rg_Controller : string; rg_Labels : gmap string string; rg_Metadata : gmap string string
}.
Record RegistrationResponse := mkRegistrationResponse {
  rp_Status : string; rp_Registered : bool; rp_Controller : string; rp_Agent : IdentitySnapshot; rp_Version : VersionInfo;
  rp_Heartbeat : HeartbeatRecord; rp_Capabilities : list string; rp_Labels : gmap string string;
  rp_Metadata : gmap string string; rp_GeneratedAt : Time
}.
Record HeartbeatResponse := mkHeartbeatResponse {
  hp_Status : string; hp_Accepted : bool; hp_Heartbeat : HeartbeatRecord; hp_GeneratedAt : Time
}.
Record MetricsResponse := mkMetricsResponse {
  mt_Status : string; mt_Runtime : VersionInfo; mt_Heartbeat : HeartbeatRecord; mt_Queue : Adapters.Info;
  mt_Download : DownloadSummary; mt_Generated : Time
}.
(** The lists and single records of the telemetry and observability responses. *)
Record ListResponse (R : Type) := mkListResponse { ls_Status : string; ls_Count : Z; ls_Records : list R; ls_GeneratedAt : Time }.
Record StoreResponse (R : Type) := mkStoreResponse { so_Status : string; so_Count : Z; so_Record : R; so_GeneratedAt : Time }.
Arguments mkListResponse {R}.
Arguments mkStoreResponse {R}.

Inductive payload :=
| PHealth (r : HealthResponse) | PVersion (r : VersionResponse) | PReady (r : ReadyResponse) | PIdentity (r : IdentityResponse)
| PError (r : ErrorResponse) | PWorker (r : WorkerResponse) | PWorkerJobs (r : WorkerJobsResponse) | PCreateJob (r : CreateJobResponse)
| PREST (r : RESTStatusResponse) | PRegistration (r : RegistrationResponse) | PHeartbeat (r : HeartbeatResponse) | PMetrics (r : MetricsResponse)
| PEvents (info : VersionInfo) (r : ListResponse Event) | PEvent (event : Event) (accepted : bool) (generated : string)
| PSpans (r : ListResponse Span) | PSpan (r : StoreResponse Span) | PAudits (r : ListResponse AuditEvent) | PAudit (r : StoreResponse AuditEvent)
| PLogs (r : ListResponse LogRecord) | PLog (r : StoreResponse LogRecord)
| PAlerts (r : ListResponse Alert) | PDashboard (d : Dashboard) (generated : Time) | PGrafana.

Record CreateJobRequest := mkCreateJobRequest {
  cr_ID : string; cr_ExternalID : string; cr_Type : string; cr_Priority : Z; cr_MaxAttempts : Z; cr_SourceURL : string;
  cr_DestinationKey : string; cr_Headers : gmap string string; cr_Metadata : gmap string string
}.

(** ** State and environment *)
Record ServerState := mkServerState {
  sv_queue : option Adapters.ClusterQueue; sv_fs : FS; sv_downloads : list DownloadMetric;
  sv_events : option (Recorder Event); sv_traces : option (Recorder Span); sv_audit : option (Recorder AuditEvent);
  sv_logs : option (Recorder LogRecord)
}.
Definition set_queue (q : Adapters.ClusterQueue) (s : ServerState) : ServerState :=
  mkServerState (Some q) (sv_fs s) (sv_downloads s) (sv_events s) (sv_traces s) (sv_audit s) (sv_logs s).
Definition set_files (fs : FS) (s : ServerState) : ServerState :=
  mkServerState (sv_queue s) fs (sv_downloads s) (sv_events s) (sv_traces s) (sv_audit s) (sv_logs s).
Definition set_events (r : Recorder Event) (s : ServerState) : ServerState :=
  mkServerState (sv_queue s) (sv_fs s) (sv_downloads s) (Some r) (sv_traces s) (sv_audit s) (sv_logs s).
Definition set_traces (r : Recorder Span) (s : ServerState) : ServerState :=
  mkServerState (sv_queue s) (sv_fs s) (sv_downloads s) (sv_events s) (Some r) (sv_audit s) (sv_logs s).
Definition set_audit (r : Recorder AuditEvent) (s : ServerState) : ServerState :=
  mkServerState (sv_queue s) (sv_fs s) (sv_downloads s) (sv_events s) (sv_traces s) (Some r) (sv_logs s).
Definition set_logs (r : Recorder LogRecord) (s : ServerState) : ServerState :=
  mkServerState (sv_queue s) (sv_fs s) (sv_downloads s) (sv_events s) (sv_traces s) (sv_audit s) (Some r).

(** Clock readings of one request, in the order of their use, the state of its context,
    entropy for a new identifier, and the faults of the queue file. *)
Record ServerEnv := mkServerEnv {
  se_ctx : Context; se_entropy : result (list Z); se_now : Time; se_enqueued : Time; se_saved : Time; se_generated : Time;
  se_faults : write_faults; se_tmp : string; se_elapsed : Z
}.

(** A queue adapter forwards to the memory queue it holds. *)
Definition on_embedded (q : Memory.MemoryQueue) (c : Adapters.ClusterQueue) : Adapters.ClusterQueue :=
  match c with
  | Adapters.InstrumentedQueue _ i => Adapters.InstrumentedQueue q i
  | Adapters.RedisStreamsQueue _ i => Adapters.RedisStreamsQueue q i
  | Adapters.RabbitMQQueue _ i => Adapters.RabbitMQQueue q i
  | Adapters.NATSQueue _ i => Adapters.NATSQueue q i
  end.

(** ** Authentication: communication.go *)
Record Authenticator := mkAuthenticator { auth_required : bool; auth_apiKey : string; auth_tokenHeader : string }.
Definition NewAuthenticator (required : bool) (apiKey tokenHeader : string) : result Authenticator :=
  let tokenHeader := TrimSpace tokenHeader in
  let tokenHeader := if String.eqb tokenHeader "" then "Authorization" else tokenHeader in
  if ContainsAny tokenHeader newline_chars then Err (Errorf "token header cannot contain newline characters") else
  let apiKey := TrimSpace apiKey in
  if required && String.eqb apiKey "" then Err (Errorf "api key is required when authentication is enabled")
  else Ok (mkAuthenticator required apiKey tokenHeader).
Definition TokenHeader (auth : Authenticator) : string :=
  if String.eqb (TrimSpace (auth_tokenHeader auth)) "" then "Authorization" else auth_tokenHeader auth.
Definition Mode (auth : Authenticator) : string := if auth_required auth then "api_key" else "disabled".
Definition AuthenticateRequest (auth : Authenticator) (request : Request) : bool :=
  if negb (auth_required auth) then true else
  let value := TrimSpace (header_get (TokenHeader auth) (rq_Header request)) in
  if String.eqb value "" then false
  else String.eqb value (auth_apiKey auth) || String.eqb value ("Bearer " +:+ auth_apiKey auth)
       || String.eqb value ("ApiKey " +:+ auth_apiKey auth).

Definition WebSocketAcceptKey (key : string) : string :=
  StdEncodeToString (sha1 (bytes_of (TrimSpace key +:+ "258EAFA5-E914-47DA-95CA-C5AB0DC85B11"))).
Definition isWebSocketUpgrade (request : Request) : bool :=
  let connection := ToLower (header_get "Connection" (rq_Header request)) in
  let upgrade := ToLower (header_get "Upgrade" (rq_Header request)) in
  Contains connection "upgrade" && String.eqb upgrade "websocket".

Definition HealthContentType : string := "application/json; charset=utf-8".
Definition RouterKindName : string := "chi".
Definition body_limit : Z := 2 ^ 20.
(** What a decoder behind [http.MaxBytesReader] gets to see. *)
Definition limited (body : string) : string :=
  str (take (Z.to_nat (Z.min body_limit (slen body))) (chars body)).

Section Handlers.
Context (encode : payload -> option string) (decode_job : string -> result CreateJobRequest)
  (decode_registration : string -> result RegistrationRequest) (decode_event : string -> result EventInput)
  (decode_span : string -> result SpanInput) (decode_audit : string -> result AuditInput) (decode_log : string -> result LogInput)
  (marshal_queue : Persistence.Snapshot -> result string).

Notation handler := (@Handler ServerEnv ServerState).
Notation routes := (list (@RouteDefinition ServerEnv ServerState)).

(** [writeJSON] and the errors built on it; what [Encode] returns is ignored. *)
Definition writeJSON (status : Z) (p : payload) : RW :=
  [SetHeader "Content-Type" HealthContentType; WriteHeader status] ++ match encode p with Some text => [Write text] | None => [] end.
Definition writeWorkerError (status : Z) (message : string) : RW :=
  let message := if String.eqb (TrimSpace message) "" then "worker api error: " +:+ Itoa status else message in
  writeJSON status (PError (mkErrorResponse "error" message)).
Definition writeCommunicationError (status : Z) (message : string) : RW :=
  let message := if String.eqb (TrimSpace message) "" then "communication api error: " +:+ Itoa status else message in
  writeJSON status (PError (mkErrorResponse "error" message)).

Definition Wrap (auth : Authenticator) (h : handler) : handler := fun env request w s =>
  if negb (AuthenticateRequest auth request)
  then (w ++ SetHeader "WWW-Authenticate" ("ApiKey realm=" +:+ Quote "auren-transfer-agent")
          :: writeCommunicationError 401 "authentication required", None, s)
  else h env request w s.

(** ** health.go, version.go, ready.go, identity.go *)
Definition NewHealthResponse (info : VersionInfo) : HealthResponse :=
  mkHealthResponse "ok" (v_Name info) (v_Version info) (v_Status info) RouterKindName.
Definition NewVersionResponse (info : VersionInfo) : VersionResponse :=
  mkVersionResponse (v_Name info) (v_Version info) (v_Status info) RouterKindName.
Definition NewReadyResponse (info : VersionInfo) : ReadyResponse :=
  mkReadyResponse "ready" true (v_Name info) (v_Version info) (v_Status info) RouterKindName.
Definition NewIdentityResponse (info : VersionInfo) (snapshot : IdentitySnapshot) : IdentityResponse :=
  mkIdentityResponse "ok" (v_Name info) (v_Version info) (v_Status info) RouterKindName (id_AgentID snapshot)
    (id_Fingerprint snapshot) (id_FingerprintAlgorithm snapshot) (id_Hostname snapshot) (id_HostnameSource snapshot)
    (id_Persistence snapshot) (id_StoreSource snapshot) (id_StorePath snapshot).
Definition FoundationRoutes (info : VersionInfo) (snapshot : IdentitySnapshot) : routes :=
  [mkRouteDefinition "health" "GET" "/health" (Some (writes (writeJSON 200 (PHealth (NewHealthResponse info)))));
   mkRouteDefinition "version" "GET" "/version" (Some (writes (writeJSON 200 (PVersion (NewVersionResponse info)))));
   mkRouteDefinition "ready" "GET" "/ready" (Some (writes (writeJSON 200 (PReady (NewReadyResponse info)))));
   mkRouteDefinition "identity" "GET" "/identity" (Some (writes (writeJSON 200 (PIdentity (NewIdentityResponse info snapshot)))))].

(** ** worker_api.go *)
Record WorkerAPIOptions := mkWorkerAPIOptions {
  wo_Info : VersionInfo; wo_Heartbeat : HeartbeatRecord; wo_Driver : string; wo_Persister : option Persistence.FileStore
}.
Definition normalizedWorkerDriver (driver : string) : string :=
  if String.eqb (TrimSpace driver) "" then "memory" else TrimSpace driver.
Definition workerQueueStats (options : WorkerAPIOptions) (queue : option Adapters.ClusterQueue) : WorkerQueueStats :=
  match queue with
  | Some q => mkWorkerQueueStats (normalizedWorkerDriver (wo_Driver options)) (Memory.Len (Adapters.embedded q)) (Memory.Capacity (Adapters.embedded q))
  | None => mkWorkerQueueStats (normalizedWorkerDriver (wo_Driver options)) 0 0
  end.
Fixpoint findQueuedJob (jobs : list Job) (id : string) : Job :=
  match jobs with
  | [] => zero_job
  | job :: jobs => if String.eqb (ID job) id then Clone job else findQueuedJob jobs id
  end.

Definition WorkerHandler (options : WorkerAPIOptions) : handler := fun env _ w s =>
  (w ++ writeJSON 200 (PWorker (mkWorkerResponse "ok" (v_Name (wo_Info options)) (v_Version (wo_Info options)) (v_Status (wo_Info options))
     RouterKindName (wo_Heartbeat options) (workerQueueStats options (sv_queue s)) (se_generated env))), None, s).
Definition WorkerJobsHandler (options : WorkerAPIOptions) : handler := fun _ _ w s =>
  match sv_queue s with
  | None => (w ++ writeWorkerError 503 "worker queue is unavailable", None, s)
  | Some q => (w ++ writeJSON 200 (PWorkerJobs (mkWorkerJobsResponse "ok" (workerQueueStats options (Some q))
                 (map Clone (Memory.Snapshot (Adapters.embedded q))))), None, s)
  end.

Definition job_input (input : CreateJobRequest) : JobInput :=
  mkJobInput (cr_ID input) (cr_ExternalID input) (cr_Type input) (cr_Priority input) (cr_MaxAttempts input) (cr_SourceURL input)
    (cr_DestinationKey input) (cr_Headers input) (cr_Metadata input) zero_time.
(** The handler of a submission in the steps other requests can come between: the job is decoded
    and enqueued, the queue is copied, the copy is saved, and the answer is written from the queue
    as it is then. *)
Definition receive_job (env : ServerEnv) (request : Request) (q : Adapters.ClusterQueue) : (RW + Job) * Adapters.ClusterQueue :=
  match decode_job (limited (rq_Body request)) with
  | Err _ => (inl (writeWorkerError 400 "invalid job payload"), q)
  | Ok input =>
    match NewJob (job_input input) (se_entropy env) (se_now env) with
    | Err e => (inl (writeWorkerError 400 (Error e)), q)
    | Ok job =>
      match Memory.Enqueue (se_ctx env) (se_enqueued env) job (Adapters.embedded q) with
      | (Some e, embedded) => (inl (writeWorkerError (if errors_Is e ErrQueueFull then 429 else 409) (Error e)), on_embedded embedded q)
      | (None, embedded) => (inr job, on_embedded embedded q)
      end
    end
  end.
Definition queue_snapshot (q : Adapters.ClusterQueue) : list Job := Memory.Snapshot (Adapters.embedded q).
Definition save_queue (options : WorkerAPIOptions) (env : ServerEnv) (snapshot : list Job) (fs : FS)
  : result (option Persistence.StoreResult) * FS :=
  match wo_Persister options with
  | None => (Ok None, fs)
  | Some store =>
    let '(saved, states) := Persistence.Save marshal_queue store (se_ctx env) (normalizedWorkerDriver (wo_Driver options)) snapshot
                              (se_saved env) (se_faults env) (se_tmp env) fs in
    (match saved with Err e => Err e | Ok result => Ok (Some result) end, final_fs fs states)
  end.
Definition answer_job (options : WorkerAPIOptions) (job : Job) (saved : result (option Persistence.StoreResult)) (q : Adapters.ClusterQueue) : RW :=
  match saved with
  | Err e => writeWorkerError 500 (Error e)
  | Ok persistence =>
    writeJSON 202 (PCreateJob (mkCreateJobResponse "ok" true (findQueuedJob (queue_snapshot q) (ID job))
      (workerQueueStats options (Some q)) persistence))
  end.
Definition CreateWorkerJobHandler (options : WorkerAPIOptions) : handler := fun env request w s =>
  match sv_queue s with
  | None => (w ++ writeWorkerError 503 "worker queue is unavailable", None, s)
  | Some q =>
    match receive_job env request q with
    | (inl out, q) => (w ++ out, None, set_queue q s)
    | (inr job, q) =>
      let '(saved, fs) := save_queue options env (queue_snapshot q) (sv_fs s) in
      (w ++ answer_job options job saved q, None, set_files fs (set_queue q s))
    end
  end.
Definition WorkerRoutesWithAuth (options : WorkerAPIOptions) (auth : Authenticator) : routes :=
  [mkRouteDefinition "worker.status" "GET" "/worker" (Some (Wrap auth (WorkerHandler options)));
   mkRouteDefinition "worker.jobs.index" "GET" "/worker/jobs" (Some (Wrap auth (WorkerJobsHandler options)));
   mkRouteDefinition "worker.jobs.create" "POST" "/worker/jobs" (Some (Wrap auth (CreateWorkerJobHandler options)))].

(** ** communication.go *)
Record CommunicationOptions := mkCommunicationOptions {
  co_Info : VersionInfo; co_Identity : IdentitySnapshot; co_Heartbeat : HeartbeatRecord; co_Authenticator : Authenticator
}.
Definition CommunicationCapabilities : list string :=
  sort_Strings ["rest_api"; "websocket_handshake"; "registration"; "heartbeat"; "api_key_auth"].
Definition CommunicationRoutePatterns : list string :=
  sort_Strings ["/api/v1"; "/api/v1/ws"; "/api/v1/registration"; "/api/v1/heartbeat"].
Definition RESTStatusHandler (options : CommunicationOptions) : handler := fun env _ w s =>
  let info := co_Info options in
  (w ++ writeJSON 200 (PREST (mkRESTStatusResponse "ok" (v_Name info) (v_Version info) (v_Status info) RouterKindName true true true true
     (Mode (co_Authenticator options)) CommunicationRoutePatterns (se_generated env))), None, s).
Definition WebSocketHandler (options : CommunicationOptions) : handler := fun _ request w s =>
  if negb (isWebSocketUpgrade request)
  then (w ++ SetHeader "Upgrade" "websocket" :: writeCommunicationError 426 "websocket upgrade required", None, s) else
  let key := TrimSpace (header_get "Sec-WebSocket-Key" (rq_Header request)) in
  if String.eqb key "" then (w ++ writeCommunicationError 400 "sec-websocket-key is required", None, s) else
  (w ++ [SetHeader "Upgrade" "websocket"; SetHeader "Connection" "Upgrade"; SetHeader "Sec-WebSocket-Accept" (WebSocketAcceptKey key);
         SetHeader "X-Auren-Agent-ID" (id_AgentID (co_Identity options)); WriteHeader 101], None, s).
Definition RegistrationHandler (options : CommunicationOptions) : handler := fun env request w s =>
  match (if rq_ContentLength request =? 0 then Ok (mkRegistrationRequest "" ∅ ∅) else decode_registration (limited (rq_Body request))) with
  | Err _ => (w ++ writeCommunicationError 400 "invalid registration payload", None, s)
  | Ok input =>
      (w ++ writeJSON 202 (PRegistration (mkRegistrationResponse "ok" true (TrimSpace (rg_Controller input)) (co_Identity options)
         (co_Info options) (co_Heartbeat options) CommunicationCapabilities (rg_Labels input) (rg_Metadata input) (se_generated env))), None, s)
  end.
Definition CommunicationHeartbeatHandler (options : CommunicationOptions) (accepted : bool) : handler := fun env _ w s =>
  (w ++ writeJSON (if accepted then 202 else 200) (PHeartbeat (mkHeartbeatResponse "ok" accepted (co_Heartbeat options) (se_generated env))), None, s).
Definition CommunicationRoutes (options : CommunicationOptions) : routes :=
  let auth := co_Authenticator options in
  [mkRouteDefinition "communication.rest" "GET" "/api/v1" (Some (Wrap auth (RESTStatusHandler options)));
   mkRouteDefinition "communication.websocket" "GET" "/api/v1/ws" (Some (Wrap auth (WebSocketHandler options)));
   mkRouteDefinition "communication.registration" "POST" "/api/v1/registration" (Some (Wrap auth (RegistrationHandler options)));
   mkRouteDefinition "communication.heartbeat.show" "GET" "/api/v1/heartbeat" (Some (Wrap auth (CommunicationHeartbeatHandler options false)));
   mkRouteDefinition "communication.heartbeat.store" "POST" "/api/v1/heartbeat" (Some (Wrap auth (CommunicationHeartbeatHandler options true)))].

(** ** telemetry.go *)
Definition queue_info (s : ServerState) : Adapters.Info :=
  match sv_queue s with Some q => Adapters.Info_ q | None => Adapters.mkInfo "" "" "" "" "" 0 0 end.
Definition MetricsAPIHandler (info : VersionInfo) (heartbeat : HeartbeatRecord) : handler := fun env _ w s =>
  (w ++ writeJSON 200 (PMetrics (mkMetricsResponse "ok" info heartbeat (queue_info s) (MetricsSummary (sv_downloads s)) (se_generated env))), None, s).
(** A listing, with no records when there is no recorder. *)
Definition listing {R} (recorder : option (Recorder R)) (generated : Time) : ListResponse R :=
  let records := match recorder with Some r => RecorderSnapshot r | None => [] end in
  mkListResponse "ok" (zlen records) records generated.
Definition EventsListHandler (info : VersionInfo) : handler := fun env _ w s =>
  (w ++ writeJSON 200 (PEvents info (listing (sv_events s) (se_generated env))), None, s).
Definition EventsStoreHandler : handler := fun env request w s =>
  match decode_event (limited (rq_Body request)) with
  | Err _ => (w ++ writeCommunicationError 400 "invalid event payload", None, s)
  | Ok input =>
    match sv_events s with
    | None => (w ++ writeCommunicationError 503 "event recorder unavailable", None, s)
    | Some recorder =>
      match EventRecorder_Record input (se_now env) (se_now env) recorder with
      | (Err e, recorder) => (w ++ writeCommunicationError 400 (Error e), None, set_events recorder s)
      | (Ok event, recorder) =>
          (w ++ writeJSON 202 (PEvent event true (FormatRFC3339Nano (se_generated env))), None, set_events recorder s)
      end
    end
  end.
Definition TelemetryRoutes (info : VersionInfo) (heartbeat : HeartbeatRecord) (auth : Authenticator) : routes :=
  [mkRouteDefinition "communication.metrics" "GET" "/api/v1/metrics" (Some (Wrap auth (MetricsAPIHandler info heartbeat)));
   mkRouteDefinition "communication.events.list" "GET" "/api/v1/events" (Some (Wrap auth (EventsListHandler info)));
   mkRouteDefinition "communication.events.store" "POST" "/api/v1/events" (Some (Wrap auth EventsStoreHandler))].

(** ** observability.go *)
Record ObservabilityOptions := mkObservabilityOptions {
  ob_Info : VersionInfo; ob_Heartbeat : HeartbeatRecord; ob_PrometheusPath : string; ob_Authenticator : Authenticator
}.
Definition count_of {R} (recorder : option (Recorder R)) : Z := match recorder with Some r => RecorderCount r | None => 0 end.
Definition buildObservabilitySnapshot (options : ObservabilityOptions) (env : ServerEnv) (s : ServerState) : SnapshotInput :=
  let build alerts := mkSnapshotInput (ob_Info options) (ob_Heartbeat options) (queue_info s) (MetricsSummary (sv_downloads s))
    (count_of (sv_events s)) (count_of (sv_audit s)) (count_of (sv_traces s)) alerts (count_of (sv_logs s)) (se_generated env) in
  build (zlen (EvaluateAlerts (build 0) (se_generated env))).
Definition PrometheusHandler (options : ObservabilityOptions) : handler := fun env _ w s =>
  (w ++ [SetHeader "Content-Type" "text/plain; version=0.0.4; charset=utf-8"; WriteHeader 200;
         Write (Prometheus (buildObservabilitySnapshot options env s) (se_generated env))], None, s).
Definition ObservabilityDashboardHandler (options : ObservabilityOptions) : handler := fun env _ w s =>
  let dashboard := NewDashboard (buildObservabilitySnapshot options env s) (se_generated env) in
  (w ++ writeJSON 200 (PDashboard dashboard (db_GeneratedAt dashboard)), None, s).
Definition AlertsHandler (options : ObservabilityOptions) : handler := fun env _ w s =>
  let alerts := EvaluateAlerts (buildObservabilitySnapshot options env s) (se_generated env) in
  (w ++ writeJSON 200 (PAlerts (mkListResponse "ok" (zlen alerts) alerts (se_generated env))), None, s).
(** The three handlers that store a record: traces, audit events and logs. *)
Definition store_handler {I R} (record : I -> Time -> Time -> Recorder R -> result R * Recorder R) (decode : string -> result I) (missing : string)
  (get : ServerState -> option (Recorder R)) (set : Recorder R -> ServerState -> ServerState) (answer : StoreResponse R -> payload)
  : handler := fun env request w s =>
  match get s with
  | None => (w ++ writeCommunicationError 503 missing, None, s)
  | Some recorder =>
    match decode (limited (rq_Body request)) with
    | Err e => (w ++ writeCommunicationError 400 (Error e), None, s)
    | Ok input =>
      match record input (se_now env) (se_now env) recorder with
      | (Err e, recorder) => (w ++ writeCommunicationError 400 (Error e), None, set recorder s)
      | (Ok entry, recorder) =>
          (w ++ writeJSON 202 (answer (mkStoreResponse "ok" (RecorderCount recorder) entry (se_generated env))), None, set recorder s)
      end
    end
  end.
Definition TracesListHandler : handler := fun env _ w s => (w ++ writeJSON 200 (PSpans (listing (sv_traces s) (se_generated env))), None, s).
Definition AuditListHandler : handler := fun env _ w s => (w ++ writeJSON 200 (PAudits (listing (sv_audit s) (se_generated env))), None, s).
Definition CentralLogsListHandler : handler := fun env _ w s => (w ++ writeJSON 200 (PLogs (listing (sv_logs s) (se_generated env))), None, s).
Definition TracesStoreHandler : handler := store_handler TraceRecorder_Record decode_span "trace recorder unavailable" sv_traces set_traces PSpan.
Definition AuditStoreHandler : handler := store_handler AuditRecorder_Record decode_audit "audit recorder unavailable" sv_audit set_audit PAudit.
Definition CentralLogsStoreHandler : handler := store_handler CentralLogSink_Record decode_log "central log sink unavailable" sv_logs set_logs PLog.

Definition prometheus_path (configured : string) : string :=
  let p := TrimSpace configured in
  let p := if String.eqb p "" then "/metrics" else p in
  if HasPrefix p "/" then p else "/" +:+ p.
Definition ObservabilityRoutes (options : ObservabilityOptions) : routes :=
  let auth := ob_Authenticator options in
  [mkRouteDefinition "observability.prometheus" "GET" (prometheus_path (ob_PrometheusPath options)) (Some (Wrap auth (PrometheusHandler options)));
   mkRouteDefinition "observability.dashboard" "GET" "/api/v1/observability" (Some (Wrap auth (ObservabilityDashboardHandler options)));
   mkRouteDefinition "observability.grafana.dashboard" "GET" "/api/v1/observability/grafana/dashboard" (Some (Wrap auth (writes (writeJSON 200 PGrafana))));
   mkRouteDefinition "observability.traces.list" "GET" "/api/v1/observability/traces" (Some (Wrap auth TracesListHandler));
   mkRouteDefinition "observability.traces.store" "POST" "/api/v1/observability/traces" (Some (Wrap auth TracesStoreHandler));
   mkRouteDefinition "observability.audit.list" "GET" "/api/v1/observability/audit" (Some (Wrap auth AuditListHandler));
   mkRouteDefinition "observability.audit.store" "POST" "/api/v1/observability/audit" (Some (Wrap auth AuditStoreHandler));
   mkRouteDefinition "observability.alerts" "GET" "/api/v1/observability/alerts" (Some (Wrap auth (AlertsHandler options)));
   mkRouteDefinition "observability.logs.list" "GET" "/api/v1/observability/logs" (Some (Wrap auth CentralLogsListHandler));
   mkRouteDefinition "observability.logs.store" "POST" "/api/v1/observability/logs" (Some (Wrap auth CentralLogsStoreHandler))].

(** ** All routes: bootstrap.go

    The console and the gateway bring their own routes, [extra]. *)
Record AgentRoutesInput := mkAgentRoutesInput {
  ar_info : VersionInfo; ar_identity : IdentitySnapshot; ar_heartbeat : HeartbeatRecord; ar_driver : string;
  ar_store : Persistence.FileStore; ar_metrics_path : string; ar_auth : Authenticator; ar_extra : routes
}.
Definition protected_routes (a : AgentRoutesInput) : routes :=
  WorkerRoutesWithAuth (mkWorkerAPIOptions (ar_info a) (ar_heartbeat a) (ar_driver a) (Some (ar_store a))) (ar_auth a) ++
  CommunicationRoutes (mkCommunicationOptions (ar_info a) (ar_identity a) (ar_heartbeat a) (ar_auth a)) ++
  TelemetryRoutes (ar_info a) (ar_heartbeat a) (ar_auth a) ++
  ObservabilityRoutes (mkObservabilityOptions (ar_info a) (ar_heartbeat a) (ar_metrics_path a) (ar_auth a)).
Definition agent_routes (a : AgentRoutesInput) : routes :=
  FoundationRoutes (ar_info a) (ar_identity a) ++ protected_routes a ++ ar_extra a.

(** ** Nothing is served without the key *)
Lemma protected_wrapped a : Forall (fun d => exists h, rd_Handler d = Some (Wrap (ar_auth a) h)) (protected_routes a).
Proof. unfold protected_routes. repeat (apply Forall_app; split); repeat (apply Forall_cons; split); try apply Forall_nil_2; eexists; reflexivity. Qed.

Definition refusal : RW :=
  SetHeader "WWW-Authenticate" ("ApiKey realm=" +:+ Quote "auren-transfer-agent") :: writeCommunicationError 401 "authentication required".
Definition public_paths : list string := ["/health"; "/version"; "/ready"; "/identity"].

Lemma exact_pattern pattern path : HasSuffix pattern "/*" = false -> pattern <> "" -> pathMatches pattern path = true -> path = pattern.
Proof.
  unfold pathMatches. intros H1 H2. rewrite (proj2 (String.eqb_neq _ _) H2), H1. destruct (String.eqb_spec pattern path); done.
Qed.

(** C8: with authentication required, a request without the key is answered by a refusal, by
    404 or by 405 and changes nothing, unless it asks for one of the four public documents
    or for a path of the console or the gateway, which bring their own rules. *)
Theorem unauthenticated_changes_nothing a registry log chain mux env request w s :
  NewRouteRegistry (agent_routes a) = Ok registry -> BuildRouter log false false chain registry = Ok mux ->
  AuthenticateRequest (ar_auth a) request = false ->
  Forall (fun d => pathMatches (NormalizePattern (rd_Pattern d)) (rq_Path request) = false) (ar_extra a) ->
  exists out, dispatch mux env request w s = (w ++ out, None, s) /\
    (out = refusal \/ rs_Status (response out) = 404 \/ rs_Status (response out) = 405 \/
     (rq_Path request ∈ public_paths /\ rs_Status (response out) = 200)).
Proof.
  intros (HF & HN & _)%route_registry_invariant HB HA HX.
  destruct (BuildRouter_shape _ _ _ _ _ _ HN HB) as (_ & _ & HR & _ & H404 & H405).
  rewrite dispatch_spec, HR, H404, H405. destruct (List.find _ _) as [r|] eqn:EF.
  - apply find_some in EF as [HI HS]. apply in_map_iff in HI as (x & <- & Hx%list_elem_of_In).
    apply list_elem_of_lookup in Hx as (i & Hi). destruct (Forall2_lookup_r _ _ _ _ _ HF Hi) as (o & Ho & HO).
    apply list_elem_of_lookup_2 in Ho. apply NormalizeRouteDefinition_Ok in HO as (_ & _ & Xp & Xh).
    apply andb_true_iff in HS as [HP _]. unfold serves_path in HP. cbn [to_route rt_pattern rt_handler] in *. rewrite Xp in HP. rewrite Xh.
    unfold agent_routes in Ho. rewrite !elem_of_app in Ho. destruct Ho as [Ho|[Ho|Ho]].
    + unfold FoundationRoutes in Ho. rewrite !elem_of_cons, elem_of_nil in Ho.
      destruct Ho as [->|[->|[->|[->|[]]]]]; eexists; (split; [reflexivity|]); right; right; right;
        (split; [apply exact_pattern in HP; [rewrite HP; apply (bool_decide_unpack _); vm_compute; exact I|vm_compute; reflexivity|vm_compute; discriminate]|]);
        unfold writeJSON; reflexivity.
    + pose proof (protected_wrapped a) as HW. rewrite Forall_forall in HW. destruct (HW o Ho) as [h ->]. exists refusal.
      split; [|by left]. change (Wrap (ar_auth a) h env request w s = (w ++ refusal, None, s)). unfold Wrap. by rewrite HA.
    + rewrite Forall_forall in HX. by rewrite (HX o Ho) in HP.
  - destruct (existsb _ _); eexists; (split; [reflexivity|]); right; [right|]; left; reflexivity.
Qed.

(** ** Submitted jobs are queued and on disk *)
Lemma NewJob_accepted input entropy clock job : NewJob input entropy clock = Ok job -> enqueue_guard None job = None.
Proof.
  unfold NewJob. intros (jid & _ & ([] & HV & [= <-])%bind_Ok)%bind_Ok. unfold enqueue_guard. by rewrite HV.
Qed.

Lemma on_embedded_id q : on_embedded (Adapters.embedded q) q = q.
Proof. by destruct q. Qed.
Lemma embedded_on mq q : Adapters.embedded (on_embedded mq q) = mq.
Proof. by destruct q. Qed.
Lemma set_queue_id q s : sv_queue s = Some q -> set_queue q s = s.
Proof. destruct s; cbn. by intros ->. Qed.

Lemma status_writeJSON status p : rs_Status (response (writeJSON status p)) = status.
Proof. unfold writeJSON. by destruct (encode p). Qed.
Lemma status_writeWorkerError status message : rs_Status (response (writeWorkerError status message)) = status.
Proof. apply status_writeJSON. Qed.

(** *** Submissions side by side

    Handlers run at the same time.  Queue operations hold the lock of the queue and a save
    replaces the file at once, but nothing keeps the steps of two submissions apart, nor those of
    the workers that take jobs and put failed ones back.  [dk_accepted] lists what the queue has
    accepted, [dk_taken] counts what was taken from it; a copy of the queue is known by the two
    at its time, [dk_saved] is the copy the file holds, and [dk_stale] tells that an older copy
    has replaced a newer one. *)
Definition mark : Type := nat * nat.
Inductive stage :=
| SQueued (k : nat) (job : Job)
| SCopied (k : nat) (job : Job) (at_ : mark) (snapshot : list Job)
| SSaved (k : nat) (job : Job) (saved : result (option Persistence.StoreResult))
| SAnswered (out : RW) (k : option nat).
Record desk := mkDesk {
  dk_queue : Adapters.ClusterQueue; dk_fs : FS; dk_requests : gmap nat (ServerEnv * Request * stage);
  dk_accepted : list Job; dk_taken : nat; dk_saved : option mark; dk_stale : bool
}.
Definition opened (q : Adapters.ClusterQueue) (fs : FS) : desk := mkDesk q fs ∅ (Memory.jobs (Adapters.embedded q)) 0 None false.

Inductive desk_label :=
| Submit (i : nat) (env : ServerEnv) (request : Request)
| Copy (i : nat) | SaveCopy (i : nat) | Reply (i : nat)
| Take
| PutBack (now : Time) (job : Job).

(** The jobs a queue operation has added. *)
Definition added (q q' : Adapters.ClusterQueue) : list Job :=
  drop (length (Memory.jobs (Adapters.embedded q))) (Memory.jobs (Adapters.embedded q')).
Definition set_stage (i : nat) (env : ServerEnv) (request : Request) (st : stage) (s : desk) : desk :=
  mkDesk (dk_queue s) (dk_fs s) (<[i := (env, request, st)]> (dk_requests s)) (dk_accepted s) (dk_taken s) (dk_saved s) (dk_stale s).
Definition grown (q' : Adapters.ClusterQueue) (s : desk) : desk :=
  mkDesk q' (dk_fs s) (dk_requests s) (dk_accepted s ++ added (dk_queue s) q') (dk_taken s) (dk_saved s) (dk_stale s).
Definition older (a b : mark) : bool := (a.1 <? b.1)%nat.

(** [os.CreateTemp] chooses a name no file has. *)
Definition fresh_tmp (options : WorkerAPIOptions) (env : ServerEnv) (fs : FS) : bool :=
  match wo_Persister options with
  | None => true
  | Some store => bool_decide (fs !! se_tmp env = None /\ se_tmp env <> Persistence.path store)
  end.

Definition act_desk (options : WorkerAPIOptions) (l : desk_label) (s : desk) : option desk :=
  match l with
  | Submit i env request =>
    if bool_decide (dk_requests s !! i <> None) then None else
    match receive_job env request (dk_queue s) with
    | (inl out, q) => Some (set_stage i env request (SAnswered out None) (grown q s))
    | (inr job, q) => Some (set_stage i env request (SQueued (length (dk_accepted s)) job) (grown q s))
    end
  | Copy i =>
    match dk_requests s !! i with
    | Some (env, request, SQueued k job) =>
      Some (set_stage i env request (SCopied k job (length (dk_accepted s), dk_taken s) (queue_snapshot (dk_queue s))) s)
    | _ => None
    end
  | SaveCopy i =>
    match dk_requests s !! i with
    | Some (env, request, SCopied k job at_ snapshot) =>
      if negb (fresh_tmp options env (dk_fs s)) then None else
      let '(saved, fs) := save_queue options env snapshot (dk_fs s) in
      let s := mkDesk (dk_queue s) fs (dk_requests s) (dk_accepted s) (dk_taken s)
                 (if is_ok saved then Some at_ else dk_saved s)
                 (dk_stale s || is_ok saved && match dk_saved s with Some newer => older at_ newer | None => false end) in
      Some (set_stage i env request (SSaved k job saved) s)
    | _ => None
    end
  | Reply i =>
    match dk_requests s !! i with
    | Some (env, request, SSaved k job saved) =>
      Some (set_stage i env request (SAnswered (answer_job options job saved (dk_queue s)) (Some k)) s)
    | _ => None
    end
  | Take =>
    match Memory.Dequeue None (Adapters.embedded (dk_queue s)) with
    | (Ok (Some _), embedded) =>
      Some (mkDesk (on_embedded embedded (dk_queue s)) (dk_fs s) (dk_requests s) (dk_accepted s) (S (dk_taken s)) (dk_saved s) (dk_stale s))
    | _ => None
    end
  | PutBack now job =>
    let '(_, embedded) := Memory.Enqueue None now job (Adapters.embedded (dk_queue s)) in
    Some (grown (on_embedded embedded (dk_queue s)) s)
  end.
Fixpoint run_desk (options : WorkerAPIOptions) (ls : list desk_label) (s : desk) : option desk :=
  match ls with [] => Some s | l :: rest => s ← act_desk options l s; run_desk options rest s end.

(** The handler is these steps one after the other. *)
Lemma handler_is_steps options env request q fs s out s' :
  sv_queue s = Some q -> sv_fs s = fs -> fresh_tmp options env fs = true ->
  CreateWorkerJobHandler options env request [] s = (out, None, s') ->
  exists ls d k, run_desk options ls (opened q fs) = Some d /\ dk_requests d !! 0%nat = Some (env, request, SAnswered out k) /\
    sv_queue s' = Some (dk_queue d) /\ sv_fs s' = dk_fs d.
Proof.
  intros Hq <- Ht. unfold CreateWorkerJobHandler. rewrite Hq.
  assert (forall l st, act_desk options l (opened q (sv_fs s)) = Some st -> forall ls d, run_desk options ls st = Some d ->
    run_desk options (l :: ls) (opened q (sv_fs s)) = Some d) as Hstep by (intros l st E ls d E'; cbn [run_desk]; by rewrite E).
  assert (act_desk options (Submit 0 env request) (opened q (sv_fs s)) =
    match receive_job env request q with
    | (inl out, q') => Some (set_stage 0 env request (SAnswered out None) (grown q' (opened q (sv_fs s))))
    | (inr job, q') => Some (set_stage 0 env request (SQueued (length (Memory.jobs (Adapters.embedded q))) job) (grown q' (opened q (sv_fs s))))
    end) as HS by reflexivity.
  destruct (receive_job env request q) as [[out'|job] q'].
  - intros [= <- <-]. eexists [Submit 0 env request], _, None. split; [by eapply Hstep|]. split; [apply lookup_insert_eq|]. by destruct s.
  - destruct (save_queue options env (queue_snapshot q') (sv_fs s)) as [saved fs'] eqn:ES. intros [= <- <-].
    eexists [Submit 0 env request; Copy 0; SaveCopy 0; Reply 0], _, _. split; [eapply Hstep; [exact HS|]|split].
    + cbn [run_desk act_desk set_stage dk_requests]. rewrite lookup_insert_eq. cbn [mbind option_bind].
      cbn [run_desk act_desk set_stage dk_requests dk_fs dk_queue grown opened]. rewrite lookup_insert_eq, Ht. cbn [negb]. rewrite ES.
      cbn [mbind option_bind run_desk act_desk set_stage dk_requests]. rewrite lookup_insert_eq. reflexivity.
    + apply lookup_insert_eq.
    + by destruct s.
Qed.

Lemma Enqueue_appends ctx clock job mq :
  match Memory.Enqueue ctx clock job mq with
  | (Some _, mq') => mq' = mq
  | (None, mq') => exists queued, Memory.jobs mq' = Memory.jobs mq ++ [queued] /\ ID queued = ID job /\ Status queued = JobStatusQueued
  end.
Proof.
  unfold Memory.Enqueue. destruct ctx; [done|]. destruct (ValidateJob job); [|done]. destruct (_ && _); [done|].
  unfold WithStatus. set (updated := set_UpdatedAt _ _). destruct (ValidateJob updated); cbn [mbind result_bind]; [|done].
  destruct (Memory.closed mq); [done|]. destruct (_ <=? _); [done|]. exists (Clone updated). by destruct job.
Qed.

Section Durable.
Context (unmarshal_queue : string -> result Persistence.Snapshot) (options : WorkerAPIOptions) (store : Persistence.FileStore).
Hypothesis Hstore : wo_Persister options = Some store.
(* encoding/json reads the queue document back as it was written *)
Hypothesis Hcodec : forall snapshot content, marshal_queue snapshot = Ok content -> unmarshal_queue (content +:+ newline) = Ok snapshot.

(** What a copy of the queue holds, and what the submission [k] has of its own. *)
Definition copied_jobs (s : desk) (at_ : mark) : list Job := map Clone (drop at_.2 (take at_.1 (dk_accepted s))).
Definition within (s : desk) (at_ : mark) : Prop := (at_.1 <= length (dk_accepted s) /\ at_.2 <= dk_taken s)%nat.
Definition entry (s : desk) (env : ServerEnv) (request : Request) (k : nat) (job : Job) : Prop :=
  exists input queued, decode_job (limited (rq_Body request)) = Ok input /\ NewJob (job_input input) (se_entropy env) (se_now env) = Ok job /\
    dk_accepted s !! k = Some queued /\ ID queued = ID job /\ Status queued = JobStatusQueued.
Definition covered (s : desk) (k : nat) : Prop := dk_stale s = false -> exists at_, dk_saved s = Some at_ /\ (k < at_.1)%nat.
Definition stage_ok (s : desk) (env : ServerEnv) (request : Request) (st : stage) : Prop :=
  match st with
  | SQueued k job => entry s env request k job
  | SCopied k job at_ snapshot => entry s env request k job /\ (k < at_.1)%nat /\ within s at_ /\ snapshot = copied_jobs s at_
  | SSaved k job saved => entry s env request k job /\ (is_ok saved = true -> covered s k)
  | SAnswered out None => rs_Status (response out) ∈ [400; 409; 429]
  | SAnswered out (Some k) => (exists job, entry s env request k job) /\
      (rs_Status (response out) = 202 /\ covered s k \/ rs_Status (response out) = 500)
  end.
Definition stage_index (st : stage) : option nat :=
  match st with SQueued k _ | SCopied k _ _ _ | SSaved k _ _ => Some k | SAnswered _ k => k end.

Record desk_ok (s : desk) : Prop := mkDeskOk {
  do_queue : Memory.jobs (Adapters.embedded (dk_queue s)) = drop (dk_taken s) (dk_accepted s) /\ (dk_taken s <= length (dk_accepted s))%nat;
  do_stage : forall i env request st, dk_requests s !! i = Some (env, request, st) -> stage_ok s env request st;
  do_own : forall i j x y k, dk_requests s !! i = Some x -> dk_requests s !! j = Some y ->
    stage_index x.2 = Some k -> stage_index y.2 = Some k -> i = j;
  do_file : forall at_, dk_saved s = Some at_ -> within s at_ /\
    exists snapshot, Persistence.Load unmarshal_queue store None None (dk_fs s) = Ok (Some snapshot) /\ Persistence.Jobs snapshot = copied_jobs s at_
}.

(** Later states of the queue keep what was known of earlier ones. *)
Definition extends (s s' : desk) : Prop :=
  (exists more, dk_accepted s' = dk_accepted s ++ more) /\ (dk_taken s <= dk_taken s')%nat.
Lemma entry_extends s s' env request k job : extends s s' -> entry s env request k job -> entry s' env request k job.
Proof.
  intros [[more E] _] (input & queued & H1 & H2 & H3 & H4). exists input, queued. split_and!; [done|done| |apply H4..].
  rewrite E. by apply lookup_app_l_Some.
Qed.
Lemma within_extends s s' at_ : extends s s' -> within s at_ -> within s' at_ /\ copied_jobs s' at_ = copied_jobs s at_.
Proof.
  intros [[more E] HT] [H1 H2]. split; [split; [rewrite E, length_app|]; lia|]. unfold copied_jobs. by rewrite E, take_app_le by done.
Qed.
Lemma stage_extends s s' env request st : extends s s' -> dk_saved s' = dk_saved s -> dk_stale s' = dk_stale s ->
  stage_ok s env request st -> stage_ok s' env request st.
Proof.
  intros HE HS HT. assert (forall k, covered s k -> covered s' k) as HC by (intros k; unfold covered; by rewrite HS, HT).
  destruct st as [k job|k job at_ snapshot|k job saved|out [k|]]; cbn [stage_ok]; [by apply entry_extends| | | |done].
  - intros (H1 & H2 & H3 & ->). destruct (within_extends _ _ _ HE H3) as [H4 H5]. split; [by eapply entry_extends|]. split; [done|]. split; [exact H4|by symmetry].
  - intros [H1 H2]. split; [by eapply entry_extends|auto].
  - intros [[job H1] H2]. split; [exists job; by eapply entry_extends|]. destruct H2 as [[H2 H3]|H2]; auto.
Qed.

Lemma entry_index s env request st k : stage_ok s env request st -> stage_index st = Some k -> (k < length (dk_accepted s))%nat.
Proof.
  intros H E. assert (exists job, entry s env request k job) as (job & input & queued & _ & _ & HL & _).
  { destruct st as [? job|? job ? ?|? job ?|out [|]]; cbn in *; try discriminate E; injection E as ->; [by exists job|exists job; apply H|exists job; apply H|apply H]. }
  by eapply lookup_lt_Some.
Qed.

(** The steps of the queue alone. *)
Lemma grown_ok s q' : desk_ok s -> (exists more, Memory.jobs (Adapters.embedded q') = Memory.jobs (Adapters.embedded (dk_queue s)) ++ more) ->
  desk_ok (grown q' s) /\ extends s (grown q' s).
Proof.
  intros [[H1 H2] H3 H4 H5] [more E]. assert (added (dk_queue s) q' = more) as EA by (unfold added; rewrite E; apply drop_app_length).
  assert (extends s (grown q' s)) as HE by (split; [by eexists|done]). split; [|done]. split; cbn [grown dk_queue dk_taken dk_accepted dk_requests dk_saved dk_fs].
  - rewrite E, EA, H1, length_app. split; [by rewrite drop_app_le|lia].
  - intros i env request st Hi. eapply stage_extends; [exact HE|done|done|]. by eapply H3.
  - done.
  - intros at_ Ha. destruct (H5 at_ Ha) as (HW & snapshot & HL & HJ). destruct (within_extends _ _ _ HE HW) as [W1 W2].
    split; [done|]. exists snapshot. split; [done|]. by rewrite W2.
Qed.

Lemma set_stage_ok s i env request st : desk_ok s -> stage_ok s env request st ->
  (forall j x k, dk_requests s !! j = Some x -> stage_index x.2 = Some k -> stage_index st = Some k -> j = i) ->
  desk_ok (set_stage i env request st s).
Proof.
  intros [H1 H3 H4 H5] HS HI. split; cbn [set_stage dk_queue dk_taken dk_accepted dk_requests dk_saved dk_fs]; [done| | |done].
  - intros j env' request' st' [[<- [= <- <- <-]]|[_ Hj]]%lookup_insert_Some; [exact HS|exact (H3 _ _ _ _ Hj)].
  - intros j j' x y k [[<- <-]|[N1 E1]]%lookup_insert_Some [[<- <-]|[N2 E2]]%lookup_insert_Some Hx Hy; cbn [snd] in *;
      [done|symmetry; by eapply HI|by eapply HI|by eapply H4].
Qed.

Lemma receive_job_spec env request q :
  match receive_job env request q with
  | (inl out, q') => q' = q /\ rs_Status (response out) ∈ [400; 409; 429]
  | (inr job, q') => exists input queued, decode_job (limited (rq_Body request)) = Ok input /\
      NewJob (job_input input) (se_entropy env) (se_now env) = Ok job /\
      Memory.jobs (Adapters.embedded q') = Memory.jobs (Adapters.embedded q) ++ [queued] /\ ID queued = ID job /\ Status queued = JobStatusQueued
  end.
Proof.
  unfold receive_job. destruct (decode_job _) as [input|] eqn:ED; [|rewrite status_writeWorkerError; split; [done|by left]].
  destruct (NewJob _ _ _) as [job|] eqn:EN; [|rewrite status_writeWorkerError; split; [done|by left]].
  pose proof (Enqueue_appends (se_ctx env) (se_enqueued env) job (Adapters.embedded q)) as H.
  destruct (Memory.Enqueue _ _ _ _) as [[e|] mq].
  - rewrite H, on_embedded_id, status_writeWorkerError. split; [done|]. destruct (errors_Is e ErrQueueFull); apply (bool_decide_unpack _); vm_compute; exact I.
  - destruct H as (queued & H1 & H2 & H3). exists input, queued. rewrite embedded_on. by split_and!.
Qed.

Lemma save_queue_spec env snapshot fs : fresh_tmp options env fs = true ->
  match save_queue options env snapshot fs with
  | (Err _, fs') => fs' = fs
  | (Ok _, fs') => exists saved, Persistence.Load unmarshal_queue store None None fs' = Ok (Some saved) /\ Persistence.Jobs saved = map Clone snapshot
  end.
Proof.
  unfold fresh_tmp, save_queue. rewrite Hstore. intros [HF HN]%bool_decide_eq_true.
  destruct (Persistence.Save _ _ _ _ _ _ _ _ _) as [[r|e] states] eqn:ES; [|by eapply Persistence.save_error_keeps].
  destruct (se_ctx env) as [c|]; [done|].
  destruct (Persistence.save_then_load marshal_queue unmarshal_queue _ _ _ _ _ _ _ _ _ ES HN HF) as [HL _]; [intros content; apply Hcodec|].
  eexists. split; [exact HL|]. reflexivity.
Qed.

Lemma submit_ok s i env request s' : desk_ok s -> act_desk options (Submit i env request) s = Some s' -> desk_ok s'.
Proof.
  intros HS. cbn [act_desk]. case_bool_decide as HD; [done|]. pose proof (receive_job_spec env request (dk_queue s)) as HR.
  assert (dk_requests s !! i = None) as HN by (destruct (dk_requests s !! i); [by destruct HD|done]).
  destruct (receive_job env request (dk_queue s)) as [[out|job] q'].
  - destruct HR as [-> HO]. intros [= <-]. destruct (grown_ok s (dk_queue s) HS) as [HG _]; [exists []; by rewrite app_nil_r|].
    apply set_stage_ok; [done|done|]. done.
  - destruct HR as (input & queued & H1 & H2 & H3 & H4 & H5). intros [= <-].
    destruct (grown_ok s q' HS) as [HG HE]; [by eexists|]. apply set_stage_ok; [done| |].
    + exists input, queued. split_and!; [done|done| |done|done]. cbn [grown dk_accepted]. unfold added. rewrite H3, drop_app_length.
      by rewrite lookup_app_r, Nat.sub_diag by lia.
    + intros j [[env' request'] st] k Hj Hk Hi. cbn [snd stage_index] in *. injection Hi as <-. cbn [grown dk_requests] in Hj.
      pose proof (do_stage s HS _ _ _ _ Hj) as HSt. pose proof (entry_index _ _ _ _ _ HSt Hk). lia.
Qed.

(** A request that goes on keeps its entry. *)
Lemma advance_ok s i env request st st' : desk_ok s -> dk_requests s !! i = Some (env, request, st) ->
  stage_index st' = stage_index st -> stage_ok s env request st' -> desk_ok (set_stage i env request st' s).
Proof.
  intros HS Hi HI HO. apply set_stage_ok; [done|done|]. intros j x k Hj Hx Hk. rewrite HI in Hk.
  by eapply (do_own s HS j i x (env, request, st)).
Qed.

Lemma save_ok s i env request k job at_ snapshot : desk_ok s -> dk_requests s !! i = Some (env, request, SCopied k job at_ snapshot) ->
  fresh_tmp options env (dk_fs s) = true ->
  let '(saved, fs) := save_queue options env snapshot (dk_fs s) in
  desk_ok (set_stage i env request (SSaved k job saved)
    (mkDesk (dk_queue s) fs (dk_requests s) (dk_accepted s) (dk_taken s) (if is_ok saved then Some at_ else dk_saved s)
       (dk_stale s || is_ok saved && match dk_saved s with Some newer => older at_ newer | None => false end))).
Proof.
  intros HS Hi HF. pose proof (save_queue_spec env snapshot (dk_fs s) HF) as HV.
  destruct HS as [H1 H3 H4 H5]. destruct (H3 _ _ _ _ Hi) as (E1 & E2 & E3 & ->).
  destruct (save_queue options env (copied_jobs s at_) (dk_fs s)) as [[r|e] fs']; cbn [is_ok].
  - destruct HV as (saved & V1 & V2). set (t := mkDesk _ _ _ _ _ _ _).
    assert (forall n, covered s n -> covered t n) as HC.
    { intros n Hn. unfold covered, t. cbn [dk_stale dk_saved]. rewrite andb_true_l. intros [HT HO]%orb_false_iff.
      destruct (Hn HT) as (old & Ho & Hlt). exists at_. split; [done|]. rewrite Ho in HO. apply Nat.ltb_ge in HO. lia. }
    assert (covered t k) as Hk by (intros _; exists at_; done).
    assert (desk_ok t) as HT.
    { split; [done| |done|].
      - intros j env' request' st Hj. specialize (H3 _ _ _ _ Hj). destruct st as [| | |out [n|]]; try done; cbn [stage_ok] in *.
        + destruct H3 as [? ?]. split; [done|auto].
        + destruct H3 as [? [[? ?]|?]]; (split; [done|]); auto.
      - intros at' [= <-]. split; [done|]. exists saved. split; [done|]. rewrite V2. unfold copied_jobs. rewrite map_map. apply map_ext. intros j. apply Clone_idemp. }
    eapply advance_ok; [exact HT|exact Hi|done|]. split; [exact E1|done].
  - rewrite HV. cbn [andb]. rewrite orb_false_r. eapply (advance_ok _ i _ _ (SCopied k job at_ (copied_jobs s at_))); [by split|exact Hi|done|].
    split; [exact E1|done].
Qed.

Lemma take_ok s s' : desk_ok s -> act_desk options Take s = Some s' -> desk_ok s'.
Proof.
  intros [[H1 H2] H3 H4 H5]. cbn [act_desk]. destruct (Memory.jobs (Adapters.embedded (dk_queue s))) as [|first rest] eqn:EJ.
  { unfold Memory.Dequeue. rewrite EJ. by destruct (Memory.closed _). }
  destruct (Memory.closed (Adapters.embedded (dk_queue s))) eqn:EC; [unfold Memory.Dequeue; by rewrite EC|].
  rewrite (Memory.Dequeue_step _ first rest EJ EC). intros [= <-]. set (t := mkDesk _ _ _ _ _ _ _).
  assert (extends s t) as HE by (split; [exists []; by rewrite app_nil_r|cbn; lia]). split; cbn [t dk_queue dk_taken dk_accepted].
  - rewrite embedded_on. cbn [Memory.jobs]. assert (length (first :: rest) = length (drop (dk_taken s) (dk_accepted s))) as HL by (by rewrite <- H1).
    rewrite length_drop in HL. cbn [length] in HL. split; [|lia]. replace (S (dk_taken s)) with (dk_taken s + 1)%nat by lia. by rewrite <- drop_drop, <- H1.
  - intros i env request st Hi. eapply stage_extends; [exact HE|done|done|]. by eapply H3.
  - done.
  - intros at_ Ha. destruct (H5 at_ Ha) as (HW & snapshot & HL & HJ). destruct (within_extends _ _ _ HE HW) as [W1 W2].
    split; [done|]. exists snapshot. split; [done|]. by rewrite W2.
Qed.

Lemma act_desk_ok l s s' : desk_ok s -> act_desk options l s = Some s' -> desk_ok s'.
Proof.
  intros HS. destruct l as [i env request|i|i|i| |now job]; [by apply submit_ok| | | |by apply take_ok|]; cbn [act_desk].
  - destruct (dk_requests s !! i) as [[[env request] st]|] eqn:Hi; [|done]. destruct st as [k job| | |]; try done. intros [= <-].
    eapply advance_ok; [done|exact Hi|done|]. pose proof (do_stage s HS _ _ _ _ Hi) as HE. destruct (do_queue s HS) as [HQ HT].
    split; [exact HE|]. split; [by eapply (entry_index s env request (SQueued k job))|]. split; [split; done|].
    unfold queue_snapshot, Memory.Snapshot, copied_jobs. cbn [fst snd]. by rewrite HQ, take_ge by lia.
  - destruct (dk_requests s !! i) as [[[env request] st]|] eqn:Hi; [|done]. destruct st as [|k job at_ snapshot| |]; try done.
    destruct (fresh_tmp options env (dk_fs s)) eqn:EF; [|done]. cbn [negb]. pose proof (save_ok s i env request k job at_ snapshot HS Hi EF) as H.
    destruct (save_queue _ _ _ _) as [saved fs]. by intros [= <-].
  - destruct (dk_requests s !! i) as [[[env request] st]|] eqn:Hi; [|done]. destruct st as [| |k job saved|]; try done. intros [= <-].
    eapply advance_ok; [done|exact Hi|done|]. destruct (do_stage s HS _ _ _ _ Hi) as [HE HC]. split; [by exists job|].
    unfold answer_job. destruct saved as [p|e]; [left; rewrite status_writeJSON; split; [done|by apply HC]|right; apply status_writeWorkerError].
  - pose proof (Enqueue_appends None now job (Adapters.embedded (dk_queue s))) as H.
    destruct (Memory.Enqueue _ _ _ _) as [[e|] mq]; intros [= <-]; apply grown_ok; try done; rewrite embedded_on.
    + subst mq. exists []. by rewrite app_nil_r.
    + destruct H as (queued & H & _). by eexists.
Qed.
Lemma run_desk_ok ls : forall s s', desk_ok s -> run_desk options ls s = Some s' -> desk_ok s'.
Proof.
  induction ls as [|l ls IH]; intros s s' HS; cbn [run_desk]; [by intros [= <-]|].
  destruct (act_desk options l s) as [s1|] eqn:E; [|done]. cbn. apply IH. by eapply act_desk_ok.
Qed.
Lemma opened_ok q fs : desk_ok (opened q fs).
Proof. split; cbn; [rewrite drop_0; split; [done|lia]|intros i ? ? ?; by rewrite lookup_empty|intros i j x y k; by rewrite lookup_empty|done]. Qed.

End Durable.
End Handlers.

(** ** Witnesses and observations *)
Definition sample_encode (p : payload) : option string := Some "{}".
Definition refuse {A} (body : string) : result A := Err (Errorf "unexpected EOF").
Definition sample_request_job : CreateJobRequest :=
  mkCreateJobRequest "0b1e2c3d-4e5f-4a6b-8c7d-9e0f1a2b3c4d" "" "" 0 3 "https://o/f" "k" ∅ ∅.
Definition sample_decode_job (body : string) : result CreateJobRequest :=
  if String.eqb body "job" then Ok sample_request_job else Err (Errorf "invalid").
Definition sample_heartbeat_record : HeartbeatRecord :=
  mkHeartbeatRecord "a" "" "" "h" "v" "r" "idle" 1 "30s" true 1 [] (mkQueueStats "memory" 0 2).
Definition sample_auth : Authenticator := mkAuthenticator true "s3cret" "Authorization".
Definition sample_agent (path : string) : @AgentRoutesInput :=
  mkAgentRoutesInput runtime_Info (mkIdentitySnapshot "a" "" "" "h" "" "" "" "") sample_heartbeat_record "memory"
    (Persistence.mkFileStore "data/queue.json" 0) path sample_auth [].
Definition sample_queue : Adapters.ClusterQueue :=
  Adapters.InstrumentedQueue (Memory.mkMemoryQueue 2 [] false) (Adapters.mkInfo "memory" "local" "" "" "" 2 0).
Definition sample_state : ServerState := mkServerState (Some sample_queue) ∅ [] None None None None.
Definition sample_env : ServerEnv := mkServerEnv None (Ok []) 5 6 7 8 no_faults "tmp" 0.
Definition sample_routes (path : string) := agent_routes sample_encode sample_decode_job refuse refuse refuse refuse refuse Persistence.one_marshal (sample_agent path).
Definition plain_request (method path body : string) (h : HeaderSet) : Request := mkRequest method path h body (slen body) "10.0.0.1:50000".

Lemma unauthenticated_changes_nothing_witness :
  exists registry mux out, NewRouteRegistry (sample_routes "/metrics") = Ok registry /\ BuildRouter quiet_log false false [] registry = Ok mux /\
    dispatch mux sample_env (plain_request "POST" "/worker/jobs" "job" ∅) [] sample_state = (out, None, sample_state).
Proof.
  assert (is_ok (registry ← NewRouteRegistry (sample_routes "/metrics"); BuildRouter quiet_log false false [] registry) = true)
    as (mux & (registry & E1 & E2)%bind_Ok)%is_ok_true by (vm_compute; reflexivity).
  destruct (unauthenticated_changes_nothing sample_encode sample_decode_job refuse refuse refuse refuse refuse Persistence.one_marshal
    (sample_agent "/metrics") registry quiet_log [] mux sample_env (plain_request "POST" "/worker/jobs" "job" ∅) [] sample_state E1 E2)
    as (out & H & _); [vm_compute; reflexivity|constructor|].
  exists registry, mux, out. split; [exact E1|]. split; [exact E2|exact H].
Defined.

Definition sample_options : WorkerAPIOptions :=
  mkWorkerAPIOptions runtime_Info sample_heartbeat_record "" (Some (Persistence.mkFileStore "data/queue.json" 0)).
Definition sample_submission : Request := plain_request "POST" "/worker/jobs" "job" ∅.
Definition sample_queued : list Job :=
  match NewJob (job_input sample_request_job) (Ok []) 5 with Ok job => [queued_form 6 job] | Err _ => [] end.
#[global] Instance Snapshot_eq_dec : EqDecision Persistence.Snapshot.
Proof. solve_decision. Defined.
(** A codec that knows one document and refuses all others. *)
Definition known_marshal (known s : Persistence.Snapshot) : result string :=
  if bool_decide (s = known) then Persistence.one_marshal s else Err (Errorf "unknown document").
Definition sample_document : Persistence.Snapshot := Persistence.NewSnapshot "memory" (map Clone sample_queued) 0 7.
Definition sample_steps : list desk_label := [Submit 0 sample_env sample_submission; Copy 0; SaveCopy 0; Reply 0].
Definition run_sample (marshal : Persistence.Snapshot -> result string) (decode : string -> result CreateJobRequest) :=
  run_desk sample_encode decode marshal sample_options.


(** Two submissions at once: the first copies the queue, the second is queued, saved and
    answered, then the first saves its older copy.  Both clients were told 202; the file no longer
    has the second job, and a restart loses it. *)
Definition other_id : string := "1b1e2c3d-4e5f-4a6b-8c7d-9e0f1a2b3c4d".
Definition two_jobs (body : string) : result CreateJobRequest :=
  if String.eqb body "other" then Ok (mkCreateJobRequest other_id "" "" 0 3 "https://o/g" "l" ∅ ∅) else sample_decode_job body.
Definition ids_marshal (s : Persistence.Snapshot) : result string := Ok (Join (map ID (Persistence.Jobs s)) ",").
Definition racing_steps : list desk_label :=
  [Submit 0 sample_env sample_submission; Copy 0; Submit 1 sample_env (plain_request "POST" "/worker/jobs" "other" ∅); Copy 1; SaveCopy 1;
   Reply 1; SaveCopy 0; Reply 0].
Theorem late_save_loses_job :
  (fun s => (map ID (Memory.jobs (Adapters.embedded (dk_queue s))), dk_fs s !! "data/queue.json",
             (fun x => match x.2 with SAnswered out _ => rs_Status (response out) | _ => 0 end) <$> dk_requests s)) <$>
    run_sample ids_marshal two_jobs racing_steps (opened sample_queue ∅) =
  Some ([cr_ID sample_request_job; other_id], Some (cr_ID sample_request_job +:+ newline), <[1%nat := 202]> {[0%nat := 202]}).
Proof. vm_compute. reflexivity. Qed.

(** The example of RFC 6455. *)
Example websocket_accept : WebSocketAcceptKey " dGhlIHNhbXBsZSBub25jZQ== " = "s3pPLMBiTxaQ9kYGzzhZRbK+xOo=".
Proof. vm_compute. reflexivity. Qed.

(** A submission whose queue file cannot be written is answered with 500 and stays queued:
    the client that tries again has submitted the job twice. *)
Definition full_disk : ServerEnv := mkServerEnv None (Ok []) 5 6 7 8 (mkFaults None None (Some (Errorf "no space left on device")) 0 None None None) "tmp" 0.
Definition submit (env : ServerEnv) (s : ServerState) := CreateWorkerJobHandler sample_encode sample_decode_job Persistence.one_marshal sample_options env sample_submission [] s.
Definition queued_ids (s : ServerState) : list string :=
  match sv_queue s with Some q => map ID (Memory.jobs (Adapters.embedded q)) | None => [] end.
Theorem refused_submission_stays_queued :
  let '(out, _, s) := submit full_disk sample_state in
  rs_Status (response out) = 500 /\ queued_ids s = [cr_ID sample_request_job] /\
  let '(out, _, s) := submit sample_env s in
  rs_Status (response out) = 202 /\ queued_ids s = [cr_ID sample_request_job; cr_ID sample_request_job].
Proof. vm_compute. done. Qed.

(** A metrics path that is also the path of another document passes the validation of the
    settings and keeps the routes from being registered. *)
Theorem metrics_path_collides :
  match NewRouteRegistry (sample_routes "/health") with
  | Err e => Error e = "route GET /health is already registered"
  | Ok _ => False
  end.
Proof. vm_compute. reflexivity. Qed.
