(* ===== verification/Boot.v ===== *)
(** * Settings and constructors: internal/bootstrap/bootstrap.go

    The options [runServe] makes from the settings, and what the validation of the settings
    establishes for the constructors it calls.  The constructors are composed in Launch.v. *)
From S2P Require Import Prelude GoStrings GoUrl GoUrlEscape GoTime Queue QueueStore Pool Heartbeat Security Upload Storage Transfer Download Fetch AurenStorage HubClient ConfigData Config Server.

(** [time.ParseDuration] with its error. *)
Definition parse_duration (value : string) : result Duration :=
  match ParseDuration value with
  | Some d => Ok d
  | None => Err (Errorf ("time: invalid duration " +:+ Quote value))
  end.

Definition rateLimitValue (enabled : bool) (configured : Z) : Z := if enabled then configured else 0.

Definition queue_options (cfg : Config) : Adapters.Options :=
  let q := cfg_Queue cfg in
  Adapters.mkOptions (Queue_Driver q) (Queue_MemoryCapacity q) (Queue_RedisAddress q) (Queue_RedisStream q)
    (Queue_RedisConsumerGroup q) (Queue_RabbitMQURL q) (Queue_RabbitMQQueue q) (Queue_NATSURL q) (Queue_NATSSubject q)
    (Queue_NATSQueueGroup q).
Definition auren_options (cfg : Config) (partSize : Z) : AurenOptions :=
  let s := cfg_Storage cfg in
  mkAurenOptions (Storage_Endpoint s) (Storage_Bucket s) "" (Storage_Region s) (Security_TokenHeader (cfg_Security cfg))
    (Storage_APIKey s) (Upload_MultipartEnabled (cfg_Upload cfg)) partSize.
Definition hub_paths (cfg : Config) : EndpointPaths :=
  let h := cfg_MediaHub cfg in
  mkEndpointPaths (MediaHub_RegisterPath h) (MediaHub_ConfigPath h) (MediaHub_HeartbeatPath h) (MediaHub_MetricsPath h)
    (MediaHub_EventsPath h).

(** ** What validation establishes *)
Lemma requiredString_ok field value : requiredString field value = [] <-> TrimSpace value <> "".
Proof. unfold requiredString. by destruct (String.eqb_spec (TrimSpace value) ""). Qed.
Lemma nonNegativeInt_ok field value : nonNegativeInt field value = [] <-> 0 <= value.
Proof. unfold nonNegativeInt. destruct (Z.ltb_spec value 0); split; done || lia. Qed.
Lemma positiveInt_ok field value : positiveInt field value = [] <-> 0 < value.
Proof. unfold positiveInt. destruct (Z.leb_spec value 0); split; done || lia. Qed.
Lemma duration_ok field value : duration field value = [] <->
  TrimSpace value <> "" /\ exists d, ParseDuration (TrimSpace value) = Some d /\ 0 < d.
Proof.
  unfold duration. destruct (String.eqb_spec (TrimSpace value) ""); [naive_solver|].
  destruct (ParseDuration (TrimSpace value)) as [d|]; [|naive_solver].
  destruct (Z.leb_spec d 0); split; try done; [intros (_ & ? & [= <-] & ?); lia|]. eauto.
Qed.
Lemma size_ok field value : size field value = [] -> exists n, ParsePartSize value = Ok n.
Proof.
  unfold size, parseSizeBytes, ParsePartSize. rewrite TrimSpace_idemp. destruct (String.eqb (TrimSpace value) ""); [done|].
  destruct (match find _ _ with Some _ => _ | None => _ end) as [number multiplier]. destruct (ParseInt number) as [n|]; [|done].
  destruct (n <=? 0); [done|]. eauto.
Qed.
Lemma oneOf_ok field value allowed : oneOf field value allowed = [] ->
  exists candidate, candidate ∈ allowed /\ ToLower (TrimSpace value) = ToLower candidate.
Proof.
  unfold oneOf. destruct (String.eqb _ ""); [done|]. destruct (existsb _ _) eqn:E; [|done]. intros _.
  apply existsb_exists in E as (x & Hx & E%String.eqb_eq). exists x. by rewrite list_elem_of_In.
Qed.

Lemma positive_duration field value : duration field value = [] -> exists d, parsePositiveDuration field value = Ok d.
Proof.
  intros (Hne & d & HP & Hd)%duration_ok. unfold parsePositiveDuration. rewrite (proj2 (String.eqb_neq _ _) Hne), HP.
  rewrite (proj2 (Z.leb_gt _ _)) by done. eauto.
Qed.
Lemma nonnegative_duration field field' value : duration field value = [] -> exists d, parseNonNegativeDuration field' value = Ok d.
Proof.
  intros (Hne & d & HP & Hd)%duration_ok. unfold parseNonNegativeDuration. rewrite (proj2 (String.eqb_neq _ _) Hne), HP.
  rewrite (proj2 (Z.ltb_ge _ _)) by lia. eauto.
Qed.
Lemma exact_duration field value : duration field value = [] -> TrimSpace value = value ->
  exists d, parse_duration value = Ok d /\ 0 < d.
Proof. intros (_ & d & HP & Hd)%duration_ok HT. rewrite HT in HP. unfold parse_duration. rewrite HP. eauto. Qed.

(** Validation has a say in these settings; the others have their own conditions. *)
Lemma valid_parts cfg : Validate cfg = Ok tt ->
  TrimSpace (Resolver_DefaultUserAgent (cfg_Resolver cfg)) <> "" /\ 0 <= Resolver_MaxRedirects (cfg_Resolver cfg) /\
  duration "download.connect_timeout" (Download_ConnectTimeout (cfg_Download cfg)) = [] /\
  duration "download.response_header_timeout" (Download_ResponseHeaderTimeout (cfg_Download cfg)) = [] /\
  duration "download.idle_timeout" (Download_IdleTimeout (cfg_Download cfg)) = [] /\
  0 <= Download_MaxRetries (cfg_Download cfg) /\
  duration "download.retry_backoff" (Download_RetryBackoff (cfg_Download cfg)) = [] /\
  size "upload.part_size" (Upload_PartSize (cfg_Upload cfg)) = [] /\ 0 < Worker_Concurrency (cfg_Worker cfg) /\
  0 < Queue_MemoryCapacity (cfg_Queue cfg) /\
  oneOf "queue.driver" (Queue_Driver (cfg_Queue cfg)) ["memory"; "redis_streams"; "rabbitmq"; "nats"] = [] /\
  duration "queue.poll_interval" (Queue_PollInterval (cfg_Queue cfg)) = [] /\
  duration "heartbeat.interval" (Heartbeat_Interval (cfg_Heartbeat cfg)) = [] /\
  ContainsAny (Security_TokenHeader (cfg_Security cfg)) newline_set = false /\
  duration "security.jwt_ttl" (Security_JWTTTL (cfg_Security cfg)) = [] /\
  (Security_JWTEnabled (cfg_Security cfg) && (slen (TrimSpace (Security_JWTSecret (cfg_Security cfg))) <? 16) = false) /\
  0 <= Security_RateLimitPerMin (cfg_Security cfg).
Proof.
  unfold Validate. destruct (config_issues cfg) as [|i l] eqn:E; [intros _|done]. unfold config_issues in E.
  repeat (let H := fresh "P" in apply app_nil in E as [H E]).
  repeat match goal with |- _ /\ _ => split end;
    first [assumption | eapply requiredString_ok; eassumption | eapply nonNegativeInt_ok; eassumption
          | eapply positiveInt_ok; eassumption | idtac].
  - match goal with H : (if ContainsAny ?x ?y then _ else _) = [] |- _ => destruct (ContainsAny x y); [discriminate H|reflexivity] end.
  - match goal with H : (if Security_JWTEnabled ?c && ?x then _ else _) = [] |- _ =>
      destruct (Security_JWTEnabled c && x); [discriminate H|reflexivity] end.
  - match goal with H : (if Security_RateLimitEnabled ?x then _ else _) = [] |- _ =>
      destruct (Security_RateLimitEnabled x); [apply positiveInt_ok in H|apply nonNegativeInt_ok in H]; lia end.
Qed.

Lemma queue_required cfg : Validate cfg = Ok tt ->
  Forall (fun s => TrimSpace s <> "")
    (Adapters.required_settings (queue_options cfg) (Adapters.NormalizeDriver (Queue_Driver (cfg_Queue cfg)))).
Proof.
  unfold Validate. destruct (config_issues cfg) as [|i l] eqn:E; [intros _|done]. unfold config_issues in E.
  repeat (let H := fresh "P" in apply app_nil in E as [H E]).
  assert (forall name, ToLower name = name -> EqualFold (TrimSpace (Queue_Driver (cfg_Queue cfg))) name =
    String.eqb (Adapters.NormalizeDriver (Queue_Driver (cfg_Queue cfg))) name) as HE.
  { intros name Hn. unfold EqualFold, Adapters.NormalizeDriver. by rewrite Hn. }
  unfold Adapters.required_settings, queue_options. cbn [Adapters.opt_RedisAddress Adapters.opt_RedisStream
    Adapters.opt_RedisConsumerGroup Adapters.opt_RabbitMQURL Adapters.opt_RabbitMQQueue Adapters.opt_NATSURL
    Adapters.opt_NATSSubject Adapters.opt_NATSQueueGroup].
  change Adapters.RedisStreamsDriver with "redis_streams". change Adapters.RabbitMQDriver with "rabbitmq". change Adapters.NATSDriver with "nats".
  rewrite (HE "redis_streams"), (HE "rabbitmq"), (HE "nats") in * by reflexivity.
  set (driver := Adapters.NormalizeDriver _) in *. clearbody driver.
  repeat match goal with
  | |- Forall _ (if ?b then _ else _) => destruct b
  | H : _ ++ _ = [] |- _ => apply app_nil in H as [? H]
  end; repeat (apply Forall_cons; split); try apply Forall_nil_2; eapply requiredString_ok; eassumption.
Qed.

(** ** What validation leaves open *)
Definition reachable (url : string) : Prop :=
  exists parsed, url_Parse (TrimRightChar "/" (TrimSpace url)) = Ok parsed /\
    (Scheme parsed = chars "http" \/ Scheme parsed = chars "https") /\ Host parsed <> [] /\
    exists p, setPath (PathText parsed) = Ok p.
Lemma TrimSpace_infix s : exists a b, chars s = a ++ chars (TrimSpace s) ++ b.
Proof.
  unfold TrimSpace. rewrite chars_str. destruct (trim_front_suffix space1 space2 space3 (chars s)) as [a Ha].
  destruct (trim_right_prefix (trim_left_space (chars s))) as [b Hb]. exists a, b. rewrite Ha at 1. by rewrite <- Hb.
Qed.

Lemma ContainsAny_TrimSpace s cs : ContainsAny s cs = false -> ContainsAny (TrimSpace s) cs = false.
Proof.
  destruct (TrimSpace_infix s) as (a & b & E). unfold ContainsAny. rewrite E, !existsb_app. intros H. 
  apply orb_false_iff in H as [_ H]. by apply orb_false_iff in H as [H _].
Qed.

(** The header with its default, as two constructors check it. *)
Lemma token_header_ok header : ContainsAny header newline_set = false ->
  ContainsAny (if String.eqb (TrimSpace header) "" then "Authorization" else TrimSpace header) newline_set = false.
Proof. intros H. case_match; [by vm_compute|]. by apply ContainsAny_TrimSpace. Qed.

Lemma reachable_nonempty url : reachable url -> String.eqb (TrimRightChar "/" (TrimSpace url)) "" = false.
Proof.
  intros (parsed & HP & _ & HH & _). apply String.eqb_neq. intros E. rewrite E in HP. vm_compute in HP. by simplify_eq.
Qed.

Lemma NewAuren_ok cfg partSize : AurenConfigured (Storage_Endpoint (cfg_Storage cfg)) (Storage_Bucket (cfg_Storage cfg)) = true ->
  reachable (Storage_Endpoint (cfg_Storage cfg)) -> exists a, NewAurenStorageAdapter (auren_options cfg partSize) = Ok a.
Proof.
  intros HC HR. pose proof (reachable_nonempty _ HR) as Hne. destruct HR as (parsed & HP & HS & HH & _).
  unfold NewAurenStorageAdapter, auren_options. cbn [ao_Endpoint ao_Bucket ao_BucketUUID]. rewrite Hne, HP.
  rewrite (bool_decide_false (Host parsed = [])) by done.
  assert (firstNonEmpty [""; Storage_Bucket (cfg_Storage cfg)] <> "") as Hb.
  { apply andb_true_iff in HC as [_ Hb%negb_true_iff]. cbn [firstNonEmpty]. change (TrimSpace "") with "". cbn [String.eqb].
    rewrite Hb. by apply String.eqb_neq in Hb. }
  rewrite (proj2 (String.eqb_neq _ _) Hb). destruct HS as [->| ->]; cbn; eauto.
Qed.

Lemma NewClient_ok url agent hmac paths : reachable url -> exists c, NewClient url agent hmac paths = Ok c.
Proof.
  intros HR. pose proof (reachable_nonempty _ HR) as Hne. destruct HR as (parsed & HP & HS & HH & [p raw] & Hp).
  unfold NewClient. rewrite Hne, HP. rewrite (bool_decide_false (Host parsed = [])) by done.
  destruct HS as [->| ->]; cbn [bool_decide]; rewrite Hp; cbn; eauto.
Qed.

(** The parts of the construction. *)
Lemma build_client cfg : Validate cfg = Ok tt ->
  exists c, NewHTTPClient (Resolver_DefaultUserAgent (cfg_Resolver cfg)) (Download_ConnectTimeout (cfg_Download cfg))
    (Download_ResponseHeaderTimeout (cfg_Download cfg)) (Download_IdleTimeout (cfg_Download cfg))
    (Resolver_FollowRedirects (cfg_Resolver cfg)) (Resolver_MaxRedirects (cfg_Resolver cfg)) = Ok c.
Proof.
  intros (V1 & V2 & V3 & V4 & V5 & _)%valid_parts. unfold NewHTTPClient. rewrite (proj2 (String.eqb_neq _ _) V1).
  assert (forall f f' v, duration f v = [] -> exists d, parsePositiveDuration f' v = Ok d) as HD.
  { intros f f' v Hd. destruct (positive_duration f v Hd) as [d H]. exists d. revert H. unfold parsePositiveDuration.
    repeat case_match; done. }
  destruct (HD _ "connect timeout" _ V3) as [d1 ->], (HD _ "response header timeout" _ V4) as [d2 ->], (HD _ "idle timeout" _ V5) as [d3 ->].
  cbn [mbind result_bind]. unfold NewRedirectEngine. rewrite (proj2 (Z.ltb_ge _ _)) by done. cbn. eauto.
Qed.

Lemma build_queue cfg : Validate cfg = Ok tt ->
  exists q, Adapters.NewQueue (queue_options cfg) = Ok q /\
    Adapters.embedded q = Memory.mkMemoryQueue (Queue_MemoryCapacity (cfg_Queue cfg)) [] false.
Proof.
  intros HV. pose proof (queue_required cfg HV) as VQ. apply valid_parts in HV as (_ & _ & _ & _ & _ & _ & _ & _ & _ & V10 & V11 & _).
  destruct (Adapters.NewQueue_spec (queue_options cfg)) as [Hiff Hq].
  apply oneOf_ok in V11 as (name & Hin & HE). unfold Adapters.NormalizeDriver in *. cbn [queue_options Adapters.opt_Driver] in Hiff, Hq.
  rewrite HE in Hiff, Hq, VQ.
  assert (ToLower name = name /\ name ∈ Adapters.SupportedDrivers /\ name <> "") as (HL & HS & Hne).
  { apply list_elem_of_In in Hin. unfold Adapters.SupportedDrivers. rewrite !elem_of_cons.
    destruct Hin as [<-|[<-|[<-|[<-|[]]]]]; (split; [reflexivity|]); (split; [|done]); vm_compute; tauto. }
  rewrite HL, (proj2 (String.eqb_neq _ _) Hne) in Hiff, Hq. rewrite HL in VQ.
  destruct (Adapters.NewQueue (queue_options cfg)) as [q|e] eqn:E.
  - exists q. split; [done|]. by destruct (Hq q eq_refl).
  - exfalso. enough (false = true) by done. by apply Hiff.
Qed.

Lemma build_security cfg : Validate cfg = Ok tt -> let sec := cfg_Security cfg in
  (Security_APIKeyRequired sec = true -> TrimSpace (Security_APIKey sec) <> "") ->
  (exists a, NewAuthenticator (Security_APIKeyRequired sec) (Security_APIKey sec) (Security_TokenHeader sec) = Ok a) /\
  (exists k, NewAPIKeyVerifier (mkAPIKeyOptions (Security_APIKeyRequired sec) (Security_APIKey sec) (Security_APIKeyHash sec)
               (Security_TokenHeader sec)) = Ok k) /\
  (forall ttl, exists j, NewJWTService (mkJWTOptions (Security_JWTEnabled sec) (Security_JWTSecret sec) (App_Name (cfg_App cfg))
                            "auren-media-hub" ttl) = Ok j) /\
  exists l, NewRateLimiter (rateLimitValue (Security_RateLimitEnabled sec) (Security_RateLimitPerMin sec)) (60 * second) = Ok l.
Proof.
  intros (_ & _ & _ & _ & _ & _ & _ & _ & _ & _ & _ & _ & _ & V14 & _ & V16 & V17)%valid_parts sec B6.
  apply token_header_ok in V14.
  assert (Security_APIKeyRequired sec && String.eqb (TrimSpace (Security_APIKey sec)) "" = false) as HK.
  { destruct (Security_APIKeyRequired sec); [|done]. cbn [andb]. by apply String.eqb_neq, B6. }
  split_and!.
  - unfold NewAuthenticator. change newline_chars with newline_set. fold sec in V14. rewrite V14, HK. eauto.
  - unfold NewAPIKeyVerifier. cbn [ko_Header ko_RawKey ko_Hash ko_Required]. fold sec in V14. unfold newline_set in V14. rewrite V14, HK.
    cbn [andb]. eauto.
  - intros ttl. unfold NewJWTService. cbn [jo_Enabled jo_Secret jo_Issuer jo_Audience jo_TTL]. fold sec in V16. rewrite V16. eauto.
  - unfold NewRateLimiter, rateLimitValue. fold sec in V17. destruct (Security_RateLimitEnabled sec); cbn; [|eauto].
    rewrite (proj2 (Z.ltb_ge _ _)) by done. eauto.
Qed.
