(* ===== verification/AgentYaml.v ===== *)
(** * Options and settings of a node: internal/bootstrap/linux_package.go

    The options of the bootstrap command, where they come from (flags over variables over
    defaults), the settings made of them and the file they are written to. *)
From S2P Require Import Prelude GoStrings GoPath GoUrl GoUrlText GoTime GoJson GoRFC3339 GoFS GoFlag Viper ConfigData Config Boot.

(** ** Options *)
Definition linuxDefaultConfigPath : string := "/etc/auren-transfer-agent/agent.yaml".
Definition linuxDefaultDataDir : string := "/var/lib/auren-transfer-agent".
Definition linuxDefaultLogDir : string := "/var/log/auren-transfer-agent".
Definition linuxDefaultTempDir : string := "/var/tmp/auren-transfer-agent".
Definition linuxDefaultUnit : string := "auren-transfer-agent.service".

Record bootstrapOptions := mkBootstrapOptions {
  o_ConfigPath : string; o_EnvFile : string; o_MediaHubURL : string; o_RegistrationToken : string;
  o_BootstrapTokenEndpoint : string; o_BootstrapTokenSecret : string; o_Role : string; o_Region : string;
  o_AvailabilityZone : string; o_PublicBaseURL : string; o_HealthURL : string; o_DataDir : string; o_WorkDir : string;
  o_LogDir : string; o_ServerHost : string; o_ServerPort : Z; o_MaxConcurrentJobs : Z; o_MaxSessions : Z;
  o_MaxEgressMbps : Z; o_EnableGateway : bool; o_DisableTransfer : bool; o_SkipRegister : bool; o_StartService : bool;
  o_SystemdUnit : string; o_DryRun : bool
}.

Definition bootstrap_defaults : list (string * flag_value) :=
  [ ("config", FString linuxDefaultConfigPath); ("env-file", FString ".env"); ("media-hub", FString ""); ("token", FString "");
    ("token-endpoint", FString ""); ("token-secret", FString ""); ("role", FString "hybrid"); ("region", FString "sa-east-1");
    ("availability-zone", FString ""); ("public-base-url", FString ""); ("health-url", FString "");
    ("data-dir", FString linuxDefaultDataDir); ("work-dir", FString (Join2 linuxDefaultDataDir "transfer"));
    ("log-dir", FString linuxDefaultLogDir); ("server-host", FString "0.0.0.0"); ("server-port", FInt 8080);
    ("max-concurrent-jobs", FInt 2); ("max-sessions", FInt 500); ("max-egress-mbps", FInt 1000);
    ("enable-gateway", FBool false); ("disable-transfer", FBool false); ("skip-register", FBool false);
    ("start-service", FBool false); ("systemd-unit", FString linuxDefaultUnit); ("dry-run", FBool false); ("help", FBool false) ].
(** The flags -help and -h share a variable. *)
Definition with_help (vars : list (string * flag_value)) : FlagSet :=
  mkFlagSet (map (fun v => (v.1, v.1)) vars ++ [("h", "help")]) vars [].
Definition bootstrap_flags : FlagSet := with_help bootstrap_defaults.

Definition options_of (fs : FlagSet) : bootstrapOptions :=
  mkBootstrapOptions (flag_string fs "config") (flag_string fs "env-file") (flag_string fs "media-hub") (flag_string fs "token")
    (flag_string fs "token-endpoint") (flag_string fs "token-secret") (flag_string fs "role") (flag_string fs "region")
    (flag_string fs "availability-zone") (flag_string fs "public-base-url") (flag_string fs "health-url")
    (flag_string fs "data-dir") (flag_string fs "work-dir") (flag_string fs "log-dir") (flag_string fs "server-host")
    (flag_int fs "server-port") (flag_int fs "max-concurrent-jobs") (flag_int fs "max-sessions") (flag_int fs "max-egress-mbps")
    (flag_bool fs "enable-gateway") (flag_bool fs "disable-transfer") (flag_bool fs "skip-register")
    (flag_bool fs "start-service") (flag_string fs "systemd-unit") (flag_bool fs "dry-run").

(** ** Variables *)
Section Variables.
Context (env : environ) (explicit : list string).

(** The first of the variables that has a usable value. *)
Definition from_variables {A} (flagName : string) (current : A) (read : string -> option A) (names : list string) : A :=
  if bool_decide (flagName ∈ explicit) then current else
  match omap (fun name => value ← env !! name; read (TrimSpace value)) names with
  | value :: _ => value
  | [] => current
  end.
Definition setString (flagName current : string) (names : list string) : string :=
  from_variables flagName current (fun value => if String.eqb value "" then None else Some value) names.
Definition setInt (flagName : string) (current : Z) (names : list string) : Z :=
  from_variables flagName current
    (fun value => if String.eqb value "" then None else match ParseInt value with Ok z => Some z | Err _ => None end) names.
Definition setBool (flagName : string) (current : bool) (names : list string) : bool :=
  from_variables flagName current
    (fun value => if String.eqb value "" then None else match ParseBool value with Ok b => Some b | Err _ => None end) names.

Definition applyBootstrapEnv (o : bootstrapOptions) : bootstrapOptions :=
  mkBootstrapOptions (o_ConfigPath o) (o_EnvFile o)
    (setString "media-hub" (o_MediaHubURL o)
       ["AUREN_MEDIA_HUB_BASE_URL"; "AUREN_AGENT_MEDIA_HUB_BASE_URL"; "AUREN_MEDIA_HUB_URL"; "MEDIA_HUB_URL"])
    (setString "token" (o_RegistrationToken o)
       ["AUREN_MEDIA_HUB_REGISTRATION_TOKEN"; "AUREN_NODE_REGISTRATION_TOKEN"; "AUREN_AGENT_REGISTRATION_TOKEN";
        "AUREN_REGISTRATION_TOKEN"; "REGISTRATION_TOKEN"])
    (setString "token-endpoint" (o_BootstrapTokenEndpoint o)
       ["AUREN_MEDIA_HUB_BOOTSTRAP_TOKEN_ENDPOINT"; "AUREN_BOOTSTRAP_TOKEN_ENDPOINT"; "AUREN_NODE_TOKEN_ENDPOINT";
        "MEDIA_HUB_NODE_TOKEN_ENDPOINT"])
    (setString "token-secret" (o_BootstrapTokenSecret o)
       ["AUREN_MEDIA_HUB_BOOTSTRAP_TOKEN_SECRET"; "AUREN_BOOTSTRAP_TOKEN_SECRET"; "AUREN_NODE_TOKEN_SECRET";
        "MEDIA_HUB_NODE_TOKEN_SECRET"])
    (setString "role" (o_Role o) ["AUREN_AGENT_ROLE"; "AUREN_NODE_ROLE"])
    (setString "region" (o_Region o) ["AUREN_AGENT_REGION"; "AUREN_NODE_REGION"; "AWS_REGION"; "AWS_DEFAULT_REGION"])
    (setString "availability-zone" (o_AvailabilityZone o) ["AUREN_AGENT_AVAILABILITY_ZONE"; "AUREN_NODE_AVAILABILITY_ZONE"])
    (setString "public-base-url" (o_PublicBaseURL o) ["AUREN_AGENT_PUBLIC_BASE_URL"; "AUREN_NODE_PUBLIC_BASE_URL"])
    (setString "health-url" (o_HealthURL o) ["AUREN_AGENT_HEALTH_URL"; "AUREN_NODE_HEALTH_URL"])
    (setString "data-dir" (o_DataDir o) ["AUREN_RUNTIME_DATA_DIR"; "AUREN_AGENT_DATA_DIR"])
    (setString "work-dir" (o_WorkDir o) ["AUREN_MEDIA_HUB_WORK_DIR"; "AUREN_AGENT_WORK_DIR"])
    (setString "log-dir" (o_LogDir o) ["AUREN_AGENT_LOG_DIR"; "AUREN_LOG_DIR"])
    (setString "server-host" (o_ServerHost o) ["AUREN_SERVER_HOST"; "AUREN_AGENT_SERVER_HOST"])
    (setInt "server-port" (o_ServerPort o) ["AUREN_SERVER_PORT"; "AUREN_AGENT_SERVER_PORT"])
    (setInt "max-concurrent-jobs" (o_MaxConcurrentJobs o) ["AUREN_MEDIA_HUB_MAX_CONCURRENT_JOBS"; "AUREN_AGENT_MAX_CONCURRENT_JOBS"])
    (setInt "max-sessions" (o_MaxSessions o) ["AUREN_MEDIA_HUB_MAX_SESSIONS"; "AUREN_AGENT_MAX_SESSIONS"])
    (setInt "max-egress-mbps" (o_MaxEgressMbps o) ["AUREN_MEDIA_HUB_MAX_EGRESS_MBPS"; "AUREN_AGENT_MAX_EGRESS_MBPS"])
    (setBool "enable-gateway" (o_EnableGateway o) ["AUREN_MEDIA_HUB_GATEWAY_ENABLED"; "AUREN_AGENT_ENABLE_GATEWAY"])
    (setBool "disable-transfer" (o_DisableTransfer o) ["AUREN_AGENT_DISABLE_TRANSFER"])
    (o_SkipRegister o)
    (setBool "start-service" (o_StartService o) ["AUREN_AGENT_START_SERVICE"])
    (o_SystemdUnit o) (o_DryRun o).
End Variables.

Definition blank (s : string) : bool := String.eqb (TrimSpace s) "".

Definition validateBootstrapOptions (o : bootstrapOptions) : result unit :=
  if blank (o_ConfigPath o) then Err (Errorf "--config is required") else
  if blank (o_MediaHubURL o) then Err (Errorf "--media-hub is required") else
  if blank (o_RegistrationToken o) && blank (o_BootstrapTokenEndpoint o) && negb (o_SkipRegister o)
  then Err (Errorf "--token or --token-endpoint is required unless --skip-register is set") else
  if o_EnableGateway o && blank (o_PublicBaseURL o)
  then Err (Errorf "--public-base-url is required when --enable-gateway is set") else
  if (o_ServerPort o <? 1) || (65535 <? o_ServerPort o) then Err (Errorf "--server-port must be between 1 and 65535") else
  if o_MaxConcurrentJobs o <=? 0 then Err (Errorf "--max-concurrent-jobs must be greater than zero") else
  Ok tt.

(** ** Settings *)
Definition normalizeRole (role : string) (gatewayEnabled transferEnabled : bool) : string :=
  let role := ToLower (TrimSpace role) in
  let role := if String.eqb role "" || String.eqb role "worker,gateway" || String.eqb role "gateway,worker" then "hybrid" else role in
  if bool_decide (role ∈ ["worker"; "gateway"; "edge"; "hybrid"]) then role else
  if gatewayEnabled && transferEnabled then "hybrid" else
  if gatewayEnabled then "gateway" else "worker".

Definition bootstrapCapabilities (gatewayEnabled transferEnabled : bool) : string :=
  let caps := ["download"; "upload"; "auren_storage"; "xtream"; "shui"; "m3u8"; "hls"] in
  let caps := if transferEnabled then "transfer" :: caps else caps in
  let caps := if gatewayEnabled then caps ++ ["gateway"; "live"; "movie"; "series"] else caps in
  Join caps ",".

Definition maxInt (a b : Z) : Z := if b <? a then a else b.

(** [bootstrapConfig] on the section of the hub. *)
Definition bootstrap_hub (o : bootstrapOptions) (h : MediaHubConfig) : MediaHubConfig :=
  let public := TrimRightChar "/" (TrimSpace (o_PublicBaseURL o)) in
  let health :=
    if negb (blank (o_HealthURL o)) then TrimSpace (o_HealthURL o) else
    if negb (String.eqb public "") then TrimRightChar "/" public +:+ "/health" else MediaHub_HealthURL h in
  mkMediaHubConfig true (TrimRightChar "/" (TrimSpace (o_MediaHubURL o))) (TrimSpace (o_RegistrationToken o))
    (TrimSpace (o_BootstrapTokenEndpoint o)) (TrimSpace (o_BootstrapTokenSecret o)) (MediaHub_RegisterPath h)
    (MediaHub_ConfigPath h) (MediaHub_HeartbeatPath h) (MediaHub_MetricsPath h) (MediaHub_EventsPath h)
    (MediaHub_NodeUUID h) (MediaHub_NodeSecret h) true true (MediaHub_PollInterval h) (negb (o_DisableTransfer o))
    (negb (o_DisableTransfer o)) (MediaHub_ClaimInterval h) (MediaHub_ProgressInterval h) (MediaHub_ControlInterval h)
    (maxInt 1 (o_MaxConcurrentJobs o)) (MediaHub_AcceptedOperations h) (o_WorkDir o) (MediaHub_MinBytes h)
    (MediaHub_BlockHTML h) (o_EnableGateway o) true true (MediaHub_GatewayHeartbeatInterval h)
    (MediaHub_GatewayTokenTTL h) true (Join2 (o_WorkDir o) "drain") true true 1073741824 true
    (Join2 (o_WorkDir o) "dead-letter") true (MediaHub_LeaseRenewalInterval h) (MediaHub_SecretRotationEnabled h)
    (MediaHub_SecretRotationInterval h) (MediaHub_HeartbeatInterval h) (MediaHub_MetricsInterval h)
    (MediaHub_EventsFlushInterval h) (normalizeRole (o_Role o) (o_EnableGateway o) (negb (o_DisableTransfer o)))
    (MediaHub_Provider h) (TrimSpace (o_Region o)) (TrimSpace (o_AvailabilityZone o)) public health (o_MaxSessions o)
    (o_MaxEgressMbps o) (bootstrapCapabilities (o_EnableGateway o) (negb (o_DisableTransfer o))).

Definition configure (o : bootstrapOptions) (cfg : Config) : Config :=
  let dl := cfg_Download cfg in let st := cfg_Storage cfg in
  mkConfig (cfg_App cfg) (mkRuntimeConfig "production" (o_DataDir o) linuxDefaultTempDir)
    (mkLoggerConfig (Logger_Level (cfg_Logger cfg)) "json" (Logger_Timestamp (cfg_Logger cfg)) (Logger_Service (cfg_Logger cfg)))
    (mkServerConfig true (o_ServerHost o) (o_ServerPort o) (Server_ReadTimeout (cfg_Server cfg))
       (Server_WriteTimeout (cfg_Server cfg)) (Server_IdleTimeout (cfg_Server cfg)))
    (mkWorkerConfig true (maxInt 1 (o_MaxConcurrentJobs o)) (Worker_ShutdownTimeout (cfg_Worker cfg)))
    (cfg_Queue cfg) (cfg_Resolver cfg)
    (mkDownloadConfig (Join2 linuxDefaultTempDir "downloads") (Download_ConnectTimeout dl) (Download_ResponseHeaderTimeout dl)
       (Download_IdleTimeout dl) (Download_MaxRetries dl) (Download_RetryBackoff dl) (Download_ChunkSize dl)
       (Download_ResumeEnabled dl) (Download_Checksum dl))
    (cfg_Upload cfg)
    (mkStorageConfig (Storage_Driver st) (Storage_Endpoint st) (Storage_Bucket st) (Storage_APIKey st) (Storage_Region st)
       (Join2 (o_DataDir o) "storage") (Storage_UsePathStyle st) (Storage_AccessKeyID st) (Storage_SecretAccessKey st)
       (Storage_SessionToken st) (Storage_S3ForcePathStyle st))
    (cfg_Metrics cfg) (cfg_Heartbeat cfg) (cfg_Security cfg) (bootstrap_hub o (cfg_MediaHub cfg))
    (mkDevUIConfig true "/_auren/dev" 1000 "2s" true 8192).

(** [bootstrapConfig]: over the settings of the file when there is one, else over the
    defaults.  [stat] and [read] are the faults of the two calls on the file. *)
Definition base_config (path : string) (stat read : option error) (order : list (string * list string)) (fs : FS)
  (env : environ) : result Config * environ :=
  match (match stat with
         | Some e => Some e
         | None => match fs !! path with Some _ => None | None => Some os_ErrNotExist end
         end) with
  | None => Load (mkLoadOptions path [] []) read order fs env
  | Some e => (if IsNotExist e then Ok DefaultConfig else Err (path_error "stat" path e), env)
  end.
Definition bootstrapConfig (o : bootstrapOptions) (stat read : option error) (order : list (string * list string)) (fs : FS)
  (env : environ) : result Config * environ :=
  match base_config (o_ConfigPath o) stat read order fs env with
  | (Ok cfg, env) => (Ok (configure o cfg), env)
  | (Err e, env) => (Err e, env)
  end.

(** What the command changes after a registration. *)
Definition registered (nodeUUID : string) (cfg : Config) : Config :=
  let h := cfg_MediaHub cfg in
  mkConfig (cfg_App cfg) (cfg_Runtime cfg) (cfg_Logger cfg) (cfg_Server cfg) (cfg_Worker cfg) (cfg_Queue cfg)
    (cfg_Resolver cfg) (cfg_Download cfg) (cfg_Upload cfg) (cfg_Storage cfg) (cfg_Metrics cfg) (cfg_Heartbeat cfg)
    (cfg_Security cfg)
    (mkMediaHubConfig (MediaHub_Enabled h) (MediaHub_BaseURL h) "" (MediaHub_BootstrapTokenEndpoint h) ""
      (MediaHub_RegisterPath h) (MediaHub_ConfigPath h) (MediaHub_HeartbeatPath h) (MediaHub_MetricsPath h)
      (MediaHub_EventsPath h) nodeUUID "" (MediaHub_HMACEnabled h) (MediaHub_PollEnabled h) (MediaHub_PollInterval h)
      (MediaHub_TransferEnabled h) (MediaHub_ClaimEnabled h) (MediaHub_ClaimInterval h) (MediaHub_ProgressInterval h)
      (MediaHub_ControlInterval h) (MediaHub_MaxConcurrentJobs h) (MediaHub_AcceptedOperations h) (MediaHub_WorkDir h)
      (MediaHub_MinBytes h) (MediaHub_BlockHTML h) (MediaHub_GatewayEnabled h) (MediaHub_GatewayProxyEnabled h)
      (MediaHub_GatewayRedirectEnabled h) (MediaHub_GatewayHeartbeatInterval h) (MediaHub_GatewayTokenTTL h)
      (MediaHub_DrainEnabled h) (MediaHub_DrainFile h) (MediaHub_BackpressureEnabled h) (MediaHub_DiskGuardEnabled h)
      (MediaHub_DiskMinFreeBytes h) (MediaHub_DeadLetterEnabled h) (MediaHub_DeadLetterDir h)
      (MediaHub_LeaseRenewalEnabled h) (MediaHub_LeaseRenewalInterval h) (MediaHub_SecretRotationEnabled h)
      (MediaHub_SecretRotationInterval h) (MediaHub_HeartbeatInterval h) (MediaHub_MetricsInterval h)
      (MediaHub_EventsFlushInterval h) (MediaHub_Role h) (MediaHub_Provider h) (MediaHub_Region h)
      (MediaHub_AvailabilityZone h) (MediaHub_PublicBaseURL h) (MediaHub_HealthURL h) (MediaHub_MaxSessions h)
      (MediaHub_MaxEgressMbps h) (MediaHub_Capabilities h))
    (cfg_DevUI cfg).

(** ** The file *)
Definition agent_sections (cfg : Config) : list (string * list (string * cval)) :=
  [ ("app",
       [ ("name", CString (App_Name (cfg_App cfg)));
         ("description", CString (App_Description (cfg_App cfg))) ]);
     ("runtime",
       [ ("environment", CString (Runtime_Environment (cfg_Runtime cfg)));
         ("data_dir", CString (Runtime_DataDir (cfg_Runtime cfg)));
         ("temp_dir", CString (Runtime_TempDir (cfg_Runtime cfg))) ]);
     ("logger",
       [ ("level", CString (Logger_Level (cfg_Logger cfg)));
         ("format", CString (Logger_Format (cfg_Logger cfg)));
         ("timestamp", CBool (Logger_Timestamp (cfg_Logger cfg)));
         ("service", CString (Logger_Service (cfg_Logger cfg))) ]);
     ("server",
       [ ("enabled", CBool (Server_Enabled (cfg_Server cfg)));
         ("host", CString (Server_Host (cfg_Server cfg)));
         ("port", CInt (Server_Port (cfg_Server cfg)));
         ("read_timeout", CString (Server_ReadTimeout (cfg_Server cfg)));
         ("write_timeout", CString (Server_WriteTimeout (cfg_Server cfg)));
         ("idle_timeout", CString (Server_IdleTimeout (cfg_Server cfg))) ]);
     ("worker",
       [ ("enabled", CBool (Worker_Enabled (cfg_Worker cfg)));
         ("concurrency", CInt (Worker_Concurrency (cfg_Worker cfg)));
         ("shutdown_timeout", CString (Worker_ShutdownTimeout (cfg_Worker cfg))) ]);
     ("queue",
       [ ("driver", CString (Queue_Driver (cfg_Queue cfg)));
         ("memory_capacity", CInt (Queue_MemoryCapacity (cfg_Queue cfg)));
         ("poll_interval", CString (Queue_PollInterval (cfg_Queue cfg)));
         ("redis_address", CString (Queue_RedisAddress (cfg_Queue cfg)));
         ("redis_stream", CString (Queue_RedisStream (cfg_Queue cfg)));
         ("redis_consumer_group", CString (Queue_RedisConsumerGroup (cfg_Queue cfg)));
         ("rabbitmq_url", CString (Queue_RabbitMQURL (cfg_Queue cfg)));
         ("rabbitmq_queue", CString (Queue_RabbitMQQueue (cfg_Queue cfg)));
         ("nats_url", CString (Queue_NATSURL (cfg_Queue cfg)));
         ("nats_subject", CString (Queue_NATSSubject (cfg_Queue cfg)));
         ("nats_queue_group", CString (Queue_NATSQueueGroup (cfg_Queue cfg))) ]);
     ("resolver",
       [ ("default_user_agent", CString (Resolver_DefaultUserAgent (cfg_Resolver cfg)));
         ("follow_redirects", CBool (Resolver_FollowRedirects (cfg_Resolver cfg)));
         ("max_redirects", CInt (Resolver_MaxRedirects (cfg_Resolver cfg))) ]);
     ("download",
       [ ("temp_dir", CString (Download_TempDir (cfg_Download cfg)));
         ("connect_timeout", CString (Download_ConnectTimeout (cfg_Download cfg)));
         ("response_header_timeout", CString (Download_ResponseHeaderTimeout (cfg_Download cfg)));
         ("idle_timeout", CString (Download_IdleTimeout (cfg_Download cfg)));
         ("max_retries", CInt (Download_MaxRetries (cfg_Download cfg)));
         ("retry_backoff", CString (Download_RetryBackoff (cfg_Download cfg)));
         ("chunk_size", CString (Download_ChunkSize (cfg_Download cfg)));
         ("resume_enabled", CBool (Download_ResumeEnabled (cfg_Download cfg)));
         ("checksum", CString (Download_Checksum (cfg_Download cfg))) ]);
     ("upload",
       [ ("driver", CString (Upload_Driver (cfg_Upload cfg)));
         ("max_retries", CInt (Upload_MaxRetries (cfg_Upload cfg)));
         ("retry_backoff", CString (Upload_RetryBackoff (cfg_Upload cfg)));
         ("multipart_enabled", CBool (Upload_MultipartEnabled (cfg_Upload cfg)));
         ("part_size", CString (Upload_PartSize (cfg_Upload cfg))) ]);
     ("storage",
       [ ("driver", CString (Storage_Driver (cfg_Storage cfg)));
         ("endpoint", CString (Storage_Endpoint (cfg_Storage cfg)));
         ("bucket", CString (Storage_Bucket (cfg_Storage cfg)));
         ("api_key", CString (Storage_APIKey (cfg_Storage cfg)));
         ("region", CString (Storage_Region (cfg_Storage cfg)));
         ("local_path", CString (Storage_LocalPath (cfg_Storage cfg)));
         ("use_path_style", CBool (Storage_UsePathStyle (cfg_Storage cfg)));
         ("access_key_id", CString (Storage_AccessKeyID (cfg_Storage cfg)));
         ("secret_access_key", CString (Storage_SecretAccessKey (cfg_Storage cfg)));
         ("session_token", CString (Storage_SessionToken (cfg_Storage cfg)));
         ("s3_force_path_style", CBool (Storage_S3ForcePathStyle (cfg_Storage cfg))) ]);
     ("metrics",
       [ ("enabled", CBool (Metrics_Enabled (cfg_Metrics cfg)));
         ("host", CString (Metrics_Host (cfg_Metrics cfg)));
         ("port", CInt (Metrics_Port (cfg_Metrics cfg)));
         ("path", CString (Metrics_Path (cfg_Metrics cfg))) ]);
     ("heartbeat",
       [ ("enabled", CBool (Heartbeat_Enabled (cfg_Heartbeat cfg)));
         ("interval", CString (Heartbeat_Interval (cfg_Heartbeat cfg)));
         ("timeout", CString (Heartbeat_Timeout (cfg_Heartbeat cfg))) ]);
     ("security",
       [ ("api_key_required", CBool (Security_APIKeyRequired (cfg_Security cfg)));
         ("api_key", CString (Security_APIKey (cfg_Security cfg)));
         ("api_key_hash", CString (Security_APIKeyHash (cfg_Security cfg)));
         ("token_header", CString (Security_TokenHeader (cfg_Security cfg)));
         ("allow_insecure_http", CBool (Security_AllowInsecureHTTP (cfg_Security cfg)));
         ("jwt_enabled", CBool (Security_JWTEnabled (cfg_Security cfg)));
         ("jwt_secret", CString (Security_JWTSecret (cfg_Security cfg)));
         ("jwt_ttl", CString (Security_JWTTTL (cfg_Security cfg)));
         ("mtls_enabled", CBool (Security_MTLSEnabled (cfg_Security cfg)));
         ("mtls_required_cn", CString (Security_MTLSRequiredCN (cfg_Security cfg)));
         ("rbac_enabled", CBool (Security_RBACEnabled (cfg_Security cfg)));
         ("rate_limit_enabled", CBool (Security_RateLimitEnabled (cfg_Security cfg)));
         ("rate_limit_per_minute", CInt (Security_RateLimitPerMin (cfg_Security cfg)));
         ("secrets_provider", CString (Security_SecretsProvider (cfg_Security cfg)));
         ("secrets_file", CString (Security_SecretsFile (cfg_Security cfg))) ]);
     ("dev_ui",
       [ ("enabled", CBool (DevUI_Enabled (cfg_DevUI cfg)));
         ("path", CString (DevUI_Path (cfg_DevUI cfg)));
         ("retention", CInt (DevUI_Retention (cfg_DevUI cfg)));
         ("refresh_interval", CString (DevUI_RefreshInterval (cfg_DevUI cfg)));
         ("capture_bodies", CBool (DevUI_CaptureBodies (cfg_DevUI cfg)));
         ("body_limit_bytes", CInt (DevUI_BodyLimitBytes (cfg_DevUI cfg))) ]);
     ("media_hub",
       [ ("enabled", CBool (MediaHub_Enabled (cfg_MediaHub cfg)));
         ("base_url", CString (MediaHub_BaseURL (cfg_MediaHub cfg)));
         ("registration_token", CString (MediaHub_RegistrationToken (cfg_MediaHub cfg)));
         ("bootstrap_token_endpoint", CString (MediaHub_BootstrapTokenEndpoint (cfg_MediaHub cfg)));
         ("bootstrap_token_secret", CString (MediaHub_BootstrapTokenSecret (cfg_MediaHub cfg)));
         ("register_path", CString (MediaHub_RegisterPath (cfg_MediaHub cfg)));
         ("config_path", CString (MediaHub_ConfigPath (cfg_MediaHub cfg)));
         ("heartbeat_path", CString (MediaHub_HeartbeatPath (cfg_MediaHub cfg)));
         ("metrics_path", CString (MediaHub_MetricsPath (cfg_MediaHub cfg)));
         ("events_path", CString (MediaHub_EventsPath (cfg_MediaHub cfg)));
         ("node_uuid", CString (MediaHub_NodeUUID (cfg_MediaHub cfg)));
         ("node_secret", CString (MediaHub_NodeSecret (cfg_MediaHub cfg)));
         ("hmac_enabled", CBool (MediaHub_HMACEnabled (cfg_MediaHub cfg)));
         ("poll_enabled", CBool (MediaHub_PollEnabled (cfg_MediaHub cfg)));
         ("poll_interval", CString (MediaHub_PollInterval (cfg_MediaHub cfg)));
         ("transfer_enabled", CBool (MediaHub_TransferEnabled (cfg_MediaHub cfg)));
         ("claim_enabled", CBool (MediaHub_ClaimEnabled (cfg_MediaHub cfg)));
         ("claim_interval", CString (MediaHub_ClaimInterval (cfg_MediaHub cfg)));
         ("progress_interval", CString (MediaHub_ProgressInterval (cfg_MediaHub cfg)));
         ("control_interval", CString (MediaHub_ControlInterval (cfg_MediaHub cfg)));
         ("max_concurrent_jobs", CInt (MediaHub_MaxConcurrentJobs (cfg_MediaHub cfg)));
         ("accepted_operations", CString (MediaHub_AcceptedOperations (cfg_MediaHub cfg)));
         ("work_dir", CString (MediaHub_WorkDir (cfg_MediaHub cfg)));
         ("min_bytes", CInt (MediaHub_MinBytes (cfg_MediaHub cfg)));
         ("block_html", CBool (MediaHub_BlockHTML (cfg_MediaHub cfg)));
         ("gateway_enabled", CBool (MediaHub_GatewayEnabled (cfg_MediaHub cfg)));
         ("gateway_proxy_enabled", CBool (MediaHub_GatewayProxyEnabled (cfg_MediaHub cfg)));
         ("gateway_redirect_enabled", CBool (MediaHub_GatewayRedirectEnabled (cfg_MediaHub cfg)));
         ("gateway_heartbeat_interval", CString (MediaHub_GatewayHeartbeatInterval (cfg_MediaHub cfg)));
         ("gateway_token_ttl", CString (MediaHub_GatewayTokenTTL (cfg_MediaHub cfg)));
         ("drain_enabled", CBool (MediaHub_DrainEnabled (cfg_MediaHub cfg)));
         ("drain_file", CString (MediaHub_DrainFile (cfg_MediaHub cfg)));
         ("backpressure_enabled", CBool (MediaHub_BackpressureEnabled (cfg_MediaHub cfg)));
         ("disk_guard_enabled", CBool (MediaHub_DiskGuardEnabled (cfg_MediaHub cfg)));
         ("disk_min_free_bytes", CInt (MediaHub_DiskMinFreeBytes (cfg_MediaHub cfg)));
         ("dead_letter_enabled", CBool (MediaHub_DeadLetterEnabled (cfg_MediaHub cfg)));
         ("dead_letter_dir", CString (MediaHub_DeadLetterDir (cfg_MediaHub cfg)));
         ("lease_renewal_enabled", CBool (MediaHub_LeaseRenewalEnabled (cfg_MediaHub cfg)));
         ("lease_renewal_interval", CString (MediaHub_LeaseRenewalInterval (cfg_MediaHub cfg)));
         ("secret_rotation_enabled", CBool (MediaHub_SecretRotationEnabled (cfg_MediaHub cfg)));
         ("secret_rotation_interval", CString (MediaHub_SecretRotationInterval (cfg_MediaHub cfg)));
         ("heartbeat_interval", CString (MediaHub_HeartbeatInterval (cfg_MediaHub cfg)));
         ("metrics_interval", CString (MediaHub_MetricsInterval (cfg_MediaHub cfg)));
         ("events_flush_interval", CString (MediaHub_EventsFlushInterval (cfg_MediaHub cfg)));
         ("role", CString (MediaHub_Role (cfg_MediaHub cfg)));
         ("provider", CString (MediaHub_Provider (cfg_MediaHub cfg)));
         ("region", CString (MediaHub_Region (cfg_MediaHub cfg)));
         ("availability_zone", CString (MediaHub_AvailabilityZone (cfg_MediaHub cfg)));
         ("public_base_url", CString (MediaHub_PublicBaseURL (cfg_MediaHub cfg)));
         ("health_url", CString (MediaHub_HealthURL (cfg_MediaHub cfg)));
         ("max_sessions", CInt (MediaHub_MaxSessions (cfg_MediaHub cfg)));
         ("max_egress_mbps", CInt (MediaHub_MaxEgressMbps (cfg_MediaHub cfg)));
         ("capabilities", CString (MediaHub_Capabilities (cfg_MediaHub cfg))) ]) ].

(** The verbs %q, %d and %t. *)
Definition render_value (v : cval) : string := match v with CString s => Quote s | _ => Sprint v end.
Definition agent_document (cfg : Config) : document :=
  map (fun '(name, es) => (name, map (fun '(k, v) => (k, render_value v)) es)) (agent_sections cfg).
Definition renderAgentYAML (cfg : Config) : string := print_document (agent_document cfg).

(** [writeAgentConfig] and the states of the file system it goes through. *)
Definition writeAgentConfig (fl : write_faults) (tmp path : string) (cfg : Config) (fs : FS) : option error * list FS :=
  write_atomic fl tmp path (renderAgentYAML cfg) fs.

(** ** The file is read back *)

(** A text that %q prints as it is. *)
Definition printable (c : ascii) : bool :=
  (32 <=? code c) && negb (code c =? 34) && negb (code c =? 92) && negb (code c =? 127).
Definition unescaped_value (v : cval) : Prop :=
  match v with
  | CString s => Forall (fun c => printable c = true) (chars s) /\ Quote s = double_quote +:+ s +:+ double_quote
  | _ => True
  end.

Lemma render_unescaped v : unescaped_value v -> render_value v = scalar_text v.
Proof. destruct v as [z|z|b|s|m]; cbn [unescaped_value render_value scalar_text]; try done. by intros [_ ->]. Qed.

(** Settings the file can hold: every text is printable and is read as a text. *)
Definition storable (cfg : Config) : Prop := plain_config cfg /\
  Forall (fun section : string * list (string * cval) => Forall (fun e : string * cval => unescaped_value e.2) section.2) (config_sections cfg).

(** The sections of the file are the sections of the settings, the last two exchanged. *)
Lemma agent_sections_swap cfg : exists front hub dev,
  config_sections cfg = front ++ [hub; dev] /\ agent_sections cfg = front ++ [dev; hub].
Proof.
  exists (take 13 (config_sections cfg)). eexists _, _. split; [reflexivity|].
  destruct cfg. reflexivity.
Qed.
Lemma agent_sections_perm cfg : agent_sections cfg ≡ₚ config_sections cfg.
Proof.
  destruct (agent_sections_swap cfg) as (front & hub & dev & -> & ->). apply Permutation_app_head. apply perm_swap.
Qed.

Lemma agent_document_perm cfg : storable cfg -> agent_document cfg ≡ₚ config_document cfg.
Proof.
  intros [_ HU]. unfold agent_document, config_document. etransitivity; [|apply Permutation_map, (agent_sections_perm cfg)].
  rewrite <- agent_sections_perm in HU. apply reflexive_eq, map_ext_in. intros [name es] Hin%list_elem_of_In.
  rewrite Forall_forall in HU. apply HU in Hin. cbn [snd] in Hin. f_equal. apply map_ext_in.
  intros [k v] Hv%list_elem_of_In. rewrite Forall_forall in Hin. apply Hin in Hv. cbn [snd] in Hv. by rewrite render_unescaped.
Qed.

Lemma yaml_document_perm d d' : d ≡ₚ d' -> yaml_document d' -> yaml_document d.
Proof. intros HP [H1 H2]. split; [|by rewrite HP]. by rewrite (Permutation_map fst HP). Qed.

Lemma agent_document_tree cfg : storable cfg ->
  document_tree (agent_document cfg) = map (fun '(name, es) => (name, CMap es)) (agent_sections cfg).
Proof.
  intros [HP HU]. unfold plain_config in HP. rewrite <- agent_sections_perm in HP, HU. unfold document_tree, agent_document. rewrite map_map.
  apply map_ext_in. intros [name es] Hin%list_elem_of_In. rewrite Forall_forall in HP, HU. apply HU in Hin as HuE. apply HP in Hin as HpE.
  cbn [snd] in *. do 2 f_equal. rewrite map_map. rewrite <- (map_id es) at 2. apply map_ext_in. intros [k v] Hv%list_elem_of_In.
  rewrite Forall_forall in HuE, HpE. apply HuE in Hv as Hu. apply HpE in Hv as Hp. cbn [snd] in *.
  rewrite render_unescaped by done. by destruct (scalar_text_ok v Hp) as [_ ->].
Qed.

Lemma decode_agent cfg :
  fill_Config (effective ∅ (merge default_tree (map (fun '(name, es) => (name, CMap es)) (agent_sections cfg)))) zero_config = Ok cfg.
Proof. destruct cfg as [[] [] [] [] [] [] [] [] [] [] [] [] [] [] []]. vm_compute. reflexivity. Qed.

(** C23: the file that bootstrap writes is read back as the settings it was written from, for
    valid settings whose texts are printable and are not themselves numbers or switches,
    whatever other files there are. *)
Theorem agent_file_roundtrip cfg file order fs : storable cfg -> Validate cfg = Ok tt -> TrimSpace file = file -> file <> "" ->
  fs !! file = Some (renderAgentYAML cfg) ->
  Load (mkLoadOptions file [] [""]) None order fs ∅ = (Ok cfg, ∅).
Proof.
  intros HS HV HT Hne HF. unfold Load, loadEnvironmentFiles. cbn [lo_EnvFiles load_env_files]. change (TrimSpace "") with "".
  cbn [String.eqb]. rewrite aliases_of_nothing. unfold read_config, resolvePath. cbn [lo_Path lo_SearchPaths].
  rewrite HT, (proj2 (String.eqb_neq _ _) Hne). cbn [negb]. rewrite HF. unfold ReadFile. rewrite HF. cbv beta iota.
  unfold renderAgentYAML. rewrite parse_print.
  - rewrite agent_document_tree, decode_agent by done. by rewrite HV.
  - eapply yaml_document_perm; [by apply agent_document_perm|]. apply config_document_ok. apply HS.
Qed.

(** A decidable form of the condition. *)
Definition storable_check (cfg : Config) : bool :=
  forallb (fun section => forallb (fun e =>
    match e.2 with
    | CString s => forallb printable (chars s) && String.eqb (Quote s) (double_quote +:+ s +:+ double_quote) &&
      match parseScalar (double_quote +:+ s +:+ double_quote) with CString t => String.eqb t s | _ => false end
    | CInt z => bool_decide (in_int64 z)
    | CBool _ => true
    | _ => false
    end) section.2) (config_sections cfg).

Lemma storable_checked cfg : storable_check cfg = true -> storable cfg.
Proof.
  unfold storable_check, storable, plain_config. generalize (config_sections cfg). intros l H. rewrite forallb_forall in H.
  assert (forall section e, section ∈ l -> e ∈ section.2 -> plain_value e.2 /\ unescaped_value e.2) as HE.
  { intros section e Hs%list_elem_of_In He%list_elem_of_In. apply H in Hs. rewrite forallb_forall in Hs. apply Hs in He.
    destruct e.2 as [z|z|b|s|m]; cbn [plain_value unescaped_value]; try done; [by apply bool_decide_eq_true in He|].
    apply andb_true_iff in He as [[H1 HQ%String.eqb_eq]%andb_true_iff H2]. rewrite forallb_forall in H1.
    assert (parseScalar (double_quote +:+ s +:+ double_quote) = CString s) as HP
      by (destruct (parseScalar _); try done; apply String.eqb_eq in H2; by subst).
    assert (Forall (fun c => printable c = true) (chars s)) as HF by (apply Forall_forall; intros c Hc%list_elem_of_In; by apply H1).
    split; [split; [|done]|done]. intros Hl. rewrite Forall_forall in HF. by apply HF in Hl. }
  split; apply Forall_forall; intros section Hs; apply Forall_forall; intros e He; by destruct (HE section e Hs He).
Qed.

Definition sample_options : bootstrapOptions :=
  mkBootstrapOptions "/etc/agent.yaml" "" "https://hub.example/" "token-1" "" "" "worker" "eu-1" "" "https://node.example/" ""
    "/data" "/data/transfer" "/log" "0.0.0.0" 8080 2 500 1000 true false false false "agent.service" false.

Lemma agent_file_roundtrip_witness :
  let cfg := registered "node-1" (configure sample_options DefaultConfig) in
  (Load (mkLoadOptions "/etc/agent.yaml" [] [""]) None aliases {["/etc/agent.yaml" := renderAgentYAML cfg]} ∅).1 = Ok cfg.
Proof.
  intros cfg. rewrite (agent_file_roundtrip cfg "/etc/agent.yaml" aliases {["/etc/agent.yaml" := renderAgentYAML cfg]}).
  - reflexivity.
  - apply storable_checked. vm_compute. reflexivity.
  - vm_compute. reflexivity.
  - vm_compute. reflexivity.
  - discriminate.
  - apply lookup_singleton_eq.
Defined.

(** ** The settings are valid *)
Lemma elem_of_split c comp l : comp ∈ split_chars slash l -> c ∈ comp -> c ∈ l.
Proof.
  intros H Hc. rewrite <- (join_split slash l). induction (split_chars slash l) as [|x ls IH]; [by apply not_elem_of_nil in H|].
  apply elem_of_cons in H as [<-|H].
  - destruct ls; cbn [join_chars]; [done|]. apply elem_of_app. by left.
  - destruct ls as [|y ls]; [by apply not_elem_of_nil in H|]. apply elem_of_app. right. right. by apply IH.
Qed.

Lemma clean_comps_elem rooted comp cs : forall stack, comp ∈ clean_comps rooted stack cs -> comp ∈ stack \/ comp ∈ cs.
Proof.
  unfold clean_comps. induction cs as [|x cs IH]; intros stack; cbn [fold_left]; [by left|]. intros [H|H]%IH; [|by right; right].
  unfold push_comp in H. destruct (_ || _); [by left|]. case_bool_decide as Hd.
  - destruct stack as [|top rest].
    + destruct rooted; [by apply not_elem_of_nil in H|]. apply list_elem_of_singleton in H as ->. right. rewrite Hd. by left.
    + case_bool_decide; [|left; by right]. apply elem_of_cons in H as [->|H]; [right; rewrite Hd; by left|by left].
  - apply elem_of_cons in H as [->|H]; [right; by left|by left].
Qed.

(** A file below a directory has a name. *)
Lemma Join2_visible dir name c : plain (chars name) -> c ∈ chars name -> no_space c = true -> TrimSpace (Join2 dir name) <> "".
Proof.
  intros HP Hc Hs. apply (TrimSpace_visible _ c); [|done].
  assert (chars name ∈ path_stack (Join2 dir name)) as Hin.
  { destruct (String.eqb_spec dir "") as [->|Hne].
    - unfold Join2. cbn [String.eqb]. destruct (String.eqb_spec name "") as [->|_]; [by destruct HP|].
      assert (IsAbs name = false) as HA.
      { unfold IsAbs. apply not_true_is_false. unfold HasPrefix. intros H%is_prefix_spec. destruct H as [k Hk]. destruct HP as (_ & _ & _ & HP).
        apply HP. rewrite Hk. by left. }
      unfold Clean, path_stack at 2. rewrite HA, split_chars_plain by apply HP. cbn [clean_comps fold_left]. rewrite push_plain by done.
      assert (clean_stack false [chars name]) as HS by (apply cs_push; [done|by apply (cs_base _ 0)]).
      rewrite path_stack_render by done. by left.
    - rewrite <- (str_chars name) at 2. rewrite (proj1 (Join2_child dir (chars name) Hne HP)). by left. }
  unfold path_stack in Hin. apply clean_comps_elem in Hin as [Hin|Hin]; [by apply not_elem_of_nil in Hin|]. by eapply elem_of_split.
Qed.

Lemma normalizeRole_known role gateway transfer :
  normalizeRole role gateway transfer ∈ ["worker"; "gateway"; "edge"; "hybrid"].
Proof.
  unfold normalizeRole. cbv zeta. case_bool_decide as H; [exact H|].
  repeat case_match; apply (bool_decide_unpack _); vm_compute; exact I.
Qed.

(** Options from which a node can be configured: beyond the checks of the command, the
    directories, the host and the region are not blank, the limits not negative, and the
    addresses more than slashes. *)
Record usable (o : bootstrapOptions) : Prop := mkUsable {
  us_valid : validateBootstrapOptions o = Ok tt;
  us_data : TrimSpace (o_DataDir o) <> "";
  us_work : o_DisableTransfer o = false -> TrimSpace (o_WorkDir o) <> "";
  us_host : TrimSpace (o_ServerHost o) <> "";
  us_region : TrimSpace (o_Region o) <> "";
  us_sessions : 0 <= o_MaxSessions o;
  us_egress : 0 <= o_MaxEgressMbps o;
  us_hub : TrimSpace (TrimRightChar "/" (TrimSpace (o_MediaHubURL o))) <> "";
  us_public : o_EnableGateway o = true -> TrimSpace (TrimRightChar "/" (TrimSpace (o_PublicBaseURL o))) <> ""
}.

(** Settings to start from: the defaults, or valid ones of a node that has a hub. *)
Definition base_settings (o : bootstrapOptions) (cfg : Config) : Prop :=
  cfg = DefaultConfig \/
  Validate cfg = Ok tt /\ MediaHub_Enabled (cfg_MediaHub cfg) = true /\
  (o_DisableTransfer o = false -> TrimSpace (MediaHub_AcceptedOperations (cfg_MediaHub cfg)) <> "").

Lemma valid_options o : validateBootstrapOptions o = Ok tt ->
  1 <= o_ServerPort o <= 65535 /\ 0 < o_MaxConcurrentJobs o /\ blank (o_ConfigPath o) = false.
Proof.
  unfold validateBootstrapOptions. repeat (destruct (if _ then _ else _) eqn:?; [done|]).
  destruct (blank (o_ConfigPath o)); [done|]. destruct (blank (o_MediaHubURL o)); [done|]. destruct (_ && _ && _); [done|].
  destruct (_ && _); [done|]. destruct (_ || _) eqn:E1; [done|]. destruct (_ <=? _) eqn:E2; [done|]. intros _. lia.
Qed.

(** Closed checks are evaluated. *)
Ltac closed_check :=
  lazymatch goal with
  | |- oneOf "runtime.environment" _ _ = [] => reflexivity
  | |- oneOf "logger.format" _ _ = [] => reflexivity
  | |- requiredString "runtime.temp_dir" _ = [] => reflexivity
  | |- requiredString "download.temp_dir" _ = [] => vm_compute; reflexivity
  | |- path "dev_ui.path" _ = [] => reflexivity
  | |- positiveInt "dev_ui.retention" _ = [] => reflexivity
  | |- duration "dev_ui.refresh_interval" _ = [] => vm_compute; reflexivity
  | |- (if DevUI_BodyLimitBytes _ <? 0 then _ else _) = [] => reflexivity
  | |- (if MediaHub_DiskMinFreeBytes _ <? 0 then _ else _) = [] => reflexivity
  end.

Lemma maxInt_positive n : 0 < maxInt 1 n.
Proof. unfold maxInt. destruct (Z.ltb_spec n 1); lia. Qed.

Lemma capabilities_named gateway transfer : TrimSpace (bootstrapCapabilities gateway transfer) <> "".
Proof. destruct gateway, transfer; vm_compute; discriminate. Qed.

Lemma role_allowed o h : oneOf "media_hub.role" (MediaHub_Role (bootstrap_hub o h)) ["gateway"; "worker"; "edge"; "hybrid"] = [].
Proof.
  change (MediaHub_Role (bootstrap_hub o h)) with (normalizeRole (o_Role o) (o_EnableGateway o) (negb (o_DisableTransfer o))).
  pose proof (normalizeRole_known (o_Role o) (o_EnableGateway o) (negb (o_DisableTransfer o))) as H.
  generalize dependent (normalizeRole (o_Role o) (o_EnableGateway o) (negb (o_DisableTransfer o))). intros role H.
  rewrite !elem_of_cons, elem_of_nil in H. destruct H as [->|[->|[->|[->|[]]]]]; vm_compute; reflexivity.
Qed.

Lemma configure_over_valid o cfg : usable o -> config_issues cfg = [] -> MediaHub_Enabled (cfg_MediaHub cfg) = true ->
  (o_DisableTransfer o = false -> TrimSpace (MediaHub_AcceptedOperations (cfg_MediaHub cfg)) <> "") ->
  config_issues (configure o cfg) = [].
Proof.
  intros [HV U1 U2 U3 U4 U5 U6 U7 U8] HC HE HA. apply valid_options in HV as (V1 & V2 & _). unfold config_issues in HC.
  repeat (let H := fresh "P" in apply app_nil in HC as [H HC]). rewrite HE in HC.
  repeat (let H := fresh "P" in apply app_nil in HC as [H HC]). pose proof (maxInt_positive (o_MaxConcurrentJobs o)) as HM.
  assert (forall dir name c, plain (chars name) -> c ∈ chars name -> no_space c = true -> forall field, requiredString field (Join2 dir name) = []) as HJ.
  { intros dir name c Hp Hc Hs field. apply requiredString_ok. by apply (Join2_visible dir name c). }
  assert (plain (chars "storage") /\ plain (chars "drain") /\ plain (chars "dead-letter")) as (N1 & N2 & N3)
    by (split_and!; try done; apply (bool_decide_unpack _); vm_compute; exact I).
  unfold config_issues, configure. cbn [cfg_App cfg_Runtime cfg_Logger cfg_Server cfg_Worker cfg_Queue cfg_Resolver cfg_Download cfg_Upload
    cfg_Storage cfg_Metrics cfg_Heartbeat cfg_Security cfg_MediaHub cfg_DevUI].
  repeat (apply app_nil; split); try assumption.
  all: change (MediaHub_Enabled (bootstrap_hub o (cfg_MediaHub cfg))) with true; cbv iota; repeat (apply app_nil; split); try assumption.
  all: try (apply requiredString_ok; first [exact U1 | exact U3 | exact U7]).
  all: try (apply nonNegativeInt_ok; first [exact U5 | exact U6]); try closed_check.
  - unfold port. cbn [Server_Port]. by rewrite (proj2 (Z.ltb_ge _ _)), (proj2 (Z.ltb_ge _ _)) by lia.
  - apply positiveInt_ok. exact HM.
  - cbn [Storage_Driver Storage_Endpoint Storage_Bucket Storage_AccessKeyID Storage_SecretAccessKey Storage_LocalPath].
    destruct (EqualFold (TrimSpace (Storage_Driver (cfg_Storage cfg))) "auren_storage"); [assumption|].
    destruct (EqualFold (TrimSpace (Storage_Driver (cfg_Storage cfg))) "s3"); [assumption|]. apply (HJ _ "storage" "s"%char); [done|by left|done].
  - apply nonNegativeInt_ok. apply Z.lt_le_incl. exact HM.
  - cbn [bootstrap_hub MediaHub_TransferEnabled MediaHub_ClaimEnabled]. destruct (o_DisableTransfer o) eqn:ED; cbn [negb orb]; [done|].
    repeat (apply app_nil; split); [apply requiredString_ok; by apply U2|apply requiredString_ok; by apply HA|apply positiveInt_ok; exact HM].
  - apply (HJ _ "drain" "d"%char); [done|by left|done].
  - apply (HJ _ "dead-letter" "d"%char); [done|by left|done].
  - cbn [bootstrap_hub MediaHub_GatewayEnabled]. destruct (o_EnableGateway o) eqn:EG; [|done]. apply requiredString_ok. by apply U8.
  - apply role_allowed.
  - apply requiredString_ok. cbn [bootstrap_hub MediaHub_Region]. by rewrite TrimSpace_idemp.
  - cbn [bootstrap_hub MediaHub_Capabilities]. by rewrite (proj2 (String.eqb_neq _ _) (capabilities_named _ _)).
Qed.

(** C24: from usable options bootstrap makes settings that pass the validation of the agent, on
    a fresh machine as well as over the settings of a node with a hub. *)
Theorem configure_valid o cfg : usable o -> base_settings o cfg -> Validate (configure o cfg) = Ok tt.
Proof.
  intros HU HB. assert (config_issues (configure o cfg) = []) as E; [|unfold Validate; by rewrite E].
  destruct HB as [->|(HV & HE & HA)].
  - set (plain_options := mkBootstrapOptions "/etc/agent.yaml" "" "https://hub.example" "" "" "" "" "eu-1" "" "" "" "/data" "/data/transfer" ""
      "0.0.0.0" 8080 2 0 0 false false true false "" false).
    change (configure o DefaultConfig) with (configure o (configure plain_options DefaultConfig)).
    apply configure_over_valid; [done|vm_compute; reflexivity|reflexivity|intros _; vm_compute; discriminate].
  - apply configure_over_valid; [done| |done|done]. unfold Validate in HV. by destruct (config_issues cfg).
Qed.

Lemma configure_valid_witness : Validate (configure sample_options DefaultConfig) = Ok tt.
Proof.
  apply (configure_valid sample_options DefaultConfig); [|left; reflexivity].
  split; try (vm_compute; first [reflexivity | discriminate]); intros _; vm_compute; discriminate.
Defined.

(** ** Observations *)

(** Texts are written with the escapes of Go, which the reader does not undo: a backslash is
    doubled every time the settings are written and read. *)
Theorem backslash_is_doubled :
  parseScalar (render_value (CString "D:\media")) = CString "D:\\media" /\
  parseScalar (render_value (CString "D:\\media")) = CString "D:\\\\media".
Proof. vm_compute. split; reflexivity. Qed.

(** The variables that name the role and the region in the settings are not looked at by
    bootstrap; only their aliases are. *)
Theorem canonical_role_is_ignored (o : bootstrapOptions) :
  let env : environ := {["AUREN_MEDIA_HUB_ROLE" := "gateway"]} in
  o_Role (applyBootstrapEnv env [] o) = o_Role o /\ envName DefaultEnvPrefix ["media_hub"; "role"] = "AUREN_MEDIA_HUB_ROLE".
Proof. vm_compute. split; reflexivity. Qed.

(** When the file exists, bootstrap starts from the loaded settings, so variables of the
    process, secrets among them, are written to the file; without a file they are not. *)
Theorem second_run_stores_variables :
  let env : environ := {["AUREN_STORAGE_SECRET_ACCESS_KEY" := "from-the-environment"]} in
  let key fs := match (base_config "/etc/agent.yaml" None None aliases fs env).1 with
                | Ok cfg => Some (Storage_SecretAccessKey (cfg_Storage (configure sample_options cfg))) | Err _ => None end in
  key ∅ = Some "" /\ key {["/etc/agent.yaml" := renderAgentYAML (configure sample_options DefaultConfig)]} = Some "from-the-environment".
Proof. vm_compute. split; reflexivity. Qed.
