(* ===== verification/LinuxPackage.v ===== *)
(** * The commands of an installed node: internal/bootstrap/linux_package.go

    [runBootstrap] (options, a registration token, settings, directories, registration at
    the hub, the settings file, the service), [runDoctor] and [runStatus].  They run in a
    state monad over the files, the process environment, the lines printed, the directories
    made, the requests sent and the commands run.  What the outside answers is an argument.
    Options and settings are in AgentYaml.v; flags in GoFlag.v. *)
From Stdlib Require Import SpecFloat.
From S2P Require Import Prelude GoStrings GoPath GoUrl GoUrlText GoTime GoJson GoRFC3339 GoFS GoFlag DocStore Identity IdentityStore NodeState Heartbeat Ops Transfer Download HubClient Connector Viper ConfigData Config Boot AgentYaml.

(** ** The registration token *)
Definition AppName : string := v_Name runtime_Info.
Definition user_agent : string := AppName +:+ "/" +:+ v_Version runtime_Info.

Record TokenRequest := mkTokenRequest { tq_Method : string; tq_URL : string; tq_Header : HeaderSet; tq_Body : string }.

Definition resolveTokenEndpoint (baseURL endpoint : string) : result string :=
  let endpoint := TrimSpace endpoint in
  if String.eqb endpoint "" then Err (Errorf "bootstrap token endpoint is required") else
  parsed ← full_Parse endpoint;
  if nonempty (u_Scheme parsed) then Ok (URL_String parsed) else
  base ← full_Parse (TrimRightChar "/" (TrimSpace baseURL));
  if negb (nonempty (u_Scheme base)) || negb (nonempty (u_Host base))
  then Err (Errorf "media hub base URL is required to resolve relative token endpoint") else
  let path := "/"%char :: chars (TrimLeftChar "/" endpoint) in
  let base := with_path (u_Host base) (chars (TrimRightChar "/" (str (u_Path base))) ++ path) (u_RawPath base) base in
  Ok (URL_String (with_query [] base)).

Fixpoint firstTokenString (values : object) (keys : list string) : string :=
  match keys with
  | [] => ""
  | key :: rest =>
    match assoc key values with
    | Some (AString text) => if blank text then firstTokenString values rest else TrimSpace text
    | _ => firstTokenString values rest
    end
  end.
Definition token_keys : list string := ["registration_token"; "token"; "node_registration_token"].

(** The token of an answer: at the top, or in the first container that has one. *)
Definition token_of (decoded : object) : string :=
  foldl (fun token container =>
    if negb (String.eqb token "") then token else
    match assoc container decoded with Some (AMap nested) => firstTokenString nested token_keys | _ => token end)
    (firstTokenString decoded token_keys) ["data"; "node"; "registration"].

(** [io.LimitReader] at 1 MiB. *)
Definition token_limit : Z := 1048576.

Definition token_payload (o : bootstrapOptions) : object :=
  [ ("role", AString (normalizeRole (o_Role o) (o_EnableGateway o) (negb (o_DisableTransfer o))));
    ("region", AString (TrimSpace (o_Region o)));
    ("availability_zone", AString (TrimSpace (o_AvailabilityZone o)));
    ("base_url", AString (TrimRightChar "/" (TrimSpace (o_PublicBaseURL o))));
    ("health_url", AString (TrimSpace (o_HealthURL o)));
    ("max_sessions", AInt (o_MaxSessions o));
    ("max_egress_mbps", AInt (o_MaxEgressMbps o));
    ("capabilities", AList (map AString (Split (bootstrapCapabilities (o_EnableGateway o) (negb (o_DisableTransfer o))) ","))) ].

Definition token_headers (o : bootstrapOptions) : HeaderSet :=
  let h := header_set "User-Agent" user_agent
             (header_set "Content-Type" "application/json" (header_set "Accept" "application/json" ∅)) in
  if blank (o_BootstrapTokenSecret o) then h
  else header_set "X-Auren-Bootstrap-Secret" (TrimSpace (o_BootstrapTokenSecret o)) h.

(** ** The world of a command *)
Record bworld := mkBWorld {
  bw_fs : FS; bw_env : environ; bw_out : list string; bw_dirs : list string; bw_tokens : list TokenRequest;
  bw_hub : list (call * HubRequest); bw_ran : list (list string)
}.

(** What one command meets outside. *)
Record linux_env := mkLinuxEnv {
  le_order : list (string * list string);        (* the order of the map of aliases *)
  le_stat : option error; le_read : option error;
  le_request : option error;                      (* http.NewRequestWithContext *)
  le_token : TokenRequest -> result HubResponse;
  le_mkdir : string -> option error;
  le_identity : boot_env; le_host : Hostname.HostnameProvider; le_now : Time;
  le_hub : bootstrap_env;
  le_write : write_faults; le_tmp : string;
  le_lookPath : bool; le_comm : result string;    (* systemctl on the path; /proc/1/comm *)
  le_systemctl : list string -> option error
}.

(** A command: it stops at the first error. *)
Definition C (A : Type) : Type := bworld -> result A * bworld.
#[global] Instance C_ret : MRet C := fun A a w => (Ok a, w).
#[global] Instance C_bind : MBind C := fun A B f m w => match m w with (Ok a, w) => f a w | (Err e, w) => (Err e, w) end.
Definition of_result {A} (r : result A) : C A := fun w => (r, w).
Definition Fprintln (line : string) : C unit := fun w =>
  (Ok tt, mkBWorld (bw_fs w) (bw_env w) (bw_out w ++ [line]) (bw_dirs w) (bw_tokens w) (bw_hub w) (bw_ran w)).
Definition set_environ (env : environ) (w : bworld) : bworld :=
  mkBWorld (bw_fs w) env (bw_out w) (bw_dirs w) (bw_tokens w) (bw_hub w) (bw_ran w).
Definition set_disk (fs : FS) (w : bworld) : bworld :=
  mkBWorld fs (bw_env w) (bw_out w) (bw_dirs w) (bw_tokens w) (bw_hub w) (bw_ran w).
Definition from_error (e : option error) : result unit := match e with Some e => Err e | None => Ok tt end.

Definition LoadEnvFiles (paths : list string) : C unit := fun w =>
  let '(err, env) := loadEnvironmentFiles paths (bw_fs w) (bw_env w) in (from_error err, set_environ env w).
Definition Environ : C environ := fun w => (Ok (bw_env w), w).

Section Commands.
Context (marshal : NodeState -> result string) (unmarshal : string -> result NodeState)
        (decode : string -> result (option object))
        (encode_registration : RegistrationPayload -> result string)
        (encode_heartbeat : HeartbeatPayload -> result string)
        (encode_metrics : MetricsPayload -> result string)
        (encode_events : EventsPayload -> result string)
        (marshal_identity : IdentityRecord -> result string) (unmarshal_identity : string -> result IdentityRecord)
        (encode : object -> result string).
Context (le : linux_env).

Definition requestBootstrapRegistrationToken (o : bootstrapOptions) : C string :=
  endpoint ← of_result (resolveTokenEndpoint (o_MediaHubURL o) (o_BootstrapTokenEndpoint o));
  body ← of_result (encode (token_payload o));
  _ ← of_result (from_error (le_request le));
  let request := mkTokenRequest "POST" endpoint (token_headers o) body in
  answer ← (fun w => (Ok (le_token le request),
    mkBWorld (bw_fs w) (bw_env w) (bw_out w) (bw_dirs w) (bw_tokens w ++ [request]) (bw_hub w) (bw_ran w)));
  of_result (
    match answer with
    | Err e => Err (Wrapf ("request bootstrap registration token: " +:+ Error e) e)
    | Ok response =>
      let body := if slen (rs_Body response) <=? token_limit then rs_Body response
                  else str (take (Z.to_nat token_limit) (chars (rs_Body response))) in
      match rs_readErr response with
      | Some e => Err (Wrapf ("read bootstrap token response: " +:+ Error e) e)
      | None =>
        if (rs_Status response <? 200) || (300 <=? rs_Status response)
        then Err (Errorf ("bootstrap token endpoint returned HTTP " +:+ Itoa (rs_Status response) +:+ ": " +:+ TrimSpace body)) else
        match decode body with
        | Err e => Err (Wrapf ("decode bootstrap token response: " +:+ Error e) e)
        | Ok decoded =>
          let token := token_of (default [] decoded) in
          if blank token then Err (Errorf "bootstrap token response did not include registration_token")
          else Ok (TrimSpace token)
        end
      end
    end).

(** ** Directories *)
Fixpoint make_dirs (dirs : list string) : C unit :=
  match dirs with
  | [] => mret tt
  | dir :: rest =>
    if blank dir then make_dirs rest else
    match le_mkdir le dir with
    | Some e => of_result (Err (Wrapf ("create directory " +:+ dir +:+ ": " +:+ Error e) e))
    | None =>
      _ ← (fun w => (Ok tt, mkBWorld (bw_fs w) (bw_env w) (bw_out w) (bw_dirs w ++ [dir]) (bw_tokens w) (bw_hub w) (bw_ran w)));
      make_dirs rest
    end
  end.
Definition ensureLinuxRuntimeDirs (cfg : Config) (o : bootstrapOptions) : C unit :=
  make_dirs [Dir (o_ConfigPath o); Runtime_DataDir (cfg_Runtime cfg); Runtime_TempDir (cfg_Runtime cfg);
    Download_TempDir (cfg_Download cfg); Storage_LocalPath (cfg_Storage cfg); MediaHub_WorkDir (cfg_MediaHub cfg);
    MediaHub_DeadLetterDir (cfg_MediaHub cfg); o_LogDir o].

(** ** Registration *)
Definition hub_config (cfg : Config) : HubConfig :=
  let h := cfg_MediaHub cfg in
  mkHubConfig (MediaHub_NodeUUID h) (MediaHub_NodeSecret h) (MediaHub_RegistrationToken h) (MediaHub_Role h) (MediaHub_Provider h)
    (MediaHub_Region h) (MediaHub_AvailabilityZone h) (MediaHub_PublicBaseURL h) (MediaHub_HealthURL h) (MediaHub_MaxSessions h)
    (MediaHub_MaxConcurrentJobs h) (MediaHub_MaxEgressMbps h) (MediaHub_Capabilities h)
    (DefaultStatePath (Runtime_DataDir (cfg_Runtime cfg))).
Definition bootstrap_event : any :=
  AMap [("level", AString "info"); ("type", AString "agent.bootstrap"); ("message", AString "Linux package bootstrap completed");
        ("created_at", AString (FormatRFC3339Nano (le_now le)))].
Definition bootstrap_connector (cfg : Config) (identity : IdentitySnapshot) (client : HubClient) : Connector :=
  let h := cfg_MediaHub cfg in
  mkConnector (hub_config cfg) identity runtime_Info client
    (Some (AMap [("status", AString "bootstrap")])) (Some (AMap [("driver", AString (Queue_Driver (cfg_Queue cfg)))]))
    (Some (AMap [])) (Some [bootstrap_event])
    (Some (mkCapacity (MediaHub_MaxConcurrentJobs h) 0 (MediaHub_MaxSessions h) 0 (MediaHub_MaxEgressMbps h) 0)).

Definition ensure_identity (cfg : Config) : C IdentityResult := fun w =>
  let '(r, states) := EnsureIdentity marshal_identity unmarshal_identity (DefaultStorePath (Runtime_DataDir (cfg_Runtime cfg)))
                        (le_identity le) (bw_fs w) in
  (r, set_disk (final_fs (bw_fs w) states) w).

(** [connector.Bootstrap] on the files of the machine. *)
Definition connect (k : Connector) : C NodeState := fun w =>
  let '((state, err), kw) := Bootstrap marshal unmarshal decode encode_registration encode_heartbeat encode_metrics encode_events
                               k (le_hub le) (mkWorld empty_state (mkConfigResult "" []) (bw_fs w) []) in
  (match err with Some e => Err e | None => Ok state end,
   mkBWorld (w_fs kw) (bw_env w) (bw_out w) (bw_dirs w) (bw_tokens w) (bw_hub w ++ w_sent kw) (bw_ran w)).

Definition registerBootstrapNode (cfg : Config) : C NodeState :=
  stored ← ensure_identity cfg;
  snapshot ← of_result (NewIdentitySnapshot stored (Hostname.ResolveHostnameWith (le_host le)));
  client ← of_result (NewClient (MediaHub_BaseURL (cfg_MediaHub cfg)) user_agent (MediaHub_HMACEnabled (cfg_MediaHub cfg)) (hub_paths cfg));
  connect (bootstrap_connector cfg snapshot client).

(** ** systemd *)
Definition systemdManageable : bool :=
  if negb (le_lookPath le) then false else
  match le_comm le with Err _ => false | Ok data => String.eqb (TrimSpace data) "systemd" end.
Definition systemctl (args : list string) : C unit := fun w =>
  (from_error (le_systemctl le args),
   mkBWorld (bw_fs w) (bw_env w) (bw_out w) (bw_dirs w) (bw_tokens w) (bw_hub w) (bw_ran w ++ [args])).

Definition start_service (o : bootstrapOptions) : C unit :=
  if negb (o_StartService o) then mret tt else
  if negb systemdManageable then
    _ ← Fprintln "systemd: not available as PID 1; service start skipped";
    Fprintln ("systemd: run manually with: sudo auren-transfer-agent serve --config " +:+ o_ConfigPath o)
  else
    _ ← systemctl ["daemon-reload"];
    _ ← systemctl ["enable"; "--now"; o_SystemdUnit o];
    Fprintln ("systemd: enabled and started " +:+ o_SystemdUnit o).

(** ** bootstrap *)
Definition bootstrap_help : list string :=
  [ "Usage:";
    "  auren-transfer-agent bootstrap --env-file .env [--media-hub https://media.example.com --token TOKEN] [options]"; "";
    "Common options:"; "  --config /etc/auren-transfer-agent/agent.yaml"; "  --role worker|gateway|hybrid"; "  --region sa-east-1";
    "  --enable-gateway --public-base-url https://node.example.com"; "  --max-concurrent-jobs 2"; "  --start-service" ].
Fixpoint print_lines (lines : list string) : C unit :=
  match lines with [] => mret tt | line :: rest => _ ← Fprintln line; print_lines rest end.

Definition with_token (token : string) (o : bootstrapOptions) : bootstrapOptions :=
  mkBootstrapOptions (o_ConfigPath o) (o_EnvFile o) (o_MediaHubURL o) token (o_BootstrapTokenEndpoint o) (o_BootstrapTokenSecret o)
    (o_Role o) (o_Region o) (o_AvailabilityZone o) (o_PublicBaseURL o) (o_HealthURL o) (o_DataDir o) (o_WorkDir o) (o_LogDir o)
    (o_ServerHost o) (o_ServerPort o) (o_MaxConcurrentJobs o) (o_MaxSessions o) (o_MaxEgressMbps o) (o_EnableGateway o)
    (o_DisableTransfer o) (o_SkipRegister o) (o_StartService o) (o_SystemdUnit o) (o_DryRun o).

Definition acquire_token (o : bootstrapOptions) : C bootstrapOptions :=
  if blank (o_RegistrationToken o) && negb (o_SkipRegister o) && negb (blank (o_BootstrapTokenEndpoint o)) then
    token ← requestBootstrapRegistrationToken o;
    _ ← Fprintln "media-hub: registration token acquired from token endpoint";
    mret (with_token token o)
  else mret o.

Definition settings (o : bootstrapOptions) : C Config := fun w =>
  let '(r, env) := bootstrapConfig o (le_stat le) (le_read le) (le_order le) (bw_fs w) (bw_env w) in (r, set_environ env w).

Definition bool_text (b : bool) : string := if b then "true" else "false".

Definition register_or_skip (o : bootstrapOptions) (cfg : Config) : C Config :=
  if negb (o_SkipRegister o) then
    state ← registerBootstrapNode cfg;
    _ ← Fprintln ("media-hub: registered node_uuid=" +:+ NodeUUID state +:+ " state=" +:+
                  DefaultStatePath (Runtime_DataDir (cfg_Runtime cfg)));
    mret (registered (NodeUUID state) cfg)
  else
    _ ← Fprintln "media-hub: registration skipped";
    mret cfg.

Definition write_config (path : string) (cfg : Config) : C unit := fun w =>
  let '(err, states) := writeAgentConfig (le_write le) (le_tmp le) path cfg (bw_fs w) in
  (from_error err, set_disk (final_fs (bw_fs w) states) w).

(** The command on its options. *)
Definition install (o : bootstrapOptions) : C unit :=
  _ ← of_result (validateBootstrapOptions o);
  o ← acquire_token o;
  cfg ← settings o;
  _ ← of_result (Validate cfg);
  if o_DryRun o then
    Fprintln ("bootstrap dry-run: config=" +:+ o_ConfigPath o +:+ " media_hub=" +:+ MediaHub_BaseURL (cfg_MediaHub cfg) +:+
      " role=" +:+ MediaHub_Role (cfg_MediaHub cfg) +:+ " gateway=" +:+ bool_text (MediaHub_GatewayEnabled (cfg_MediaHub cfg)) +:+
      " transfer=" +:+ bool_text (MediaHub_TransferEnabled (cfg_MediaHub cfg)))
  else
  _ ← ensureLinuxRuntimeDirs cfg o;
  cfg ← register_or_skip o cfg;
  _ ← write_config (o_ConfigPath o) cfg;
  _ ← Fprintln ("config: written " +:+ o_ConfigPath o);
  _ ← start_service o;
  Fprintln "bootstrap: complete".

Definition runBootstrap (args : list string) : C unit :=
  flags ← of_result (Parse args bootstrap_flags);
  _ ← LoadEnvFiles [o_EnvFile (options_of flags)];
  env ← Environ;
  let o := applyBootstrapEnv env (fl_actual flags) (options_of flags) in
  if flag_bool flags "help" then print_lines bootstrap_help else install o.

(** ** doctor and status *)
Definition okLine (name value : string) : string := "OK   " +:+ name +:+ ": " +:+ value.
Definition warnLine (name value : string) : string := "WARN " +:+ name +:+ ": " +:+ value.
Definition failLine (name value : string) : string := "FAIL " +:+ name +:+ ": " +:+ value.

(** What doctor meets: [os.Stat] of a directory, the state file, the answers of the two
    servers by their status. *)
Record doctor_env := mkDoctorEnv {
  de_stat : string -> option error; de_state : option error; de_get : string -> result Z
}.

Definition httpCheck (de : doctor_env) (name target : string) : string :=
  match de_get de target with
  | Err e => warnLine name (Error e)
  | Ok status =>
    if (200 <=? status) && (status <? 500) then okLine name (target +:+ " status=" +:+ Itoa status)
    else warnLine name (target +:+ " status=" +:+ Itoa status)
  end.

Definition dir_check (de : doctor_env) (dir : string * string) : string :=
  if blank dir.2 then warnLine dir.1 "empty" else
  match de_stat de dir.2 with
  | None => okLine dir.1 dir.2
  | Some e => if IsNotExist e then warnLine dir.1 (dir.2 +:+ " missing") else failLine dir.1 (Error e)
  end.

Definition doctor_dirs (cfg : Config) : list (string * string) :=
  [ ("data_dir", Runtime_DataDir (cfg_Runtime cfg)); ("temp_dir", Runtime_TempDir (cfg_Runtime cfg));
    ("download_temp_dir", Download_TempDir (cfg_Download cfg)); ("storage_local_path", Storage_LocalPath (cfg_Storage cfg));
    ("media_hub_work_dir", MediaHub_WorkDir (cfg_MediaHub cfg)) ].

Definition state_check (de : doctor_env) (fs : FS) (statePath : string) : string :=
  match LoadState unmarshal statePath (de_state de) fs with
  | Ok state => okLine "media_hub_state" (NodeUUID state)
  | Err e =>
    if IsNotExist e then warnLine "media_hub_state" (statePath +:+ " missing; run bootstrap")
    else failLine "media_hub_state" (Error e)
  end.

Definition doctor_checks (de : doctor_env) (configPath : string) (online : bool) (cfg : Config) (fs : FS) : list string :=
  let h := cfg_MediaHub cfg in
  [okLine "config" configPath] ++ map (dir_check de) (doctor_dirs cfg) ++
  (if MediaHub_Enabled h then
     [state_check de fs (DefaultStatePath (Runtime_DataDir (cfg_Runtime cfg)))] ++
     (if online then
        [httpCheck de "media_hub" (TrimRightChar "/" (MediaHub_BaseURL h) +:+ "/health")] ++
        (if Server_Enabled (cfg_Server cfg) && DevUI_Enabled (cfg_DevUI cfg)
         then [httpCheck de "dev_ui" ("http://127.0.0.1:" +:+ Itoa (Server_Port (cfg_Server cfg)) +:+
                                      TrimRightChar "/" (DevUI_Path (cfg_DevUI cfg)) +:+ "/api/snapshot")]
         else [])
      else [])
   else [warnLine "media_hub" "disabled"]) ++
  [if systemdManageable then okLine "systemd" "manageable"
   else if le_lookPath le then warnLine "systemd" "systemctl exists but PID 1 is not systemd"
   else warnLine "systemd" "systemctl not found"].

Definition inspect_flags (vars : list (string * flag_value)) : FlagSet :=
  with_help ([("config", FString linuxDefaultConfigPath); ("env-file", FString ".env")] ++ vars ++ [("help", FBool false)]).

Definition load_settings (path envFile : string) : C Config := fun w =>
  let '(r, env) := Load (mkLoadOptions path [] [envFile]) (le_read le) (le_order le) (bw_fs w) (bw_env w) in (r, set_environ env w).
Definition Files : C FS := fun w => (Ok (bw_fs w), w).

Definition runDoctor (de : doctor_env) (args : list string) : C unit :=
  flags ← of_result (Parse args (inspect_flags [("online", FBool false)]));
  if flag_bool flags "help"
  then Fprintln "Usage: auren-transfer-agent doctor [--config /etc/auren-transfer-agent/agent.yaml] [--online]" else
  cfg ← load_settings (flag_string flags "config") (flag_string flags "env-file");
  fs ← Files;
  let checks := doctor_checks de (flag_string flags "config") (flag_bool flags "online") cfg fs in
  _ ← print_lines checks;
  if existsb (fun check => HasPrefix check "FAIL") checks then of_result (Err (Errorf "doctor found failing checks")) else mret tt.

Definition ServerAddress (cfg : Config) : string := Server_Host (cfg_Server cfg) +:+ ":" +:+ Itoa (Server_Port (cfg_Server cfg)).

Definition node_line (fs : FS) (fault : option error) (statePath : string) : string :=
  match LoadState unmarshal statePath fault fs with
  | Ok state => "node: uuid=" +:+ NodeUUID state +:+ " config_version=" +:+ ns_ConfigVersion state +:+
      " registered_at=" +:+ FormatRFC3339 (ns_RegisteredAt state) +:+ " state=" +:+ statePath
  | Err _ => "node: not registered state=" +:+ statePath
  end.

(** [runSystemctlStatus]: the output of the command, empty when it could not run. *)
Definition unit_line (unit output : string) : string :=
  let status := TrimSpace output in
  "systemd: unit=" +:+ unit +:+ " active=" +:+ (if String.eqb status "" then "unknown" else status).

Definition status_lines (configPath : string) (cfg : Config) : list string :=
  let h := cfg_MediaHub cfg in
  let ui := "http://127.0.0.1:" +:+ Itoa (Server_Port (cfg_Server cfg)) +:+ TrimRightChar "/" (DevUI_Path (cfg_DevUI cfg)) in
  [ AppName +:+ " " +:+ v_Version runtime_Info; "config: " +:+ configPath;
    "server: enabled=" +:+ bool_text (Server_Enabled (cfg_Server cfg)) +:+ " address=" +:+ ServerAddress cfg;
    "media-hub: enabled=" +:+ bool_text (MediaHub_Enabled h) +:+ " base_url=" +:+ MediaHub_BaseURL h +:+ " role=" +:+ MediaHub_Role h +:+
      " transfer=" +:+ bool_text (MediaHub_TransferEnabled h) +:+ " gateway=" +:+ bool_text (MediaHub_GatewayEnabled h);
    "dev-ui: enabled=" +:+ bool_text (DevUI_Enabled (cfg_DevUI cfg)) +:+ " metrics=" +:+ ui +:+ "/metrics requests=" +:+ ui +:+ "/requests" ].

Definition runStatus (fault : option error) (active : string) (args : list string) : C unit :=
  flags ← of_result (Parse args (inspect_flags []));
  if flag_bool flags "help"
  then Fprintln "Usage: auren-transfer-agent status [--config /etc/auren-transfer-agent/agent.yaml]" else
  cfg ← load_settings (flag_string flags "config") (flag_string flags "env-file");
  fs ← Files;
  _ ← print_lines (status_lines (flag_string flags "config") cfg ++
         [node_line fs fault (DefaultStatePath (Runtime_DataDir (cfg_Runtime cfg)))]);
  if systemdManageable then Fprintln (unit_line linuxDefaultUnit active)
  else if le_lookPath le then Fprintln "systemd: not manageable; PID 1 is not systemd" else mret tt.

(** ** What registration touches *)
Definition only (path : string) (fs fs' : FS) : Prop := forall p, p <> path -> fs' !! p = fs !! p.

Lemma only_refl path fs : only path fs fs.
Proof. by intros p _. Qed.
Lemma only_trans path a b c : only path a b -> only path b c -> only path a c.
Proof. intros H1 H2 p Hp. by rewrite H2, H1. Qed.

Notation save := (save_state marshal).
Notation pull := (PullConfig marshal decode).

Lemma save_only k env state w err w' : save k env state w = (err, w') -> fresh k env (w_fs w) ->
  only (k_StatePath (k_cfg k)) (w_fs w) (w_fs w').
Proof.
  unfold save_state. intros H [Hne Ht]. destruct (SaveNodeState _ _ _ _ _ _ _) as [e states] eqn:HS. injection H as <- <-. cbn.
  unfold SaveNodeState in HS. set (st := if IsZero _ then _ else _) in HS.
  pose proof (save_document_final marshal (k_StatePath (k_cfg k)) st (s_faults env) (s_tmp env) (w_fs w) Hne Ht) as HF.
  rewrite HS in HF. intros p Hp. destruct e as [e|]; [by rewrite HF|]. destruct HF as (_ & _ & payload & _ & ->).
  by rewrite lookup_insert_ne.
Qed.

Lemma fresh_only k env fs fs' : fresh k env fs -> only (k_StatePath (k_cfg k)) fs fs' -> fresh k env fs'.
Proof. intros [H1 H2] HO. split; [done|]. by rewrite HO. Qed.

Lemma obtain_only k env w r w' : obtain_state marshal unmarshal decode encode_registration k env w = (r, w') ->
  fresh k (be_save env) (w_fs w) -> only (k_StatePath (k_cfg k)) (w_fs w) (w_fs w').
Proof.
  unfold obtain_state. intros H Hf.
  assert (forall w1 (fresh_state : result NodeState), w_fs w1 = w_fs w ->
    match fresh_state with
    | Err e => (Err e, w1)
    | Ok state => let '(err, w) := save k (be_save env) state w1 in match err with Some e => (Err e, w) | None => (Ok state, w) end
    end = (r, w') -> only (k_StatePath (k_cfg k)) (w_fs w) (w_fs w')) as HK.
  { intros w1 s Hw Hs. destruct s as [s|e]; [|injection Hs as _ <-; rewrite Hw; apply only_refl].
    destruct (save k (be_save env) s w1) as [err w2] eqn:HS. rewrite <- Hw. eapply save_only in HS; [|by rewrite Hw].
    destruct err; injection Hs as _ <-; exact HS. }
  destruct (LoadOrEmpty _ _ _ _) as [[found b]|e]; [|injection H as _ <-; apply only_refl].
  destruct (negb (NodeEmpty found)); [injection H as _ <-; apply only_refl|]. destruct (negb _ && negb _); [by apply (HK w) in H|].
  destruct (RegisterNode _ _ _ _ _) as [[reg|e] sent]; [|injection H as _ <-; apply only_refl]. by eapply HK in H.
Qed.

Lemma pull_only k env w err w' : pull k env w = (err, w') -> fresh k (pe_save env) (w_fs w) ->
  only (k_StatePath (k_cfg k)) (w_fs w) (w_fs w') /\
  (err = None -> NodeEmpty (w_state w) = false /\ NodeEmpty (w_state w') = false).
Proof.
  unfold PullConfig. intros H Hf. destruct (NodeEmpty (w_state w)) eqn:HE; [injection H as <- <-; split; [apply only_refl|done]|].
  destruct (FetchConfig _ _ _ _) as [[result|e] sent]; [|injection H as <- <-; split; [apply only_refl|done]].
  destruct (save k (pe_save env) (pulled_state env result (w_state w)) (note_sent CConfig sent w)) as [e w1] eqn:HS.
  eapply save_only in HS; [|exact Hf]. destruct e as [e|]; injection H as <- <-; (split; [exact HS|]); [done|]. intros _. by split.
Qed.

(** A registration only writes the state file, and one that succeeds leaves the node there. *)
Lemma connector_spec k env fs state err kw :
  Bootstrap marshal unmarshal decode encode_registration encode_heartbeat encode_metrics encode_events k env
    (mkWorld empty_state (mkConfigResult "" []) fs []) = ((state, err), kw) ->
  fresh k (be_save env) fs -> fresh k (pe_save (be_pull env)) fs ->
  only (k_StatePath (k_cfg k)) fs (w_fs kw) /\ (err = None -> NodeEmpty state = false).
Proof.
  unfold Bootstrap. intros H Hf1 Hf2. destruct (obtain_state _ _ _ _ _ _ _) as [[s0|e] w0] eqn:HO;
    apply obtain_only in HO; [|exact Hf1| |exact Hf1]; cbn [w_fs] in HO.
  2: { injection H as <- <- <-. by split. }
  destruct (PullConfig _ _ _ _ _) as [e1 w1] eqn:HP.
  destruct (pull_only _ _ _ _ _ HP) as [H1 H2]; [by eapply fresh_only|]. cbn [w_fs w_state setState] in H1, H2.
  assert (only (k_StatePath (k_cfg k)) fs (w_fs w1)) as HA by (by eapply only_trans).
  destruct e1 as [e|]; [injection H as <- <- <-; by split|]. destruct (H2 eq_refl) as [_ HE]. clear H2.
  destruct (FlushHeartbeat _ _ _ _ _) as [e2 w2] eqn:F1. apply flush_spec in F1 as (A1 & A2 & _); [|done].
  destruct e2; [injection H as <- <- <-; rewrite A2; by split|].
  destruct (FlushMetrics _ _ _ _ _) as [e3 w3] eqn:F2. apply flush_spec in F2 as (B1 & B2 & _); [|done].
  destruct e3; [injection H as <- <- <-; rewrite B2, A2; by split|].
  destruct (FlushEvents _ _ _ _ _) as [e4 w4] eqn:F3. apply flush_spec in F3 as (C1 & C2 & _); [|done].
  destruct e4; injection H as <- <- <-; rewrite C2, B2, A2; (split; [done|]); [done|]. intros _. by rewrite C1, B1, A1.
Qed.

Lemma identity_only path env fs r states : EnsureIdentity marshal_identity unmarshal_identity path env fs = (r, states) ->
  b_tmp env <> path -> fs !! b_tmp env = None -> only path fs (final_fs fs states).
Proof.
  unfold EnsureIdentity. intros H Hne Ht. destruct (String.eqb _ ""); [injection H as _ <-; apply only_refl|].
  destruct (LoadIdentity _ _ _ _) as [rec|e]; [injection H as _ <-; apply only_refl|].
  destruct (negb _); [injection H as _ <-; apply only_refl|]. destruct (b_generated env); [|injection H as _ <-; apply only_refl].
  destruct (NewRecord _ _) as [rec|]; [|injection H as _ <-; apply only_refl].
  destruct (SaveIdentity _ _ _ _ _ _) as [e1 states1] eqn:HS.
  pose proof (save_document_final marshal_identity path rec (b_write env) (b_tmp env) fs Hne Ht) as HF. unfold SaveIdentity in HS.
  rewrite HS in HF. destruct e1; injection H as _ <-.
  - rewrite HF. apply only_refl.
  - destruct HF as (_ & _ & payload & _ & ->). intros p Hp. by rewrite lookup_insert_ne.
Qed.

(** ** Steps that leave the files alone *)
Class KeepsFiles {A} (m : C A) : Prop := keeps_files : forall w, bw_fs (m w).2 = bw_fs w.

#[local] Instance keeps_ret {A} (a : A) : KeepsFiles (mret a : C A).
Proof. by intros w. Qed.
#[local] Instance keeps_result {A} (r : result A) : KeepsFiles (of_result r).
Proof. by intros w. Qed.
#[local] Instance keeps_print line : KeepsFiles (Fprintln line).
Proof. by intros w. Qed.
#[local] Instance keeps_bind {A B} (m : C A) (f : A -> C B) : KeepsFiles m -> (forall a, KeepsFiles (f a)) -> KeepsFiles (m ≫= f).
Proof.
  intros Hm Hf w. pose proof (Hm w) as H. unfold mbind, C_bind. destruct (m w) as [[a|e] w1]; [|exact H]. cbn [snd] in H.
  rewrite <- H. apply Hf.
Qed.
#[local] Instance keeps_if {A} (b : bool) (m n : C A) : KeepsFiles m -> KeepsFiles n -> KeepsFiles (if b then m else n).
Proof. by destruct b. Qed.
#[local] Instance keeps_systemctl args : KeepsFiles (systemctl args).
Proof. by intros w. Qed.
#[local] Instance keeps_service o : KeepsFiles (start_service o).
Proof. unfold start_service. apply _. Qed.
#[local] Instance keeps_settings o : KeepsFiles (settings o).
Proof. intros w. unfold settings. by destruct (bootstrapConfig _ _ _ _ _ _). Qed.
#[local] Instance keeps_make_dirs dirs : KeepsFiles (make_dirs dirs).
Proof.
  induction dirs as [|dir dirs IH]; cbn [make_dirs]; [apply _|]. apply keeps_if; [done|]. destruct (le_mkdir le dir); [apply _|].
  apply keeps_bind; [by intros w|by intros _].
Qed.
#[local] Instance keeps_dirs cfg o : KeepsFiles (ensureLinuxRuntimeDirs cfg o).
Proof. apply keeps_make_dirs. Qed.
#[local] Instance keeps_request o : KeepsFiles (requestBootstrapRegistrationToken o).
Proof.
  unfold requestBootstrapRegistrationToken. apply keeps_bind; [apply _|]. intros endpoint. apply keeps_bind; [apply _|]. intros body.
  apply keeps_bind; [apply _|]. intros _. apply keeps_bind; [by intros w|]. intros answer. apply _.
Qed.
#[local] Instance keeps_token o : KeepsFiles (acquire_token o).
Proof. unfold acquire_token. apply keeps_if; apply _. Qed.
#[local] Instance keeps_lines lines : KeepsFiles (print_lines lines).
Proof. induction lines as [|line lines IH]; cbn [print_lines]; apply _. Qed.

Lemma bind_inv {A B} (m : C A) (f : A -> C B) w r w' : (m ≫= f) w = (r, w') ->
  (exists a w1, m w = (Ok a, w1) /\ f a w1 = (r, w')) \/ exists e, m w = (Err e, w') /\ r = Err e.
Proof.
  unfold mbind, C_bind. destruct (m w) as [[a|e] w1]; intros H; [left; eauto|]. injection H as <- <-. right. eauto.
Qed.

(** The token only changes the token. *)
Lemma acquire_token_spec o w o' w' : acquire_token o w = (Ok o', w') -> bw_env w' = bw_env w /\ exists token, o' = with_token token o.
Proof.
  unfold acquire_token. destruct (_ && _ && _); [|intros [= <- <-]; split; [done|]; exists (o_RegistrationToken o); by destruct o].
  intros H. apply bind_inv in H as [(token & w1 & H1 & H)|(e & _ & ?)]; [|done].
  assert (bw_env w1 = bw_env w) as HE.
  { unfold requestBootstrapRegistrationToken in H1. unfold mbind, C_bind, of_result in H1.
    destruct (resolveTokenEndpoint _ _); [|done]. destruct (encode _); [|done]. destruct (from_error _); [|done].
    injection H1 as _ <-. done. }
  injection H as <- <-. split; [exact HE|]. by exists token.
Qed.

(** ** The outcome of bootstrap *)
Definition identity_path (o : bootstrapOptions) : string := DefaultStorePath (o_DataDir o).
Definition state_path (o : bootstrapOptions) : string := DefaultStatePath (o_DataDir o).

(** The options without the two secrets of the registration. *)
Definition forget_secrets (o : bootstrapOptions) : bootstrapOptions :=
  mkBootstrapOptions (o_ConfigPath o) (o_EnvFile o) (o_MediaHubURL o) "" (o_BootstrapTokenEndpoint o) ""
    (o_Role o) (o_Region o) (o_AvailabilityZone o) (o_PublicBaseURL o) (o_HealthURL o) (o_DataDir o) (o_WorkDir o) (o_LogDir o)
    (o_ServerHost o) (o_ServerPort o) (o_MaxConcurrentJobs o) (o_MaxSessions o) (o_MaxEgressMbps o) (o_EnableGateway o)
    (o_DisableTransfer o) (o_SkipRegister o) (o_StartService o) (o_SystemdUnit o) (o_DryRun o).

(** The files of the command are different ones, temporary names are new, clocks run, and the
    codec reads back the states it wrote. *)
Record machine (o : bootstrapOptions) (fs : FS) : Prop := mkMachine {
  mc_paths : NoDup [o_ConfigPath o; identity_path o; state_path o; le_tmp le; b_tmp (le_identity le);
                    s_tmp (be_save (le_hub le)); s_tmp (pe_save (be_pull (le_hub le)))];
  mc_new : Forall (fun t => fs !! t = None) [le_tmp le; b_tmp (le_identity le); s_tmp (be_save (le_hub le));
                                             s_tmp (pe_save (be_pull (le_hub le)))];
  mc_clock1 : or_now (be_now (le_hub le)) (be_clock (le_hub le)) <> 0;
  mc_clock2 : pe_now2 (be_pull (le_hub le)) <> 0;
  mc_codec1 : forall uuid secret version s,
    NewNodeState uuid secret version (be_now (le_hub le)) (be_clock (le_hub le)) = Ok s -> codec marshal unmarshal s;
  mc_codec2 : forall result s, codec marshal unmarshal (pulled_state (be_pull (le_hub le)) result s)
}.

Definition node_stored (o : bootstrapOptions) (state : NodeState) (fs : FS) : Prop :=
  exists stored, LoadOrEmpty unmarshal (state_path o) None fs = Ok (stored, true) /\ same_node state stored.

Lemma node_stored_same o state fs fs' : fs' !! state_path o = fs !! state_path o -> node_stored o state fs -> node_stored o state fs'.
Proof.
  intros HE (stored & HL & HS). exists stored. split; [|exact HS]. rewrite <- HL.
  unfold LoadOrEmpty, LoadState, load_document, ReadFile. by rewrite HE.
Qed.

(** A registration touches the identity and the state file, and leaves the node it returns
    stored. *)
Lemma register_spec o cfg w r w' : registerBootstrapNode cfg w = (r, w') -> Runtime_DataDir (cfg_Runtime cfg) = o_DataDir o ->
  machine o (bw_fs w) ->
  (forall p, p <> identity_path o -> p <> state_path o -> bw_fs w' !! p = bw_fs w !! p) /\
  forall state, r = Ok state -> node_stored o state (bw_fs w').
Proof.
  intros H HD [HN HF HC1 HC2 HK1 HK2]. unfold registerBootstrapNode in H.
  repeat (let H := fresh "N" in apply NoDup_cons in HN as [H HN]).
  repeat (let H := fresh "F" in apply Forall_cons in HF as [H HF]).
  assert (forall r1 w1, ensure_identity cfg w = (r1, w1) -> only (identity_path o) (bw_fs w) (bw_fs w1)) as HI.
  { intros r1 w1 HI. unfold ensure_identity in HI. rewrite HD in HI.
    destruct (EnsureIdentity _ _ _ _ _) as [r2 states] eqn:HE. injection HI as <- <-. cbn [bw_fs set_disk].
    eapply identity_only; [exact HE|intros E; apply N0; rewrite <- E; in_list|done]. }
  apply bind_inv in H as [(stored & w1 & H1 & H)|(e & H1 & ->)].
  2: { pose proof (HI _ _ H1) as HO. split; [|done]. intros p Hp _. by apply HO. }
  pose proof (HI _ _ H1) as HO. clear HI.
  apply bind_inv in H as [(snapshot & w2 & H2 & H)|(e & [= _ <-] & ->)]; [|split; [intros p Hp _; by apply HO|done]].
  injection H2 as _ <-.
  apply bind_inv in H as [(client & w3 & H3 & H)|(e & [= _ <-] & ->)]; [|split; [intros p Hp _; by apply HO|done]].
  injection H3 as _ <-. unfold connect in H. set (k := bootstrap_connector cfg snapshot client) in H.
  assert (k_StatePath (k_cfg k) = state_path o) as HP by (cbn; by rewrite HD).
  destruct (Bootstrap _ _ _ _ _ _ _ _ _ _) as [[state err] kw] eqn:HB. injection H as <- <-. cbn [bw_fs].
  assert (fresh k (be_save (le_hub le)) (bw_fs w1) /\ fresh k (pe_save (be_pull (le_hub le))) (bw_fs w1)) as [Hf1 Hf2].
  { split; (split; [rewrite HP; intros E; apply N1; rewrite <- E; in_list|]);
      (rewrite HO; [done|intros E; apply N0; rewrite <- E; in_list]). }
  destruct (connector_spec _ _ _ _ _ _ HB Hf1 Hf2) as [HS HE]. rewrite HP in HS. split.
  - intros p Hp1 Hp2. by rewrite HS, HO.
  - destruct err as [e|]; [done|]. intros s [= <-].
    destruct (bootstrap_holds marshal unmarshal decode encode_registration encode_heartbeat encode_metrics encode_events k (le_hub le)
      (mkWorld empty_state (mkConfigResult "" []) (bw_fs w1) []) state None kw HB (HE eq_refl) Hf1 Hf2 HC1 HC2 HK1 HK2) as [(st & K1 & K2 & _) _].
    exists st. rewrite HP in K1. by split.
Qed.

Lemma write_config_spec path cfg w r w' : write_config path cfg w = (r, w') -> le_tmp le <> path -> bw_fs w !! le_tmp le = None ->
  bw_fs w' = match r with Ok _ => <[path := renderAgentYAML cfg]> (bw_fs w) | Err _ => bw_fs w end.
Proof.
  unfold write_config, writeAgentConfig. intros H Hne Ht.
  pose proof (write_atomic_final (le_write le) (le_tmp le) path (renderAgentYAML cfg) (bw_fs w) Hne Ht) as HF.
  destruct (write_atomic _ _ _ _ _) as [err states]. injection H as <- <-. cbn [bw_fs set_disk]. rewrite HF. by destruct err.
Qed.

(** The last part of the command: registration, file and service. *)
Definition finish (o : bootstrapOptions) (cfg : Config) : C unit :=
  cfg ← register_or_skip o cfg;
  _ ← write_config (o_ConfigPath o) cfg;
  _ ← Fprintln ("config: written " +:+ o_ConfigPath o);
  _ ← start_service o;
  Fprintln "bootstrap: complete".

Lemma finish_spec o cfg w r w' : finish o cfg w = (r, w') -> o_SkipRegister o = false ->
  Runtime_DataDir (cfg_Runtime cfg) = o_DataDir o -> machine o (bw_fs w) ->
  (forall p, p ∉ [o_ConfigPath o; identity_path o; state_path o] -> bw_fs w' !! p = bw_fs w !! p) /\
  ((bw_fs w' !! o_ConfigPath o = bw_fs w !! o_ConfigPath o /\ r <> Ok tt) \/
   exists state, bw_fs w' !! o_ConfigPath o = Some (renderAgentYAML (registered (NodeUUID state) cfg)) /\ node_stored o state (bw_fs w')).
Proof.
  intros H HS HD HM. unfold finish in H. pose proof HM as [HN HF _ _ _ _]. clear HF.
  repeat (let H := fresh "N" in apply NoDup_cons in HN as [H HN]).
  assert (o_ConfigPath o <> identity_path o /\ o_ConfigPath o <> state_path o /\ le_tmp le <> o_ConfigPath o /\
    le_tmp le <> identity_path o /\ le_tmp le <> state_path o) as (D1 & D2 & D3 & D4 & D5).
  { split_and!; intros E; [apply N; rewrite E|apply N; rewrite E|apply N; rewrite <- E|apply N0; rewrite <- E|apply N1; rewrite <- E]; in_list. }
  assert (forall p, p ∉ [o_ConfigPath o; identity_path o; state_path o] -> p <> o_ConfigPath o /\ p <> identity_path o /\ p <> state_path o) as HP.
  { intros p Hp. split_and!; intros E; apply Hp; rewrite E; in_list. }
  apply bind_inv in H as [(cfg1 & w1 & H1 & H)|(e & H1 & ->)]; unfold register_or_skip in H1; rewrite HS in H1; cbn [negb] in H1.
  - apply bind_inv in H1 as [(state & w2 & H2 & H1)|(e & _ & ?)]; [|done]. injection H1 as <- <-.
    destruct (register_spec o cfg w _ w2 H2 HD HM) as [HR HR2]. specialize (HR2 state eq_refl). set (w1 := mkBWorld _ _ _ _ _ _ _) in H.
    assert (bw_fs w1 !! le_tmp le = None) as Ht by (cbn; rewrite HR by done; destruct HM as [_ HF _ _ _ _]; by apply Forall_cons in HF as [? _]).
    apply bind_inv in H as [([] & w3 & H3 & H)|(e & H3 & ->)]; apply write_config_spec in H3; try done.
    + assert (bw_fs w' = bw_fs w3) as E.
      { assert (KeepsFiles (_ ← Fprintln ("config: written " +:+ o_ConfigPath o); _ ← start_service o; Fprintln "bootstrap: complete")) as HK by apply _.
        specialize (HK w3). by rewrite H in HK. }
      rewrite E, H3. change (bw_fs w1) with (bw_fs w2). split.
      * intros p (P1 & P2 & P3)%HP. rewrite lookup_insert_ne by done. by apply HR.
      * right. exists state. split; [apply lookup_insert_eq|]. eapply node_stored_same; [|exact HR2]. by rewrite lookup_insert_ne.
    + rewrite H3. change (bw_fs w1) with (bw_fs w2). split; [intros p (P1 & P2 & P3)%HP; by apply HR|]. left. split; [by apply HR|done].
  - apply bind_inv in H1 as [(state & w2 & H2 & [=])|(e2 & H2 & _)]. destruct (register_spec o cfg w _ w' H2 HD HM) as [HR _].
    split; [intros p (P1 & P2 & P3)%HP; by apply HR|]. left. split; [by apply HR|done].
Qed.

(** The options a call of the command works with: flags over variables. *)
Definition options_at (args : list string) (w : bworld) : result bootstrapOptions :=
  flags ← Parse args bootstrap_flags;
  match loadEnvironmentFiles [o_EnvFile (options_of flags)] (bw_fs w) (bw_env w) with
  | (Some e, _) => Err e
  | (None, env) => Ok (applyBootstrapEnv env (fl_actual flags) (options_of flags))
  end.
Definition asks_help (args : list string) : bool :=
  match Parse args bootstrap_flags with Ok flags => flag_bool flags "help" | Err _ => false end.
(** The environment after the file of variables. *)
Definition environ_at (args : list string) (w : bworld) : environ :=
  match Parse args bootstrap_flags with
  | Ok flags => (loadEnvironmentFiles [o_EnvFile (options_of flags)] (bw_fs w) (bw_env w)).2
  | Err _ => bw_env w
  end.

Lemma runBootstrap_cases args w : runBootstrap args w =
  match options_at args w with
  | Err e => (Err e, set_environ (environ_at args w) w)
  | Ok o => (if asks_help args then print_lines bootstrap_help else install o) (set_environ (environ_at args w) w)
  end.
Proof.
  unfold runBootstrap, options_at, asks_help, environ_at. unfold mbind at 1, C_bind at 1, of_result.
  destruct (Parse args bootstrap_flags) as [flags|e]; [|by destruct w]. unfold mbind, C_bind, result_bind, LoadEnvFiles.
  destruct (loadEnvironmentFiles _ _ _) as [[e|] env]; cbn [from_error snd]; [done|]. reflexivity.
Qed.

(** What a run on the options [o] leaves behind: only the settings, the identity and the state
    file may have changed, none in a dry run; and the settings file is as it was, which
    success excludes, or it holds valid settings made of the options without the secrets
    of the registration and of the node, whose credentials are in the state file. *)
Definition installed (o : bootstrapOptions) (before : FS) (base : result Config) (r : result unit) (after : FS) : Prop :=
  (forall p, p ∉ [o_ConfigPath o; identity_path o; state_path o] -> after !! p = before !! p) /\
  (o_DryRun o = true -> after = before) /\
  ((after !! o_ConfigPath o = before !! o_ConfigPath o /\ (r = Ok tt -> o_DryRun o = true)) \/
   exists settings state, base = Ok settings /\
     let cfg := registered (NodeUUID state) (configure (forget_secrets o) settings) in
     Validate cfg = Ok tt /\ after !! o_ConfigPath o = Some (renderAgentYAML cfg) /\ node_stored o state after).

Lemma installed_nothing o fs base r fs' : fs' = fs -> (r = Ok tt -> o_DryRun o = true) -> installed o fs base r fs'.
Proof. intros -> Hr. split_and!; [done|done|by left]. Qed.

Lemma keeps_error {A} (m : C A) w e w' fs : KeepsFiles m -> m w = (Err e, w') -> bw_fs w = fs -> bw_fs w' = fs.
Proof. intros HK Hm <-. pose proof (HK w) as E. by rewrite Hm in E. Qed.

Lemma settings_spec o token w cfg w' : settings (with_token token o) w = (Ok cfg, w') ->
  exists base, (base_config (o_ConfigPath o) (le_stat le) (le_read le) (le_order le) (bw_fs w) (bw_env w)).1 = Ok base /\
    cfg = configure (with_token token o) base /\ bw_fs w' = bw_fs w.
Proof.
  unfold settings, bootstrapConfig. change (o_ConfigPath (with_token token o)) with (o_ConfigPath o).
  destruct (base_config _ _ _ _ _ _) as [[base|e] env1]; [|done]. intros [= <- <-]. by exists base.
Qed.

Lemma install_spec o w r w' : install o w = (r, w') -> o_SkipRegister o = false -> machine o (bw_fs w) ->
  installed o (bw_fs w) (base_config (o_ConfigPath o) (le_stat le) (le_read le) (le_order le) (bw_fs w) (bw_env w)).1 r (bw_fs w').
Proof.
  intros H HS HM. unfold install in H.
  apply bind_inv in H as [([] & w1 & H1 & H)|(e & H1 & ->)]; injection H1 as HV <-; [|by apply installed_nothing].
  apply bind_inv in H as [(o1 & w1 & H1 & H)|(e & H1 & ->)];
    [|apply installed_nothing; [by eapply (keeps_error (acquire_token o)); [apply _|..]|done]].
  pose proof (keeps_token o w) as K1. rewrite H1 in K1. cbn [snd] in K1.
  destruct (acquire_token_spec o w o1 w1 H1) as (EV & token & ->). clear H1.
  apply bind_inv in H as [(cfg & w2 & H2 & H)|(e & H2 & ->)];
    [|apply installed_nothing; [by eapply (keeps_error (settings (with_token token o))); [apply _|..]|done]].
  apply settings_spec in H2 as (base & HB & -> & K2). rewrite K1 in HB, K2. rewrite EV in HB.
  apply bind_inv in H as [([] & w3 & H3 & H)|(e & H3 & ->)]; injection H3 as HVal <-; [|by apply installed_nothing].
  change (o_DryRun (with_token token o)) with (o_DryRun o) in H. destruct (o_DryRun o) eqn:ED.
  { injection H as <- <-. by apply installed_nothing. }
  apply bind_inv in H as [([] & w3 & H3 & H)|(e & H3 & ->)];
    [|apply installed_nothing;
      [by eapply (keeps_error (ensureLinuxRuntimeDirs (configure (with_token token o) base) (with_token token o))); [apply _|..]|done]].
  pose proof (keeps_dirs (configure (with_token token o) base) (with_token token o) w2) as K3. rewrite H3 in K3. cbn [snd] in K3. rewrite K2 in K3.
  change (finish (with_token token o) (configure (with_token token o) base) w3 = (r, w')) in H.
  assert (machine (with_token token o) (bw_fs w3)) as HM3 by (rewrite K3; destruct HM; by split).
  destruct (finish_spec _ _ _ _ _ H HS eq_refl HM3) as [F1 F2]. rewrite K3 in F1, F2. split; [exact F1|]. split; [by rewrite ED|].
  destruct F2 as [[F2 F3]|(state & F2 & F3)]; [left; by split|]. right. exists base, state. split; [exact HB|].
  change (registered (NodeUUID state) (configure (forget_secrets o) base)) with (registered (NodeUUID state) (configure (with_token token o) base)).
  split; [exact HVal|]. by split.
Qed.

(** C25: whatever the hub, the token endpoint and the system answer, a registering bootstrap
    changes at most the settings, the identity and the state file, and none in a dry run.
    Success means that the settings file holds valid settings that do not depend on the
    registration token and the token secret and name the node whose credentials are in the
    state file; otherwise the settings file is as it was or holds such settings. *)
Theorem bootstrap_outcome args w o r w' : runBootstrap args w = (r, w') -> options_at args w = Ok o -> asks_help args = false ->
  o_SkipRegister o = false -> machine o (bw_fs w) ->
  installed o (bw_fs w)
    (base_config (o_ConfigPath o) (le_stat le) (le_read le) (le_order le) (bw_fs w) (environ_at args w)).1 r (bw_fs w').
Proof.
  intros H HO HH HS HM. rewrite runBootstrap_cases, HO, HH in H. by apply install_spec in H.
Qed.

(** ** The outcome of doctor *)
Definition dir_broken (de : doctor_env) (dir : string * string) : bool :=
  negb (blank dir.2) && match de_stat de dir.2 with Some e => negb (IsNotExist e) | None => false end.
Definition state_broken (de : doctor_env) (cfg : Config) (fs : FS) : bool :=
  MediaHub_Enabled (cfg_MediaHub cfg) &&
  match LoadState unmarshal (DefaultStatePath (Runtime_DataDir (cfg_Runtime cfg))) (de_state de) fs with
  | Ok _ => false | Err e => negb (IsNotExist e) end.

Lemma line_kinds name value : HasPrefix (okLine name value) "FAIL" = false /\ HasPrefix (warnLine name value) "FAIL" = false /\
  HasPrefix (failLine name value) "FAIL" = true.
Proof. unfold okLine, warnLine, failLine, HasPrefix. rewrite !chars_app. split_and!; reflexivity. Qed.
Lemma ok_line name value : HasPrefix (okLine name value) "FAIL" = false.
Proof. apply line_kinds. Qed.
Lemma warn_line name value : HasPrefix (warnLine name value) "FAIL" = false.
Proof. apply line_kinds. Qed.
Lemma fail_line name value : HasPrefix (failLine name value) "FAIL" = true.
Proof. apply line_kinds. Qed.
Lemma http_line de name target : HasPrefix (httpCheck de name target) "FAIL" = false.
Proof. unfold httpCheck. repeat case_match; first [apply ok_line | apply warn_line]. Qed.

Lemma doctor_checks_fail de path online cfg fs :
  existsb (fun check => HasPrefix check "FAIL") (doctor_checks de path online cfg fs) =
  existsb (dir_broken de) (doctor_dirs cfg) || state_broken de cfg fs.
Proof.
  unfold doctor_checks. rewrite !existsb_app. cbn [existsb]. rewrite ok_line. cbn [orb].
  assert (forall dirs, existsb (fun check => HasPrefix check "FAIL") (map (dir_check de) dirs) = existsb (dir_broken de) dirs) as HD.
  { induction dirs as [|dir dirs IH]; [done|]. cbn [map existsb]. rewrite IH. f_equal. unfold dir_check, dir_broken.
    destruct (blank dir.2); [apply warn_line|]. cbn [negb andb]. destruct (de_stat de dir.2) as [e|]; [|apply ok_line].
    destruct (IsNotExist e); [apply warn_line|apply fail_line]. }
  rewrite HD. f_equal. unfold state_broken.
  assert (HasPrefix (if systemdManageable then okLine "systemd" "manageable" else if le_lookPath le
    then warnLine "systemd" "systemctl exists but PID 1 is not systemd" else warnLine "systemd" "systemctl not found") "FAIL" = false) as ->
    by (repeat case_match; first [apply ok_line | apply warn_line]). rewrite !orb_false_r.
  destruct (MediaHub_Enabled (cfg_MediaHub cfg)); cbn [andb]; [|cbn [existsb]; by rewrite warn_line].
  rewrite existsb_app. cbn [existsb]. rewrite orb_false_r.
  assert (existsb (fun check => HasPrefix check "FAIL") (if online then
        [httpCheck de "media_hub" (TrimRightChar "/" (MediaHub_BaseURL (cfg_MediaHub cfg)) +:+ "/health")] ++
        (if Server_Enabled (cfg_Server cfg) && DevUI_Enabled (cfg_DevUI cfg)
         then [httpCheck de "dev_ui" ("http://127.0.0.1:" +:+ Itoa (Server_Port (cfg_Server cfg)) +:+
                                      TrimRightChar "/" (DevUI_Path (cfg_DevUI cfg)) +:+ "/api/snapshot")]
         else []) else []) = false) as ->.
  { destruct online; [|done]. cbn [app existsb]. rewrite http_line. cbn [orb]. destruct (_ && _); [|done]. cbn [existsb]. by rewrite http_line. }
  rewrite orb_false_r. unfold state_check. destruct (LoadState _ _ _ _) as [st|e]; [apply ok_line|].
  destruct (IsNotExist e); [apply warn_line|apply fail_line].
Qed.

Lemma print_lines_run lines : forall w, print_lines lines w =
  (Ok tt, mkBWorld (bw_fs w) (bw_env w) (bw_out w ++ lines) (bw_dirs w) (bw_tokens w) (bw_hub w) (bw_ran w)).
Proof.
  induction lines as [|line lines IH]; intros w; cbn [print_lines].
  - rewrite app_nil_r. by destruct w.
  - unfold mbind, C_bind, Fprintln. rewrite IH. cbn [bw_fs bw_env bw_out bw_dirs bw_tokens bw_hub bw_ran]. by rewrite <- app_assoc.
Qed.

(** Doctor prints its checks, changes no file, and fails exactly when a directory cannot be
    inspected or the state of an enabled hub cannot be read; what is only missing, and what
    does not answer, is a warning. *)
Theorem doctor_verdict de args w flags cfg w1 : Parse args (inspect_flags [("online", FBool false)]) = Ok flags ->
  flag_bool flags "help" = false -> load_settings (flag_string flags "config") (flag_string flags "env-file") w = (Ok cfg, w1) ->
  exists w', runDoctor de args w =
      (if existsb (dir_broken de) (doctor_dirs cfg) || state_broken de cfg (bw_fs w)
       then Err (Errorf "doctor found failing checks") else Ok tt, w') /\
    bw_fs w' = bw_fs w /\
    bw_out w' = bw_out w ++ doctor_checks de (flag_string flags "config") (flag_bool flags "online") cfg (bw_fs w).
Proof.
  intros HP HH HL. unfold runDoctor. unfold mbind at 1, C_bind at 1, of_result at 1. rewrite HP, HH.
  unfold mbind at 1, C_bind at 1. rewrite HL. unfold Files, mbind, C_bind. rewrite print_lines_run, doctor_checks_fail.
  assert (bw_fs w1 = bw_fs w /\ bw_out w1 = bw_out w) as [E1 E2].
  { unfold load_settings in HL. destruct (Load _ _ _ _ _) as [r1 env1]. injection HL as _ <-. done. }
  rewrite E1, E2. destruct (_ || _); eexists; (split; [reflexivity|]); done.
Qed.
End Commands.

(** ** Observations *)

(** A relative token endpoint with a query is taken for a path: the question mark is
    escaped. *)
Theorem endpoint_query_is_escaped :
  resolveTokenEndpoint "https://hub.example" "/api/token?pool=edge" = Ok "https://hub.example/api/token%3Fpool=edge".
Proof. vm_compute. reflexivity. Qed.

(** An endpoint that is already escaped is escaped again. *)
Theorem endpoint_is_escaped_twice :
  resolveTokenEndpoint "https://hub.example" "/api/my%20pool/token" = Ok "https://hub.example/api/my%2520pool/token".
Proof. vm_compute. reflexivity. Qed.

(** ** Example: a first bootstrap *)
Definition linux0 : linux_env :=
  mkLinuxEnv aliases None None None (fun _ => Err (Errorf "no token endpoint")) (fun _ => None) first_boot (Some ("node-a", None)) 9
    boot0 no_faults "/etc/.agent-1.yaml.tmp" false (Err (Errorf "no such file")) (fun _ => None).
Definition args0 : list string :=
  ["--config=/etc/agent.yaml"; "--env-file="; "--media-hub"; "https://hub.example"; "-token"; "t-1"; "--data-dir=data"; "--work-dir=data/transfer"].
Definition bworld0 : bworld := mkBWorld ∅ ∅ [] [] [] [] [].
Definition bootstrap0 : C unit :=
  runBootstrap marshal0 unmarshal0 decode0 body0 body0 body0 body0 bar_marshal bar_unmarshal body0 linux0 args0.

Lemma bootstrap_outcome_witness : exists w' cfg, bootstrap0 bworld0 = (Ok tt, w') /\
  bw_fs w' !! "/etc/agent.yaml" = Some (renderAgentYAML cfg) /\ Validate cfg = Ok tt /\ MediaHub_RegistrationToken (cfg_MediaHub cfg) = "".
Proof.
  destruct (bootstrap0 bworld0) as [r w'] eqn:H.
  assert (r = Ok tt) as Hr.
  { change r with (r, w').1. rewrite <- H. vm_compute. reflexivity. }
  assert (is_ok (options_at args0 bworld0) = true) as [o HO]%is_ok_true by (vm_compute; reflexivity).
  assert (o_SkipRegister o = false /\ o_DryRun o = false /\ o_ConfigPath o = "/etc/agent.yaml" /\ o_DataDir o = "data") as (O1 & O2 & O3 & O4).
  { assert (Ok o = options_at args0 bworld0) as E by (symmetry; exact HO). vm_compute in E. injection E as ->. repeat split. }
  destruct (bootstrap_outcome marshal0 unmarshal0 decode0 body0 body0 body0 body0 bar_marshal bar_unmarshal body0 linux0
    args0 bworld0 o r w' H HO) as (_ & _ & HD).
  - vm_compute. reflexivity.
  - exact O1.
  - split.
    + rewrite O3. unfold identity_path, state_path. rewrite O4. apply (bool_decide_unpack _). vm_compute. exact I.
    + apply (bool_decide_unpack _). vm_compute. exact I.
    + discriminate.
    + discriminate.
    + intros. apply codec0.
    + intros. apply codec0.
  - destruct HD as [[_ HD]|(settings & state & _ & HV & HF & _)].
    + specialize (HD Hr). rewrite O2 in HD. discriminate HD.
    + exists w'. eexists. split; [rewrite Hr; reflexivity|]. rewrite O3 in HF. split; [exact HF|]. split; [exact HV|reflexivity].
Defined.

(** A dry run asks the endpoint for a token all the same. *)
Theorem dry_run_takes_a_token :
  let le := mkLinuxEnv aliases None None None (fun _ => Ok (mkHubResponse 200 "reg" None)) (fun _ => None) first_boot (Some ("node-a", None)) 9
    boot0 no_faults "/etc/.agent-1.yaml.tmp" false (Err (Errorf "no such file")) (fun _ => None) in
  let w' := (runBootstrap marshal0 unmarshal0 (fun _ => Ok (Some [("token", AString "once")])) body0 body0 body0 body0 bar_marshal bar_unmarshal body0 le
    ["--env-file="; "--media-hub=https://hub.example"; "--token-endpoint=/token"; "--dry-run"] bworld0).2 in
  length (bw_tokens w') = 1%nat.
Proof. vm_compute. reflexivity. Qed.
