(* ===== verification/Startup.v ===== *)
(** * Starting the agent: internal/bootstrap/bootstrap.go

    [Run] chooses the command, [runServe] reads flags and settings and starts the parts.
    [serve_start] are the steps of [runServe] that change files or talk to the hub, in their
    order: identity, queue, hub.  The constructors in between change no files; whether one of
    them stops the start is an argument here, and Launch.v has them all. *)
From Stdlib Require Import SpecFloat.
From S2P Require Import Prelude GoStrings GoPath GoTime GoJson GoRFC3339 GoFS GoFlag DocStore Identity IdentityStore NodeState Job Queue QueueStore Heartbeat Ops Transfer Download Storage AurenStorage S3 HubClient Connector Viper ConfigData Config Observability Server Boot AgentYaml LinuxPackage.

(** ** Commands *)
Inductive command := CmdServe (args : list string) | CmdBootstrap (args : list string) | CmdDoctor (args : list string)
  | CmdStatus (args : list string) | CmdHelp.

Definition choose (args : list string) : command :=
  match args with
  | [] => CmdServe []
  | first :: rest =>
    let name := TrimSpace first in
    if String.eqb name "serve" then CmdServe rest else
    if String.eqb name "bootstrap" then CmdBootstrap rest else
    if String.eqb name "doctor" then CmdDoctor rest else
    if String.eqb name "status" then CmdStatus rest else
    if String.eqb name "help" then CmdHelp else CmdServe args
  end.

Definition help_lines : list string :=
  [ AppName; ""; "Usage:";
    "  auren-transfer-agent serve [--env-file .env] [--config /etc/auren-transfer-agent/agent.yaml]";
    "  auren-transfer-agent bootstrap [--env-file .env] --media-hub https://media.example.com --token TOKEN [--start-service]";
    "  auren-transfer-agent doctor [--env-file .env] [--config /etc/auren-transfer-agent/agent.yaml]";
    "  auren-transfer-agent status [--env-file .env] [--config /etc/auren-transfer-agent/agent.yaml]";
    "  auren-transfer-agent [--config ./configs/agent.yaml] [--version] [--help]"; "";
    "Production v1.13.1 supports validated configuration, real transfer execution, detailed Dev Console request/payload tracing, Auren Storage uploads, direct S3 PUT uploads, Gateway Runtime, operational hardening, Debian/Ubuntu packaging and signed APT distribution, root .env configuration and simplified Media Hub node bootstrap." ].

Definition serve_flags : FlagSet :=
  with_help [("version", FBool false); ("help", FBool false); ("config", FString ""); ("env-file", FString ".env")].

(** [runServe] up to the settings; [start] is the rest. *)
Definition runServe (le : linux_env) (start : Config -> C unit) (args : list string) : C unit :=
  flags ← of_result (Parse args serve_flags);
  if flag_bool flags "help" then print_lines help_lines else
  if flag_bool flags "version" then Fprintln (VersionString runtime_Info) else
  cfg ← load_settings le (flag_string flags "config") (flag_string flags "env-file");
  start cfg.

Definition Run (le : linux_env) (start : Config -> C unit) (bootstrap doctor status : list string -> C unit) (args : list string) : C unit :=
  match choose args with
  | CmdServe args => runServe le start args
  | CmdBootstrap args => bootstrap args
  | CmdDoctor args => doctor args
  | CmdStatus args => status args
  | CmdHelp => print_lines help_lines
  end.

(** ** Parts of the snapshots *)
Definition storageSummary (cfg : Config) : string :=
  let s := cfg_Storage cfg in
  let driver := ToLower (TrimSpace (Storage_Driver s)) in
  if String.eqb driver DriverS3 then
    (if S3Configured (Storage_Bucket s) (Storage_AccessKeyID s) (Storage_SecretAccessKey s)
     then "s3 configured:" +:+ Storage_Bucket s else "s3 not fully configured")
  else if String.eqb driver DriverAurenStorage then
    (if AurenConfigured (Storage_Endpoint s) (Storage_Bucket s)
     then "auren configured:" +:+ Storage_Bucket s else "auren not fully configured")
  else "local:" +:+ Storage_LocalPath s.

(** An event as the JSON of an [EventPayload]. *)
Definition event_payload (event : Event) : any :=
  AMap ((if String.eqb (ev_ID event) "" then [] else [("id", AString (ev_ID event))]) ++
    [("level", AString (ev_Level event)); ("type", AString (ev_Type event)); ("message", AString (ev_Message event))] ++
    (if bool_decide (ev_Metadata event = ∅) then [] else [("metadata", AStringMap (map_to_list (ev_Metadata event)))]) ++
    [("created_at", AString (FormatRFC3339Nano (ev_CreatedAt event)))]).
Definition mediaHubEventsFromServer (events : list Event) : list any := map event_payload events.

(** ** The queue *)
#[local] Existing Instance Memory.memory_queue.
#[local] Existing Instance Memory.memory_queue_spec.

Definition DefaultPersistencePath (dataDir : string) : string :=
  let base := TrimSpace dataDir in
  Join2 (Join2 (if String.eqb base "" then "." else base) "worker") "queue.json".

(** What the start of the queue meets: the reads, the creation of a missing file, the clock of
    every enqueue, and the final save. *)
Record queue_env := mkQueueEnv {
  qe_read : option error; qe_reread : option error; qe_created : Time; qe_create : write_faults; qe_createTmp : string;
  qe_clock : nat -> Time; qe_saved : Time; qe_save : write_faults; qe_saveTmp : string
}.

Section Startup.
Context (marshal_queue : Persistence.Snapshot -> result string) (unmarshal_queue : string -> result Persistence.Snapshot).

Definition queue_store (cfg : Config) : Persistence.FileStore :=
  Persistence.NewFileStore (DefaultPersistencePath (Runtime_DataDir (cfg_Runtime cfg))) 0.

Definition start_queue (cfg : Config) (qe : queue_env) (fs : FS) : result (Adapters.ClusterQueue * nat) * FS :=
  let driver := Queue_Driver (cfg_Queue cfg) in let store := queue_store cfg in
  match Adapters.NewQueue (queue_options cfg) with
  | Err e => (Err e, fs)
  | Ok jobQueue =>
    match Persistence.Ensure marshal_queue unmarshal_queue store None driver (qe_created qe) (qe_read qe) (qe_reread qe)
            (qe_create qe) (qe_createTmp qe) fs with
    | (Err e, fs) => (Err e, fs)
    | (Ok (snapshot, result), fs) =>
      let '((restored, err), memory) :=
        if String.eqb (Persistence.Source result) Persistence.StoreSourceLoaded
        then Persistence.Restore None (qe_clock qe) snapshot (Adapters.embedded jobQueue)
        else ((0%nat, None), Adapters.embedded jobQueue) in
      match err with
      | Some e => (Err e, fs)
      | None =>
        let '(saved, states) := Persistence.Save marshal_queue store None driver (Memory.Snapshot memory) (qe_saved qe)
                                  (qe_save qe) (qe_saveTmp qe) fs in
        (match saved with Err e => Err e | Ok _ => Ok (on_embedded memory jobQueue, restored) end, final_fs fs states)
      end
    end
  end.

(** The file of the queue holds these jobs. *)
Definition queue_holds (cfg : Config) (ids : list string) (fs : FS) : Prop :=
  exists snapshot, Persistence.Load unmarshal_queue (queue_store cfg) None None fs = Ok (Some snapshot) /\
    map Job.ID (Persistence.Jobs snapshot) = ids.

Lemma ids_stored clock jobs : forall i, map Job.ID (Persistence.stored_from clock i jobs) = map Job.ID jobs.
Proof.
  induction jobs as [|j jobs IH]; intros i; [done|]. rewrite Persistence.stored_from_cons. cbn [map]. by rewrite IH.
Qed.
Lemma ids_clone jobs : map Job.ID (Persistence.cloneJobs jobs) = map Job.ID jobs.
Proof. unfold Persistence.cloneJobs. rewrite map_map. by apply map_ext. Qed.

(** The snapshot that a start with the jobs [jobs] in the file writes. *)
Definition rewritten (cfg : Config) (qe : queue_env) (jobs : list Job) : Persistence.Snapshot :=
  Persistence.NewSnapshot (Queue_Driver (cfg_Queue cfg)) (Persistence.stored_from (qe_clock qe) 0 jobs) 0 (qe_saved qe).

Lemma load_fault store fault fs snapshot : Persistence.Load unmarshal_queue store None fault fs = Ok (Some snapshot) -> fault = None.
Proof.
  unfold Persistence.Load. destruct (String.eqb _ ""); [done|]. destruct fault as [e|]; [|done]. cbn [ReadFile]. by destruct (IsNotExist _).
Qed.

Lemma load_valid store fault fs snapshot : Persistence.Load unmarshal_queue store None fault fs = Ok (Some snapshot) ->
  exists raw, Persistence.ValidateSnapshot raw = Ok tt /\ snapshot = Persistence.SnapshotClone raw.
Proof.
  unfold Persistence.Load. destruct (String.eqb _ ""); [done|]. destruct (ReadFile _ _ _); [|by destruct (IsNotExist _)].
  destruct (unmarshal_queue _) as [raw|]; [|done]. destruct (Persistence.ValidateSnapshot raw) as [[]|] eqn:E; [|done].
  intros [= <-]. by exists raw.
Qed.

Lemma stored_clone clock jobs : forall i, Persistence.stored_from clock i (Persistence.cloneJobs jobs) = Persistence.stored_from clock i jobs.
Proof.
  induction jobs as [|j jobs IH]; intros i; [done|]. cbn [Persistence.cloneJobs map]. rewrite !Persistence.stored_from_cons.
  rewrite <- (IH (S i)). f_equal. unfold queued_form. by rewrite Clone_idemp.
Qed.

Lemma clone_valid raw : Persistence.ValidateSnapshot raw = Ok tt ->
  Persistence.ValidateSnapshot (Persistence.SnapshotClone (Persistence.SnapshotClone raw)) = Ok tt.
Proof.
  unfold Persistence.ValidateSnapshot, Persistence.SnapshotClone. cbn [Persistence.Version Persistence.Driver Persistence.GeneratedAt Persistence.Jobs].
  destruct (negb _); [done|]. destruct (String.eqb _ ""); [done|]. destruct (IsZero _); [done|]. generalize 0.
  induction (Persistence.Jobs raw) as [|j jobs IH]; intros i; [done|]. cbn [Persistence.cloneJobs map Persistence.validate_jobs].
  assert (forall j, ValidateJob j = Ok tt -> ValidateJob (Clone j) = Ok tt) as HC.
  { intros k. rewrite !ValidateJob_Ok. apply valid_job_Clone. }
  destruct (ValidateJob j) as [[]|] eqn:E; [|done]. rewrite (HC (Clone j)) by (by apply HC).
  change (Status (Clone (Clone j))) with (Status j). destruct (_ && _); [done|]. apply IH.
Qed.

Lemma memory_start cfg q : Adapters.NewQueue (queue_options cfg) = Ok q ->
  Adapters.embedded q = Memory.mkMemoryQueue (Queue_MemoryCapacity (cfg_Queue cfg)) [] false /\ 0 < Queue_MemoryCapacity (cfg_Queue cfg).
Proof.
  intros H. destruct (Adapters.NewQueue_spec (queue_options cfg)) as [H1 H2]. destruct (H2 q H) as [E _]. split; [exact E|].
  rewrite H in H1. by apply H1.
Qed.

(** The jobs in the file survive the start of the queue, whatever its outcome; a start that
    succeeds has them all in the queue, in their order. *)
Lemma start_queue_spec cfg qe fs r fs' snapshot :
  start_queue cfg qe fs = (r, fs') ->
  Persistence.Load unmarshal_queue (queue_store cfg) None None fs = Ok (Some snapshot) ->
  from_option (fun e => negb (IsNotExist e)) true (qe_read qe) = true ->
  (forall i, IsZero (qe_clock qe i) = false) ->
  qe_saveTmp qe <> Persistence.path (queue_store cfg) -> fs !! qe_saveTmp qe = None ->
  (forall content, marshal_queue (rewritten cfg qe (Persistence.Jobs snapshot)) = Ok content ->
     unmarshal_queue (content +:+ newline) = Ok (rewritten cfg qe (Persistence.Jobs snapshot))) ->
  queue_holds cfg (map Job.ID (Persistence.Jobs snapshot)) fs' /\
  match r with
  | Ok (queue, restored) =>
    map Job.ID (Memory.Snapshot (Adapters.embedded queue)) = map Job.ID (Persistence.Jobs snapshot) /\
    restored = length (Persistence.Jobs snapshot)
  | Err _ => fs' = fs
  end.
Proof.
  intros H HL Hr Hc Hne Ht Hcodec.
  assert (queue_holds cfg (map Job.ID (Persistence.Jobs snapshot)) fs) as HH by (exists snapshot; by split).
  unfold start_queue in H. destruct (Adapters.NewQueue (queue_options cfg)) as [q|e] eqn:HQ; [|injection H as <- <-; by split].
  destruct (memory_start cfg q HQ) as [EQ HP]. unfold Persistence.Ensure in H.
  destruct (qe_read qe) as [e|].
  { assert (exists e', Persistence.Load unmarshal_queue (queue_store cfg) None (Some e) fs = Err e') as [e' HE].
    { unfold Persistence.Load in HL |- *. destruct (String.eqb _ ""); [done|]. cbn [ReadFile].
      assert (IsNotExist (path_error "open" (Persistence.path (queue_store cfg)) e) = false) as ->; [|by eexists].
      unfold IsNotExist, path_error. cbn [errors_Is]. rewrite bool_decide_false by done. by apply negb_true_iff in Hr. }
    rewrite HE in H. injection H as <- <-. by split. }
  rewrite HL in H. cbn [Persistence.Source] in H. rewrite String.eqb_refl in H.
  destruct (load_valid _ _ _ _ HL) as (raw & HV & ES).
  assert (Persistence.ValidateSnapshot (Persistence.SnapshotClone snapshot) = Ok tt) as HV2 by (rewrite ES; by apply clone_valid).
  assert (Queue.wf (Adapters.embedded q)) as Hwf by (rewrite EQ; split_and!; cbn; [lia|unfold zlen; cbn; lia|constructor]).
  pose proof (Persistence.Restore_spec (qe_clock qe) (Persistence.SnapshotClone snapshot) (Adapters.embedded q) Hwf Hc) as HR.
  rewrite EQ in HR at 1. specialize (HR eq_refl HV2). cbv zeta in HR.
  destruct (Persistence.Restore None (qe_clock qe) (Persistence.SnapshotClone snapshot) (Adapters.embedded q)) as [[restored err] memory].
  destruct HR as (HR1 & HR2 & HR3). cbn [Persistence.Jobs Persistence.SnapshotClone] in HR1, HR2, HR3.
  destruct err as [e|]; [injection H as <- <-; by split|].
  destruct (Nat.ltb_spec (Z.to_nat (Queue.Capacity (Adapters.embedded q) - Queue.Len (Adapters.embedded q))) (length (Persistence.cloneJobs (Persistence.Jobs snapshot)))) as [|Hroom]; [done|].
  rewrite Nat.min_r, firstn_all in HR3 by done. rewrite Nat.min_r in HR1 by done. clear HR2. rewrite EQ in HR3 at 1.
  change (Memory.Snapshot memory = [] ++ Persistence.stored_from (qe_clock qe) 0 (Persistence.cloneJobs (Persistence.Jobs snapshot))) in HR3.
  cbn [app] in HR3. rewrite stored_clone in HR3. rewrite HR3 in H. unfold Persistence.cloneJobs in HR1. rewrite length_map in HR1.
  destruct (Persistence.Save _ _ _ _ _ _ _ _ _) as [[res|e] states] eqn:ESave; injection H as <- <-.
  2: { rewrite (Persistence.save_error_keeps _ _ _ _ _ _ _ _ _ _ _ ESave Hne Ht). by split. }
  destruct (Persistence.save_then_load marshal_queue unmarshal_queue _ _ _ _ _ _ _ _ _ ESave Hne Ht) as [HL2 _]; [exact Hcodec|].
  split; [|rewrite embedded_on, HR3, ids_stored; by split].
  eexists. split; [exact HL2|]. cbn [Persistence.Jobs Persistence.NewSnapshot]. by rewrite ids_clone, ids_stored.
Qed.

Lemma queue_save_only store driver jobs clock fl tmp fs r states :
  Persistence.Save marshal_queue store None driver jobs clock fl tmp fs = (r, states) -> tmp <> Persistence.path store -> fs !! tmp = None ->
  only (Persistence.path store) fs (final_fs fs states).
Proof.
  intros H Hne Ht. destruct r as [res|e].
  2: { rewrite (Persistence.save_error_keeps _ _ _ _ _ _ _ _ _ _ _ H Hne Ht). apply only_refl. }
  unfold Persistence.Save in H. destruct (String.eqb _ ""); [done|]. destruct (Persistence.ValidateSnapshot _); [|done].
  destruct (f_mkdir fl); [done|]. destruct (marshal_queue _) as [content|]; [|done].
  pose proof (write_atomic_final fl tmp (Persistence.path store) (content +:+ str ["010"%char]) fs Hne Ht) as HF.
  destruct (write_atomic _ _ _ _ _) as [[e|] states']; [done|]. injection H as _ <-. rewrite HF. intros p Hp. by rewrite lookup_insert_ne.
Qed.

Lemma start_queue_only cfg qe fs r fs' : start_queue cfg qe fs = (r, fs') ->
  qe_createTmp qe <> Persistence.path (queue_store cfg) -> fs !! qe_createTmp qe = None ->
  qe_saveTmp qe <> Persistence.path (queue_store cfg) -> fs !! qe_saveTmp qe = None ->
  only (Persistence.path (queue_store cfg)) fs fs'.
Proof.
  intros H Hn1 Ht1 Hn2 Ht2. unfold start_queue in H. destruct (Adapters.NewQueue _) as [q|e]; [|injection H as _ <-; apply only_refl].
  destruct (Persistence.Ensure _ _ _ _ _ _ _ _ _ _ _) as [ensured fs1] eqn:HE.
  assert (only (Persistence.path (queue_store cfg)) fs fs1) as HO.
  { unfold Persistence.Ensure in HE. destruct (Persistence.Load _ _ _ _ _) as [[snapshot|]|e]; [injection HE as _ <-; apply only_refl| |injection HE as _ <-; apply only_refl].
    destruct (Persistence.Save _ _ _ _ _ _ _ _ _) as [saved states] eqn:HS. apply queue_save_only in HS; [|done|done].
    destruct saved; [|injection HE as _ <-; exact HS]. destruct (Persistence.Load _ _ _ _ _) as [[?|]|]; injection HE as _ <-; exact HS. }
  destruct ensured as [[snapshot result]|e]; [|injection H as _ <-; exact HO].
  destruct (if String.eqb _ _ then _ else _) as [[restored err] memory]. destruct err; [injection H as _ <-; exact HO|].
  destruct (Persistence.Save _ _ _ _ _ _ _ _ _) as [saved states] eqn:HS. injection H as _ <-. eapply only_trans; [exact HO|].
  eapply queue_save_only; [exact HS|done|]. by rewrite HO.
Qed.

(** ** The start *)
Context (marshal : NodeState -> result string) (unmarshal : string -> result NodeState)
        (decode : string -> result (option object))
        (encode_registration : RegistrationPayload -> result string)
        (encode_heartbeat : HeartbeatPayload -> result string)
        (encode_metrics : MetricsPayload -> result string)
        (encode_events : EventsPayload -> result string)
        (marshal_identity : IdentityRecord -> result string) (unmarshal_identity : string -> result IdentityRecord).

Definition optional_text (key value : string) : list (string * any) := if String.eqb value "" then [] else [(key, AString value)].
Definition queue_info (info : Adapters.Info) : any :=
  AMap ([("driver", AString (Adapters.info_Driver info)); ("mode", AString (Adapters.info_Mode info))] ++
    optional_text "endpoint" (Adapters.info_Endpoint info) ++ optional_text "name" (Adapters.info_Name info) ++
    optional_text "consumer_group" (Adapters.info_ConsumerGroup info) ++
    [("capacity", AInt (Adapters.info_Capacity info)); ("length", AInt (Adapters.info_Length info))]).

(** What the start meets: the identity store, constructors that stop it, the queue file, the
    snapshots of the other parts, and the hub. *)
Record serve_env := mkServeEnv {
  sv_identity : boot_env; sv_host : Hostname.HostnameProvider; sv_stop1 : option error; sv_queue : queue_env;
  sv_stop2 : option error; sv_heartbeat : any; sv_download : any; sv_events : list Event; sv_capacity : Capacity;
  sv_hub : bootstrap_env
}.

Record started := mkStarted { sd_identity : IdentitySnapshot; sd_queue : Adapters.ClusterQueue; sd_restored : nat; sd_node : option NodeState }.

Definition serve_connector (cfg : Config) (env : serve_env) (identity : IdentitySnapshot) (queue : Adapters.ClusterQueue) (client : HubClient)
  : Connector :=
  mkConnector (hub_config cfg) identity runtime_Info client (Some (sv_heartbeat env)) (Some (queue_info (Adapters.Info_ queue)))
    (Some (sv_download env)) (Some (mediaHubEventsFromServer (sv_events env))) (Some (sv_capacity env)).

Definition hub_client (cfg : Config) : result (option HubClient) :=
  if MediaHub_Enabled (cfg_MediaHub cfg)
  then c ← NewClient (MediaHub_BaseURL (cfg_MediaHub cfg)) user_agent (MediaHub_HMACEnabled (cfg_MediaHub cfg)) (hub_paths cfg); Ok (Some c)
  else Ok None.

(** From the queue on. *)
Definition serve_rest (cfg : Config) (env : serve_env) (identity : IdentitySnapshot) (client : option HubClient) (fs : FS)
  : result started * FS :=
  let '(queued, fs) := start_queue cfg (sv_queue env) fs in
  match (queued ← queued; _ ← from_error (sv_stop2 env); Ok queued), client with
  | Err e, _ => (Err e, fs)
  | Ok (queue, restored), None => (Ok (mkStarted identity queue restored None), fs)
  | Ok (queue, restored), Some client =>
    let '((state, err), kw) := Bootstrap marshal unmarshal decode encode_registration encode_heartbeat encode_metrics encode_events
                                 (serve_connector cfg env identity queue client) (sv_hub env)
                                 (mkWorld empty_state (mkConfigResult "" []) fs []) in
    (match err with Some e => Err e | None => Ok (mkStarted identity queue restored (Some state)) end, w_fs kw)
  end.

Definition serve_start (cfg : Config) (env : serve_env) (fs : FS) : result started * FS :=
  let '(stored, states) := EnsureIdentity marshal_identity unmarshal_identity (DefaultStorePath (Runtime_DataDir (cfg_Runtime cfg)))
                             (sv_identity env) fs in
  let fs := final_fs fs states in
  match (stored ← stored;
         identity ← NewIdentitySnapshot stored (Hostname.ResolveHostnameWith (sv_host env));
         client ← hub_client cfg;
         _ ← from_error (sv_stop1 env);
         Ok (identity, client)) with
  | Err e => (Err e, fs)
  | Ok (identity, client) => serve_rest cfg env identity client fs
  end.

(** The files of a start are different ones, and temporary names are new. *)
Record start_machine (cfg : Config) (env : serve_env) (fs : FS) : Prop := mkStartMachine {
  sm_paths : NoDup [DefaultStorePath (Runtime_DataDir (cfg_Runtime cfg)); Persistence.path (queue_store cfg);
                    DefaultStatePath (Runtime_DataDir (cfg_Runtime cfg)); b_tmp (sv_identity env); qe_createTmp (sv_queue env);
                    qe_saveTmp (sv_queue env); s_tmp (be_save (sv_hub env)); s_tmp (pe_save (be_pull (sv_hub env)))];
  sm_new : Forall (fun t => fs !! t = None) [b_tmp (sv_identity env); qe_createTmp (sv_queue env); qe_saveTmp (sv_queue env);
                                             s_tmp (be_save (sv_hub env)); s_tmp (pe_save (be_pull (sv_hub env)))];
  sm_read : from_option (fun e => negb (IsNotExist e)) true (qe_read (sv_queue env)) = true;
  sm_clock : forall i, IsZero (qe_clock (sv_queue env) i) = false
}.

Lemma queue_load_same cfg fs fs' snapshot : fs' !! Persistence.path (queue_store cfg) = fs !! Persistence.path (queue_store cfg) ->
  Persistence.Load unmarshal_queue (queue_store cfg) None None fs = Ok snapshot -> Persistence.Load unmarshal_queue (queue_store cfg) None None fs' = Ok snapshot.
Proof. intros HE HL. rewrite <- HL. unfold Persistence.Load, ReadFile. by rewrite HE. Qed.

Lemma queue_holds_same cfg ids fs fs' : fs' !! Persistence.path (queue_store cfg) = fs !! Persistence.path (queue_store cfg) ->
  queue_holds cfg ids fs -> queue_holds cfg ids fs'.
Proof. intros HE (snapshot & HL & HI). exists snapshot. split; [by eapply queue_load_same|done]. Qed.

Lemma serve_rest_spec cfg env identity client fs r fs' snapshot : serve_rest cfg env identity client fs = (r, fs') ->
  Persistence.Load unmarshal_queue (queue_store cfg) None None fs = Ok (Some snapshot) -> start_machine cfg env fs ->
  (forall content, marshal_queue (rewritten cfg (sv_queue env) (Persistence.Jobs snapshot)) = Ok content ->
     unmarshal_queue (content +:+ newline) = Ok (rewritten cfg (sv_queue env) (Persistence.Jobs snapshot))) ->
  queue_holds cfg (map Job.ID (Persistence.Jobs snapshot)) fs' /\
  (forall p, p <> Persistence.path (queue_store cfg) -> p <> DefaultStatePath (Runtime_DataDir (cfg_Runtime cfg)) -> fs' !! p = fs !! p) /\
  forall s, r = Ok s -> map Job.ID (Memory.Snapshot (Adapters.embedded (sd_queue s))) = map Job.ID (Persistence.Jobs snapshot) /\
    sd_restored s = length (Persistence.Jobs snapshot).
Proof.
  intros H HL [HN HF HR HC] Hcodec. set (dataDir := Runtime_DataDir (cfg_Runtime cfg)) in *.
  repeat (let H := fresh "N" in apply NoDup_cons in HN as [H HN]). repeat (let H := fresh "F" in apply Forall_cons in HF as [H HF]).
  assert (qe_createTmp (sv_queue env) <> Persistence.path (queue_store cfg) /\ qe_saveTmp (sv_queue env) <> Persistence.path (queue_store cfg) /\
    Persistence.path (queue_store cfg) <> DefaultStatePath dataDir) as (D1 & D2 & D3).
  { split_and!; intros E; apply N0; [rewrite <- E|rewrite <- E|rewrite E]; in_list. }
  unfold serve_rest in H. destruct (start_queue cfg (sv_queue env) fs) as [queued fs2] eqn:HQ.
  assert (only (Persistence.path (queue_store cfg)) fs fs2) as HO by (by eapply start_queue_only).
  destruct (start_queue_spec _ _ _ _ _ _ HQ HL HR HC D2 ltac:(done) Hcodec) as [HH HS].
  assert (forall p, p <> Persistence.path (queue_store cfg) -> p <> DefaultStatePath dataDir -> fs2 !! p = fs !! p) as HO2 by (intros p Hp _; by apply HO).
  destruct (queued ≫= _) as [[queue restored]|e] eqn:HB; [|destruct client; injection H as <- <-; by split_and!].
  assert (queued = Ok (queue, restored)) as ->.
  { destruct queued as [p|]; [|done]. cbn [mbind result_bind] in HB. destruct (from_error _); [|done]. exact HB. }
  destruct client as [client|]; [|injection H as <- <-; split_and!; [done|done|]; by intros s [= <-]].
  destruct (Bootstrap _ _ _ _ _ _ _ _ _ _) as [[state err] kw] eqn:HK. injection H as Hr <-.
  set (k := serve_connector cfg env identity queue client) in HK.
  assert (fresh k (be_save (sv_hub env)) fs2 /\ fresh k (pe_save (be_pull (sv_hub env))) fs2) as [Hf1 Hf2].
  { split; (split; [change (k_StatePath (k_cfg k)) with (DefaultStatePath dataDir); intros E; apply N1; rewrite <- E; in_list|]);
      (rewrite HO; [done|intros E; apply N0; rewrite <- E; in_list]). }
  destruct (connector_spec _ _ _ _ _ _ _ _ _ _ _ _ _ HK Hf1 Hf2) as [HKO _].
  change (k_StatePath (k_cfg k)) with (DefaultStatePath dataDir) in HKO. split_and!.
  - eapply queue_holds_same; [|exact HH]. by apply HKO.
  - intros p Hp1 Hp2. by rewrite HKO, HO.
  - intros s Hs. rewrite <- Hr in Hs. destruct err; [done|]. by injection Hs as <-.
Qed.

(** C26: the jobs in the queue file survive every start of the agent, whether it succeeds, is
    stopped by a component, by the hub or by failing system calls; a start that succeeds has
    all of them in its queue, in their order, and changes no files but its own three. *)
Theorem start_keeps_jobs cfg env fs r fs' snapshot : serve_start cfg env fs = (r, fs') ->
  Persistence.Load unmarshal_queue (queue_store cfg) None None fs = Ok (Some snapshot) -> start_machine cfg env fs ->
  (forall content, marshal_queue (rewritten cfg (sv_queue env) (Persistence.Jobs snapshot)) = Ok content ->
     unmarshal_queue (content +:+ newline) = Ok (rewritten cfg (sv_queue env) (Persistence.Jobs snapshot))) ->
  let dataDir := Runtime_DataDir (cfg_Runtime cfg) in
  queue_holds cfg (map Job.ID (Persistence.Jobs snapshot)) fs' /\
  (forall p, p ∉ [DefaultStorePath dataDir; Persistence.path (queue_store cfg); DefaultStatePath dataDir] -> fs' !! p = fs !! p) /\
  forall s, r = Ok s -> map Job.ID (Memory.Snapshot (Adapters.embedded (sd_queue s))) = map Job.ID (Persistence.Jobs snapshot) /\
    sd_restored s = length (Persistence.Jobs snapshot).
Proof.
  intros H HL HM Hcodec dataDir. pose proof HM as [HN HF HR HC]. apply NoDup_cons in HN as [N HN']. fold dataDir in N.
  assert (forall p, p ∉ [DefaultStorePath dataDir; Persistence.path (queue_store cfg); DefaultStatePath dataDir] ->
    p <> DefaultStorePath dataDir /\ p <> Persistence.path (queue_store cfg) /\ p <> DefaultStatePath dataDir) as HP.
  { intros p Hp. split_and!; intros E; apply Hp; rewrite E; in_list. }
  unfold serve_start in H. fold dataDir in H. destruct (EnsureIdentity _ _ _ _ _) as [stored states] eqn:HI. cbv zeta in H.
  apply identity_only in HI; [|intros E; apply N; rewrite <- E; in_list|by apply Forall_cons in HF as [? _]].
  set (fs1 := final_fs fs states) in *.
  assert (Persistence.Load unmarshal_queue (queue_store cfg) None None fs1 = Ok (Some snapshot)) as HL1.
  { eapply queue_load_same; [|exact HL]. apply HI. intros E. apply N. rewrite <- E. in_list. }
  destruct (stored ≫= _) as [[identity client]|e].
  2: { injection H as <- <-. split_and!; [exists snapshot; by split|intros p (P1 & _)%HP; by apply HI|done]. }
  assert (start_machine cfg env fs1) as HM1.
  { split; [by apply sm_paths in HM| |done|done]. rewrite Forall_forall in HF |- *. intros t Ht. rewrite HI; [by apply HF|].
    intros ->. apply N. by do 2 right. }
  destruct (serve_rest_spec _ _ _ _ _ _ _ _ H HL1 HM1 Hcodec) as (A & B & D). split_and!; [exact A| |exact D].
  intros p (P1 & P2 & P3)%HP. by rewrite B, HI.
Qed.
End Startup.

(** ** Example: a start with one job in the file *)
Definition stored_snapshot : Persistence.Snapshot := Persistence.NewSnapshot "memory" [queued_form 9 sample_job] 0 9.
Definition queue_env0 : queue_env :=
  mkQueueEnv None None 9 no_faults "data/worker/.q-1.tmp" (fun _ => 9) 9 no_faults "data/worker/.q-2.tmp".
Definition serve_env0 : serve_env :=
  mkServeEnv first_boot (Some ("node-a", None)) None queue_env0 None ANil ANil [] (mkCapacity 0 0 0 0 0 0) boot0.
Definition files0 : FS := {["data/worker/queue.json" := "{...}" +:+ newline]}.

Lemma start_keeps_jobs_witness : exists s fs',
  serve_start Persistence.one_marshal (Persistence.one_unmarshal stored_snapshot) marshal0 unmarshal0 decode0 body0 body0 body0 body0
    bar_marshal bar_unmarshal DefaultConfig serve_env0 files0 = (Ok s, fs') /\
  map Job.ID (Memory.Snapshot (Adapters.embedded (sd_queue s))) = [Job.ID sample_job].
Proof.
  destruct (serve_start Persistence.one_marshal (Persistence.one_unmarshal stored_snapshot) marshal0 unmarshal0 decode0 body0 body0 body0 body0
    bar_marshal bar_unmarshal DefaultConfig serve_env0 files0) as [r fs'] eqn:H.
  assert (is_ok r = true) as [s Hs]%is_ok_true.
  { change r with (r, fs').1. rewrite <- H. vm_compute. reflexivity. }
  destruct (start_keeps_jobs Persistence.one_marshal (Persistence.one_unmarshal stored_snapshot) marshal0 unmarshal0 decode0 body0 body0 body0 body0
    bar_marshal bar_unmarshal DefaultConfig serve_env0 files0 r fs' stored_snapshot H) as (_ & _ & HQ).
  - vm_compute. reflexivity.
  - split; [apply (bool_decide_unpack _); vm_compute; exact I|apply (bool_decide_unpack _); vm_compute; exact I|reflexivity|reflexivity].
  - intros content. unfold Persistence.one_marshal. intros [= <-]. vm_compute. reflexivity.
  - exists s, fs'. destruct (HQ s Hs) as [HI _]. split; [by rewrite Hs|]. rewrite HI. reflexivity.
Defined.

(** More jobs in the file than the queue has room for keep the agent from starting. *)
Theorem smaller_queue_stops_start :
  let two := Persistence.NewSnapshot "memory" [queued_form 9 sample_job; queued_form 9 sample_job] 0 9 in
  let small := mkConfig (cfg_App DefaultConfig) (cfg_Runtime DefaultConfig) (cfg_Logger DefaultConfig) (cfg_Server DefaultConfig)
    (cfg_Worker DefaultConfig) (mkQueueConfig "memory" 1 "1s" "" "" "" "" "" "" "" "") (cfg_Resolver DefaultConfig) (cfg_Download DefaultConfig)
    (cfg_Upload DefaultConfig) (cfg_Storage DefaultConfig) (cfg_Metrics DefaultConfig) (cfg_Heartbeat DefaultConfig) (cfg_Security DefaultConfig)
    (cfg_MediaHub DefaultConfig) (cfg_DevUI DefaultConfig) in
  (start_queue Persistence.one_marshal (Persistence.one_unmarshal two) small queue_env0 files0).1 = Err ErrQueueFull.
Proof. vm_compute. reflexivity. Qed.
