(* ===== verification/Serving.v ===== *)
(** * The running agent

    The last part of [runServe] of internal/bootstrap/bootstrap.go and the loops it starts: the
    claim loop of internal/transfer/manager.go with the goroutines that execute claimed jobs, the
    periodic loops of internal/mediahub/connector.go, the intervals of all tickers, and the HTTP
    server of internal/server/runtime.go with its shutdown. *)
From Stdlib Require Import SpecFloat.
From S2P Require Import Prelude GoStrings GoTime GoFS NodeState Ops Transfer Executor Gateway ConfigData Boot Background.

(** ** Tickers

    [time.NewTicker] panics for an interval that is not positive. *)
Definition connector_loops (cfg : Config) : list (Duration * bool) :=
  let h := cfg_MediaHub cfg in
  [ (parseDurationOr (MediaHub_PollInterval h) (2 * second), MediaHub_PollEnabled h);
    (parseDurationOr (MediaHub_HeartbeatInterval h) (30 * second), true);
    (parseDurationOr (MediaHub_MetricsInterval h) (60 * second), true);
    (parseDurationOr (MediaHub_EventsFlushInterval h) (10 * second), true) ].
Definition claim_interval (cfg : Config) : Duration := parseDurationOr (MediaHub_ClaimInterval (cfg_MediaHub cfg)) (2 * second).
Definition control_interval (cfg : Config) : Duration := parseDurationOr (MediaHub_ControlInterval (cfg_MediaHub cfg)) (10 * second).
Definition session_interval (cfg : Config) (resolved : GatewayResolveResult) : Duration :=
  let interval := HeartbeatInterval resolved in
  if interval <=? 0 then parseDurationOr (MediaHub_GatewayHeartbeatInterval (cfg_MediaHub cfg)) (10 * second) else interval.

(** [connector.loop]: one call of [fn] per tick until the context is done. *)
Inductive loop_event := Tick | Done.
Fixpoint loop {W} (fn : W -> W) (events : list loop_event) (w : W) : W :=
  match events with [] => w | Tick :: rest => loop fn rest (fn w) | Done :: _ => w end.
Definition connector_loop {W} (enabled : bool) (fn : W -> W) (events : list loop_event) (w : W) : W :=
  if negb enabled then w else loop fn events w.

(** ** The claim loop *)
Definition NewManager (client nodeState executor : bool) (cfg : Config) (capabilities : list string) (operations : option Runtime)
  : result Manager :=
  if negb client then Err (Errorf "transfer manager media hub client cannot be nil") else
  if negb nodeState then Err (Errorf "transfer manager node state callback cannot be nil") else
  if negb executor then Err (Errorf "transfer manager executor cannot be nil") else
  let h := cfg_MediaHub cfg in
  Ok (mkManager (MediaHub_WorkDir h) (MediaHub_AcceptedOperations h) (MediaHub_Region h) (normalizedList capabilities) operations).

(** As [runServe] makes it: without the operations runtime. *)
Definition serve_manager (cfg : Config) : result Manager :=
  NewManager true true true cfg (map str (fields_go (chars (MediaHub_Capabilities (cfg_MediaHub cfg))) [])) None.

(** [Manager.Start]: whether the loop runs at all. *)
Definition claims (cfg : Config) : bool :=
  MediaHub_TransferEnabled (cfg_MediaHub cfg) && MediaHub_ClaimEnabled (cfg_MediaHub cfg).

(** How the goroutine of a claimed job can end: [Execute] finds the job invalid, the operations
    runtime does not admit it, no slot is free, or the transfer ran. *)
Inductive job_end :=
| Invalid (e : error)
| Rejected (reason message : string)
| Refused
| Finished (success : bool).

(** A node: the tracker; claimed jobs whose goroutine has not been admitted, and those that have
    but have not asked for a slot; the identifiers of the running ones; how the others ended; the
    release callbacks; what was claimed in all, and whether a job was claimed while another
    one had not started yet. *)
Record node := mkNode {
  nd_tracker : Tracker; nd_waiting : list TransferJob; nd_admitted : list TransferJob; nd_running : list string;
  nd_ended : list (string * job_end); nd_released : list (string * callback); nd_claimed : list string; nd_overlapped : bool
}.
Definition fresh_node (max : Z) : node := mkNode (NewTracker max) [] [] [] [] [] [] false.

(** The executor of the node: its operations runtime as it stands at a step comes with the
    label, since draining and the measured disk change with time. *)
Record node_executor := mkNodeExecutor { ne_WorkDir : string; ne_callbacks : bool }.
Definition admission (operations : option Runtime) (env : ops_env) (workDir : string) (stats : Stats) : AdmissionDecision :=
  match operations with
  | None => allow
  | Some runtime =>
    CanClaim env runtime (mkClaimSnapshot (st_ActiveJobs stats) (st_MaxConcurrentJobs stats) 0 0 0 0 workDir)
  end.
(** The entry [Execute] gives to [TryStartJob]. *)
Definition claim_entry (job : TransferJob) (t1 t2 : Time) : ActiveJob :=
  mkActiveJob (UUID job) (TOperation job) "claim" "Job reivindicado pelo Agent."
    (URL (Source job)) (Driver (Destination job)) (objectPath (Destination job)) 0 0 0 fzero t1 t2.

Inductive node_label :=
| NClaim (env : ops_env) (state : NodeState) (gw : option ClaimSnapshot) (claimed_at : string) (client : ClaimRequest -> result ClaimResponse)
| NAdmit (i : nat) (operations : option Runtime) (env : ops_env)
| NStart (i : nat) (t1 t2 t3 : Time)
| NUpdate (now : Time) (uuid : string) (update : ActiveJob)
| NFinish (i : nat) (success : bool).

(** The claim loop takes a job; its goroutine validates it, asks for admission and then for a
    slot; a running job updates its entry; and it finishes.  The steps of a goroutine are
    separate, so those of others may come between them. *)
Definition act_node (manager : Manager) (executor : node_executor) (l : node_label) (s : node) : option node :=
  match l with
  | NClaim env state gw claimed_at client =>
    match co_started (claimOnce env manager state (TrackerSnapshot (nd_tracker s)) gw claimed_at client) with
    | None => Some s
    | Some job =>
      Some (mkNode (nd_tracker s) (nd_waiting s ++ [job]) (nd_admitted s) (nd_running s) (nd_ended s) (nd_released s)
              (nd_claimed s ++ [UUID job]) (nd_overlapped s || negb (bool_decide (nd_waiting s ++ nd_admitted s = []))))
    end
  | NAdmit i operations env =>
    job ← nd_waiting s !! i;
    let rest := delete i (nd_waiting s) in
    match ValidateTransferJob job with
    | Err e =>
      Some (mkNode (nd_tracker s) rest (nd_admitted s) (nd_running s) (nd_ended s ++ [(UUID job, Invalid e)]) (nd_released s)
              (nd_claimed s) (nd_overlapped s))
    | Ok _ =>
      let decision := admission operations env (ne_WorkDir executor) (TrackerSnapshot (nd_tracker s)) in
      Some (if negb (Allowed decision)
            then mkNode (nd_tracker s) rest (nd_admitted s) (nd_running s)
                   (nd_ended s ++ [(UUID job, Rejected (Reason decision) (Message decision))])
                   (if ne_callbacks executor then nd_released s ++ [(UUID job, CbReleased (Reason decision) (Message decision))]
                    else nd_released s)
                   (nd_claimed s) (nd_overlapped s)
            else mkNode (nd_tracker s) rest (nd_admitted s ++ [job]) (nd_running s) (nd_ended s) (nd_released s) (nd_claimed s)
                   (nd_overlapped s))
    end
  | NStart i t1 t2 t3 =>
    job ← nd_admitted s !! i;
    let rest := delete i (nd_admitted s) in
    let '(ok, t) := TryStartJob t3 (claim_entry job t1 t2) (nd_tracker s) in
    Some (if ok
          then mkNode t (nd_waiting s) rest (UUID job :: nd_running s) (nd_ended s) (nd_released s) (nd_claimed s) (nd_overlapped s)
          else mkNode t (nd_waiting s) rest (nd_running s) (nd_ended s ++ [(UUID job, Refused)]) (nd_released s) (nd_claimed s)
                 (nd_overlapped s))
  | NUpdate now uuid update =>
    Some (mkNode (UpdateJob now uuid update (nd_tracker s)) (nd_waiting s) (nd_admitted s) (nd_running s) (nd_ended s) (nd_released s)
            (nd_claimed s) (nd_overlapped s))
  | NFinish i success =>
    uuid ← nd_running s !! i;
    Some (mkNode (Finish uuid success (nd_tracker s)) (nd_waiting s) (nd_admitted s) (delete i (nd_running s))
            (nd_ended s ++ [(uuid, Finished success)]) (nd_released s) (nd_claimed s) (nd_overlapped s))
  end.
Fixpoint run_node (manager : Manager) (executor : node_executor) (ls : list node_label) (s : node) : option node :=
  match ls with [] => Some s | l :: rest => s ← act_node manager executor l s; run_node manager executor rest s end.

(** ** The HTTP server *)
Record ServeOptions := mkServeOptions { so_Address : string; so_Handler : bool; so_ShutdownTimeout : Duration }.
Record ServeResult := mkServeResult { sv_Address : string; sv_Stopped : bool }.
Definition http_ErrServerClosed : error := Sentinel "http: Server closed".

(** How the server ends: [ListenAndServe] returns on its own, or the context ends first, the
    server is shut down and [ListenAndServe] returns.  The goroutine passes on its error unless
    it is that of a closed server. *)
Inductive serve_end := Listened (err : option error) | Signalled (shutdown listened : option error).
Definition listen_result (err : option error) : option error :=
  match err with Some e => if errors_Is e http_ErrServerClosed then None else Some e | None => None end.

Definition Serve (options : ServeOptions) (how : serve_end) : ServeResult * option error :=
  let zero := mkServeResult "" false in
  if negb (so_Handler options) then (zero, Some (Errorf "server handler cannot be nil")) else
  if String.eqb (so_Address options) "" then (zero, Some (Errorf "server address cannot be empty")) else
  if so_ShutdownTimeout options <=? 0 then (zero, Some (Errorf "server shutdown timeout must be greater than zero")) else
  match how with
  | Listened err => let err := listen_result err in (mkServeResult (so_Address options) (bool_decide (err = None)), err)
  | Signalled (Some e) _ => (mkServeResult (so_Address options) false, Some e)
  | Signalled None err => (mkServeResult (so_Address options) true, listen_result err)
  end.

(** The durations [runServe] needs for it. *)
Definition serve_durations (cfg : Config) : result (Duration * Duration * Duration * Duration) :=
  read ← parse_duration (Server_ReadTimeout (cfg_Server cfg));
  write ← parse_duration (Server_WriteTimeout (cfg_Server cfg));
  idle ← parse_duration (Server_IdleTimeout (cfg_Server cfg));
  shutdown ← parse_duration (Worker_ShutdownTimeout (cfg_Worker cfg));
  Ok (read, write, idle, shutdown).

(** ** Intervals *)
Lemma parseDurationOr_positive value fallback : 0 < fallback -> 0 < parseDurationOr value fallback.
Proof. intros H. unfold parseDurationOr. destruct (ParseDuration _) as [d|]; [|done]. destruct (Z.leb_spec d 0); [done|lia]. Qed.

(** Whatever the settings, the job and the hub say, every interval the agent makes a ticker of
    is positive, so no ticker panics. *)
Theorem tickers_are_positive cfg job resolved :
  Forall (fun l => 0 < l.1) (connector_loops cfg) /\ 0 < claim_interval cfg /\ 0 < control_interval cfg /\
  0 < leaseRenewalInterval job (MediaHub_LeaseRenewalInterval (cfg_MediaHub cfg)) /\ 0 < session_interval cfg resolved.
Proof.
  assert (0 < second) as Hs by (vm_compute; reflexivity).
  split_and!; [by repeat apply Forall_cons_2; [apply parseDurationOr_positive; lia..|]|apply parseDurationOr_positive; lia..| |].
  - unfold leaseRenewalInterval. destruct (_ && _) eqn:E; [|apply parseDurationOr_positive; lia].
    by apply andb_true_iff in E as [_ ?%Z.ltb_lt].
  - unfold session_interval. destruct (Z.leb_spec (HeartbeatInterval resolved) 0); [apply parseDurationOr_positive; lia|done].
Qed.

(** ** Claimed jobs *)

(** The steps are those of [Execute]: its admission decision, and the slot it asks for. *)
Lemma admission_is x env w :
  admissionDecision x env w = admission (x_operations x) (e_ops env) (x_WorkDir x) (TrackerSnapshot (w_tracker w)).
Proof. reflexivity. Qed.
Lemma start_at_is job t1 t2 t3 w : start_at job t1 t2 t3 w =
  let '(ok, t) := TryStartJob t3 (claim_entry job t1 t2) (w_tracker w) in (ok, set_tracker t w).
Proof. reflexivity. Qed.

Definition release_of (e : string * job_end) : option (string * callback) :=
  match e.2 with Rejected reason message => Some (e.1, CbReleased reason message) | _ => None end.
(** Where the claimed jobs are. *)
Definition placed (s : node) : list string :=
  map UUID (nd_waiting s) ++ map UUID (nd_admitted s) ++ nd_running s ++ map fst (nd_ended s).

Record node_ok (max : Z) (callbacks : bool) (s : node) : Prop := {
  no_tracker : tracker_ok (Z.max 1 max) (nd_tracker s, nd_running s);
  no_jobs : nd_claimed s ≡ₚ placed s;
  no_releases : nd_released s = if callbacks then omap release_of (nd_ended s) else [];
  no_overlap : nd_overlapped s = false -> Forall (fun e => e.2 <> Refused) (nd_ended s) /\
    (nd_waiting s ++ nd_admitted s = [] \/
     (length (nd_waiting s ++ nd_admitted s) = 1%nat /\ zlen (nd_running s) < Z.max 1 max))
}.

Lemma fresh_ok max callbacks : node_ok max callbacks (fresh_node max).
Proof.
  split; cbn; [apply run_invariant; constructor|done|by destruct callbacks|]. intros _. split; [constructor|by left].
Qed.

Lemma claim_needs_slot env manager state t gw at_ client job :
  co_started (claimOnce env manager state (TrackerSnapshot t) gw at_ client) = Some job ->
  Z.of_nat (size (active t)) < maxConcurrentJobs t.
Proof.
  intros H. destruct (claimOnce_spec env manager state (TrackerSnapshot t) gw at_ client) as (H1 & _ & H3).
  destruct (co_request _) as [r|]; [|by rewrite H3 in H]. destruct H1 as [H1 _]. by apply H1.
Qed.

Lemma claimed_grows manager executor l s s' : act_node manager executor l s = Some s' -> exists k, nd_claimed s' = nd_claimed s ++ k.
Proof.
  intros H. assert (nd_claimed s' = nd_claimed s \/ exists u, nd_claimed s' = nd_claimed s ++ [u]) as [->|[u ->]];
    [|exists []; by rewrite app_nil_r|by eexists].
  destruct l; cbn [act_node] in H.
  - destruct (co_started _); injection H as <-; [right; by eexists|by left].
  - destruct (nd_waiting s !! i); [|done]. cbn [mbind option_bind] in H. left. by repeat case_match; injection H as <-.
  - destruct (nd_admitted s !! i); [|done]. cbn [mbind option_bind] in H. left. by repeat case_match; injection H as <-.
  - left. by injection H as <-.
  - destruct (nd_running s !! i); [|done]. left. by injection H as <-.
Qed.

Lemma delete_split {A} (l : list A) i x : l !! i = Some x -> exists b a, l = b ++ x :: a /\ delete i l = b ++ a.
Proof. intros H. exists (take i l), (drop (S i) l). split; [by rewrite take_drop_middle|by rewrite delete_take_drop]. Qed.

Lemma omap_snoc {A B} (f : A -> option B) l x : omap f (l ++ [x]) = omap f l ++ match f x with Some y => [y] | None => [] end.
Proof. rewrite omap_app. cbn. by destruct (f x). Qed.

Ltac in_node := cbn [nd_tracker nd_waiting nd_admitted nd_running nd_ended nd_released nd_claimed nd_overlapped].
(** Both sides of a permutation brought to the same order. *)
Ltac permute := unfold placed; in_node; rewrite ?map_app; cbn [map fst app]; solve_Permutation.

(** What a job that leaves the place before the slot finds. *)
Lemma leaves_one (ws ad : list TransferJob) b (a : list TransferJob) job (P : Prop) :
  ws = b ++ job :: a -> ws ++ ad = [] \/ length (ws ++ ad) = 1%nat /\ P -> b = [] /\ a = [] /\ ad = [] /\ P.
Proof.
  intros -> [H|[H HP]]; [by destruct b|]. rewrite !length_app in H. cbn in H.
  assert (b = [] /\ a = [] /\ ad = []) as (-> & -> & ->) by (split_and!; apply length_zero_iff_nil; lia). done.
Qed.

Lemma act_admit_ok max manager executor i operations env s s' : node_ok max (ne_callbacks executor) s ->
  act_node manager executor (NAdmit i operations env) s = Some s' -> node_ok max (ne_callbacks executor) s'.
Proof.
  intros [HT HP HR HO]. cbn [act_node]. destruct (nd_waiting s !! i) as [job|] eqn:EI; [|done]. cbn [mbind option_bind].
  destruct (delete_split _ _ _ EI) as (b & a & EW & ED). rewrite ED.
  assert (nd_overlapped s = false -> Forall (fun e => e.2 <> Refused) (nd_ended s) /\ b = [] /\ a = [] /\ nd_admitted s = [] /\
    zlen (nd_running s) < Z.max 1 max) as HO'.
  { intros HF. destruct (HO HF) as [H1 H2]. split; [done|]. by eapply leaves_one. }
  unfold placed in HP. rewrite EW in HP.
  destruct (ValidateTransferJob job) as [?|e]; [destruct (Allowed _)|]; cbn [negb]; intros [= <-]; split; in_node; try done.
  - etrans; [exact HP|permute].
  - intros HF. destruct (HO' HF) as (H1 & -> & -> & -> & H2). split; [done|]. by right.
  - etrans; [exact HP|permute].
  - rewrite omap_snoc, HR. by destruct (ne_callbacks executor).
  - intros HF. destruct (HO' HF) as (H1 & -> & -> & -> & H2). split; [|by left]. apply Forall_app. split; [done|by repeat constructor].
  - etrans; [exact HP|permute].
  - rewrite omap_snoc, HR. destruct (ne_callbacks executor); [|done]. by rewrite app_nil_r.
  - intros HF. destruct (HO' HF) as (H1 & -> & -> & -> & H2). split; [|by left]. apply Forall_app. split; [done|by repeat constructor].
Qed.

Lemma act_start_ok max manager executor i t1 t2 t3 s s' : node_ok max (ne_callbacks executor) s -> NoDup (nd_claimed s) ->
  act_node manager executor (NStart i t1 t2 t3) s = Some s' -> node_ok max (ne_callbacks executor) s'.
Proof.
  intros [HT HP HR HO] HN. cbn [act_node]. destruct (nd_admitted s !! i) as [job|] eqn:EI; [|done]. cbn [mbind option_bind].
  destruct (delete_split _ _ _ EI) as (b & a & EW & ED). rewrite ED. unfold placed in HP. rewrite EW in HP.
  assert (nd_overlapped s = false -> Forall (fun e => e.2 <> Refused) (nd_ended s) /\ b = [] /\ a = [] /\ nd_waiting s = [] /\
    zlen (nd_running s) < Z.max 1 max) as HO'.
  { intros HF. destruct (HO HF) as [H1 H2]. split; [done|]. eapply leaves_one; [exact EW|].
    destruct H2 as [H2|[H2 H3]]; [left|right; split; [|done]]; [by apply app_nil in H2 as [-> ->]|]. rewrite <- H2, !length_app. lia. }
  assert (UUID job ∉ nd_running s) as HU.
  { assert (nd_claimed s ≡ₚ UUID job :: nd_running s ++ (map UUID (nd_waiting s) ++ map UUID b ++ map UUID a ++ map fst (nd_ended s))) as HN'
      by (etrans; [exact HP|permute]).
    rewrite HN' in HN. apply NoDup_cons in HN as [HN _]. intros H. apply HN. apply elem_of_app. by left. }
  pose proof (tracker_size _ _ HT) as HZ.
  destruct (TryStartJob t3 (claim_entry job t1 t2) (nd_tracker s)) as [[] t] eqn:ET; intros [= <-]; split; in_node; try done.
  - change (UUID job) with (aj_UUID (claim_entry job t1 t2)). eapply run_step_ok; [lia|exact HT|]. by eapply step_start.
  - etrans; [exact HP|permute].
  - intros HF. destruct (HO' HF) as (H1 & -> & -> & -> & _). split; [done|by left].
  - eapply run_step_ok; [lia|exact HT|]. by eapply step_refused.
  - etrans; [exact HP|permute].
  - rewrite omap_snoc, HR. destruct (ne_callbacks executor); [|done]. by rewrite app_nil_r.
  - intros HF. destruct (HO' HF) as (_ & _ & _ & _ & HL). exfalso.
    unfold TryStartJob in ET. destruct (Z.leb_spec (maxConcurrentJobs (nd_tracker s)) (Z.of_nat (size (Transfer.active (nd_tracker s))))); [|done].
    destruct HT as [HM _ _ _ _]. cbn [fst snd] in *. unfold zlen in HL. lia.
Qed.

Lemma act_node_ok max manager executor l s s' : node_ok max (ne_callbacks executor) s -> NoDup (nd_claimed s) ->
  act_node manager executor l s = Some s' -> node_ok max (ne_callbacks executor) s'.
Proof.
  intros HS HN. destruct l as [env state gw at_ client|i operations env|i t1 t2 t3|now uuid update|i success];
    [|by apply act_admit_ok|by apply act_start_ok|..]; destruct HS as [HT HP HR HO]; cbn [act_node].
  - destruct (co_started _) as [job|] eqn:EC; intros [= <-]; [|by split]. apply claim_needs_slot in EC.
    split; in_node; [done| |done|].
    + etrans; [apply Permutation_app_tail, HP|permute].
    + intros [HF HW%negb_false_iff%bool_decide_eq_true]%orb_false_iff. destruct (HO HF) as [HQ _]. split; [done|].
      apply app_nil in HW as [-> ->]. right. split; [done|]. pose proof (tracker_size _ _ HT) as HZ. destruct HT as [HM _ _ _ _].
      cbn [fst snd] in *. unfold zlen. lia.
  - intros [= <-]. split; in_node; [|done..]. eapply run_step_ok; [lia|exact HT|]. constructor.
  - destruct (nd_running s !! i) as [uuid|] eqn:EI; [|done]. cbn [mbind option_bind]. intros [= <-].
    destruct (delete_split _ _ _ EI) as (b & a & ER & ED). rewrite ED. unfold placed in HP. rewrite ER in HT, HP. split; in_node.
    + eapply run_step_ok; [lia|exact HT|]. constructor.
    + etrans; [exact HP|permute].
    + rewrite omap_snoc, HR. destruct (ne_callbacks executor); [|done]. by rewrite app_nil_r.
    + intros HF. destruct (HO HF) as [H1 H2]. split; [apply Forall_app; split; [done|by repeat constructor]|].
      destruct H2 as [H2|[H2 HL]]; [by left|]. right. split; [done|]. rewrite ER in HL. unfold zlen in *. rewrite length_app in *. cbn in HL. lia.
Qed.

Lemma run_claimed manager executor ls : forall s s', run_node manager executor ls s = Some s' -> exists k, nd_claimed s' = nd_claimed s ++ k.
Proof.
  induction ls as [|l ls IH]; intros s s'; cbn [run_node]; [intros [= <-]; exists []; by rewrite app_nil_r|].
  destruct (act_node manager executor l s) as [s1|] eqn:E; [|done]. cbn. intros H. destruct (claimed_grows _ _ _ _ _ E) as [k1 H1].
  destruct (IH _ _ H) as [k2 H2]. exists (k1 ++ k2). by rewrite H2, H1, app_assoc.
Qed.

Lemma run_node_ok max manager executor ls : forall s s', node_ok max (ne_callbacks executor) s ->
  run_node manager executor ls s = Some s' -> NoDup (nd_claimed s') -> node_ok max (ne_callbacks executor) s'.
Proof.
  induction ls as [|l ls IH]; intros s s' HS; cbn [run_node]; [by intros [= <-]|].
  destruct (act_node manager executor l s) as [s1|] eqn:E; [|done]. cbn. intros HR HN. pose proof HR as [k Hk]%run_claimed.
  destruct (claimed_grows _ _ _ _ _ E) as [k1 H1]. apply (IH s1 s'); [|done|done]. eapply act_node_ok; [exact HS| |exact E].
  rewrite Hk, H1, <- app_assoc in HN. by apply NoDup_app in HN as [HN _].
Qed.

(** C6: however the claim loop, the goroutines it starts, their progress and their ends interleave,
    when no two claimed jobs have the same identifier: every claimed job is waiting for
    admission, admitted, running or over, and in one of these places once; the tracker shows
    exactly the running ones, at most the configured number; with callbacks the jobs that are
    not admitted, and no others, are each given back with one release callback that tells the
    reason of the decision, and without callbacks none is sent; and no claimed job is ever
    refused for want of a slot unless another one was claimed before it had started. *)
Theorem claimed_jobs_accounted max manager executor ls s :
  run_node manager executor ls (fresh_node max) = Some s -> NoDup (nd_claimed s) ->
  nd_claimed s ≡ₚ map UUID (nd_waiting s) ++ map UUID (nd_admitted s) ++ nd_running s ++ map fst (nd_ended s) /\
  (forall id, id ∈ nd_running s <-> is_Some (active (nd_tracker s) !! id)) /\
  zlen (nd_running s) <= Z.max 1 max /\
  nd_released s = (if ne_callbacks executor then omap release_of (nd_ended s) else []) /\
  (nd_overlapped s = false -> Forall (fun e => e.2 <> Refused) (nd_ended s)).
Proof.
  intros HR HN. destruct (run_node_ok max manager executor ls _ s (fresh_ok max _) HR HN) as [HT HP HL HO].
  pose proof (tracker_size _ _ HT) as HZ. destruct HT as [_ _ HD _ HB]. cbn [fst snd] in *. split_and!; [done|done| |done|].
  - unfold zlen. lia.
  - intros HF. by apply HO.
Qed.

(** ** Example: two jobs one after the other, one of them not admitted, and two at once *)
Definition claim_manager : Manager := mkManager "data/transfer" "" "" [] None.
Definition claim_executor : node_executor := mkNodeExecutor "data/transfer" true.
Definition node_state0 : NodeState := mkNodeState 1 "node-1" "secret" "" 0 0 0.
Definition granted (uuid : string) (request : ClaimRequest) : result ClaimResponse :=
  Ok (mkClaimResponse true (mkTransferJob uuid (TOperation sample_exec_job) (Source sample_exec_job) (Destination sample_exec_job) (Control sample_exec_job) ∅ ∅)).
Definition claim_of (uuid : string) : node_label := NClaim sample_ops_env node_state0 None "now" (granted uuid).
Definition admit_of (i : nat) : node_label := NAdmit i None sample_ops_env.
Definition start_of (i : nat) : node_label := NStart i 1 1 1.

Lemma claimed_jobs_accounted_witness : exists s,
  run_node claim_manager claim_executor [claim_of "a"; admit_of 0; start_of 0; NFinish 0 true; claim_of "b"; admit_of 0; start_of 0]
    (fresh_node 1) = Some s /\
  Forall (fun e => e.2 <> Refused) (nd_ended s) /\ zlen (nd_running s) <= 1.
Proof.
  set (ls := [claim_of "a"; admit_of 0; start_of 0; NFinish 0 true; claim_of "b"; admit_of 0; start_of 0]).
  assert (is_Some (run_node claim_manager claim_executor ls (fresh_node 1))) as [s Hs] by (vm_compute; by eexists).
  assert ((fun s => (nd_claimed s, nd_overlapped s)) <$> run_node claim_manager claim_executor ls (fresh_node 1) =
    Some (["a"; "b"], false)) as HC by (vm_compute; reflexivity).
  rewrite Hs in HC. injection HC as HC HO. exists s. split; [exact Hs|].
  destruct (claimed_jobs_accounted 1 claim_manager claim_executor ls s Hs) as (_ & _ & HB & _ & HF).
  - rewrite HC. apply (bool_decide_unpack _). vm_compute. exact I.
  - split; [by apply HF|exact HB].
Defined.

(** With one slot, a second claim before the goroutine of the first has started takes a job that is
    then given up ([refused_claim_is_silent]). *)
Theorem early_claim_is_refused :
  (fun s => (nd_ended s, nd_released s)) <$>
    run_node claim_manager claim_executor [claim_of "a"; claim_of "b"; admit_of 0; start_of 0; admit_of 0; start_of 0] (fresh_node 1) =
  Some ([("b", Refused)], []).
Proof. vm_compute. reflexivity. Qed.

(** The manager of the agent has no operations runtime: draining, backpressure and the disk guard
    do not keep it from claiming. *)
Theorem draining_node_claims cfg manager env state stats at_ client : serve_manager cfg = Ok manager ->
  NodeEmpty state = false -> st_ActiveJobs stats < st_MaxConcurrentJobs stats ->
  exists request, claimOnce env manager state stats None at_ client = claim_answer request (client request).
Proof.
  intros [= <-] HE HL. unfold claimOnce. rewrite HE. rewrite (proj2 (Z.leb_gt _ _) HL). cbn. by eexists.
Qed.
