(* ===== verification/Launch.v ===== *)
(** * From settings to a running agent: runServe of internal/bootstrap/bootstrap.go

    [launch] is the whole of [runServe] after the settings are loaded, in the order of the
    code: logger, identity, engines and stores, transfers, queue, workers, security, cluster,
    recorders, the hub, the routes and the durations of the server.  The first error ends it.
    Resolvers and routes refer to handlers that are modelled in their own files; the network
    behind them is an argument.  The lines printed at the end are left out. *)
From Stdlib Require Import SpecFloat.
From S2P Require Import Logging Prelude GoStrings GoUrl GoUrlEscape GoUrlText GoTime GoJson GoFS GoJsonStruct DocStore Identity IdentityStore NodeState Job Queue QueueStore Pool Heartbeat Cluster Security Upload ConfigData Config Storage Ops Transfer Download Fetch AurenStorage S3 Resolver HubClient Connector Executor Delivery Gateway Router Handoff Observability DevUI DevSummary DevRoutes Server Boot LinuxPackage Startup Serving.
Import Uuid.

(** ** Options *)
Definition s3_options (cfg : Config) : S3Options :=
  let s := cfg_Storage cfg in
  mkS3Options (Storage_Endpoint s) (Storage_Bucket s) (Storage_Region s) (Storage_AccessKeyID s) (Storage_SecretAccessKey s)
    (Storage_SessionToken s) (Storage_S3ForcePathStyle s || Storage_UsePathStyle s).
Definition ops_config (cfg : Config) : OpsConfig :=
  let h := cfg_MediaHub cfg in
  mkOpsConfig (MediaHub_DrainEnabled h) (MediaHub_DrainFile h) (MediaHub_BackpressureEnabled h) (MediaHub_MaxSessions h)
    (MediaHub_MaxEgressMbps h) (MediaHub_DiskGuardEnabled h) (MediaHub_DiskMinFreeBytes h) (MediaHub_WorkDir h)
    (MediaHub_DeadLetterEnabled h) (MediaHub_DeadLetterDir h) (MediaHub_LeaseRenewalEnabled h) (MediaHub_SecretRotationEnabled h).
Definition console_config (cfg : Config) : DevConfig :=
  let d := cfg_DevUI cfg in
  mkDevConfig (DevUI_Enabled d) (DevUI_Path d) (DevUI_Retention d) (DevUI_RefreshInterval d) (DevUI_CaptureBodies d) (DevUI_BodyLimitBytes d).

(** ** Engines and stores *)
Record engines := mkEngines {
  en_client : HTTPClient; en_retry : RetryPolicy; en_bandwidth : Z; en_recorder : TraceRecorder; en_partSize : Z;
  en_uploader : LocalUploader; en_local : LocalUploader; en_auren : option AurenAdapter; en_s3 : option S3Adapter
}.
Definition build_engines (cfg : Config) : result engines :=
  let dl := cfg_Download cfg in let st := cfg_Storage cfg in
  client ← NewHTTPClient (Resolver_DefaultUserAgent (cfg_Resolver cfg)) (Download_ConnectTimeout dl)
             (Download_ResponseHeaderTimeout dl) (Download_IdleTimeout dl)
             (Resolver_FollowRedirects (cfg_Resolver cfg)) (Resolver_MaxRedirects (cfg_Resolver cfg));
  retry ← NewRetryPolicy (Download_MaxRetries dl) (Download_RetryBackoff dl);
  bandwidth ← NewBandwidthController 0;
  let recorder := NewRecorderWithOptions (DevUI_Retention (cfg_DevUI cfg)) (DevUI_CaptureBodies (cfg_DevUI cfg))
                    (DevUI_BodyLimitBytes (cfg_DevUI cfg)) in
  partSize ← ParsePartSize (Upload_PartSize (cfg_Upload cfg));
  uploader ← NewLocalUploader (Storage_LocalPath st);
  local ← NewLocalAdapter (Storage_LocalPath st);
  auren ← (if AurenConfigured (Storage_Endpoint st) (Storage_Bucket st)
           then adapter ← NewAurenStorageAdapter (auren_options cfg partSize); Ok (Some adapter) else Ok None);
  s3 ← (if S3Configured (Storage_Bucket st) (Storage_AccessKeyID st) (Storage_SecretAccessKey st)
        then adapter ← NewS3Adapter (s3_options cfg); Ok (Some adapter) else Ok None);
  Ok (mkEngines client retry bandwidth recorder partSize uploader local auren s3).

(** ** Resolvers, hub client and transfers

    [NewHandler] and [gateway.NewRuntime] only refuse missing parts, and none is missing here.
    Whether the executor reports to the hub depends on the state of the node
    at the time of the job. *)
Record transfers := mkTransfers {
  tf_resolvers : list Resolver; tf_hub : option HubClient; tf_states : StateStore; tf_tracker : Tracker; tf_ops : Runtime;
  tf_executor : NodeState -> result (Executor * Tracker); tf_gateway : option GwRuntime
}.
Definition gateway_runtime (cfg : Config) (ops : Runtime) : GwRuntime :=
  let h := cfg_MediaHub cfg in
  mkGwRuntime (MediaHub_GatewayEnabled h) (MediaHub_MaxSessions h) (MediaHub_MaxEgressMbps h) (MediaHub_GatewayHeartbeatInterval h) (Some ops).
Definition executor_of (cfg : Config) (local : LocalUploader) (states : StateStore) (ops : Runtime) (hub : option HubClient) (tracker : Tracker)
  (state : NodeState) : result (Executor * Tracker) :=
  NewExecutor cfg true (Some local) (Some states) (Some ops) (bool_decide (is_Some hub) && negb (NodeEmpty state)) (Some tracker).
Definition build_transfers (check : string -> string -> option error) (network : HTTPClient -> request_parts -> result HttpAnswer)
  (mkdir : option error) (cfg : Config) (en : engines) : result transfers :=
  let h := cfg_MediaHub cfg in
  resolvers ← Resolver.NewRegistry (map Some (agent_resolvers check (network (en_client en))
                (mkRedirectSettings (Resolver_FollowRedirects (cfg_Resolver cfg)) (Resolver_MaxRedirects (cfg_Resolver cfg)))));
  hub ← hub_client cfg;
  states ← Transfer.NewStateStore mkdir (MediaHub_WorkDir h);
  let ops := Ops.NewRuntime (ops_config cfg) in
  let tracker := NewTracker (MediaHub_MaxConcurrentJobs h) in
  _ ← executor_of cfg (en_local en) states ops hub tracker empty_state;
  Ok (mkTransfers resolvers hub states tracker ops (executor_of cfg (en_local en) states ops hub tracker)
        (if MediaHub_Enabled h then Some (gateway_runtime cfg ops) else None)).

(** ** Workers *)
Record crew := mkCrew { cw_pool : Pool; cw_poll : Duration; cw_beat : Duration; cw_heartbeat : HeartbeatRecord }.
Definition build_workers (cfg : Config) (identity : IdentitySnapshot) (queue : Adapters.ClusterQueue) (clock : Time) : result crew :=
  pool ← NewPool (Worker_Concurrency (cfg_Worker cfg));
  pollInterval ← parse_duration (Queue_PollInterval (cfg_Queue cfg));
  poll ← NewFixedInterval pollInterval true;
  interval ← parse_duration (Heartbeat_Interval (cfg_Heartbeat cfg));
  heartbeat ← NewHeartbeat (mkHeartbeatInput identity runtime_Info StatusIdle 0 interval (Worker_Enabled (cfg_Worker cfg)) (Pool.Stats pool)
                (mkQueueStats (Queue_Driver (cfg_Queue cfg)) (Memory.Len (Adapters.embedded queue)) (Memory.Capacity (Adapters.embedded queue)))) clock;
  Ok (mkCrew pool poll interval heartbeat).

(** ** Security

    [secrets_file] reads and decodes the file of secrets. *)
Definition LoadSecretsFile (secrets_file : string -> result (list (string * string))) (path : string) : result (gmap string string) :=
  let path := TrimSpace path in
  if String.eqb path "" then Ok (NewSecrets []) else
  data ← secrets_file path; Ok (NewSecrets data).
Record guards := mkGuards {
  gd_auth : Authenticator; gd_keys : APIKeyVerifier; gd_jwt : JWTService; gd_mtls : MTLSPolicy; gd_limiter : RateLimiter;
  gd_secrets : gmap string string
}.
Definition build_guards (secrets_file : string -> result (list (string * string))) (cfg : Config) : result guards :=
  let sec := cfg_Security cfg in
  auth ← NewAuthenticator (Security_APIKeyRequired sec) (Security_APIKey sec) (Security_TokenHeader sec);
  keys ← NewAPIKeyVerifier (mkAPIKeyOptions (Security_APIKeyRequired sec) (Security_APIKey sec) (Security_APIKeyHash sec) (Security_TokenHeader sec));
  ttl ← parse_duration (Security_JWTTTL sec);
  jwt ← NewJWTService (mkJWTOptions (Security_JWTEnabled sec) (Security_JWTSecret sec) (App_Name (cfg_App cfg)) "auren-media-hub" ttl);
  limiter ← NewRateLimiter (rateLimitValue (Security_RateLimitEnabled sec) (Security_RateLimitPerMin sec)) (60 * second);
  secrets ← (if String.eqb (Security_SecretsProvider sec) "file" then LoadSecretsFile secrets_file (Security_SecretsFile sec)
             else Ok (NewSecrets [("api_key", Security_APIKey sec); ("jwt_secret", Security_JWTSecret sec)]));
  Ok (mkGuards auth keys jwt (NewMTLSPolicy (Security_MTLSEnabled sec) (Security_MTLSRequiredCN sec) 0) limiter secrets).

(** ** The cluster of one *)
Record membership := mkMembership { mb_agent : Agent; mb_registry : gmap string Agent; mb_leader : ElectionResult * bool; mb_plan : FailoverPlan }.
Definition build_membership (cfg : Config) (identity : IdentitySnapshot) (jobs : list Job) (now clock : Time) : result membership :=
  agent ← LocalAgent (id_AgentID identity) (id_Fingerprint identity) (id_Hostname identity) (v_Version runtime_Info) (v_Status runtime_Info)
            (Worker_Concurrency (cfg_Worker cfg)) now clock;
  registry ← Cluster.NewRegistry [agent];
  plan ← PlanFailover (Cluster.List registry) (a_ID agent) jobs;
  Ok (mkMembership agent registry (ElectLeader (Cluster.List registry)) plan).

(** ** The recorders of the server *)
Definition version_label : gmap string string := {["version" := v_Version runtime_Info]}.
Definition new_events (now : Time) : Recorder Event :=
  (EventRecorder_Record (mkEventInput "" "info" "agent.bootstrap" "communication telemetry initialized" ∅) now now (NewRecorder 100)).2.
Definition server_state (queue : Adapters.ClusterQueue) (fs : FS) (events : Recorder Event) (now : Time) : ServerState :=
  mkServerState (Some queue) fs [] (Some events)
    (Some (TraceRecorder_Record (mkSpanInput "" "" "" "bootstrap.initialize" "internal" "ok" 0 0 version_label) now now (NewRecorder 100)).2)
    (Some (AuditRecorder_Record (mkAuditInput "" "system" "initialize" "agent" "success" version_label) now now (NewRecorder 100)).2)
    (Some (CentralLogSink_Record (mkLogInput "" "info" "bootstrap" "observability foundation initialized" version_label) now now (NewRecorder 100)).2).
Definition hub_ready (node : NodeState) (now : Time) (events : Recorder Event) : Recorder Event :=
  (EventRecorder_Record (mkEventInput "" "info" "media_hub.connector.ready" "Media Hub connector initialized" {["node_uuid" := NodeUUID node]})
     now now events).2.

(** What a start meets. *)
Record launch_env := mkLaunchEnv {
  le_identity : boot_env; le_host : Hostname.HostnameProvider; le_mkdir : option error; le_queue : queue_env; le_beat : Time;
  le_seen : Time; le_secrets : string -> result (list (string * string)); le_recorded : Time; le_heartbeat : any; le_download : any;
  le_hub : bootstrap_env; le_ready : Time
}.
(** The same for the steps of Startup.v: no constructor stops them, the events and the capacity
    are those of the new agent. *)
Definition start_env (cfg : Config) (env : launch_env) : serve_env :=
  let h := cfg_MediaHub cfg in
  mkServeEnv (le_identity env) (le_host env) None (le_queue env) None (le_heartbeat env) (le_download env)
    (RecorderSnapshot (new_events (le_recorded env)))
    (mkCapacity (maxConcurrentJobs (NewTracker (MediaHub_MaxConcurrentJobs h))) 0 (MediaHub_MaxSessions h) 0 (MediaHub_MaxEgressMbps h) 0)
    (le_hub env).

(** What a start leaves. *)
Record launched := mkLaunched {
  ln_started : started; ln_engines : engines; ln_transfers : transfers; ln_crew : crew; ln_guards : guards; ln_member : membership;
  ln_registry : list (@RouteDefinition ServerEnv ServerState); ln_router : @Mux ServerEnv ServerState; ln_state : ServerState;
  ln_serving : option (Duration * Duration * Duration * Duration * option Manager)
}.

Section Launch.
Context (marshal_queue : Persistence.Snapshot -> result string) (unmarshal_queue : string -> result Persistence.Snapshot)
        (marshal : NodeState -> result string) (unmarshal : string -> result NodeState) (decode : string -> result (option object))
        (encode_registration : RegistrationPayload -> result string) (encode_heartbeat : HeartbeatPayload -> result string)
        (encode_metrics : MetricsPayload -> result string) (encode_events : EventsPayload -> result string)
        (marshal_identity : IdentityRecord -> result string) (unmarshal_identity : string -> result IdentityRecord).
(** The server's codecs, the log of requests, the middleware that records them, the console and the gateway. *)
Context (encode : payload -> option string) (decode_job : string -> result CreateJobRequest)
        (decode_registration : string -> result RegistrationRequest) (decode_event : string -> result EventInput)
        (decode_span : string -> result SpanInput) (decode_audit : string -> result AuditInput) (decode_log : string -> result LogInput)
        (http_log : @HttpLog ServerEnv ServerState) (record_requests : @Middleware ServerEnv ServerState)
        (console_recorder : ServerState -> option TraceRecorder) (console_now : ServerEnv -> Time) (console_orders : ServerEnv -> Orders)
        (console_encode : console_payload -> string) (console_page : string -> string -> Z -> string -> string)
        (console_snapshot : ServerEnv -> ServerState -> MetricsSnapshot) (gateway_handle : @Handler ServerEnv ServerState).
Context (check : string -> string -> option error) (network : HTTPClient -> request_parts -> result HttpAnswer).

(** ** Routes *)
Definition extra_routes (cfg : Config) (gateway : option GwRuntime) : list RouteDefinition :=
  (if DevUI_Enabled (cfg_DevUI cfg)
   then DevRoutes.Routes console_recorder console_now console_orders console_encode console_page (v_Version runtime_Info)
          (console_config cfg) (Some console_snapshot) else []) ++
  match gateway with Some runtime => gateway_routes runtime gateway_handle | None => [] end.
Definition launch_routes (cfg : Config) (identity : IdentitySnapshot) (heartbeat : HeartbeatRecord) (auth : Authenticator)
  (gateway : option GwRuntime) : list RouteDefinition :=
  agent_routes encode decode_job decode_registration decode_event decode_span decode_audit decode_log marshal_queue
    (mkAgentRoutesInput runtime_Info identity heartbeat (Queue_Driver (cfg_Queue cfg)) (queue_store cfg) (Metrics_Path (cfg_Metrics cfg)) auth
       (extra_routes cfg gateway)).
Definition build_router (cfg : Config) (routes : list RouteDefinition) : result (list RouteDefinition * Mux) :=
  registry ← NewRouteRegistry routes;
  middlewares ← DefaultMiddlewareRegistry http_log true true
                  (if DevUI_Enabled (cfg_DevUI cfg) then [mkMiddlewareDefinition "devui_request_recorder" (Some record_requests)] else []);
  router ← BuildRouter http_log false false middlewares registry;
  Ok (registry, router).

(** ** runServe *)
(** The last part: routes, and what the server and the claim loop need. *)
Definition finish (cfg : Config) (env : launch_env) (identity : IdentitySnapshot) (en : engines) (tf : transfers) (cw : crew) (gd : guards)
  (mb : membership) (s : started) (fs : FS) : result launched :=
  '(registry, router) ← build_router cfg (launch_routes cfg identity (cw_heartbeat cw) (gd_auth gd) (tf_gateway tf));
  let events := match sd_node s with
                | Some node => hub_ready node (le_ready env) (new_events (le_recorded env))
                | None => new_events (le_recorded env)
                end in
  serving ← (if Server_Enabled (cfg_Server cfg)
             then durations ← serve_durations cfg;
                  manager ← (if MediaHub_Enabled (cfg_MediaHub cfg) then m ← serve_manager cfg; Ok (Some m) else Ok None);
                  Ok (Some (durations, manager))
             else Ok None);
  Ok (mkLaunched s en tf cw gd mb registry router (server_state (sd_queue s) fs events (le_recorded env)) serving).

Definition connect (cfg : Config) (env : launch_env) (identity : IdentitySnapshot) (queue : Adapters.ClusterQueue) (hub : option HubClient)
  (fs : FS) : result (option NodeState) * FS :=
  match hub with
  | None => (Ok None, fs)
  | Some client =>
    let '((state, err), kw) := Bootstrap marshal unmarshal decode encode_registration encode_heartbeat encode_metrics encode_events
                                 (serve_connector cfg (start_env cfg env) identity queue client) (le_hub env)
                                 (Connector.mkWorld empty_state (mkConfigResult "" []) fs []) in
    (match err with Some e => Err e | None => Ok (Some state) end, Connector.w_fs kw)
  end.

Definition launch (cfg : Config) (env : launch_env) (h : heap) (fs : FS) : result launched * FS :=
  match (logger_New (cfg_Logger cfg) true h).1 with
  | Err e => (Err e, fs)
  | Ok _ =>
    let '(stored, states) := EnsureIdentity marshal_identity unmarshal_identity (DefaultStorePath (Runtime_DataDir (cfg_Runtime cfg)))
                               (le_identity env) fs in
    let fs := final_fs fs states in
    match (stored ← stored;
           identity ← NewIdentitySnapshot stored (Hostname.ResolveHostnameWith (le_host env));
           en ← build_engines cfg;
           tf ← build_transfers check network (le_mkdir env) cfg en;
           Ok (identity, en, tf)) with
    | Err e => (Err e, fs)
    | Ok (identity, en, tf) =>
      let '(queued, fs) := start_queue marshal_queue unmarshal_queue cfg (le_queue env) fs in
      match (queued ← queued;
             cw ← build_workers cfg identity queued.1 (le_beat env);
             gd ← build_guards (le_secrets env) cfg;
             mb ← build_membership cfg identity (Memory.Snapshot (Adapters.embedded queued.1)) (le_seen env) (le_seen env);
             Ok (queued, cw, gd, mb)) with
      | Err e => (Err e, fs)
      | Ok ((queue, restored), cw, gd, mb) =>
        let '(node, fs) := connect cfg env identity queue (tf_hub tf) fs in
        (node ← node; finish cfg env identity en tf cw gd mb (mkStarted identity queue restored node) fs, fs)
      end
    end
  end.

(** ** What validation leaves open *)

(** The address the S3 adapter will use has a scheme and a host. *)
Definition absolute (url : string) : Prop :=
  exists parsed, full_Parse url = Ok parsed /\ u_Scheme parsed <> [] /\ u_Host parsed <> [].
Definition s3_address (cfg : Config) : string :=
  let region := TrimSpace (Storage_Region (cfg_Storage cfg)) in
  let endpoint := TrimRightChar "/" (TrimSpace (Storage_Endpoint (cfg_Storage cfg))) in
  if String.eqb endpoint "" then "https://s3." +:+ (if String.eqb region "" then "us-east-1" else region) +:+ ".amazonaws.com" else endpoint.
(** Method and path of every route. *)
Definition served_paths (cfg : Config) : list (string * string) :=
  [("GET", "/health"); ("GET", "/version"); ("GET", "/ready"); ("GET", "/identity");
   ("GET", "/worker"); ("GET", "/worker/jobs"); ("POST", "/worker/jobs");
   ("GET", "/api/v1"); ("GET", "/api/v1/ws"); ("POST", "/api/v1/registration"); ("GET", "/api/v1/heartbeat"); ("POST", "/api/v1/heartbeat");
   ("GET", "/api/v1/metrics"); ("GET", "/api/v1/events"); ("POST", "/api/v1/events");
   ("GET", NormalizePattern (prometheus_path (Metrics_Path (cfg_Metrics cfg)))); ("GET", "/api/v1/observability");
   ("GET", "/api/v1/observability/grafana/dashboard"); ("GET", "/api/v1/observability/traces"); ("POST", "/api/v1/observability/traces");
   ("GET", "/api/v1/observability/audit"); ("POST", "/api/v1/observability/audit"); ("GET", "/api/v1/observability/alerts");
   ("GET", "/api/v1/observability/logs"); ("POST", "/api/v1/observability/logs")] ++
  (if DevUI_Enabled (cfg_DevUI cfg)
   then map (fun suffix => ("GET", NormalizePattern (normalizeBasePath (DevUI_Path (cfg_DevUI cfg)) +:+ suffix)))
          [""; "/metrics"; "/requests"; "/settings"; "/api/snapshot"; "/api/snapshot/"; "/api/requests"; "/api/requests/"; "/api/overview";
           "/api/config"; "/api/*"]
   else []) ++
  (if MediaHub_Enabled (cfg_MediaHub cfg) && MediaHub_GatewayEnabled (cfg_MediaHub cfg)
   then [("GET", "/_auren/gateway/*"); ("HEAD", "/_auren/gateway/*")] else []).

Record bootable (cfg : Config) : Prop := {
  b_path : TrimSpace (Storage_LocalPath (cfg_Storage cfg)) <> "";
  b_work : TrimSpace (MediaHub_WorkDir (cfg_MediaHub cfg)) <> "";
  b_durations : Forall (fun d => TrimSpace d = d)
    [Queue_PollInterval (cfg_Queue cfg); Heartbeat_Interval (cfg_Heartbeat cfg); Security_JWTTTL (cfg_Security cfg);
     Server_ReadTimeout (cfg_Server cfg); Server_WriteTimeout (cfg_Server cfg); Server_IdleTimeout (cfg_Server cfg);
     Worker_ShutdownTimeout (cfg_Worker cfg)];
  b_key : Security_APIKeyRequired (cfg_Security cfg) = true -> TrimSpace (Security_APIKey (cfg_Security cfg)) <> "";
  b_auren : AurenConfigured (Storage_Endpoint (cfg_Storage cfg)) (Storage_Bucket (cfg_Storage cfg)) = true ->
    reachable (Storage_Endpoint (cfg_Storage cfg));
  b_s3 : S3Configured (Storage_Bucket (cfg_Storage cfg)) (Storage_AccessKeyID (cfg_Storage cfg)) (Storage_SecretAccessKey (cfg_Storage cfg)) = true ->
    absolute (s3_address cfg);
  b_hub : MediaHub_Enabled (cfg_MediaHub cfg) = true -> reachable (MediaHub_BaseURL (cfg_MediaHub cfg));
  b_routes : NoDup (served_paths cfg)
}.

(** ** The stages succeed *)
Lemma valid_more cfg : Validate cfg = Ok tt ->
  oneOf "logger.level" (Logger_Level (cfg_Logger cfg)) ["trace"; "debug"; "info"; "warn"; "error"; "fatal"; "panic"; "disabled"] = [] /\
  oneOf "logger.format" (Logger_Format (cfg_Logger cfg)) ["json"; "console"] = [] /\
  duration "server.read_timeout" (Server_ReadTimeout (cfg_Server cfg)) = [] /\
  duration "server.write_timeout" (Server_WriteTimeout (cfg_Server cfg)) = [] /\
  duration "server.idle_timeout" (Server_IdleTimeout (cfg_Server cfg)) = [] /\
  duration "worker.shutdown_timeout" (Worker_ShutdownTimeout (cfg_Worker cfg)) = [].
Proof.
  unfold Validate. destruct (config_issues cfg) as [|i l] eqn:E; [intros _|done]. unfold config_issues in E.
  repeat (let H := fresh "P" in apply app_nil in E as [H E]).
  repeat match goal with |- _ /\ _ => split end; assumption.
Qed.

Lemma logger_builds cfg h : Validate cfg = Ok tt -> exists log, (logger_New (cfg_Logger cfg) true h).1 = Ok log.
Proof.
  intros (HL & HF & _)%valid_more. apply oneOf_ok in HL as (level & L1 & L2), HF as (format & F1 & F2).
  unfold logger_New, ParseLevel. rewrite L2, F2. cbn [negb].
  assert (negb (String.eqb (ToLower format) JSONFormat) && negb (String.eqb (ToLower format) ConsoleFormat) = false) as ->.
  { apply list_elem_of_In in F1. destruct F1 as [<-|[<-|[]]]; reflexivity. }
  assert (is_Some (assoc (ToLower level) level_names)) as [n ->].
  { apply list_elem_of_In in L1. cbn [In] in L1. destruct_or! L1; subst level; by eexists. }
  cbn. eauto.
Qed.

Lemma engines_build cfg : Validate cfg = Ok tt -> bootable cfg -> exists en, build_engines cfg = Ok en.
Proof.
  intros HV [B1 _ _ _ B5 B6 _ _]. destruct (build_client cfg HV) as [client EC].
  destruct (valid_parts cfg HV) as (_ & _ & _ & _ & _ & V6 & V7 & V8 & _).
  destruct (nonnegative_duration _ "download retry backoff" _ V7) as [backoff EB]. destruct (size_ok _ _ V8) as [partSize EP].
  assert (exists u, NewLocalUploader (Storage_LocalPath (cfg_Storage cfg)) = Ok u) as [u EU].
  { unfold NewLocalUploader. rewrite (proj2 (String.eqb_neq _ _) B1). eauto. }
  unfold build_engines, NewLocalAdapter. cbv zeta. rewrite EC. cbn [mbind result_bind]. unfold NewRetryPolicy.
  rewrite (proj2 (Z.ltb_ge _ _)), EB by done. cbn [mbind result_bind].
  change (NewBandwidthController 0) with (Ok 0 : result Z). cbn [mbind result_bind]. rewrite EP. cbn [mbind result_bind].
  rewrite EU. cbn [mbind result_bind].
  assert (exists auren, (if AurenConfigured (Storage_Endpoint (cfg_Storage cfg)) (Storage_Bucket (cfg_Storage cfg))
    then adapter ← NewAurenStorageAdapter (auren_options cfg partSize); Ok (Some adapter) else Ok None) = Ok auren) as [auren ->].
  { destruct (AurenConfigured _ _) eqn:EA; [|eauto]. destruct (NewAuren_ok cfg partSize EA (B5 eq_refl)) as [a ->]. cbn. eauto. }
  cbn [mbind result_bind]. destruct (S3Configured _ _ _) eqn:ES; [|cbn; eauto].
  destruct (B6 eq_refl) as (parsed & HP & HS & HH). apply andb_true_iff in ES as [[ES1 ES2]%andb_true_iff ES3].
  assert (NewS3Adapter (s3_options cfg) = Ok (mkS3Adapter (s3_address cfg) (TrimSpace (Storage_Bucket (cfg_Storage cfg)))
    (if String.eqb (TrimSpace (Storage_Region (cfg_Storage cfg))) "" then "us-east-1" else TrimSpace (Storage_Region (cfg_Storage cfg)))
    (TrimSpace (Storage_AccessKeyID (cfg_Storage cfg))) (TrimSpace (Storage_SecretAccessKey (cfg_Storage cfg)))
    (TrimSpace (Storage_SessionToken (cfg_Storage cfg)))
    (Storage_S3ForcePathStyle (cfg_Storage cfg) || Storage_UsePathStyle (cfg_Storage cfg)))) as ->; [|cbn; eauto].
  unfold NewS3Adapter, s3_options. cbn [so_Region so_Endpoint so_Bucket so_AccessKeyID so_SecretAccessKey so_SessionToken so_ForcePathStyle].
  cbv zeta. fold (s3_address cfg). rewrite HP.
  assert (negb (nonempty (u_Scheme parsed)) || negb (nonempty (u_Host parsed)) = false) as ->.
  { by destruct (u_Scheme parsed), (u_Host parsed). }
  apply negb_true_iff in ES1, ES2, ES3. by rewrite ES1, ES2, ES3.
Qed.

Lemma hub_builds cfg : bootable cfg ->
  exists hub, hub_client cfg = Ok hub /\ (is_Some hub <-> MediaHub_Enabled (cfg_MediaHub cfg) = true).
Proof.
  intros [_ _ _ _ _ _ B _]. unfold hub_client. destruct (MediaHub_Enabled (cfg_MediaHub cfg)).
  - destruct (NewClient_ok (MediaHub_BaseURL (cfg_MediaHub cfg)) user_agent (MediaHub_HMACEnabled (cfg_MediaHub cfg)) (hub_paths cfg) (B eq_refl))
      as [c ->]. exists (Some c). split; [done|]. split; [done|]. by eexists.
  - exists None. split; [done|]. split; [by intros [? [=]]|done].
Qed.

(** The transfer stage has the client of the hub exactly when the hub is enabled, its tracker
    has the configured slots, and the gateway serves when both switches are on. *)
Lemma transfers_build cfg en : bootable cfg ->
  exists tf, build_transfers check network None cfg en = Ok tf /\ hub_client cfg = Ok (tf_hub tf) /\
    tf_tracker tf = NewTracker (MediaHub_MaxConcurrentJobs (cfg_MediaHub cfg)) /\ length (tf_resolvers tf) = 10%nat /\
    tf_gateway tf = (if MediaHub_Enabled (cfg_MediaHub cfg) then Some (gateway_runtime cfg (tf_ops tf)) else None).
Proof.
  intros HB. destruct (hub_builds cfg HB) as (hub & EH & _). destruct HB as [_ B2 _ _ _ _ _ _].
  unfold build_transfers. cbv zeta. rewrite resolvers_register. cbn [mbind result_bind]. rewrite EH. cbn [mbind result_bind].
  unfold Transfer.NewStateStore. cbv zeta. rewrite (proj2 (String.eqb_neq _ _) B2). cbn [mbind result_bind]. by eexists.
Qed.

Lemma workers_build cfg stored identity queue clock provider : Validate cfg = Ok tt -> bootable cfg ->
  ValidateRecord (res_Record stored) = Ok tt -> NewIdentitySnapshot stored (Hostname.ResolveHostnameWith provider) = Ok identity ->
  Memory.wf (Adapters.embedded queue) -> clock <> 0 ->
  exists cw, build_workers cfg identity queue clock = Ok cw /\ zlen (workers (cw_pool cw)) = Worker_Concurrency (cfg_Worker cfg) /\
    0 < cw_poll cw /\ 0 < cw_beat cw /\ hb_AgentID (cw_heartbeat cw) = rec_AgentID (res_Record stored).
Proof.
  intros HV [_ _ B _ _ _ _ _] HR HI (W1 & _ & _) HC. destruct (valid_parts cfg HV) as (_ & _ & _ & _ & _ & _ & _ & _ & V9 & _ & _ & V12 & V13 & _).
  apply Forall_cons in B as [B1 [B2 _]%Forall_cons].
  destruct (exact_duration _ _ V12 B1) as (poll & E1 & Hp). destruct (exact_duration _ _ V13 B2) as (beat & E2 & Hb).
  assert (exists pool, NewPool (Worker_Concurrency (cfg_Worker cfg)) = Ok pool /\
    zlen (workers pool) = Worker_Concurrency (cfg_Worker cfg)) as (pool & EP & HP).
  { unfold NewPool. rewrite (proj2 (Z.leb_gt _ _)) by done. eexists. split; [done|]. unfold zlen. cbn [workers].
    rewrite length_map, length_seqZ. lia. }
  unfold build_workers. rewrite EP. cbn [mbind result_bind]. rewrite E1. cbn [mbind result_bind]. unfold NewFixedInterval at 1.
  rewrite (proj2 (Z.leb_gt _ _)) by done. cbn [negb mbind result_bind]. rewrite E2. cbn [mbind result_bind].
  match goal with |- context [NewHeartbeat ?i clock] => set (input := i) end.
  destruct (NewHeartbeat_total stored provider identity input clock HR HI eq_refl) as (record & EH & _ & HA & _).
  - right. discriminate.
  - done.
  - change (0 <= zlen (workers pool)). lia.
  - apply zlen_nonneg.
  - change (0 <= Memory.capacity (Adapters.embedded queue)). lia.
  - rewrite EH. cbn [mbind result_bind]. eexists. split; [reflexivity|]. by split_and!.
Qed.

Lemma guards_build cfg secrets : Validate cfg = Ok tt -> bootable cfg ->
  (Security_SecretsProvider (cfg_Security cfg) = "file" -> is_ok (secrets (TrimSpace (Security_SecretsFile (cfg_Security cfg)))) = true) ->
  exists gd, build_guards secrets cfg = Ok gd.
Proof.
  intros HV [_ _ B B4 _ _ _ _] HS. destruct (build_security cfg HV B4) as ((auth & EA) & (keys & EK) & HJ & (limiter & EL)).
  destruct (valid_parts cfg HV) as (_ & _ & _ & _ & _ & _ & _ & _ & _ & _ & _ & _ & _ & _ & V15 & _).
  do 2 apply Forall_cons in B as [_ B]. apply Forall_cons in B as [B3 _]. destruct (exact_duration _ _ V15 B3) as (ttl & E3 & _).
  destruct (HJ ttl) as [jwt EJ]. unfold build_guards. cbv zeta. rewrite EA. cbn [mbind result_bind]. rewrite EK. cbn [mbind result_bind].
  rewrite E3. cbn [mbind result_bind]. rewrite EJ. cbn [mbind result_bind]. rewrite EL. cbn [mbind result_bind].
  destruct (String.eqb_spec (Security_SecretsProvider (cfg_Security cfg)) "file") as [E|_]; [|cbn; eauto].
  unfold LoadSecretsFile. cbv zeta. destruct (String.eqb _ ""); [cbn; eauto|].
  destruct (proj1 (is_ok_true _) (HS E)) as [data ->]. cbn. eauto.
Qed.

(** An identity that was found or made is valid. *)
Lemma ensured_record path env fs stored states : EnsureIdentity marshal_identity unmarshal_identity path env fs = (Ok stored, states) ->
  ValidateRecord (res_Record stored) = Ok tt.
Proof.
  unfold EnsureIdentity. destruct (String.eqb _ ""); [done|]. destruct (LoadIdentity _ _ _ _) as [record|e] eqn:EL.
  - intros [= <- _]. by apply load_document_valid in EL.
  - destruct (negb _); [done|]. destruct (b_generated env) as [agentID|]; [|done].
    destruct (NewRecord agentID (b_now env)) as [record|] eqn:EN; [|done].
    destruct (SaveIdentity _ _ _ _ _ _) as [[e'|] st]; [done|]. intros [= <- _]. cbn [res_Record].
    unfold NewRecord in EN. destruct (NormalizeUUID agentID); [|done]. cbv zeta in EN.
    destruct (ValidateRecord _) as [[]|] eqn:EV; [|done]. by injection EN as <-.
Qed.

#[local] Existing Instance Memory.memory_queue.
#[local] Existing Instance Memory.memory_queue_spec.
Lemma restored_wf clock jobs : (forall i, IsZero (clock i) = false) -> forall n q,
  Memory.wf q -> Memory.wf (Persistence.restore_loop None clock n jobs q).2.
Proof.
  intros HC. induction jobs as [|j jobs IH]; intros n q HW; [done|]. cbn [Persistence.restore_loop].
  pose proof (enqueue_spec None (clock n) j q HW (HC n)) as HE. destruct (Enqueue None (clock n) j q) as [[e|] q']; destruct HE as [HW' _]; [done|].
  by apply IH.
Qed.

(** The queue of a start is well formed: what it restored is valid and fits. *)
Lemma start_queue_wf cfg qe fs queue restored fs' : (forall i, IsZero (qe_clock qe i) = false) ->
  start_queue marshal_queue unmarshal_queue cfg qe fs = (Ok (queue, restored), fs') -> Memory.wf (Adapters.embedded queue).
Proof.
  intros HC. unfold start_queue. cbv zeta. destruct (Adapters.NewQueue _) as [q|] eqn:EQ; [|done].
  destruct (memory_start cfg q EQ) as [EM HP].
  assert (Memory.wf (Adapters.embedded q)) as HW.
  { rewrite EM. split_and!; [done| |constructor]. change (0 <= Queue_MemoryCapacity (cfg_Queue cfg)). lia. }
  destruct (Persistence.Ensure _ _ _ _ _ _ _ _ _ _ _) as [[[snapshot result]|] fs1]; [|done].
  destruct (if String.eqb _ _ then _ else _) as [[n err] memory] eqn:ER. destruct err; [done|].
  destruct (Persistence.Save _ _ _ _ _ _ _ _ _) as [[saved|] states]; [|done]. intros [= <- _ _]. rewrite embedded_on.
  destruct (String.eqb _ _); [|by injection ER as _ <-]. unfold Persistence.Restore in ER. destruct (Persistence.ValidateSnapshot _); [|done].
  change memory with (n, @None error, memory).2. rewrite <- ER. by apply restored_wf.
Qed.

Lemma plan_valid jobs available assigned unassigned : Forall (fun j => ValidateJob j = Ok tt) jobs ->
  is_ok (assign_jobs jobs available assigned unassigned) = true.
Proof.
  intros HF. revert available assigned unassigned. induction HF as [|j jobs Hj _ IH]; intros available assigned unassigned; [done|].
  cbn [assign_jobs]. rewrite Hj. cbn [mbind result_bind]. destruct (SelectLeastLoaded available); apply IH.
Qed.

(** The identity of the node makes an agent of the cluster. *)
Lemma identity_agent stored provider identity capacity now : ValidateRecord (res_Record stored) = Ok tt ->
  NewIdentitySnapshot stored (Hostname.ResolveHostnameWith provider) = Ok identity -> 0 < capacity -> now <> 0 ->
  exists agent, LocalAgent (id_AgentID identity) (id_Fingerprint identity) (id_Hostname identity) (v_Version runtime_Info) (v_Status runtime_Info)
    capacity now now = Ok agent /\ ValidateAgent agent = Ok tt /\ a_ID agent = id_AgentID identity /\ is_available agent = true /\
    is_ok (NormalizeUUID (a_ID agent)) = true.
Proof.
  intros HR HI Hc Hn. destruct (identity_snapshot_total stored provider HR) as (snapshot & HS & HA & HF & _).
  rewrite HI in HS. injection HS as <-.
  assert (ValidateUUID (id_AgentID identity) = Ok tt) as HU.
  { rewrite HA. unfold ValidateRecord in HR. destruct (negb _); [done|]. by destruct (ValidateUUID _) as [[]|]. }
  assert (Hostname.ValidateHostname (id_Hostname identity) = Ok tt) as HH.
  { unfold NewIdentitySnapshot in HI. rewrite HR in HI. cbn [mbind result_bind] in HI. destruct (Hostname.ValidateHostname _) as [[]|] eqn:E; [|done].
    destruct (String.eqb _ ""); [done|]. apply bind_Ok in HI as (f & _ & [= <-]). exact E. }
  unfold LocalAgent, or_now. cbv zeta. assert (IsZero now = false) as HZ by (unfold IsZero; lia). rewrite HZ.
  match goal with |- context [ValidateAgent ?a] => set (agent := a) end.
  assert (ValidateAgent agent = Ok tt) as HV.
  { unfold ValidateAgent, agent_issues, agent. cbn [a_ID a_Fingerprint a_Hostname a_Version a_Status a_Capacity a_ActiveJobs a_LastSeenAt].
    rewrite HU, HF, HH, HZ. cbn [is_ok app]. change (String.eqb (TrimSpace (v_Version runtime_Info)) "") with false.
    change (IsSupportedAgentStatus AgentStatusAvailable) with true. replace (capacity <=? 0) with false by lia.
    replace (capacity <? 0) with false by lia. done. }
  rewrite HV. exists agent. split_and!; [done|done|done|done|]. cbn [a_ID agent]. by rewrite NormalizeUUID_spec, HU.
Qed.

Lemma membership_build cfg stored provider identity queue now : Validate cfg = Ok tt ->
  ValidateRecord (res_Record stored) = Ok tt -> NewIdentitySnapshot stored (Hostname.ResolveHostnameWith provider) = Ok identity ->
  Memory.wf queue -> now <> 0 ->
  exists mb, build_membership cfg identity (Memory.Snapshot queue) now now = Ok mb /\ a_ID (mb_agent mb) = id_AgentID identity /\
    (mb_leader mb).2 = true.
Proof.
  intros HV HR HI HW HN. destruct (valid_parts cfg HV) as (_ & _ & _ & _ & _ & _ & _ & _ & V9 & _).
  destruct (identity_agent stored provider identity _ now HR HI V9 HN) as (agent & EA & VA & IA & AV & NU).
  unfold build_membership. rewrite EA. cbn [mbind result_bind]. unfold Cluster.NewRegistry. cbn [Cluster.register_all]. unfold Register at 1.
  rewrite VA. cbn [mbind result_bind].
  assert (Cluster.List (<[a_ID agent := AgentClone agent]> ∅) = [AgentClone (AgentClone agent)]) as ->.
  { unfold Cluster.List. rewrite insert_empty, map_to_list_singleton. cbn. by rewrite lookup_singleton_eq. }
  unfold PlanFailover. destruct (proj1 (is_ok_true _) NU) as [failed ->].
  assert (Forall (fun j => ValidateJob j = Ok tt) (Memory.Snapshot queue)) as HJ.
  { pose proof (snapshot_spec queue HW) as HS. change (Memory.Snapshot queue = Memory.jobs queue) in HS. rewrite HS.
    destruct HW as (_ & _ & HF). eapply Forall_impl; [exact HF|]. intros j (Hj & _). by apply ValidateJob_Ok. }
  destruct (proj1 (is_ok_true _) (plan_valid (Memory.Snapshot queue) (map AgentClone (survivors failed [AgentClone (AgentClone agent)])) [] [] HJ))
    as [[assigned unassigned] ->].
  cbn [mbind result_bind]. eexists. split_and!; [reflexivity|exact IA|]. cbn [mb_leader]. unfold ElectLeader. rewrite filter_cons.
  change (is_available (AgentClone (AgentClone agent))) with (is_available agent). rewrite AV. done.
Qed.

(** ** The routes are accepted *)
Definition gateway_of (cfg : Config) (ops : Runtime) : option GwRuntime :=
  if MediaHub_Enabled (cfg_MediaHub cfg) then Some (gateway_runtime cfg ops) else None.

Lemma extra_keys cfg ops : map route_key (extra_routes cfg (gateway_of cfg ops)) =
  (if DevUI_Enabled (cfg_DevUI cfg)
   then map (fun suffix => ("GET", NormalizePattern (normalizeBasePath (DevUI_Path (cfg_DevUI cfg)) +:+ suffix)))
          [""; "/metrics"; "/requests"; "/settings"; "/api/snapshot"; "/api/snapshot/"; "/api/requests"; "/api/requests/"; "/api/overview";
           "/api/config"; "/api/*"]
   else []) ++
  (if MediaHub_Enabled (cfg_MediaHub cfg) && MediaHub_GatewayEnabled (cfg_MediaHub cfg)
   then [("GET", "/_auren/gateway/*"); ("HEAD", "/_auren/gateway/*")] else []).
Proof.
  unfold extra_routes, gateway_of. rewrite map_app. f_equal.
  - destruct (DevUI_Enabled (cfg_DevUI cfg)); [|done]. unfold DevRoutes.Routes, console_table. cbn [map]. unfold route_key.
    cbn [rd_Method rd_Pattern dc_Path console_config].
    assert (normalizeBasePath (DevUI_Path (cfg_DevUI cfg)) +:+ "" = normalizeBasePath (DevUI_Path (cfg_DevUI cfg))) as ->; [|done].
    apply chars_inj. by rewrite chars_app, app_nil_r.
  - destruct (MediaHub_Enabled (cfg_MediaHub cfg)); [|done]. unfold gateway_routes, gateway_runtime. cbn [gw_Enabled].
    by destruct (MediaHub_GatewayEnabled (cfg_MediaHub cfg)).
Qed.

Lemma served_keys cfg identity heartbeat auth ops :
  map route_key (launch_routes cfg identity heartbeat auth (gateway_of cfg ops)) = served_paths cfg.
Proof.
  unfold launch_routes, agent_routes, protected_routes. cbn [ar_extra]. rewrite !map_app, extra_keys. reflexivity.
Qed.

Lemma prometheus_path_rooted p : HasPrefix (prometheus_path p) "/" = true.
Proof.
  unfold prometheus_path. cbv zeta. set (q := if String.eqb (TrimSpace p) "" then "/metrics" else TrimSpace p).
  destruct (HasPrefix q "/") eqn:E; [exact E|]. apply (HasPrefix_app "/").
Qed.

Lemma routable_get name method pattern h : method ∈ ["GET"; "POST"; "HEAD"] -> HasPrefix pattern "/" = true ->
  routable (mkRouteDefinition (Env := ServerEnv) (State := ServerState) name method pattern (Some h)).
Proof.
  intros HM HP. split_and!; [|exact HP|by eexists]. cbn [rd_Method]. rewrite !elem_of_cons, elem_of_nil in HM.
  destruct HM as [->|[->|[->|[]]]]; apply (bool_decide_unpack _); vm_compute; exact I.
Qed.

Lemma launch_routable cfg identity heartbeat auth ops : Forall routable (launch_routes cfg identity heartbeat auth (gateway_of cfg ops)).
Proof.
  assert (forall s, HasPrefix (normalizeBasePath (DevUI_Path (cfg_DevUI cfg)) +:+ s) "/" = true) as HB.
  { intros s. unfold normalizeBasePath. cbv zeta. apply is_prefix_spec. rewrite !chars_app, <- app_assoc. eauto. }
  unfold launch_routes, agent_routes, protected_routes, extra_routes.
  repeat (apply Forall_app; split); try (destruct (DevUI_Enabled (cfg_DevUI cfg)); [|constructor]);
    try (unfold gateway_of; destruct (MediaHub_Enabled (cfg_MediaHub cfg)); [|constructor]; unfold gateway_routes; destruct (negb _); [constructor|]);
    try (unfold DevRoutes.Routes, console_table; cbn [map]);
    repeat (apply Forall_cons; split); try apply Forall_nil_2;
    (apply routable_get; [in_list|first [reflexivity|apply prometheus_path_rooted|apply HB]]).
Qed.

(** The router of an agent with these settings serves exactly these methods and paths. *)
Lemma router_builds cfg identity heartbeat auth ops : bootable cfg ->
  exists registry router, build_router cfg (launch_routes cfg identity heartbeat auth (gateway_of cfg ops)) = Ok (registry, router) /\
    route_keys registry = served_paths cfg /\ mx_routes router = map to_route registry.
Proof.
  intros [_ _ _ _ _ _ _ B]. rewrite <- (served_keys cfg identity heartbeat auth ops) in B |- *.
  pose proof (launch_routable cfg identity heartbeat auth ops) as HR. set (routes := launch_routes _ _ _ _ _) in *.
  destruct (add_all_routes_total routes [] HR B) as [registry ER]. unfold build_router, NewRouteRegistry. rewrite ER. cbn [mbind result_bind].
  destruct (route_registry_invariant routes registry ER) as (HF & HN & _).
  assert (exists chain, DefaultMiddlewareRegistry http_log true true
    (if DevUI_Enabled (cfg_DevUI cfg) then [mkMiddlewareDefinition "devui_request_recorder" (Some record_requests)] else []) = Ok chain /\
    is_ok (RegisterMiddlewares chain chi_NewRouter) = true /\ DefaultMiddlewareRegistry http_log false false chain = Ok chain) as (chain & -> & EM & ED).
  { destruct (DevUI_Enabled (cfg_DevUI cfg)); eexists; (split; [reflexivity|]); split; reflexivity. }
  cbn [mbind result_bind]. destruct (proj1 (is_ok_true _) EM) as [mux EX].
  unfold BuildRouter. rewrite ED. cbn [mbind result_bind]. rewrite EX. cbn [mbind result_bind].
  pose proof (RegisterMiddlewares_shape _ _ _ EX) as ->. rewrite RegisterRoutes_normal by done. cbn [mbind result_bind].
  eexists _, _. split; [reflexivity|]. split; [|reflexivity]. clear - HF HR.
  induction HF as [|d n routes registry HN _ IH]; [done|]. apply Forall_cons in HR as [Hd HR]. cbn [map route_keys]. f_equal; [|by apply IH].
  destruct (routable_normalizes d Hd) as (n' & E & HK). rewrite HN in E. by injection E as <-.
Qed.

Lemma durations_build cfg : Validate cfg = Ok tt -> bootable cfg -> exists d, serve_durations cfg = Ok d.
Proof.
  intros (_ & _ & V1 & V2 & V3 & V4)%valid_more [_ _ B _ _ _ _ _].
  do 3 apply Forall_cons in B as [_ B]. apply Forall_cons in B as [B1 [B2 [B3 [B4 _]%Forall_cons]%Forall_cons]%Forall_cons].
  destruct (exact_duration _ _ V1 B1) as (d1 & E1 & _), (exact_duration _ _ V2 B2) as (d2 & E2 & _),
    (exact_duration _ _ V3 B3) as (d3 & E3 & _), (exact_duration _ _ V4 B4) as (d4 & E4 & _).
  unfold serve_durations. rewrite E1. cbn [mbind result_bind]. rewrite E2. cbn [mbind result_bind]. rewrite E3. cbn [mbind result_bind].
  rewrite E4. cbn. eauto.
Qed.

Lemma finishes cfg env identity en tf cw gd mb s fs : Validate cfg = Ok tt -> bootable cfg -> tf_gateway tf = gateway_of cfg (tf_ops tf) ->
  exists l, finish cfg env identity en tf cw gd mb s fs = Ok l /\ ln_started l = s /\ ln_transfers l = tf /\ ln_crew l = cw /\
    route_keys (ln_registry l) = served_paths cfg /\ mx_routes (ln_router l) = map to_route (ln_registry l) /\
    Server.sv_queue (ln_state l) = Some (sd_queue s) /\ (is_Some (ln_serving l) <-> Server_Enabled (cfg_Server cfg) = true).
Proof.
  intros HV HB HG. destruct (router_builds cfg identity (cw_heartbeat cw) (gd_auth gd) (tf_ops tf) HB) as (registry & router & ER & HK & HM).
  unfold finish. rewrite HG, ER. cbn [mbind result_bind]. cbv zeta.
  destruct (Server_Enabled (cfg_Server cfg)).
  - destruct (durations_build cfg HV HB) as [d ->]. cbn [mbind result_bind].
    assert (exists m, (if MediaHub_Enabled (cfg_MediaHub cfg) then m ← serve_manager cfg; Ok (Some m) else Ok None) = Ok m) as [m ->].
    { destruct (MediaHub_Enabled (cfg_MediaHub cfg)); cbn; eauto. }
    cbn [mbind result_bind]. eexists. split; [reflexivity|]. by split_and!.
  - cbn [mbind result_bind]. eexists. split; [reflexivity|]. split_and!; try done. split; [by intros [? [=]]|done].
Qed.

(** The machine answers what the constructors ask of it. *)
Record healthy (cfg : Config) (env : launch_env) : Prop := {
  hl_mkdir : le_mkdir env = None;
  hl_beat : le_beat env <> 0;
  hl_seen : le_seen env <> 0;
  hl_clock : forall i, IsZero (qe_clock (le_queue env) i) = false;
  hl_secrets : Security_SecretsProvider (cfg_Security cfg) = "file" ->
    is_ok (le_secrets env (TrimSpace (Security_SecretsFile (cfg_Security cfg)))) = true
}.

(** C22: valid settings start the agent.  For settings that pass validation and are bootable, no
    constructor, no route and no check between them ends the start: it ends exactly when and as
    the identity file, the queue file or the hub end it, and leaves the same files.  When it
    goes through, the agent has the configured workers and slots, reports the stored identity,
    serves exactly the methods and paths of the settings, holds the restored queue, has a node
    state when the hub is enabled, and listens when the server is. *)
Theorem valid_settings_launch cfg env h fs : Validate cfg = Ok tt -> bootable cfg -> healthy cfg env ->
  match serve_start marshal_queue unmarshal_queue marshal unmarshal decode encode_registration encode_heartbeat encode_metrics encode_events
          marshal_identity unmarshal_identity cfg (start_env cfg env) fs with
  | (Err e, fs') => launch cfg env h fs = (Err e, fs')
  | (Ok s, fs') => exists l, launch cfg env h fs = (Ok l, fs') /\ ln_started l = s /\
      zlen (workers (cw_pool (ln_crew l))) = Worker_Concurrency (cfg_Worker cfg) /\
      tf_tracker (ln_transfers l) = NewTracker (MediaHub_MaxConcurrentJobs (cfg_MediaHub cfg)) /\
      hb_AgentID (cw_heartbeat (ln_crew l)) = id_AgentID (sd_identity s) /\
      route_keys (ln_registry l) = served_paths cfg /\ mx_routes (ln_router l) = map to_route (ln_registry l) /\
      Server.sv_queue (ln_state l) = Some (sd_queue s) /\
      (is_Some (sd_node s) <-> MediaHub_Enabled (cfg_MediaHub cfg) = true) /\
      (is_Some (ln_serving l) <-> Server_Enabled (cfg_Server cfg) = true)
  end.
Proof.
  intros HV HB [H1 H2 H3 H4 H5]. unfold launch, serve_start. cbv zeta. cbn [sv_identity sv_host sv_stop1 start_env].
  destruct (logger_builds cfg h HV) as [log ->].
  destruct (EnsureIdentity _ _ _ _ _) as [[stored|e] states] eqn:EI; [|reflexivity]. cbn [mbind result_bind].
  pose proof (ensured_record _ _ _ _ _ EI) as HR. destruct (identity_snapshot_total stored (le_host env) HR) as (identity & ES & HA & _).
  rewrite ES. cbn [mbind result_bind]. destruct (engines_build cfg HV HB) as [en ->]. cbn [mbind result_bind]. rewrite H1.
  destruct (transfers_build cfg en HB) as (tf & -> & EH & HT & _ & HG). destruct (hub_builds cfg HB) as (hub & EH' & HU).
  rewrite EH in EH'. injection EH' as <-. rewrite EH. cbn [mbind result_bind from_error].
  unfold serve_rest. cbn [sv_queue sv_stop2 start_env].
  destruct (start_queue _ _ _ _ _) as [[[queue restored]|e] fs1] eqn:EQ; [|reflexivity]. cbn [mbind result_bind from_error fst].
  pose proof (start_queue_wf _ _ _ _ _ _ H4 EQ) as HW.
  destruct (workers_build cfg stored identity queue (le_beat env) (le_host env) HV HB HR ES HW H2) as (cw & -> & C1 & _ & _ & C4).
  cbn [mbind result_bind]. destruct (guards_build cfg (le_secrets env) HV HB H5) as [gd ->]. cbn [mbind result_bind].
  destruct (membership_build cfg stored (le_host env) identity (Adapters.embedded queue) (le_seen env) HV HR ES HW H3) as (mb & -> & _).
  cbn [mbind result_bind]. unfold connect. cbn [sv_hub start_env].
  assert (forall node fs', exists l, finish cfg env identity en tf cw gd mb (mkStarted identity queue restored node) fs' = Ok l /\
    ln_started l = mkStarted identity queue restored node /\ zlen (workers (cw_pool (ln_crew l))) = Worker_Concurrency (cfg_Worker cfg) /\
    tf_tracker (ln_transfers l) = NewTracker (MediaHub_MaxConcurrentJobs (cfg_MediaHub cfg)) /\
    hb_AgentID (cw_heartbeat (ln_crew l)) = id_AgentID identity /\
    route_keys (ln_registry l) = served_paths cfg /\ mx_routes (ln_router l) = map to_route (ln_registry l) /\
    Server.sv_queue (ln_state l) = Some queue /\ (is_Some (ln_serving l) <-> Server_Enabled (cfg_Server cfg) = true)) as HF.
  { intros node fs'. destruct (finishes cfg env identity en tf cw gd mb (mkStarted identity queue restored node) fs' HV HB HG)
      as (l & EL & L1 & L2 & L3 & L4 & L5 & L6 & L7). exists l. rewrite L2, L3, HA, C4. by split_and!. }
  destruct (tf_hub tf) as [client|] eqn:EC.
  - destruct (Bootstrap _ _ _ _ _ _ _ _ _ _) as [[state [e|]] kw]; [reflexivity|]. cbn [mbind result_bind].
    destruct (HF (Some state) (Connector.w_fs kw)) as (l & -> & L1 & L2 & L3 & L4 & L5 & L6 & L7 & L8).
    exists l. cbn [sd_identity sd_queue sd_node]. split_and!; try assumption; [reflexivity|]. split; [intros _; apply HU; by eexists|by eexists].
  - cbn [mbind result_bind]. destruct (HF None fs1) as (l & -> & L1 & L2 & L3 & L4 & L5 & L6 & L7 & L8).
    exists l. cbn [sd_identity sd_queue sd_node]. split_and!; try assumption; [reflexivity|]. by rewrite <- HU.
Qed.
End Launch.

(** ** Example: the default settings *)
Definition launch0 (cfg : Config) (env : launch_env) (fs : FS) : result launched * FS :=
  launch Persistence.one_marshal (Persistence.one_unmarshal stored_snapshot) marshal0 unmarshal0 decode0 body0 body0 body0 body0
    bar_marshal bar_unmarshal sample_encode sample_decode_job refuse refuse refuse refuse refuse quiet_log (fun h => h)
    (fun _ => None) (fun _ => 1) (fun _ => mkOrders [] [] [] []) (fun _ => "{}") (fun _ _ _ _ => "") (fun _ _ => empty_snapshot 1)
    (fun _ _ w s => (w, None, s)) (fun _ _ => None) (fun _ => Resolver.sample_client) cfg env (mkHeap ∅ 0) fs.
Definition launch_env0 : launch_env :=
  mkLaunchEnv first_boot (Some ("node-a", None)) None queue_env0 9 9 (fun _ => Ok []) 9 ANil ANil boot0 9.

Lemma default_bootable : bootable DefaultConfig.
Proof.
  constructor; [vm_compute; discriminate|vm_compute; discriminate|apply (bool_decide_unpack _); vm_compute; exact I
    |intros H; discriminate H|intros H; vm_compute in H; discriminate H|intros H; vm_compute in H; discriminate H|intros H; discriminate H
    |apply (bool_decide_unpack _); vm_compute; exact I].
Qed.

Lemma valid_settings_launch_witness : exists l fs', launch0 DefaultConfig launch_env0 files0 = (Ok l, fs') /\
  zlen (workers (cw_pool (ln_crew l))) = 1 /\ route_keys (ln_registry l) = served_paths DefaultConfig /\
  map Job.ID (Memory.Snapshot (Adapters.embedded (sd_queue (ln_started l)))) = [Job.ID sample_job].
Proof.
  pose proof (valid_settings_launch Persistence.one_marshal (Persistence.one_unmarshal stored_snapshot) marshal0 unmarshal0 decode0 body0 body0
    body0 body0 bar_marshal bar_unmarshal sample_encode sample_decode_job refuse refuse refuse refuse refuse quiet_log (fun h => h)
    (fun _ => None) (fun _ => 1) (fun _ => mkOrders [] [] [] []) (fun _ => "{}") (fun _ _ _ _ => "") (fun _ _ => empty_snapshot 1)
    (fun _ _ w s => (w, None, s)) (fun _ _ => None) (fun _ => Resolver.sample_client) DefaultConfig launch_env0 (mkHeap ∅ 0) files0) as H.
  destruct (serve_start _ _ _ _ _ _ _ _ _ _ _ _ _ _) as [r fs'] eqn:E.
  assert (is_ok r = true /\ match r with Ok s => map Job.ID (Memory.Snapshot (Adapters.embedded (sd_queue s))) = [Job.ID sample_job] | Err _ => False end)
    as [_ HQ].
  { change r with (r, fs').1. rewrite <- E. split; vm_compute; reflexivity. }
  destruct r as [s|e]; [|destruct HQ]. destruct H as (l & HL & HS & HW & _ & _ & HK & _).
  - vm_compute. reflexivity.
  - exact default_bootable.
  - constructor; [reflexivity|discriminate|discriminate|reflexivity|intros _; reflexivity].
  - exists l, fs'. split; [exact HL|]. split; [exact HW|]. split; [exact HK|]. rewrite HS. exact HQ.
Defined.

(** ** Observations: valid settings that do not start *)

(** A variable with a blank before the duration passes validation, which trims, and is
    refused when the agent starts. *)
Theorem blank_before_duration_stops_start :
  match (Load (mkLoadOptions "" [] [""]) None aliases ∅ {["AUREN_QUEUE_POLL_INTERVAL" := " 1s"]}).1 with
  | Ok cfg => is_ok (launch0 cfg launch_env0 files0).1
  | Err _ => true
  end = false.
Proof. vm_compute. reflexivity. Qed.

(** With a remote storage driver validation does not ask for a local path, which the start
    needs all the same. *)
Theorem remote_driver_needs_local_path :
  let fs := {["agent.yaml" := str (join_chars Viper.line_feed (map chars
    ["storage:"; "  driver: s3"; "  bucket: b"; "  access_key_id: k"; "  secret_access_key: s"; "  local_path: ''"]))]} in
  match (Load (mkLoadOptions "agent.yaml" [] [""]) None aliases fs ∅).1 with
  | Ok cfg => is_ok (build_engines cfg)
  | Err _ => true
  end = false.
Proof. vm_compute. reflexivity. Qed.

(** Validation takes the provider of secrets in any letter case, the start only in lower case:
    with FILE the file of secrets is checked for and then not read. *)
Theorem provider_in_capitals_is_ignored :
  match (Load (mkLoadOptions "" [] [""]) None aliases ∅
           {["AUREN_SECURITY_SECRETS_PROVIDER" := "FILE"; "AUREN_SECURITY_SECRETS_FILE" := "/run/secrets.json"]}).1 with
  | Ok cfg => (gd ← build_guards (fun _ => Ok [("db", "hidden")]) cfg; Ok (gd_secrets gd)) = Ok ∅
  | Err _ => False
  end.
Proof. vm_compute. reflexivity. Qed.

(** A key that is configured only by its hash, which the verifier of the security package
    accepts, is refused by the authenticator. *)
Theorem hash_only_key_is_refused :
  let hash := HashAPIKey "secret" in
  is_ok (NewAPIKeyVerifier (mkAPIKeyOptions true "" hash "Authorization")) = true /\
  is_ok (NewAuthenticator true "" "Authorization") = false.
Proof. vm_compute. split; reflexivity. Qed.
