(* ===== verification/Plugins.v ===== *)
(** * The plugin contract: pkg/plugins/sdk.go

    Manifests of plugins, their validation and their normal form.  The two interfaces have no
    implementation in the repository. *)
From S2P Require Import Prelude GoStrings.

Definition KindResolver : string := "resolver".
Definition KindUploader : string := "uploader".

Record Manifest := mkManifest {
  mf_Name : string; mf_Kind : string; mf_Version : string; mf_Description : string; mf_Capabilities : list string;
  mf_Metadata : gmap string string
}.
Definition ValidateManifest (manifest : Manifest) : result unit :=
  if String.eqb (TrimSpace (mf_Name manifest)) "" then Err (Errorf "plugin manifest name is required") else
  let kind := ToLower (TrimSpace (mf_Kind manifest)) in
  if negb (String.eqb kind KindResolver) && negb (String.eqb kind KindUploader)
  then Err (Errorf ("plugin manifest kind must be one of " +:+ KindResolver +:+ ", " +:+ KindUploader)) else
  if String.eqb (TrimSpace (mf_Version manifest)) "" then Err (Errorf "plugin manifest version is required") else Ok tt.
Definition normal_form (manifest : Manifest) : Manifest :=
  mkManifest (TrimSpace (mf_Name manifest)) (ToLower (TrimSpace (mf_Kind manifest))) (TrimSpace (mf_Version manifest))
    (TrimSpace (mf_Description manifest)) (mf_Capabilities manifest) (mf_Metadata manifest).
Definition NormalizeManifest (manifest : Manifest) : result Manifest :=
  _ ← ValidateManifest (normal_form manifest); Ok (normal_form manifest).

(** Normalizing accepts exactly the valid manifests; what it returns is valid, of one of the two
    kinds, and normal: normalizing again changes nothing. *)
Theorem NormalizeManifest_spec manifest : is_ok (NormalizeManifest manifest) = is_ok (ValidateManifest manifest) /\
  forall n, NormalizeManifest manifest = Ok n ->
    ValidateManifest n = Ok tt /\ (mf_Kind n = KindResolver \/ mf_Kind n = KindUploader) /\ NormalizeManifest n = Ok n.
Proof.
  assert (forall k, ToLower (TrimSpace (ToLower (TrimSpace k))) = ToLower (TrimSpace k)) as HK.
  { intros k. rewrite TrimSpace_ToLower, TrimSpace_idemp. apply ToLower_idemp. }
  assert (ValidateManifest (normal_form manifest) = ValidateManifest manifest) as HV.
  { unfold ValidateManifest, normal_form. cbn [mf_Name mf_Kind mf_Version]. by rewrite !TrimSpace_idemp, HK. }
  assert (normal_form (normal_form manifest) = normal_form manifest) as HN.
  { unfold normal_form. cbn [mf_Name mf_Kind mf_Version mf_Description mf_Capabilities mf_Metadata]. by rewrite !TrimSpace_idemp, HK. }
  unfold NormalizeManifest at 1 2. rewrite HV. destruct (ValidateManifest manifest) as [[]|e] eqn:E; [|done].
  split; [done|]. intros n [= <-]. rewrite HV. split_and!; [done| |unfold NormalizeManifest; by rewrite HN, HV].
  unfold ValidateManifest in E. destruct (String.eqb _ ""); [done|]. cbv zeta in E. cbn [mf_Kind normal_form].
  destruct (String.eqb_spec (ToLower (TrimSpace (mf_Kind manifest))) KindResolver); [by left|].
  destruct (String.eqb_spec (ToLower (TrimSpace (mf_Kind manifest))) KindUploader); [by right|done].
Qed.
